(* ===== verification/_CoqProject ===== *)
-Q . S2P
Prelude.v
DList.v
SList.v
RingBuffer.v
RingBlk.v
Mem.v
BufHeap.v
Kservice.v
Printf.v
KState.v
Sched.v
Object.v
Timer.v
Thread.v
ThreadInit.v
Clock.v
Ipc.v
Sem.v
Mutex.v
Event.v
Mailbox.v
MsgQueue.v
MemPool.v
DriverIpc.v
DataQueue.v
Completion.v
WaitQueue.v
WorkQueue.v
Device.v
Pipe.v
Serial.v
SerialRx.v
SerialDma.v
Console.v
System.v
Interact.v
Camera.v
Sccb.v
Sensor.v
Dcmi.v
NetPerf.v
Msh.v
Shell.v
ShellInput.v
Checks.v
Startup.v
Boot.v
Scenario.v
Witnesses.v
DriverWitnesses.v
SerialWitnesses.v
QueueWitnesses.v
PipeWitnesses.v
SensorWitnesses.v
