(* ===== verification/Prelude.v ===== *)
(** * The RT-Thread kernel of an STM32F407 board, verified

    The program under src/ is an application for an STM32F407 board on the
    RT-Thread 3.1.5 real-time kernel. Its own core logic is the kernel: the code of
    src/os/ with the configuration of src/board/rtconfig.h (32 priorities,
    1000 ticks a second, small-memory heap, stack-overflow check, no soft timers, no
    memheap, slab or signals, 32-bit pointers) and the port of
    src/libcpu/arm/cortex-m4/. This development models that code operation by
    operation, and proves what the operations do and what they keep true.

    ** The parts of the program and the files that model them

    - [Prelude]: return codes and limits of rtdef.h, machine integers ([u8],
      [u16], [u32], [s32] write the wrap-around out), the state monad with failure
      [M] and its weakest precondition [wp] with the tactic [wp_simpl], singly
      linked lists in a store ([slist]).
    - [DList]: rt_list_* of os/include/rtservice.h on a store of nodes with next and
      prev pointers; each operation refines the one on plain lists. The other
      files use the plain lists. [SList]: rt_slist_* likewise.
    - [RingBuffer]: components/drivers/src/ringbuffer.c with the mirror bits of
      its indices; the buffer refines a byte queue. [RingBlk]: ringblk_buf.c, blocks of
      bytes cut from one buffer; the list of blocks refines a queue. [BufHeap]: the
      creation and the end of both on the heap of [Mem].
    - [Mem]: os/mem.c, block headers, first fit from lfree, merging of free
      neighbours, statistics, contents of areas.
    - [Kservice]: the string and memory functions of os/kservice.c, with the
      word and block loops of rt_memcpy and rt_memset, and __rt_ffs. [Printf]: its
      rt_vsnprintf, in a monad of its own that writes characters to a buffer.
    - [KState]: the state of the kernel: the structures of rtdef.h as records, the
      tables of objects by address, the lists of threads ([tlists]: ready lists,
      defunct list, one waiting list per IPC object), the list of active timers,
      the tick, the current thread, the heap; the callbacks of applications and
      drivers are the class [Callbacks]. The monad [K] is [M kernel].
    - [Sched], [Object], [Timer], [Thread]: os/scheduler.c, object.c, timer.c,
      thread.c with libcpu cpuport.c's stack frame. [ThreadInit]: how threads and
      other objects come into being.
    - [Clock]: os/clock.c, irq.c, rt_timer_check and the SysTick handler.
    - [Ipc]: the waiting lists of os/ipc.c. [Sem], [Mutex], [Event], [Mailbox],
      [MsgQueue]: its five kinds of objects. [MemPool]: os/mempool.c and the error
      number of kservice.c.
    - [DriverIpc], [DataQueue], [Completion]: components/drivers/src, dataqueue.c and
      completion.c; the tables of queues and of flags stand beside the kernel's state.
      The notification functions of drivers are the class [DqCallbacks]. [WaitQueue],
      [WorkQueue]: waitqueue.c and workqueue.c; the thread of a work queue is a machine of
      three steps ([worker_step]) between which interrupts and other threads call.
    - [Device]: os/device.c; what drivers promise is the class [DriverLaws].
      [Console]: rt_kputs, rt_kprintf and the choice of the console of kservice.c.
      [Pipe]: components/drivers/src/pipe.c, the device functions without the file system.
    - [Serial]: components/drivers/serial/serial.c whole: the polling, interrupt and DMA modes
      of both directions over the class of a UART driver. [SerialRx], [SerialDma]: what is
      received in interrupt and in DMA mode.
    - [System]: ticks and calls of the running thread as a transition system.
    - [Interact]: how a component asks its surroundings; used by the two applications.
    - [NetPerf]: the shell command of applications/net_throughput.c.
    - [Msh], [Shell]: components/finsh, msh.c and the line editor of shell.c. A line is a list
      of bytes, an access behind the array it stands in is [None]. [ShellInput]: how characters
      come from the serial device to the line editor: the receive indication, the semaphore
      of the shell, and finsh_getchar, interleaved with interrupts and other threads.
    - [Camera]: the application's camera server, applications/eth_camera.c, with the
      threads it starts and pauses (board/lvgl/lv_port.c) and the length computation of
      board/ATK_MC2640. lwIP and the hardware answer its requests; each answer comes with
      the kernel's state at that time.
    - [Sccb], [Sensor], [Dcmi]: the camera's driver, board/ATK_MC2640. [Sccb] sets and reads the two
      pins of the sensor's bus, against any peer, and defines the protocol as a decoder
      of levels and a device of registers ([slave_step]); [Sensor] has the driver's functions on top of it;
      [Dcmi] the capture of a frame on the kernel's semaphore. [Camera] takes the start of the
      camera and a transfer as one request each; these files have what is behind the two.
    - [Startup]: os/idle.c and os/components.c; the hardware and the linker's tables
      are the class [Board]. [Boot]: start-up as a whole. [Checks], [Scenario], [Witnesses]: decision
      procedures for the invariants, a concrete system that the start-up code and
      the kernel's calls build by computation, and the theorems applied to it;
      [DriverWitnesses], [SerialWitnesses], [QueueWitnesses], [PipeWitnesses] and [SensorWitnesses] do so for
      the drivers.

    Every definition is named like the function of the source it translates; a part
    of a function has a name of its own and says which. A thread, a timer or an IPC
    object is named by the address of its structure.

    ** How the code is represented

    [None] is an outcome from which the code does not come back: a failed RT_ASSERT, an
    access to no object, linking a node that is linked already, a loop that uses up
    its fuel. A theorem [wp m Q k] says that [m] returns from [k], and with what.
    Loops run on fuel that their caller computes from the state: the number of
    waiting threads (resume-all, reclaim; two more for the waiters of a work that ends) or of active
    timers (timer check), one more than the bytes asked for (pipes) or than the characters that the UART
    holds (its receive interrupt);
    [Clock.rt_timer_check_expires_due] and [System.reachable_calls_return] show that
    it is enough. A call that waits is cut at its rt_schedule: it
    returns [Wait] with the locals, and [rt_..._resume] is what runs when the
    thread is switched in again. The hooks of RT_USING_HOOK are NULL. Memory
    contents are modelled where the code depends on them: the contents of heap areas,
    mailbox cells, messages, the link words of pools, and of a stack only its first
    byte, which the overflow check reads.

    ** What the theorems show

    - The scheduler ([Sched.kinv] puts together [sched_inv], [timer_inv] and the links
      between them): the ready lists hold exactly the READY threads, the bitmap
      tells the lists that are not empty, a thread is on one list at most, the active
      timers are in the order of their timeouts across a wrap of the tick counter;
      rt_schedule leaves no READY thread above the running one.
    - The system: [System.sys_inv] holds in all reachable states, where the running
      thread has the highest priority and each call returns.
    - Start-up: from reset the kernel comes to a state of the invariant with the main
      thread running, on every board whose drivers keep to [Boot.BoardLaws].
    - Time: a sleep lasts its number of ticks, timeouts wake exactly the threads that are
      due, the timer check ends.
    - Threads: start, suspend and resume, yield, sleep, change of priority.
    - Driver objects: a data queue is a bounded queue of items, a completion passes to its
      waiter or is lost to a timeout.
    - IPC: which thread is woken, with which result, in which order; counters and their
      limits; priority inheritance and its end; event flags; mailboxes and message
      queues refine a queue of words and a list of messages; memory pools hand out
      blocks that are apart.
    - Devices: any sequence of openings and closings follows the contract of a
      reference-counted device, whatever the driver answers, up to the 256th opening at a time, which an
      assertion stops.
    - Block buffers: under the obligations of their callers they are queues of blocks; their blocks lie apart after
      any calls, if no block is longer than the buffer; buffers give the heap back what they took.
    - Work and wait queues: a work queue is a queue of distinct works, except for two races of
      its thread; a wakeup can be spent on a waiter that timed out. A pipe is a bounded queue of bytes
      whose memory its last close does not free.
    - Serial devices: reception is a queue that keeps the newest characters: one fewer than its buffer
      has bytes in interrupt mode, as many in DMA mode (with a buffer of at most 32768 bytes, the range of the
      indices); a second opening of another mode makes them unreachable. The shell's input: in every interleaving
      the line editor gets the received characters in order, all of them if none found the buffer full, and the
      shell does not sleep while one waits.
    - The sensor: register accesses over the two pins are those of the device behind them; sizes and windows come to
      the registers whole within their width; a capture hands over as many words as fit the
      caller's buffer, takes a late end of frame for its own, and goes through a null handle when
      the sensor was not accepted.
    - The shell: on lines that fit it is an editor of a list of characters with a history, and
      splitting a line gives the arguments of a reference tokenizer; a line that reaches 80
      characters leads it out of its arrays in three ways.
    - The throughput test: it closes what it opens and reports what was moved; tests of more
      than 4294 s do not end.
    - The camera server: it never fails and sends whole frames only; pausing the display
      has no effect; a dead connection is kept.
    - Data structures: the heap invariant, freshness and disjointness of allocated
      areas, kept contents; ring buffer and lists as queues and lists; library
      functions against reference definitions.
    - Printing: rt_vsnprintf keeps the contract of snprintf for the text that a reference
      formatter ([Printf.format_text]) makes of format and arguments, numbers are printed with
      the digits of their value, rt_kprintf hands the console what it can hold.

    ** What is not modelled, and why

    - Interrupts arrive between calls: the windows inside a call between
      rt_hw_interrupt_enable and rt_schedule (and while a message is copied) are not split
      into steps. [System] has the calls that end in rt_schedule; rt_thread_resume,
      rt_thread_suspend and a change of priority leave it to their caller.
    - os/memheap.c, slab.c, signal.c, soft timers: not configured. The version banner: output only.
    - The assembly of the context switch, registers and interrupt masking: the model
      starts where the C code of the kernel does.
    - Delays, clocks and the configuration of pins: they change no state that the code looks at. The sensor's
      bus has settled levels only, and a pin that is driven has the level of its output register.
    - components/ (lwIP, the C interpreter of finsh, the drivers that are not named above, the files of RT_USING_POSIX),
      src/board (HAL, LVGL, panel, SRAM, the glue of the UART): vendored code and glue to hardware.
      applications/: the user interface is calls of LVGL. *)
From stdpp Require Export prelude gmap list strings.
From Stdlib Require Export ZArith Lia.

#[export] Set Default Proof Using "Type".
Global Open Scope Z_scope.

(** * Return codes and limits of os/include/rtdef.h *)

Definition RT_EOK : Z := 0.
Definition RT_ERROR : Z := 1.
Definition RT_ETIMEOUT : Z := 2.
Definition RT_EFULL : Z := 3.
Definition RT_EEMPTY : Z := 4.
Definition RT_ENOMEM : Z := 5.
Definition RT_ENOSYS : Z := 6.
Definition RT_EBUSY : Z := 7.
Definition RT_EIO : Z := 8.
Definition RT_EINTR : Z := 9.
Definition RT_EINVAL : Z := 10.

Definition RT_UINT8_MAX : Z := 255.
Definition RT_UINT16_MAX : Z := 65535.
Definition RT_UINT32_MAX : Z := 4294967295.
Definition RT_TICK_MAX : Z := RT_UINT32_MAX.
Definition RT_SEM_VALUE_MAX : Z := RT_UINT16_MAX.
Definition RT_MUTEX_VALUE_MAX : Z := RT_UINT16_MAX.
Definition RT_MUTEX_HOLD_MAX : Z := RT_UINT8_MAX.
Definition RT_MB_ENTRY_MAX : Z := RT_UINT16_MAX.
Definition RT_MQ_ENTRY_MAX : Z := RT_UINT16_MAX.

(** * Machine integers: a value of a w-bit type is the [Z] it denotes *)

Definition u8 (x : Z) : Z := x mod 256.
Definition u16 (x : Z) : Z := x mod 65536.
Definition u32 (x : Z) : Z := x mod 4294967296.
Definition s8 (x : Z) : Z := (x + 128) mod 256 - 128.
Definition s16 (x : Z) : Z := (x + 32768) mod 65536 - 32768.
Definition s32 (x : Z) : Z := (x + 2147483648) mod 4294967296 - 2147483648.

(** [RT_ALIGN] and [RT_ALIGN_DOWN] at the width of [rt_ubase_t]. *)
Definition RT_ALIGN (size align : Z) : Z :=
  Z.land (u32 (size + align - 1)) (u32 (Z.lnot (align - 1))).
Definition RT_ALIGN_DOWN (size align : Z) : Z :=
  Z.land size (u32 (Z.lnot (align - 1))).

(** board/rtconfig.h *)
Definition RT_ALIGN_SIZE : Z := 4.
Definition RT_NAME_MAX : Z := 8.
Definition RT_THREAD_PRIORITY_MAX : Z := 32.
Definition RT_TICK_PER_SECOND : Z := 1000.

(** * A state monad with failure

    [None] is the outcome of code that does not come back: a failed
    [RT_ASSERT] (its handler loops on [while (dummy == 0)]), an access
    through a pointer to no object, or a loop that exhausts its fuel. *)
Definition M (S A : Type) : Type := S → option (A * S).

#[global] Instance M_ret S : MRet (M S) := λ A a s, Some (a, s).
#[global] Instance M_bind S : MBind (M S) :=
  λ A B f m s, match m s with Some (a, s') => f a s' | None => None end.

Definition fail {S A} : M S A := λ _, None.
Definition get {S} : M S S := λ s, Some (s, s).
Definition gets {S A} (f : S → A) : M S A := λ s, Some (f s, s).
Definition modify {S} (f : S → S) : M S unit := λ s, Some (tt, f s).
Definition lift {S A} (o : option A) : M S A :=
  λ s, match o with Some a => Some (a, s) | None => None end.
(** [RT_ASSERT(b)]. *)
Definition RT_ASSERT {S} (b : bool) : M S unit :=
  λ s, if b then Some (tt, s) else None.
Fixpoint for_each {S A} (f : A → M S unit) (l : list A) : M S unit :=
  match l with [] => mret tt | x :: l => f x;; for_each f l end.
Definition when {S} (b : bool) (m : M S unit) : M S unit :=
  if b then m else mret tt.

(** * Weakest preconditions: [wp m Q s] says that [m] started in [s]
    does return, with a result and a state that satisfy [Q]. *)
Definition wp {S A} (m : M S A) (Q : A → S → Prop) (s : S) : Prop :=
  match m s with Some (a, s') => Q a s' | None => False end.

Section wp.
Context {S : Type}.
Implicit Types s : S.

Lemma wp_ret {A} (a : A) (Q : A → S → Prop) s : wp (mret a) Q s ↔ Q a s.
Proof. done. Qed.
Lemma wp_bind {A B} (m : M S A) (f : A → M S B) Q s :
  wp (m ≫= f) Q s ↔ wp m (λ a s', wp (f a) Q s') s.
Proof. unfold wp, mbind, M_bind. by destruct (m s) as [[??]|]. Qed.
Lemma wp_assoc {A B C} (m : M S A) (f : A → M S B) (g : B → M S C) Q s :
  wp ((m ≫= f) ≫= g) Q s ↔ wp (m ≫= λ a, f a ≫= g) Q s.
Proof. unfold wp, mbind, M_bind. by destruct (m s) as [[??]|]. Qed.
Lemma wp_mono {A} (m : M S A) (Q Q' : A → S → Prop) s :
  wp m Q s → (∀ a s', Q a s' → Q' a s') → wp m Q' s.
Proof. unfold wp. destruct (m s) as [[??]|]; eauto. Qed.
Lemma wp_conj {A} (m : M S A) (Q Q' : A → S → Prop) s :
  wp m Q s → wp m Q' s → wp m (λ a s', Q a s' ∧ Q' a s') s.
Proof. unfold wp. destruct (m s) as [[??]|]; eauto. Qed.
Lemma wp_get Q s : wp get Q s ↔ Q s s.
Proof. done. Qed.
Lemma wp_gets {A} (f : S → A) Q s : wp (gets f) Q s ↔ Q (f s) s.
Proof. done. Qed.
Lemma wp_modify (f : S → S) Q s : wp (modify f) Q s ↔ Q tt (f s).
Proof. done. Qed.
Lemma wp_lift_Some {A} (a : A) Q s : wp (lift (Some a)) Q s ↔ Q a s.
Proof. done. Qed.
Lemma wp_assert (b : bool) Q s : wp (RT_ASSERT b) Q s ↔ b = true ∧ Q tt s.
Proof. unfold wp, RT_ASSERT. destruct b; naive_solver. Qed.
Lemma wp_when (b : bool) (m : M S unit) Q s :
  wp (when b m) Q s ↔ if b then wp m Q s else Q tt s.
Proof. by destruct b. Qed.
Lemma wp_inv {A} (m : M S A) Q s :
  wp m Q s ↔ ∃ a s', m s = Some (a, s') ∧ Q a s'.
Proof. unfold wp. destruct (m s) as [[??]|]; naive_solver. Qed.
Lemma wp_run {A} (m : M S A) Q s a s' : m s = Some (a, s') → wp m Q s ↔ Q a s'.
Proof. unfold wp. by intros ->. Qed.
Lemma bind_run {A B} (m : M S A) (f : A → M S B) s a s' :
  m s = Some (a, s') → (m ≫= f) s = f a s'.
Proof. unfold mbind, M_bind. by intros ->. Qed.
End wp.

Create Rewrite HintDb wp.
Create Rewrite HintDb width.
#[export] Hint Rewrite @wp_ret @wp_bind @wp_get @wp_gets @wp_modify
  @wp_lift_Some @wp_assert @wp_when : wp.
(** Symbolic execution of straight-line monadic code. *)
Ltac wp_simpl := cbn beta; autorewrite with wp; cbn beta.

(** * Arithmetic at machine width *)
Section width.
Lemma u8_small x : 0 ≤ x < 256 → u8 x = x.
Proof. apply Z.mod_small. Qed.
Lemma u16_small x : 0 ≤ x < 65536 → u16 x = x.
Proof. apply Z.mod_small. Qed.
Lemma u32_small x : 0 ≤ x < 4294967296 → u32 x = x.
Proof. apply Z.mod_small. Qed.
Lemma u8_range x : 0 ≤ u8 x < 256.
Proof. by apply Z.mod_pos_bound. Qed.
Lemma u16_range x : 0 ≤ u16 x < 65536.
Proof. by apply Z.mod_pos_bound. Qed.
Lemma u32_range x : 0 ≤ u32 x < 4294967296.
Proof. by apply Z.mod_pos_bound. Qed.
Lemma s32_small x : -2147483648 ≤ x < 2147483648 → s32 x = x.
Proof. intros. unfold s32. rewrite Z.mod_small; lia. Qed.
Lemma s16_small x : -32768 ≤ x < 32768 → s16 x = x.
Proof. intros. unfold s16. rewrite Z.mod_small; lia. Qed.
Lemma u32_sub_mod x y : u32 (u32 x - y) = u32 (x - y).
Proof. unfold u32. by rewrite Zminus_mod_idemp_l. Qed.
Lemma u32_add_mod x y : u32 (u32 x + y) = u32 (x + y).
Proof. unfold u32. by rewrite Zplus_mod_idemp_l. Qed.

Lemma land_clear_low x : 0 ≤ x < 4294967296 → Z.land x 4294967292 = x - x mod 4.
Proof.
  intros Hx.
  assert (x = Z.lor (Z.land x 4294967292) (Z.land x 3)) as E.
  { rewrite <- Z.land_lor_distr_r. change (Z.lor 4294967292 3) with (Z.ones 32).
    by rewrite Z.land_ones, Z.mod_small by (simpl; lia). }
  assert (Z.land x 3 = x mod 4) as E2.
  { change 3 with (Z.ones 2). by rewrite Z.land_ones. }
  assert (Z.land (Z.land x 4294967292) (Z.land x 3) = 0) as D.
  { rewrite (Z.land_comm x 3), Z.land_assoc, <-(Z.land_assoc x).
    change (Z.land 4294967292 3) with 0. by rewrite Z.land_0_r, Z.land_0_l. }
  pose proof (Z.add_lor_land (Z.land x 4294967292) (Z.land x 3)) as A.
  rewrite D in A. rewrite <- E, E2 in A. lia.
Qed.
Lemma RT_ALIGN_DOWN_4 x : 0 ≤ x < 4294967296 → RT_ALIGN_DOWN x 4 = x - x mod 4.
Proof. apply land_clear_low. Qed.
Lemma RT_ALIGN_4 x :
  0 ≤ x < 4294967293 → RT_ALIGN x 4 = x + 3 - (x + 3) mod 4.
Proof.
  intros. unfold RT_ALIGN. replace (x + 4 - 1) with (x + 3) by lia.
  rewrite u32_small by lia. apply land_clear_low. lia.
Qed.
(** The sum in [RT_ALIGN] wraps: the three largest sizes align to 0. *)
Lemma RT_ALIGN_4_wrap x : 4294967293 ≤ x < 4294967296 → RT_ALIGN x 4 = 0.
Proof.
  intros. assert (x = 4294967293 ∨ x = 4294967294 ∨ x = 4294967295)
    as [->|[->| ->]] by lia; reflexivity.
Qed.
Lemma RT_ALIGN_4_bounds x :
  0 ≤ x < 4294967293 → x ≤ RT_ALIGN x 4 ≤ x + 3 ∧ RT_ALIGN x 4 mod 4 = 0.
Proof. intros. rewrite RT_ALIGN_4 by lia. split; [|]; Z.div_mod_to_equations; lia. Qed.
End width.

#[export] Hint Rewrite u8_small u16_small u32_small s32_small s16_small using lia : width.
(** Removes the wrap-around of sums that stay in range. *)
Ltac nowrap := autorewrite with width.

(** * Lists shared by the components *)
Section lists.
Context {A : Type} `{EqDecision A}.
Implicit Types l : list A.

(** Removal of every occurrence of [x]; a node is on a list at most once. *)
Definition lremove (x : A) l : list A := filter (λ y, y ≠ x) l.

Lemma elem_of_lremove x y l : y ∈ lremove x l ↔ y ∈ l ∧ y ≠ x.
Proof. unfold lremove. rewrite list_elem_of_filter. naive_solver. Qed.
Lemma lremove_notin x l : x ∉ l → lremove x l = l.
Proof.
  induction l as [|y l IH]; [done|]. intros Hx. unfold lremove.
  rewrite filter_cons_True by set_solver. f_equal. apply IH. set_solver.
Qed.
Lemma lremove_app x l1 l2 : lremove x (l1 ++ l2) = lremove x l1 ++ lremove x l2.
Proof. apply filter_app. Qed.
Lemma lremove_cons_eq x l : lremove x (x :: l) = lremove x l.
Proof. unfold lremove. rewrite filter_cons_False; [done|naive_solver]. Qed.
Lemma lremove_cons_ne x y l : y ≠ x → lremove x (y :: l) = y :: lremove x l.
Proof. intros. unfold lremove. by rewrite filter_cons_True. Qed.
Lemma lremove_NoDup x l : NoDup l → NoDup (lremove x l).
Proof. apply NoDup_filter. Qed.
Lemma lremove_mid x l1 l2 : NoDup (l1 ++ x :: l2) → lremove x (l1 ++ x :: l2) = l1 ++ l2.
Proof.
  intros Hnd. apply NoDup_app in Hnd as (Hn1 & Hd & Hn2).
  apply NoDup_cons in Hn2 as [Hx Hn2].
  rewrite lremove_app, lremove_cons_eq, !lremove_notin; [done|done|].
  intros Hin. apply (Hd x Hin). set_solver.
Qed.
Lemma lremove_cons_perm x l : NoDup l → x ∈ l → lremove x l ++ [x] ≡ₚ l.
Proof.
  intros Hnd Hin. apply list_elem_of_split in Hin as (l1 & l2 & ->).
  rewrite lremove_mid by done. rewrite Permutation_app_comm. simpl. apply Permutation_middle.
Qed.
Lemma lremove_length_in x l : x ∈ l → (length (lremove x l) < length l)%nat.
Proof.
  induction l as [|y l IH]; [set_solver|]. destruct (decide (y = x)) as [->|Hne].
  - intros _. rewrite lremove_cons_eq. simpl.
    pose proof (length_filter (λ y, y ≠ x) l). unfold lremove. lia.
  - rewrite lremove_cons_ne by done. intros Hin. simpl.
    apply Nat.succ_lt_mono in IH; [lia|set_solver].
Qed.
End lists.
#[export] Hint Resolve lremove_NoDup : core.

(** C arrays of bytes: [memcpy] of a range onto another. *)
Section arrays.
Context {A : Type}.
(** [l] with the cells from [i] on overwritten by [v]. *)
Definition lwrite (i : nat) (v l : list A) : list A :=
  take i l ++ v ++ drop (i + length v) l.
Definition lread (i n : nat) (l : list A) : list A := take n (drop i l).

Lemma length_lwrite i (v l : list A) :
  (i + length v ≤ length l)%nat → length (lwrite i v l) = length l.
Proof. intros. unfold lwrite. rewrite !length_app, length_take, length_drop. lia. Qed.
Lemma length_lread i n (l : list A) :
  (i + n ≤ length l)%nat → length (lread i n l) = n.
Proof. intros. unfold lread. rewrite length_take, length_drop. lia. Qed.
Lemma lookup_lwrite i (v l : list A) j :
  (i + length v ≤ length l)%nat →
  lwrite i v l !! j =
    if decide (i ≤ j < i + length v)%nat then v !! (j - i)%nat else l !! j.
Proof.
  intros. unfold lwrite. case_decide.
  - rewrite lookup_app_r by (rewrite length_take; lia).
    rewrite length_take, Nat.min_l by lia. by rewrite lookup_app_l by lia.
  - destruct (decide (j < i)%nat).
    + rewrite lookup_app_l by (rewrite length_take; lia). by rewrite lookup_take_lt.
    + rewrite lookup_app_r by (rewrite length_take; lia).
      rewrite lookup_app_r by (rewrite length_take; lia).
      rewrite lookup_drop. f_equal. rewrite length_take. lia.
Qed.
Lemma lookup_lread i n (l : list A) j :
  lread i n l !! j = if decide (j < n)%nat then l !! (i + j)%nat else None.
Proof.
  unfold lread. case_decide.
  - by rewrite lookup_take_lt, lookup_drop.
  - by rewrite lookup_take_ge by lia.
Qed.
Lemma lread_lwrite_eq i (v l : list A) :
  (i + length v ≤ length l)%nat → lread i (length v) (lwrite i v l) = v.
Proof.
  intros. unfold lread, lwrite.
  rewrite drop_app_ge by (rewrite length_take; lia).
  rewrite length_take, Nat.min_l by lia. rewrite Nat.sub_diag, drop_0.
  by rewrite take_app_length.
Qed.
End arrays.

(** * Linked lists in a store of nodes: the nodes from address [p] on *)

Section slist.
Context {N : Type} (next : N → Z).
Implicit Types (ns : gmap Z N) (l : list Z).

Fixpoint slist (ns : gmap Z N) (p : Z) (l : list Z) : Prop :=
  match l with
  | [] => p = 0
  | a :: l => p = a ∧ a ≠ 0 ∧ ∃ n, ns !! a = Some n ∧ slist ns (next n) l
  end.
Lemma slist_insert_ne ns p l a n : a ∉ l → slist ns p l → slist (<[a := n]> ns) p l.
Proof.
  revert p. induction l as [|b l IH]; [done|]. intros p [Hne Hn]%not_elem_of_cons.
  intros (-> & H0 & n' & Hb & Hc). split; [done|]. split; [done|]. exists n'.
  rewrite lookup_insert_ne by done. auto.
Qed.
Lemma slist_nonzero ns p l a : slist ns p l → a ∈ l → a ≠ 0.
Proof.
  revert p. induction l as [|b l IH]; [by intros ? _ ?%not_elem_of_nil|].
  intros p (-> & H0 & n & _ & Hc) [->|Hin]%elem_of_cons; [done|by eapply IH].
Qed.
Lemma slist_head_zero ns p l : slist ns p l → p = 0 ↔ l = [].
Proof. destruct l; [done|]. intros (-> & H0 & _). naive_solver. Qed.
Lemma slist_lookup ns p l a : slist ns p l → a ∈ l → is_Some (ns !! a).
Proof.
  revert p. induction l as [|b l IH]; [by intros ? _ ?%not_elem_of_nil|].
  intros p (-> & H0 & n & Hn & Hc) [->|Hin]%elem_of_cons; [by eexists|by eapply IH].
Qed.
End slist.
