(* ===== verification/DList.v ===== *)
(** Doubly linked kernel lists: the pointer code of os/include/rtservice.h
    ([rt_list_*]) over a store of nodes, and its refinement of plain lists.
    [DList] is the pointer code, [ring] and [repr] relate a store to the
    abstract lists it holds; the other files use the abstract lists. *)
From S2P Require Import Prelude.

(** struct rt_list_node *)
Record rt_list_node (A : Type) := Node { next : A; prev : A }.
Arguments Node {A} _ _.
Arguments next {A} _.
Arguments prev {A} _.

Section DList.
Context {A : Type} `{Countable A}.
Abbreviation store := (gmap A (rt_list_node A)).
Implicit Types s : store.

Definition get_next (x : A) : M store A := λ s, n ← s !! x; Some (next n, s).
Definition get_prev (x : A) : M store A := λ s, n ← s !! x; Some (prev n, s).
Definition set_next (x v : A) : M store unit :=
  λ s, n ← s !! x; Some (tt, <[x := Node v (prev n)]> s).
Definition set_prev (x v : A) : M store unit :=
  λ s, n ← s !! x; Some (tt, <[x := Node (next n) v]> s).

Definition rt_list_init (l : A) : M store unit :=
  set_prev l l;; set_next l l.

Definition rt_list_insert_after (l n : A) : M store unit :=
  ln ← get_next l; set_prev ln n;;
  ln ← get_next l; set_next n ln;;
  set_next l n;;
  set_prev n l.

Definition rt_list_insert_before (l n : A) : M store unit :=
  lp ← get_prev l; set_next lp n;;
  lp ← get_prev l; set_prev n lp;;
  set_prev l n;;
  set_next n l.

Definition rt_list_remove (n : A) : M store unit :=
  nn ← get_next n; np ← get_prev n; set_prev nn np;;
  np ← get_prev n; nn ← get_next n; set_next np nn;;
  set_prev n n;; set_next n n.

Definition rt_list_isempty (l : A) : M store bool :=
  ln ← get_next l; mret (bool_decide (ln = l)).

(** The [while (p->next != l)] loop of [rt_list_len]. *)
Fixpoint rt_list_len_loop (fuel : nat) (l p : A) (len : Z) : M store Z :=
  match fuel with
  | O => fail
  | S fuel =>
      pn ← get_next p;
      if bool_decide (pn = l) then mret len
      else rt_list_len_loop fuel l pn (u32 (len + 1))
  end.
Definition rt_list_len (fuel : nat) (l : A) : M store Z := rt_list_len_loop fuel l l 0.

(** ** Abstraction: the list held by a ring of nodes *)
Definition nxt s x : option A := next <$> s !! x.
Definition prv s x : option A := prev <$> s !! x.

(** [path s x xs y]: following [next] from [x] visits [xs] and reaches
    [y], and the [prev] pointers go the way back. *)
Fixpoint path s (x : A) (xs : list A) (y : A) : Prop :=
  match xs with
  | [] => nxt s x = Some y ∧ prv s y = Some x
  | z :: zs => (nxt s x = Some z ∧ prv s z = Some x) ∧ path s z zs y
  end.
Definition ring s (h : A) (xs : list A) : Prop := path s h xs h ∧ NoDup (h :: xs).

(** A store holds a family of lists: every head (a list head, or a node
    that is on no list, which is a ring of its own) with its elements. *)
Definition repr s (abs : gmap A (list A)) : Prop :=
  (∀ h xs, abs !! h = Some xs → ring s h xs) ∧
  (∀ h1 h2 xs1 xs2, abs !! h1 = Some xs1 → abs !! h2 = Some xs2 → h1 ≠ h2 →
     (h1 :: xs1) ## (h2 :: xs2)).

(** What the assignments of an insertion or a removal amount to. *)
Definition linked s s' (p n q : A) : Prop :=
  (∀ x, nxt s' x = if decide (x = n) then Some q
                   else if decide (x = p) then Some n else nxt s x) ∧
  (∀ x, prv s' x = if decide (x = n) then Some p
                   else if decide (x = q) then Some n else prv s x).
Definition unlinked s s' (p n q : A) : Prop :=
  (∀ x, nxt s' x = if decide (x = n) then Some n
                   else if decide (x = p) then Some q else nxt s x) ∧
  (∀ x, prv s' x = if decide (x = n) then Some n
                   else if decide (x = q) then Some p else prv s x).

Lemma nxt_Some s x y : nxt s x = Some y → ∃ n, s !! x = Some n ∧ next n = y.
Proof. unfold nxt. destruct (s !! x); naive_solver. Qed.
Lemma prv_Some s x y : prv s x = Some y → ∃ n, s !! x = Some n ∧ prev n = y.
Proof. unfold prv. destruct (s !! x); naive_solver. Qed.

Lemma wp_get_next s x y (Q : A → store → Prop) :
  nxt s x = Some y → Q y s → wp (get_next x) Q s.
Proof. intros (n & Hn & <-)%nxt_Some HQ. unfold wp, get_next. by rewrite Hn. Qed.
Lemma wp_get_prev s x y (Q : A → store → Prop) :
  prv s x = Some y → Q y s → wp (get_prev x) Q s.
Proof. intros (n & Hn & <-)%prv_Some HQ. unfold wp, get_prev. by rewrite Hn. Qed.

(** The pointwise effect of an assignment; the domain of the store never changes. *)
Lemma wp_set_next s x v (Q : unit → store → Prop) :
  is_Some (s !! x) →
  (∀ s', (∀ y, nxt s' y = if decide (y = x) then Some v else nxt s y) →
         (∀ y, prv s' y = prv s y) → dom s' = dom s → Q tt s') →
  wp (set_next x v) Q s.
Proof.
  intros [n Hn] HQ. unfold wp, set_next. rewrite Hn. simpl. apply HQ.
  - intros y. unfold nxt. rewrite lookup_insert. repeat case_decide; naive_solver.
  - intros y. unfold prv. rewrite lookup_insert. case_decide; [|done]. subst. by rewrite Hn.
  - rewrite dom_insert_L. apply (elem_of_dom_2 s x n) in Hn. set_solver.
Qed.
Lemma wp_set_prev s x v (Q : unit → store → Prop) :
  is_Some (s !! x) →
  (∀ s', (∀ y, prv s' y = if decide (y = x) then Some v else prv s y) →
         (∀ y, nxt s' y = nxt s y) → dom s' = dom s → Q tt s') →
  wp (set_prev x v) Q s.
Proof.
  intros [n Hn] HQ. unfold wp, set_prev. rewrite Hn. simpl. apply HQ.
  - intros y. unfold prv. rewrite lookup_insert. repeat case_decide; naive_solver.
  - intros y. unfold nxt. rewrite lookup_insert. case_decide; [|done]. subst. by rewrite Hn.
  - rewrite dom_insert_L. apply (elem_of_dom_2 s x n) in Hn. set_solver.
Qed.
Lemma nxt_dom s x y : nxt s x = Some y → is_Some (s !! x).
Proof. intros (n & ? & _)%nxt_Some. eauto. Qed.
Lemma prv_dom s x y : prv s x = Some y → is_Some (s !! x).
Proof. intros (n & ? & _)%prv_Some. eauto. Qed.
Lemma dom_is_Some s s' x : dom s' = dom s → is_Some (s !! x) → is_Some (s' !! x).
Proof. intros E. rewrite <-!elem_of_dom, E. done. Qed.

Lemma path_dom_head s x xs y : path s x xs y → is_Some (s !! x).
Proof. destruct xs; simpl; [intros [? _]|intros [[? _] _]]; by eapply nxt_dom. Qed.
Lemma path_app s x xs z ys y :
  path s x (xs ++ z :: ys) y ↔ path s x xs z ∧ path s z ys y.
Proof. revert x. induction xs as [|w xs IH]; intros x; simpl; [|rewrite IH]; tauto. Qed.
Lemma path_frame s s' x xs y :
  path s x xs y →
  (∀ z, z ∈ x :: xs → nxt s' z = nxt s z) →
  (∀ z, z ∈ xs ++ [y] → prv s' z = prv s z) →
  path s' x xs y.
Proof.
  revert x. induction xs as [|w xs IH]; intros x; simpl.
  - intros [Hn Hp] Fn Fp. rewrite Fn, Fp by set_solver. done.
  - intros [[Hn Hp] Hr] Fn Fp. rewrite Fn, Fp by set_solver.
    split; [done|]. apply IH; [done|..]; intros z Hz; [apply Fn|apply Fp]; set_solver.
Qed.
(** The first and the last step of a path. *)
Lemma path_first s x xs y : path s x xs y →
  nxt s x = Some (default y (head xs)) ∧ prv s (default y (head xs)) = Some x.
Proof. destruct xs; simpl; [done|intros [? _]; done]. Qed.
Lemma path_last s x xs y : path s x xs y →
  prv s y = Some (default x (last xs)) ∧ nxt s (default x (last xs)) = Some y.
Proof.
  destruct xs as [|z xs _] using rev_ind; simpl; [naive_solver|].
  rewrite path_app, last_snoc. simpl. naive_solver.
Qed.

Ltac dom_tac :=
  first [ eapply nxt_dom; eassumption | eapply prv_dom; eassumption
        | eapply dom_is_Some; [eassumption|dom_tac] ].
Ltac upd_tac :=
  repeat match goal with
  | Hf : ∀ y, nxt _ y = _ |- _ => rewrite !Hf in *
  | Hf : ∀ y, prv _ y = _ |- _ => rewrite !Hf in *
  end; repeat case_decide; simplify_eq/=; try done.

Lemma insert_after_linked s p n q :
  nxt s p = Some q → prv s q = Some p → is_Some (s !! n) → n ≠ p → n ≠ q →
  wp (rt_list_insert_after p n) (λ _ s', linked s s' p n q) s.
Proof.
  intros Hpq Hqp Hn Hnp Hnq. unfold rt_list_insert_after. wp_simpl.
  eapply wp_get_next; [done|]. wp_simpl.
  eapply wp_set_prev; [by eapply prv_dom|]. intros s1 P1 N1 D1. wp_simpl.
  eapply wp_get_next; [by rewrite N1|]. wp_simpl.
  eapply wp_set_next; [by eapply dom_is_Some|]. intros s2 N2 P2 D2. wp_simpl.
  eapply wp_set_next; [do 2 (eapply dom_is_Some; [done|]); by eapply nxt_dom|].
  intros s3 N3 P3 D3. wp_simpl.
  eapply wp_set_prev; [do 3 (eapply dom_is_Some; [done|]); done|].
  intros s4 P4 N4 D4. split; intros x; upd_tac.
Qed.

Lemma insert_before_linked s p n q :
  nxt s p = Some q → prv s q = Some p → is_Some (s !! n) → n ≠ p → n ≠ q →
  wp (rt_list_insert_before q n) (λ _ s', linked s s' p n q) s.
Proof.
  intros Hpq Hqp Hn Hnp Hnq. unfold rt_list_insert_before. wp_simpl.
  eapply wp_get_prev; [done|]. wp_simpl.
  eapply wp_set_next; [by eapply nxt_dom|]. intros s1 N1 P1 D1. wp_simpl.
  eapply wp_get_prev; [by rewrite P1|]. wp_simpl.
  eapply wp_set_prev; [by eapply dom_is_Some|]. intros s2 P2 N2 D2. wp_simpl.
  eapply wp_set_prev; [do 2 (eapply dom_is_Some; [done|]); by eapply prv_dom|].
  intros s3 P3 N3 D3. wp_simpl.
  eapply wp_set_next; [do 3 (eapply dom_is_Some; [done|]); done|].
  intros s4 N4 P4 D4. split; intros x; upd_tac.
Qed.

Lemma remove_unlinked s p n q :
  nxt s p = Some n → prv s n = Some p → nxt s n = Some q → prv s q = Some n →
  n ≠ p → n ≠ q →
  wp (rt_list_remove n) (λ _ s', unlinked s s' p n q) s.
Proof.
  intros Hpn Hnp Hnq Hqn Hne Hne'. unfold rt_list_remove. wp_simpl.
  eapply wp_get_next; [done|]. wp_simpl. eapply wp_get_prev; [done|]. wp_simpl.
  eapply wp_set_prev; [by eapply prv_dom|]. intros s1 P1 N1 D1. wp_simpl.
  eapply wp_get_prev; [rewrite P1, decide_False by done; done|]. wp_simpl.
  eapply wp_get_next; [by rewrite N1|]. wp_simpl.
  eapply wp_set_next; [eapply dom_is_Some; [done|]; by eapply nxt_dom|].
  intros s2 N2 P2 D2. wp_simpl.
  eapply wp_set_prev; [do 2 (eapply dom_is_Some; [done|]); by eapply nxt_dom|].
  intros s3 P3 N3 D3. wp_simpl.
  eapply wp_set_next; [do 3 (eapply dom_is_Some; [done|]); by eapply nxt_dom|].
  intros s4 N4 P4 D4. split; intros x; upd_tac.
Qed.

Lemma path_split s x l1 l2 y : path s x (l1 ++ l2) y →
  nxt s (default x (last l1)) = Some (default y (head l2)) ∧
  prv s (default y (head l2)) = Some (default x (last l1)).
Proof.
  destruct l1 as [|z l1 _] using rev_ind; simpl; [apply path_first|].
  rewrite <-app_assoc, last_snoc. simpl. rewrite path_app. intros [_ H2]. by apply path_first.
Qed.

Lemma linked_path s s' n x l1 l2 y :
  path s x (l1 ++ l2) y → NoDup (x :: l1 ++ l2) → y ∉ l1 ++ l2 →
  n ∉ x :: l1 ++ l2 ++ [y] →
  linked s s' (default x (last l1)) n (default y (head l2)) →
  path s' x (l1 ++ n :: l2) y.
Proof.
  revert x. induction l1 as [|w l1 IH]; intros x; simpl.
  - intros Hp Hnd Hy Hn [Ln Lp].
    split; [rewrite Ln, Lp; repeat case_decide; set_solver|].
    destruct l2 as [|z zs]; simpl in *.
    + rewrite Ln, Lp. repeat case_decide; set_solver.
    + destruct Hp as [_ Hp]. rewrite !NoDup_cons in Hnd.
      split; [rewrite Ln, Lp; repeat case_decide; set_solver|].
      eapply path_frame; [done|..]; intros v Hv; rewrite ?Ln, ?Lp;
        repeat case_decide; set_solver.
  - intros [[Hxn Hwp] Hp] Hnd Hy Hn Hl.
    rewrite NoDup_cons in Hnd. destruct Hnd as [Hx Hnd].
    assert (default x (last (w :: l1)) = default w (last l1)) as E
      by (rewrite last_cons; by destruct (last l1)).
    rewrite E in Hl. pose proof Hl as [Ln Lp].
    assert (default w (last l1) ∈ w :: l1) as Hin.
    { destruct (last l1) eqn:El; simpl; [|set_solver].
      apply last_Some_elem_of in El. set_solver. }
    assert (default y (head l2) ∈ l2 ++ [y]) as Hin2.
    { destruct l2; simpl; set_solver. }
    split; [|apply IH; set_solver].
    rewrite Ln, Lp. rewrite NoDup_cons in Hnd.
    repeat case_decide; set_solver.
Qed.

Lemma unlinked_path s s' n x l1 l2 y :
  path s x (l1 ++ n :: l2) y → NoDup (x :: l1 ++ n :: l2) → y ∉ l1 ++ n :: l2 →
  unlinked s s' (default x (last l1)) n (default y (head l2)) →
  path s' x (l1 ++ l2) y.
Proof.
  revert x. induction l1 as [|w l1 IH]; intros x; simpl.
  - intros [_ Hp] Hnd Hy [Ln Lp]. rewrite !NoDup_cons in Hnd.
    destruct l2 as [|z zs]; simpl in *.
    + rewrite Ln, Lp. repeat case_decide; set_solver.
    + destruct Hp as [_ Hp]. rewrite !NoDup_cons in Hnd.
      split; [rewrite Ln, Lp; repeat case_decide; set_solver|].
      eapply path_frame; [done|..]; intros v Hv; rewrite ?Ln, ?Lp;
        repeat case_decide; set_solver.
  - intros [[Hxn Hwp] Hp] Hnd Hy Hl.
    rewrite NoDup_cons in Hnd. destruct Hnd as [Hx Hnd].
    assert (default x (last (w :: l1)) = default w (last l1)) as E
      by (rewrite last_cons; by destruct (last l1)).
    rewrite E in Hl. pose proof Hl as [Ln Lp].
    assert (default w (last l1) ∈ w :: l1) as Hin.
    { destruct (last l1) eqn:El; simpl; [|set_solver].
      apply last_Some_elem_of in El. set_solver. }
    assert (default y (head l2) ∈ l2 ++ [y]) as Hin2.
    { destruct l2; simpl; set_solver. }
    split; [|apply IH; set_solver].
    rewrite Ln, Lp. rewrite NoDup_cons in Hnd.
    repeat case_decide; set_solver.
Qed.

(** Membership and disjointness of lists spelled out with [::] and [++]. *)
Ltac mem_split :=
  rewrite ?elem_of_cons, ?elem_of_app, ?elem_of_cons, ?elem_of_app, ?elem_of_cons, ?elem_of_nil in *.
Ltac disj_tac :=
  let x := fresh "x" in
  intros x;
  repeat match goal with
  | Hd : _ ## _ |- _ =>
      let E := fresh in pose proof (Hd x) as E; cbv beta in E; clear Hd; revert E
  end; clear; intros; mem_split; tauto.

Lemma disj_sym (l1 l2 : list A) : l1 ## l2 → l2 ## l1.
Proof. intros D x H1 H2. by apply (D x). Qed.

Lemma default_last_elem (x : A) l : default x (last l) ∈ x :: l.
Proof.
  destruct (last l) eqn:El; simpl; [|set_solver].
  apply last_Some_elem_of in El. set_solver.
Qed.
Lemma default_head_elem (x : A) l : default x (head l) ∈ x :: l.
Proof. destruct l; simpl; set_solver. Qed.

Lemma linked_ring s s' n h l1 l2 :
  ring s h (l1 ++ l2) → n ∉ h :: l1 ++ l2 →
  linked s s' (default h (last l1)) n (default h (head l2)) →
  ring s' h (l1 ++ n :: l2).
Proof.
  intros [Hp Hnd] Hn Hl. pose proof (proj1 (NoDup_cons _ _) Hnd) as [Hh Hnd'].
  split.
  - eapply linked_path; eauto. set_solver.
  - rewrite <-(Permutation_middle l1 l2 n), Permutation_swap. constructor; [set_solver|done].
Qed.
Lemma unlinked_ring s s' n h l1 l2 :
  ring s h (l1 ++ n :: l2) →
  unlinked s s' (default h (last l1)) n (default h (head l2)) →
  ring s' h (l1 ++ l2) ∧ ring s' n [].
Proof.
  intros [Hp Hnd] Hl. pose proof (proj1 (NoDup_cons _ _) Hnd) as [Hh Hnd'].
  split; [split|].
  - eapply unlinked_path; eauto.
  - rewrite <-(Permutation_middle l1 l2 n), Permutation_swap, NoDup_cons in Hnd. tauto.
  - destruct Hl as [Ln Lp]. split; [|apply NoDup_singleton]. simpl.
    rewrite Ln, Lp. by rewrite !decide_True.
Qed.
Lemma linked_frame s s' n p q h xs :
  ring s h xs → n ∉ h :: xs → p ∉ h :: xs → q ∉ h :: xs →
  linked s s' p n q ∨ unlinked s s' p n q → ring s' h xs.
Proof.
  intros [Hp Hnd] Hn Hp' Hq Hl. split; [|done].
  eapply path_frame; [done|..]; intros z Hz;
    (destruct Hl as [[Ln Lp]|[Ln Lp]]; rewrite ?Ln, ?Lp; repeat case_decide; set_solver).
Qed.

Lemma repr_linked s s' abs n h l1 l2 :
  repr s abs → abs !! h = Some (l1 ++ l2) → abs !! n = Some [] → n ≠ h →
  linked s s' (default h (last l1)) n (default h (head l2)) →
  repr s' (delete n (<[h := l1 ++ n :: l2]> abs)).
Proof.
  intros [Hr Hd] Hh Hn Hne Hl.
  assert (n ∉ h :: l1 ++ l2) as Hni.
  { pose proof (Hd _ _ _ _ Hh Hn ltac:(done)) as D. intros Hin. by apply (D n); [|left]. }
  pose proof (default_last_elem h l1) as Il. pose proof (default_head_elem h l2) as Ih.
  assert (∀ h' xs, abs !! h' = Some xs → h ≠ h' → n ≠ h' →
    (h :: l1 ++ n :: l2) ## (h' :: xs)) as Hd'.
  { intros h' xs Hx N1 N2. pose proof (Hd _ _ _ _ Hh Hx N1).
    pose proof (Hd _ _ _ _ Hn Hx N2). clear Hd. disj_tac. }
  split.
  - intros h' xs (Hne' & Hx)%lookup_delete_Some.
    apply lookup_insert_Some in Hx as [[-> <-]|[Hhh Hx]].
    + eapply linked_ring; eauto.
    + pose proof (Hd' _ _ Hx ltac:(done) ltac:(done)) as D.
      eapply linked_frame; [by apply Hr|..|by left];
        (intros Hin; eapply D; [|exact Hin]; clear -Il Ih; mem_split; tauto).
  - intros h1 h2 xs1 xs2 (H1 & X1)%lookup_delete_Some (H2 & X2)%lookup_delete_Some Hne'.
    apply lookup_insert_Some in X1 as [[-> <-]|[N1 X1]];
      apply lookup_insert_Some in X2 as [[-> <-]|[N2 X2]]; [done|by eauto| |by eauto].
    apply disj_sym. by eauto.
Qed.
Lemma repr_unlinked s s' abs n h l1 l2 :
  repr s abs → abs !! h = Some (l1 ++ n :: l2) →
  unlinked s s' (default h (last l1)) n (default h (head l2)) →
  repr s' (<[n := []]> (<[h := l1 ++ l2]> abs)).
Proof.
  intros [Hr Hd] Hh Hl. destruct (unlinked_ring _ _ _ _ _ _ (Hr _ _ Hh) Hl) as [R1 R2].
  pose proof (Hr _ _ Hh) as [_ Hnd].
  pose proof (default_last_elem h l1) as Il. pose proof (default_head_elem h l2) as Ih.
  assert (∀ h' xs, abs !! h' = Some xs → h ≠ h' → (h :: l1 ++ n :: l2) ## (h' :: xs)) as Hd'
    by eauto.
  assert (n ∉ h :: l1 ++ l2) as Hni.
  { rewrite <-(Permutation_middle l1 l2 n), Permutation_swap, NoDup_cons in Hnd. tauto. }
  assert ((n :: []) ## (h :: l1 ++ l2)) as Hnh.
  { intros x Hx1 Hx2. mem_split. destruct Hx1 as [->|[]]. tauto. }
  assert (∀ h' xs, abs !! h' = Some xs → h ≠ h' →
    (h :: l1 ++ l2) ## (h' :: xs) ∧ (n :: []) ## (h' :: xs)) as Hd2.
  { intros h' xs Hx N. pose proof (Hd' _ _ Hx N). clear -H0; split; disj_tac. }
  split.
  - intros h' xs [[<- <-]|[N1 X]]%lookup_insert_Some; [done|].
    apply lookup_insert_Some in X as [[<- <-]|[N2 X]]; [done|].
    pose proof (Hd' _ _ X ltac:(done)) as D.
    eapply linked_frame; [by apply Hr|..|by right];
      (intros Hin; eapply D; [|exact Hin]; clear -Il Ih; mem_split; tauto).
  - intros h1 h2 xs1 xs2 X1 X2 Hne.
    apply lookup_insert_Some in X1 as [[<- <-]|[N1 X1]];
      apply lookup_insert_Some in X2 as [[<- <-]|[N2 X2]]; [done|..].
    + apply lookup_insert_Some in X2 as [[<- <-]|[N3 X2]]; [done|].
      by destruct (Hd2 _ _ X2 ltac:(done)).
    + apply disj_sym. apply lookup_insert_Some in X1 as [[<- <-]|[N3 X1]]; [done|].
      by destruct (Hd2 _ _ X1 ltac:(done)).
    + apply lookup_insert_Some in X1 as [[<- <-]|[N3 X1]];
        apply lookup_insert_Some in X2 as [[<- <-]|[N4 X2]]; [done|..|by eauto].
      * by destruct (Hd2 _ _ X2 ltac:(done)).
      * apply disj_sym. by destruct (Hd2 _ _ X1 ltac:(done)).
Qed.

Lemma repr_singleton s h xs : ring s h xs → repr s {[h := xs]}.
Proof.
  intros Hr. split; [by intros ?? [-> ->]%lookup_singleton_Some|].
  by intros ???? [-> _]%lookup_singleton_Some [-> _]%lookup_singleton_Some.
Qed.
Lemma repr_detached s abs :
  (∀ h xs, abs !! h = Some xs → xs = [] ∧ nxt s h = Some h ∧ prv s h = Some h) → repr s abs.
Proof.
  intros Hd. split.
  - intros h xs (-> & ? & ?)%Hd. split; [done|apply NoDup_singleton].
  - intros h1 h2 xs1 xs2 (-> & _)%Hd (-> & _)%Hd Hne x. mem_split. naive_solver.
Qed.

Lemma rt_list_len_loop_run fuel s l x xs len :
  path s x xs l → l ∉ xs → (length xs < fuel)%nat →
  rt_list_len_loop fuel l x len s = Some (foldr (λ _ n, u32 (n + 1)) len xs, s).
Proof.
  revert fuel x len. induction xs as [|z xs IH]; intros [|fuel] x len Hp Hl Hf; simpl in *; try lia.
  - destruct Hp as [(nd & Hx & Hn)%nxt_Some _]. unfold mbind, M_bind, get_next.
    rewrite Hx. simpl. by rewrite Hn, bool_decide_eq_true_2.
  - destruct Hp as [[(nd & Hx & Hn)%nxt_Some _] Hp]. unfold mbind, M_bind, get_next.
    rewrite Hx. simpl. rewrite Hn, bool_decide_eq_false_2 by set_solver.
    rewrite IH; [|done|set_solver|lia]. do 2 f_equal.
    clear. induction xs as [|y ys IH]; simpl; [done|by rewrite IH].
Qed.
Lemma foldr_count (xs : list A) len :
  foldr (λ _ n, u32 (n + 1)) (u32 len) xs = u32 (len + Z.of_nat (length xs)).
Proof.
  revert len. induction xs as [|x xs IH]; intros len; simpl; [f_equal; lia|].
  rewrite IH. unfold u32. rewrite Zplus_mod_idemp_l. f_equal. lia.
Qed.

(** Emptiness and length are those of the list held (the length at the
    width of [unsigned int]), and neither writes the store. *)
Lemma rt_list_isempty_refines s abs h xs :
  repr s abs → abs !! h = Some xs →
  rt_list_isempty h s = Some (bool_decide (xs = []), s).
Proof.
  intros [Hr _] Hh. destruct (Hr _ _ Hh) as [Hp Hnd].
  apply path_first in Hp as [(nd & Hx & Hn)%nxt_Some _].
  unfold rt_list_isempty, mbind, M_bind, get_next. rewrite Hx. simpl. do 2 f_equal.
  rewrite Hn. apply NoDup_cons in Hnd as [Hnh _].
  destruct xs; simpl; [by rewrite !bool_decide_eq_true_2|].
  rewrite !bool_decide_eq_false_2; set_solver.
Qed.
Lemma rt_list_len_refines fuel s abs h xs :
  repr s abs → abs !! h = Some xs → (length xs < fuel)%nat →
  rt_list_len fuel h s = Some (u32 (Z.of_nat (length xs)), s).
Proof.
  intros [Hr _] Hh Hf. destruct (Hr _ _ Hh) as [Hp Hnd%NoDup_cons].
  unfold rt_list_len. rewrite (rt_list_len_loop_run _ _ _ _ xs) by tauto || done.
  change 0 with (u32 0) at 1. by rewrite foldr_count.
Qed.
Lemma rt_list_init_detached s l :
  is_Some (s !! l) →
  wp (rt_list_init l) (λ _ s', ring s' l [] ∧
    ∀ x, x ≠ l → s' !! x = s !! x) s.
Proof.
  intros [n Hn]. unfold rt_list_init, wp, mbind, M_bind, set_prev, set_next.
  rewrite Hn. simpl. rewrite lookup_insert_eq. simpl. split.
  - split; [|apply NoDup_singleton]. simpl. unfold nxt, prv.
    by rewrite lookup_insert_eq.
  - intros x Hx. by rewrite !lookup_insert_ne.
Qed.

(** C1: [rt_list_insert_after] on any position of a list (the head, or an
    element) puts a detached node right behind it and leaves every other
    list of the store as it is. *)
Theorem rt_list_insert_after_refines s abs n h l1 l2 :
  repr s abs → abs !! h = Some (l1 ++ l2) → abs !! n = Some [] → n ≠ h →
  wp (rt_list_insert_after (default h (last l1)) n)
     (λ _ s', repr s' (delete n (<[h := l1 ++ n :: l2]> abs))) s.
Proof.
  intros Hr Hh Hn Hne. pose proof Hr as [Hrr Hd].
  destruct (Hrr _ _ Hh) as [Hp _]. apply path_split in Hp as [H1 H2].
  destruct (Hrr _ _ Hn) as [Hpn _].
  pose proof (Hd _ _ _ _ Hh Hn ltac:(done)) as Hdj.
  pose proof (default_last_elem h l1). pose proof (default_head_elem h l2).
  apply (wp_mono _ (λ _ s', linked s s' (default h (last l1)) n (default h (head l2))));
    [|intros ?? Hl; by eapply repr_linked].
  eapply insert_after_linked; [done|done|by eapply path_dom_head|set_solver..].
Qed.

(** C2: [rt_list_insert_before] puts a detached node right before any
    position; before the head it appends at the tail of the list. *)
Theorem rt_list_insert_before_refines s abs n h l1 l2 :
  repr s abs → abs !! h = Some (l1 ++ l2) → abs !! n = Some [] → n ≠ h →
  wp (rt_list_insert_before (default h (head l2)) n)
     (λ _ s', repr s' (delete n (<[h := l1 ++ n :: l2]> abs))) s.
Proof.
  intros Hr Hh Hn Hne. pose proof Hr as [Hrr Hd].
  destruct (Hrr _ _ Hh) as [Hp _]. apply path_split in Hp as [H1 H2].
  destruct (Hrr _ _ Hn) as [Hpn _].
  pose proof (Hd _ _ _ _ Hh Hn ltac:(done)) as Hdj.
  pose proof (default_last_elem h l1). pose proof (default_head_elem h l2).
  apply (wp_mono _ (λ _ s', linked s s' (default h (last l1)) n (default h (head l2))));
    [|intros ?? Hl; by eapply repr_linked].
  eapply insert_before_linked; [done|done|by eapply path_dom_head|set_solver..].
Qed.

(** C3: [rt_list_remove] takes an element out of whichever list holds it,
    leaves it detached, and changes no other list. *)
Theorem rt_list_remove_refines s abs n h l1 l2 :
  repr s abs → abs !! h = Some (l1 ++ n :: l2) →
  wp (rt_list_remove n)
     (λ _ s', repr s' (<[n := []]> (<[h := l1 ++ l2]> abs))) s.
Proof.
  intros Hr Hh. pose proof Hr as [Hrr Hd].
  destruct (Hrr _ _ Hh) as [Hp Hnd].
  pose proof (path_split _ _ l1 (n :: l2) _ Hp) as [H1 H2].
  apply path_app in Hp as [_ Hp]. apply path_first in Hp as [H3 H4]. simpl in *.
  rewrite <-(Permutation_middle l1 l2 n), Permutation_swap, NoDup_cons in Hnd.
  pose proof (default_last_elem h l1). pose proof (default_head_elem h l2).
  apply (wp_mono _ (λ _ s', unlinked s s' (default h (last l1)) n (default h (head l2))));
    [|intros ?? Hl; by eapply repr_unlinked].
  eapply remove_unlinked; [done..|set_solver|set_solver].
Qed.
End DList.

(** ** Witnesses *)
Definition store_w : gmap nat (rt_list_node nat) :=
  {[ 0 := Node 1 1; 1 := Node 0 0; 2 := Node 2 2 ]}%nat.
Definition abs_w : gmap nat (list nat) := {[ 0 := [1]; 2 := [] ]}%nat.

Lemma repr_w : repr store_w abs_w.
Proof.
  assert (ring store_w 0%nat [1%nat]) as R0.
  { split; [vm_compute; done|]. apply NoDup_cons. split; [set_solver|apply NoDup_singleton]. }
  assert (ring store_w 2%nat []) as R2.
  { split; [vm_compute; done|apply NoDup_singleton]. }
  split.
  - intros h xs. unfold abs_w.
    rewrite lookup_insert_Some, lookup_singleton_Some. naive_solver.
  - intros h1 h2 xs1 xs2. unfold abs_w.
    rewrite !lookup_insert_Some, !lookup_singleton_Some.
    intros [[<- <-]|(_ & <- & <-)] [[<- <-]|(_ & <- & <-)] ?;
      try done; intros x Hx Hy; set_solver.
Qed.

Lemma rt_list_insert_after_refines_witness :
  wp (rt_list_insert_after 0%nat 2%nat)
     (λ _ s', repr s' (delete 2%nat (<[0%nat := [2; 1]%nat]> abs_w))) store_w.
Proof.
  apply (rt_list_insert_after_refines store_w abs_w 2%nat 0%nat [] [1%nat]);
    [apply repr_w|reflexivity|reflexivity|lia].
Defined.
Lemma rt_list_insert_before_refines_witness :
  wp (rt_list_insert_before 0%nat 2%nat)
     (λ _ s', repr s' (delete 2%nat (<[0%nat := [1; 2]%nat]> abs_w))) store_w.
Proof.
  apply (rt_list_insert_before_refines store_w abs_w 2%nat 0%nat [1%nat] []);
    [apply repr_w|reflexivity|reflexivity|lia].
Defined.
Lemma rt_list_remove_refines_witness :
  wp (rt_list_remove 1%nat)
     (λ _ s', repr s' (<[1%nat := []]> (<[0%nat := []]> abs_w))) store_w.
Proof.
  apply (rt_list_remove_refines store_w abs_w 1%nat 0%nat [] []);
    [apply repr_w|reflexivity].
Defined.
