(* ===== verification/SList.v ===== *)
(** Singly linked kernel lists: the pointer code of os/include/rtservice.h
    ([rt_slist_*]) over a store of links, and its refinement of plain lists.
    The loops follow the links from the head; their fuel is the number of nodes of the
    store. *)
From S2P Require Import Prelude.

(** The store: the [next] pointer of each node by address; 0 is RT_NULL. *)
Abbreviation links := (gmap Z Z).
Abbreviation L := (M links).
Definition RT_NULL : Z := 0.

Definition get_next (n : Z) : L Z := s ← get; lift (s !! n).
Definition set_next (n v : Z) : L unit :=
  _ ← get_next n; modify (λ s : links, <[n := v]> s).

Definition rt_slist_init (l : Z) : L unit := set_next l RT_NULL.
(** [while (node->next) node = node->next;] from [node]: the last node. *)
Fixpoint last_node (fuel : nat) (node : Z) : L Z :=
  match fuel with
  | O => fail
  | S fuel => next ← get_next node; if next =? RT_NULL then mret node else last_node fuel next
  end.
Definition nodes : L nat := gets (λ s : links, S (size s)).
Definition rt_slist_append (l n : Z) : L unit :=
  fuel ← nodes;
  node ← last_node fuel l;
  set_next node n;;
  set_next n RT_NULL.
Definition rt_slist_insert (l n : Z) : L unit :=
  next ← get_next l; set_next n next;; set_next l n.
Fixpoint slist_len_loop (fuel : nat) (list len : Z) : L Z :=
  match fuel with
  | O => fail
  | S fuel =>
      if list =? RT_NULL then mret len
      else next ← get_next list; slist_len_loop fuel next (u32 (len + 1))
  end.
Definition rt_slist_len (l : Z) : L Z :=
  fuel ← nodes; list ← get_next l; slist_len_loop fuel list 0.
(** [while (node->next && node->next != n) node = node->next;] *)
Fixpoint node_before (fuel : nat) (node n : Z) : L Z :=
  match fuel with
  | O => fail
  | S fuel =>
      next ← get_next node;
      if (next =? RT_NULL) || (next =? n) then mret node else node_before fuel next n
  end.
Definition rt_slist_remove (l n : Z) : L Z :=
  fuel ← nodes;
  node ← node_before fuel l n;
  next ← get_next node;
  when (negb (next =? RT_NULL)) (after ← get_next next; set_next node after);;
  mret l.
Definition rt_slist_first (l : Z) : L Z := get_next l.
Definition rt_slist_tail (l : Z) : L Z := fuel ← nodes; last_node fuel l.
Definition rt_slist_next (n : Z) : L Z := get_next n.
Definition rt_slist_isempty (l : Z) : L bool := next ← get_next l; mret (next =? RT_NULL).

(** * The list that hangs on a head *)

(** From [p] the links lead through [xs] to RT_NULL. *)
Fixpoint chain (s : links) (p : Z) (xs : list Z) : Prop :=
  match xs with
  | [] => s !! p = Some RT_NULL
  | x :: xs => s !! p = Some x ∧ x ≠ RT_NULL ∧ chain s x xs
  end.
Record holds (s : links) (l : Z) (xs : list Z) : Prop := {
  ho_chain : chain s l xs;
  ho_nodup : NoDup (l :: xs)
}.

Section chain.
Implicit Types (s : links) (xs : list Z).

Lemma wp_slist_get_next s n v (Q : Z → links → Prop) : s !! n = Some v → Q v s → wp (get_next n) Q s.
Proof. intros E HQ. unfold get_next. wp_simpl. by rewrite E. Qed.
Lemma wp_slist_set_next s n v (Q : unit → links → Prop) :
  is_Some (s !! n) → Q tt (<[n := v]> s) → wp (set_next n v) Q s.
Proof. intros [w E] HQ. unfold set_next. apply wp_bind. by eapply wp_slist_get_next. Qed.

Lemma slink_frame s p xs n v : n ∉ p :: xs → chain s p xs → chain (<[n := v]> s) p xs.
Proof.
  revert p. induction xs as [|x xs IH]; intros p Hn; simpl.
  - intros E. rewrite lookup_insert_ne; [done|set_solver].
  - intros (E & Hx & Hc). rewrite lookup_insert_ne by set_solver.
    split_and!; [done..|]. apply IH; [set_solver|done].
Qed.
Lemma slink_app s p xs x ys : chain s p (xs ++ x :: ys) → chain s x ys ∧ s !! default p (last xs) = Some x.
Proof.
  revert p. induction xs as [|y xs IH]; intros p; simpl.
  - intros (? & ? & ?). done.
  - intros (_ & _ & Hc). apply IH in Hc as [Hc E]. split; [done|].
    rewrite last_cons. by destruct (last xs).
Qed.
Lemma chain_dom s p xs : chain s p xs → ∀ x, x ∈ p :: xs → x ∈ dom s.
Proof.
  revert p. induction xs as [|y xs IH]; intros p; simpl.
  - intros E x ->%list_elem_of_singleton. by eapply elem_of_dom_2.
  - intros (E & _ & Hc) x [->|Hx]%elem_of_cons; [by eapply elem_of_dom_2|by eapply IH].
Qed.
(** The store is large enough for the loops. *)
Lemma holds_size s l xs : holds s l xs → (length xs < size s)%nat.
Proof.
  intros [Hc Hn]. rewrite <-size_dom. apply (Nat.lt_le_trans _ (size (list_to_set (C := gset Z) (l :: xs)))).
  - rewrite size_list_to_set by done. simpl. lia.
  - apply subseteq_size. intros x Hx%elem_of_list_to_set. by eapply chain_dom.
Qed.

Lemma last_node_run fuel s p xs :
  (length xs < fuel)%nat → chain s p xs →
  wp (last_node fuel p) (λ r s', r = default p (last xs) ∧ s' = s) s.
Proof.
  revert p xs. induction fuel as [|fuel IH]; intros p xs Hf Hc; [lia|]. simpl. apply wp_bind.
  destruct xs as [|x xs]; simpl in Hc.
  - eapply wp_slist_get_next; [done|]. by wp_simpl.
  - destruct Hc as (E & Hx & Hc). eapply wp_slist_get_next; [done|].
    rewrite (proj2 (Z.eqb_neq _ _) Hx). eapply wp_mono; [apply (IH _ xs); [simpl in Hf; lia|done]|].
    intros r s' [-> ->]. rewrite last_cons. by destruct (last xs).
Qed.
Lemma slist_len_loop_run fuel s p xs len q :
  (length xs < fuel)%nat → s !! q = Some p → chain s q xs → u32 len = len →
  wp (slist_len_loop fuel p len) (λ r s', r = u32 (len + Z.of_nat (length xs)) ∧ s' = s) s.
Proof.
  revert p xs len q. induction fuel as [|fuel IH]; intros p xs len q Hf E Hc Hl; [lia|]. simpl.
  destruct xs as [|x xs]; simpl in Hc.
  - rewrite E in Hc. injection Hc as ->. wp_simpl. simpl. by rewrite Z.add_0_r.
  - destruct Hc as (E' & Hx & Hc). rewrite E in E'. injection E' as ->.
    rewrite (proj2 (Z.eqb_neq _ _) Hx). apply wp_bind.
    assert (∃ v, s !! x = Some v) as [v Hv] by (destruct xs; simpl in Hc; naive_solver).
    eapply wp_slist_get_next; [done|]. eapply wp_mono; [apply (IH v xs (u32 (len + 1)) x); simpl in Hf; [lia|exact Hv|exact Hc|]|].
    { apply u32_small, u32_range. }
    intros r s' [-> ->]. split; [|done]. rewrite u32_add_mod. f_equal. simpl. lia.
Qed.
(** The node after which [n] stands, or the last one. *)
Lemma node_before_run fuel s p xs n :
  (length xs < fuel)%nat → n ≠ RT_NULL → chain s p xs → NoDup (p :: xs) →
  wp (node_before fuel p n) (λ r s', s' = s ∧
    if decide (n ∈ xs) then ∃ l1 l2, xs = l1 ++ n :: l2 ∧ r = default p (last l1)
    else r = default p (last xs)) s.
Proof.
  intros Hf Hn. revert p xs Hf. induction fuel as [|fuel IH]; intros p xs Hf Hc Hnd; [lia|]. simpl. apply wp_bind.
  destruct xs as [|x xs]; simpl in Hc.
  - eapply wp_slist_get_next; [done|]. simpl. wp_simpl. done.
  - destruct Hc as (E & Hx & Hc). eapply wp_slist_get_next; [done|].
    rewrite (proj2 (Z.eqb_neq _ _) Hx). simpl. destruct (Z.eqb_spec x n) as [->|Hne].
    + wp_simpl. split; [done|]. rewrite decide_True by set_solver. by exists [], xs.
    + eapply wp_mono; [apply (IH _ xs); [simpl in Hf; lia|done|by apply NoDup_cons in Hnd as [_ ?]]|].
      intros r s' [-> Hr]. split; [done|].
      destruct (decide (n ∈ xs)) as [Hin|Hout].
      * rewrite decide_True by set_solver. destruct Hr as (l1 & l2 & -> & ->).
        exists (x :: l1), l2. split; [done|]. rewrite last_cons. by destruct (last l1).
      * rewrite decide_False by set_solver. rewrite Hr, last_cons. by destruct (last xs).
Qed.
Lemma slink_snoc s p xs n :
  n ≠ RT_NULL → n ∉ p :: xs → NoDup (p :: xs) → chain s p xs →
  chain (<[n := RT_NULL]> (<[default p (last xs) := n]> s)) p (xs ++ [n]).
Proof.
  intros Hn. revert p. induction xs as [|x xs IH]; intros p Hni Hnd; simpl.
  - intros _. rewrite lookup_insert_ne, lookup_insert_eq by set_solver.
    split_and!; [done..|]. by rewrite lookup_insert_eq.
  - intros (E & Hx & Hc). apply NoDup_cons in Hnd as [Hp Hnd].
    rewrite last_cons.
    assert (default p (match last xs with Some y => Some y | None => Some x end) = default x (last xs)) as ->
      by by destruct (last xs).
    assert (default x (last xs) ∈ x :: xs) as Hlast.
    { destruct (last xs) as [y|] eqn:Ey; simpl; [|by left]. right. by apply last_Some_elem_of. }
    rewrite !lookup_insert_ne; [|set_solver|set_solver].
    split_and!; [done..|]. apply IH; [set_solver|done|done].
Qed.
Lemma chain_unlink s p l1 n l2 v :
  NoDup (p :: l1 ++ n :: l2) → chain s p (l1 ++ n :: l2) → s !! n = Some v →
  chain (<[default p (last l1) := v]> s) p (l1 ++ l2).
Proof.
  revert p. induction l1 as [|x l1 IH]; intros p Hnd; simpl.
  - intros (E & Hn & Hc) Hv. apply NoDup_cons in Hnd as [Hp _]. simpl in Hp.
    destruct l2 as [|y l2]; simpl in *.
    + rewrite Hv in Hc. injection Hc as ->. by rewrite lookup_insert_eq.
    + destruct Hc as (E' & Hy & Hc). rewrite Hv in E'. injection E' as ->.
      rewrite lookup_insert_eq. split_and!; [done..|]. apply slink_frame; [set_solver|done].
  - intros (E & Hx & Hc) Hv. apply NoDup_cons in Hnd as [Hp Hnd]. rewrite last_cons.
    assert (default p (match last l1 with Some y => Some y | None => Some x end) = default x (last l1)) as ->
      by by destruct (last l1).
    assert (default x (last l1) ∈ x :: l1) as Hlast.
    { destruct (last l1) as [y|] eqn:Ey; simpl; [|by left]. right. by apply last_Some_elem_of. }
    rewrite lookup_insert_ne by set_solver. split_and!; [done..|]. by apply IH.
Qed.
End chain.

(** * The operations on lists *)

(** What a call leaves alone: the nodes that are not on the list. *)
Definition outside (s s' : links) (xs : list Z) : Prop := ∀ n, n ∉ xs → s' !! n = s !! n.

Section refines.
Implicit Types (s : links) (xs : list Z).
#[local] Hint Resolve ho_chain ho_nodup : core.

Lemma holds_head s l xs : holds s l xs → ∃ v, s !! l = Some v ∧ v = default RT_NULL (head xs).
Proof. intros [Hc _]. destruct xs; simpl in Hc; naive_solver. Qed.

Theorem rt_slist_init_refines s l : is_Some (s !! l) → wp (rt_slist_init l) (λ _ s', holds s' l [] ∧ outside s s' [l]) s.
Proof.
  intros Hl. eapply wp_slist_set_next; [done|]. split.
  - constructor; [apply lookup_insert_eq|apply NoDup_singleton].
  - intros n Hn. rewrite lookup_insert_ne; [done|set_solver].
Qed.
Theorem rt_slist_append_refines s l xs n :
  holds s l xs → n ≠ RT_NULL → n ∉ l :: xs → is_Some (s !! n) →
  wp (rt_slist_append l n) (λ _ s', holds s' l (xs ++ [n]) ∧ outside s s' (l :: xs ++ [n])) s.
Proof.
  intros Hh Hn Hni Hs. pose proof (holds_size _ _ _ Hh). unfold rt_slist_append, nodes. wp_simpl.
  eapply wp_mono; [apply (last_node_run _ s l xs); [lia|auto]|]. intros r s' [-> ->].
  assert (default l (last xs) ∈ l :: xs) as Hlast.
  { destruct (last xs) as [y|] eqn:Ey; simpl; [|by left]. right. by apply last_Some_elem_of. }
  wp_simpl. eapply wp_slist_set_next; [by eapply elem_of_dom, chain_dom; [apply Hh|]|].
  eapply wp_slist_set_next; [rewrite lookup_insert_ne; [done|set_solver]|]. split; [constructor|].
  - apply slink_snoc; [done|done|apply Hh|apply Hh].
  - rewrite app_comm_cons, NoDup_app. split_and!; [apply Hh|set_solver|apply NoDup_singleton].
  - intros m Hm. rewrite !lookup_insert_ne; [done|set_solver|set_solver].
Qed.
Theorem rt_slist_insert_refines s l xs n :
  holds s l xs → n ≠ RT_NULL → n ∉ l :: xs → is_Some (s !! n) →
  wp (rt_slist_insert l n) (λ _ s', holds s' l (n :: xs) ∧ outside s s' [l; n]) s.
Proof.
  intros Hh Hn Hni Hs. destruct (holds_head _ _ _ Hh) as (v & Hv & Ev). unfold rt_slist_insert. wp_simpl.
  eapply wp_slist_get_next; [done|]. wp_simpl. eapply wp_slist_set_next; [done|].
  eapply wp_slist_set_next; [rewrite lookup_insert_ne; [by eexists|set_solver]|]. split; [constructor|].
  - simpl. rewrite lookup_insert_eq. split_and!; [done..|]. 
    pose proof (ho_chain _ _ _ Hh) as Hc. destruct xs as [|x xs]; simpl in *.
    + rewrite lookup_insert_ne, lookup_insert_eq, Ev by set_solver. done.
    + rewrite lookup_insert_ne, lookup_insert_eq, Ev by set_solver.
      destruct Hc as (_ & Hx & Hc). destruct Hh as [_ Hnd]. split_and!; [done..|].
      apply NoDup_cons in Hnd as [Hl _]. do 2 (apply slink_frame; [set_solver|]). done.
  - destruct Hh as [_ Hnd]. apply NoDup_cons in Hnd as [? ?]. rewrite !NoDup_cons. set_solver.
  - intros m Hm. rewrite !lookup_insert_ne; [done|set_solver|set_solver].
Qed.
Theorem rt_slist_len_refines s l xs :
  holds s l xs → wp (rt_slist_len l) (λ r s', r = u32 (Z.of_nat (length xs)) ∧ s' = s) s.
Proof.
  intros Hh. pose proof (holds_size _ _ _ Hh). destruct (holds_head _ _ _ Hh) as (v & Hv & _).
  unfold rt_slist_len, nodes. wp_simpl. eapply wp_slist_get_next; [done|].
  eapply wp_mono; [apply (slist_len_loop_run _ s v xs 0 l); auto with lia|]. done.
Qed.
Theorem rt_slist_tail_refines s l xs :
  holds s l xs → wp (rt_slist_tail l) (λ r s', r = default l (last xs) ∧ s' = s) s.
Proof.
  intros Hh. pose proof (holds_size _ _ _ Hh). unfold rt_slist_tail, nodes. wp_simpl.
  apply (last_node_run _ s l xs); [lia|auto].
Qed.
Theorem rt_slist_isempty_refines s l xs :
  holds s l xs → wp (rt_slist_isempty l) (λ b s', b = bool_decide (xs = []) ∧ s' = s) s.
Proof.
  intros [Hc _]. unfold rt_slist_isempty. apply wp_bind. destruct xs as [|x xs]; simpl in Hc.
  - eapply wp_slist_get_next; [done|]. by wp_simpl.
  - destruct Hc as (E & Hx & _). eapply wp_slist_get_next; [done|]. wp_simpl.
    by rewrite (proj2 (Z.eqb_neq _ _) Hx), bool_decide_false.
Qed.
(** Removal; a node that is not on the list is no error. The removed node keeps its
    own link, so that a loop that stands on it goes on to its old successor. *)
Theorem rt_slist_remove_refines s l xs n :
  holds s l xs → n ≠ RT_NULL → n ≠ l →
  wp (rt_slist_remove l n) (λ r s', r = l ∧ holds s' l (lremove n xs) ∧ s' !! n = s !! n ∧
    outside s s' (l :: xs)) s.
Proof.
  intros Hh Hn Hl. pose proof (holds_size _ _ _ Hh). unfold rt_slist_remove, nodes. wp_simpl.
  eapply wp_mono; [apply (node_before_run _ s l xs n); [lia|done|apply Hh|apply Hh]|]. intros r s' [-> Hr].
  pose proof Hh as [Hc Hnd]. destruct (decide (n ∈ xs)) as [Hin|Hout].
  - destruct Hr as (l1 & l2 & -> & ->).
    destruct (slink_app _ _ _ _ _ Hc) as [Hc2 Ep]. wp_simpl. eapply wp_slist_get_next; [done|].
    rewrite (proj2 (Z.eqb_neq _ _) Hn). simpl. wp_simpl.
    assert (∃ v, s !! n = Some v) as [v Hv] by (destruct l2; simpl in Hc2; naive_solver).
    assert (default l (last l1) ∈ l :: l1) as Hlast.
    { destruct (last l1) as [y|] eqn:Ey; simpl; [|by left]. right. by apply last_Some_elem_of. }
    assert (n ∉ l :: l1) as Hnl.
    { apply NoDup_cons in Hnd as [? Hnd]. apply NoDup_app in Hnd as (_ & Hd & _). set_solver. }
    eapply wp_slist_get_next; [done|]. eapply wp_slist_set_next; [by eexists|]. wp_simpl.
    rewrite lremove_mid by (by apply NoDup_cons in Hnd as [_ ?]).
    split_and!; [done|constructor|..].
    + by eapply chain_unlink.
    + apply NoDup_cons in Hnd as [Hp Hnd]. rewrite NoDup_cons. split; [set_solver|].
      apply NoDup_app in Hnd as (? & Hd & [_ ?]%NoDup_cons). apply NoDup_app. set_solver.
    + rewrite lookup_insert_ne; [done|set_solver].
    + intros m Hm. rewrite lookup_insert_ne; [done|set_solver].
  - wp_simpl. eapply (wp_slist_get_next _ _ RT_NULL).
    { rewrite Hr. clear -Hc. revert l Hc. induction xs as [|x xs IH]; intros l; simpl; [done|].
      intros (_ & _ & Hc). rewrite last_cons. apply IH in Hc. by destruct (last xs). }
    simpl. wp_simpl. rewrite lremove_notin by done. done.
Qed.
End refines.
