(* ===== verification/RingBuffer.v ===== *)
(** The mirrored ring buffer of components/drivers/src/ringbuffer.c and
    components/drivers/include/ipc/ringbuffer.h: every operation, its
    refinement of a bounded FIFO of bytes, and the overflow case in which
    [rt_ringbuffer_put_force] leaves the buffer empty. *)
From S2P Require Import Prelude.

(** struct rt_ringbuffer; the mirror bits are one-bit fields, the indices
    15-bit fields, [buffer_ptr] the pool it points to. *)
Record rt_ringbuffer := RB {
  buffer_ptr : list Z;
  read_mirror : bool;
  read_index : Z;
  write_mirror : bool;
  write_index : Z;
  buffer_size : Z
}.

Inductive rt_ringbuffer_state :=
  RT_RINGBUFFER_EMPTY | RT_RINGBUFFER_FULL | RT_RINGBUFFER_HALFFULL.

Definition u15 (x : Z) : Z := x mod 32768.

(** memcpy(&dst[i], src, n) for a source of at least n bytes *)
Definition memcpy_at (dst : list Z) (i : Z) (src : list Z) (n : Z) : list Z :=
  lwrite (Z.to_nat i) (take (Z.to_nat n) src) dst.

Definition rt_ringbuffer_status (rb : rt_ringbuffer) : rt_ringbuffer_state :=
  if read_index rb =? write_index rb then
    if Bool.eqb (read_mirror rb) (write_mirror rb) then RT_RINGBUFFER_EMPTY
    else RT_RINGBUFFER_FULL
  else RT_RINGBUFFER_HALFFULL.

Definition rt_ringbuffer_data_len (rb : rt_ringbuffer) : Z :=
  match rt_ringbuffer_status rb with
  | RT_RINGBUFFER_EMPTY => 0
  | RT_RINGBUFFER_FULL => buffer_size rb
  | RT_RINGBUFFER_HALFFULL =>
      if write_index rb >? read_index rb then write_index rb - read_index rb
      else buffer_size rb - (read_index rb - write_index rb)
  end.

Definition rt_ringbuffer_get_size (rb : rt_ringbuffer) : Z := u16 (buffer_size rb).

(** the macro rt_ringbuffer_space_len, of type rt_size_t *)
Definition rt_ringbuffer_space_len (rb : rt_ringbuffer) : Z :=
  u32 (buffer_size rb - rt_ringbuffer_data_len rb).

Definition rt_ringbuffer_init (pool : list Z) (size : Z) : option rt_ringbuffer :=
  if size >? 0 then
    Some (RB pool false 0 false 0 (s16 (RT_ALIGN_DOWN size RT_ALIGN_SIZE)))
  else None.

Definition rt_ringbuffer_reset (rb : rt_ringbuffer) : rt_ringbuffer :=
  RB (buffer_ptr rb) false 0 false 0 (buffer_size rb).

Definition rt_ringbuffer_put (rb : rt_ringbuffer) (ptr : list Z) (length : Z)
  : rt_ringbuffer * Z :=
  let size := u16 (rt_ringbuffer_space_len rb) in
  if size =? 0 then (rb, 0) else
  let length := if size <? length then size else length in
  if buffer_size rb - write_index rb >? length then
    (RB (memcpy_at (buffer_ptr rb) (write_index rb) ptr length)
        (read_mirror rb) (read_index rb)
        (write_mirror rb) (u15 (write_index rb + length)) (buffer_size rb), length)
  else
    let first := buffer_size rb - write_index rb in
    let buf := memcpy_at (buffer_ptr rb) (write_index rb) ptr first in
    let buf := memcpy_at buf 0 (drop (Z.to_nat first) ptr) (length - first) in
    (RB buf (read_mirror rb) (read_index rb)
        (negb (write_mirror rb)) (u15 (length - first)) (buffer_size rb), length).

Definition rt_ringbuffer_put_force (rb : rt_ringbuffer) (ptr : list Z) (length : Z)
  : rt_ringbuffer * Z :=
  let space_length := u16 (rt_ringbuffer_space_len rb) in
  let ptr := if length >? buffer_size rb then drop (Z.to_nat (length - buffer_size rb)) ptr
             else ptr in
  let length := if length >? buffer_size rb then buffer_size rb else length in
  if buffer_size rb - write_index rb >? length then
    let w := u15 (write_index rb + length) in
    (RB (memcpy_at (buffer_ptr rb) (write_index rb) ptr length)
        (read_mirror rb) (if length >? space_length then w else read_index rb)
        (write_mirror rb) w (buffer_size rb), length)
  else
    let first := buffer_size rb - write_index rb in
    let buf := memcpy_at (buffer_ptr rb) (write_index rb) ptr first in
    let buf := memcpy_at buf 0 (drop (Z.to_nat first) ptr) (length - first) in
    let w := u15 (length - first) in
    if length >? space_length then
      (RB buf (negb (read_mirror rb)) w (negb (write_mirror rb)) w (buffer_size rb), length)
    else
      (RB buf (read_mirror rb) (read_index rb) (negb (write_mirror rb)) w (buffer_size rb), length).

(** The bytes copied to the caller's [ptr] are the second component. *)
Definition rt_ringbuffer_get (rb : rt_ringbuffer) (length : Z)
  : rt_ringbuffer * list Z * Z :=
  let size := rt_ringbuffer_data_len rb in
  if size =? 0 then (rb, [], 0) else
  let length := if size <? length then u16 size else length in
  if buffer_size rb - read_index rb >? length then
    (RB (buffer_ptr rb) (read_mirror rb) (u15 (read_index rb + length))
        (write_mirror rb) (write_index rb) (buffer_size rb),
     lread (Z.to_nat (read_index rb)) (Z.to_nat length) (buffer_ptr rb), length)
  else
    let first := buffer_size rb - read_index rb in
    (RB (buffer_ptr rb) (negb (read_mirror rb)) (u15 (length - first))
        (write_mirror rb) (write_index rb) (buffer_size rb),
     lread (Z.to_nat (read_index rb)) (Z.to_nat first) (buffer_ptr rb) ++
       lread 0 (Z.to_nat (length - first)) (buffer_ptr rb), length).

(** [*ptr] is modelled by the index it points to. *)
Definition rt_ringbuffer_peak (rb : rt_ringbuffer) : rt_ringbuffer * option Z * Z :=
  let size := rt_ringbuffer_data_len rb in
  if size =? 0 then (rb, None, 0) else
  if buffer_size rb - read_index rb >? size then
    (RB (buffer_ptr rb) (read_mirror rb) (u15 (read_index rb + size))
        (write_mirror rb) (write_index rb) (buffer_size rb), Some (read_index rb), size)
  else
    (RB (buffer_ptr rb) (negb (read_mirror rb)) 0
        (write_mirror rb) (write_index rb) (buffer_size rb),
     Some (read_index rb), buffer_size rb - read_index rb).

Definition rt_ringbuffer_putchar (rb : rt_ringbuffer) (ch : Z) : rt_ringbuffer * Z :=
  if rt_ringbuffer_space_len rb =? 0 then (rb, 0) else
  let buf := <[Z.to_nat (write_index rb) := ch]> (buffer_ptr rb) in
  if write_index rb =? buffer_size rb - 1 then
    (RB buf (read_mirror rb) (read_index rb) (negb (write_mirror rb)) 0 (buffer_size rb), 1)
  else
    (RB buf (read_mirror rb) (read_index rb)
        (write_mirror rb) (u15 (write_index rb + 1)) (buffer_size rb), 1).

Definition rt_ringbuffer_putchar_force (rb : rt_ringbuffer) (ch : Z) : rt_ringbuffer * Z :=
  let old_state := rt_ringbuffer_status rb in
  let full := match old_state with RT_RINGBUFFER_FULL => true | _ => false end in
  let buf := <[Z.to_nat (write_index rb) := ch]> (buffer_ptr rb) in
  if write_index rb =? buffer_size rb - 1 then
    if full then
      (RB buf (negb (read_mirror rb)) 0 (negb (write_mirror rb)) 0 (buffer_size rb), 1)
    else
      (RB buf (read_mirror rb) (read_index rb) (negb (write_mirror rb)) 0 (buffer_size rb), 1)
  else
    let w := u15 (write_index rb + 1) in
    (RB buf (read_mirror rb) (if full then w else read_index rb)
        (write_mirror rb) w (buffer_size rb), 1).

Definition rt_ringbuffer_getchar (rb : rt_ringbuffer) : rt_ringbuffer * option Z * Z :=
  if rt_ringbuffer_data_len rb =? 0 then (rb, None, 0) else
  let ch := buffer_ptr rb !! Z.to_nat (read_index rb) in
  if read_index rb =? buffer_size rb - 1 then
    (RB (buffer_ptr rb) (negb (read_mirror rb)) 0
        (write_mirror rb) (write_index rb) (buffer_size rb), ch, 1)
  else
    (RB (buffer_ptr rb) (read_mirror rb) (u15 (read_index rb + 1))
        (write_mirror rb) (write_index rb) (buffer_size rb), ch, 1).

(** ** Abstraction to a bounded FIFO *)

(** Well-formedness: within one mirror the reader is behind the writer,
    across mirrors the writer has wrapped and is behind the reader. *)
Record rb_wf (rb : rt_ringbuffer) : Prop := {
  wf_size : 0 < buffer_size rb < 32768;
  wf_pool : buffer_size rb ≤ Z.of_nat (length (buffer_ptr rb));
  wf_read : 0 ≤ read_index rb < buffer_size rb;
  wf_write : 0 ≤ write_index rb < buffer_size rb;
  wf_order : if Bool.eqb (read_mirror rb) (write_mirror rb)
             then read_index rb ≤ write_index rb
             else write_index rb ≤ read_index rb
}.

(** Position [k] counted from the base of the buffer, folded once. *)
Definition rb_wrap (size k : Z) : Z := if k <? size then k else k - size.

(** The bytes held, oldest first. *)
Definition rb_data (rb : rt_ringbuffer) : list Z :=
  (λ i : nat, buffer_ptr rb !!! Z.to_nat (rb_wrap (buffer_size rb) (read_index rb + Z.of_nat i)))
    <$> seq 0 (Z.to_nat (rt_ringbuffer_data_len rb)).

(** Number of bytes held and the position they are written at, by mirror. *)
Definition rb_len (rb : rt_ringbuffer) : Z :=
  if Bool.eqb (read_mirror rb) (write_mirror rb) then write_index rb - read_index rb
  else write_index rb - read_index rb + buffer_size rb.

Lemma rb_len_eq rb : rb_wf rb → rt_ringbuffer_data_len rb = rb_len rb.
Proof.
  intros [? ? ? ? Ho]. unfold rt_ringbuffer_data_len, rt_ringbuffer_status, rb_len.
  destruct (Bool.eqb _ _) eqn:Em;
    destruct (Z.eqb_spec (read_index rb) (write_index rb)); try lia;
    rewrite Z.gtb_ltb; destruct (Z.ltb_spec (read_index rb) (write_index rb)); lia.
Qed.
Lemma rb_len_range rb : rb_wf rb → 0 ≤ rb_len rb ≤ buffer_size rb.
Proof. intros [? ? ? ? Ho]. unfold rb_len. destruct (Bool.eqb _ _); lia. Qed.
Lemma rb_write_pos rb : rb_wf rb → 
  write_index rb = rb_wrap (buffer_size rb) (read_index rb + rb_len rb).
Proof.
  intros [? ? ? ? Ho]. unfold rb_len, rb_wrap. destruct (Bool.eqb _ _);
  match goal with |- context [?a <? ?b] => destruct (Z.ltb_spec a b) end; lia.
Qed.
Lemma rb_space_eq rb : rb_wf rb → rt_ringbuffer_space_len rb = buffer_size rb - rb_len rb.
Proof.
  intros Hwf. pose proof (rb_len_range rb Hwf). destruct Hwf. unfold rt_ringbuffer_space_len.
  rewrite rb_len_eq by done. rewrite u32_small; lia.
Qed.

Lemma rb_data_length rb : length (rb_data rb) = Z.to_nat (rt_ringbuffer_data_len rb).
Proof. unfold rb_data. by rewrite length_fmap, length_seq. Qed.
Lemma rb_data_lookup rb (i : nat) : rb_wf rb → Z.of_nat i < rb_len rb →
  rb_data rb !! i =
    buffer_ptr rb !! Z.to_nat (rb_wrap (buffer_size rb) (read_index rb + Z.of_nat i)).
Proof.
  intros Hwf Hi. unfold rb_data. rewrite list_lookup_fmap, lookup_seq_lt by
    (rewrite rb_len_eq by done; lia). simpl.
  rewrite <-list_lookup_lookup_total_lt; [done|].
  destruct Hwf. unfold rb_wrap.
  match goal with |- context [?a <? ?b] => destruct (Z.ltb_spec a b) end;
    pose proof (rb_len_range rb); unfold rb_len in *; destruct (Bool.eqb _ _); lia.
Qed.

Lemma memcpy_at_lookup dst i src n j :
  0 ≤ i → 0 ≤ n ≤ Z.of_nat (length src) → i + n ≤ Z.of_nat (length dst) →
  memcpy_at dst i src n !! j =
    if decide (i ≤ Z.of_nat j < i + n) then src !! Z.to_nat (Z.of_nat j - i) else dst !! j.
Proof.
  intros. unfold memcpy_at. rewrite lookup_lwrite by (rewrite length_take; lia).
  rewrite length_take. repeat case_decide; try lia; [|done].
  rewrite lookup_take_lt by lia. f_equal. lia.
Qed.
Lemma memcpy_at_length dst i src n :
  0 ≤ i → 0 ≤ n ≤ Z.of_nat (length src) → i + n ≤ Z.of_nat (length dst) →
  length (memcpy_at dst i src n) = length dst.
Proof. intros. unfold memcpy_at. apply length_lwrite. rewrite length_take. lia. Qed.

(** Appending at the write position. *)
Lemma rb_data_extend rb rb' (src : list Z) (n : Z) :
  rb_wf rb → rb_wf rb' → 0 ≤ n ≤ Z.of_nat (length src) →
  buffer_size rb' = buffer_size rb → read_index rb' = read_index rb →
  rb_len rb' = rb_len rb + n →
  (∀ i, 0 ≤ i < rb_len rb →
     buffer_ptr rb' !! Z.to_nat (rb_wrap (buffer_size rb) (read_index rb + i)) =
     buffer_ptr rb !! Z.to_nat (rb_wrap (buffer_size rb) (read_index rb + i))) →
  (∀ i, 0 ≤ i < n →
     buffer_ptr rb' !! Z.to_nat (rb_wrap (buffer_size rb) (read_index rb + rb_len rb + i)) =
     src !! Z.to_nat i) →
  rb_data rb' = rb_data rb ++ take (Z.to_nat n) src.
Proof.
  intros Hwf Hwf' Hn Hs Hr Hl Hold Hnew. apply list_eq. intros i.
  pose proof (rb_len_range rb Hwf).
  destruct (decide (Z.of_nat i < rb_len rb')) as [Hi|Hi].
  - rewrite rb_data_lookup, Hs, Hr by done.
    destruct (decide (Z.of_nat i < rb_len rb)).
    + rewrite lookup_app_l by (rewrite rb_data_length, rb_len_eq by done; lia).
      rewrite rb_data_lookup by done. apply Hold. lia.
    + rewrite lookup_app_r by (rewrite rb_data_length, rb_len_eq by done; lia).
      rewrite rb_data_length, rb_len_eq, lookup_take_lt by (done || lia).
      replace (read_index rb + Z.of_nat i)
        with (read_index rb + rb_len rb + (Z.of_nat i - rb_len rb)) by lia.
      rewrite Hnew by lia. f_equal. lia.
  - rewrite !lookup_ge_None_2; [done| |].
    + rewrite length_app, length_take, rb_data_length, rb_len_eq by done. lia.
    + rewrite rb_data_length, rb_len_eq by done. lia.
Qed.

(** Case analysis on the comparisons of the code, then linear arithmetic. *)
Ltac rb_cases :=
  repeat match goal with
  | |- context [?a >? ?b] => rewrite (Z.gtb_ltb a b)
  | |- context [?a <? ?b] => destruct (Z.ltb_spec a b)
  | |- context [?a =? ?b] => destruct (Z.eqb_spec a b)
  | H : context [?a <? ?b] |- _ => destruct (Z.ltb_spec a b)
  | |- context [Bool.eqb ?a ?b] => destruct (Bool.eqb a b) eqn:?
  | H : context [Bool.eqb ?a ?b] |- _ => destruct (Bool.eqb a b) eqn:?
  | H : Bool.eqb ?a ?b = _, H' : context [Bool.eqb ?a ?b] |- _ => rewrite H in H'
  end; simpl in *.

Lemma u15_small x : 0 ≤ x < 32768 → u15 x = x.
Proof. apply Z.mod_small. Qed.
Lemma eqb_negb_r a b : Bool.eqb a (negb b) = negb (Bool.eqb a b).
Proof. by destruct a, b. Qed.
Lemma eqb_negb_l a b : Bool.eqb (negb a) b = negb (Bool.eqb a b).
Proof. by destruct a, b. Qed.

(** Cell [i] of the pool after a run of [n] bytes was copied to position
    [w], folding at the end of the buffer. *)
Definition rb_written (size w n : Z) (src dst buf' : list Z) : Prop :=
  length buf' = length dst ∧
  (∀ i, 0 ≤ i < n → buf' !! Z.to_nat (rb_wrap size (w + i)) = src !! Z.to_nat i) ∧
  (∀ k, 0 ≤ k < size → (∀ i, 0 ≤ i < n → rb_wrap size (w + i) ≠ k) →
     buf' !! Z.to_nat k = dst !! Z.to_nat k).

Lemma rb_written_flat size w n src dst :
  0 ≤ w → 0 ≤ n ≤ Z.of_nat (length src) → w + n < size → size ≤ Z.of_nat (length dst) →
  rb_written size w n src dst (memcpy_at dst w src n).
Proof.
  intros. split; [apply memcpy_at_length; lia|]. split.
  - intros i Hi. rewrite memcpy_at_lookup by lia. unfold rb_wrap.
    rewrite (proj2 (Z.ltb_lt _ _)) by lia. rewrite decide_True by lia. f_equal. lia.
  - intros k Hk Hne. rewrite memcpy_at_lookup by lia. rewrite decide_False; [done|].
    intros ?. apply (Hne (k - w)); [lia|]. unfold rb_wrap.
    rewrite (proj2 (Z.ltb_lt _ _)); lia.
Qed.
Lemma rb_written_fold size w n src dst :
  0 ≤ w < size → 0 ≤ n ≤ Z.of_nat (length src) → n ≤ size → size ≤ w + n →
  size ≤ Z.of_nat (length dst) →
  rb_written size w n src dst
    (memcpy_at (memcpy_at dst w src (size - w)) 0
               (drop (Z.to_nat (size - w)) src) (n - (size - w))).
Proof.
  intros. assert (length (memcpy_at dst w src (size - w)) = length dst) as El
    by (apply memcpy_at_length; lia).
  split; [|split].
  - rewrite memcpy_at_length; rewrite ?El, ?length_drop; lia.
  - intros i Hi. rewrite memcpy_at_lookup by (rewrite ?El, ?length_drop; lia).
    unfold rb_wrap. destruct (Z.ltb_spec (w + i) size).
    + rewrite decide_False by lia. rewrite memcpy_at_lookup by lia.
      rewrite decide_True by lia. f_equal. lia.
    + rewrite decide_True by lia. rewrite lookup_drop. f_equal. lia.
  - intros k Hk Hne. rewrite memcpy_at_lookup by (rewrite ?El, ?length_drop; lia).
    rewrite decide_False, memcpy_at_lookup, decide_False; try lia; [done|..];
      intros Hin.
    + apply (Hne (k - w)); [lia|]. unfold rb_wrap. rewrite (proj2 (Z.ltb_lt _ _)); lia.
    + apply (Hne (k + size - w)); [lia|]. unfold rb_wrap. rewrite (proj2 (Z.ltb_ge _ _)); lia.
Qed.

(** Moving the write position past [n] new bytes, the read position past
    [n] consumed ones; the mirror bit flips on passing the end. *)
Definition rb_advance (rb : rt_ringbuffer) (buf : list Z) (n : Z) : rt_ringbuffer :=
  let k := write_index rb + n in
  RB buf (read_mirror rb) (read_index rb)
     (if k <? buffer_size rb then write_mirror rb else negb (write_mirror rb))
     (rb_wrap (buffer_size rb) k) (buffer_size rb).
Definition rb_consume (rb : rt_ringbuffer) (n : Z) : rt_ringbuffer :=
  let k := read_index rb + n in
  RB (buffer_ptr rb)
     (if k <? buffer_size rb then read_mirror rb else negb (read_mirror rb))
     (rb_wrap (buffer_size rb) k) (write_mirror rb) (write_index rb) (buffer_size rb).

Ltac wrap_cases :=
  unfold rb_wrap in *;
  repeat match goal with
  | |- context [?a <? ?b] => destruct (Z.ltb_spec a b)
  | H : context [?a <? ?b] |- _ => destruct (Z.ltb_spec a b)
  end.

Lemma rb_advance_len rb buf n :
  rb_wf rb → 0 ≤ n ≤ buffer_size rb - rb_len rb → rb_len (rb_advance rb buf n) = rb_len rb + n.
Proof.
  intros [? ? ? ? Ho] Hn. revert Hn Ho. unfold rb_len, rb_advance. simpl. wrap_cases;
    rewrite ?eqb_negb_r; destruct (Bool.eqb _ _); simpl; lia.
Qed.
Lemma rb_advance_wf rb buf n :
  rb_wf rb → 0 ≤ n ≤ buffer_size rb - rb_len rb →
  length buf = length (buffer_ptr rb) → rb_wf (rb_advance rb buf n).
Proof.
  intros [? ? ? ? Ho] Hn Hb. revert Hn Ho. unfold rb_len.
  intros Hn Ho. split; simpl; [done|lia|done|..].
  - destruct (Bool.eqb _ _); wrap_cases; lia.
  - wrap_cases; rewrite ?eqb_negb_r; destruct (Bool.eqb _ _); simpl; lia.
Qed.
Lemma rb_consume_len rb n :
  rb_wf rb → 0 ≤ n ≤ rb_len rb → rb_len (rb_consume rb n) = rb_len rb - n.
Proof.
  intros [? ? ? ? Ho] Hn. revert Hn Ho. unfold rb_len, rb_consume. simpl. wrap_cases;
    rewrite ?eqb_negb_l; destruct (Bool.eqb _ _); simpl; lia.
Qed.
Lemma rb_consume_wf rb n : rb_wf rb → 0 ≤ n ≤ rb_len rb → rb_wf (rb_consume rb n).
Proof.
  intros [? ? ? ? Ho] Hn. revert Hn Ho. unfold rb_len. intros Hn Ho.
  split; simpl; [done|done|..|done|].
  - destruct (Bool.eqb _ _); wrap_cases; lia.
  - wrap_cases; rewrite ?eqb_negb_l; destruct (Bool.eqb _ _); simpl; lia.
Qed.

Lemma rb_advance_data rb buf src n :
  rb_wf rb → 0 ≤ n ≤ Z.of_nat (length src) → n ≤ buffer_size rb - rb_len rb →
  rb_written (buffer_size rb) (write_index rb) n src (buffer_ptr rb) buf →
  rb_wf (rb_advance rb buf n) ∧
  rb_data (rb_advance rb buf n) = rb_data rb ++ take (Z.to_nat n) src.
Proof.
  intros Hwf Hn Hsp (Hlen & Hnew & Hold).
  assert (rb_wf (rb_advance rb buf n)) as Hwf' by (apply rb_advance_wf; auto; lia).
  split; [done|].
  pose proof (rb_len_range rb Hwf). pose proof (rb_write_pos rb Hwf) as Hw.
  apply rb_data_extend; auto.
  - apply rb_advance_len; [done|lia].
  - intros i Hi. simpl. destruct Hwf as [? ? ? ? _]. apply Hold.
    + wrap_cases; lia.
    + intros j Hj. rewrite Hw. wrap_cases; lia.
  - intros i Hi. simpl. rewrite <-Hnew by done. do 2 f_equal.
    rewrite Hw. destruct Hwf as [? ? ? ? _]. wrap_cases; lia.
Qed.
Lemma rb_consume_data rb n :
  rb_wf rb → 0 ≤ n ≤ rb_len rb →
  rb_wf (rb_consume rb n) ∧ rb_data (rb_consume rb n) = drop (Z.to_nat n) (rb_data rb).
Proof.
  intros Hwf Hn. assert (rb_wf (rb_consume rb n)) as Hwf' by by apply rb_consume_wf.
  split; [done|]. apply list_eq. intros i. rewrite lookup_drop.
  pose proof (rb_consume_len rb n Hwf Hn) as Hl.
  destruct (decide (Z.of_nat i < rb_len rb - n)).
  - rewrite !rb_data_lookup by (done || lia). simpl. do 2 f_equal.
    destruct Hwf. pose proof (rb_len_range rb). wrap_cases; unfold rb_len in *;
    destruct (Bool.eqb _ _); lia.
  - rewrite !lookup_ge_None_2; [done|..]; rewrite rb_data_length, rb_len_eq by done; lia.
Qed.

(** The common part of [rt_ringbuffer_put] and [rt_ringbuffer_put_force]
    when the bytes fit. *)
Lemma rb_put_code rb ptr n :
  rb_wf rb → 0 ≤ n ≤ Z.of_nat (length ptr) → n ≤ buffer_size rb - rb_len rb →
  ∃ rb',
    (if buffer_size rb - write_index rb >? n then
       RB (memcpy_at (buffer_ptr rb) (write_index rb) ptr n)
          (read_mirror rb) (read_index rb)
          (write_mirror rb) (u15 (write_index rb + n)) (buffer_size rb)
     else
       RB (memcpy_at (memcpy_at (buffer_ptr rb) (write_index rb) ptr
             (buffer_size rb - write_index rb)) 0
             (drop (Z.to_nat (buffer_size rb - write_index rb)) ptr)
             (n - (buffer_size rb - write_index rb)))
          (read_mirror rb) (read_index rb) (negb (write_mirror rb))
          (u15 (n - (buffer_size rb - write_index rb))) (buffer_size rb)) = rb' ∧
    rb_wf rb' ∧ buffer_size rb' = buffer_size rb ∧
    rb_data rb' = rb_data rb ++ take (Z.to_nat n) ptr.
Proof.
  intros Hwf Hn Hsp. pose proof (rb_len_range rb Hwf).
  pose proof Hwf as [? ? ? ? _]. rewrite Z.gtb_ltb.
  destruct (Z.ltb_spec n (buffer_size rb - write_index rb)).
  - destruct (rb_advance_data rb (memcpy_at (buffer_ptr rb) (write_index rb) ptr n) ptr n)
      as [W D]; [done|lia..| |].
    { apply rb_written_flat; lia. }
    rewrite u15_small by lia. eexists. split; [reflexivity|].
    revert W D. unfold rb_advance, rb_wrap.
    rewrite (proj2 (Z.ltb_lt _ _)) by lia. done.
  - edestruct (rb_advance_data rb) as [W D]; [done|exact Hn|lia|..].
    { apply rb_written_fold; lia. }
    rewrite u15_small by lia. eexists. split; [reflexivity|].
    revert W D. unfold rb_advance, rb_wrap. rewrite (proj2 (Z.ltb_ge _ _)) by lia.
    replace (write_index rb + n - buffer_size rb)
      with (n - (buffer_size rb - write_index rb)) by lia. done.
Qed.

(** C4: [rt_ringbuffer_put] on a well-formed buffer appends to the bytes held
    as many of the caller's bytes as there is space for (dropping the rest),
    returns that number, and keeps the buffer well-formed. *)
Theorem rt_ringbuffer_put_appends rb ptr n :
  rb_wf rb → 0 ≤ n ≤ Z.of_nat (length ptr) → n < 65536 →
  ∃ rb', rt_ringbuffer_put rb ptr n =
           (rb', Z.min n (buffer_size rb - Z.of_nat (length (rb_data rb)))) ∧
    rb_wf rb' ∧ buffer_size rb' = buffer_size rb ∧
    rb_data rb' = rb_data rb ++
      take (Z.to_nat (Z.min n (buffer_size rb - Z.of_nat (length (rb_data rb))))) ptr.
Proof.
  intros Hwf Hn Hn'. pose proof (rb_len_range rb Hwf). pose proof Hwf as [? ? ? ? _].
  rewrite rb_data_length, rb_len_eq, Z2Nat.id by (done || lia).
  unfold rt_ringbuffer_put. rewrite rb_space_eq, u16_small by (done || lia).
  destruct (Z.eqb_spec (buffer_size rb - rb_len rb) 0) as [E|E].
  - exists rb. rewrite E, Z.min_r by lia. simpl. by rewrite take_0, app_nil_r.
  - set (k := Z.min n (buffer_size rb - rb_len rb)).
    assert ((if buffer_size rb - rb_len rb <? n then buffer_size rb - rb_len rb else n) = k) as ->.
    { subst k. destruct (Z.ltb_spec (buffer_size rb - rb_len rb) n); lia. }
    destruct (rb_put_code rb ptr k) as (rb' & E' & W & S & D); [done|lia..|].
    exists rb'. split; [|done]. rewrite <-E'. by destruct (_ >? _).
Qed.

(** Overwriting a buffer that cannot take [k] more bytes: it is full
    afterwards, and holds the newest [size] bytes. *)
Definition rb_overwritten (rb : rt_ringbuffer) (buf : list Z) (k : Z) (rm wm : bool) :=
  let w := rb_wrap (buffer_size rb) (write_index rb + k) in
  RB buf rm w wm w (buffer_size rb).
Lemma rb_overwrite_data rb buf src k rm wm :
  rb_wf rb → 0 ≤ k ≤ Z.of_nat (length src) → k ≤ buffer_size rb →
  buffer_size rb ≤ rb_len rb + k → rm ≠ wm →
  rb_written (buffer_size rb) (write_index rb) k src (buffer_ptr rb) buf →
  rb_wf (rb_overwritten rb buf k rm wm) ∧
  rb_data (rb_overwritten rb buf k rm wm) =
    drop (Z.to_nat (rb_len rb + k - buffer_size rb)) (rb_data rb ++ take (Z.to_nat k) src).
Proof.
  intros Hwf Hk Hks Hov Hm (Hlen & Hnew & Hold). pose proof (rb_len_range rb Hwf).
  pose proof (rb_write_pos rb Hwf) as Hw. pose proof Hwf as [? ? ? ? _].
  assert (rb_wf (rb_overwritten rb buf k rm wm)) as Hwf'.
  { split; simpl; [done|lia|wrap_cases; lia|wrap_cases; lia|].
    rewrite (proj2 (eqb_false_iff rm wm)) by done. lia. }
  assert (rb_len (rb_overwritten rb buf k rm wm) = buffer_size rb) as Hl.
  { unfold rb_len. simpl. rewrite (proj2 (eqb_false_iff rm wm)) by done. lia. }
  split; [done|]. apply list_eq. intros i. rewrite lookup_drop.
  destruct (decide (Z.of_nat i < buffer_size rb)).
  - rewrite rb_data_lookup by (done || lia). simpl.
    destruct (decide (Z.of_nat i < buffer_size rb - k)).
    + rewrite lookup_app_l by (rewrite rb_data_length, rb_len_eq by done; lia).
      rewrite rb_data_lookup by (done || lia). rewrite Hold.
      * do 2 f_equal. rewrite Hw. clear Hnew Hold. wrap_cases; lia.
      * wrap_cases; lia.
      * intros j Hj. clear Hnew Hold. wrap_cases; lia.
    + rewrite lookup_app_r by (rewrite rb_data_length, rb_len_eq by done; lia).
      rewrite rb_data_length, rb_len_eq, lookup_take_lt by (done || lia).
      replace (Z.to_nat (rb_len rb + k - buffer_size rb) + i - Z.to_nat (rb_len rb))%nat
        with (Z.to_nat (Z.of_nat i + k - buffer_size rb)) by lia.
      rewrite <-Hnew by lia. do 2 f_equal. clear Hnew Hold. wrap_cases; lia.
  - rewrite !lookup_ge_None_2; [done|..].
    + rewrite length_app, length_take, rb_data_length, rb_len_eq by done. lia.
    + rewrite rb_data_length, rb_len_eq by done. lia.
Qed.

(** C5: [rt_ringbuffer_get] hands over the oldest bytes in order, as many as
    asked for or held, removes exactly those, and keeps the buffer
    well-formed. *)
Theorem rt_ringbuffer_get_takes rb n :
  rb_wf rb → 0 ≤ n < 65536 →
  ∃ rb', rt_ringbuffer_get rb n =
           (rb', take (Z.to_nat n) (rb_data rb), Z.min n (Z.of_nat (length (rb_data rb)))) ∧
    rb_wf rb' ∧ buffer_size rb' = buffer_size rb ∧
    rb_data rb' = drop (Z.to_nat n) (rb_data rb).
Proof.
  intros Hwf Hn. pose proof (rb_len_range rb Hwf). pose proof Hwf as [? ? ? ? _].
  rewrite rb_data_length, rb_len_eq, Z2Nat.id by (done || lia).
  unfold rt_ringbuffer_get. rewrite rb_len_eq by done.
  destruct (Z.eqb_spec (rb_len rb) 0) as [E|E].
  { assert (rb_data rb = []) as Hnil.
    { apply length_zero_iff_nil. rewrite rb_data_length, rb_len_eq by done. lia. }
    exists rb. rewrite E, Z.min_r, Hnil by lia. by rewrite take_nil, drop_nil. }
  set (k := Z.min n (rb_len rb)).
  assert ((if rb_len rb <? n then u16 (rb_len rb) else n) = k) as ->.
  { subst k. destruct (Z.ltb_spec (rb_len rb) n); rewrite ?u16_small by lia; lia. }
  destruct (rb_consume_data rb k Hwf ltac:(lia)) as [W D].
  assert (take (Z.to_nat n) (rb_data rb) = take (Z.to_nat k) (rb_data rb)) as ->.
  { subst k. destruct (Z.min_spec n (rb_len rb)) as [[? ->]|[? ->]]; [done|].
    rewrite !take_ge; [done|..]; rewrite rb_data_length, rb_len_eq by done; lia. }
  assert (drop (Z.to_nat n) (rb_data rb) = drop (Z.to_nat k) (rb_data rb)) as ->.
  { subst k. destruct (Z.min_spec n (rb_len rb)) as [[? ->]|[? ->]]; [done|].
    rewrite !drop_ge; [done|..]; rewrite rb_data_length, rb_len_eq by done; lia. }
  exists (rb_consume rb k). split_and!; [|done..].
  rewrite Z.gtb_ltb. unfold rb_consume, rb_wrap.
  destruct (Z.ltb_spec k (buffer_size rb - read_index rb)).
  - rewrite (proj2 (Z.ltb_lt (read_index rb + k) _)), u15_small by lia. do 2 f_equal.
    apply list_eq. intros i. rewrite lookup_lread. case_decide.
    + rewrite lookup_take_lt, rb_data_lookup by (done || lia). f_equal. wrap_cases; lia.
    + by rewrite lookup_take_ge by lia.
  - rewrite (proj2 (Z.ltb_ge (read_index rb + k) _)), u15_small by lia.
    replace (k - (buffer_size rb - read_index rb)) with (read_index rb + k - buffer_size rb) by lia.
    do 2 f_equal. apply list_eq. intros i.
    destruct (decide (Z.of_nat i < buffer_size rb - read_index rb)).
    + rewrite lookup_app_l by (rewrite length_lread; lia). rewrite lookup_lread.
      rewrite decide_True, lookup_take_lt, rb_data_lookup by (done || lia).
      f_equal. wrap_cases; lia.
    + rewrite lookup_app_r by (rewrite length_lread; lia).
      rewrite length_lread, lookup_lread by lia. case_decide.
      * rewrite lookup_take_lt, rb_data_lookup by (done || lia). f_equal. wrap_cases; lia.
      * by rewrite lookup_take_ge by lia.
Qed.

Lemma rb_put_force_code rb src k sp :
  rb_wf rb → 0 ≤ k ≤ Z.of_nat (length src) → k ≤ buffer_size rb → sp < k →
  sp = buffer_size rb - rb_len rb →
  ∃ buf,
    rb_written (buffer_size rb) (write_index rb) k src (buffer_ptr rb) buf ∧
    (if buffer_size rb - write_index rb >? k then
       (RB (memcpy_at (buffer_ptr rb) (write_index rb) src k)
          (read_mirror rb) (if k >? sp then u15 (write_index rb + k) else read_index rb)
          (write_mirror rb) (u15 (write_index rb + k)) (buffer_size rb), k)
     else
       let first := buffer_size rb - write_index rb in
       let buf := memcpy_at (buffer_ptr rb) (write_index rb) src first in
       let buf := memcpy_at buf 0 (drop (Z.to_nat first) src) (k - first) in
       let w := u15 (k - first) in
       if k >? sp then
         (RB buf (negb (read_mirror rb)) w (negb (write_mirror rb)) w (buffer_size rb), k)
       else
         (RB buf (read_mirror rb) (read_index rb) (negb (write_mirror rb)) w (buffer_size rb), k)) =
    (rb_overwritten rb buf k
       (if write_index rb + k <? buffer_size rb then read_mirror rb else negb (read_mirror rb))
       (if write_index rb + k <? buffer_size rb then write_mirror rb else negb (write_mirror rb)), k).
Proof.
  intros Hwf Hk Hks Hov Hsp. pose proof Hwf as [? ? ? ? _]. pose proof (rb_len_range rb Hwf).
  rewrite !Z.gtb_ltb, (proj2 (Z.ltb_lt sp k)) by lia.
  destruct (Z.ltb_spec k (buffer_size rb - write_index rb)).
  - eexists. split; [apply rb_written_flat; lia|].
    unfold rb_overwritten, rb_wrap. by rewrite (proj2 (Z.ltb_lt (_ + k) _)), u15_small by lia.
  - eexists. split; [apply rb_written_fold; lia|].
    unfold rb_overwritten, rb_wrap. cbv zeta.
    rewrite (proj2 (Z.ltb_ge (_ + k) _)), u15_small by lia.
    by replace (write_index rb + k - buffer_size rb)
      with (k - (buffer_size rb - write_index rb)) by lia.
Qed.

Definition same_mirror (rb : rt_ringbuffer) : bool := Bool.eqb (read_mirror rb) (write_mirror rb).

(** The bytes [rt_ringbuffer_put_force] stores: the last [size] of the [n]. *)
Definition newest (size n : Z) (ptr : list Z) : list Z :=
  drop (Z.to_nat (n - size)) (take (Z.to_nat n) ptr).

Lemma newest_take size n ptr :
  0 < size → 0 ≤ n ≤ Z.of_nat (length ptr) →
  newest size n ptr =
    take (Z.to_nat (if n >? size then size else n))
         (if n >? size then drop (Z.to_nat (n - size)) ptr else ptr).
Proof.
  intros. unfold newest. rewrite Z.gtb_ltb. destruct (Z.ltb_spec size n).
  - rewrite take_drop_commute. do 2 f_equal. lia.
  - replace (Z.to_nat (n - size)) with 0%nat by lia. by rewrite drop_0.
Qed.

(** C6: [rt_ringbuffer_put_force] keeps the newest bytes: while the writer is
    in the other mirror than the reader, or the bytes fit, the buffer holds
    the last [size] bytes of the old contents followed by the new bytes. *)
Theorem rt_ringbuffer_put_force_keeps_newest rb ptr n :
  rb_wf rb → 0 ≤ n ≤ Z.of_nat (length ptr) →
  same_mirror rb = false ∨
    Z.min n (buffer_size rb) ≤ buffer_size rb - Z.of_nat (length (rb_data rb)) →
  ∃ rb', rt_ringbuffer_put_force rb ptr n = (rb', Z.min n (buffer_size rb)) ∧
    rb_wf rb' ∧ buffer_size rb' = buffer_size rb ∧
    rb_data rb' =
      let all := rb_data rb ++ newest (buffer_size rb) n ptr in
      drop (length all - Z.to_nat (buffer_size rb)) all.
Proof.
  intros Hwf Hn Hm. pose proof (rb_len_range rb Hwf). pose proof Hwf as [? ? ? ? _].
  rewrite rb_data_length, rb_len_eq, Z2Nat.id in Hm by (done || lia).
  cbv zeta. rewrite newest_take by lia.
  unfold rt_ringbuffer_put_force. rewrite rb_space_eq, u16_small by (done || lia).
  set (src := if n >? buffer_size rb then drop (Z.to_nat (n - buffer_size rb)) ptr else ptr).
  set (k := if n >? buffer_size rb then buffer_size rb else n).
  assert (k = Z.min n (buffer_size rb)) as Hk.
  { subst k. rewrite Z.gtb_ltb. destruct (Z.ltb_spec (buffer_size rb) n); lia. }
  assert (k ≤ Z.of_nat (length src)) as Hks.
  { subst src. rewrite Z.gtb_ltb. destruct (Z.ltb_spec (buffer_size rb) n);
      rewrite ?length_drop; lia. }
  rewrite <-Hk. clearbody src k. rewrite length_app, length_take, rb_data_length, rb_len_eq by done.
  destruct (Z.leb_spec k (buffer_size rb - rb_len rb)) as [Hfit|Hov].
  - destruct (rb_put_code rb src k) as (rb' & E' & W & S & D); [done|lia..|].
    exists rb'. split; [|split_and!; [done..|]].
    + rewrite (Z.gtb_ltb k (_ - rb_len _)), (proj2 (Z.ltb_ge _ k)) by lia.
      rewrite <-E'. cbv zeta. by destruct (_ >? _).
    + rewrite D. replace (_ - _)%nat with 0%nat by lia. by rewrite drop_0.
  - destruct (rb_put_force_code rb src k (buffer_size rb - rb_len rb)) as (buf & Wr & E');
      [done|lia..|]. cbv zeta in *. rewrite E'. eexists. split; [done|].
    destruct Hm as [Hm|?]; [|lia]. unfold same_mirror in Hm. apply eqb_false_iff in Hm.
    edestruct (rb_overwrite_data rb buf src k) as [W D]; [done|lia..| |exact Wr|].
    2:{ split_and!; [exact W|done|]. rewrite D. f_equal. lia. }
    destruct (_ <? _), (read_mirror rb), (write_mirror rb); done.
Qed.

(** C7: The defect of [rt_ringbuffer_put_force]: when reader and writer are in
    the same mirror and the bytes do not fit, it flips both mirror bits, so
    the buffer it has just filled reads as empty. *)
Theorem rt_ringbuffer_put_force_overflow_empties rb ptr n :
  rb_wf rb → 0 ≤ n ≤ Z.of_nat (length ptr) → same_mirror rb = true →
  buffer_size rb - Z.of_nat (length (rb_data rb)) < Z.min n (buffer_size rb) →
  ∃ rb', rt_ringbuffer_put_force rb ptr n = (rb', Z.min n (buffer_size rb)) ∧
    rt_ringbuffer_status rb' = RT_RINGBUFFER_EMPTY ∧ rb_data rb' = [].
Proof.
  intros Hwf Hn Hm Hov. pose proof (rb_len_range rb Hwf). pose proof Hwf as [? ? ? ? Ho].
  rewrite rb_data_length, rb_len_eq, Z2Nat.id in * by (done || lia).
  unfold rt_ringbuffer_put_force. rewrite rb_space_eq, u16_small by (done || lia).
  set (src := if n >? buffer_size rb then drop (Z.to_nat (n - buffer_size rb)) ptr else ptr).
  set (k := if n >? buffer_size rb then buffer_size rb else n).
  assert (k = Z.min n (buffer_size rb)) as Hk.
  { subst k. rewrite Z.gtb_ltb. destruct (Z.ltb_spec (buffer_size rb) n); lia. }
  assert (k ≤ Z.of_nat (length src)) as Hks.
  { subst src. rewrite Z.gtb_ltb. destruct (Z.ltb_spec (buffer_size rb) n);
      rewrite ?length_drop; lia. }
  rewrite <-Hk in *. clearbody src k.
  destruct (rb_put_force_code rb src k (buffer_size rb - rb_len rb)) as (buf & Wr & E');
    [done|lia..|]. cbv zeta in *. rewrite E'. eexists. split; [done|].
  unfold same_mirror in Hm.
  assert (rt_ringbuffer_status (rb_overwritten rb buf k
       (if write_index rb + k <? buffer_size rb then read_mirror rb else negb (read_mirror rb))
       (if write_index rb + k <? buffer_size rb then write_mirror rb else negb (write_mirror rb)))
     = RT_RINGBUFFER_EMPTY) as Hs.
  { unfold rt_ringbuffer_status. simpl. rewrite Z.eqb_refl. apply eqb_prop in Hm. rewrite Hm.
    by rewrite eqb_reflx. }
  split; [done|]. unfold rb_data, rt_ringbuffer_data_len. by rewrite Hs.
Qed.

(** C8: [rt_ringbuffer_putchar] appends one byte unless the buffer is full
    (then it returns 0 and changes nothing), and [rt_ringbuffer_getchar]
    removes and returns the oldest byte, or reports an empty buffer. *)
Theorem rt_ringbuffer_putchar_getchar rb ch :
  rb_wf rb →
  (if decide (Z.of_nat (length (rb_data rb)) < buffer_size rb) then
     ∃ rb', rt_ringbuffer_putchar rb ch = (rb', 1) ∧ rb_wf rb' ∧
            rb_data rb' = rb_data rb ++ [ch]
   else rt_ringbuffer_putchar rb ch = (rb, 0)) ∧
  match rb_data rb with
  | [] => rt_ringbuffer_getchar rb = (rb, None, 0)
  | c :: rest => ∃ rb', rt_ringbuffer_getchar rb = (rb', Some c, 1) ∧ rb_wf rb' ∧
                        rb_data rb' = rest
  end.
Proof.
  intros Hwf. pose proof (rb_len_range rb Hwf). pose proof Hwf as [? ? ? ? _].
  assert (length (rb_data rb) = Z.to_nat (rb_len rb)) as Hl by
    (rewrite rb_data_length, rb_len_eq; done).
  split.
  - rewrite Hl. unfold rt_ringbuffer_putchar. rewrite rb_space_eq by done. case_decide.
    + rewrite (proj2 (Z.eqb_neq _ 0)) by lia.
      destruct (rb_advance_data rb (memcpy_at (buffer_ptr rb) (write_index rb) [ch] 1) [ch] 1)
        as [W D]; [done|simpl; lia|lia| |].
      { destruct (decide (write_index rb + 1 < buffer_size rb)).
        - apply rb_written_flat; simpl; lia.
        - pose proof (rb_written_fold (buffer_size rb) (write_index rb) 1 [ch] (buffer_ptr rb))
            as Hf. replace (buffer_size rb - write_index rb) with 1 in Hf by lia.
          assert (1 - 1 = 0) as E by lia. rewrite E in Hf.
          assert (memcpy_at (memcpy_at (buffer_ptr rb) (write_index rb) [ch] 1) 0
            (drop (Z.to_nat 1) [ch]) 0 = memcpy_at (buffer_ptr rb) (write_index rb) [ch] 1) as E2.
          { unfold memcpy_at at 1. simpl. unfold lwrite. by rewrite take_0. }
          rewrite E2 in Hf. apply Hf; simpl; lia. }
      assert (memcpy_at (buffer_ptr rb) (write_index rb) [ch] 1 =
              <[Z.to_nat (write_index rb) := ch]> (buffer_ptr rb)) as E.
      { unfold memcpy_at, lwrite. simpl. rewrite Nat.add_1_r.
        rewrite insert_take_drop by lia. done. }
      rewrite E in *. eexists. split; [|split; [exact W|exact D]].
      unfold rb_advance. rewrite Z.eqb_sym. unfold rb_wrap.
      destruct (Z.eqb_spec (buffer_size rb - 1) (write_index rb)).
      * rewrite (proj2 (Z.ltb_ge _ _)) by lia. do 2 f_equal. lia.
      * rewrite (proj2 (Z.ltb_lt _ _)) by lia. by rewrite u15_small by lia.
    + by rewrite (proj2 (Z.eqb_eq _ 0)) by lia.
  - unfold rt_ringbuffer_getchar. rewrite rb_len_eq by done.
    destruct (rb_data rb) as [|c rest] eqn:Ed; simpl in Hl.
    + by rewrite (proj2 (Z.eqb_eq _ 0)) by lia.
    + rewrite (proj2 (Z.eqb_neq _ 0)) by lia.
      destruct (rb_consume_data rb 1 Hwf ltac:(lia)) as [W D].
      assert (buffer_ptr rb !! Z.to_nat (read_index rb) = Some c) as Hc.
      { pose proof (rb_data_lookup rb 0 Hwf ltac:(lia)) as E. rewrite Ed in E. simpl in E.
        rewrite E. f_equal. wrap_cases; lia. }
      rewrite Hc, Ed in *. exists (rb_consume rb 1).
      split; [|split; [done|by rewrite D]].
      unfold rb_consume, rb_wrap. rewrite Z.eqb_sym.
      destruct (Z.eqb_spec (buffer_size rb - 1) (read_index rb)).
      * rewrite (proj2 (Z.ltb_ge _ _)) by lia. do 3 f_equal. lia.
      * rewrite (proj2 (Z.ltb_lt _ _)) by lia. by rewrite u15_small by lia.
Qed.

(** [rt_ringbuffer_init] with room for an aligned cell, and
    [rt_ringbuffer_reset], give a well-formed empty buffer. *)
Lemma rt_ringbuffer_init_empty pool size :
  4 ≤ size < 32768 → size ≤ Z.of_nat (length pool) →
  ∃ rb, rt_ringbuffer_init pool size = Some rb ∧ rb_wf rb ∧ rb_data rb = [] ∧
        buffer_size rb = size - size mod 4.
Proof.
  intros Hs Hp. unfold rt_ringbuffer_init. rewrite Z.gtb_ltb, (proj2 (Z.ltb_lt _ _)) by lia.
  unfold RT_ALIGN_SIZE. rewrite RT_ALIGN_DOWN_4 by lia.
  pose proof (Z.mod_pos_bound size 4 ltac:(lia)).
  assert (4 ≤ size - size mod 4) by (Z.div_mod_to_equations; lia).
  rewrite s16_small by lia. eexists. split; [done|].
  split; [|done]. split; simpl; lia.
Qed.
Lemma rt_ringbuffer_reset_empty rb :
  rb_wf rb → rb_wf (rt_ringbuffer_reset rb) ∧ rb_data (rt_ringbuffer_reset rb) = [].
Proof. intros [? ? ? ? ?]. split; [split; simpl; lia|done]. Qed.

(** [rt_ringbuffer_putchar_force] always keeps the newest bytes. *)
Lemma rt_ringbuffer_putchar_force_keeps_newest rb ch :
  rb_wf rb →
  ∃ rb', rt_ringbuffer_putchar_force rb ch = (rb', 1) ∧ rb_wf rb' ∧
    rb_data rb' = let all := rb_data rb ++ [ch] in
                  drop (length all - Z.to_nat (buffer_size rb)) all.
Proof.
  intros Hwf. pose proof (rb_len_range rb Hwf). pose proof Hwf as [? ? ? ? Ho].
  assert (length (rb_data rb) = Z.to_nat (rb_len rb)) as Hl by
    (rewrite rb_data_length, rb_len_eq; done).
  set (buf := <[Z.to_nat (write_index rb) := ch]> (buffer_ptr rb)).
  assert (rb_written (buffer_size rb) (write_index rb) 1 [ch] (buffer_ptr rb) buf) as Wr.
  { split; [by unfold buf; rewrite length_insert|]. split.
    - intros i Hi. replace i with 0 by lia. rewrite Z.add_0_r.
      unfold rb_wrap. rewrite (proj2 (Z.ltb_lt _ _)) by lia.
      unfold buf. by rewrite list_lookup_insert_eq by lia.
    - intros k Hk Hne. specialize (Hne 0 ltac:(lia)). unfold rb_wrap in Hne.
      rewrite Z.add_0_r, (proj2 (Z.ltb_lt _ _)) in Hne by lia.
      unfold buf. rewrite list_lookup_insert_ne; [done|lia]. }
  cbv zeta. rewrite length_app, Hl. simpl.
  unfold rt_ringbuffer_putchar_force. fold buf.
  destruct (decide (rb_len rb = buffer_size rb)) as [Hfull|Hnf].
  - assert (rt_ringbuffer_status rb = RT_RINGBUFFER_FULL ∧ same_mirror rb = false) as [-> Hm].
    { unfold rt_ringbuffer_status, same_mirror. unfold rb_len in Hfull.
      destruct (Bool.eqb _ _); [lia|]. by rewrite (proj2 (Z.eqb_eq _ _)) by lia. }
    apply eqb_false_iff in Hm.
    pose proof (rb_overwrite_data rb buf [ch] 1
      (if write_index rb + 1 <? buffer_size rb then read_mirror rb else negb (read_mirror rb))
      (if write_index rb + 1 <? buffer_size rb then write_mirror rb else negb (write_mirror rb)))
      as [W D]; [done|simpl; lia|lia|lia| |done|].
    { destruct (_ <? _), (read_mirror rb), (write_mirror rb); done. }
    eexists. split; [|split; [exact W|]].
    + unfold rb_overwritten, rb_wrap. rewrite Z.eqb_sym.
      destruct (Z.eqb_spec (buffer_size rb - 1) (write_index rb)).
      * rewrite (proj2 (Z.ltb_ge _ _)) by lia.
        by replace (write_index rb + 1 - buffer_size rb) with 0 by lia.
      * rewrite (proj2 (Z.ltb_lt _ _)) by lia. by rewrite u15_small by lia.
    + rewrite D. simpl. f_equal. lia.
  - assert ((match rt_ringbuffer_status rb with RT_RINGBUFFER_FULL => true | _ => false end)
            = false) as ->.
    { unfold rt_ringbuffer_status. unfold rb_len in Hnf.
      destruct (Z.eqb_spec (read_index rb) (write_index rb)); [|done].
      destruct (Bool.eqb _ _); [done|lia]. }
    destruct (rb_advance_data rb buf [ch] 1) as [W D]; [done|simpl; lia|lia|done|].
    eexists. split; [|split; [exact W|]].
    + unfold rb_advance, rb_wrap. rewrite Z.eqb_sym.
      destruct (Z.eqb_spec (buffer_size rb - 1) (write_index rb)).
      * rewrite (proj2 (Z.ltb_ge _ _)) by lia. do 2 f_equal. lia.
      * rewrite (proj2 (Z.ltb_lt _ _)) by lia. by rewrite u15_small by lia.
    + rewrite D. simpl. replace (_ - _)%nat with 0%nat by lia. by rewrite drop_0.
Qed.

(** [rt_ringbuffer_peak] exposes the longest contiguous run at the read
    position and consumes it. *)
Lemma rt_ringbuffer_peak_consumes rb :
  rb_wf rb → rb_data rb ≠ [] →
  ∃ rb' n, rt_ringbuffer_peak rb = (rb', Some (read_index rb), n) ∧
    0 < n ≤ Z.of_nat (length (rb_data rb)) ∧ read_index rb + n ≤ buffer_size rb ∧
    rb_wf rb' ∧ rb_data rb' = drop (Z.to_nat n) (rb_data rb) ∧
    take (Z.to_nat n) (rb_data rb) = lread (Z.to_nat (read_index rb)) (Z.to_nat n) (buffer_ptr rb).
Proof.
  intros Hwf Hne. pose proof (rb_len_range rb Hwf). pose proof Hwf as [? ? ? ? Ho].
  assert (length (rb_data rb) = Z.to_nat (rb_len rb)) as Hl by
    (rewrite rb_data_length, rb_len_eq; done).
  assert (0 < rb_len rb) by (destruct (rb_data rb); simpl in *; [done|lia]).
  set (n := Z.min (rb_len rb) (buffer_size rb - read_index rb)).
  destruct (rb_consume_data rb n Hwf ltac:(lia)) as [W D].
  exists (rb_consume rb n), n. split_and!; [|lia|lia|lia|done|done|].
  - unfold rt_ringbuffer_peak. rewrite rb_len_eq by done.
    rewrite (proj2 (Z.eqb_neq _ 0)) by lia. unfold rb_consume, rb_wrap. rewrite Z.gtb_ltb.
    destruct (Z.ltb_spec (rb_len rb) (buffer_size rb - read_index rb)).
    + replace n with (rb_len rb) by lia.
      rewrite (proj2 (Z.ltb_lt _ (buffer_size rb))), u15_small by lia. done.
    + replace n with (buffer_size rb - read_index rb) by lia.
      rewrite (proj2 (Z.ltb_ge _ (buffer_size rb))) by lia. do 3 f_equal. lia.
  - apply list_eq. intros i. rewrite lookup_lread. case_decide.
    + rewrite lookup_take_lt, rb_data_lookup by (done || lia). f_equal. wrap_cases; lia.
    + by rewrite lookup_take_ge by lia.
Qed.

(** ** Witnesses: an 8-byte pool holding four bytes, in one mirror *)
Definition rb_w : rt_ringbuffer := RB [1; 2; 3; 4; 0; 0; 0; 0] false 0 false 4 8.
Definition rb_w' : rt_ringbuffer := RB [5; 6; 7; 8; 1; 2; 3; 4] false 4 true 2 8.
Lemma rb_w_wf : rb_wf rb_w ∧ rb_wf rb_w'.
Proof. split; split; simpl; lia. Qed.

Lemma rt_ringbuffer_put_appends_witness :
  ∃ rb', rt_ringbuffer_put rb_w [9; 9; 9; 9; 9; 9] 6 = (rb', 4) ∧
    rb_wf rb' ∧ buffer_size rb' = 8 ∧ rb_data rb' = [1; 2; 3; 4; 9; 9; 9; 9].
Proof.
  apply (rt_ringbuffer_put_appends rb_w [9; 9; 9; 9; 9; 9] 6);
    [apply rb_w_wf|simpl; lia|lia].
Defined.
Lemma rt_ringbuffer_get_takes_witness :
  ∃ rb', rt_ringbuffer_get rb_w' 5 = (rb', [1; 2; 3; 4; 5], 5) ∧
    rb_wf rb' ∧ buffer_size rb' = 8 ∧ rb_data rb' = [6].
Proof. apply (rt_ringbuffer_get_takes rb_w' 5); [apply rb_w_wf|lia]. Defined.
Lemma rt_ringbuffer_put_force_keeps_newest_witness :
  ∃ rb', rt_ringbuffer_put_force rb_w' [7; 7; 7; 7] 4 = (rb', 4) ∧
    rb_wf rb' ∧ buffer_size rb' = 8 ∧ rb_data rb' = [3; 4; 5; 6; 7; 7; 7; 7].
Proof.
  apply (rt_ringbuffer_put_force_keeps_newest rb_w' [7; 7; 7; 7] 4);
    [apply rb_w_wf|simpl; lia|left; reflexivity].
Defined.
Lemma rt_ringbuffer_put_force_overflow_empties_witness :
  ∃ rb', rt_ringbuffer_put_force rb_w [5; 6; 7; 8; 9] 5 = (rb', 5) ∧
    rt_ringbuffer_status rb' = RT_RINGBUFFER_EMPTY ∧ rb_data rb' = [].
Proof.
  apply (rt_ringbuffer_put_force_overflow_empties rb_w [5; 6; 7; 8; 9] 5);
    [apply rb_w_wf|simpl; lia|reflexivity|simpl; lia].
Defined.
Lemma rt_ringbuffer_putchar_getchar_witness :
  (∃ rb', rt_ringbuffer_putchar rb_w 9 = (rb', 1) ∧ rb_wf rb' ∧ rb_data rb' = [1; 2; 3; 4; 9]) ∧
  (∃ rb', rt_ringbuffer_getchar rb_w = (rb', Some 1, 1) ∧ rb_wf rb' ∧ rb_data rb' = [2; 3; 4]).
Proof. apply (rt_ringbuffer_putchar_getchar rb_w 9 (proj1 rb_w_wf)). Defined.
