(* ===== verification/RingBlk.v ===== *)
(** The block ring buffer of components/drivers/src/ringblk_buf.c: blocks of one buffer
    are handed out in a ring, filled by a writer, and given to a reader. A block is
    named by its index in the set of descriptors; the list of blocks in use is a plain
    list of indices ([SList] has the pointer code of such a list). *)
From S2P Require Import Prelude.

Inductive rt_rbb_status := RT_RBB_BLK_UNUSED | RT_RBB_BLK_INITED | RT_RBB_BLK_PUT | RT_RBB_BLK_GET.
#[global] Instance rt_rbb_status_eq_dec : EqDecision rt_rbb_status.
Proof. solve_decision. Defined.

(** struct rt_rbb_blk; the size is a field of 24 bits. *)
Record rt_rbb_blk := Blk { blk_status : rt_rbb_status; blk_size : Z; blk_buf : Z }.
Abbreviation has b st := (bool_decide (blk_status b = st)).
Definition with_blk_status v b := Blk v (blk_size b) (blk_buf b).
(** struct rt_rbb_blk_queue; [blocks] is the index of its first block. *)
Record rt_rbb_blk_queue := BlkQueue { blocks : nat; blk_num : Z }.
(** struct rt_rbb *)
Record rt_rbb := Rbb {
  rbb_buf : Z;
  rbb_buf_size : Z;
  blk_set : list rt_rbb_blk;
  blk_max_num : nat;
  blk_list : list nat
}.
Definition with_blk_set v r := Rbb (rbb_buf r) (rbb_buf_size r) v (blk_max_num r) (blk_list r).
Definition with_blk_list v r := Rbb (rbb_buf r) (rbb_buf_size r) (blk_set r) (blk_max_num r) v.
Abbreviation R := (M rt_rbb).

Definition u24 (x : Z) : Z := x mod 16777216.
Definition block (i : nat) : R rt_rbb_blk := r ← get; lift (blk_set r !! i).
Definition set_block (i : nat) (b : rt_rbb_blk) : R unit :=
  _ ← block i; modify (λ r, with_blk_set (<[i := b]> (blk_set r)) r).
Definition upd_block (i : nat) (f : rt_rbb_blk → rt_rbb_blk) : R unit := b ← block i; set_block i (f b).
Definition set_blk_list (l : list nat) : R unit := modify (with_blk_list l).

(** The loop sets the status of the first [blk_max_num] descriptors. *)
Definition rt_rbb_init (buf buf_size : Z) (block_set : list rt_rbb_blk) (blk_max_num : nat) : R unit :=
  RT_ASSERT (negb (buf =? 0));;
  modify (λ _, Rbb buf buf_size block_set blk_max_num []);;
  for_each (λ i, upd_block i (with_blk_status RT_RBB_BLK_UNUSED)) (seq 0 blk_max_num).

(** [n] descriptors from [i] on are left to look at. *)
Fixpoint find_empty_loop (n i : nat) : R (option nat) :=
  match n with
  | O => mret None
  | S n => b ← block i; if has b RT_RBB_BLK_UNUSED then mret (Some i) else find_empty_loop n (S i)
  end.
Definition find_empty_blk_in_set : R (option nat) := n ← gets blk_max_num; find_empty_loop n 0.

(** The four assignments that make a descriptor a block of the list. *)
Definition take_blk (new_rbb : nat) (buf size : Z) : R (option nat) :=
  l ← gets blk_list; set_blk_list (l ++ [new_rbb]);;
  set_block new_rbb (Blk RT_RBB_BLK_INITED (u24 size) buf);;
  mret (Some new_rbb).
(** The search of room at the two ends of the blocks in use, [head] to [tail]. *)
Definition place_blk (new_rbb : nat) (head tail : rt_rbb_blk) (size : Z) : R (option nat) :=
  r ← get;
  if blk_buf head <=? blk_buf tail then
    let empty1 := u32 ((rbb_buf r + rbb_buf_size r) - (blk_buf tail + blk_size tail)) in
    let empty2 := u32 (blk_buf head - rbb_buf r) in
    if size <=? empty1 then take_blk new_rbb (blk_buf tail + blk_size tail) size
    else if size <=? empty2 then take_blk new_rbb (rbb_buf r) size
    else mret None
  else
    let empty1 := u32 (blk_buf head - (blk_buf tail + blk_size tail)) in
    if size <=? empty1 then take_blk new_rbb (blk_buf tail + blk_size tail) size
    else mret None.
Definition rt_rbb_blk_alloc (size : Z) : R (option nat) :=
  RT_ASSERT (size <? Z.shiftl 1 24);;
  new_rbb ← find_empty_blk_in_set;
  r ← get;
  match new_rbb with
  | Some new_rbb =>
      if negb (length (blk_list r) <? blk_max_num r)%nat then mret None else
      match head (blk_list r), last (blk_list r) with
      | Some h, Some t => head ← block h; tail ← block t; place_blk new_rbb head tail size
      | _, _ => take_blk new_rbb (rbb_buf r) size
      end
  | None => mret None
  end.

Definition rt_rbb_blk_put (i : nat) : R unit :=
  b ← block i;
  RT_ASSERT (has b RT_RBB_BLK_INITED);;
  upd_block i (with_blk_status RT_RBB_BLK_PUT).
(** The loop from [node] on. *)
Fixpoint blk_get_loop (node : list nat) : R (option nat) :=
  match node with
  | [] => mret None
  | i :: node =>
      b ← block i;
      if has b RT_RBB_BLK_PUT then upd_block i (with_blk_status RT_RBB_BLK_GET);; mret (Some i)
      else blk_get_loop node
  end.
Definition rt_rbb_blk_get : R (option nat) := l ← gets blk_list; blk_get_loop l.
Definition rt_rbb_blk_size (i : nat) : R Z := b ← block i; mret (blk_size b).
Definition rt_rbb_blk_buf (i : nat) : R Z := b ← block i; mret (blk_buf b).
Definition rt_rbb_blk_free (i : nat) : R unit :=
  b ← block i;
  RT_ASSERT (negb (has b RT_RBB_BLK_UNUSED));;
  l ← gets blk_list; set_blk_list (lremove i l);;
  upd_block i (with_blk_status RT_RBB_BLK_UNUSED).

(** The end of an iteration: the block leaves the list and joins the queue. *)
Definition queue_take (i : nat) (data_total_size : Z) (q : rt_rbb_blk_queue) : R (Z * rt_rbb_blk_queue) :=
  l ← gets blk_list; set_blk_list (lremove i l);;
  b ← block i;
  upd_block i (with_blk_status RT_RBB_BLK_GET);;
  mret (u32 (data_total_size + blk_size b), BlkQueue (blocks q) (u32 (blk_num q + 1))).
(** A removed node keeps its link, so the loop visits the list as it was
    at the call ([node]). *)
Fixpoint queue_get_loop (node : list nat) (last_block : option nat) (queue_data_len data_total_size : Z)
    (q : rt_rbb_blk_queue) : R (Z * rt_rbb_blk_queue) :=
  match node with
  | [] => mret (data_total_size, q)
  | i :: node =>
      b ← block i;
      match last_block with
      | None =>
          if has b RT_RBB_BLK_PUT then
            '(total, q) ← queue_take i data_total_size (BlkQueue i 0);
            queue_get_loop node (Some i) queue_data_len total q
          else queue_get_loop node None queue_data_len data_total_size q
      | Some j =>
          last ← block j;
          if negb (has b RT_RBB_BLK_PUT) || (blk_buf b <? blk_buf last) ||
             (queue_data_len <? u32 (data_total_size + blk_size b))
          then mret (data_total_size, q)
          else
            '(total, q) ← queue_take i data_total_size q;
            queue_get_loop node (Some i) queue_data_len total q
      end
  end.
(** [q] is the caller's structure; without a block it is left as it is. *)
Definition rt_rbb_blk_queue_get (queue_data_len : Z) (q : rt_rbb_blk_queue) : R (Z * rt_rbb_blk_queue) :=
  l ← gets blk_list; queue_get_loop l None queue_data_len 0 q.
(** The descriptors [blocks[0]] to [blocks[blk_num - 1]]. *)
Definition queue_blocks (q : rt_rbb_blk_queue) : list nat := seq (blocks q) (Z.to_nat (blk_num q)).
Fixpoint queue_len_loop (idx : list nat) (data_total_size : Z) : R Z :=
  match idx with
  | [] => mret data_total_size
  | i :: idx => b ← block i; queue_len_loop idx (u32 (data_total_size + blk_size b))
  end.
Definition rt_rbb_blk_queue_len (q : rt_rbb_blk_queue) : R Z := queue_len_loop (queue_blocks q) 0.
Definition rt_rbb_blk_queue_buf (q : rt_rbb_blk_queue) : R Z := rt_rbb_blk_buf (blocks q).
Definition rt_rbb_blk_queue_free (q : rt_rbb_blk_queue) : R unit :=
  for_each rt_rbb_blk_free (queue_blocks q).
Fixpoint next_queue_len_loop (node : list nat) (last_block : option nat) (data_len : Z) : R Z :=
  match node with
  | [] => mret data_len
  | i :: node =>
      b ← block i;
      match last_block with
      | None =>
          if negb (has b RT_RBB_BLK_PUT) then next_queue_len_loop node None data_len
          else next_queue_len_loop node (Some i) (u32 (data_len + blk_size b))
      | Some j =>
          last ← block j;
          if negb (has b RT_RBB_BLK_PUT) || (blk_buf b <? blk_buf last) then mret data_len
          else next_queue_len_loop node (Some i) (u32 (data_len + blk_size b))
      end
  end.
Definition rt_rbb_next_blk_queue_len : R Z := l ← gets blk_list; next_queue_len_loop l None 0.
Definition rt_rbb_get_buf_size : R Z := gets rbb_buf_size.

(** * The ring of blocks in use *)

(** Blocks one behind the other, with gaps, in the range from [lo] to [hi]. *)
Fixpoint row (lo hi : Z) (bs : list rt_rbb_blk) : Prop :=
  match bs with
  | [] => lo ≤ hi
  | b :: bs => lo ≤ blk_buf b ∧ 0 < blk_size b ∧ row (blk_buf b + blk_size b) hi bs
  end.
(** In the order of their allocation: a row up to the end of the buffer, then one
    from its start up to [m]. *)
Definition ring (lo hi : Z) (bs : list rt_rbb_blk) : Prop :=
  ∃ xs ys m, bs = xs ++ ys ∧ row m hi xs ∧ row lo m ys.
Definition in_use (r : rt_rbb) (i : nat) (b : rt_rbb_blk) : Prop :=
  blk_set r !! i = Some b ∧ blk_status b ≠ RT_RBB_BLK_UNUSED.
Abbreviation rbb_end r := (rbb_buf r + rbb_buf_size r).

(** [bs] are the blocks of the list. *)
Record rbb_inv (r : rt_rbb) (bs : list rt_rbb_blk) : Prop := {
  rb_room : 0 < rbb_buf r ∧ 0 ≤ rbb_buf_size r ∧ rbb_end r < 4294967296;
  rb_max : blk_max_num r = length (blk_set r);
  rb_nodup : NoDup (blk_list r);
  rb_list : Forall2 (in_use r) (blk_list r) bs;
  rb_ring : ring (rbb_buf r) (rbb_end r) bs
}.

Definition apart (b c : rt_rbb_blk) : Prop :=
  blk_buf b + blk_size b ≤ blk_buf c ∨ blk_buf c + blk_size c ≤ blk_buf b.
Definition inside (lo hi : Z) (b : rt_rbb_blk) : Prop :=
  lo ≤ blk_buf b ∧ 0 < blk_size b ∧ blk_buf b + blk_size b ≤ hi.

Section rows.
Implicit Types (bs xs ys : list rt_rbb_blk) (b c : rt_rbb_blk).

Lemma row_le lo hi bs : row lo hi bs → lo ≤ hi.
Proof. revert lo. induction bs as [|b bs IH]; simpl; [done|]. intros lo (? & ? & ?%IH). lia. Qed.
Lemma row_wider lo lo' hi hi' bs : lo' ≤ lo → hi ≤ hi' → row lo hi bs → row lo' hi' bs.
Proof.
  intros Hlo Hhi. revert lo lo' Hlo. induction bs as [|b bs IH]; simpl; [lia|].
  intros lo lo' Hlo (? & ? & Hr). split_and!; [lia|done|]. eapply IH; [|done]. lia.
Qed.
Lemma row_app lo hi xs ys : row lo hi (xs ++ ys) ↔ ∃ m, row lo m xs ∧ row m hi ys.
Proof.
  revert lo. induction xs as [|b xs IH]; intros lo; simpl.
  - split; [intros Hr; by exists lo|]. intros (m & ? & Hr). by eapply row_wider; [done| |done].
  - rewrite IH. naive_solver.
Qed.
Lemma row_inside lo hi bs b : row lo hi bs → b ∈ bs → inside lo hi b.
Proof.
  intros Hr (xs & ys & ->)%list_elem_of_split. apply row_app in Hr as (m & ?%row_le & ? & ? & ?%row_le).
  unfold inside. lia.
Qed.
Lemma row_drop lo hi xs b ys : row lo hi (xs ++ b :: ys) → row lo hi (xs ++ ys).
Proof.
  rewrite !row_app. intros (m & Hx & Hm & Hp & Hy). exists m. split; [done|].
  eapply row_wider; [|done|exact Hy]. lia.
Qed.
Lemma row_snoc lo hi bs b : row lo hi (bs ++ [b]) ↔
  row lo (blk_buf b) bs ∧ 0 < blk_size b ∧ blk_buf b + blk_size b ≤ hi.
Proof.
  rewrite row_app. simpl. split.
  - intros (m & Hr & ? & ? & ?). split_and!; [eapply row_wider; [| |exact Hr]; lia|lia..].
  - intros (? & ? & ?). exists (blk_buf b). split_and!; [done|lia..].
Qed.
Lemma row_last lo hi bs t : row lo hi bs → last bs = Some t →
  blk_buf t + blk_size t ≤ hi ∧ row lo (blk_buf t + blk_size t) bs.
Proof.
  intros Hr (bs' & ->)%last_Some. apply row_snoc in Hr as (Hr & Hp & Hle). split; [done|].
  apply row_snoc. split_and!; [done..|lia].
Qed.
Lemma row_head lo hi h bs : row lo hi (h :: bs) → lo ≤ blk_buf h ∧ row (blk_buf h) hi (h :: bs).
Proof. simpl. intros (? & ? & ?). split_and!; [done|lia|done..]. Qed.
Lemma row_head_last lo hi h bs t : row lo hi (h :: bs) → last (h :: bs) = Some t → blk_buf h ≤ blk_buf t.
Proof.
  intros Hr Ht. apply row_head in Hr as [_ Hr]. apply last_Some_elem_of in Ht.
  by eapply (row_inside _ _ _ _ Hr).
Qed.
Lemma row_apart lo hi xs b ys c zs : row lo hi (xs ++ b :: ys ++ c :: zs) → apart b c.
Proof.
  rewrite row_app. intros (m & _ & _ & _ & Hr). apply row_app in Hr as (m' & ?%row_le & ? & _ & _).
  left. lia.
Qed.

Lemma ring_inside lo hi bs b : ring lo hi bs → b ∈ bs → inside lo hi b.
Proof.
  intros (xs & ys & m & -> & Hx & Hy) [Hb|Hb]%elem_of_app.
  - pose proof (row_le _ _ _ Hy). apply (row_inside _ _ _ _ Hx) in Hb. unfold inside in *. lia.
  - pose proof (row_le _ _ _ Hx). apply (row_inside _ _ _ _ Hy) in Hb. unfold inside in *. lia.
Qed.
Lemma ring_apart lo hi bs i j b c :
  ring lo hi bs → bs !! i = Some b → bs !! j = Some c → (i < j)%nat → apart b c.
Proof.
  intros (xs & ys & m & -> & Hx & Hy) Hb Hc Hij.
  assert (∀ l l' zs k k', row l l' zs → zs !! k = Some b → zs !! k' = Some c → (k < k')%nat → apart b c) as Hrow.
  { intros l l' zs k k' Hr Hk Hk' Hlt. rewrite <-(take_drop_middle _ _ _ Hk) in Hr.
    assert (drop (S k) zs !! (k' - S k)%nat = Some c) as Hd by (rewrite lookup_drop, <-Hk'; f_equal; lia).
    rewrite <-(take_drop_middle _ _ _ Hd) in Hr. by eapply row_apart. }
  apply lookup_app_Some in Hb as [Hb|[Hlb Hb]], Hc as [Hc|[Hlc Hc]].
  - by eapply (Hrow _ _ _ _ _ Hx).
  - right. apply list_elem_of_lookup_2 in Hb, Hc. apply (row_inside _ _ _ _ Hx) in Hb.
    apply (row_inside _ _ _ _ Hy) in Hc. unfold inside in *. lia.
  - apply lookup_lt_Some in Hc. lia.
  - eapply (Hrow _ _ _ _ _ Hy); [done..|lia].
Qed.
Lemma ring_drop lo hi xs b ys : ring lo hi (xs ++ b :: ys) → ring lo hi (xs ++ ys).
Proof.
  intros (us & vs & m & E & Hu & Hv). apply app_eq_app in E as (l & [[-> ->]|[-> El]]).
  - exists us, (l ++ ys), m. rewrite <-app_assoc. split_and!; [done..|by eapply row_drop].
  - destruct l as [|c l]; simplify_eq/=.
    + exists xs, ys, m. rewrite app_nil_r in Hu. split_and!; [done..|by apply (row_drop _ _ [] b ys)].
    + exists (xs ++ l), vs, m. rewrite <-app_assoc. split_and!; [done|by eapply row_drop|done].
Qed.

(** Where the next block goes, as [rt_rbb_blk_alloc] looks for it. *)
Definition place (lo hi : Z) bs (size : Z) : option Z :=
  match head bs, last bs with
  | Some h, Some t =>
      let tend := blk_buf t + blk_size t in
      if blk_buf h <=? blk_buf t then
        if size <=? hi - tend then Some tend
        else if size <=? blk_buf h - lo then Some lo else None
      else if size <=? blk_buf h - tend then Some tend else None
  | _, _ => if size <=? hi - lo then Some lo else None
  end.
(** The two shapes of a ring that is not empty. *)
Lemma ring_cases lo hi h t bs :
  ring lo hi (h :: bs) → last (h :: bs) = Some t →
  (blk_buf h ≤ blk_buf t ∧ row lo hi (h :: bs)) ∨
  (blk_buf t < blk_buf h ∧ ∃ xs ys, h :: bs = (h :: xs) ++ ys ∧ last ys = Some t ∧
     row (blk_buf h) hi (h :: xs) ∧ row lo (blk_buf h) ys).
Proof.
  intros (xs & ys & m & E & Hx & Hy) Ht. destruct xs as [|h' xs]; [simpl in E; subst ys|].
  - left. assert (row lo hi (h :: bs)) as Hr by (eapply row_wider; [done| |done]; by apply row_le in Hx).
    split; [by eapply row_head_last|done].
  - injection E as <- ->. destruct (last ys) as [t'|] eqn:Ey.
    + right. assert (t' = t) as ->.
      { rewrite app_comm_cons, last_app, Ey in Ht. by injection Ht. }
      apply row_head in Hx as [Hm Hx]. split.
      * apply last_Some_elem_of, (row_inside _ _ _ _ Hy) in Ey. unfold inside in Ey. lia.
      * exists xs, ys. split_and!; [done..|]. by eapply row_wider; [| |exact Hy].
    + apply last_None in Ey as ->. rewrite app_nil_r in *. left.
      assert (row lo hi (h :: xs)) as Hr by (eapply row_wider; [|done|exact Hx]; by apply row_le in Hy).
      split; [by eapply row_head_last|done].
Qed.
(** The place found is one where the block follows the others. *)
Lemma place_sound lo hi bs size a b :
  ring lo hi bs → 0 < size → place lo hi bs size = Some a → blk_buf b = a → blk_size b = size →
  ring lo hi (bs ++ [b]).
Proof.
  intros Hr Hp Ea <- <-. destruct bs as [|h bs].
  - unfold place in Ea. simpl in Ea. case_match; simplify_eq. exists [], [b], hi. simpl. split_and!; [done|lia..].
  - destruct (last (h :: bs)) as [t|] eqn:Et; [|by apply last_None in Et].
    unfold place in Ea. rewrite Et in Ea. cbn [head] in Ea.
    destruct (ring_cases _ _ _ _ _ Hr Et) as [[Hle Hrow]|(Hlt & xs & ys & E & Ey & Hx & Hy)].
    + rewrite (proj2 (Z.leb_le _ _) Hle) in Ea. destruct (row_last _ _ _ _ Hrow Et) as [Hend Hrow'].
      repeat case_match; simplify_eq.
      * exists [], ((h :: bs) ++ [b]), hi. split_and!; [done|simpl; lia|]. apply row_snoc.
        split_and!; [by replace (blk_buf b) with (blk_buf t + blk_size t) by congruence|done|lia].
      * exists (h :: bs), [b], (blk_buf h). apply row_head in Hrow as [? Hrow].
        split_and!; [done..|]. simpl. lia.
    + rewrite (proj2 (Z.leb_gt _ _) Hlt) in Ea. case_match; simplify_eq.
      destruct (row_last _ _ _ _ Hy Ey) as [Hend Hy'].
      exists (h :: xs), (ys ++ [b]), (blk_buf h). split_and!; [by rewrite app_assoc, <-E|done|].
      apply row_snoc. split_and!; [by replace (blk_buf b) with (blk_buf t + blk_size t) by congruence|done|lia].
Qed.
(** And when none is found there is none. *)
Lemma place_complete lo hi bs size b :
  ring lo hi bs → blk_size b = size → ring lo hi (bs ++ [b]) → is_Some (place lo hi bs size).
Proof.
  intros Hr <- Hb. destruct bs as [|h bs].
  - apply (ring_inside _ _ _ b) in Hb; [|set_solver]. unfold inside in Hb. unfold place. simpl.
    rewrite (proj2 (Z.leb_le _ _)) by lia. by eexists.
  - destruct (last (h :: bs)) as [t|] eqn:Et; [|by apply last_None in Et].
    unfold place. rewrite Et. cbn [head].
    assert (last ((h :: bs) ++ [b]) = Some b) as Eb by apply last_snoc.
    destruct (ring_cases lo hi h b (bs ++ [b]) Hb Eb) as [[_ Hrow]|(Hlt & xs & ys & E & Ey & Hx & Hy)].
    + rewrite app_comm_cons in Hrow. apply row_snoc in Hrow as (Hrow & ? & ?).
      rewrite (proj2 (Z.leb_le _ _) (row_head_last _ _ _ _ _ Hrow Et)).
      destruct (row_last _ _ _ _ Hrow Et). rewrite (proj2 (Z.leb_le _ _)) by lia. by eexists.
    + apply last_Some in Ey as (ys' & ->). rewrite app_comm_cons, app_assoc in E. apply app_inj_tail in E as [E _].
      apply row_snoc in Hy as (Hy & Hp & Hle). pose proof (row_le _ _ _ Hy).
      destruct (last ys') as [t'|] eqn:Ey'.
      * rewrite E, last_app, Ey' in Et. injection Et as ->. 
        destruct (row_last _ _ _ _ Hy Ey') as [Hend _]. 
        assert (blk_buf t < blk_buf h) as Hth.
        { apply last_Some_elem_of, (row_inside _ _ _ _ Hy) in Ey'. unfold inside in Ey'. lia. }
        rewrite (proj2 (Z.leb_gt _ _) Hth), (proj2 (Z.leb_le _ _)) by lia. by eexists.
      * apply last_None in Ey' as ->. rewrite app_nil_r in E. rewrite E in Et.
        rewrite (proj2 (Z.leb_le _ _) (row_head_last _ _ _ _ _ Hx Et)).
        case_match; [by eexists|]. rewrite (proj2 (Z.leb_le _ _)) by lia. by eexists.
Qed.
End rows.

(** * The operations *)

Section proofs.
Implicit Types (r : rt_rbb) (bs : list rt_rbb_blk) (b c : rt_rbb_blk).

Lemma wp_block r i b (Q : rt_rbb_blk → rt_rbb → Prop) : blk_set r !! i = Some b → Q b r → wp (block i) Q r.
Proof. intros E HQ. unfold block. wp_simpl. by rewrite E. Qed.
Lemma wp_set_block r i b (Q : unit → rt_rbb → Prop) :
  is_Some (blk_set r !! i) → Q tt (with_blk_set (<[i := b]> (blk_set r)) r) → wp (set_block i b) Q r.
Proof. intros [c E] HQ. unfold set_block. apply wp_bind. by eapply wp_block. Qed.
Lemma wp_upd_block r i b f (Q : unit → rt_rbb → Prop) :
  blk_set r !! i = Some b → Q tt (with_blk_set (<[i := f b]> (blk_set r)) r) → wp (upd_block i f) Q r.
Proof.
  intros E HQ. unfold upd_block. apply wp_bind. eapply wp_block; [done|]. by eapply wp_set_block.
Qed.
Lemma rb_at r bs j i : rbb_inv r bs → blk_list r !! j = Some i → ∃ b, bs !! j = Some b ∧ in_use r i b.
Proof. intros Hr Hj. destruct (Forall2_lookup_l _ _ _ _ _ (rb_list _ _ Hr) Hj) as (b & ? & ?). by exists b. Qed.
(** A descriptor that is not on the list may change. *)
Lemma in_use_ne r i j b c : i ≠ j → in_use r i b → in_use (with_blk_set (<[j := c]> (blk_set r)) r) i b.
Proof. intros Hne [Hi Hs]. split; [|done]. simpl. by rewrite list_lookup_insert_ne. Qed.
Lemma in_use_insert r j c l bs :
  j ∉ l → Forall2 (in_use r) l bs → Forall2 (in_use (with_blk_set (<[j := c]> (blk_set r)) r)) l bs.
Proof.
  intros Hj H. induction H as [|i b l bs Hb H IH]; constructor.
  - apply in_use_ne; [set_solver|done].
  - apply IH. set_solver.
Qed.
Lemma in_use_list r l' i b : in_use r i b → in_use (with_blk_list l' r) i b.
Proof. done. Qed.
Lemma unused_notin r bs i b :
  rbb_inv r bs → blk_set r !! i = Some b → blk_status b = RT_RBB_BLK_UNUSED → i ∉ blk_list r.
Proof.
  intros Hr Hi Hs [j Hj]%list_elem_of_lookup. destruct (rb_at _ _ _ _ Hr Hj) as (c & _ & Hc & Hn). by simplify_eq.
Qed.
(** With an unused descriptor the list is not full. *)
Lemma list_not_full r bs i b :
  rbb_inv r bs → blk_set r !! i = Some b → blk_status b = RT_RBB_BLK_UNUSED →
  (length (blk_list r) < blk_max_num r)%nat.
Proof.
  intros Hr Hi Hs. assert (i :: blk_list r ⊆+ seq 0 (blk_max_num r)) as Hsub.
  { apply NoDup_submseteq.
    - apply NoDup_cons. split; [by eapply unused_notin|apply Hr].
    - intros j Hj. apply elem_of_seq. rewrite (rb_max _ _ Hr). simpl. split; [lia|].
      apply elem_of_cons in Hj as [->|[n Hn]%list_elem_of_lookup]; [by eapply lookup_lt_Some|].
      destruct (rb_at _ _ _ _ Hr Hn) as (c & _ & Hc & _). by eapply lookup_lt_Some. }
  apply submseteq_length in Hsub. rewrite length_seq in Hsub. simpl in Hsub. lia.
Qed.

Lemma find_empty_loop_run r n i :
  (i + n = length (blk_set r))%nat →
  wp (find_empty_loop n i) (λ o r', r' = r ∧ match o with
    | Some j => ∃ b, blk_set r !! j = Some b ∧ blk_status b = RT_RBB_BLK_UNUSED
    | None => ∀ b, b ∈ drop i (blk_set r) → blk_status b ≠ RT_RBB_BLK_UNUSED
    end) r.
Proof.
  revert i. induction n as [|n IH]; intros i Hn; simpl.
  - wp_simpl. split; [done|]. rewrite drop_ge by lia. set_solver.
  - destruct (lookup_lt_is_Some_2 (blk_set r) i) as [b Hb]; [lia|].
    apply wp_bind. eapply wp_block; [done|]. case_bool_decide as Hs; [wp_simpl; eauto|].
    eapply wp_mono; [apply IH; lia|]. intros [j|] r' [-> Hj]; (split; [done|]); [done|].
    intros c Hc. rewrite (drop_S _ b i Hb) in Hc. apply elem_of_cons in Hc as [->|Hc]; [done|by apply Hj].
Qed.
Lemma find_empty_run r bs :
  rbb_inv r bs →
  wp find_empty_blk_in_set (λ o r', r' = r ∧ match o with
    | Some j => ∃ b, blk_set r !! j = Some b ∧ blk_status b = RT_RBB_BLK_UNUSED
    | None => ∀ b, b ∈ blk_set r → blk_status b ≠ RT_RBB_BLK_UNUSED
    end) r.
Proof.
  intros Hr. unfold find_empty_blk_in_set. wp_simpl. rewrite (rb_max _ _ Hr).
  by apply (find_empty_loop_run r (length (blk_set r)) 0).
Qed.

(** A new block behind the others. *)
Definition allocated r bs (i : nat) (new : rt_rbb_blk) r' : Prop :=
  rbb_inv r' (bs ++ [new]) ∧ i ∉ blk_list r ∧
  r' = with_blk_list (blk_list r ++ [i]) (with_blk_set (<[i := new]> (blk_set r)) r).
Lemma take_blk_run r bs i c a size :
  rbb_inv r bs → blk_set r !! i = Some c → blk_status c = RT_RBB_BLK_UNUSED → 0 < size < 16777216 →
  place (rbb_buf r) (rbb_end r) bs size = Some a →
  wp (take_blk i a size) (λ o r', o = Some i ∧ allocated r bs i (Blk RT_RBB_BLK_INITED size a) r') r.
Proof.
  intros Hr Hi Hs Hsize Ha. pose proof (unused_notin _ _ _ _ Hr Hi Hs) as Hni.
  unfold take_blk, set_blk_list. wp_simpl. eapply wp_set_block; [by eexists|]. simpl. wp_simpl.
  split; [done|]. unfold u24. rewrite Z.mod_small by lia. split_and!; [|done..].
  destruct Hr as [Hroom Hmax Hnd Hl Hring]. constructor; simpl; try done.
  - by rewrite length_insert.
  - apply NoDup_app. split_and!; [done|set_solver|apply NoDup_singleton].
  - apply Forall2_app; [by apply (in_use_insert r)|]. constructor; [|done]. split; simpl; [|done].
    apply list_lookup_insert_eq. by eapply lookup_lt_Some.
  - eapply place_sound; [done| |done..]. lia.
Qed.

Lemma Forall2_last_r {A B} (P : A → B → Prop) l k y :
  Forall2 P l k → last k = Some y → ∃ x, last l = Some x ∧ P x y.
Proof.
  intros H (k' & ->)%last_Some. apply Forall2_app_inv_r in H as (l1 & l2 & _ & H & ->).
  apply Forall2_cons_inv_r in H as (x & l' & Hx & H & ->). apply Forall2_nil_inv_r in H as ->.
  exists x. by rewrite last_snoc.
Qed.
(** Allocation is exact: it gives a block that follows the others in the ring, and gives
    none only if every descriptor is taken or no place for it exists. *)
Lemma rt_rbb_blk_alloc_run r bs size :
  rbb_inv r bs → 0 < size < 16777216 → (bs = [] → size ≤ rbb_buf_size r) →
  wp (rt_rbb_blk_alloc size) (λ o r', match o with
    | Some i => ∃ a, allocated r bs i (Blk RT_RBB_BLK_INITED size a) r'
    | None => r' = r ∧ ((∀ b, b ∈ blk_set r → blk_status b ≠ RT_RBB_BLK_UNUSED) ∨
                        ∀ b, blk_size b = size → ¬ ring (rbb_buf r) (rbb_end r) (bs ++ [b]))
    end) r.
Proof.
  intros Hr Hs H0. pose proof Hr as [(Hb0 & Hb1 & Hb2) _ _ Hl Hring].
  unfold rt_rbb_blk_alloc. change (Z.shiftl 1 24) with 16777216. wp_simpl. split; [lia|].
  eapply wp_mono; [by eapply find_empty_run|]. intros [i|] r' [-> Hi]; wp_simpl; [|by auto].
  destruct Hi as (c & Hi & Hc). rewrite (proj2 (Nat.ltb_lt _ _)) by by eapply list_not_full. simpl.
  assert (∀ a, place (rbb_buf r) (rbb_end r) bs size = Some a →
    wp (take_blk i a size) (λ o r', match o with
      | Some i => ∃ a, allocated r bs i (Blk RT_RBB_BLK_INITED size a) r'
      | None => r' = r ∧ ((∀ b, b ∈ blk_set r → blk_status b ≠ RT_RBB_BLK_UNUSED) ∨
                        ∀ b, blk_size b = size → ¬ ring (rbb_buf r) (rbb_end r) (bs ++ [b]))
      end) r) as Htake.
  { intros a Ha. eapply wp_mono; [by eapply take_blk_run|]. intros o r' [-> Hal]. by exists a. }
  assert (place (rbb_buf r) (rbb_end r) bs size = None →
    ∀ b, blk_size b = size → ¬ ring (rbb_buf r) (rbb_end r) (bs ++ [b])) as Hnone.
  { intros Hp b Hb Hrb. destruct (place_complete _ _ _ _ _ Hring Hb Hrb) as [a Ha]. congruence. }
  destruct bs as [|h bs].
  - apply Forall2_nil_inv_r in Hl as ->. simpl. apply Htake. unfold place. simpl.
    by rewrite (proj2 (Z.leb_le _ _)) by (specialize (H0 eq_refl); lia).
  - destruct (last (h :: bs)) as [t|] eqn:Et; [|by apply last_None in Et].
    assert (∃ ih it, head (blk_list r) = Some ih ∧ last (blk_list r) = Some it ∧
      blk_set r !! ih = Some h ∧ blk_set r !! it = Some t) as (ih & it & -> & -> & Hh & Ht).
    { destruct (Forall2_last_r _ _ _ _ Hl Et) as (it & Hit & [Ht _]).
      apply Forall2_cons_inv_r in Hl as (ih & il & [Hh _] & _ & El).
      exists ih, it. by rewrite <-Hit, El. }
    eapply wp_bind, wp_block; [done|]. eapply wp_bind, wp_block; [done|].
    assert (inside (rbb_buf r) (rbb_end r) h) as [? ?] by (eapply ring_inside; [done|by left]).
    assert (inside (rbb_buf r) (rbb_end r) t) as [? ?] by (eapply ring_inside; [done|by apply last_Some_elem_of]).
    unfold place_blk. wp_simpl. unfold place in Htake, Hnone. rewrite Et in Htake, Hnone. cbn [head] in Htake, Hnone.
    destruct (Z.leb_spec (blk_buf h) (blk_buf t)).
    + rewrite !u32_small by lia. repeat case_match; [by apply Htake..|wp_simpl]. auto.
    + rewrite u32_small.
      * case_match; [by apply Htake|wp_simpl]. auto.
      * destruct (ring_cases _ _ _ _ _ Hring Et) as [[? _]|(_ & xs & ys & _ & Ey & _ & Hy)]; [lia|].
        apply (row_last _ _ _ _ Hy) in Ey as [? _]. lia.
Qed.

(** The blocks of the list around the one at a node. *)
Lemma inv_split r bs l1 i l2 :
  rbb_inv r bs → blk_list r = l1 ++ i :: l2 →
  ∃ bs1 b bs2, bs = bs1 ++ b :: bs2 ∧ in_use r i b ∧ Forall2 (in_use r) l1 bs1 ∧ Forall2 (in_use r) l2 bs2 ∧
    i ∉ l1 ∧ i ∉ l2.
Proof.
  intros [_ _ Hnd Hl _] El. rewrite El in Hl, Hnd.
  apply Forall2_app_inv_l in Hl as (bs1 & bs' & H1 & H & ->).
  apply Forall2_cons_inv_l in H as (b & bs2 & Hb & H2 & ->).
  apply NoDup_app in Hnd as (_ & Hd & [? _]%NoDup_cons).
  exists bs1, b, bs2. split_and!; try done. intros Hi. apply (Hd i Hi). by left.
Qed.
(** A node leaves the list; what becomes of its descriptor does not matter. *)
Lemma inv_unlist r bs1 b bs2 l1 i l2 c :
  rbb_inv r (bs1 ++ b :: bs2) → blk_list r = l1 ++ i :: l2 → length l1 = length bs1 →
  rbb_inv (with_blk_list (l1 ++ l2) (with_blk_set (<[i := c]> (blk_set r)) r)) (bs1 ++ bs2).
Proof.
  intros Hr El Hlen. destruct (inv_split _ _ _ _ _ Hr El) as (bs1' & b' & bs2' & E & _ & H1 & H2 & Hi1 & Hi2).
  apply app_inj_1 in E as [<- [= <- <-]]; [|by apply Forall2_length in H1; congruence].
  destruct Hr as [Hroom Hmax Hnd _ Hring]. constructor; simpl; try done.
  - by rewrite length_insert.
  - rewrite El in Hnd. apply NoDup_app in Hnd as (? & Hd & [_ ?]%NoDup_cons).
    apply NoDup_app. split_and!; [done| |done]. intros x Hx Hx'. apply (Hd x Hx). by right.
  - apply Forall2_app; by apply (in_use_insert r).
  - by eapply ring_drop.
Qed.
Lemma row_status lo hi xs b ys st : row lo hi (xs ++ b :: ys) → row lo hi (xs ++ with_blk_status st b :: ys).
Proof. rewrite !row_app. done. Qed.
Lemma ring_status lo hi xs b ys st : ring lo hi (xs ++ b :: ys) → ring lo hi (xs ++ with_blk_status st b :: ys).
Proof.
  intros (us & vs & m & E & Hu & Hv). apply app_eq_app in E as (l & [[-> ->]|[-> El]]).
  - exists us, (l ++ with_blk_status st b :: ys), m. rewrite <-app_assoc. split_and!; [done..|by apply row_status].
  - destruct l as [|c l]; simplify_eq/=.
    + exists xs, (with_blk_status st b :: ys), m. rewrite app_nil_r in Hu.
      split_and!; [done..|by apply (row_status _ _ [])].
    + exists (xs ++ with_blk_status st c :: l), vs, m. rewrite <-app_assoc. split_and!; [done|by apply row_status|done].
Qed.
Lemma inv_status r bs1 b bs2 l1 i l2 st :
  rbb_inv r (bs1 ++ b :: bs2) → blk_list r = l1 ++ i :: l2 → length l1 = length bs1 →
  st ≠ RT_RBB_BLK_UNUSED →
  rbb_inv (with_blk_set (<[i := with_blk_status st b]> (blk_set r)) r) (bs1 ++ with_blk_status st b :: bs2).
Proof.
  intros Hr El Hlen Hst.
  destruct (inv_split _ _ _ _ _ Hr El) as (bs1' & b' & bs2' & E & [Hb _] & H1 & H2 & Hi1 & Hi2).
  apply app_inj_1 in E as [<- [= <- <-]]; [|by apply Forall2_length in H1; congruence].
  destruct Hr as [Hroom Hmax Hnd _ Hring]. constructor; simpl; try done.
  - by rewrite length_insert.
  - rewrite El. apply Forall2_app; [by apply (in_use_insert r)|]. constructor; [|by apply (in_use_insert r)].
    split; [|done]. simpl. apply list_lookup_insert_eq. by eapply lookup_lt_Some.
  - by apply ring_status.
Qed.

Lemma blk_get_loop_run r l bs :
  Forall2 (in_use r) l bs →
  wp (blk_get_loop l) (λ o r', match o with
    | None => r' = r ∧ ∀ b, b ∈ bs → blk_status b ≠ RT_RBB_BLK_PUT
    | Some i => ∃ l1 l2 bs1 b bs2, l = l1 ++ i :: l2 ∧ bs = bs1 ++ b :: bs2 ∧ length l1 = length bs1 ∧
        (∀ c, c ∈ bs1 → blk_status c ≠ RT_RBB_BLK_PUT) ∧ blk_status b = RT_RBB_BLK_PUT ∧
        r' = with_blk_set (<[i := with_blk_status RT_RBB_BLK_GET b]> (blk_set r)) r
    end) r.
Proof.
  intros H. induction H as [|i b l bs [Hb _] H IH]; simpl.
  - wp_simpl. split; [done|set_solver].
  - apply wp_bind. eapply wp_block; [done|]. case_bool_decide as Hs.
    + wp_simpl. eapply wp_upd_block; [done|]. wp_simpl. exists [], l, [], b, bs. split_and!; try done. set_solver.
    + eapply wp_mono; [exact IH|]. intros [j|] r'.
      * intros (l1 & l2 & bs1 & c & bs2 & -> & -> & Hlen & Hn & Hc & ->).
        exists (i :: l1), l2, (b :: bs1), c, bs2. split_and!; try done; [simpl; lia|set_solver].
      * intros [-> Hn]. split; [done|set_solver].
Qed.
End proofs.

(** * The contract of the block buffer *)

(** The blocks in use in the order of their allocation, each with its state. *)
Abbreviation slots := (list (nat * rt_rbb_status)).
Definition slots_at (l : list nat) (bs : list rt_rbb_blk) : slots := zip_with (λ i b, (i, blk_status b)) l bs.
Abbreviation slots_of r bs := (slots_at (blk_list r) bs).
Definition not_put (x : nat * rt_rbb_status) : Prop := x.2 ≠ RT_RBB_BLK_PUT.
Inductive rbb_op := OpAlloc (size : Z) | OpPut (i : nat) | OpGet | OpFree (i : nat).
Inductive rbb_spec : slots → rbb_op → option nat → slots → Prop :=
  | spec_alloc s size i : i ∉ s.*1 → rbb_spec s (OpAlloc size) (Some i) (s ++ [(i, RT_RBB_BLK_INITED)])
  | spec_full s size : rbb_spec s (OpAlloc size) None s
  | spec_put s1 i s2 : rbb_spec (s1 ++ (i, RT_RBB_BLK_INITED) :: s2) (OpPut i) None
      (s1 ++ (i, RT_RBB_BLK_PUT) :: s2)
  | spec_get s1 i s2 : Forall not_put s1 →
      rbb_spec (s1 ++ (i, RT_RBB_BLK_PUT) :: s2) OpGet (Some i) (s1 ++ (i, RT_RBB_BLK_GET) :: s2)
  | spec_nothing s : Forall not_put s → rbb_spec s OpGet None s
  | spec_free s1 i st s2 : rbb_spec (s1 ++ (i, st) :: s2) (OpFree i) None (s1 ++ s2).
Definition rbb_call (op : rbb_op) : R (option nat) :=
  match op with
  | OpAlloc size => rt_rbb_blk_alloc size
  | OpPut i => rt_rbb_blk_put i;; mret None
  | OpGet => rt_rbb_blk_get
  | OpFree i => rt_rbb_blk_free i;; mret None
  end.
(** What callers have to keep to. The second bound on a size is not checked by the code. *)
Definition enabled (r : rt_rbb) (s : slots) (op : rbb_op) : Prop :=
  match op with
  | OpAlloc size => 0 < size < 16777216 ∧ size ≤ rbb_buf_size r
  | OpPut i => (i, RT_RBB_BLK_INITED) ∈ s
  | OpGet => True
  | OpFree i => i ∈ s.*1
  end.
(** Any call that returns, with any arguments but one: a block is of at least one byte and not longer than
    the buffer, which the code does not check ([rt_rbb_blk_alloc_oversize]). *)
Definition sized (r : rt_rbb) (op : rbb_op) : Prop :=
  match op with OpAlloc size => 0 < size ≤ rbb_buf_size r | _ => True end.
Inductive rbb_step : rt_rbb → rt_rbb → Prop :=
  | step_call r op o r' : sized r op → rbb_call op r = Some (o, r') → rbb_step r r'
  | step_queue_get r len q res r' : rt_rbb_blk_queue_get len q r = Some (res, r') → rbb_step r r'
  | step_queue_free r q r' : rt_rbb_blk_queue_free q r = Some (tt, r') → rbb_step r r'.

Section contract.
Implicit Types (r : rt_rbb) (bs : list rt_rbb_blk) (b c : rt_rbb_blk) (s : slots).

Lemma slots_app l1 i l2 bs1 b bs2 :
  length l1 = length bs1 →
  slots_at (l1 ++ i :: l2) (bs1 ++ b :: bs2) = slots_at l1 bs1 ++ (i, blk_status b) :: slots_at l2 bs2.
Proof. intros. unfold slots_at. by rewrite zip_with_app. Qed.
Lemma slots_fst r bs : rbb_inv r bs → (slots_of r bs).*1 = blk_list r.
Proof.
  intros [_ _ _ Hl _]. induction Hl as [|i b l bs _ _ IH]; [done|]. simpl. f_equal. exact IH.
Qed.
Lemma elem_of_slots l bs i st :
  (i, st) ∈ slots_at l bs → ∃ l1 l2 bs1 b bs2, l = l1 ++ i :: l2 ∧ bs = bs1 ++ b :: bs2 ∧
    length l1 = length bs1 ∧ blk_status b = st.
Proof.
  revert bs. induction l as [|j l IH]; intros [|b bs]; simpl; try set_solver.
  intros [[= -> ->]|Hin]%elem_of_cons; [by exists [], l, [], b, bs|].
  destruct (IH _ Hin) as (l1 & l2 & bs1 & c & bs2 & -> & -> & Hlen & <-).
  exists (j :: l1), l2, (b :: bs1), c, bs2. split_and!; try done. simpl. by rewrite Hlen.
Qed.
Lemma not_put_zip l bs : (∀ b, b ∈ bs → blk_status b ≠ RT_RBB_BLK_PUT) →
  Forall not_put (slots_at l bs).
Proof.
  intros H. apply Forall_forall. intros [i st] (l1 & l2 & bs1 & b & bs2 & -> & -> & _ & <-)%elem_of_slots.
  apply H. set_solver.
Qed.

Lemma rbb_refines_run r bs op :
  rbb_inv r bs → enabled r (slots_of r bs) op →
  wp (rbb_call op) (λ o r', ∃ bs', rbb_inv r' bs' ∧ rbb_spec (slots_of r bs) op o (slots_of r' bs')) r.
Proof.
  intros Hr Hen. destruct op as [size|i| |i]; simpl in *.
  - destruct Hen as [Hs Hle]. eapply wp_mono; [by apply rt_rbb_blk_alloc_run|].
    intros [i|] r' Hal; [|destruct Hal as [-> _]; exists bs; split; [done|constructor]].
    destruct Hal as (a & Hr' & Hi & ->). eexists. split; [done|]. simpl.
    unfold slots_at at 2. rewrite zip_with_app by (by eapply Forall2_length, rb_list).
    constructor. by rewrite slots_fst.
  - apply elem_of_slots in Hen as (l1 & l2 & bs1 & b & bs2 & El & -> & Hlen & Hst).
    destruct (inv_split _ _ _ _ _ Hr El) as (? & ? & ? & E & [Hb _] & H1 & _).
    apply app_inj_1 in E as [<- [= <- <-]]; [|by apply Forall2_length in H1; congruence].
    unfold rt_rbb_blk_put. wp_simpl. eapply wp_block; [done|]. wp_simpl. split; [by apply bool_decide_true|].
    eapply wp_upd_block; [done|]. wp_simpl. eexists. split; [by eapply inv_status|].
    simpl. rewrite El, !slots_app by done. rewrite Hst. constructor.
  - unfold rt_rbb_blk_get. wp_simpl. eapply wp_mono; [by eapply blk_get_loop_run, rb_list|].
    intros [i|] r'.
    + intros (l1 & l2 & bs1 & b & bs2 & El & -> & Hlen & Hn & Hb & ->).
      eexists. split; [by eapply inv_status|]. simpl. rewrite El, !slots_app by done.
      rewrite Hb. constructor. by apply not_put_zip.
    + intros [-> Hn]. exists bs. split; [done|]. constructor. by apply not_put_zip.
  - rewrite slots_fst in Hen by done. apply list_elem_of_split in Hen as (l1 & l2 & El).
    destruct (inv_split _ _ _ _ _ Hr El) as (bs1 & b & bs2 & -> & [Hb Hu] & H1 & _ & Hi1 & Hi2).
    apply Forall2_length in H1 as Hlen. unfold rt_rbb_blk_free, set_blk_list. wp_simpl.
    eapply wp_block; [done|]. wp_simpl. split; [by rewrite bool_decide_false|].
    eapply wp_upd_block; [done|]. wp_simpl. simpl.
    rewrite El, lremove_mid by (rewrite <-El; apply Hr). exists (bs1 ++ bs2). split.
    { by apply (inv_unlist r bs1 b bs2 l1 i l2). }
    simpl. rewrite slots_app by done. unfold slots_at at 3. rewrite zip_with_app by done. constructor.
Qed.
(** C38. The operations implement the contract: under the obligations of the callers each call returns
    and does what the queue of blocks does; the memory of the blocks stays a ring. *)
Theorem rbb_refines r bs op :
  rbb_inv r bs → enabled r (slots_of r bs) op →
  wp (rbb_call op) (λ o r', ∃ bs', rbb_inv r' bs' ∧ rbb_spec (slots_of r bs) op o (slots_of r' bs')) r.
Proof. apply rbb_refines_run. Qed.
End contract.

(** * Queues of blocks *)

Definition sum_sizes (total : Z) (bs : list rt_rbb_blk) : Z := foldl (λ t b, u32 (t + blk_size b)) total bs.
(** A call has taken the blocks [rbs] of the nodes [run] off the list. *)
Record queued (r : rt_rbb) (l1 run l2 : list nat) (bs1 rbs bs2 : list rt_rbb_blk) (r' : rt_rbb) : Prop := {
  qd_list : blk_list r = l1 ++ run ++ l2;
  qd_run : length run = length rbs;
  qd_put : Forall (λ b, blk_status b = RT_RBB_BLK_PUT) rbs;
  qd_list' : blk_list r' = l1 ++ l2;
  qd_inv : rbb_inv r' (bs1 ++ bs2)
}.

Section queues.
Implicit Types (r : rt_rbb) (bs : list rt_rbb_blk) (b c : rt_rbb_blk).

Lemma queue_take_run r bs1 b bs2 l1 i l2 total q :
  rbb_inv r (bs1 ++ b :: bs2) → blk_list r = l1 ++ i :: l2 → length l1 = length bs1 →
  wp (queue_take i total q) (λ x r', x = (u32 (total + blk_size b), BlkQueue (blocks q) (u32 (blk_num q + 1))) ∧
    r' = with_blk_list (l1 ++ l2) (with_blk_set (<[i := with_blk_status RT_RBB_BLK_GET b]> (blk_set r)) r) ∧
    rbb_inv r' (bs1 ++ bs2)) r.
Proof.
  intros Hr El Hlen. destruct (inv_split _ _ _ _ _ Hr El) as (? & ? & ? & E & [Hb _] & H1 & _).
  apply app_inj_1 in E as [<- [= <- <-]]; [|by apply Forall2_length in H1; congruence].
  unfold queue_take, set_blk_list. wp_simpl. eapply wp_block; [done|]. wp_simpl. eapply wp_upd_block; [done|].
  wp_simpl. simpl. rewrite El, lremove_mid by (rewrite <-El; apply Hr).
  split_and!; [done..|]. by apply (inv_unlist r bs1 b bs2 l1 i l2).
Qed.
Lemma in_use_at r bs1 b bs2 l1 i l2 :
  rbb_inv r (bs1 ++ b :: bs2) → blk_list r = l1 ++ i :: l2 → length l1 = length bs1 → blk_set r !! i = Some b.
Proof.
  intros Hr El Hlen. destruct (inv_split _ _ _ _ _ Hr El) as (? & ? & ? & E & [Hb _] & H1 & _).
  by apply app_inj_1 in E as [<- [= <- <-]]; [|by apply Forall2_length in H1; congruence].
Qed.
(** Behind the first block, whose size counts in any case. *)
Lemma queue_get_more r l1 node bs1 bs2 j last len total q :
  rbb_inv r (bs1 ++ bs2) → blk_list r = l1 ++ node → length l1 = length bs1 → blk_set r !! j = Some last →
  u32 (blk_num q) = blk_num q →
  wp (queue_get_loop node (Some j) len total q) (λ x r', ∃ run l2 rbs bs3, node = run ++ l2 ∧ bs2 = rbs ++ bs3 ∧
    queued r l1 run l2 bs1 rbs bs3 r' ∧
    x = (sum_sizes total rbs, BlkQueue (blocks q) (u32 (blk_num q + Z.of_nat (length run)))) ∧
    x.1 ≤ Z.max total len) r.
Proof.
  revert r bs2 j last total q. induction node as [|i node IH]; intros r bs2 j last total q Hr El Hlen Hj Hq; simpl.
  - wp_simpl. assert (bs2 = []) as ->.
    { apply rb_list, Forall2_length in Hr. rewrite El, !length_app in Hr. apply length_zero_iff_nil. simpl in Hr. lia. }
    exists [], [], [], []. split_and!; try done; [simpl; rewrite Z.add_0_r, Hq; by destruct q|simpl; lia].
  - destruct bs2 as [|b bs2].
    { apply rb_list, Forall2_length in Hr. rewrite El, !length_app in Hr. simpl in Hr. lia. }
    pose proof (in_use_at _ _ _ _ _ _ _ Hr El Hlen) as Hb.
    apply wp_bind. eapply wp_block; [done|]. apply wp_bind. eapply wp_block; [done|].
    destruct (negb _ || _ || _) eqn:E.
    + wp_simpl. exists [], (i :: node), [], (b :: bs2).
      split_and!; try done; [simpl; rewrite Z.add_0_r, Hq; by destruct q|simpl; lia].
    + apply orb_false_iff in E as [[Hp%negb_false_iff _]%orb_false_iff Hle%Z.ltb_ge].
      apply wp_bind. eapply wp_mono; [by eapply queue_take_run|]. intros x r1 (-> & -> & Hr1). simpl.
      eapply wp_mono.
      { eapply (IH _ bs2 i (with_blk_status RT_RBB_BLK_GET b)); [exact Hr1|done|done| |apply u32_small, u32_range]. simpl.
        apply list_lookup_insert_eq. by eapply lookup_lt_Some. }
      intros x r' (run & l2 & rbs & bs3 & -> & -> & [_ Hrun Hput El' Hr'] & -> & Hmax).
      exists (i :: run), l2, (b :: rbs), bs3. split_and!; try done.
      * constructor; simpl; try done; [by rewrite Hrun|]. constructor; [|done]. by apply bool_decide_eq_true in Hp.
      * simpl. do 2 f_equal. rewrite u32_add_mod. f_equal. lia.
      * simpl in *. lia.
Qed.
(** rt_rbb_blk_queue_get takes the first filled block and filled blocks that follow it, and no
    others; the total is their size, and is in the limit unless the first
    block alone is beyond it. *)
Lemma rt_rbb_blk_queue_get_run r bs len q :
  rbb_inv r bs →
  wp (rt_rbb_blk_queue_get len q) (λ x r',
    (x = (0, q) ∧ r' = r ∧ ∀ b, b ∈ bs → blk_status b ≠ RT_RBB_BLK_PUT) ∨
    ∃ l1 i run l2 bs1 b rbs bs2, bs = bs1 ++ (b :: rbs) ++ bs2 ∧
      (∀ c, c ∈ bs1 → blk_status c ≠ RT_RBB_BLK_PUT) ∧
      queued r l1 (i :: run) l2 bs1 (b :: rbs) bs2 r' ∧
      x = (sum_sizes 0 (b :: rbs), BlkQueue i (u32 (Z.of_nat (length (i :: run))))) ∧
      x.1 ≤ Z.max (u32 (blk_size b)) len) r.
Proof.
  intros Hr. unfold rt_rbb_blk_queue_get. wp_simpl.
  assert (∀ l1 node bs1 bs2, bs = bs1 ++ bs2 → blk_list r = l1 ++ node → length l1 = length bs1 →
    (∀ c, c ∈ bs1 → blk_status c ≠ RT_RBB_BLK_PUT) →
    wp (queue_get_loop node None len 0 q) (λ x r',
    (x = (0, q) ∧ r' = r ∧ ∀ b, b ∈ bs → blk_status b ≠ RT_RBB_BLK_PUT) ∨
    ∃ l1 i run l2 bs1 b rbs bs2, bs = bs1 ++ (b :: rbs) ++ bs2 ∧
      (∀ c, c ∈ bs1 → blk_status c ≠ RT_RBB_BLK_PUT) ∧
      queued r l1 (i :: run) l2 bs1 (b :: rbs) bs2 r' ∧
      x = (sum_sizes 0 (b :: rbs), BlkQueue i (u32 (Z.of_nat (length (i :: run))))) ∧
      x.1 ≤ Z.max (u32 (blk_size b)) len) r) as Hloop; [|apply (Hloop [] (blk_list r) [] bs); try done; set_solver].
  intros l1 node. revert l1. induction node as [|i node IH]; intros l1 bs1 bs2 -> El Hlen Hn; simpl.
  - wp_simpl. left. split_and!; [done..|].
    apply rb_list, Forall2_length in Hr. rewrite El, !length_app in Hr. simpl in Hr.
    assert (bs2 = []) as -> by (apply length_zero_iff_nil; lia). by rewrite app_nil_r.
  - destruct bs2 as [|b bs2].
    { apply rb_list, Forall2_length in Hr. rewrite El, !length_app in Hr. simpl in Hr. lia. }
    pose proof (in_use_at _ _ _ _ _ _ _ Hr El Hlen) as Hb.
    apply wp_bind. eapply wp_block; [done|]. case_bool_decide as Hp.
    + apply wp_bind. eapply wp_mono; [by eapply queue_take_run|]. intros x r1 (-> & -> & Hr1). simpl.
      eapply wp_mono.
      { eapply (queue_get_more _ l1 node bs1 bs2 i (with_blk_status RT_RBB_BLK_GET b)); [exact Hr1|done|done| |done]. simpl.
        apply list_lookup_insert_eq. by eapply lookup_lt_Some. }
      intros x r' (run & l2 & rbs & bs3 & -> & -> & [_ Hrun Hput El' Hr'] & -> & Hmax). right.
      exists l1, i, run, l2, bs1, b, rbs, bs3. split_and!; try done.
      * constructor; simpl; try done; [by rewrite Hrun|by constructor].
      * simpl. do 2 f_equal. rewrite u32_add_mod. f_equal. lia.
    + apply (IH (l1 ++ [i]) (bs1 ++ [b]) bs2); [by rewrite <-app_assoc|by rewrite El, <-app_assoc| |].
      * rewrite !length_app, Hlen. done.
      * intros c [Hc| ->%list_elem_of_singleton]%elem_of_app; [by apply Hn|done].
Qed.

(** A descriptor that is not on the list may change. *)
Lemma inv_notin r bs i c : rbb_inv r bs → i ∉ blk_list r → rbb_inv (with_blk_set (<[i := c]> (blk_set r)) r) bs.
Proof.
  intros [Hroom Hmax Hnd Hl Hring] Hout. constructor; simpl; try done; [by rewrite length_insert|]. by apply (in_use_insert r).
Qed.
(** A free takes a descriptor off the list if it is there. *)
Lemma rt_rbb_blk_free_inv r bs i r' :
  rbb_inv r bs → rt_rbb_blk_free i r = Some (tt, r') → ∃ bs', rbb_inv r' bs'.
Proof.
  intros Hr E. unfold rt_rbb_blk_free, set_blk_list, upd_block, set_block, block, gets, modify, RT_ASSERT in E.
  unfold mbind, M_bind, mret, M_ret, get, lift in E. simpl in E.
  destruct (blk_set r !! i) as [b|] eqn:Hb; [|done]. destruct (negb _); [|done]. rewrite Hb in E. simpl in E.
  rewrite Hb in E. injection E as <-. destruct (decide (i ∈ blk_list r)) as [Hin|Hout].
  - apply list_elem_of_split in Hin as (l1 & l2 & El).
    destruct (inv_split _ _ _ _ _ Hr El) as (bs1 & c & bs2 & -> & _ & H1 & _). apply Forall2_length in H1.
    exists (bs1 ++ bs2). simpl. rewrite El, lremove_mid by (rewrite <-El; apply Hr). by apply (inv_unlist r bs1 c).
  - exists bs. simpl. rewrite lremove_notin by done.
    pose proof (inv_notin r bs i (with_blk_status RT_RBB_BLK_UNUSED b) Hr Hout) as H. by destruct r.
Qed.
Lemma for_each_free_inv r bs idx r' :
  rbb_inv r bs → for_each rt_rbb_blk_free idx r = Some (tt, r') → ∃ bs', rbb_inv r' bs'.
Proof.
  revert r bs. induction idx as [|i idx IH]; intros r bs Hr; simpl.
  - intros [= <-]. by exists bs.
  - unfold mbind, M_bind. destruct (rt_rbb_blk_free i r) as [[[] r1]|] eqn:E; [|done].
    destruct (rt_rbb_blk_free_inv _ _ _ _ Hr E) as (bs1 & Hr1). by apply IH with bs1.
Qed.
Lemma rt_rbb_blk_put_inv r bs i r' :
  rbb_inv r bs → rt_rbb_blk_put i r = Some (tt, r') → ∃ bs', rbb_inv r' bs'.
Proof.
  intros Hr E. unfold rt_rbb_blk_put, upd_block, set_block, block, modify, RT_ASSERT in E.
  unfold mbind, M_bind, mret, M_ret, get, lift in E. simpl in E.
  destruct (blk_set r !! i) as [b|] eqn:Hb; [|done]. destruct (has b RT_RBB_BLK_INITED); [|done]. rewrite Hb in E. simpl in E.
  rewrite Hb in E. injection E as <-. destruct (decide (i ∈ blk_list r)) as [Hin|Hout]; [|exists bs; by apply inv_notin].
  apply list_elem_of_split in Hin as (l1 & l2 & El).
  destruct (inv_split _ _ _ _ _ Hr El) as (bs1 & c & bs2 & -> & [Hc _] & H1 & _). apply Forall2_length in H1.
  simplify_eq. eexists. by eapply inv_status.
Qed.
Lemma rbb_call_inv r bs op o r' :
  rbb_inv r bs → sized r op → rbb_call op r = Some (o, r') → ∃ bs', rbb_inv r' bs'.
Proof.
  intros Hr Hs E.
  assert (enabled r (slots_of r bs) op → ∃ bs', rbb_inv r' bs') as Hen.
  { intros Hen. pose proof (rbb_refines_run r bs op Hr Hen) as Hw.
    apply (wp_run _ _ _ _ _ E) in Hw as (bs' & ? & _). by exists bs'. }
  destruct op as [size|i| |i]; [|clear Hen|by apply Hen|clear Hen].
  - apply Hen. simpl in *. unfold rt_rbb_blk_alloc, RT_ASSERT, mbind, M_bind in E.
    change (Z.shiftl 1 24) with 16777216 in E. destruct (Z.ltb_spec size 16777216); [lia|done].
  - simpl in E. unfold mbind, M_bind in E. destruct (rt_rbb_blk_put i r) as [[[] r1]|] eqn:E1; [|done].
    injection E as _ <-. by apply (rt_rbb_blk_put_inv r bs i).
  - simpl in E. unfold mbind, M_bind in E. destruct (rt_rbb_blk_free i r) as [[[] r1]|] eqn:E1; [|done].
    injection E as _ <-. by apply (rt_rbb_blk_free_inv r bs i).
Qed.
(** No operation moves the buffer. *)
Definition keeps {A} (m : R A) : Prop :=
  ∀ r a r', m r = Some (a, r') → rbb_buf r' = rbb_buf r ∧ rbb_buf_size r' = rbb_buf_size r.
Lemma keeps_bind {A B} (m : R A) (f : A → R B) : keeps m → (∀ a, keeps (f a)) → keeps (m ≫= f).
Proof.
  intros Hm Hf r a r' E. unfold mbind, M_bind in E. destruct (m r) as [[x r1]|] eqn:E1; [|done].
  destruct (Hm _ _ _ E1) as [<- <-]. by eapply Hf.
Qed.
Lemma keeps_ret {A} (a : A) : keeps (mret a).
Proof. by intros r x r' [= _ <-]. Qed.
Lemma keeps_gets {A} (f : rt_rbb → A) : keeps (gets f).
Proof. by intros r x r' [= _ <-]. Qed.
Lemma keeps_assert (b : bool) : keeps (RT_ASSERT b).
Proof. intros r x r' E. unfold RT_ASSERT in E. destruct b; by simplify_eq. Qed.
Lemma keeps_block i : keeps (block i).
Proof. intros r x r' E. unfold block, mbind, M_bind, get, lift in E. by repeat (case_match || simplify_eq/=). Qed.
Lemma keeps_upd_block i f : keeps (upd_block i f).
Proof.
  intros r x r' E. unfold upd_block, set_block, block, mbind, M_bind, get, lift, modify in E.
  by repeat (case_match || simplify_eq/=).
Qed.
Lemma keeps_set_block i b : keeps (set_block i b).
Proof.
  intros r x r' E. unfold set_block, block, mbind, M_bind, get, lift, modify in E.
  by repeat (case_match || simplify_eq/=).
Qed.
Lemma keeps_get : keeps get.
Proof. by intros r x r' [= _ <-]. Qed.
Lemma keeps_set_list l : keeps (set_blk_list l).
Proof. intros r x r' E. unfold set_blk_list, modify in E. by simplify_eq. Qed.
Create HintDb keeps.
#[local] Hint Resolve keeps_ret keeps_gets keeps_assert keeps_block keeps_upd_block keeps_set_block keeps_get
  keeps_set_list : keeps.
(** Straight-line code, its branches one by one. *)
#[local] Ltac keeps := repeat (intros; first [solve [eauto with keeps]|apply keeps_bind|case_match]).
Lemma keeps_find_loop n i : keeps (find_empty_loop n i).
Proof. revert i. induction n as [|n IH]; intros i; simpl; keeps. Qed.
Lemma keeps_get_loop l : keeps (blk_get_loop l).
Proof. induction l as [|i l IH]; simpl; keeps. Qed.
Lemma keeps_take i t q : keeps (queue_take i t q).
Proof. unfold queue_take. keeps. Qed.
#[local] Hint Resolve keeps_find_loop keeps_get_loop keeps_take : keeps.
Lemma keeps_queue_loop l o len t q : keeps (queue_get_loop l o len t q).
Proof. revert o t q. induction l as [|i l IH]; intros o t q; simpl; keeps. Qed.
#[local] Hint Resolve keeps_queue_loop : keeps.
Lemma keeps_free i : keeps (rt_rbb_blk_free i).
Proof. unfold rt_rbb_blk_free. keeps. Qed.
Lemma keeps_call op : keeps (rbb_call op).
Proof.
  destruct op; unfold rbb_call, rt_rbb_blk_alloc, find_empty_blk_in_set, place_blk, take_blk, rt_rbb_blk_put,
    rt_rbb_blk_get, rt_rbb_blk_free; keeps.
Qed.
Lemma keeps_step r r' : rbb_step r r' → rbb_buf r' = rbb_buf r ∧ rbb_buf_size r' = rbb_buf_size r.
Proof.
  intros [r0 op o r2 _ E|r0 len q res r2 E|r0 q r2 E]; [by apply keeps_call in E| |].
  - revert E. apply (keeps_bind (gets blk_list)); auto with keeps.
  - revert E. unfold rt_rbb_blk_queue_free. generalize (queue_blocks q) as l. intros l. revert r0.
    induction l as [|i l IH]; intros r0; [by intros [= <-]|]. simpl. intros E.
    unfold mbind, M_bind in E. destruct (rt_rbb_blk_free i r0) as [[[] r1]|] eqn:E1; [|done].
    destruct (keeps_free _ _ _ _ E1) as [<- <-]. by apply IH.
Qed.
Lemma rbb_step_inv r bs r' : rbb_inv r bs → rbb_step r r' → ∃ bs', rbb_inv r' bs'.
Proof.
  intros Hr Hstep. destruct Hstep as [r op o r2 Hs E|r len q res r2 E|r q r2 E].
  - by eapply rbb_call_inv.
  - pose proof (rt_rbb_blk_queue_get_run r bs len q Hr) as Hw. rewrite (wp_run _ _ _ _ _ E) in Hw.
    destruct Hw as [(_ & -> & _)|(l1 & i & run & l2 & bs1 & b & rbs & bs2 & _ & _ & [_ _ _ _ Hr'] & _)]; eauto.
  - by eapply for_each_free_inv.
Qed.
Lemma init_loop_run r n i :
  (i + n ≤ length (blk_set r))%nat →
  wp (for_each (λ i, upd_block i (with_blk_status RT_RBB_BLK_UNUSED)) (seq i n))
     (λ _ r', length (blk_set r') = length (blk_set r) ∧ r' = with_blk_set (blk_set r') r) r.
Proof.
  revert r i. induction n as [|n IH]; intros r i Hn; simpl.
  - wp_simpl. by destruct r.
  - destruct (lookup_lt_is_Some_2 (blk_set r) i) as [b Hb]; [lia|].
    apply wp_bind. eapply wp_upd_block; [done|].
    eapply wp_mono; [apply IH; simpl; rewrite length_insert; lia|]. simpl. rewrite length_insert.
    intros [] r' [? ->]. done.
Qed.

Lemma reachable_inv r bs r' :
  rbb_inv r bs → rtc rbb_step r r' → ∃ bs', rbb_inv r' bs' ∧ rbb_buf r' = rbb_buf r ∧ rbb_buf_size r' = rbb_buf_size r.
Proof.
  intros Hr H. revert bs Hr. induction H as [r|r r1 r2 Hstep _ IH]; intros bs Hr; [by exists bs|].
  destruct (rbb_step_inv _ _ _ Hr Hstep) as (bs1 & Hr1). destruct (keeps_step _ _ Hstep) as [<- <-]. by eapply IH.
Qed.

(** C39. From the start, after calls in any order, queue operations included, with any arguments for which
    they return, if only the allocations are of at least one byte and at most the length of the buffer: the
    blocks on the list are in use, in the buffer, and share no byte. *)
Theorem rbb_reachable_apart r0 buf size set :
  0 < buf → 0 ≤ size → buf + size < 4294967296 →
  wp (rt_rbb_init buf size set (length set)) (λ _ r1, ∀ r, rtc rbb_step r1 r →
    ∃ bs, Forall2 (in_use r) (blk_list r) bs ∧
      (∀ i j b c, bs !! i = Some b → bs !! j = Some c → i ≠ j → apart b c) ∧
      (∀ b, b ∈ bs → inside buf (buf + size) b)) r0.
Proof.
  intros Hb Hs Hend. unfold rt_rbb_init. wp_simpl. split; [lia|].
  eapply wp_mono; [apply init_loop_run; simpl; lia|]. intros [] r1 [Hlen E] r Hrtc.
  assert (rbb_inv r1 []) as Hr1.
  { rewrite E. constructor; simpl; [lia|done|by constructor|by constructor|].
    exists [], [], (buf + size). simpl. split_and!; [done|lia..]. }
  destruct (reachable_inv _ _ _ Hr1 Hrtc) as (bs & Hr & Eb & Es). rewrite E in Eb, Es. simpl in Eb, Es.
  exists bs. split_and!; [apply Hr| |].
  - intros i j b c Hi Hj Hij. pose proof (rb_ring _ _ Hr) as Hring.
    destruct (Nat.lt_total i j) as [?|[?|?]]; [by eapply ring_apart|done|].
    assert (apart c b) as [?|?] by (by eapply ring_apart); [right|left]; done.
  - intros b Hin. rewrite <-Eb, <-Es. eapply ring_inside; [apply Hr|done].
Qed.
End queues.

(** * Where the buffer goes wrong *)

Section errors.
Implicit Types (r : rt_rbb) (bs : list rt_rbb_blk) (b c : rt_rbb_blk).

Lemma block_at r i b : blk_set r !! i = Some b → block i r = Some (b, r).
Proof. intros E. unfold block, mbind, M_bind, get, lift. by rewrite E. Qed.
(** The first of several descriptors that is not in use. *)
Lemma find_empty_at r l1 b l2 :
  blk_set r = l1 ++ b :: l2 → (length l1 < blk_max_num r)%nat → blk_status b = RT_RBB_BLK_UNUSED →
  (∀ c, c ∈ l1 → blk_status c ≠ RT_RBB_BLK_UNUSED) →
  find_empty_blk_in_set r = Some (Some (length l1), r).
Proof.
  intros El Hlt Hb Hn. unfold find_empty_blk_in_set, gets, mbind, M_bind. simpl.
  assert (∀ n i, (i + n = length l1)%nat → ∀ k, (n < k)%nat →
    find_empty_loop k i r = Some (Some (length l1), r)) as Hloop; [|by apply (Hloop (length l1))].
  intros n. induction n as [|n IH]; intros i Hi [|k] Hk; try lia; simpl.
  - assert (blk_set r !! i = Some b) as Hi' by (rewrite El; apply list_lookup_middle; lia).
    rewrite (bind_run _ _ _ _ _ (block_at _ _ _ Hi')). rewrite bool_decide_true by done.
    unfold mret, M_ret. repeat f_equal. lia.
  - destruct (lookup_lt_is_Some_2 l1 i) as [c Hc]; [lia|].
    assert (blk_set r !! i = Some c) as Hi' by (rewrite El; by apply lookup_app_l_Some).
    rewrite (bind_run _ _ _ _ _ (block_at _ _ _ Hi')).
    rewrite bool_decide_false by (by eapply Hn, list_elem_of_lookup_2). apply (IH (S i)); lia.
Qed.

Lemma take_blk_at r l1 c l2 a size :
  blk_set r = l1 ++ c :: l2 → 0 ≤ size < 16777216 →
  take_blk (length l1) a size r = Some (Some (length l1),
    with_blk_list (blk_list r ++ [length l1]) (with_blk_set (l1 ++ Blk RT_RBB_BLK_INITED size a :: l2) r)).
Proof.
  intros El Hs. unfold take_blk, set_blk_list, set_block.
  assert (blk_set r !! length l1 = Some c) as Hi by (rewrite El; by apply list_lookup_middle).
  unfold gets, modify, mbind, M_bind. rewrite (block_at _ _ c) by done. simpl. unfold u24.
  rewrite Z.mod_small, El, insert_app_r_alt, Nat.sub_diag by lia. done.
Qed.
(** Where [rt_rbb_blk_alloc] puts a block: at the start of an empty buffer, behind the blocks of a row. *)
Definition alloc_place r (a size : Z) : Prop :=
  (blk_list r = [] ∧ a = rbb_buf r) ∨
  ∃ ih it h t, head (blk_list r) = Some ih ∧ last (blk_list r) = Some it ∧
    blk_set r !! ih = Some h ∧ blk_set r !! it = Some t ∧ blk_buf h ≤ blk_buf t ∧
    a = blk_buf t + blk_size t ∧ a + size ≤ rbb_end r < a + 4294967296.
Lemma alloc_at r l1 c l2 a size :
  blk_set r = l1 ++ c :: l2 → (length l1 < blk_max_num r)%nat → blk_status c = RT_RBB_BLK_UNUSED →
  (∀ b, b ∈ l1 → blk_status b ≠ RT_RBB_BLK_UNUSED) → (length (blk_list r) < blk_max_num r)%nat →
  0 ≤ size < 16777216 → alloc_place r a size →
  rt_rbb_blk_alloc size r = Some (Some (length l1),
    with_blk_list (blk_list r ++ [length l1]) (with_blk_set (l1 ++ Blk RT_RBB_BLK_INITED size a :: l2) r)).
Proof.
  intros El Hlt Hc Hn Hlen Hs Ha. unfold rt_rbb_blk_alloc. change (Z.shiftl 1 24) with 16777216.
  rewrite (bind_run _ _ r tt r) by (unfold RT_ASSERT; by rewrite (proj2 (Z.ltb_lt _ _)) by lia).
  rewrite (bind_run _ _ _ _ _ (find_empty_at _ _ _ _ El Hlt Hc Hn)).
  rewrite (bind_run get _ r r r) by done. rewrite (proj2 (Nat.ltb_lt _ _) Hlen). simpl.
  destruct Ha as [[Hnil ->]|(ih & it & h & t & Hih & Hit & Hh & Ht & Hle & -> & Hend)].
  - rewrite Hnil. simpl. rewrite (take_blk_at r l1 c l2) by done. by rewrite Hnil.
  - rewrite Hih, Hit. rewrite (bind_run _ _ _ _ _ (block_at _ _ _ Hh)), (bind_run _ _ _ _ _ (block_at _ _ _ Ht)).
    unfold place_blk. rewrite (bind_run get _ r r r) by done. rewrite (proj2 (Z.leb_le _ _) Hle), u32_small by lia.
    rewrite (proj2 (Z.leb_le _ _)) by lia. by apply (take_blk_at r l1 c l2).
Qed.

(** The first block of an empty buffer is not held against its size: it
    may end behind the buffer. *)
Theorem rt_rbb_blk_alloc_oversize r c set size :
  rbb_inv r [] → blk_set r = c :: set → blk_status c = RT_RBB_BLK_UNUSED →
  rbb_buf_size r < size < 16777216 →
  wp (i ← rt_rbb_blk_alloc size; match i with Some i => block i | None => fail end)
     (λ b r', b = Blk RT_RBB_BLK_INITED size (rbb_buf r) ∧ rbb_end r' < blk_buf b + blk_size b) r.
Proof.
  intros Hr Hset Hc Hs. destruct Hr as [Hroom Hmax _ Hl _]. apply Forall2_nil_inv_r in Hl.
  rewrite wp_bind, (wp_run _ _ _ _ _ (alloc_at r [] c set (rbb_buf r) size Hset
    ltac:(rewrite Hmax, Hset; simpl; lia) Hc ltac:(set_solver) ltac:(rewrite Hl, Hmax, Hset; simpl; lia)
    ltac:(lia) ltac:(by left))).
  simpl. eapply wp_block; [done|]. split; [done|]. simpl. lia.
Qed.

(** A queue is not safe from the writer: rt_rbb_blk_queue_get takes its blocks off the list, and so
    their memory counts as free. While the reader holds the queue the next allocation
    hands out the same bytes. *)
Theorem rt_rbb_queue_overwritten r c0 c1 set n1 n2 len q :
  rbb_inv r [] → blk_set r = c0 :: c1 :: set → 
  blk_status c0 = RT_RBB_BLK_UNUSED → blk_status c1 = RT_RBB_BLK_UNUSED →
  0 < n1 < 16777216 → 0 < n2 < 16777216 → n1 ≤ rbb_buf_size r → n2 ≤ rbb_buf_size r →
  wp (o1 ← rt_rbb_blk_alloc n1; i1 ← lift o1; rt_rbb_blk_put i1;;
      '(total, q) ← rt_rbb_blk_queue_get len q;
      o2 ← rt_rbb_blk_alloc n2; i2 ← lift o2;
      b1 ← block i1; b2 ← block i2; mret (total, b1, b2))
     (λ '(total, b1, b2) _, total = n1 ∧ blk_status b1 = RT_RBB_BLK_GET ∧
        blk_status b2 = RT_RBB_BLK_INITED ∧ ¬ apart b1 b2) r.
Proof.
  intros Hr Hset H0 H1 Hn1 Hn2 Hle1 Hle2. destruct Hr as [Hroom Hmax _ Hl _]. apply Forall2_nil_inv_r in Hl.
  rewrite wp_bind, (wp_run _ _ _ _ _ (alloc_at r [] c0 (c1 :: set) (rbb_buf r) n1 Hset
    ltac:(rewrite Hmax, Hset; simpl; lia) H0 ltac:(set_solver) ltac:(rewrite Hl, Hmax, Hset; simpl; lia)
    ltac:(lia) ltac:(by left))).
  rewrite Hl. unfold rt_rbb_blk_put, rt_rbb_blk_queue_get. wp_simpl. eapply wp_block; [done|]. wp_simpl.
  split; [done|]. eapply wp_upd_block; [done|]. wp_simpl. simpl. wp_simpl. eapply wp_block; [done|].
  rewrite bool_decide_true by done. unfold queue_take, set_blk_list. wp_simpl. eapply wp_block; [done|]. wp_simpl.
  eapply wp_upd_block; [done|]. wp_simpl. 
  set (r2 := with_blk_set _ _).
  rewrite (wp_run _ _ _ _ _ (alloc_at r2 [Blk RT_RBB_BLK_GET n1 (rbb_buf r)] c1 set (rbb_buf r) n2 eq_refl
    ltac:(simpl; rewrite Hmax, Hset; simpl; lia) H1 ltac:(set_solver) ltac:(simpl; rewrite Hmax, Hset; simpl; lia)
    ltac:(lia) ltac:(by left))).
  wp_simpl. eapply wp_block; [done|]. wp_simpl. eapply wp_block; [done|]. wp_simpl. simpl.
  rewrite u32_small by lia. unfold apart. simpl. split_and!; [done..|lia].
Qed.

(** The queue is kept as its first descriptor and a number, as if the descriptors of blocks
    that follow each other in the buffer did so in the array. After a few allocations
    they do not: the length of the queue is that of other descriptors, and freeing the
    queue ends in a failed assertion. *)
Theorem rt_rbb_queue_wrong_blocks r c0 c1 c2 set n0 n1 n2 len q :
  rbb_inv r [] → blk_set r = c0 :: c1 :: c2 :: set →
  Forall (λ c, blk_status c = RT_RBB_BLK_UNUSED) [c0; c1; c2] →
  0 < n0 < 16777216 → 0 < n1 < 16777216 → 0 < n2 < 16777216 → n0 + n1 + n2 ≤ rbb_buf_size r → n1 + n2 ≤ len →
  wp (rt_rbb_blk_alloc n0;; rt_rbb_blk_alloc n1;;
      rt_rbb_blk_put 0;; rt_rbb_blk_get;; rt_rbb_blk_free 0;;
      rt_rbb_blk_alloc n2;;
      rt_rbb_blk_put 1;; rt_rbb_blk_put 0;;
      rt_rbb_blk_queue_get len q)
     (λ '(total, q) r', total = n1 + n2 ∧
        wp (rt_rbb_blk_queue_len q) (λ l _, l = u32 (n1 + blk_size c2)) r' ∧
        rt_rbb_blk_queue_free q r' = None) r.
Proof.
  intros Hr Hset Hu Hn0 Hn1 Hn2 Hsum Hlen. destruct Hr as [Hroom Hmax _ Hl _]. apply Forall2_nil_inv_r in Hl.
  destruct r as [buf size ? max ?]. simpl in *. subst. rewrite !Forall_cons in Hu. destruct Hu as (H0 & H1 & H2 & _).
  rewrite wp_bind. erewrite wp_run; [|apply (alloc_at _ [] c0 (c1 :: c2 :: set) buf n0); simpl; try done; try lia;
    [set_solver|by left]].
  unfold with_blk_list, with_blk_set. simpl.
  rewrite wp_bind. erewrite wp_run; [|apply (alloc_at _ [Blk RT_RBB_BLK_INITED n0 buf] c1 (c2 :: set) (buf + n0) n1);
    simpl; try done; try lia; [set_solver|right; do 4 eexists; simpl; split_and!; [done..|lia|lia]]].
  unfold with_blk_list, with_blk_set. simpl.
  unfold rt_rbb_blk_put, rt_rbb_blk_get, rt_rbb_blk_free, set_blk_list. wp_simpl.
  eapply wp_block; [done|]. wp_simpl. split; [done|]. eapply wp_upd_block; [done|]. simpl. wp_simpl. simpl. wp_simpl.
  eapply wp_block; [done|]. simpl. wp_simpl. eapply wp_upd_block; [done|]. simpl. wp_simpl.
  eapply wp_block; [done|]. wp_simpl. split; [done|]. eapply wp_upd_block; [done|].
  unfold with_blk_list, with_blk_set. simpl. change (lremove 0%nat [0%nat; 1%nat]) with [1%nat].
  rewrite wp_bind. erewrite wp_run; [|apply (alloc_at _ [] (Blk RT_RBB_BLK_UNUSED n0 buf)
    (Blk RT_RBB_BLK_INITED n1 (buf + n0) :: c2 :: set) (buf + n0 + n1) n2); simpl; try done; try lia;
    [set_solver|right; do 4 eexists; simpl; split_and!; [done..|lia|lia]]].
  unfold with_blk_list, with_blk_set. simpl. wp_simpl.
  do 2 (eapply wp_block; [done|]; wp_simpl; split; [done|]; eapply wp_upd_block; [done|]; simpl; wp_simpl).
  unfold rt_rbb_blk_queue_get. wp_simpl. simpl. wp_simpl.
  eapply wp_block; [done|]. simpl. unfold queue_take, set_blk_list. wp_simpl. eapply wp_block; [done|]. wp_simpl.
  eapply wp_upd_block; [done|]. simpl. wp_simpl. simpl. wp_simpl. eapply wp_block; [done|]. wp_simpl. eapply wp_block; [done|].
  simpl. rewrite (proj2 (Z.ltb_ge (buf + n0 + n1) (buf + n0))), (u32_small (0 + n1)), Z.add_0_l, (u32_small (n1 + n2)) by lia.
  rewrite (proj2 (Z.ltb_ge len _)) by lia. simpl. wp_simpl. eapply wp_block; [done|]. wp_simpl.
  eapply wp_upd_block; [done|]. simpl. wp_simpl. simpl.
  split; [rewrite u32_small; lia|]. split.
  - unfold rt_rbb_blk_queue_len. change (queue_blocks _) with [1%nat; 2%nat]. simpl. apply wp_bind.
    eapply wp_block; [done|]. apply wp_bind. eapply wp_block; [done|]. wp_simpl. simpl.
    by rewrite u32_add_mod.
  - unfold rt_rbb_blk_queue_free. change (queue_blocks _) with [1%nat; 2%nat].
    unfold for_each, rt_rbb_blk_free, set_blk_list, upd_block, set_block, block, gets, modify, RT_ASSERT, mbind, M_bind, get, lift.
    simpl. by rewrite bool_decide_true.
Qed.
End errors.
