(* ===== verification/Mem.v ===== *)
(** The small-memory heap of os/mem.c (configuration RT_USING_HEAP,
    RT_USING_SMALL_MEM, 32-bit): the header chain, [rt_system_heap_init],
    [rt_malloc], [rt_realloc], [rt_calloc], [rt_free], [plug_holes] and
    [rt_memory_info]. Block headers live in a store keyed by their offset
    from [heap_ptr]; user bytes in a second store keyed by offset. Of the semaphore
    that guards the heap only the value is kept: that rt_sem_init also makes a kernel object of it
    changes nothing here. *)
From S2P Require Import Prelude.

Record heap_mem := HM { magic : Z; used : Z; next : Z; prev : Z }.

Record heap := Heap {
  mem : gmap Z heap_mem;
  bytes : gmap Z Z;
  heap_ptr : Z;
  heap_end : Z;
  lfree : Z;
  heap_sem : Z;
  mem_size_aligned : Z;
  used_mem : Z;
  max_mem : Z;
  interrupt_nest : Z
}.

Definition set_mem v h := Heap v (bytes h) (heap_ptr h) (heap_end h) (lfree h) (heap_sem h)
  (mem_size_aligned h) (used_mem h) (max_mem h) (interrupt_nest h).
Definition set_bytes v h := Heap (mem h) v (heap_ptr h) (heap_end h) (lfree h) (heap_sem h)
  (mem_size_aligned h) (used_mem h) (max_mem h) (interrupt_nest h).
Definition set_lfree v h := Heap (mem h) (bytes h) (heap_ptr h) (heap_end h) v (heap_sem h)
  (mem_size_aligned h) (used_mem h) (max_mem h) (interrupt_nest h).
Definition set_sem v h := Heap (mem h) (bytes h) (heap_ptr h) (heap_end h) (lfree h) v
  (mem_size_aligned h) (used_mem h) (max_mem h) (interrupt_nest h).
Definition set_stats u m h := Heap (mem h) (bytes h) (heap_ptr h) (heap_end h) (lfree h) (heap_sem h)
  (mem_size_aligned h) u m (interrupt_nest h).

Definition HEAP_MAGIC : Z := 7840. (* 0x1ea0 *)
Definition MIN_SIZE : Z := 12.
Definition MIN_SIZE_ALIGNED : Z := RT_ALIGN MIN_SIZE RT_ALIGN_SIZE.
Definition SIZEOF_STRUCT_MEM : Z := RT_ALIGN 12 RT_ALIGN_SIZE.

Abbreviation heapM := (M heap).

(** Access to the header at an offset. *)
Definition hdr (off : Z) : heapM heap_mem := λ h, m ← mem h !! off; Some (m, h).
Definition put_hdr (off : Z) (m : heap_mem) : heapM unit :=
  modify (λ h, set_mem (<[off := m]> (mem h)) h).
Definition upd_hdr (off : Z) (f : heap_mem → heap_mem) : heapM unit :=
  m ← hdr off; put_hdr off (f m).
Definition with_next v m := HM (magic m) (used m) v (prev m).
Definition with_prev v m := HM (magic m) (used m) (next m) v.
Definition with_used v m := HM (magic m) v (next m) (prev m).
Definition with_magic v m := HM v (used m) (next m) (prev m).

(** [rt_sem_take(&heap_sem, RT_WAITING_FOREVER)] and its release: [heap_sem]
    is initialised to 1 and the calls bracket the critical region, so a take
    that finds 0 is a caller that waits for itself. *)
Definition heap_lock : heapM unit :=
  s ← gets heap_sem; RT_ASSERT (0 <? s);; modify (set_sem (s - 1)).
Definition heap_unlock : heapM unit :=
  s ← gets heap_sem; modify (set_sem (s + 1)).
Definition RT_DEBUG_NOT_IN_INTERRUPT : heapM unit :=
  n ← gets interrupt_nest; RT_ASSERT (n =? 0).

(** plug hole forward: combine [mem] and [mem->next] *)
Definition plug_forward (mem : Z) : heapM unit :=
  hend ← gets heap_end;
  m ← hdr mem;
  let nmem := next m in
  n ← hdr nmem;
  when (negb (mem =? nmem) && (used n =? 0) && negb (nmem =? hend))
    (lf ← gets lfree;
     when (lf =? nmem) (modify (set_lfree mem));;
     upd_hdr mem (with_next (next n));;
     upd_hdr (next n) (with_prev mem)).
(** plug hole backward: combine [mem] and [mem->prev] *)
Definition plug_backward (mem : Z) : heapM unit :=
  m ← hdr mem;
  let pmem := prev m in
  p ← hdr pmem;
  when (negb (pmem =? mem) && (used p =? 0))
    (lf ← gets lfree;
     when (lf =? mem) (modify (set_lfree pmem));;
     upd_hdr pmem (with_next (next m));;
     upd_hdr (next m) (with_prev pmem)).
Definition plug_holes (mem : Z) : heapM unit :=
  hend ← gets heap_end;
  RT_ASSERT (0 <=? mem);; RT_ASSERT (mem <? hend);;
  m ← hdr mem; RT_ASSERT (used m =? 0);;
  plug_forward mem;;
  plug_backward mem.

Definition rt_system_heap_init (begin_addr end_addr : Z) : heapM unit :=
  let begin_align := RT_ALIGN begin_addr RT_ALIGN_SIZE in
  let end_align := RT_ALIGN_DOWN end_addr RT_ALIGN_SIZE in
  RT_DEBUG_NOT_IN_INTERRUPT;;
  if (end_align >? 2 * SIZEOF_STRUCT_MEM) &&
     (end_align - 2 * SIZEOF_STRUCT_MEM >=? begin_align) then
    let size := u32 (end_align - begin_align - 2 * SIZEOF_STRUCT_MEM) in
    let hend := u32 (size + SIZEOF_STRUCT_MEM) in
    modify (λ h, Heap
      (<[hend := HM HEAP_MAGIC 1 hend hend]> (<[0 := HM HEAP_MAGIC 0 hend 0]> (mem h)))
      (bytes h) begin_align hend 0 1 size (used_mem h) (max_mem h) (interrupt_nest h))
  else mret tt.

(** The [for] loop of [rt_malloc]: the offset of the first block, from
    [ptr] on, that is free and large enough. *)
Fixpoint malloc_find (fuel : nat) (ptr size : Z) : heapM (option Z) :=
  match fuel with
  | O => fail
  | S fuel =>
      msa ← gets mem_size_aligned;
      if ptr <? u32 (msa - size) then
        m ← hdr ptr;
        if (used m =? 0) && (u32 (next m - u32 (ptr + SIZEOF_STRUCT_MEM)) >=? size)
        then mret (Some ptr)
        else malloc_find fuel (next m) size
      else mret None
  end.

(** Find the next free block after the one taken. *)
Fixpoint lfree_advance (fuel : nat) : heapM unit :=
  match fuel with
  | O => fail
  | S fuel =>
      lf ← gets lfree; hend ← gets heap_end; m ← hdr lf;
      if negb (used m =? 0) && negb (lf =? hend)
      then modify (set_lfree (next m));; lfree_advance fuel
      else mret tt
  end.

Definition count_used (n : Z) : heapM unit :=
  u ← gets used_mem; x ← gets max_mem;
  let u := u32 (u + n) in modify (set_stats u (if x <? u then u else x)).

(** Every block has at least 16 bytes, so [heap_end] bounds their number. *)
Definition chain_fuel (h : heap) : nat := S (Z.to_nat (heap_end h)).

(** The body of the loop once a block is found: split it or take it whole, *)
Definition malloc_carve (ptr size : Z) : heapM unit :=
  m ← hdr ptr; msa ← gets mem_size_aligned;
  if u32 (next m - u32 (ptr + SIZEOF_STRUCT_MEM)) >=?
      u32 (size + SIZEOF_STRUCT_MEM + MIN_SIZE_ALIGNED) then
    (* split large block *)
    let ptr2 := u32 (ptr + SIZEOF_STRUCT_MEM + size) in
    put_hdr ptr2 (HM HEAP_MAGIC 0 (next m) ptr);;
    upd_hdr ptr (with_next ptr2);; upd_hdr ptr (with_used 1);;
    when (negb (next m =? u32 (msa + SIZEOF_STRUCT_MEM)))
      (upd_hdr (next m) (with_prev ptr2));;
    count_used (u32 (size + SIZEOF_STRUCT_MEM))
  else
    (* near fit or exact fit *)
    upd_hdr ptr (with_used 1);;
    count_used (u32 (next m - ptr)).
(** and find the next free block after it if it was the lowest one. *)
Definition malloc_lfree (ptr : Z) : heapM unit :=
  lf ← gets lfree;
  when (ptr =? lf)
    (fuel ← gets chain_fuel; lfree_advance fuel;;
     lf ← gets lfree; hend ← gets heap_end; ml ← hdr lf;
     RT_ASSERT ((lf =? hend) || (used ml =? 0))).
Definition malloc_take (ptr size : Z) : heapM unit :=
  malloc_carve ptr size;;
  upd_hdr ptr (with_magic HEAP_MAGIC);;
  malloc_lfree ptr.

Definition rt_malloc (size : Z) : heapM Z :=
  if size =? 0 then mret 0 else
  RT_DEBUG_NOT_IN_INTERRUPT;;
  let size := RT_ALIGN size RT_ALIGN_SIZE in
  msa ← gets mem_size_aligned;
  if size >? msa then mret 0 else
  let size := if size <? MIN_SIZE_ALIGNED then MIN_SIZE_ALIGNED else size in
  heap_lock;;
  lf ← gets lfree; fuel ← gets chain_fuel;
  found ← malloc_find fuel lf size;
  match found with
  | Some ptr =>
      malloc_take ptr size;;
      heap_unlock;;
      hp ← gets heap_ptr; hend ← gets heap_end;
      RT_ASSERT (hp + ptr + SIZEOF_STRUCT_MEM + size <=? hp + hend);;
      RT_ASSERT ((hp + ptr + SIZEOF_STRUCT_MEM) mod RT_ALIGN_SIZE =? 0);;
      RT_ASSERT (Z.land (hp + ptr) (RT_ALIGN_SIZE - 1) =? 0);;
      mret (u32 (hp + ptr + SIZEOF_STRUCT_MEM))
  | None => heap_unlock;; mret 0
  end.

Definition rt_free (rmem : Z) : heapM unit :=
  if rmem =? 0 then mret tt else
  RT_DEBUG_NOT_IN_INTERRUPT;;
  hp ← gets heap_ptr; hend ← gets heap_end;
  RT_ASSERT (Z.land rmem (RT_ALIGN_SIZE - 1) =? 0);;
  RT_ASSERT ((rmem >=? hp) && (rmem <? hp + hend));;
  if (rmem <? hp) || (rmem >=? hp + hend) then mret tt else
  let mem := rmem - SIZEOF_STRUCT_MEM - hp in
  heap_lock;;
  m ← hdr mem;
  RT_ASSERT (negb (used m =? 0));;
  RT_ASSERT (magic m =? HEAP_MAGIC);;
  upd_hdr mem (with_used 0);;
  upd_hdr mem (with_magic HEAP_MAGIC);;
  lf ← gets lfree;
  when (mem <? lf) (modify (set_lfree mem));;
  m ← hdr mem;
  modify (λ h, set_stats (u32 (used_mem h - u32 (next m - mem))) (max_mem h) h);;
  plug_holes mem;;
  heap_unlock.

(** memcpy and memset on the byte store *)
Definition rt_memcpy (dst src n : Z) : heapM unit :=
  modify (λ h, set_bytes
    (foldr (λ i bs, partial_alter (λ _, bytes h !! (src + i)) (dst + i) bs)
           (bytes h) (seqZ 0 n)) h).
Definition rt_memset (dst c n : Z) : heapM unit :=
  modify (λ h, set_bytes (foldr (λ i bs, <[dst + i := u8 c]> bs) (bytes h) (seqZ 0 n)) h).

(** [rt_realloc] in place, by splitting the block, *)
Definition realloc_split (rmem ptr size newsize : Z) : heapM Z :=
  msa ← gets mem_size_aligned;
  m ← hdr ptr;
  modify (λ h, set_stats (u32 (used_mem h - u32 (size - newsize))) (max_mem h) h);;
  let ptr2 := u32 (ptr + SIZEOF_STRUCT_MEM + newsize) in
  put_hdr ptr2 (HM HEAP_MAGIC 0 (next m) ptr);;
  upd_hdr ptr (with_next ptr2);;
  when (negb (next m =? u32 (msa + SIZEOF_STRUCT_MEM)))
    (upd_hdr (next m) (with_prev ptr2));;
  lf ← gets lfree;
  when (ptr2 <? lf) (modify (set_lfree ptr2));;
  plug_holes ptr2;;
  heap_unlock;;
  mret rmem.
(** and by moving the data to a new block. *)
Definition realloc_move (rmem size newsize : Z) : heapM Z :=
  hp ← gets heap_ptr;
  heap_unlock;;
  nmem ← rt_malloc newsize;
  when (negb (nmem =? 0))
    (rt_memcpy (nmem - hp) (rmem - hp) (if size <? newsize then size else newsize);;
     rt_free rmem);;
  mret nmem.

Definition rt_realloc (rmem newsize : Z) : heapM Z :=
  RT_DEBUG_NOT_IN_INTERRUPT;;
  let newsize := RT_ALIGN newsize RT_ALIGN_SIZE in
  msa ← gets mem_size_aligned;
  if newsize >? msa then mret 0
  else if newsize =? 0 then rt_free rmem;; mret 0
  else if rmem =? 0 then rt_malloc newsize
  else
  heap_lock;;
  hp ← gets heap_ptr; hend ← gets heap_end;
  if (rmem <? hp) || (rmem >=? hp + hend) then heap_unlock;; mret rmem else
  let ptr := rmem - SIZEOF_STRUCT_MEM - hp in
  m ← hdr ptr;
  let size := u32 (u32 (next m - ptr) - SIZEOF_STRUCT_MEM) in
  if size =? newsize then heap_unlock;; mret rmem
  else if u32 (newsize + SIZEOF_STRUCT_MEM + MIN_SIZE) <? size
  then realloc_split rmem ptr size newsize
  else realloc_move rmem size newsize.

Definition rt_calloc (count size : Z) : heapM Z :=
  p ← rt_malloc (u32 (count * size));
  hp ← gets heap_ptr;
  when (negb (p =? 0)) (rt_memset (p - hp) 0 (u32 (count * size)));;
  mret p.

Definition rt_memory_info : heapM (Z * Z * Z) :=
  gets (λ h, (mem_size_aligned h, used_mem h, max_mem h)).

(** ** The abstract heap: blocks from [heap_ptr] to [heap_end] in order *)

Record block := Block { b_size : Z; b_used : bool }.

Definition block_ok (b : block) : Prop := 4 ≤ b_size b ∧ b_size b mod 4 = 0.
Definition block_hdr (b : block) (off prev : Z) : heap_mem :=
  HM HEAP_MAGIC (if b_used b then 1 else 0) (off + 12 + b_size b) prev.

(** Offset behind a run of blocks, and offset of its last block. *)
Fixpoint eoff (o : Z) (bs : list block) : Z :=
  match bs with [] => o | b :: bs => eoff (o + 12 + b_size b) bs end.
Fixpoint eprev (p o : Z) (bs : list block) : Z :=
  match bs with [] => p | b :: bs => eprev o (o + 12 + b_size b) bs end.

Fixpoint seg (m : gmap Z heap_mem) (p o : Z) (bs : list block) : Prop :=
  match bs with
  | [] => True
  | b :: bs => m !! o = Some (block_hdr b o p) ∧ seg m o (o + 12 + b_size b) bs
  end.
(** A run of blocks up to [heap_end], whose header is always used. *)
Fixpoint chain (m : gmap Z heap_mem) (p o : Z) (bs : list block) (hend : Z) : Prop :=
  match bs with
  | [] => o = hend ∧ ∃ q, m !! hend = Some (HM HEAP_MAGIC 1 hend q)
  | b :: bs => m !! o = Some (block_hdr b o p) ∧ chain m o (o + 12 + b_size b) bs hend
  end.

Fixpoint first_free (o : Z) (bs : list block) : Z :=
  match bs with
  | [] => o
  | b :: bs => if b_used b then first_free (o + 12 + b_size b) bs else o
  end.
Fixpoint used_total (bs : list block) : Z :=
  match bs with
  | [] => 0
  | b :: bs => (if b_used b then 12 + b_size b else 0) + used_total bs
  end.
(** No two neighbours are both free. *)
Fixpoint coalesced (bs : list block) : Prop :=
  match bs with
  | b :: (c :: _) as bs' => (b_used b = true ∨ b_used c = true) ∧ coalesced bs'
  | _ => True
  end.

Record heap_inv (h : heap) (bs : list block) : Prop := {
  inv_chain : chain (mem h) 0 0 bs (heap_end h);
  inv_blocks : Forall block_ok bs;
  inv_coalesced : coalesced bs;
  inv_lfree : lfree h = first_free 0 bs;
  inv_used : used_mem h = used_total bs;
  inv_size : heap_end h = mem_size_aligned h + 12;
  inv_min : 12 ≤ mem_size_aligned h;
  inv_addr : 0 ≤ heap_ptr h ∧ heap_ptr h mod 4 = 0 ∧
             heap_ptr h + heap_end h + 12 < 4294967296;
  inv_sem : heap_sem h = 1;
  inv_nest : interrupt_nest h = 0
}.

Lemma eoff_shift o bs : eoff o bs = o + eoff 0 bs.
Proof.
  revert o. induction bs as [|b bs IH]; intros o; simpl; [lia|].
  rewrite IH, (IH (0 + 12 + _)). lia.
Qed.
Lemma eoff_app o l1 l2 : eoff o (l1 ++ l2) = eoff (eoff o l1) l2.
Proof. revert o. induction l1; intros o; simpl; auto. Qed.
Lemma eprev_app p o l1 l2 : eprev p o (l1 ++ l2) = eprev (eprev p o l1) (eoff o l1) l2.
Proof. revert p o. induction l1; intros p o; simpl; auto. Qed.
Lemma eoff_ge o bs : Forall block_ok bs → o + 16 * Z.of_nat (length bs) ≤ eoff o bs.
Proof.
  intros Hf. revert o. induction Hf as [|b bs [Hb _] Hf IH]; intros o; simpl; [lia|].
  specialize (IH (o + 12 + b_size b)). lia.
Qed.
Lemma eoff_mod4 o bs : Forall block_ok bs → o mod 4 = 0 → eoff o bs mod 4 = 0.
Proof.
  intros Hf. revert o. induction Hf as [|b bs [_ Hb] Hf IH]; intros o Ho; simpl; [done|].
  apply IH. Z.div_mod_to_equations. lia.
Qed.
Lemma seg_app m p o l1 l2 :
  seg m p o (l1 ++ l2) ↔ seg m p o l1 ∧ seg m (eprev p o l1) (eoff o l1) l2.
Proof. revert p o. induction l1 as [|b l1 IH]; intros p o; simpl; [tauto|]. rewrite IH. tauto. Qed.
Lemma chain_app m p o l1 l2 hend :
  chain m p o (l1 ++ l2) hend ↔ seg m p o l1 ∧ chain m (eprev p o l1) (eoff o l1) l2 hend.
Proof. revert p o. induction l1 as [|b l1 IH]; intros p o; simpl; [tauto|]. rewrite IH. tauto. Qed.
Lemma chain_end m p o bs hend : chain m p o bs hend → eoff o bs = hend.
Proof. revert p o. induction bs; intros p o; simpl; [tauto|]. intros [_ ?]. eauto. Qed.
Lemma chain_end_hdr m p o bs hend :
  chain m p o bs hend → ∃ q, m !! hend = Some (HM HEAP_MAGIC 1 hend q).
Proof. revert p o. induction bs; intros p o; simpl; [tauto|]. intros [_ ?]. eauto. Qed.

Lemma seg_frame m m' p o bs :
  Forall block_ok bs → (∀ k, o ≤ k < eoff o bs → m' !! k = m !! k) →
  seg m p o bs → seg m' p o bs.
Proof.
  intros Hf. revert p o. induction Hf as [|b bs [Hb _] Hf IH]; intros p o Hk; simpl; [done|].
  pose proof (eoff_ge (o + 12 + b_size b) bs Hf). simpl in Hk.
  intros [Ho Hs]. rewrite Hk by lia. split; [done|]. apply IH; [|done].
  intros k ?. apply Hk. lia.
Qed.
Lemma chain_frame m m' p o bs hend :
  Forall block_ok bs → (∀ k, o ≤ k ≤ hend → m' !! k = m !! k) →
  chain m p o bs hend → chain m' p o bs hend.
Proof.
  intros Hf. revert p o. induction Hf as [|b bs [Hb _] Hf IH]; intros p o Hk; simpl.
  - intros [-> [q Hq]]. split; [done|]. exists q. rewrite Hk; [done|lia].
  - intros [Ho Hs]. pose proof (chain_end _ _ _ _ _ Hs) as E.
    pose proof (eoff_ge (o + 12 + b_size b) bs Hf).
    rewrite Hk by lia. split; [done|]. apply IH; [|done]. intros k ?. apply Hk. lia.
Qed.
(** The header behind a run: the one whose [prev] is rewritten on a relink. *)
Lemma chain_head m p o bs hend : chain m p o bs hend →
  ∃ nd, m !! o = Some nd ∧ (used nd = if bs is b :: _ then (if b_used b then 1 else 0) else 1) ∧
        next nd = if bs is b :: _ then o + 12 + b_size b else hend.
Proof. destruct bs as [|b bs]; simpl; [intros [-> [q Hq]]|intros [Hq _]]; eauto. Qed.
Lemma chain_relink m p p' o bs hend nd :
  Forall block_ok bs → chain m p o bs hend → m !! o = Some nd →
  chain (<[o := with_prev p' nd]> m) p' o bs hend.
Proof.
  intros Hf. destruct Hf as [|b bs [Hb _] Hf]; simpl.
  - intros [-> [q Hq]] Hn. simplify_eq. split; [done|]. rewrite lookup_insert_eq. eauto.
  - intros [Ho Hc] Hn. simplify_eq. rewrite lookup_insert_eq. split; [done|].
    eapply chain_frame; [done| |done]. intros k ?. rewrite lookup_insert_ne; [done|].
    pose proof (chain_end _ _ _ _ _ Hc). lia.
Qed.

Lemma first_free_app_used o l1 l2 :
  Forall (λ b, b_used b = true) l1 → first_free o (l1 ++ l2) = first_free (eoff o l1) l2.
Proof. intros Hf. revert o. induction Hf as [|b l1 Hb Hf IH]; intros o; simpl; [done|]. by rewrite Hb. Qed.
Lemma first_free_app_free o l1 l2 l2' :
  ¬ Forall (λ b, b_used b = true) l1 → first_free o (l1 ++ l2) = first_free o (l1 ++ l2').
Proof.
  revert o. induction l1 as [|b l1 IH]; intros o Hn; simpl; [by destruct Hn|].
  destruct (b_used b) eqn:E; [|done]. apply IH. intros Hf. by apply Hn; constructor.
Qed.
Lemma first_free_split o bs :
  ∃ l1 l2, bs = l1 ++ l2 ∧ Forall (λ b, b_used b = true) l1 ∧ first_free o bs = eoff o l1 ∧
    match l2 with [] => True | b :: _ => b_used b = false end.
Proof.
  revert o. induction bs as [|b bs IH]; intros o; simpl.
  - by exists [], [].
  - destruct (b_used b) eqn:E.
    + destruct (IH (o + 12 + b_size b)) as (l1 & l2 & -> & ? & ? & ?).
      exists (b :: l1), l2. split_and!; auto.
    + exists [], (b :: bs). by rewrite E.
Qed.
Lemma used_total_app l1 l2 : used_total (l1 ++ l2) = used_total l1 + used_total l2.
Proof. induction l1; simpl; lia. Qed.
Lemma used_total_range bs : Forall block_ok bs → 0 ≤ used_total bs ≤ eoff 0 bs.
Proof.
  intros Hf. induction Hf as [|b bs [Hb _] Hf IH]; simpl; [lia|].
  rewrite eoff_shift. destruct (b_used b); lia.
Qed.

(** ** Running the code on a chain *)

Lemma wp_hdr h off m (Q : heap_mem → heap → Prop) :
  mem h !! off = Some m → Q m h → wp (hdr off) Q h.
Proof. intros Hm HQ. unfold wp, hdr. by rewrite Hm. Qed.
Lemma wp_put_hdr h off m (Q : unit → heap → Prop) :
  Q tt (set_mem (<[off := m]> (mem h)) h) → wp (put_hdr off m) Q h.
Proof. done. Qed.
Lemma wp_upd_hdr h off f m (Q : unit → heap → Prop) :
  mem h !! off = Some m → Q tt (set_mem (<[off := f m]> (mem h)) h) → wp (upd_hdr off f) Q h.
Proof. intros Hm HQ. unfold upd_hdr. apply wp_bind. eapply wp_hdr; [done|]. done. Qed.

(** First fit below the bound of the loop. *)
Fixpoint abs_find (lim o size : Z) (bs : list block) : option Z :=
  match bs with
  | [] => None
  | b :: bs =>
      if o <? lim then
        if negb (b_used b) && (size <=? b_size b) then Some o
        else abs_find lim (o + 12 + b_size b) size bs
      else None
  end.
Definition fits (size : Z) (b : block) : Prop := b_used b = false ∧ size ≤ b_size b.

Lemma abs_find_Some lim o size bs r :
  abs_find lim o size bs = Some r →
  ∃ l1 b l2, bs = l1 ++ b :: l2 ∧ r = eoff o l1 ∧ fits size b ∧ Forall (λ c, ¬ fits size c) l1.
Proof.
  revert o. induction bs as [|b bs IH]; intros o; simpl; [done|].
  destruct (o <? lim); [|done].
  destruct (negb (b_used b) && (size <=? b_size b)) eqn:E.
  - intros [= <-]. apply andb_true_iff in E as [E1%negb_true_iff E2%Z.leb_le].
    by exists [], b, bs.
  - intros (l1 & c & l2 & -> & -> & ? & ?)%IH. exists (b :: l1), c, l2.
    split_and!; [done..|]. constructor; [|done]. intros [F1 F2%Z.leb_le].
    by rewrite F1, F2 in E.
Qed.
Lemma abs_find_None lim o size bs l1 b l2 :
  Forall block_ok bs → abs_find lim o size bs = None → bs = l1 ++ b :: l2 →
  fits size b → lim ≤ eoff o l1.
Proof.
  intros Hf Hn -> Hb. revert o Hn Hf. induction l1 as [|c l1 IH]; intros o; simpl.
  - destruct (Z.ltb_spec o lim); [|done]. destruct Hb as [E1 E2%Z.leb_le].
    by rewrite E1, E2.
  - intros Hn Hf. destruct (Z.ltb_spec o lim).
    + destruct (_ && _); [done|]. apply IH; [done|]. by inversion Hf.
    + apply Forall_cons in Hf as [[Hc _] Hf]. apply Forall_app in Hf as [Hf _].
      pose proof (eoff_ge (o + 12 + b_size c) l1 Hf). lia.
Qed.

Lemma malloc_find_run fuel h p o bs size :
  chain (mem h) p o bs (heap_end h) → Forall block_ok bs → (length bs < fuel)%nat →
  0 ≤ o → 12 ≤ size ≤ mem_size_aligned h → heap_end h = mem_size_aligned h + 12 →
  heap_end h + 12 < 4294967296 →
  malloc_find fuel o size h = Some (abs_find (mem_size_aligned h - size) o size bs, h).
Proof.
  intros Hc Hf. revert fuel p o Hc.
  induction Hf as [|b bs [Hb _] Hf IH]; intros [|fuel] p o; simpl; try lia.
  - intros [-> _] _ ? ? ? ?. unfold gets, mbind, M_bind. rewrite u32_small by lia.
    by rewrite (proj2 (Z.ltb_ge _ _)) by lia.
  - intros [Ho Hc] ? ? ? ? ?. pose proof (chain_end _ _ _ _ _ Hc) as E.
    pose proof (eoff_ge (o + 12 + b_size b) bs Hf).
    unfold gets, mbind, M_bind. rewrite (u32_small (_ - _)) by lia.
    destruct (Z.ltb_spec o (mem_size_aligned h - size)); [|done].
    unfold hdr. rewrite Ho. simpl. change SIZEOF_STRUCT_MEM with 12.
    rewrite (u32_small (o + 12)), u32_small by lia.
    replace (o + 12 + b_size b - (o + 12)) with (b_size b) by lia. rewrite Z.geb_leb.
    replace ((if b_used b then 1 else 0) =? 0) with (negb (b_used b)) by by destruct (b_used b).
    destruct (_ && _); [done|]. by eapply IH; eauto; lia.
Qed.

Lemma lfree_advance_run fuel h p o bs :
  chain (mem h) p o bs (heap_end h) → Forall block_ok bs → (length bs < fuel)%nat →
  lfree h = o →
  lfree_advance fuel h = Some (tt, set_lfree (first_free o bs) h).
Proof.
  intros Hc Hf. revert fuel h p o Hc.
  induction Hf as [|b bs [Hb _] Hf IH]; intros [|fuel] h p o; simpl; try lia.
  - intros [E [q Hq]] _ <-. unfold gets, hdr, mbind, M_bind, modify.
    rewrite E, Hq. simpl. rewrite Z.eqb_refl. simpl. rewrite <-E. by destruct h.
  - intros [Ho Hc] ? <-. unfold gets, hdr, mbind, M_bind, modify. rewrite Ho. simpl.
    pose proof (chain_end _ _ _ _ _ Hc) as E.
    pose proof (eoff_ge (lfree h + 12 + b_size b) bs Hf).
    rewrite (proj2 (Z.eqb_neq (lfree h) (heap_end h))) by lia.
    destruct (b_used b); simpl; [|by destruct h].
    rewrite (IH fuel _ (lfree h) (lfree h + 12 + b_size b)); [|done|lia|done].
    by destruct h.
Qed.

(** [plug_holes] on a free block whose neighbours may be free. *)
Definition join (b c : block) : block := Block (b_size b + 12 + b_size c) false.
Definition plug_fwd (b : block) (l2 : list block) : block * list block :=
  match l2 with c :: l2' => if b_used c then (b, l2) else (join b c, l2') | [] => (b, l2) end.
Definition plug_bwd (l1 : list block) (b : block) : list block * block :=
  match last l1 with
  | Some a => if b_used a then (l1, b) else (removelast l1, join a b)
  | None => (l1, b)
  end.
Definition plugged (l1 : list block) (b : block) (l2 : list block) : list block :=
  let '(b, l2) := plug_fwd b l2 in let '(l1, b) := plug_bwd l1 b in l1 ++ b :: l2.

Lemma first_free_le o l1 b l2 :
  Forall block_ok l1 → b_used b = false → first_free o (l1 ++ b :: l2) ≤ eoff o l1.
Proof.
  intros Hf Hb. revert o. induction Hf as [|c l1 [Hc _] Hf IH]; intros o; simpl.
  - rewrite Hb. lia.
  - pose proof (eoff_ge (o + 12 + b_size c) l1 Hf). destruct (b_used c); [apply IH|lia].
Qed.
Lemma chain_mid m p o l1 b l2 hend :
  chain m p o (l1 ++ b :: l2) hend →
  m !! eoff o l1 = Some (block_hdr b (eoff o l1) (eprev p o l1)) ∧
  chain m (eoff o l1) (eoff o l1 + 12 + b_size b) l2 hend.
Proof. rewrite chain_app. intros [_ [? ?]]. done. Qed.
(** Rewriting the header of a block in the middle and relinking its successor. *)
Lemma chain_replace m p q o l1 b l2 hend nd :
  Forall block_ok l1 → Forall block_ok l2 → 0 ≤ b_size b →
  seg m p o l1 → chain m q (eoff o l1 + 12 + b_size b) l2 hend →
  m !! (eoff o l1 + 12 + b_size b) = Some nd →
  chain (<[eoff o l1 + 12 + b_size b := with_prev (eoff o l1) nd]>
           (<[eoff o l1 := block_hdr b (eoff o l1) (eprev p o l1)]> m))
        p o (l1 ++ b :: l2) hend.
Proof.
  intros Hf1 Hf2 Hb Hs Hc Hn. apply chain_app.
  pose proof (chain_end _ _ _ _ _ Hc) as E.
  pose proof (eoff_ge (eoff o l1 + 12 + b_size b) l2 Hf2).
  split; [|split].
  - eapply seg_frame; [done| |done]. intros k ?. rewrite !lookup_insert_ne; [done|lia|lia].
  - by rewrite lookup_insert_ne, lookup_insert_eq by lia.
  - eapply chain_relink; [done| |by rewrite lookup_insert_ne by lia].
    eapply chain_frame; [done| |exact Hc]. intros k ?. rewrite lookup_insert_ne; [done|lia].
Qed.

Lemma plug_forward_run h l1 b l2 :
  chain (mem h) 0 0 (l1 ++ b :: l2) (heap_end h) → Forall block_ok (l1 ++ b :: l2) →
  b_used b = false → lfree h = first_free 0 (l1 ++ b :: l2) →
  wp (plug_forward (eoff 0 l1))
     (λ _ h', h' = set_mem (mem h') h ∧
        let '(b', l2') := plug_fwd b l2 in chain (mem h') 0 0 (l1 ++ b' :: l2') (heap_end h)) h.
Proof.
  intros Hc Hf Hb Hlf.
  pose proof (chain_mid _ _ _ _ _ _ _ Hc) as [Ho Hc2]. pose proof Hc as Hcc.
  apply chain_app in Hcc as [Hs _].
  apply Forall_app in Hf as [Hf1 Hf2]. apply Forall_cons in Hf2 as [[Hbs Hbm] Hf2].
  destruct (chain_head _ _ _ _ _ Hc2) as (nd & Hn & Hu & Hnx).
  unfold plug_forward. wp_simpl. eapply wp_hdr; [done|]. wp_simpl. simpl.
  eapply wp_hdr; [done|]. wp_simpl.
  rewrite (proj2 (Z.eqb_neq (eoff 0 l1) _)) by lia. simpl.
  destruct l2 as [|c l2]; [|destruct (b_used c) eqn:Ec].
  - rewrite Hu. simpl. split; [by destruct h|done].
  - rewrite Hu. simpl. try rewrite Ec. split; [by destruct h|done].
  - rewrite Hu. simpl in Hc2. destruct Hc2 as [Hc2 Hc3].
    apply Forall_cons in Hf2 as [[Hcs Hcm] Hf2].
    pose proof (chain_end _ _ _ _ _ Hc3) as E.
    pose proof (eoff_ge (eoff 0 l1 + 12 + b_size b + 12 + b_size c) l2 Hf2).
    pose proof (first_free_le 0 l1 b (c :: l2) Hf1 Hb).
    rewrite (proj2 (Z.eqb_neq _ (heap_end h))) by lia. simpl. wp_simpl.
    rewrite (proj2 (Z.eqb_neq (lfree h) _)) by lia. simpl.
    destruct (chain_head _ _ _ _ _ Hc3) as (n2 & Hn2 & _ & _).
    wp_simpl. eapply wp_upd_hdr; [done|]. wp_simpl. rewrite Hnx.
    eapply wp_upd_hdr; [simpl; rewrite lookup_insert_ne by lia; exact Hn2|]. simpl.
    split; [by destruct h|]. try rewrite Ec.
    replace (with_next (eoff 0 l1 + 12 + b_size b + 12 + b_size c)
               (block_hdr b (eoff 0 l1) (eprev 0 0 l1)))
      with (block_hdr (join b c) (eoff 0 l1) (eprev 0 0 l1)).
    2:{ unfold block_hdr, with_next. simpl. rewrite Hb. f_equal. lia. }
    replace (eoff 0 l1 + 12 + b_size b + 12 + b_size c)
      with (eoff 0 l1 + 12 + b_size (join b c)) in * by (simpl; lia).
    eapply chain_replace; [done|done|simpl; lia|done|exact Hc3|done].
Qed.

Lemma plug_backward_run h l1 b l2 :
  chain (mem h) 0 0 (l1 ++ b :: l2) (heap_end h) → Forall block_ok (l1 ++ b :: l2) →
  b_used b = false → lfree h = first_free 0 (l1 ++ b :: l2) →
  wp (plug_backward (eoff 0 l1))
     (λ _ h', h' = set_mem (mem h') h ∧
        let '(l1', b') := plug_bwd l1 b in chain (mem h') 0 0 (l1' ++ b' :: l2) (heap_end h)) h.
Proof.
  intros Hc Hf Hb Hlf.
  pose proof (chain_mid _ _ _ _ _ _ _ Hc) as [Ho Hc2]. pose proof Hc as Hcc.
  apply chain_app in Hcc as [Hs _].
  apply Forall_app in Hf as [Hf1 Hf2]. apply Forall_cons in Hf2 as [[Hbs Hbm] Hf2].
  unfold plug_backward. wp_simpl. eapply wp_hdr; [done|]. wp_simpl. simpl.
  destruct l1 as [|a l1 _] using rev_ind.
  { simpl in *. eapply wp_hdr; [done|]. wp_simpl. split; [by destruct h|done]. }
  rewrite eprev_app, eoff_app in *. simpl in *. rewrite <-app_assoc in *. simpl in *.
  apply seg_app in Hs as [Hs [Ha _]]. apply Forall_app in Hf1 as [Hf1 [[Has _] _]%Forall_cons].
  eapply wp_hdr; [exact Ha|]. wp_simpl.
  rewrite (proj2 (Z.eqb_neq (eoff 0 l1) _)) by lia. simpl.
  unfold plug_bwd. rewrite last_snoc. destruct (b_used a) eqn:Ea; simpl.
  { split; [by destruct h|]. by rewrite <-app_assoc. }
  pose proof (first_free_le 0 l1 a (b :: l2) Hf1 Ea).
  wp_simpl. rewrite (proj2 (Z.eqb_neq (lfree h) _)) by lia.
  destruct (chain_head _ _ _ _ _ Hc2) as (n2 & Hn2 & _ & _). simpl. wp_simpl.
  eapply wp_upd_hdr; [done|]. wp_simpl.
  eapply wp_upd_hdr; [simpl; rewrite lookup_insert_ne by lia; exact Hn2|]. simpl.
  split; [by destruct h|]. rewrite removelast_last.
  replace (with_next (eoff 0 l1 + 12 + b_size a + 12 + b_size b)
             (block_hdr a (eoff 0 l1) (eprev 0 0 l1)))
    with (block_hdr (join a b) (eoff 0 l1) (eprev 0 0 l1)).
  2:{ unfold block_hdr, with_next. simpl. rewrite Ea. f_equal. lia. }
  replace (eoff 0 l1 + 12 + b_size a + 12 + b_size b)
    with (eoff 0 l1 + 12 + b_size (join a b)) in * by (simpl; lia).
  eapply chain_replace; [done|done|simpl; lia|done|exact Hc2|done].
Qed.

(** ** The allocated areas: offset and size of each used block's data *)
Fixpoint allocs (o : Z) (bs : list block) : list (Z * Z) :=
  match bs with
  | [] => []
  | b :: bs => (if b_used b then [(o + 12, b_size b)] else []) ++ allocs (o + 12 + b_size b) bs
  end.
Lemma allocs_app o l1 l2 : allocs o (l1 ++ l2) = allocs o l1 ++ allocs (eoff o l1) l2.
Proof. revert o. induction l1 as [|b l1 IH]; intros o; simpl; [done|]. by rewrite IH, app_assoc. Qed.
Lemma elem_of_allocs o bs a s :
  (a, s) ∈ allocs o bs ↔
  ∃ l1 b l2, bs = l1 ++ b :: l2 ∧ b_used b = true ∧ a = eoff o l1 + 12 ∧ s = b_size b.
Proof.
  revert o. induction bs as [|b bs IH]; intros o; simpl.
  - split; [set_solver|]. by intros ([] & ? & ? & ? & _).
  - rewrite elem_of_app, IH. split.
    + intros [Hin|(l1 & c & l2 & -> & ? & ? & ?)].
      * exists [], b, bs. destruct (b_used b); set_solver.
      * by exists (b :: l1), c, l2.
    + intros ([|d l1] & c & l2 & [= -> ->] & Hc & -> & ->); simpl.
      * left. rewrite Hc. set_solver.
      * right. by exists l1, c, l2.
Qed.
Lemma allocs_bounds o bs a s :
  Forall block_ok bs → (a, s) ∈ allocs o bs → o + 12 ≤ a ∧ 4 ≤ s ∧ a + s ≤ eoff o bs.
Proof.
  intros Hf (l1 & b & l2 & -> & _ & -> & ->)%elem_of_allocs.
  apply Forall_app in Hf as [Hf1 [[Hb _] Hf2]%Forall_cons].
  pose proof (eoff_ge o l1 Hf1). rewrite eoff_app. simpl.
  pose proof (eoff_ge (eoff o l1 + 12 + b_size b) l2 Hf2). lia.
Qed.

Lemma coalesced_app l1 l2 :
  coalesced (l1 ++ l2) ↔ coalesced l1 ∧ coalesced l2 ∧
    match last l1, head l2 with
    | Some a, Some c => b_used a = true ∨ b_used c = true
    | _, _ => True
    end.
Proof.
  induction l1 as [|a [|b l1] IH]; simpl.
  - tauto.
  - destruct l2; simpl; tauto.
  - simpl in IH. rewrite IH. tauto.
Qed.

(** The free block that [rt_free] and [rt_realloc] hand to [plug_holes]. *)
Lemma plugged_facts l1 b l2 :
  b_used b = false → coalesced l1 → coalesced l2 → Forall block_ok (l1 ++ b :: l2) →
  let bs := plugged l1 b l2 in
  Forall block_ok bs ∧ coalesced bs ∧
  first_free 0 bs = first_free 0 (l1 ++ b :: l2) ∧
  used_total bs = used_total l1 + used_total l2 ∧
  allocs 0 bs = allocs 0 l1 ++ allocs (eoff 0 l1 + 12 + b_size b) l2.
Proof.
  intros Hb C1 C2 Hf bs.
  assert (∃ b' l2', plug_fwd b l2 = (b', l2') ∧ b_used b' = false ∧ block_ok b' ∧
    Forall block_ok l2' ∧ coalesced (b' :: l2') ∧
    used_total l2' = used_total l2 ∧
    ∀ o, allocs (o + 12 + b_size b') l2' = allocs (o + 12 + b_size b) l2)
    as (b' & l2' & E & Hb' & Hk & Hf2 & C & U & AL).
  { apply Forall_app in Hf as [_ [[Hs Hm] Hf]%Forall_cons].
    destruct l2 as [|c l2]; simpl; [by eexists _, _|].
    apply Forall_cons in Hf as [[Hcs Hcm] Hf].
    assert (block_ok b) by done. assert (block_ok c) by done.
    destruct (b_used c) eqn:Ec; [exists b, (c :: l2)|exists (join b c), l2].
    - assert (coalesced (b :: c :: l2)) by (split; auto).
      split_and!; auto; intros; simpl; by rewrite Ec.
    - assert (block_ok (join b c)) by (split; simpl; [lia|]; Z.div_mod_to_equations; lia).
      split_and!; auto.
      + destruct l2 as [|d l2]; [done|]. split; [right|apply C2].
        destruct C2 as [[?|?] _]; congruence.
      + intros o. simpl. f_equal. lia. }
  apply Forall_app in Hf as [Hf1 _].
  unfold bs, plugged. rewrite E. unfold plug_bwd.
  destruct l1 as [|a l1 _] using rev_ind; cbn [last app].
  { split_and!; [by constructor|done| | |]; simpl; rewrite ?Hb, ?Hb'; simpl; auto. }
  rewrite last_snoc. apply Forall_app in Hf1 as [Hf1 [[Has Ham] _]%Forall_cons].
  destruct Hk as [Hks Hkm]. apply coalesced_app in C1 as (C1 & _ & Ca). simpl in Ca.
  destruct (b_used a) eqn:Ea.
  - rewrite <-!app_assoc. simpl. split_and!.
    + apply Forall_app; split; [done|]. repeat constructor; auto.
    + apply coalesced_app. split; [done|split; [|simpl; by rewrite Ea]].
      split; [by left|done].
    + destruct (decide (Forall (λ b, b_used b = true) l1)).
      * rewrite !first_free_app_used by done. simpl. by rewrite Ea, Hb, Hb'.
      * by apply first_free_app_free.
    + rewrite !used_total_app. simpl. rewrite Ea, Hb'. lia.
    + rewrite !allocs_app, !eoff_app. simpl. rewrite Ea, Hb'. simpl.
      rewrite <-app_assoc. simpl. by rewrite AL.
  - rewrite removelast_last, <-!app_assoc. simpl. split_and!.
    + apply Forall_app; split; [done|]. constructor; [|done].
      split; simpl; [lia|]. Z.div_mod_to_equations. lia.
    + apply coalesced_app. split; [done|split; [|done]].
      destruct l2'; simpl in *; [done|]. destruct C as [[?|?] ?]; split; auto; congruence.
    + destruct (decide (Forall (λ b, b_used b = true) l1)).
      * rewrite !first_free_app_used by done. simpl. by rewrite Ea.
      * by apply first_free_app_free.
    + rewrite !used_total_app. simpl. rewrite Ea. lia.
    + rewrite !allocs_app, !eoff_app. simpl. rewrite Ea. simpl.
      rewrite app_nil_r, <-AL. f_equal. f_equal. lia.
Qed.

Lemma first_free_plug_fwd l1 b l2 : b_used b = false →
  b_used (plug_fwd b l2).1 = false ∧
  first_free 0 (l1 ++ (plug_fwd b l2).1 :: (plug_fwd b l2).2) = first_free 0 (l1 ++ b :: l2).
Proof.
  intros Hb. assert (b_used (plug_fwd b l2).1 = false) as Hb'.
  { destruct l2 as [|c l2]; simpl; [done|]. by destruct (b_used c). }
  split; [done|]. destruct (decide (Forall (λ b, b_used b = true) l1)).
  - rewrite !first_free_app_used by done. simpl. by rewrite Hb, Hb'.
  - by apply first_free_app_free.
Qed.
Lemma plug_fwd_ok b l2 : block_ok b → Forall block_ok l2 →
  block_ok (plug_fwd b l2).1 ∧ Forall block_ok (plug_fwd b l2).2.
Proof.
  intros [Hs Hm] Hf. destruct l2 as [|c l2]; simpl; [by split|].
  destruct (b_used c); [by split|]. apply Forall_cons in Hf as [[Hcs Hcm] Hf].
  split; [|done]. split; simpl; [lia|]. Z.div_mod_to_equations. lia.
Qed.

Lemma plug_holes_run h l1 b l2 :
  chain (mem h) 0 0 (l1 ++ b :: l2) (heap_end h) → Forall block_ok (l1 ++ b :: l2) →
  b_used b = false → lfree h = first_free 0 (l1 ++ b :: l2) →
  wp (plug_holes (eoff 0 l1))
     (λ _ h', h' = set_mem (mem h') h ∧
              chain (mem h') 0 0 (plugged l1 b l2) (heap_end h)) h.
Proof.
  intros Hc Hf Hb Hlf.
  pose proof (chain_mid _ _ _ _ _ _ _ Hc) as [Ho Hc2].
  pose proof (chain_end _ _ _ _ _ Hc) as E.
  assert (block_ok b ∧ Forall block_ok l1 ∧ Forall block_ok l2) as (Hk & Hf1 & Hf2).
  { apply Forall_app in Hf as [? [??]%Forall_cons]. done. }
  pose proof (eoff_ge 0 l1 Hf1). rewrite eoff_app in E. simpl in E.
  pose proof (eoff_ge (eoff 0 l1 + 12 + b_size b) l2 Hf2). destruct Hk as [Hbs Hbm].
  unfold plug_holes. wp_simpl. split; [lia|]. split; [lia|]. eapply wp_hdr; [done|].
  wp_simpl. simpl. rewrite Hb. split; [done|]. eapply wp_mono; [by apply plug_forward_run|].
  intros [] h' [Eh Hc']. destruct (first_free_plug_fwd l1 b l2 Hb) as [Hb' Hff].
  destruct (plug_fwd_ok b l2) as [Hk' Hf2']; [done..|].
  unfold plugged. destruct (plug_fwd b l2) as [b' l2'] eqn:Ep. simpl in *.
  assert (heap_end h' = heap_end h) as Ee by by rewrite Eh.
  eapply wp_mono.
  { apply plug_backward_run; [by rewrite Ee| |done|by rewrite Eh, Hff].
    apply Forall_app; auto. }
  intros [] h'' [Eh' Hc'']. rewrite Ee in Hc''. split; [|by destruct (plug_bwd l1 b')].
  rewrite Eh', Eh. by destruct h.
Qed.

(** Freeing a block moves [lfree] down to it when it lies below. *)
Lemma first_free_freed o l1 b c l2 l2' :
  Forall block_ok l1 → block_ok b → Forall block_ok l2 → b_used b = true → b_used c = false →
  first_free o (l1 ++ c :: l2') =
    if eoff o l1 <? first_free o (l1 ++ b :: l2) then eoff o l1
    else first_free o (l1 ++ b :: l2).
Proof.
  intros Hf1 [Hb _] Hf2 Hu Hc. destruct (decide (Forall (λ b, b_used b = true) l1)).
  - rewrite !first_free_app_used by done. simpl. rewrite Hu, Hc.
    destruct (first_free_split (eoff o l1 + 12 + b_size b) l2) as (m1 & m2 & -> & _ & -> & _).
    apply Forall_app in Hf2 as [Hm _]. pose proof (eoff_ge (eoff o l1 + 12 + b_size b) m1 Hm).
    rewrite (proj2 (Z.ltb_lt _ _)) by lia. done.
  - rewrite (first_free_app_free o l1 (c :: l2') (b :: l2)) by done.
    destruct (first_free_split o l1) as (m1 & m2 & -> & Hm1 & E & Hm2).
    destruct m2 as [|d m2]; [by rewrite app_nil_r in *|].
    apply Forall_app in Hf1 as [_ [[Hd _] Hf]%Forall_cons].
    assert (first_free o ((m1 ++ d :: m2) ++ b :: l2) = eoff o m1) as ->.
    { rewrite <-app_assoc, first_free_app_used by done. simpl. by rewrite Hm2. }
    rewrite eoff_app. simpl. pose proof (eoff_ge (eoff o m1 + 12 + b_size d) m2 Hf).
    rewrite (proj2 (Z.ltb_ge _ _)) by lia. done.
Qed.

(** Replacing the header of a block, its size and place kept. *)
Lemma chain_update m p o l1 b b' l2 hend :
  Forall block_ok l1 → Forall block_ok l2 → b_size b' = b_size b → 0 ≤ b_size b →
  chain m p o (l1 ++ b :: l2) hend →
  chain (<[eoff o l1 := block_hdr b' (eoff o l1) (eprev p o l1)]> m) p o (l1 ++ b' :: l2) hend.
Proof.
  intros Hf1 Hf2 Hs Hb [Hs1 [Ho Hc]]%chain_app. apply chain_app. simpl in *.
  rewrite lookup_insert_eq, Hs. split_and!; [|done|].
  - eapply seg_frame; [done| |done]. intros k ?. by rewrite lookup_insert_ne by lia.
  - eapply chain_frame; [done| |done]. intros k ?. by rewrite lookup_insert_ne by lia.
Qed.

Definition free_block (b : block) : block := Block (b_size b) false.

(** What the invariant says at a block in the middle of the heap. *)
Record at_block (h : heap) (l1 : list block) (b : block) (l2 : list block) : Prop := {
  at_ok1 : Forall block_ok l1;
  at_ok : 4 ≤ b_size b ∧ b_size b mod 4 = 0;
  at_ok2 : Forall block_ok l2;
  at_hdr : mem h !! eoff 0 l1 = Some (block_hdr b (eoff 0 l1) (eprev 0 0 l1));
  at_seg : seg (mem h) 0 0 l1;
  at_next : chain (mem h) (eoff 0 l1) (eoff 0 l1 + 12 + b_size b) l2 (heap_end h);
  at_off : 16 * Z.of_nat (length l1) ≤ eoff 0 l1 ∧ eoff 0 l1 mod 4 = 0;
  at_end : eoff (eoff 0 l1 + 12 + b_size b) l2 = heap_end h;
  at_end_le : eoff 0 l1 + 12 + b_size b + 16 * Z.of_nat (length l2) ≤ heap_end h;
  at_total1 : 0 ≤ used_total l1 ≤ eoff 0 l1;
  at_total2 : 0 ≤ used_total l2 ≤ heap_end h - (eoff 0 l1 + 12 + b_size b)
}.
Lemma chain_at h l1 b l2 :
  chain (mem h) 0 0 (l1 ++ b :: l2) (heap_end h) → Forall block_ok (l1 ++ b :: l2) →
  at_block h l1 b l2.
Proof.
  intros Hc Hf. pose proof (chain_mid _ _ _ _ _ _ _ Hc) as [Ho Hc2].
  pose proof (chain_end _ _ _ _ _ Hc) as E. apply chain_app in Hc as [Hs _].
  apply Forall_app in Hf as [Hf1 [Hk Hf2]%Forall_cons].
  rewrite eoff_app in E. simpl in E.
  pose proof (eoff_ge 0 l1 Hf1). pose proof (eoff_ge (eoff 0 l1 + 12 + b_size b) l2 Hf2).
  pose proof (eoff_mod4 0 l1 Hf1 eq_refl).
  pose proof (used_total_range l1 Hf1). pose proof (used_total_range l2 Hf2).
  pose proof (eoff_shift (eoff 0 l1 + 12 + b_size b) l2).
  constructor; auto; lia.
Qed.

(** The fields that no heap operation changes. *)
Definition same_heap (h h' : heap) : Prop :=
  heap_ptr h' = heap_ptr h ∧ heap_end h' = heap_end h ∧
  mem_size_aligned h' = mem_size_aligned h.

(** The heap inside a critical region, before [plug_holes]. *)
Record heap_open (h : heap) (bs : list block) : Prop := {
  open_chain : chain (mem h) 0 0 bs (heap_end h);
  open_blocks : Forall block_ok bs;
  open_lfree : lfree h = first_free 0 bs;
  open_used : used_mem h = used_total bs;
  open_size : heap_end h = mem_size_aligned h + 12;
  open_min : 12 ≤ mem_size_aligned h;
  open_addr : 0 ≤ heap_ptr h ∧ heap_ptr h mod 4 = 0 ∧
              heap_ptr h + heap_end h + 12 < 4294967296;
  open_sem : heap_sem h = 0;
  open_nest : interrupt_nest h = 0
}.

(** [plug_holes] closes a critical region that made block [b] free. *)
Lemma free_finish h l1 b l2 :
  heap_open h (l1 ++ b :: l2) → b_used b = false → coalesced l1 → coalesced l2 →
  wp (plug_holes (eoff 0 l1)) (λ _, wp heap_unlock
    (λ _ h', heap_inv h' (plugged l1 b l2) ∧ bytes h' = bytes h ∧ same_heap h h')) h.
Proof.
  intros [Hc Hf Hlf Hu Hsz Hmin Ha Hsem Hn] Hb Co1 Co2.
  destruct (plugged_facts l1 b l2 Hb Co1 Co2 Hf) as (F1 & F2 & F3 & F4 & _).
  rewrite used_total_app in Hu. simpl in Hu. rewrite Hb in Hu.
  unfold heap_unlock. wp_simpl. eapply wp_mono; [by apply plug_holes_run|].
  intros [] h2 [E4 Hc3]. wp_simpl. rewrite E4. unfold same_heap. simpl.
  split_and!; auto. constructor; simpl; rewrite ?Hsem; auto; lia.
Qed.

Lemma rt_free_run h l1 b l2 :
  heap_inv h (l1 ++ b :: l2) → b_used b = true →
  wp (rt_free (heap_ptr h + eoff 0 l1 + 12))
     (λ _ h', heap_inv h' (plugged l1 (free_block b) l2) ∧ bytes h' = bytes h ∧
              same_heap h h') h.
Proof.
  intros [Hc Hf Hco Hlf Hu Hsz Hmin (Ha1 & Ha2 & Ha3) Hsem Hn] Hb.
  destruct (chain_at _ _ _ _ Hc Hf) as [Hf1 Hk Hf2 Ho _ _ [Hge Hm4] _ Hle Ht1 Ht2].
  pose proof Hk as [Hbs Hbm]. apply coalesced_app in Hco as (Co1 & Co2 & _).
  assert (coalesced l2) as Co3 by (destruct l2; [done|by apply Co2]).
  assert (Forall block_ok (l1 ++ free_block b :: l2)) by (apply Forall_app; split; [done|by constructor]).
  unfold rt_free. rewrite (proj2 (Z.eqb_neq _ 0)) by lia.
  unfold RT_DEBUG_NOT_IN_INTERRUPT, heap_lock. wp_simpl.
  rewrite Hn. split; [done|]. change (RT_ALIGN_SIZE - 1) with (Z.ones 2).
  rewrite Z.land_ones by done. split; [apply Z.eqb_eq; Z.div_mod_to_equations; lia|].
  rewrite Z.geb_leb, (proj2 (Z.leb_le _ _)), (proj2 (Z.ltb_lt _ _)) by lia.
  split; [done|]. rewrite (proj2 (Z.ltb_ge _ _)), Z.geb_leb, (proj2 (Z.leb_gt _ _)) by lia.
  simpl. wp_simpl. rewrite Hsem. split; [done|].
  replace (heap_ptr h + eoff 0 l1 + 12 - SIZEOF_STRUCT_MEM - heap_ptr h) with (eoff 0 l1)
    by (change SIZEOF_STRUCT_MEM with 12; lia).
  eapply wp_hdr; [exact Ho|]. wp_simpl. simpl. rewrite Hb. split; [done|]. split; [done|].
  eapply wp_upd_hdr; [exact Ho|]. wp_simpl.
  eapply wp_upd_hdr; [apply lookup_insert_eq|]. wp_simpl. simpl.
  assert (0 ≤ b_size b) as Hb0 by lia.
  pose proof (chain_update _ _ _ _ b (free_block b) _ _ Hf1 Hf2 eq_refl Hb0 Hc) as Hc'.
  pose proof (first_free_freed 0 l1 b (free_block b) l2 l2 Hf1 Hk Hf2 Hb eq_refl) as Hff.
  rewrite <-Hlf in Hff.
  assert (u32 (used_mem h - u32 (eoff 0 l1 + 12 + b_size b - eoff 0 l1)) =
          used_total l1 + used_total l2) as Es.
  { rewrite Hu, used_total_app. simpl. rewrite Hb, (u32_small (eoff 0 l1 + _ + _ - _)) by lia.
    rewrite u32_small; lia. }
  destruct (Z.ltb_spec (eoff 0 l1) (lfree h)) as [Hl|Hl]; wp_simpl;
    (eapply wp_hdr; [apply lookup_insert_eq|]); wp_simpl; simpl; rewrite Es, insert_insert_eq;
    (eapply wp_mono; [apply (free_finish _ l1 (free_block b) l2)|]); simpl; try done;
    constructor; simpl; rewrite ?used_total_app; simpl; auto; lia.
Qed.

(** Cutting block [b] in two: [c1] keeps its header, [c2] starts behind it. *)
Lemma chain_cut m m' l1 b c1 c2 l2 hend :
  chain m 0 0 (l1 ++ b :: l2) hend → Forall block_ok (l1 ++ b :: l2) →
  4 ≤ b_size c1 → 4 ≤ b_size c2 → b_size c1 + 12 + b_size c2 = b_size b →
  let o := eoff 0 l1 in let o2 := o + 12 + b_size c1 in let o3 := o + 12 + b_size b in
  (∀ nd, m !! o3 = Some nd → m' = (if o3 =? hend then id else <[o3 := with_prev o2 nd]>)
     (<[o := block_hdr c1 o (eprev 0 0 l1)]> (<[o2 := block_hdr c2 o2 o]> m))) →
  chain m' 0 0 (l1 ++ c1 :: c2 :: l2) hend.
Proof.
  intros Hc Hf H1 H2 Hs o o2 o3 Hm.
  apply chain_app in Hc as [Hseg [_ Hc2]]. fold o o3 in Hc2.
  apply Forall_app in Hf as [Hf1 [_ Hf2]%Forall_cons].
  destruct (chain_head _ _ _ _ _ Hc2) as (nd & Hn & _ & _). rewrite (Hm nd Hn).
  apply chain_app. simpl. fold o. fold o2. unfold o2.
  replace (o + 12 + b_size c1 + 12 + b_size c2) with o3 by (unfold o3; lia). fold o2.
  assert (o < o2 < o3) as Hlt by (unfold o2, o3; lia).
  assert (∀ k, k < o ∨ o3 ≤ k → k ≠ o3 ∨ o3 = hend →
    (if o3 =? hend then id else <[o3:=with_prev o2 nd]>)
      (<[o:=block_hdr c1 o (eprev 0 0 l1)]> (<[o2:=block_hdr c2 o2 o]> m)) !! k = m !! k) as Hk.
  { intros k ??. destruct (Z.eqb_spec o3 hend); simpl; by rewrite !lookup_insert_ne by lia. }
  split_and!.
  - eapply seg_frame; [done| |done]. fold o. intros k ?. apply Hk; lia.
  - destruct (Z.eqb_spec o3 hend); simpl; rewrite ?(lookup_insert_ne _ o3) by lia;
      by rewrite lookup_insert_eq.
  - destruct (Z.eqb_spec o3 hend); simpl; rewrite ?(lookup_insert_ne _ o3) by lia;
      by rewrite lookup_insert_ne, lookup_insert_eq by lia.
  - destruct (Z.eqb_spec o3 hend) as [E|E]; simpl in *.
    + destruct l2 as [|d l2].
      * destruct Hc2 as [_ [q Hq]]. split; [done|]. exists q.
        by rewrite !lookup_insert_ne by lia.
      * pose proof (chain_end _ _ _ _ _ Hc2) as E2. simpl in E2.
        apply Forall_cons in Hf2 as [[Hd _] Hf2].
        pose proof (eoff_ge (o3 + 12 + b_size d) l2 Hf2). lia.
    + eapply chain_relink; [done| |by rewrite !lookup_insert_ne by lia].
      eapply chain_frame; [done| |exact Hc2]. intros k ?.
      by rewrite !lookup_insert_ne by lia.
Qed.

(** What [rt_malloc] makes of the block it takes. *)
Definition carve (n : Z) (b : block) : list block :=
  if n + 24 <=? b_size b then [Block n true; Block (b_size b - n - 12) false]
  else [Block (b_size b) true].

Lemma carve_facts l1 b l2 n :
  coalesced (l1 ++ b :: l2) → Forall block_ok (l1 ++ b :: l2) → fits n b →
  12 ≤ n → n mod 4 = 0 →
  ∃ sz, n ≤ sz ≤ b_size b ∧ Forall block_ok (l1 ++ carve n b ++ l2) ∧ coalesced (l1 ++ carve n b ++ l2) ∧
    used_total (l1 ++ carve n b ++ l2) = used_total l1 + (12 + sz) + used_total l2 ∧
    allocs 0 (l1 ++ carve n b ++ l2) =
      allocs 0 l1 ++ (eoff 0 l1 + 12, sz) :: allocs (eoff 0 l1 + 12 + b_size b) l2.
Proof.
  intros Hco Hf [Hb Hn] Hn12 Hn4.
  apply Forall_app in Hf as [Hf1 [[Hs Hm] Hf2]%Forall_cons].
  apply coalesced_app in Hco as (Co1 & Co2 & Co3). simpl in Co3.
  unfold carve. destruct (Z.leb_spec (n + 24) (b_size b)); simpl.
  - exists n. split; [lia|]. split_and!.
    + apply Forall_app; split; [done|]. constructor; [split; simpl; lia|].
      constructor; [|done]. split; simpl; [lia|]. Z.div_mod_to_equations. lia.
    + apply coalesced_app. split; [done|]. split; [|destruct (last l1); simpl; auto].
      split; [by left|]. destruct l2; [done|]. simpl in *.
      destruct Co2 as [[?|?] ?]; [congruence|auto].
    + rewrite used_total_app. simpl. lia.
    + rewrite allocs_app. simpl. do 2 f_equal. f_equal. lia.
  - exists (b_size b). split; [lia|]. split_and!.
    + apply Forall_app; split; [done|]. constructor; [by split|done].
    + apply coalesced_app. split; [done|]. split; [|destruct (last l1); simpl; auto].
      destruct l2; [done|]. split; [by left|apply Co2].
    + rewrite used_total_app. simpl. lia.
    + rewrite allocs_app. done.
Qed.
(** The front of a heap whose first free block is at [eoff 0 l1] is used. *)
Lemma first_free_prefix l1 b l2 :
  Forall block_ok l1 → b_used b = false →
  (first_free 0 (l1 ++ b :: l2) = eoff 0 l1 ↔ Forall (λ b, b_used b = true) l1).
Proof.
  intros Hf Hb. split; intros Hu.
  - destruct (first_free_split 0 l1) as (m1 & [|d m2] & -> & Hm1 & E & Hm2).
    { by rewrite app_nil_r. }
    rewrite <-app_assoc, first_free_app_used in Hu by done. simpl in Hu. rewrite Hm2 in Hu.
    apply Forall_app in Hf as [_ [[Hd _] Hf]%Forall_cons]. rewrite eoff_app in Hu. simpl in Hu.
    pose proof (eoff_ge (eoff 0 m1 + 12 + b_size d) m2 Hf). lia.
  - rewrite first_free_app_used by done. simpl. by rewrite Hb.
Qed.

Lemma malloc_carve_run h l1 b l2 n :
  chain (mem h) 0 0 (l1 ++ b :: l2) (heap_end h) → Forall block_ok (l1 ++ b :: l2) →
  coalesced (l1 ++ b :: l2) → fits n b → 12 ≤ n → n mod 4 = 0 →
  used_mem h = used_total (l1 ++ b :: l2) →
  heap_end h = mem_size_aligned h + 12 → heap_end h + 12 < 4294967296 →
  wp (malloc_carve (eoff 0 l1) n)
    (λ _ h', ∃ m x, h' = set_mem m (set_stats (used_total (l1 ++ carve n b ++ l2)) x h) ∧
       chain m 0 0 (l1 ++ carve n b ++ l2) (heap_end h)) h.
Proof.
  intros Hc Hf Hco Hfit Hn Hn4 Hu Hmsa Hlim.
  destruct (chain_at _ _ _ _ Hc Hf) as [Hf1 [Hbs Hbm] Hf2 Ho _ Hc2 [Hge _] _ Hle Ht1 Ht2].
  pose proof Hfit as [Hb Hfit']. rewrite used_total_app in Hu. simpl in Hu. rewrite Hb in Hu.
  unfold malloc_carve, count_used. wp_simpl. eapply wp_hdr; [exact Ho|]. wp_simpl.
  change SIZEOF_STRUCT_MEM with 12. change MIN_SIZE_ALIGNED with 12. simpl.
  rewrite (u32_small (eoff 0 l1 + 12)) by lia.
  replace (eoff 0 l1 + 12 + b_size b - (eoff 0 l1 + 12)) with (b_size b) by lia.
  rewrite (u32_small (b_size b)), (u32_small (n + 12 + 12)), Z.geb_leb by lia.
  unfold carve. replace (n + 12 + 12) with (n + 24) by lia.
  destruct (Z.leb_spec (n + 24) (b_size b)) as [Hl|Hl]; wp_simpl.
  - rewrite (u32_small (eoff 0 l1 + 12 + n)), (u32_small (n + 12)) by lia.
    apply wp_put_hdr. wp_simpl.
    replace (HM HEAP_MAGIC 0 _ _) with (block_hdr (Block (b_size b - n - 12) false)
      (eoff 0 l1 + 12 + n) (eoff 0 l1)) by (unfold block_hdr; simpl; f_equal; lia).
    eapply wp_upd_hdr; [simpl; by rewrite lookup_insert_ne by lia|].
    wp_simpl. eapply wp_upd_hdr; [apply lookup_insert_eq|]. wp_simpl. simpl.
    rewrite (u32_small (mem_size_aligned h + 12)), <-Hmsa by lia.
    destruct (chain_head _ _ _ _ _ Hc2) as (nd & Hnd & _ & _).
    pose proof (λ m' H, chain_cut (mem h) m' l1 b (Block n true) (Block (b_size b - n - 12) false)
      l2 _ Hc Hf ltac:(simpl; lia) ltac:(simpl; lia) ltac:(simpl; lia) H) as Hcut.
    simpl in Hcut. rewrite used_total_app, insert_insert_eq. simpl.
    assert (u32 (used_mem h + (n + 12)) = used_total l1 + (12 + n + (0 + used_total l2))) as Eu
      by (rewrite u32_small; lia).
    destruct (Z.eqb_spec (eoff 0 l1 + 12 + b_size b) (heap_end h)) as [E|E]; simpl; wp_simpl.
    + simpl. rewrite Eu. eexists _, _. split; [|apply Hcut; intros; reflexivity]. done.
    + eapply wp_upd_hdr; [simpl; rewrite !lookup_insert_ne by lia; exact Hnd|]. wp_simpl.
      simpl. rewrite Eu. eexists _, _.
      split; [|apply Hcut; intros ? Hx; rewrite Hnd in Hx; simplify_eq; reflexivity].
      done.
  - eapply wp_upd_hdr; [exact Ho|]. wp_simpl. simpl.
    replace (eoff 0 l1 + 12 + b_size b - eoff 0 l1) with (12 + b_size b) by lia.
    assert (u32 (used_mem h + u32 (12 + b_size b)) = used_total (l1 ++ Block (b_size b) true :: l2))
      as -> by (rewrite used_total_app; simpl; rewrite (u32_small (12 + _)) by lia;
          rewrite u32_small; lia).
    assert (0 ≤ b_size b) as Hb0 by lia.
    pose proof (chain_update _ _ _ _ b (Block (b_size b) true) _ _ Hf1 Hf2 eq_refl Hb0 Hc).
    eexists _, _. split; [|done]. done.
Qed.

Lemma malloc_lfree_run h l1 b l2 n :
  chain (mem h) 0 0 (l1 ++ carve n b ++ l2) (heap_end h) →
  Forall block_ok (l1 ++ carve n b ++ l2) → Forall block_ok l1 → b_used b = false →
  lfree h = first_free 0 (l1 ++ b :: l2) →
  wp (malloc_lfree (eoff 0 l1))
    (λ _ h', h' = set_lfree (first_free 0 (l1 ++ carve n b ++ l2)) h) h.
Proof.
  intros Hc Hf Hf1 Hb Hlf. pose proof (chain_end _ _ _ _ _ Hc) as E.
  pose proof (eoff_ge 0 _ Hf) as Hlen.
  unfold malloc_lfree, chain_fuel. wp_simpl. rewrite Hlf.
  destruct (Z.eqb_spec (eoff 0 l1) (first_free 0 (l1 ++ b :: l2))) as [Eq|Ne]; wp_simpl.
  - symmetry in Eq. rewrite first_free_prefix in Eq by done.
    pose proof Hc as [_ Hc2]%chain_app. apply Forall_app in Hf as [_ Hf2].
    erewrite wp_run; [|eapply lfree_advance_run; [exact Hc2|done| |]].
    + wp_simpl. simpl. rewrite <-first_free_app_used by done.
      destruct (first_free_split 0 (l1 ++ carve n b ++ l2)) as (m1 & m2 & Em & _ & Ef & Hm2).
      rewrite Em in Hc. apply chain_app in Hc as [_ Hc3].
      destruct (chain_head _ _ _ _ _ Hc3) as (nd & Hnd & Hu & _).
      rewrite Ef. eapply wp_hdr; [exact Hnd|]. wp_simpl. split; [|done].
      rewrite Hu. destruct m2 as [|d m2]; [|rewrite Hm2; apply orb_true_r].
      rewrite app_nil_r in Em. rewrite <-Em, E, Z.eqb_refl. done.
    + rewrite length_app in Hlen. rewrite E in Hlen. lia.
    + rewrite Hlf. by apply first_free_prefix.
  - rewrite (first_free_app_free 0 l1 (carve n b ++ l2) (b :: l2)).
    + rewrite <-Hlf. by destruct h.
    + by rewrite <-first_free_prefix by done.
Qed.

Lemma malloc_take_run h l1 b l2 n :
  chain (mem h) 0 0 (l1 ++ b :: l2) (heap_end h) → Forall block_ok (l1 ++ b :: l2) →
  coalesced (l1 ++ b :: l2) → fits n b → 12 ≤ n → n mod 4 = 0 →
  used_mem h = used_total (l1 ++ b :: l2) → lfree h = first_free 0 (l1 ++ b :: l2) →
  heap_end h = mem_size_aligned h + 12 → heap_end h + 12 < 4294967296 →
  let bs := l1 ++ carve n b ++ l2 in
  wp (malloc_take (eoff 0 l1) n)
    (λ _ h', ∃ m x,
       h' = set_lfree (first_free 0 bs) (set_mem m (set_stats (used_total bs) x h)) ∧
       chain m 0 0 bs (heap_end h)) h.
Proof.
  intros Hc Hf Hco Hfit Hn Hn4 Hu Hlf Hmsa Hlim bs.
  destruct (carve_facts l1 b l2 n Hco Hf Hfit Hn Hn4) as (sz & _ & Hf' & _).
  pose proof Hf as [Hf1 _]%Forall_app.
  unfold malloc_take. wp_simpl. eapply wp_mono; [by apply malloc_carve_run|].
  intros [] h' (m & x & -> & Hc'). wp_simpl.
  assert (∃ c, m !! eoff 0 l1 = Some (block_hdr c (eoff 0 l1) (eprev 0 0 l1))) as [c Hcc].
  { apply chain_app in Hc' as [_ Hc']. revert Hc'. unfold carve.
    destruct (_ <=? _); intros [Ho _]; eauto. }
  eapply wp_upd_hdr; [exact Hcc|]. wp_simpl.
  replace (with_magic HEAP_MAGIC _) with (block_hdr c (eoff 0 l1) (eprev 0 0 l1)) by done.
  simpl. rewrite (insert_id m) by done.
  eapply wp_mono; [by apply (malloc_lfree_run _ l1 b l2 n); simpl; destruct Hfit|].
  intros [] h' ->. exists m, x. done.
Qed.

Lemma abs_find_skip lim o size l1 l2 :
  Forall block_ok l1 → Forall block_ok l2 → Forall (λ b, b_used b = true) l1 →
  abs_find lim o size (l1 ++ l2) = abs_find lim (eoff o l1) size l2.
Proof.
  intros Hf. revert o. induction Hf as [|b l1 [Hb _] Hf IH]; intros o Hf2 Hu; simpl; [done|].
  apply Forall_cons in Hu as [Hbu Hu]. rewrite Hbu. simpl.
  destruct (Z.ltb_spec o lim); [by apply IH|].
  pose proof (eoff_ge (o + 12 + b_size b) l1 Hf).
  destruct l2 as [|c l2]; simpl; [done|]. by rewrite (proj2 (Z.ltb_ge _ _)) by lia.
Qed.

(** The search from [lfree] finds what a search of the whole heap finds. *)
Lemma malloc_find_lfree h bs n :
  chain (mem h) 0 0 bs (heap_end h) → Forall block_ok bs → lfree h = first_free 0 bs →
  heap_end h = mem_size_aligned h + 12 → 12 ≤ n ≤ mem_size_aligned h →
  heap_end h + 12 < 4294967296 →
  malloc_find (chain_fuel h) (lfree h) n h =
    Some (abs_find (mem_size_aligned h - n) 0 n bs, h).
Proof.
  intros Hc Hf Hlf Hmsa Hn Hlim.
  pose proof (chain_end _ _ _ _ _ Hc) as E. pose proof (eoff_ge 0 _ Hf) as Hlen.
  destruct (first_free_split 0 bs) as (m1 & m2 & -> & Hm1 & Ef & _).
  apply Forall_app in Hf as [Hf1 Hf2]. apply chain_app in Hc as [_ Hc2].
  rewrite length_app in Hlen. pose proof (eoff_ge 0 m1 Hf1).
  rewrite abs_find_skip, Hlf, Ef by done. unfold chain_fuel.
  eapply malloc_find_run; [done|done|lia..].
Qed.

(** The size [rt_malloc] looks for. *)
Definition request (size : Z) : Z :=
  let n := RT_ALIGN size RT_ALIGN_SIZE in if n <? MIN_SIZE_ALIGNED then MIN_SIZE_ALIGNED else n.
Lemma request_bounds size : 0 ≤ size < 4294967293 →
  12 ≤ request size ∧ size ≤ request size ∧ request size mod 4 = 0.
Proof.
  intros Hs. destruct (RT_ALIGN_4_bounds size Hs) as [Hb Hm].
  unfold request. change RT_ALIGN_SIZE with 4. change MIN_SIZE_ALIGNED with 12.
  destruct (Z.ltb_spec (RT_ALIGN size 4) 12); [|lia]. split_and!; [lia|lia|done].
Qed.

(** When [rt_malloc] gives up: any free block that would do is the last one
    of the heap and fits exactly (the loop stops short of it). *)
Definition no_fit (size : Z) (bs : list block) : Prop :=
  ∀ l1 b l2, bs = l1 ++ b :: l2 → fits (request size) b →
    l2 = [] ∧ b_size b = request size.

Lemma rt_malloc_run h bs size :
  heap_inv h bs → 0 < size < 4294967293 →
  wp (rt_malloc size) (λ p h',
    (p = 0 ∧ h' = h ∧ no_fit size bs) ∨
    ∃ l1 b l2, bs = l1 ++ b :: l2 ∧ fits (request size) b ∧
      Forall (λ c, ¬ fits (request size) c) l1 ∧ p = heap_ptr h + eoff 0 l1 + 12 ∧
      heap_inv h' (l1 ++ carve (request size) b ++ l2) ∧ bytes h' = bytes h ∧ same_heap h h') h.
Proof.
  intros Hinv Hs. pose proof Hinv as [Hc Hf Hco Hlf Hu Hmsa Hmin (Ha1 & Ha2 & Ha3) Hsem Hn].
  destruct (request_bounds size) as (Hr1 & Hr2 & Hr3); [lia|].
  destruct (RT_ALIGN_4_bounds size) as [Hal _]; [lia|].
  pose proof (chain_end _ _ _ _ _ Hc) as E. pose proof (eoff_ge 0 _ Hf) as Hlen.
  unfold rt_malloc. rewrite (proj2 (Z.eqb_neq _ _)) by lia.
  unfold RT_DEBUG_NOT_IN_INTERRUPT, heap_lock, chain_fuel. wp_simpl.
  rewrite Hn. split; [done|]. rewrite Z.gtb_ltb. fold (request size).
  destruct (Z.ltb_spec (mem_size_aligned h) (RT_ALIGN size RT_ALIGN_SIZE)) as [Hbig|Hbig]; wp_simpl.
  { left. split_and!; [done..|]. intros l1 b l2 -> [_ Hfit]. exfalso.
    destruct (chain_at _ _ _ _ Hc Hf) as [_ _ _ _ _ _ ? _ Hle _ _].
    assert (RT_ALIGN size RT_ALIGN_SIZE ≤ request size); [|lia].
    unfold request. destruct (Z.ltb_spec (RT_ALIGN size RT_ALIGN_SIZE) MIN_SIZE_ALIGNED); lia. }
  assert (request size ≤ mem_size_aligned h) as Hreq.
  { unfold request. change MIN_SIZE_ALIGNED with 12.
    destruct (Z.ltb_spec (RT_ALIGN size RT_ALIGN_SIZE) 12); lia. }
  rewrite Hsem. split; [done|].
  pose proof (malloc_find_lfree (set_sem 0 h) bs (request size)) as Hfind. simpl in Hfind.
  wp_simpl. simpl. rewrite (wp_run _ _ _ _ _ (Hfind Hc Hf Hlf Hmsa ltac:(lia) ltac:(lia))).
  destruct (abs_find _ _ _ _) as [o|] eqn:Ea.
  - apply abs_find_Some in Ea as (l1 & b & l2 & -> & -> & Hfit & Hfirst). wp_simpl.
    destruct (chain_at _ _ _ _ Hc Hf) as [_ _ _ _ _ _ [Hge Hm4] _ Hle _ _].
    eapply wp_mono; [apply (malloc_take_run _ _ b l2); simpl; auto; lia|].
    intros [] h' (m & x & -> & Hc'). unfold heap_unlock. wp_simpl. simpl.
    change SIZEOF_STRUCT_MEM with 12. change (RT_ALIGN_SIZE - 1) with (Z.ones 2).
    destruct Hfit as [Hb Hfit]. rewrite Z.land_ones by done.
    split; [apply Z.leb_le; lia|].
    split; [apply Z.eqb_eq; unfold RT_ALIGN_SIZE; Z.div_mod_to_equations; lia|].
    split; [apply Z.eqb_eq; Z.div_mod_to_equations; lia|].
    rewrite u32_small by lia. right. exists l1, b, l2.
    destruct (carve_facts l1 b l2 (request size)) as (sz & _ & Hf' & Hco' & _ & _); try done.
  - wp_simpl. unfold heap_unlock. wp_simpl. left.
    split; [done|]. split; [destruct h; simpl in *; by subst|].
    intros l1 b l2 -> Hfit. pose proof (abs_find_None _ _ _ _ _ _ _ Hf Ea eq_refl Hfit).
    destruct (chain_at _ _ _ _ Hc Hf) as [_ _ _ _ _ _ _ _ Hle _ _]. destruct Hfit.
    destruct l2; simpl in *; [|lia]. split; [done|lia].
Qed.

Lemma allocs_disjoint o bs a s a' s' :
  Forall block_ok bs → (a, s) ∈ allocs o bs → (a', s') ∈ allocs o bs →
  (a, s) = (a', s') ∨ a + s + 12 ≤ a' ∨ a' + s' + 12 ≤ a.
Proof.
  intros Hf. revert o. induction Hf as [|b bs [Hb _] Hf IH]; intros o; simpl; [set_solver|].
  destruct (b_used b); simpl; [|apply IH]. rewrite !elem_of_cons.
  intros [[= -> ->]|H1] [[= -> ->]|H2]; [by left| | |by eapply IH].
  - apply allocs_bounds in H2; [|done]. lia.
  - apply allocs_bounds in H1; [|done]. lia.
Qed.

Lemma rt_free_allocs h bs p s :
  heap_inv h bs → (p - heap_ptr h, s) ∈ allocs 0 bs →
  wp (rt_free p) (λ _ h', bytes h' = bytes h ∧ same_heap h h' ∧
    ∃ bs', heap_inv h' bs' ∧ allocs 0 bs ≡ₚ (p - heap_ptr h, s) :: allocs 0 bs') h.
Proof.
  intros Hinv Hin. pose proof (inv_blocks _ _ Hinv) as Hf. pose proof (inv_coalesced _ _ Hinv) as Hco.
  apply elem_of_allocs in Hin as (l1 & b & l2 & -> & Hb & Hp & ->).
  replace p with (heap_ptr h + eoff 0 l1 + 12) at 1 by lia.
  eapply wp_mono; [by apply rt_free_run|]. intros [] h' (Hinv' & Hbytes & Hsame).
  split_and!; [done..|]. eexists. split; [done|].
  apply Forall_app in Hf as [Hf1 [Hk Hf2]%Forall_cons].
  apply coalesced_app in Hco as (Co1 & Co2 & _).
  destruct (plugged_facts l1 (free_block b) l2) as (_ & _ & _ & _ & ->); [done|done| | |].
  - destruct l2; [done|apply Co2].
  - apply Forall_app. split; [done|by constructor].
  - rewrite allocs_app. simpl. rewrite Hb, Hp. simpl. by rewrite Permutation_middle.
Qed.

Lemma plugged_carve l1 b l2 n :
  coalesced (l1 ++ b :: l2) → b_used b = false → 
  ∃ c l2', carve n b ++ l2 = c :: l2' ∧ b_used c = true ∧
    plugged l1 (free_block c) l2' = l1 ++ b :: l2.
Proof.
  intros (_ & Co2 & Co3)%coalesced_app Hb. destruct b as [s u]. simpl in *. subst u.
  assert (∀ b', b_used b' = false → plug_bwd l1 b' = (l1, b')) as Hbwd.
  { intros b' Hb'. unfold plug_bwd. destruct (last l1) as [a|]; [|done].
    destruct Co3 as [->|?]; [done|congruence]. }
  unfold carve. simpl. destruct (Z.leb_spec (n + 24) s); eexists _, _;
    (split; [done|]); (split; [done|]); unfold plugged; simpl.
  - rewrite Hbwd by done. unfold join. simpl. do 3 f_equal. lia.
  - destruct l2 as [|d l2]; simpl; [by rewrite Hbwd|].
    destruct Co2 as [[?|Hd] _]; [congruence|]. rewrite Hd. by rewrite Hbwd.
Qed.

(** The area a request takes. *)
Lemma malloc_area h l1 b l2 size :
  heap_inv h (l1 ++ b :: l2) → fits (request size) b → 0 < size < 4294967293 →
  let p := eoff 0 l1 + 12 in
  ∃ sz, size ≤ sz ∧ allocs 0 (l1 ++ carve (request size) b ++ l2) ≡ₚ (p, sz) :: allocs 0 (l1 ++ b :: l2) ∧
    (∀ a s, (a, s) ∈ allocs 0 (l1 ++ b :: l2) → a + s ≤ p ∨ p + sz ≤ a) ∧
    12 ≤ p ∧ p mod 4 = 0 ∧ p + sz ≤ heap_end h.
Proof.
  intros Hinv Hfit Hs p. pose proof Hinv as [Hc Hf Hco _ _ _ _ (Ha1 & Ha2 & Ha3) _ _].
  destruct (chain_at _ _ _ _ Hc Hf) as [_ _ _ _ _ _ [Hge Hm4] _ Hle _ _].
  destruct (request_bounds size) as (Hr1 & Hr2 & Hr3); [lia|].
  destruct (carve_facts _ _ _ _ Hco Hf Hfit Hr1 Hr3) as (sz & Hsz & Hf' & _ & _ & Hal).
  assert (allocs 0 (l1 ++ b :: l2) =
    allocs 0 l1 ++ allocs (eoff 0 l1 + 12 + b_size b) l2) as Hal0.
  { rewrite allocs_app. simpl. destruct Hfit as [-> _]. done. }
  exists sz. split; [lia|]. split; [|split; [|split; [unfold p; lia|split; [|unfold p; lia]]]].
  - rewrite Hal, Hal0. by rewrite <-Permutation_middle.
  - intros a s Hin. rewrite Hal0 in Hin. apply elem_of_app in Hin as [Hin|Hin];
      apply allocs_bounds in Hin.
    + unfold p. lia.
    + by apply Forall_app in Hf as [? _].
    + unfold p. lia.
    + by apply Forall_app in Hf as [_ [_ ?]%Forall_cons].
  - unfold p. Z.div_mod_to_equations; lia.
Qed.
(** A large free block is enough for a request to succeed. *)
Definition has_room (room : Z) (bs : list block) : Prop :=
  ∃ b, b ∈ bs ∧ b_used b = false ∧ room ≤ b_size b.
Lemma carve_room room l1 b l2 n :
  has_room room (l1 ++ b :: l2) → 0 ≤ n → n + 24 ≤ room → has_room (room - n - 12) (l1 ++ carve n b ++ l2).
Proof.
  intros (c & Hin & Hu & Hr) H0 Hn. unfold has_room. setoid_rewrite elem_of_app. setoid_rewrite elem_of_app.
  apply elem_of_app in Hin as [Hin|[->|Hin]%elem_of_cons].
  - exists c. split; [by left|]. split; [done|lia].
  - unfold carve. rewrite (proj2 (Z.leb_le _ _)) by lia.
    exists (Block (b_size b - n - 12) false). split; [right; left; set_solver|]. simpl. split; [done|lia].
  - exists c. split; [by right; right|]. split; [done|lia].
Qed.
Lemma rt_malloc_room_run h bs size room :
  heap_inv h bs → 0 < size < 4294967293 → has_room room bs → request size + 24 ≤ room →
  wp (rt_malloc size) (λ p h', same_heap h h' ∧ ∃ bs' sz,
    heap_inv h' bs' ∧ size ≤ sz ∧ has_room (room - request size - 12) bs' ∧
    heap_ptr h < p ∧ p + sz ≤ heap_ptr h + heap_end h ∧
    allocs 0 bs' ≡ₚ (p - heap_ptr h, sz) :: allocs 0 bs ∧
    (∀ a s, (a, s) ∈ allocs 0 bs → a + s ≤ p - heap_ptr h ∨ p - heap_ptr h + sz ≤ a)) h.
Proof.
  intros Hinv Hs Hroom Hr. eapply wp_mono; [by apply rt_malloc_run|].
  intros p h' [(_ & _ & Hno)|(l1 & b & l2 & -> & Hfit & _ & Hp & Hinv' & _ & Hsame)].
  { destruct Hroom as (b & Hin & Hu & Hb). apply list_elem_of_split in Hin as (l1 & l2 & ->).
    destruct (Hno l1 b l2 eq_refl) as [_ E]; [split; [done|lia]|]. lia. }
  destruct (malloc_area h l1 b l2 size) as (sz & Hsz & Hal & Hdis & H0 & H4 & Hle); [done..|].
  assert (p - heap_ptr h = eoff 0 l1 + 12) as E by lia. split; [done|].
  pose proof (request_bounds size ltac:(lia)).
  eexists _, sz. rewrite E. split; [done|]. split; [done|]. split; [apply carve_room; [done|lia..]|].
  split; [lia|]. split; [lia|]. done.
Qed.

(** ** The contract of the allocator *)

(** C15. [rt_malloc] on a well-formed heap returns, and keeps the heap
    well formed. Either it returns NULL and changes nothing, because no free
    block is large enough (a last block of exactly the requested size is not
    considered); or the address is 4-aligned, and the allocated areas are the
    previous ones plus one of at least [size] bytes, disjoint from them all. *)
Theorem rt_malloc_allocates h bs size :
  heap_inv h bs → 0 < size < 4294967293 →
  wp (rt_malloc size) (λ p h',
    (p = 0 ∧ h' = h ∧ no_fit size bs) ∨
    (p ≠ 0 ∧ p mod 4 = 0 ∧ bytes h' = bytes h ∧ same_heap h h' ∧
     ∃ bs' sz, heap_inv h' bs' ∧ size ≤ sz ∧
       allocs 0 bs' ≡ₚ (p - heap_ptr h, sz) :: allocs 0 bs ∧
       (∀ a s, (a, s) ∈ allocs 0 bs →
          a + s ≤ p - heap_ptr h ∨ p - heap_ptr h + sz ≤ a))) h.
Proof.
  intros Hinv Hs. eapply wp_mono; [by apply rt_malloc_run|].
  intros p h' [Hnull|(l1 & b & l2 & -> & Hfit & _ & Hp & Hinv' & Hbytes & Hsame)]; [by left|right].
  destruct (malloc_area h l1 b l2 size) as (sz & Hsz & Hal & Hdis & H0 & H4 & _); [done..|].
  assert (p - heap_ptr h = eoff 0 l1 + 12) as -> by lia. rewrite Hp.
  destruct (inv_addr _ _ Hinv) as (Ha1 & Ha2 & _). split; [lia|].
  split; [Z.div_mod_to_equations; lia|]. split; [done|]. split; [done|]. by eexists _, sz.
Qed.

(** C16. [rt_free] of an allocated area removes that area, and no other,
    from the allocated ones, merges the freed block with its free neighbours,
    and leaves a well-formed heap and every byte of it in place. *)
Theorem rt_free_releases h bs p s :
  heap_inv h bs → (p - heap_ptr h, s) ∈ allocs 0 bs →
  wp (rt_free p) (λ _ h', bytes h' = bytes h ∧ same_heap h h' ∧
    ∃ bs', heap_inv h' bs' ∧ allocs 0 bs ≡ₚ (p - heap_ptr h, s) :: allocs 0 bs') h.
Proof. apply rt_free_allocs. Qed.

(** Allocating and freeing at once restores the block list: the
    split of [rt_malloc] and the merges of [plug_holes] undo each other. *)
Theorem rt_malloc_rt_free h bs size :
  heap_inv h bs → 0 < size < 4294967293 →
  wp (rt_malloc size ≫= rt_free) (λ _ h', heap_inv h' bs ∧ bytes h' = bytes h) h.
Proof.
  intros Hinv Hs. wp_simpl. eapply wp_mono; [by apply rt_malloc_run|].
  intros p h' [(-> & -> & _)|(l1 & b & l2 & -> & Hfit & _ & -> & Hinv' & Hbytes & Hsame)]; [done|].
  pose proof (inv_coalesced _ _ Hinv) as Hco.
  destruct (plugged_carve l1 b l2 (request size) Hco) as (c & l2' & Ec & Hcu & Epl);
    [apply Hfit|].
  rewrite Ec in Hinv'. destruct Hsame as [<- _].
  eapply wp_mono; [by apply rt_free_run|]. intros [] h'' (Hinv'' & Hb & _).
  rewrite Epl in Hinv''. split; [done|congruence].
Qed.

Lemma lookup_copy (src bs : gmap Z Z) d s l k :
  foldr (λ i bs, partial_alter (λ _, src !! (s + i)) (d + i) bs) bs l !! k =
  if decide (k - d ∈ l) then src !! (s + (k - d)) else bs !! k.
Proof.
  induction l as [|i l IH]; simpl.
  { done. }
  destruct (decide (k = d + i)) as [->|Hne].
  - rewrite lookup_partial_alter_eq. replace (d + i - d) with i by lia.
    by rewrite decide_True by set_solver.
  - rewrite lookup_partial_alter_ne, IH by done.
    destruct (decide (k - d ∈ l)) as [Hin|Hin].
    + rewrite decide_True by set_solver. done.
    + rewrite decide_False; [done|]. rewrite elem_of_cons. intros [?|?]; [lia|done].
Qed.
Lemma wp_rt_memcpy h d s n (Q : unit → heap → Prop) :
  (∀ bs, (∀ k, bs !! k = if decide (d ≤ k < d + n) then bytes h !! (s + (k - d))
                         else bytes h !! k) → Q tt (set_bytes bs h)) →
  wp (rt_memcpy d s n) Q h.
Proof.
  intros HQ. apply HQ. intros k. rewrite lookup_copy.
  destruct (decide (d ≤ k < d + n)).
  - rewrite decide_True; [done|]. apply elem_of_seqZ. lia.
  - rewrite decide_False; [done|]. rewrite elem_of_seqZ. lia.
Qed.

(** The result of a [rt_realloc] that did not fail. *)
Definition reallocated (h : heap) (p s : Z) (A : list (Z * Z)) (newsize r : Z) (h' : heap) : Prop :=
  r ≠ 0 ∧ same_heap h h' ∧ ∃ bs' sz, heap_inv h' bs' ∧ newsize ≤ sz ∧
    allocs 0 bs' ≡ₚ (r - heap_ptr h, sz) :: A ∧
    (∀ i, 0 ≤ i < Z.min s newsize →
       bytes h' !! (r - heap_ptr h + i) = bytes h !! (p - heap_ptr h + i)) ∧
    (∀ a t i, (a, t) ∈ A → 0 ≤ i < t → bytes h' !! (a + i) = bytes h !! (a + i)).

Lemma heap_inv_bytes h bs v : heap_inv h bs → heap_inv (set_bytes v h) bs.
Proof. intros []. by constructor. Qed.

Lemma realloc_move_run h bs p s n A :
  heap_inv h bs → allocs 0 bs ≡ₚ (p - heap_ptr h, s) :: A →
  0 < n < 4294967293 →
  wp (realloc_move p s n) (λ r h', (r = 0 ∧ h' = h) ∨ reallocated h p s A n r h') (set_sem 0 h).
Proof.
  intros Hinv HA Hn. unfold realloc_move, heap_unlock. wp_simpl. simpl.
  assert (set_sem 1 (set_sem 0 h) = h) as Es.
  { pose proof (inv_sem _ _ Hinv). destruct h; simpl in *; by subst. }
  change (0 + 1) with 1. rewrite Es. eapply wp_mono; [by apply rt_malloc_allocates|]. simpl.
  intros r h1 [(-> & -> & _)|(Hr & _ & Hbytes & Hsame & bs1 & sz & Hinv1 & Hsz & HA1 & Hdj)];
    wp_simpl; simpl; wp_simpl; [by left|].
  rewrite (proj2 (Z.eqb_neq _ _)) by done. simpl. wp_simpl.
  assert ((p - heap_ptr h, s) ∈ allocs 0 bs) as Hp by (rewrite HA; set_solver).
  pose proof Hsame as (E1 & E2 & E3).
  apply wp_rt_memcpy. intros bt Hbt. rewrite <-E1 in *.
  eapply wp_mono; [apply (rt_free_allocs _ bs1 _ s); [by apply heap_inv_bytes|]|].
  { simpl. rewrite HA1. by right. }
  intros [] h2 (Hb2 & Hsame2 & bs2 & Hinv2 & HA2). wp_simpl. right.
  simpl in *. split; [done|]. split; [destruct Hsame2 as (?&?&?); unfold same_heap; simpl in *; split_and!; congruence|].
  exists bs2, sz. split; [done|]. split; [done|]. rewrite <-E1.
  assert (∀ a t, (a, t) ∈ A → (a, t) ∈ allocs 0 bs) as HinA by (intros; rewrite HA; by right).
  split; [|split].
  - rewrite HA1, HA in HA2. apply (Permutation_cons_inv (a:=(p - heap_ptr h1, s))).
    rewrite <-HA2. apply perm_swap.
  - intros i Hi. rewrite Hb2, Hbt, decide_True; [rewrite Hbytes; f_equal; lia|].
    destruct (Z.ltb_spec s n); lia.
  - intros a t i Hin Hi. rewrite Hb2, Hbt, decide_False; [by rewrite Hbytes|].
    specialize (Hdj a t (HinA _ _ Hin)). destruct (Z.ltb_spec s n); lia.
Qed.

(** The two halves of a used block cut at [n]: the list, its facts, and
    what [plug_holes] makes of the free half. *)
Section cut.
Variables (l1 : list block) (b : block) (l2 : list block) (n : Z).
Hypotheses (Hb : b_used b = true) (Hf : Forall block_ok (l1 ++ b :: l2))
  (Hco : coalesced (l1 ++ b :: l2)) (Hn : 4 ≤ n) (Hn4 : n mod 4 = 0) (Hl : n + 24 < b_size b).
Let c1 := Block n true.
Let c2 := Block (b_size b - n - 12) false.

Lemma cut_blocks : Forall block_ok ((l1 ++ [c1]) ++ c2 :: l2).
Proof using Type*.
  apply Forall_app in Hf as [Hf1 [[? Hm] Hf2]%Forall_cons].
  rewrite <-app_assoc. apply Forall_app. split; [done|]. simpl.
  constructor; [by split|]. constructor; [split; simpl; [lia|]|done].
  Z.div_mod_to_equations; lia.
Qed.
Lemma cut_coalesced : coalesced (l1 ++ [c1]) ∧ coalesced l2.
Proof using Type*.
  apply coalesced_app in Hco as (Co1 & Co2 & _). split.
  - apply coalesced_app. split_and!; [done|done|]. simpl. destruct (last l1); auto.
  - destruct l2; [done|by apply Co2].
Qed.
Lemma cut_first_free :
  first_free 0 ((l1 ++ [c1]) ++ c2 :: l2) =
    if eoff 0 l1 + 12 + n <? first_free 0 (l1 ++ b :: l2) then eoff 0 l1 + 12 + n
    else first_free 0 (l1 ++ b :: l2).
Proof using Type*.
  pose proof cut_blocks as [Hf1 [Hc2 Hf2]%Forall_cons]%Forall_app.
  rewrite (first_free_freed 0 (l1 ++ [c1]) (Block (b_size c2) true) c2 l2 l2) by done.
  rewrite eoff_app. simpl. rewrite <-app_assoc. simpl.
  assert (first_free 0 (l1 ++ c1 :: Block (b_size b - n - 12) true :: l2) =
          first_free 0 (l1 ++ b :: l2)) as ->; [|done].
  destruct (decide (Forall (λ b, b_used b = true) l1)); [|by apply first_free_app_free].
  rewrite !first_free_app_used by done. simpl. rewrite Hb. f_equal. lia.
Qed.
Lemma cut_allocs A o : o = eoff 0 l1 + 12 →
  allocs 0 (l1 ++ b :: l2) ≡ₚ (o, b_size b) :: A →
  allocs 0 (plugged (l1 ++ [c1]) c2 l2) ≡ₚ (o, n) :: A.
Proof using Type*.
  intros -> HA. destruct cut_coalesced as [Co1 Co2].
  destruct (plugged_facts (l1 ++ [c1]) c2 l2 eq_refl Co1 Co2 cut_blocks)
    as (_ & _ & _ & _ & ->).
  rewrite eoff_app, allocs_app. simpl.
  apply (Permutation_cons_inv (a:=(eoff 0 l1 + 12, b_size b))). rewrite perm_swap, <-HA.
  rewrite allocs_app. simpl. rewrite Hb. simpl.
  replace (eoff 0 l1 + 12 + n + 12 + (b_size b - n - 12)) with (eoff 0 l1 + 12 + b_size b) by lia.
  rewrite <-!app_assoc. simpl. rewrite <-!Permutation_middle. apply perm_swap.
Qed.

Lemma realloc_finish h h1 p A :
  heap_open h1 ((l1 ++ [c1]) ++ c2 :: l2) → bytes h1 = bytes h → same_heap h h1 →
  p = heap_ptr h + eoff 0 l1 + 12 → 0 ≤ heap_ptr h →
  allocs 0 (l1 ++ b :: l2) ≡ₚ (p - heap_ptr h, b_size b) :: A →
  wp (plug_holes (eoff 0 l1 + 12 + n)) (λ _, wp (heap_unlock;; mret p)
    (λ r h', reallocated h p (b_size b) A n r h')) h1.
Proof using Type*.
  intros Hop Hby (E1 & E2 & E3) Hp Hge HA. destruct cut_coalesced as [Co1 Co2].
  pose proof Hf as [Hf1 _]%Forall_app. pose proof (eoff_ge 0 l1 Hf1).
  replace (eoff 0 l1 + 12 + n) with (eoff 0 (l1 ++ [c1])) by (rewrite eoff_app; simpl; lia).
  eapply wp_mono; [by apply (free_finish h1 (l1 ++ [c1]) c2 l2)|].
  intros [] h2 Hh2. wp_simpl. eapply wp_mono; [exact Hh2|].
  intros [] h3 (Hi3 & Hb3 & (E4 & E5 & E6)). wp_simpl.
  split; [lia|]. split; [unfold same_heap; split_and!; congruence|].
  eexists _, n. split; [done|]. split; [done|]. split; [|rewrite Hb3, Hby; done].
  apply cut_allocs; [lia|done].
Qed.
End cut.

Lemma realloc_split_run h l1 b l2 p n A :
  heap_inv h (l1 ++ b :: l2) → b_used b = true →
  allocs 0 (l1 ++ b :: l2) ≡ₚ (p - heap_ptr h, b_size b) :: A →
  p = heap_ptr h + eoff 0 l1 + 12 → 4 ≤ n → n mod 4 = 0 → n + 24 < b_size b →
  wp (realloc_split p (eoff 0 l1) (b_size b) n)
     (λ r h', reallocated h p (b_size b) A n r h') (set_sem 0 h).
Proof.
  intros [Hc Hf Hco Hlf Hu Hmsa Hmin (Ha1 & Ha2 & Ha3) Hsem Hn0] Hb HA Hp Hn Hn4 Hl.
  destruct (chain_at _ _ _ _ Hc Hf) as [Hf1 [Hbs Hbm] Hf2 Ho _ Hc2 [Hge _] _ Hle Ht1 Ht2].
  pose proof (cut_blocks l1 b l2 n Hb Hf Hco Hn Hn4 Hl) as Hf'.
  pose proof (cut_first_free l1 b l2 n Hb Hf Hco Hn Hn4 Hl) as Hff. rewrite <-Hlf in Hff.
  pose proof (λ h1, realloc_finish l1 b l2 n Hb Hf Hco Hn Hn4 Hl h h1 p A) as Hfin.
  set (c1 := Block n true) in *. set (c2 := Block (b_size b - n - 12) false) in *.
  rewrite used_total_app in Hu. simpl in Hu. rewrite Hb in Hu.
  destruct (chain_head _ _ _ _ _ Hc2) as (nd & Hnd & _ & _).
  pose proof (λ m' H, chain_cut (mem h) m' l1 b c1 c2
      l2 _ Hc Hf ltac:(simpl; lia) ltac:(simpl; lia) ltac:(simpl; lia) H) as Hcut.
  unfold realloc_split. wp_simpl. simpl. eapply wp_hdr; [exact Ho|]. wp_simpl. simpl.
  change SIZEOF_STRUCT_MEM with 12.
  rewrite (u32_small (eoff 0 l1 + 12 + n)), (u32_small (mem_size_aligned h + 12)), <-Hmsa by lia.
  apply wp_put_hdr. wp_simpl.
  replace (HM HEAP_MAGIC 0 _ _) with (block_hdr c2 (eoff 0 l1 + 12 + n) (eoff 0 l1))
    by (unfold block_hdr; simpl; f_equal; lia).
  eapply wp_upd_hdr; [simpl; rewrite lookup_insert_ne by lia; exact Ho|]. wp_simpl. simpl.
  replace (with_next _ _) with (block_hdr c1 (eoff 0 l1) (eprev 0 0 l1))
    by (unfold block_hdr; simpl; by rewrite Hb).
  assert (u32 (used_mem h - u32 (b_size b - n)) =
          used_total ((l1 ++ [c1]) ++ c2 :: l2)) as Eu.
  { rewrite !used_total_app. simpl. rewrite (u32_small (b_size b - n)), u32_small; lia. }
  destruct (Z.eqb_spec (eoff 0 l1 + 12 + b_size b) (heap_end h)) as [E|E]; simpl; wp_simpl;
    [|eapply wp_upd_hdr; [simpl; rewrite !lookup_insert_ne by lia; exact Hnd|]; wp_simpl];
    simpl; rewrite Eu; destruct (eoff 0 l1 + 12 + n <? lfree h); wp_simpl.
  all: apply Hfin; [|done..].
  all: constructor; simpl; auto.
  all: rewrite <-app_assoc; simpl; apply Hcut; intros ? Hx.
  all: rewrite Hnd in Hx; simplify_eq; reflexivity.
Qed.

Lemma reallocated_weaken h p s A n n' r h' :
  n' ≤ n → reallocated h p s A n r h' → reallocated h p s A n' r h'.
Proof.
  intros ? (? & ? & bs' & sz & ? & ? & ? & Hd & ?). split; [done|]. split; [done|].
  exists bs', sz. split; [done|]. split; [lia|]. split; [done|]. split; [|done].
  intros i ?. apply Hd. lia.
Qed.

(** C17. [rt_realloc] of an allocated area returns; on failure nothing
    changes, otherwise the area is replaced by one of at least [newsize]
    bytes that starts with the old contents, and all other areas keep their
    place and contents. *)
Theorem rt_realloc_keeps_data h bs p s A newsize :
  heap_inv h bs → allocs 0 bs ≡ₚ (p - heap_ptr h, s) :: A → 0 < newsize < 4294967293 →
  wp (rt_realloc p newsize)
     (λ r h', (r = 0 ∧ h' = h) ∨ reallocated h p s A newsize r h') h.
Proof.
  intros Hinv HA Hn. pose proof Hinv as [Hc Hf Hco Hlf Hu Hmsa Hmin (Ha1 & Ha2 & Ha3) Hsem Hn0].
  assert ((p - heap_ptr h, s) ∈ allocs 0 bs) as Hin by (rewrite HA; by left).
  apply elem_of_allocs in Hin as (l1 & b & l2 & -> & Hb & Hp & ->).
  destruct (chain_at _ _ _ _ Hc Hf) as [Hf1 [Hbs Hbm] Hf2 Ho _ Hc2 [Hge _] _ Hle Ht1 Ht2].
  destruct (RT_ALIGN_4_bounds newsize) as [Hr1 Hr2]; [lia|].
  unfold rt_realloc, RT_DEBUG_NOT_IN_INTERRUPT, heap_lock. change RT_ALIGN_SIZE with 4 in *.
  set (n := RT_ALIGN newsize 4) in *. wp_simpl. rewrite Hn0. split; [done|].
  rewrite Z.gtb_ltb. destruct (Z.ltb_spec (mem_size_aligned h) n); wp_simpl; [by left|].
  rewrite (proj2 (Z.eqb_neq n 0)), (proj2 (Z.eqb_neq p 0)) by lia. wp_simpl.
  rewrite Hsem. split; [done|]. simpl.
  rewrite (proj2 (Z.ltb_ge _ _)), Z.geb_leb, (proj2 (Z.leb_gt _ _)) by lia. simpl. wp_simpl.
  change SIZEOF_STRUCT_MEM with 12. replace (p - 12 - heap_ptr h) with (eoff 0 l1) by lia.
  eapply wp_hdr; [exact Ho|]. wp_simpl. simpl.
  replace (eoff 0 l1 + 12 + b_size b - eoff 0 l1) with (12 + b_size b) by lia.
  rewrite (u32_small (12 + _)), (u32_small (12 + b_size b - 12)) by lia.
  replace (12 + b_size b - 12) with (b_size b) by lia. change MIN_SIZE with 12.
  rewrite (u32_small (n + 12 + 12)) by lia.
  destruct (Z.eqb_spec (b_size b) n) as [Eq|Ne].
  { unfold heap_unlock. wp_simpl. right. simpl.
    change (1 - 1 + 1) with 1. change (1 - 1) with 0.
    assert (set_sem 1 (set_sem 0 h) = h) as -> by (destruct h; simpl in *; by subst).
    split; [lia|]. split; [done|]. eexists _, (b_size b). split; [done|]. split; [lia|].
    by split. }
  destruct (Z.ltb_spec (n + 12 + 12) (b_size b)).
  - eapply wp_mono; [apply (realloc_split_run h l1 b l2 p n A); try done; try lia|].
    + Z.div_mod_to_equations; lia.
    + intros r h' Hr. right. eapply reallocated_weaken; [|done]. lia.
  - eapply wp_mono; [by apply (realloc_move_run h (l1 ++ b :: l2) p (b_size b) n A); [..|lia]|].
    intros r h' [?|?]; [by left|right]. eapply reallocated_weaken; [|done]. lia.
Qed.

(** [rt_system_heap_init] on a region of at least 36 aligned bytes
    builds a well-formed heap of one free block that spans it. *)
Theorem rt_system_heap_init_inv h begin_addr end_addr :
  0 ≤ begin_addr < 4294967000 → 0 ≤ end_addr < 4294967296 →
  RT_ALIGN begin_addr 4 + 36 ≤ RT_ALIGN_DOWN end_addr 4 →
  interrupt_nest h = 0 → used_mem h = 0 →
  wp (rt_system_heap_init begin_addr end_addr)
     (λ _ h', heap_inv h' [Block (RT_ALIGN_DOWN end_addr 4 - RT_ALIGN begin_addr 4 - 24) false] ∧
              heap_ptr h' = RT_ALIGN begin_addr 4) h.
Proof.
  intros Hb He Hgap Hn Hu.
  destruct (RT_ALIGN_4_bounds begin_addr) as [Hr1 Hr2]; [lia|].
  rewrite RT_ALIGN_DOWN_4 in * by lia.
  unfold rt_system_heap_init, RT_DEBUG_NOT_IN_INTERRUPT. change RT_ALIGN_SIZE with 4.
  rewrite RT_ALIGN_DOWN_4 by lia. set (e := end_addr - end_addr mod 4) in *.
  assert (e ≤ end_addr ∧ e mod 4 = 0) as [He1 He2].
  { unfold e. split; Z.div_mod_to_equations; lia. }
  set (bg := RT_ALIGN begin_addr 4) in *. change (2 * SIZEOF_STRUCT_MEM) with 24.
  wp_simpl. rewrite Hn. split; [done|]. rewrite Z.gtb_ltb, Z.geb_leb.
  rewrite (proj2 (Z.ltb_lt _ _)), (proj2 (Z.leb_le _ _)) by lia. simpl. wp_simpl.
  change SIZEOF_STRUCT_MEM with 12. rewrite (u32_small (e - bg - 24)) by lia.
  rewrite u32_small by lia. split; [|done].
  assert (block_ok (Block (e - bg - 24) false)).
  { split; simpl; [lia|]. clear -He2 Hr2. Z.div_mod_to_equations; lia. }
  constructor; simpl; auto; try lia.
  rewrite lookup_insert_ne, lookup_insert_eq by lia.
  replace (12 + (e - bg - 24)) with (e - bg - 24 + 12) by lia.
  split; [unfold block_hdr; simpl; do 2 f_equal; lia|]. split; [lia|].
  exists (e - bg - 24 + 12). by rewrite lookup_insert_eq.
Qed.

(** The three largest sizes wrap to 0 in [RT_ALIGN]: such a request is
    served with an area of 12 bytes. *)
Theorem rt_malloc_size_wraps h bs size :
  heap_inv h bs → 4294967293 ≤ size < 4294967296 → rt_malloc size h = rt_malloc 1 h.
Proof.
  intros Hinv Hs. pose proof (inv_min _ _ Hinv). unfold rt_malloc.
  rewrite (proj2 (Z.eqb_neq size 0)) by lia. simpl (1 =? 0).
  change RT_ALIGN_SIZE with 4. rewrite RT_ALIGN_4_wrap by lia.
  change (RT_ALIGN 1 4) with 4. unfold RT_DEBUG_NOT_IN_INTERRUPT, gets, mbind, M_bind, RT_ASSERT.
  rewrite (inv_nest _ _ Hinv). simpl. rewrite !Z.gtb_ltb.
  rewrite (proj2 (Z.ltb_ge _ 0)), (proj2 (Z.ltb_ge _ 4)) by lia. done.
Qed.

(** ** Concrete runs *)
Definition heap0 : heap := Heap ∅ ∅ 0 0 0 0 0 0 0 0.
(** A heap of 268 bytes at address 1000, after three allocations. *)
Definition run {A} (m : heapM A) (h : heap) : heap :=
  match m h with Some (_, h') => h' | None => h end.
Definition heap1 : heap := run (rt_system_heap_init 1000 1292) heap0.
Definition blocks1 : list block := [Block 268 false].
Definition heap2 : heap := run (rt_malloc 40) heap1.
Definition blocks2 : list block := [Block 40 true; Block 216 false].

Lemma heap1_inv : heap_inv heap1 blocks1.
Proof.
  constructor; try by vm_compute.
  - vm_compute. split; [done|]. split; [done|]. by eexists.
  - repeat constructor; vm_compute; congruence.
Defined.
Lemma heap2_inv : heap_inv heap2 blocks2.
Proof.
  constructor; try by vm_compute.
  - vm_compute. split; [done|]. split; [done|]. split; [done|]. by eexists.
  - repeat constructor; vm_compute; congruence.
  - simpl. auto.
Defined.

Lemma rt_malloc_allocates_witness :
  ∃ p h', rt_malloc 40 heap1 = Some (p, h') ∧ p = 1012 ∧
    wp (rt_malloc 40) (λ p h',
    (p = 0 ∧ h' = heap1 ∧ no_fit 40 blocks1) ∨
    (p ≠ 0 ∧ p mod 4 = 0 ∧ bytes h' = bytes heap1 ∧ same_heap heap1 h' ∧
     ∃ bs' sz, heap_inv h' bs' ∧ 40 ≤ sz ∧
       allocs 0 bs' ≡ₚ (p - heap_ptr heap1, sz) :: allocs 0 blocks1 ∧
       (∀ a s, (a, s) ∈ allocs 0 blocks1 →
          a + s ≤ p - heap_ptr heap1 ∨ p - heap_ptr heap1 + sz ≤ a))) heap1.
Proof.
  eexists _, _. split; [by vm_compute|]. split; [by vm_compute|].
  apply rt_malloc_allocates; [exact heap1_inv|lia].
Defined.
Lemma rt_free_releases_witness :
  wp (rt_free 1012) (λ _ h', bytes h' = bytes heap2 ∧ same_heap heap2 h' ∧
    ∃ bs', heap_inv h' bs' ∧
      allocs 0 blocks2 ≡ₚ (1012 - heap_ptr heap2, 40) :: allocs 0 bs') heap2.
Proof. apply rt_free_releases; [exact heap2_inv|vm_compute; by left]. Defined.
Lemma rt_malloc_rt_free_witness :
  wp (rt_malloc 40 ≫= rt_free) (λ _ h', heap_inv h' blocks2 ∧ bytes h' = bytes heap2) heap2.
Proof. apply rt_malloc_rt_free; [exact heap2_inv|lia]. Defined.
Lemma rt_realloc_keeps_data_witness :
  wp (rt_realloc 1012 80)
     (λ r h', (r = 0 ∧ h' = heap2) ∨ reallocated heap2 1012 40 [] 80 r h') heap2.
Proof.
  apply (rt_realloc_keeps_data heap2 blocks2); [exact heap2_inv| |lia].
  vm_compute. reflexivity.
Defined.
Lemma rt_system_heap_init_inv_witness :
  wp (rt_system_heap_init 1000 1292)
     (λ _ h', heap_inv h' [Block (RT_ALIGN_DOWN 1292 4 - RT_ALIGN 1000 4 - 24) false] ∧
              heap_ptr h' = RT_ALIGN 1000 4) heap0.
Proof. apply rt_system_heap_init_inv; [lia|lia|vm_compute; congruence|done|done]. Defined.
Lemma rt_malloc_size_wraps_witness : rt_malloc 4294967295 heap1 = rt_malloc 1 heap1.
Proof. apply (rt_malloc_size_wraps heap1 blocks1); [exact heap1_inv|lia]. Defined.
