(* ===== verification/BufHeap.v ===== *)
(** Buffers on the heap: the creation and the end of ring buffers (ringbuffer.c) and of block ring
    buffers (ringblk_buf.c) of components/drivers/src. [owns] says which areas
    of the heap are allocated; both kinds of buffers give back what they took. *)
From S2P Require Import Prelude Mem RingBuffer RingBlk.

(** struct rt_ringbuffer, struct rt_rbb and struct rt_rbb_blk, in bytes. *)
Definition sizeof_rt_ringbuffer : Z := 12.
Definition sizeof_rt_rbb : Z := 20.
Definition sizeof_rt_rbb_blk : Z := 12.

(** The result is the address of the structure, that of the pool, and the structure; None is
    RT_NULL. [pool] is what the memory of the pool holds. *)
Definition rt_ringbuffer_create (size : Z) (pool : list Z) : heapM (option (Z * Z * rt_ringbuffer)) :=
  RT_ASSERT (0 <? size);;
  let size := u16 (RT_ALIGN_DOWN size RT_ALIGN_SIZE) in
  rb ← rt_malloc sizeof_rt_ringbuffer;
  if rb =? 0 then mret None else
  buffer_ptr ← rt_malloc size;
  if buffer_ptr =? 0 then rt_free rb;; mret None else
  r ← lift (rt_ringbuffer_init pool size);
  mret (Some (rb, buffer_ptr, r)).
Definition rt_ringbuffer_destroy (rb buffer_ptr : Z) : heapM unit :=
  RT_ASSERT (negb (rb =? 0));;
  rt_free buffer_ptr;;
  rt_free rb.

(** The address of the structure, that of the descriptors, and the structure. [set] is what the
    memory of the descriptors holds. *)
Definition rt_rbb_create (buf_size : Z) (blk_max_num : nat) (set : list rt_rbb_blk) : heapM (option (Z * Z * rt_rbb)) :=
  rbb ← rt_malloc sizeof_rt_rbb;
  if rbb =? 0 then mret None else
  buf ← rt_malloc buf_size;
  if buf =? 0 then rt_free rbb;; mret None else
  blk_set ← rt_malloc (u32 (sizeof_rt_rbb_blk * Z.of_nat blk_max_num));
  if blk_set =? 0 then rt_free buf;; rt_free rbb;; mret None else
  r ← lift (snd <$> rt_rbb_init buf buf_size set blk_max_num (Rbb 0 0 [] 0 []));
  mret (Some (rbb, blk_set, r)).
Definition rt_rbb_destroy (rbb blk_set : Z) (r : rt_rbb) : heapM unit :=
  RT_ASSERT (negb (rbb =? 0));;
  rt_free (rbb_buf r);;
  rt_free blk_set;;
  rt_free rbb.

(** * Ownership of areas *)

(** The heap is well formed and its allocated areas are [A]: addresses and sizes. *)
Definition owns (h : heap) (A : list (Z * Z)) : Prop :=
  ∃ bs, heap_inv h bs ∧ (λ x, (heap_ptr h + x.1, x.2)) <$> allocs 0 bs ≡ₚ A.
#[export] Instance owns_proper h : Proper ((≡ₚ) ==> iff) (owns h).
Proof. intros A B E. unfold owns. by setoid_rewrite E. Qed.

Section owns.
Implicit Types (h : heap) (A : list (Z * Z)).

Lemma malloc_owns h A size :
  owns h A → 0 ≤ size < 4294967293 →
  wp (rt_malloc size) (λ p h', (p = 0 ∧ h' = h) ∨ (p ≠ 0 ∧ 0 < size ∧ ∃ s, size ≤ s ∧ owns h' ((p, s) :: A))) h.
Proof.
  intros (bs & Hinv & HA) Hs. destruct (decide (size = 0)) as [->|Hne]; [by left|].
  eapply wp_mono; [apply rt_malloc_run; [done|lia]|].
  intros p h' [(-> & -> & _)|(l1 & b & l2 & -> & Hfit & _ & Hp & Hinv' & _ & Hsame)]; [by left|right].
  destruct (malloc_area h l1 b l2 size) as (s & Hle & Hal & _ & H0 & _); [done|done|lia|].
  destruct (inv_addr _ _ Hinv) as (? & _). split_and!; [lia..|]. exists s. split; [done|]. eexists. split; [done|].
  destruct Hsame as (Ehp & _). rewrite Ehp, Hal. simpl. rewrite HA. by replace (heap_ptr h + (eoff 0 l1 + 12)) with p by lia.
Qed.
Lemma free_owns h A p s : owns h ((p, s) :: A) → wp (rt_free p) (λ _ h', owns h' A) h.
Proof.
  intros (bs & Hinv & HA).
  assert ((p - heap_ptr h, s) ∈ allocs 0 bs) as Hin.
  { assert ((p, s) ∈ (λ x, (heap_ptr h + x.1, x.2)) <$> allocs 0 bs) as Hin by (rewrite HA; by left).
    apply list_elem_of_fmap in Hin as ([o s'] & [= -> ->] & Hin). by replace (heap_ptr h + o - heap_ptr h) with o by lia. }
  eapply wp_mono; [by eapply rt_free_allocs|]. intros [] h' (_ & (Ehp & _) & bs' & Hinv' & Hal).
  exists bs'. split; [done|]. rewrite Ehp. rewrite Hal in HA. simpl in HA.
  replace (heap_ptr h + (p - heap_ptr h)) with p in HA by lia. by apply (inj (cons (p, s))) in HA.
Qed.
End owns.

(** * Creation and end *)

Section buffers.
Implicit Types (h : heap) (A : list (Z * Z)).

Lemma rt_ringbuffer_create_run h A size pool :
  owns h A → 0 < size < 65536 →
  wp (rt_ringbuffer_create size pool) (λ o h', match o with
    | None => owns h' A
    | Some (rb, buffer_ptr, r) => rb ≠ 0 ∧ rt_ringbuffer_init pool (RT_ALIGN_DOWN size RT_ALIGN_SIZE) = Some r ∧
        ∃ s1 s2, sizeof_rt_ringbuffer ≤ s1 ∧ RT_ALIGN_DOWN size RT_ALIGN_SIZE ≤ s2 ∧
          owns h' ((buffer_ptr, s2) :: (rb, s1) :: A)
    end) h.
Proof.
  intros HA Hs. change RT_ALIGN_SIZE with 4. 
  assert (0 ≤ RT_ALIGN_DOWN size 4 ≤ size ∧ u16 (RT_ALIGN_DOWN size 4) = RT_ALIGN_DOWN size 4) as [Hd Eu].
  { rewrite RT_ALIGN_DOWN_4 by lia. split; [Z.div_mod_to_equations; lia|]. apply u16_small. Z.div_mod_to_equations; lia. }
  unfold rt_ringbuffer_create. change RT_ALIGN_SIZE with 4. wp_simpl. split; [lia|]. rewrite Eu.
  eapply wp_mono; [by apply malloc_owns|]. intros rb h1 [[-> ->]|(Hrb & _ & s1 & Hs1 & HA1)]; [by simpl; wp_simpl|].
  rewrite (proj2 (Z.eqb_neq _ _) Hrb). wp_simpl.
  eapply wp_mono; [apply malloc_owns; [done|lia]|]. intros p h2 [[-> ->]|(Hp & Hd0 & s2 & Hs2 & HA2)].
  - simpl. wp_simpl. eapply wp_mono; [by eapply free_owns|]. intros [] h3 HA3. by wp_simpl.
  - rewrite (proj2 (Z.eqb_neq _ _) Hp). wp_simpl. unfold rt_ringbuffer_init.
    rewrite (proj2 (Z.gtb_lt _ _) Hd0). wp_simpl. split_and!; [done..|]. by exists s1, s2.
Qed.
Lemma rt_rbb_create_run h A buf_size blk_max_num set :
  owns h A → 0 ≤ buf_size < 4294967293 → 12 * Z.of_nat blk_max_num < 4294967293 → length set = blk_max_num →
  wp (rt_rbb_create buf_size blk_max_num set) (λ o h', match o with
    | None => owns h' A
    | Some (rbb, blk_set, r) => rbb ≠ 0 ∧
        (∃ r0, wp (rt_rbb_init (rbb_buf r) buf_size set blk_max_num) (λ _ r', r' = r) r0) ∧
        ∃ s1 s2 s3, sizeof_rt_rbb ≤ s1 ∧ buf_size ≤ s2 ∧ sizeof_rt_rbb_blk * Z.of_nat blk_max_num ≤ s3 ∧
          owns h' ((blk_set, s3) :: (rbb_buf r, s2) :: (rbb, s1) :: A)
    end) h.
Proof.
  intros HA Hb Hn Hlen. unfold rt_rbb_create. change sizeof_rt_rbb_blk with 12. rewrite u32_small by lia. wp_simpl.
  eapply wp_mono; [by apply malloc_owns|]. intros rb h1 [[-> ->]|(Hrb & _ & s1 & Hs1 & HA1)]; [by simpl; wp_simpl|].
  rewrite (proj2 (Z.eqb_neq _ _) Hrb). wp_simpl.
  eapply wp_mono; [by apply malloc_owns|]. intros buf h2 [[-> ->]|(Hbuf & _ & s2 & Hs2 & HA2)].
  { simpl. wp_simpl. eapply wp_mono; [by eapply free_owns|]. intros [] h3 HA3. by wp_simpl. }
  rewrite (proj2 (Z.eqb_neq _ _) Hbuf). wp_simpl.
  eapply wp_mono; [apply malloc_owns; [done|lia]|]. intros p h3 [[-> ->]|(Hp & _ & s3 & Hs3 & HA3)].
  { simpl. wp_simpl. eapply wp_mono; [by eapply free_owns|]. intros [] h3 HA3. wp_simpl.
    eapply wp_mono; [by eapply free_owns|]. intros [] h4 HA4. by wp_simpl. }
  rewrite (proj2 (Z.eqb_neq _ _) Hp). wp_simpl.
  assert (wp (rt_rbb_init buf buf_size set blk_max_num) (λ _ r', rbb_buf r' = buf) (Rbb 0 0 [] 0 [])) as Hinit.
  { unfold rt_rbb_init. wp_simpl. split; [by rewrite (proj2 (Z.eqb_neq _ _) Hbuf)|].
    eapply wp_mono; [apply init_loop_run; simpl; lia|]. by intros [] r' [_ ->]. }
  unfold wp in Hinit at 1. destruct (rt_rbb_init buf _ _ _ _) as [[[] r]|] eqn:E; [|done]. simpl. wp_simpl.
  subst buf. split_and!; [done| |by exists s1, s2, s3].
  exists (Rbb 0 0 [] 0 []). by rewrite (wp_run _ _ _ _ _ E).
Qed.

(** C40. Creating a buffer and destroying it leaves the heap with the areas it had, whatever the
    size and wherever the memory ends: neither a creation that fails half way nor a buffer
    that is destroyed leaks. *)
Theorem buffers_do_not_leak h A size pool buf_size blk_max_num set :
  owns h A → 0 < size < 65536 → 0 ≤ buf_size < 4294967293 →
  12 * Z.of_nat blk_max_num < 4294967293 → length set = blk_max_num →
  wp (o ← rt_ringbuffer_create size pool;
      match o with Some (rb, buffer_ptr, _) => rt_ringbuffer_destroy rb buffer_ptr | None => mret tt end)
     (λ _ h', owns h' A) h ∧
  wp (o ← rt_rbb_create buf_size blk_max_num set;
      match o with Some (rbb, blk_set, r) => rt_rbb_destroy rbb blk_set r | None => mret tt end)
     (λ _ h', owns h' A) h.
Proof.
  intros HA Hs Hb Hn Hlen. split; wp_simpl.
  - eapply wp_mono; [by apply rt_ringbuffer_create_run|].
    intros [[[rb p] r]|] h1; [intros (Hrb & _ & s1 & s2 & _ & _ & HA1)|done].
    unfold rt_ringbuffer_destroy. wp_simpl. split; [by rewrite (proj2 (Z.eqb_neq _ _) Hrb)|].
    eapply wp_mono; [by eapply free_owns|]. intros [] h2 HA2. by eapply free_owns.
  - eapply wp_mono; [by apply rt_rbb_create_run|].
    intros [[[rb p] r]|] h1; [intros (Hrb & _ & s1 & s2 & s3 & _ & _ & _ & HA1)|done].
    unfold rt_rbb_destroy. wp_simpl. split; [by rewrite (proj2 (Z.eqb_neq _ _) Hrb)|].
    eapply wp_mono; [eapply (free_owns _ ((p, s3) :: (rb, s1) :: A)); by rewrite (Permutation_swap (rbb_buf r, s2)) in HA1|].
    intros [] h2 HA2. wp_simpl. eapply wp_mono; [by eapply free_owns|]. intros [] h3 HA3. by eapply free_owns.
Qed.
End buffers.
