(* ===== verification/Kservice.v ===== *)
(** Kernel services of os/kservice.c: [__rt_ffs] (the bitmap version and the
    RBIT/CLZ version of libcpu/arm/cortex-m4/cpuport.c), the C string
    functions and the memory functions. A C string is the list of bytes from
    the pointer on (advancing the pointer is taking the tail, reading past
    the end is [None]); the memory functions run on a store of bytes. *)
From S2P Require Import Prelude.

(** * Find first set *)

Definition __lowest_bit_bitmap : list Z := [
  0; 0; 1; 0; 2; 0; 1; 0; 3; 0; 1; 0; 2; 0; 1; 0;
  4; 0; 1; 0; 2; 0; 1; 0; 3; 0; 1; 0; 2; 0; 1; 0;
  5; 0; 1; 0; 2; 0; 1; 0; 3; 0; 1; 0; 2; 0; 1; 0;
  4; 0; 1; 0; 2; 0; 1; 0; 3; 0; 1; 0; 2; 0; 1; 0;
  6; 0; 1; 0; 2; 0; 1; 0; 3; 0; 1; 0; 2; 0; 1; 0;
  4; 0; 1; 0; 2; 0; 1; 0; 3; 0; 1; 0; 2; 0; 1; 0;
  5; 0; 1; 0; 2; 0; 1; 0; 3; 0; 1; 0; 2; 0; 1; 0;
  4; 0; 1; 0; 2; 0; 1; 0; 3; 0; 1; 0; 2; 0; 1; 0;
  7; 0; 1; 0; 2; 0; 1; 0; 3; 0; 1; 0; 2; 0; 1; 0;
  4; 0; 1; 0; 2; 0; 1; 0; 3; 0; 1; 0; 2; 0; 1; 0;
  5; 0; 1; 0; 2; 0; 1; 0; 3; 0; 1; 0; 2; 0; 1; 0;
  4; 0; 1; 0; 2; 0; 1; 0; 3; 0; 1; 0; 2; 0; 1; 0;
  6; 0; 1; 0; 2; 0; 1; 0; 3; 0; 1; 0; 2; 0; 1; 0;
  4; 0; 1; 0; 2; 0; 1; 0; 3; 0; 1; 0; 2; 0; 1; 0;
  5; 0; 1; 0; 2; 0; 1; 0; 3; 0; 1; 0; 2; 0; 1; 0;
  4; 0; 1; 0; 2; 0; 1; 0; 3; 0; 1; 0; 2; 0; 1; 0].

(** The C version, without RT_USING_CPU_FFS. *)
Definition __rt_ffs_bitmap (value : Z) : Z :=
  let bit i := nth (Z.to_nat i) __lowest_bit_bitmap 0 in
  if value =? 0 then 0
  else if negb (Z.land value 0xff =? 0) then bit (Z.land value 0xff) + 1
  else if negb (Z.land value 0xff00 =? 0) then bit (Z.shiftr (Z.land value 0xff00) 8) + 9
  else if negb (Z.land value 0xff0000 =? 0) then bit (Z.shiftr (Z.land value 0xff0000) 16) + 17
  else bit (Z.shiftr (Z.land value 0xff000000) 24) + 25.

(** The instructions of the Cortex-M4 version. *)
Fixpoint bits_rev (n : nat) (value : Z) : Z :=
  match n with
  | O => 0
  | S n' => Z.b2z (Z.testbit value 0) * 2 ^ Z.of_nat n' + bits_rev n' (Z.div2 value)
  end.
Definition RBIT (value : Z) : Z := bits_rev 32 value.
Definition CLZ (value : Z) : Z := if value =? 0 then 32 else 31 - Z.log2 value.
Definition __rt_ffs (value : Z) : Z :=
  if value =? 0 then 0 else CLZ (RBIT value) + 1.

(** [p] is the position of the lowest set bit. *)
Definition lowest_bit (value p : Z) : Prop :=
  Z.testbit value p = true ∧ 0 ≤ p ∧ ∀ q, 0 ≤ q < p → Z.testbit value q = false.

Lemma lowest_bit_unique value p q : lowest_bit value p → lowest_bit value q → p = q.
Proof.
  intros (Hp & Hp0 & Hp') (Hq & Hq0 & Hq'). destruct (Z.lt_trichotomy p q) as [H|[H|H]]; [|done|].
  - rewrite Hq' in Hp; [done|lia].
  - rewrite Hp' in Hq; [done|lia].
Qed.

Lemma bits_rev_range n value : 0 ≤ bits_rev n value < 2 ^ Z.of_nat n.
Proof.
  revert value. induction n as [|n IH]; intros value; cbn [bits_rev].
  { change (2 ^ Z.of_nat 0) with 1. lia. }
  specialize (IH (Z.div2 value)). rewrite Nat2Z.inj_succ, Z.pow_succ_r by lia.
  destruct (Z.testbit value 0); cbn [Z.b2z]; lia.
Qed.
Lemma bits_rev_0 n : bits_rev n 0 = 0.
Proof. induction n; simpl; lia. Qed.
(** The highest set bit of the reversal is the lowest set bit. *)
Lemma bits_rev_log2 n value p :
  lowest_bit value p → p < Z.of_nat n → Z.log2 (bits_rev n value) = Z.of_nat n - 1 - p.
Proof.
  revert value p. induction n as [|n IH]; intros value p (Hp & Hp0 & Hq) Hn; [lia|].
  cbn [bits_rev]. pose proof (bits_rev_range n (Z.div2 value)) as Hr.
  destruct (Z.eq_dec p 0) as [->|Hne].
  - rewrite Hp. cbn [Z.b2z]. apply Z.log2_unique; [lia|].
    rewrite Nat2Z.inj_succ. replace (Z.succ (Z.of_nat n) - 1 - 0) with (Z.of_nat n) by lia.
    rewrite Z.pow_succ_r by lia. lia.
  - rewrite Hq by lia. cbn [Z.b2z]. rewrite Z.mul_0_l, Z.add_0_l.
    rewrite (IH _ (p - 1)); [lia| |lia]. split_and!; [|lia|].
    + rewrite Z.div2_spec, Z.shiftr_spec by lia. by replace (p - 1 + 1) with p by lia.
    + intros q ?. rewrite Z.div2_spec, Z.shiftr_spec by lia. apply Hq. lia.
Qed.
Lemma bits_rev_pos n value p : lowest_bit value p → p < Z.of_nat n → bits_rev n value ≠ 0.
Proof.
  revert value p. induction n as [|n IH]; intros value p (Hp & Hp0 & Hq) Hn; [lia|].
  cbn [bits_rev]. pose proof (bits_rev_range n (Z.div2 value)) as Hr.
  destruct (Z.eq_dec p 0) as [->|Hne]; [rewrite Hp; cbn [Z.b2z]; lia|].
  rewrite Hq by lia. cbn [Z.b2z]. rewrite Z.mul_0_l, Z.add_0_l.
  apply (IH _ (p - 1)); [|lia]. split_and!; [|lia|].
  - rewrite Z.div2_spec, Z.shiftr_spec by lia. by replace (p - 1 + 1) with p by lia.
  - intros q ?. rewrite Z.div2_spec, Z.shiftr_spec by lia. apply Hq. lia.
Qed.

Lemma testbit_high value p : 0 ≤ value < 4294967296 → 32 ≤ p → Z.testbit value p = false.
Proof.
  intros Hv Hp. destruct (Z.eq_dec value 0) as [->|]; [apply Z.bits_0|].
  apply Z.bits_above_log2; [lia|]. apply Z.lt_le_trans with 32; [|done].
  apply Z.log2_lt_pow2; [lia|]. change (2 ^ 32) with 4294967296. lia.
Qed.
Lemma lowest_bit_lt value p : 0 ≤ value < 4294967296 → lowest_bit value p → p < 32.
Proof.
  intros Hv (Hp & _). destruct (Z_lt_le_dec p 32); [done|].
  rewrite testbit_high in Hp; done.
Qed.
Lemma __rt_ffs_lowest value p :
  0 ≤ value < 4294967296 → lowest_bit value p → __rt_ffs value = p + 1.
Proof.
  intros Hv Hl. pose proof (lowest_bit_lt _ _ Hv Hl). unfold __rt_ffs, CLZ, RBIT.
  destruct (Z.eqb_spec value 0) as [->|_]; [destruct Hl as [Hl _]; by rewrite Z.bits_0 in Hl|].
  pose proof (bits_rev_pos 32 value p Hl ltac:(lia)). rewrite (proj2 (Z.eqb_neq _ _)) by done.
  rewrite (bits_rev_log2 32 value p) by (done || lia). lia.
Qed.

Lemma bitmap_byte b : 0 < b < 256 →
  lowest_bit b (nth (Z.to_nat b) __lowest_bit_bitmap 0) ∧ nth (Z.to_nat b) __lowest_bit_bitmap 0 < 8.
Proof.
  intros Hb.
  assert (forallb (λ n, let p := nth n __lowest_bit_bitmap 0 in
    Z.testbit (Z.of_nat n) p && (0 <=? p) && (p <? 8) &&
    forallb (λ q, negb (Z.testbit (Z.of_nat n) q)) (seqZ 0 p)) (seq 1 255) = true) as Hall
    by (vm_compute; reflexivity).
  rewrite forallb_forall in Hall. specialize (Hall (Z.to_nat b)). cbv beta zeta in Hall.
  rewrite !andb_true_iff, Z2Nat.id in Hall by lia.
  destruct Hall as [[[H1 H2%Z.leb_le] H3%Z.ltb_lt] H4]; [apply in_seq; lia|].
  split; [|done]. split; [done|]. split; [done|]. intros q Hq.
  rewrite forallb_forall in H4. apply negb_true_iff, H4, list_elem_of_In, elem_of_seqZ. lia.
Qed.
Lemma bitmap_at value k :
  0 ≤ k → (∀ q, 0 ≤ q < k → Z.testbit value q = false) →
  Z.land (Z.shiftr value k) 255 ≠ 0 →
  lowest_bit value (nth (Z.to_nat (Z.land (Z.shiftr value k) 255)) __lowest_bit_bitmap 0 + k).
Proof.
  intros Hk Hlow Hne. assert (0 ≤ Z.land (Z.shiftr value k) 255 < 256) as Hb.
  { change 255 with (Z.ones 8). rewrite Z.land_ones by lia. by apply Z.mod_pos_bound. }
  destruct (bitmap_byte (Z.land (Z.shiftr value k) 255)) as [(Ht & Hp0 & Hq) Hp8]; [lia|].
  set (p := nth _ _ _) in *. change 255 with (Z.ones 8) in Ht, Hq.
  split; [|split; [lia|]].
  - rewrite Z.land_spec, Z.shiftr_spec in Ht by lia. by apply andb_true_iff in Ht as [? _].
  - intros q ?. destruct (Z_lt_le_dec q k) as [|Hge]; [apply Hlow; lia|].
    specialize (Hq (q - k)). rewrite Z.land_spec, Z.shiftr_spec, Z.ones_spec_low in Hq by lia.
    rewrite andb_true_r in Hq. replace (q - k + k) with q in Hq by lia. apply Hq. lia.
Qed.
(** A byte of [value] that is 0 has no bit set. *)
Lemma byte_zero value k q :
  Z.land (Z.shiftr value k) 255 = 0 → 0 ≤ k → k ≤ q < k + 8 → Z.testbit value q = false.
Proof.
  intros Hz Hk Hq. apply (f_equal (λ v, Z.testbit v (q - k))) in Hz.
  change 255 with (Z.ones 8) in Hz.
  rewrite Z.land_spec, Z.shiftr_spec, Z.ones_spec_low, andb_true_r, Z.bits_0 in Hz by lia.
  by replace (q - k + k) with q in Hz by lia.
Qed.
Lemma byte_mask value k m :
  0 ≤ k → m = Z.shiftl 255 k →
  Z.land value m = Z.shiftl (Z.land (Z.shiftr value k) 255) k.
Proof.
  intros Hk ->. apply Z.bits_inj'. intros q Hq. rewrite Z.land_spec, !Z.shiftl_spec by done.
  destruct (Z_lt_le_dec q k).
  - rewrite (Z.testbit_neg_r 255), (Z.testbit_neg_r (Z.land _ _)) by lia. apply andb_false_r.
  - rewrite Z.land_spec, Z.shiftr_spec by lia. by replace (q - k + k) with q by lia.
Qed.
Lemma bitmap_mask value k m :
  0 ≤ k → m = Z.shiftl 255 k →
  (Z.land value m =? 0) = (Z.land (Z.shiftr value k) 255 =? 0) ∧
  Z.shiftr (Z.land value m) k = Z.land (Z.shiftr value k) 255.
Proof.
  intros Hk Hm. rewrite (byte_mask _ _ _ Hk Hm). split.
  - rewrite Z.shiftl_mul_pow2 by done. pose proof (Z.pow_pos_nonneg 2 k).
    destruct (Z.eqb_spec (Z.land (Z.shiftr value k) 255) 0) as [->|]; [done|].
    apply Z.eqb_neq. nia.
  - rewrite Z.shiftr_shiftl_l by done. by rewrite Z.sub_diag, Z.shiftl_0_r.
Qed.

Lemma __rt_ffs_bitmap_lowest value :
  0 < value < 4294967296 → ∃ p, lowest_bit value p ∧ __rt_ffs_bitmap value = p + 1.
Proof.
  intros Hv. unfold __rt_ffs_bitmap. rewrite (proj2 (Z.eqb_neq _ 0)) by lia.
  destruct (bitmap_mask value 0 0xff) as [E0 F0]; [done..|].
  destruct (bitmap_mask value 8 0xff00) as [E1 F1]; [done..|].
  destruct (bitmap_mask value 16 0xff0000) as [E2 F2]; [done..|].
  destruct (bitmap_mask value 24 0xff000000) as [E3 F3]; [done..|].
  rewrite E0, E1, E2, F1, F2, F3. rewrite Z.shiftr_0_r in *.
  destruct (Z.eqb_spec (Z.land value 255) 0) as [Z0|N0]; simpl negb; cbv iota.
  2:{ eexists. split; [apply (bitmap_at value 0); [done|lia|by rewrite Z.shiftr_0_r]|].
      rewrite Z.shiftr_0_r. lia. }
  assert (∀ q, 0 ≤ q < 8 → Z.testbit value q = false) as B0.
  { intros q ?. apply (byte_zero value 0); [by rewrite Z.shiftr_0_r|lia..]. }
  destruct (Z.eqb_spec (Z.land (Z.shiftr value 8) 255) 0) as [Z1|N1]; simpl negb; cbv iota.
  2:{ eexists. split; [apply (bitmap_at value 8); [done| |done]|lia]. intros; apply B0; lia. }
  pose proof (λ q, byte_zero value 8 q Z1) as B1.
  destruct (Z.eqb_spec (Z.land (Z.shiftr value 16) 255) 0) as [Z2|N2]; simpl negb; cbv iota.
  2:{ eexists. split; [apply (bitmap_at value 16); [done| |done]|lia].
      intros q ?. destruct (Z_lt_le_dec q 8); [apply B0|apply B1]; lia. }
  pose proof (λ q, byte_zero value 16 q Z2) as B2.
  assert (∀ q, 0 ≤ q < 24 → Z.testbit value q = false) as Hlow.
  { intros q ?. destruct (Z_lt_le_dec q 8); [apply B0; lia|].
    destruct (Z_lt_le_dec q 16); [apply B1|apply B2]; lia. }
  eexists. split; [apply (bitmap_at value 24); [done|done|]|lia].
  intros Z3. pose proof (λ q, byte_zero value 24 q Z3) as B3.
  assert (value = 0); [|lia]. apply Z.bits_inj'. intros q Hq. rewrite Z.bits_0.
  destruct (Z_lt_le_dec q 24); [apply Hlow; lia|].
  destruct (Z_lt_le_dec q 32); [apply B3; lia|apply testbit_high; lia].
Qed.

Lemma __rt_ffs_lowest_exists value :
  0 < value < 4294967296 → ∃ p, lowest_bit value p ∧ __rt_ffs value = p + 1 ∧ p < 32.
Proof.
  intros Hv. destruct (__rt_ffs_bitmap_lowest value Hv) as (p & Hp & _). exists p.
  split; [done|]. split; [apply __rt_ffs_lowest; [lia|done]|].
  eapply lowest_bit_lt; [|done]. lia.
Qed.

(** The bitmap version of [__rt_ffs] and the RBIT/CLZ version agree on
    every 32-bit value: both return one more than the position of the lowest
    set bit, and 0 when there is none. *)
Theorem __rt_ffs_agree value :
  0 ≤ value < 4294967296 →
  __rt_ffs_bitmap value = __rt_ffs value ∧
  (value = 0 ∧ __rt_ffs value = 0 ∨
   lowest_bit value (__rt_ffs value - 1) ∧ __rt_ffs value - 1 < 32).
Proof.
  intros Hv. destruct (Z.eq_dec value 0) as [->|]; [split; [done|by left]|].
  destruct (__rt_ffs_bitmap_lowest value) as (p & Hp & ->); [lia|].
  pose proof (lowest_bit_lt _ _ Hv Hp). rewrite (__rt_ffs_lowest value p) by done.
  split; [done|right]. replace (p + 1 - 1) with p by lia. done.
Qed.
Lemma __rt_ffs_agree_witness :
  __rt_ffs_bitmap 0xb0a000 = __rt_ffs 0xb0a000 ∧
  (0xb0a000 = 0 ∧ __rt_ffs 0xb0a000 = 0 ∨
   lowest_bit 0xb0a000 (__rt_ffs 0xb0a000 - 1) ∧ __rt_ffs 0xb0a000 - 1 < 32).
Proof. apply (__rt_ffs_agree 0xb0a000). lia. Defined.

(** * C strings ([char] is unsigned on this target) *)

Fixpoint rt_strlen (s : list Z) : option Z :=
  match s with
  | [] => None
  | c :: s => if c =? 0 then Some 0 else n ← rt_strlen s; Some (n + 1)
  end.
Fixpoint rt_strnlen (s : list Z) (maxlen : nat) : option Z :=
  match s with
  | [] => None
  | c :: s =>
      if c =? 0 then Some 0 else
      match maxlen with
      | O => Some 0
      | S maxlen => n ← rt_strnlen s maxlen; Some (n + 1)
      end
  end.

(** The bytes that [rt_strncpy] writes for [n]; it pads with zeros. *)
Fixpoint strncpy_bytes (s : list Z) (n : nat) {struct n} : option (list Z) :=
  match n with
  | O => Some []
  | S n =>
      match s with
      | [] => None
      | c :: s => if c =? 0 then Some (0 :: replicate n 0)
                  else d ← strncpy_bytes s n; Some (c :: d)
      end
  end.
Definition rt_strncpy (dst src : list Z) (n : nat) : option (list Z) :=
  d ← strncpy_bytes src n; Some (lwrite 0 d dst).

Fixpoint strncmp_loop (__res : Z) (cs ct : list Z) (count : nat) {struct count} : option Z :=
  match count with
  | O => Some __res
  | S count =>
      match cs, ct with
      | c :: cs, t :: ct =>
          let __res := s8 (c - t) in
          if negb (__res =? 0) || (c =? 0) then Some __res
          else strncmp_loop __res cs ct count
      | _, _ => None
      end
  end.
Definition rt_strncmp (cs ct : list Z) (count : nat) : option Z := strncmp_loop 0 cs ct count.

Fixpoint rt_strcmp (cs ct : list Z) : option Z :=
  match cs, ct with
  | c :: cs, t :: ct => if negb (c =? 0) && (c =? t) then rt_strcmp cs ct else Some (c - t)
  | _, _ => None
  end.

Definition lower (c : Z) : Z := if (65 <=? c) && (c <=? 90) then c + (97 - 65) else c.
Fixpoint rt_strcasecmp (a b : list Z) : option Z :=
  match a, b with
  | ca :: a, cb :: b =>
      let ca := lower (Z.land ca 0xff) in
      let cb := lower (Z.land cb 0xff) in
      if (ca =? cb) && negb (ca =? 0) then rt_strcasecmp a b else Some (ca - cb)
  | _, _ => None
  end.

Fixpoint rt_memcmp (cs ct : list Z) (count : nat) {struct count} : option Z :=
  match count with
  | O => Some 0
  | S count =>
      match cs, ct with
      | c :: cs, t :: ct =>
          let res := c - t in if negb (res =? 0) then Some res else rt_memcmp cs ct count
      | _, _ => None
      end
  end.

(** The loop of [rt_strstr]; the result is the offset of the match in [s1]. *)
Fixpoint strstr_loop (fuel : nat) (off l1 l2 : Z) (s1 s2 : list Z) : option (option Z) :=
  match fuel with
  | O => None
  | S fuel =>
      if l1 >=? l2 then
        r ← rt_memcmp s1 s2 (Z.to_nat l2);
        if r =? 0 then Some (Some off)
        else strstr_loop fuel (off + 1) (l1 - 1) l2 (tail s1) s2
      else Some None
  end.
Definition rt_strstr (s1 s2 : list Z) : option (option Z) :=
  l2 ← rt_strlen s2;
  if l2 =? 0 then Some (Some 0) else
  l1 ← rt_strlen s1;
  strstr_loop (S (Z.to_nat l1)) 0 l1 l2 s1 s2.

(** The text of a C string, cut at [n] bytes, and that it can be read. *)
Fixpoint ctake (n : nat) (s : list Z) : list Z :=
  match n, s with
  | S n, c :: s => if c =? 0 then [] else c :: ctake n s
  | _, _ => []
  end.
Fixpoint readable (n : nat) (s : list Z) : Prop :=
  match n with
  | O => True
  | S n => match s with [] => False | c :: s => c = 0 ∨ readable n s end
  end.
Definition is_bytes (s : list Z) : Prop := Forall (λ c, 0 ≤ c < 256) s.

Lemma s8_sub_zero c t : 0 ≤ c < 256 → 0 ≤ t < 256 → s8 (c - t) = 0 ↔ c = t.
Proof.
  intros Hc Ht. unfold s8. split; [|intros ->; by rewrite Z.sub_diag].
  intros E. Z.div_mod_to_equations. lia.
Qed.

Lemma strncmp_loop_zero n cs ct r0 :
  readable n cs → readable n ct → is_bytes cs → is_bytes ct →
  ∃ r, strncmp_loop r0 cs ct n = Some r ∧
    (n ≠ O → r = 0 ↔ ctake n cs = ctake n ct) ∧ (n = O → r = r0).
Proof.
  revert cs ct r0. induction n as [|n IH]; intros cs ct r0; simpl.
  { intros _ _ _ _. by exists r0. }
  destruct cs as [|c cs]; [done|]. destruct ct as [|t ct]; [done|].
  intros Hc Ht [Hcb Hcs]%Forall_cons [Htb Hct]%Forall_cons.
  destruct (Z.eqb_spec (s8 (c - t)) 0) as [E|E]; simpl.
  - rewrite s8_sub_zero in E by done. subst t. destruct (Z.eqb_spec c 0) as [->|Hc0].
    + eexists. split; [done|]. by split.
    + destruct Hc as [|Hc]; [done|]. destruct Ht as [|Ht]; [done|].
      destruct (IH cs ct (s8 (c - c)) Hc Ht Hcs Hct) as (r & -> & H1 & H2).
      exists r. split; [done|]. split; [|done]. intros _. destruct (decide (n = O)) as [->|Hn].
      * rewrite H2 by done. rewrite Z.sub_diag. done.
      * rewrite H1 by done. split; [by intros ->|by intros [= ?]].
  - eexists. split; [done|]. split; [|done]. intros _. split; [done|].
    rewrite s8_sub_zero in E by done. intros Eq. exfalso.
    destruct (Z.eqb_spec c 0), (Z.eqb_spec t 0); congruence.
Qed.

Lemma rt_strncmp_run n cs ct :
  readable n cs → readable n ct → is_bytes cs → is_bytes ct →
  ∃ r, rt_strncmp cs ct n = Some r ∧ (r = 0 ↔ ctake n cs = ctake n ct).
Proof.
  intros Hc Ht Hcs Hct. destruct (strncmp_loop_zero n cs ct 0 Hc Ht Hcs Hct) as (r & E & H1 & H2).
  exists r. split; [done|]. destruct n; [by rewrite H2|by apply H1].
Qed.

Lemma strncpy_bytes_run n s :
  readable n s → ∃ d, strncpy_bytes s n = Some d ∧ length d = n ∧
    ctake n d = ctake n s ∧ readable n d ∧ (is_bytes s → is_bytes d).
Proof.
  revert s. induction n as [|n IH]; intros [|c s]; simpl; try done.
  - intros _. exists []. do 4 (split; [done|]). by constructor.
  - intros _. exists []. do 4 (split; [done|]). by constructor.
  - destruct (Z.eqb_spec c 0) as [->|Hc]; intros Hr.
    + eexists. split; [done|]. split; [simpl; by rewrite length_replicate|]. simpl.
      split; [done|]. split; [by left|]. intros _. constructor; [lia|].
      apply Forall_replicate. lia.
    + destruct Hr as [|Hr]; [done|]. destruct (IH s Hr) as (d & -> & Hl & Hd & Hrd & Hb).
      exists (c :: d). split; [done|]. simpl. rewrite Hl, Hd.
      rewrite (proj2 (Z.eqb_neq c 0)) by done. split; [done|]. split; [done|].
      split; [by right|]. intros [? ?]%Forall_cons. constructor; [done|by apply Hb].
Qed.
Lemma rt_strncpy_run n dst s :
  readable n s → length dst = n → ∃ d, rt_strncpy dst s n = Some d ∧ length d = n ∧
    ctake n d = ctake n s ∧ readable n d ∧ (is_bytes s → is_bytes d).
Proof.
  intros Hr Hl. destruct (strncpy_bytes_run n s Hr) as (d & E & Hd & ?). exists d.
  unfold rt_strncpy. rewrite E. simpl. unfold lwrite. rewrite take_0, drop_ge by lia.
  by rewrite app_nil_r.
Qed.

Lemma rt_strlen_run a rest :
  Forall (λ c, c ≠ 0) a → rt_strlen (a ++ 0 :: rest) = Some (Z.of_nat (length a)).
Proof.
  induction 1 as [|c a Hc Ha IH]; simpl; [done|].
  rewrite (proj2 (Z.eqb_neq c 0)) by done. rewrite IH. simpl. f_equal. lia.
Qed.
Lemma rt_memcmp_run a b n :
  (n ≤ length a)%nat → (n ≤ length b)%nat →
  ∃ r, rt_memcmp a b n = Some r ∧ (r = 0 ↔ take n a = take n b).
Proof.
  revert a b. induction n as [|n IH]; intros [|c a] [|t b] Ha Hb; simpl in *; try lia;
    try (by exists 0).
  destruct (Z.eqb_spec (c - t) 0) as [E|E]; simpl.
  - assert (c = t) as -> by lia. destruct (IH a b) as (r & -> & Hr); [lia..|].
    exists r. split; [done|]. rewrite Hr. split; [by intros ->|by intros [= ?]].
  - eexists. split; [done|]. split; [done|]. intros [= ?]. lia.
Qed.
Lemma strstr_loop_run fuel off a b ra rb :
  (length a < fuel)%nat → b ≠ [] →
  ∃ r, strstr_loop fuel off (Z.of_nat (length a)) (Z.of_nat (length b))
         (a ++ 0 :: ra) (b ++ rb) = Some r ∧
    match r with
    | Some o => ∃ u v, a = u ++ b ++ v ∧ o = off + Z.of_nat (length u) ∧
                  ∀ u' v', a = u' ++ b ++ v' → (length u ≤ length u')%nat
    | None => ∀ u v, a ≠ u ++ b ++ v
    end.
Proof.
  revert off a. induction fuel as [|fuel IH]; intros off a Hf Hb; simpl; [lia|].
  rewrite Z.geb_leb. destruct (Z.leb_spec (Z.of_nat (length b)) (Z.of_nat (length a))) as [Hl|Hl].
  - rewrite Nat2Z.id. destruct (rt_memcmp_run (a ++ 0 :: ra) (b ++ rb) (length b)) as (r & -> & Hr).
    { rewrite length_app. lia. } { rewrite length_app. lia. }
    simpl. rewrite take_app_length, take_app_le in Hr by lia.
    destruct (Z.eqb_spec r 0) as [E|E].
    + eexists. split; [done|]. apply Hr in E. exists [], (drop (length b) a).
      split; [simpl; rewrite <-E at 1; by rewrite take_drop|]. split; [simpl; lia|].
      intros. simpl. lia.
    + destruct a as [|c a]; [destruct b; simpl in Hl; [done|lia]|]. simpl tail.
      replace (Z.of_nat (length (c :: a)) - 1) with (Z.of_nat (length a)) by (simpl; lia).
      destruct (IH (off + 1) a) as (r' & -> & Hr'); [simpl in Hf; lia|done|].
      assert (∀ u v, c :: a = u ++ b ++ v → ∃ u0, u = c :: u0 ∧ a = u0 ++ b ++ v) as Hcons.
      { intros [|c' u] v Eq; simpl in Eq.
        - exfalso. apply E, Hr. rewrite Eq. by rewrite take_app_length.
        - injection Eq as <- ->. by eexists. }
      eexists. split; [done|]. destruct r' as [o|].
      * destruct Hr' as (u & v & -> & -> & Hmin). exists (c :: u), v.
        split; [done|]. split; [simpl; lia|]. intros u' v' (u0 & -> & Eq)%Hcons.
        apply Hmin in Eq. simpl. lia.
      * intros u v (u0 & -> & Eq)%Hcons. by eapply Hr'.
  - eexists. split; [done|]. simpl. intros u v ->. rewrite !length_app in Hl. lia.
Qed.

(** [rt_strstr] on two C strings returns the offset of the first
    occurrence of the second text in the first, and NULL when there is none. *)
Theorem rt_strstr_first a b ra rb :
  Forall (λ c, c ≠ 0) a → Forall (λ c, c ≠ 0) b →
  ∃ r, rt_strstr (a ++ 0 :: ra) (b ++ 0 :: rb) = Some r ∧
    match r with
    | Some o => ∃ u v, a = u ++ b ++ v ∧ o = Z.of_nat (length u) ∧
                  ∀ u' v', a = u' ++ b ++ v' → (length u ≤ length u')%nat
    | None => ∀ u v, a ≠ u ++ b ++ v
    end.
Proof.
  intros Ha Hb. unfold rt_strstr. rewrite (rt_strlen_run b) by done.
  cbn [mbind option_bind]. destruct b as [|t b].
  - eexists. split; [done|]. exists [], a. split; [done|]. split; [done|]. intros. simpl. lia.
  - rewrite (proj2 (Z.eqb_neq _ 0)) by (simpl; lia). rewrite rt_strlen_run by done.
    cbn [mbind option_bind]. rewrite Nat2Z.id.
    apply (strstr_loop_run _ 0 a (t :: b) ra (0 :: rb)); [lia|done].
Qed.
Lemma rt_strstr_first_witness :
  ∃ r, rt_strstr ([1; 2; 1; 3] ++ 0 :: []) ([1; 3] ++ 0 :: []) = Some r ∧
    match r with
    | Some o => ∃ u v, [1; 2; 1; 3] = u ++ [1; 3] ++ v ∧ o = Z.of_nat (length u) ∧
                  ∀ u' v', [1; 2; 1; 3] = u' ++ [1; 3] ++ v' → (length u ≤ length u')%nat
    | None => ∀ u v, [1; 2; 1; 3] ≠ u ++ [1; 3] ++ v
    end.
Proof. apply (rt_strstr_first [1; 2; 1; 3] [1; 3]); repeat constructor; lia. Defined.

(** * Memory functions on a store of bytes *)

Abbreviation bytemap := (gmap Z Z).

Definition ld8 (a : Z) : M bytemap Z := λ m, v ← m !! a; Some (v, m).
Definition st8 (a v : Z) : M bytemap unit := modify <[a := v]>.
(** A [long] access at an aligned address, little-endian. *)
Definition ld32 (a : Z) : M bytemap (Z * Z * Z * Z) :=
  b0 ← ld8 a; b1 ← ld8 (a + 1); b2 ← ld8 (a + 2); b3 ← ld8 (a + 3); mret (b0, b1, b2, b3).
Definition st32 (a : Z) (w : Z * Z * Z * Z) : M bytemap unit :=
  let '(b0, b1, b2, b3) := w in
  st8 a b0;; st8 (a + 1) b1;; st8 (a + 2) b2;; st8 (a + 3) b3.
Definition mov32 (d s : Z) : M bytemap unit := w ← ld32 s; st32 d w.

Definition aligned (a : Z) : bool := Z.land a 3 =? 0.

(** while (len--) *dst_ptr++ = *src_ptr++; *)
Fixpoint cpy_bytes (len : nat) (d s : Z) : M bytemap unit :=
  match len with
  | O => mret tt
  | S len => v ← ld8 s; st8 d v;; cpy_bytes len (d + 1) (s + 1)
  end.
(** while (len >= LITTLEBLOCKSIZE) ...; continues with the bytes left *)
Fixpoint cpy_words (fuel : nat) (len : nat) (d s : Z) : M bytemap unit :=
  match fuel with
  | O => fail
  | S fuel =>
      if (4 <=? len)%nat
      then mov32 d s;; cpy_words fuel (len - 4)%nat (d + 4) (s + 4)
      else cpy_bytes len d s
  end.
(** while (len >= BIGBLOCKSIZE) ... *)
Fixpoint cpy_blocks (fuel : nat) (len : nat) (d s : Z) : M bytemap unit :=
  match fuel with
  | O => fail
  | S fuel =>
      if (16 <=? len)%nat
      then mov32 d s;; mov32 (d + 4) (s + 4);; mov32 (d + 8) (s + 8);; mov32 (d + 12) (s + 12);;
           cpy_blocks fuel (len - 16)%nat (d + 16) (s + 16)
      else cpy_words (S len) len d s
  end.
Definition rt_memcpy (dst src : Z) (count : nat) : M bytemap unit :=
  if (16 <=? count)%nat && aligned src && aligned dst
  then cpy_blocks (S count) count dst src
  else cpy_bytes count dst src.

(** while (n--) *(--tmp) = *(--s); *)
Fixpoint mov_down (n : nat) (tmp s : Z) : M bytemap unit :=
  match n with
  | O => mret tt
  | S n => v ← ld8 (s - 1); st8 (tmp - 1) v;; mov_down n (tmp - 1) (s - 1)
  end.
Definition rt_memmove (dest src : Z) (n : nat) : M bytemap unit :=
  if (src <? dest) && (dest <? src + Z.of_nat n)
  then mov_down n (dest + Z.of_nat n) (src + Z.of_nat n)
  else cpy_bytes n dest src.

Fixpoint set_bytes (count : nat) (m d : Z) : M bytemap unit :=
  match count with
  | O => mret tt
  | S count => st8 m d;; set_bytes count (m + 1) d
  end.
Fixpoint set_words (fuel : nat) (count : nat) (m d : Z) : M bytemap unit :=
  match fuel with
  | O => fail
  | S fuel =>
      if (4 <=? count)%nat
      then st32 m (d, d, d, d);; set_words fuel (count - 4)%nat (m + 4) d
      else set_bytes count m d
  end.
Fixpoint set_blocks (fuel : nat) (count : nat) (m d : Z) : M bytemap unit :=
  match fuel with
  | O => fail
  | S fuel =>
      if (16 <=? count)%nat
      then st32 m (d, d, d, d);; st32 (m + 4) (d, d, d, d);; st32 (m + 8) (d, d, d, d);;
           st32 (m + 12) (d, d, d, d);; set_blocks fuel (count - 16)%nat (m + 16) d
      else set_words (S count) count m d
  end.
Definition rt_memset (s c : Z) (count : nat) : M bytemap unit :=
  let d := Z.land c 0xff in
  if (4 <=? count)%nat && aligned s
  then set_blocks (S count) count s d
  else set_bytes count s d.

(** [m'] is [m] with the [n] bytes at [s] copied to [d]. *)
Definition copied (m : bytemap) (d s n : Z) (m' : bytemap) : Prop :=
  ∀ k, m' !! k = if decide (d ≤ k < d + n) then m !! (s + (k - d)) else m !! k.
Definition present (m : bytemap) (s n : Z) : Prop := ∀ k, s ≤ k < s + n → is_Some (m !! k).

Lemma copied_trans m d s n m1 w m2 :
  0 ≤ n → 0 ≤ w → d ≤ s ∨ s + n + w ≤ d →
  copied m d s n m1 → copied m1 (d + n) (s + n) w m2 → copied m d s (n + w) m2.
Proof.
  intros Hn Hw Hdis H1 H2 k. rewrite H2. case_decide.
  - rewrite H1. rewrite decide_False by lia. rewrite decide_True by lia. f_equal. lia.
  - rewrite H1. case_decide; [rewrite decide_True by lia|rewrite decide_False by lia]; done.
Qed.
Lemma copied_present m d s n m1 s' w :
  copied m d s n m1 → present m s n → present m s' w → present m1 s' w.
Proof.
  intros Hc Hs Hp k Hk. rewrite Hc. case_decide; [apply Hs; lia|by apply Hp].
Qed.
Lemma copied_0 m d s : copied m d s 0 m.
Proof. intros k. by rewrite decide_False by lia. Qed.

(** A step that copies [w] bytes, chained with the rest of the loop. *)
Lemma copy_step m d s w n (step rest : M bytemap unit) :
  0 ≤ w ≤ n → d ≤ s ∨ s + n ≤ d → present m s n →
  wp step (λ _ m1, copied m d s w m1) m →
  (∀ m1, present m1 (s + w) (n - w) →
     wp rest (λ _ m2, copied m1 (d + w) (s + w) (n - w) m2) m1) →
  wp (step;; rest) (λ _ m2, copied m d s n m2) m.
Proof.
  intros Hw Hdis Hp Hs Hr. wp_simpl. eapply wp_mono; [exact Hs|]. intros [] m1 H1. cbn beta.
  eapply wp_mono; [apply Hr|].
  - eapply copied_present; [exact H1| |]; intros k ?; apply Hp; lia.
  - intros [] m2 H2. cbn beta. replace n with (w + (n - w)) by lia.
    eapply copied_trans; [lia|lia| |exact H1|exact H2]. lia.
Qed.
Lemma wp_ld8 m a (Q : Z → bytemap → Prop) v : m !! a = Some v → Q v m → wp (ld8 a) Q m.
Proof. intros E H. unfold wp, ld8. by rewrite E. Qed.
Lemma mov8_run m d s : present m s 1 → wp (v ← ld8 s; st8 d v) (λ _ m', copied m d s 1 m') m.
Proof.
  intros Hp. destruct (Hp s) as [v Hv]; [lia|]. wp_simpl. eapply wp_ld8; [done|].
  unfold st8. wp_simpl. intros k. destruct (decide (k = d)) as [->|].
  - rewrite lookup_insert_eq, decide_True by lia. rewrite <-Hv. f_equal. lia.
  - rewrite lookup_insert_ne, decide_False by lia. done.
Qed.
Lemma st32_lookup m a w k :
  ∃ m', st32 a w m = Some (tt, m') ∧
    m' !! k = if decide (k = a) then Some w.1.1.1 else if decide (k = a + 1) then Some w.1.1.2
      else if decide (k = a + 2) then Some w.1.2 else if decide (k = a + 3) then Some w.2
      else m !! k.
Proof.
  destruct w as [[[b0 b1] b2] b3]. eexists. split; [reflexivity|].
  repeat case_decide; subst; simpl;
    repeat (rewrite lookup_insert_eq || rewrite lookup_insert_ne by lia); done.
Qed.
Lemma mov32_run m d s : present m s 4 → wp (mov32 d s) (λ _ m', copied m d s 4 m') m.
Proof.
  intros Hp. destruct (Hp s) as [v0 H0]; [lia|]. destruct (Hp (s + 1)) as [v1 H1]; [lia|].
  destruct (Hp (s + 2)) as [v2 H2]; [lia|]. destruct (Hp (s + 3)) as [v3 H3]; [lia|].
  unfold mov32, ld32. wp_simpl. do 4 (eapply wp_ld8; [done|]; wp_simpl).
  apply wp_inv. eexists _, _. split; [reflexivity|]. intros k.
  destruct (st32_lookup m d (v0, v1, v2, v3) k) as (m' & Em & Hk). simpl in Em.
  injection Em as <-. rewrite Hk. simpl.
  repeat case_decide; subst; try lia; try done.
  - rewrite <-H0. f_equal. lia.
  - rewrite <-H1. f_equal. lia.
  - rewrite <-H2. f_equal. lia.
  - rewrite <-H3. f_equal. lia.
Qed.

Lemma cpy_bytes_run len m d s :
  d ≤ s ∨ s + Z.of_nat len ≤ d → present m s (Z.of_nat len) →
  wp (cpy_bytes len d s) (λ _ m', copied m d s (Z.of_nat len) m') m.
Proof.
  revert m d s. induction len as [|len IH]; intros m d s Hdis Hp; cbn [cpy_bytes].
  - apply wp_ret. by apply copied_0.
  - apply (wp_assoc (ld8 s) (st8 d) (λ _, cpy_bytes len (d + 1) (s + 1))).
    apply (copy_step _ _ _ 1); [lia|lia|done| |].
    + apply mov8_run. intros k ?. apply Hp. lia.
    + intros m1 Hp1. replace (Z.of_nat (S len) - 1) with (Z.of_nat len) in * by lia.
      apply IH; [lia|done].
Qed.
Lemma cpy_words_run fuel len m d s :
  (len < fuel)%nat → d ≤ s ∨ s + Z.of_nat len ≤ d → present m s (Z.of_nat len) →
  wp (cpy_words fuel len d s) (λ _ m', copied m d s (Z.of_nat len) m') m.
Proof.
  revert len m d s. induction fuel as [|fuel IH]; intros len m d s Hf Hdis Hp; [lia|].
  cbn [cpy_words]. destruct (Nat.leb_spec 4 len); [|by apply cpy_bytes_run].
  apply (copy_step _ _ _ 4); [lia|done|done|apply mov32_run; intros k ?; apply Hp; lia|].
  intros m1 Hp1. replace (Z.of_nat len - 4) with (Z.of_nat (len - 4)) in * by lia.
  apply IH; [lia|lia|done].
Qed.
Lemma cpy_blocks_run fuel len m d s :
  (len < fuel)%nat → d ≤ s ∨ s + Z.of_nat len ≤ d → present m s (Z.of_nat len) →
  wp (cpy_blocks fuel len d s) (λ _ m', copied m d s (Z.of_nat len) m') m.
Proof.
  revert len m d s. induction fuel as [|fuel IH]; intros len m d s Hf Hdis Hp; [lia|].
  cbn [cpy_blocks]. destruct (Nat.leb_spec 16 len); [|apply cpy_words_run; [lia|done..]].
  apply (copy_step _ _ _ 4); [lia|lia|done|apply mov32_run; intros k ?; apply Hp; lia|].
  intros m1 Hp1.
  apply (copy_step _ _ _ 4); [lia|lia|done|apply mov32_run; intros k ?; apply Hp1; lia|].
  clear m Hp Hp1. intros m Hp.
  replace (d + 8) with (d + 4 + 4) by lia. replace (s + 8) with (s + 4 + 4) by lia.
  apply (copy_step _ _ _ 4); [lia|lia|done|apply mov32_run; intros k ?; apply Hp; lia|].
  clear m Hp. intros m Hp.
  replace (d + 12) with (d + 4 + 4 + 4) by lia. replace (s + 12) with (s + 4 + 4 + 4) by lia.
  apply (copy_step _ _ _ 4); [lia|lia|done|apply mov32_run; intros k ?; apply Hp; lia|].
  clear m m1 Hp. intros m Hp.
  replace (Z.of_nat len - 4 - 4 - 4 - 4) with (Z.of_nat (len - 16)) in * by lia.
  replace (d + 16) with (d + 4 + 4 + 4 + 4) by lia.
  replace (s + 16) with (s + 4 + 4 + 4 + 4) by lia.
  apply IH; [lia|lia|done].
Qed.

(** [rt_memcpy] copies its source, by blocks of four words where the
    addresses are aligned and by bytes otherwise, when the destination lies
    below the source or behind it; nothing else is written. *)
Theorem rt_memcpy_copies m dst src count :
  dst ≤ src ∨ src + Z.of_nat count ≤ dst → present m src (Z.of_nat count) →
  wp (rt_memcpy dst src count) (λ _ m', copied m dst src (Z.of_nat count) m') m.
Proof.
  intros Hdis Hp. unfold rt_memcpy. destruct (_ && _).
  - apply cpy_blocks_run; [lia|done..].
  - by apply cpy_bytes_run.
Qed.

Lemma mov_down_run n m tmp s :
  s ≤ tmp → present m (s - Z.of_nat n) (Z.of_nat n) →
  wp (mov_down n tmp s) (λ _ m', copied m (tmp - Z.of_nat n) (s - Z.of_nat n) (Z.of_nat n) m') m.
Proof.
  revert m tmp s. induction n as [|n IH]; intros m tmp s Hle Hp; cbn [mov_down].
  - apply wp_ret. replace (tmp - Z.of_nat 0) with tmp by lia. by apply copied_0.
  - destruct (Hp (s - 1)) as [v Hv]; [lia|]. wp_simpl. eapply wp_ld8; [done|].
    unfold st8. wp_simpl. eapply wp_mono; [apply IH; [lia|]|].
    + intros k Hk. destruct (decide (k = tmp - 1)) as [->|]; [by rewrite lookup_insert_eq|].
      rewrite lookup_insert_ne by done. apply Hp. lia.
    + intros [] m' Hc k. rewrite Hc. case_decide.
      * rewrite decide_True by lia.
        rewrite lookup_insert_ne by lia. f_equal. lia.
      * destruct (decide (k = tmp - 1)) as [->|].
        -- rewrite lookup_insert_eq, decide_True by lia. rewrite <-Hv. f_equal. lia.
        -- rewrite lookup_insert_ne, decide_False by lia. done.
Qed.

(** [rt_memmove] copies its source wherever the two areas lie, also
    when they overlap. *)
Theorem rt_memmove_copies m dest src n :
  present m src (Z.of_nat n) →
  wp (rt_memmove dest src n) (λ _ m', copied m dest src (Z.of_nat n) m') m.
Proof.
  intros Hp. unfold rt_memmove.
  destruct (Z.ltb_spec src dest), (Z.ltb_spec dest (src + Z.of_nat n)); simpl;
    try (apply cpy_bytes_run; [lia|done]).
  pose proof (mov_down_run n m (dest + Z.of_nat n) (src + Z.of_nat n)) as Hr.
  replace (src + Z.of_nat n - Z.of_nat n) with src in Hr by lia.
  replace (dest + Z.of_nat n - Z.of_nat n) with dest in Hr by lia.
  apply Hr; [lia|done].
Qed.

(** [m'] is [m] with [n] bytes from [s] on set to [c]. *)
Definition filled (m : bytemap) (s n c : Z) (m' : bytemap) : Prop :=
  ∀ k, m' !! k = if decide (s ≤ k < s + n) then Some c else m !! k.
Lemma fill_step m s w n c (step rest : M bytemap unit) :
  0 ≤ w ≤ n → wp step (λ _ m1, filled m s w c m1) m →
  (∀ m1, wp rest (λ _ m2, filled m1 (s + w) (n - w) c m2) m1) →
  wp (step;; rest) (λ _ m2, filled m s n c m2) m.
Proof.
  intros Hw Hs Hr. wp_simpl. eapply wp_mono; [exact Hs|]. intros [] m1 H1. cbn beta.
  eapply wp_mono; [apply Hr|]. intros [] m2 H2 k. rewrite H2, H1.
  repeat case_decide; try lia; done.
Qed.
Lemma st32_fill m s c : wp (st32 s (c, c, c, c)) (λ _ m', filled m s 4 c m') m.
Proof.
  apply wp_inv. eexists _, _. split; [reflexivity|]. intros k.
  destruct (st32_lookup m s (c, c, c, c) k) as (m' & Em & Hk). simpl in Em.
  injection Em as <-. rewrite Hk. simpl. repeat case_decide; try lia; done.
Qed.
Lemma set_bytes_run count m s c :
  wp (set_bytes count s c) (λ _ m', filled m s (Z.of_nat count) c m') m.
Proof.
  revert m s. induction count as [|count IH]; intros m s; cbn [set_bytes].
  - apply wp_ret. intros k. by rewrite decide_False by lia.
  - apply (fill_step _ _ 1); [lia| |].
    + intros k. destruct (decide (k = s)) as [->|].
      * rewrite lookup_insert_eq, decide_True by lia. done.
      * rewrite lookup_insert_ne, decide_False by lia. done.
    + intros m1. replace (Z.of_nat (S count) - 1) with (Z.of_nat count) by lia. apply IH.
Qed.
Lemma set_words_run fuel count m s c :
  (count < fuel)%nat → wp (set_words fuel count s c) (λ _ m', filled m s (Z.of_nat count) c m') m.
Proof.
  revert count m s. induction fuel as [|fuel IH]; intros count m s Hf; [lia|].
  cbn [set_words]. destruct (Nat.leb_spec 4 count); [|apply set_bytes_run].
  apply (fill_step _ _ 4); [lia|apply st32_fill|]. intros m1.
  replace (Z.of_nat count - 4) with (Z.of_nat (count - 4)) by lia. apply IH. lia.
Qed.
Lemma set_blocks_run fuel count m s c :
  (count < fuel)%nat → wp (set_blocks fuel count s c) (λ _ m', filled m s (Z.of_nat count) c m') m.
Proof.
  revert count m s. induction fuel as [|fuel IH]; intros count m s Hf; [lia|].
  cbn [set_blocks]. destruct (Nat.leb_spec 16 count); [|apply set_words_run; lia].
  apply (fill_step _ _ 4); [lia|apply st32_fill|]. clear m. intros m.
  apply (fill_step _ _ 4); [lia|apply st32_fill|]. clear m. intros m.
  replace (s + 8) with (s + 4 + 4) by lia.
  apply (fill_step _ _ 4); [lia|apply st32_fill|]. clear m. intros m.
  replace (s + 12) with (s + 4 + 4 + 4) by lia.
  apply (fill_step _ _ 4); [lia|apply st32_fill|]. clear m. intros m.
  replace (Z.of_nat count - 4 - 4 - 4 - 4) with (Z.of_nat (count - 16)) by lia.
  replace (s + 16) with (s + 4 + 4 + 4 + 4) by lia. apply IH. lia.
Qed.
(** [rt_memset] sets exactly the [count] bytes at [s] to the low byte of [c]. *)
Lemma rt_memset_fills m s c count :
  wp (rt_memset s c count) (λ _ m', filled m s (Z.of_nat count) (c mod 256) m') m.
Proof.
  unfold rt_memset. change 0xff with (Z.ones 8). rewrite Z.land_ones by lia.
  change (2 ^ 8) with 256. destruct (_ && _); [apply set_blocks_run; lia|apply set_bytes_run].
Qed.

(** A store with the bytes 1 .. 40 at 100 .. 139. *)
Definition bytes_w : bytemap :=
  foldr (λ i m, <[100 + i := 1 + i]> m) ∅ (seqZ 0 40).
Lemma bytes_w_present : present bytes_w 100 (Z.of_nat 40).
Proof.
  intros k Hk. assert (k ∈ seqZ 100 40) as Hin by (apply elem_of_seqZ; lia).
  clear Hk. revert k Hin. apply Forall_forall.
  repeat (apply Forall_cons; split; [vm_compute; eauto|]). by apply Forall_nil.
Qed.
Lemma rt_memcpy_copies_witness :
  wp (rt_memcpy 80 100 40) (λ _ m', copied bytes_w 80 100 (Z.of_nat 40) m') bytes_w.
Proof. apply rt_memcpy_copies; [lia|exact bytes_w_present]. Defined.
Lemma rt_memmove_copies_witness :
  wp (rt_memmove 110 100 40) (λ _ m', copied bytes_w 110 100 (Z.of_nat 40) m') bytes_w.
Proof. apply rt_memmove_copies. exact bytes_w_present. Defined.
