(* ===== verification/Printf.v ===== *)
(** Formatted output of os/kservice.c: rt_vsnprintf with its integer formatting
    (32-bit long, precision on, long long and the '#' prefix configured out),
    and the console output of rt_kprintf up to the device; and a reference formatter, which makes
    the text of a format without a buffer. *)
From S2P Require Import Prelude Kservice.

(** * The output buffer

    Every character goes through [if (str < end) *str = c; ++ str;]: the memory and
    the pointer are the state, the end of the buffer does not change. A pointer that
    passes the end of the address space is undefined behaviour. *)
Record pstate := PState { ps_mem : gmap Z Z; ps_str : Z }.
Definition P (A : Type) : Type := Z → M pstate A.
#[global] Instance P_ret : MRet P := λ A a _, mret a.
#[global] Instance P_bind : MBind P := λ A B f m end_, m end_ ≫= λ a, f a end_.
Definition undefined {A} : P A := λ _, fail.
Definition lift_p {A} (o : option A) : P A := λ _, lift o.
Definition emit (c : Z) : P unit := λ end_ s,
  if ps_str s <? 4294967295 then
    Some (tt, PState (if ps_str s <? end_ then <[ps_str s := c]> (ps_mem s) else ps_mem s) (ps_str s + 1))
  else None.
(** A counted loop of equal characters. *)
Fixpoint emit_n (n : nat) (c : Z) : P unit :=
  match n with O => mret tt | S n => emit c;; emit_n n c end.
Fixpoint emit_list (l : list Z) : P unit :=
  match l with [] => mret tt | c :: l => emit c;; emit_list l end.

(** * Numbers *)

Definition ZEROPAD : Z := 1.
Definition SIGN : Z := 2.
Definition PLUS : Z := 4.
Definition SPACE : Z := 8.
Definition LEFT : Z := 16.
Definition SPECIAL : Z := 32.
Definition LARGE : Z := 64.
Definition flag_on (type flag : Z) : bool := negb (Z.land type flag =? 0).

Definition divide (n base : Z) : Z * Z :=
  if base =? 10 then (u32 n mod 10, s32 (u32 n / 10)) else (u32 n mod 16, s32 (u32 n / 16)).
Definition digit_char (large : bool) (d : Z) : Z :=
  if d <? 10 then 48 + d else if large then 55 + d else 87 + d.
(** tmp[] from index 0 on; it has 16 places. *)
Fixpoint digits_loop (fuel : nat) (large : bool) (num base : Z) : option (list Z) :=
  if num =? 0 then Some [] else
  match fuel with
  | O => None
  | S fuel => let (d, n) := divide num base in
              l ← digits_loop fuel large n base; Some (digit_char large d :: l)
  end.
Definition number_digits (large : bool) (num base : Z) : option (list Z) :=
  if num =? 0 then Some [48] else digits_loop 16 large num base.

(** while (size-- > 0) with the final value of size. *)
Definition emit_while (size c : Z) : P Z :=
  emit_n (Z.to_nat size) c;; mret (if 0 <? size then -1 else size - 1).
Definition print_number (num base s precision type : Z) : P unit :=
  let precision_bak := precision in
  let type := if flag_on type LEFT then Z.land type (Z.lnot ZEROPAD) else type in
  let c := if flag_on type ZEROPAD then 48 else 32 in
  let '(sign, num) :=
    if flag_on type SIGN then
      if num <? 0 then (45, s32 (- num))
      else if flag_on type PLUS then (43, num)
      else if flag_on type SPACE then (32, num) else (0, num)
    else (0, num) in
  tmp ← lift_p (number_digits (flag_on type LARGE) num base);
  let i := Z.of_nat (length tmp) in
  let precision := if precision <? i then i else precision in
  let size := s - precision in
  size ← (if negb (flag_on type (Z.lor ZEROPAD LEFT)) then
            emit_while (if negb (sign =? 0) && (0 <? size) then size - 1 else size) 32
          else mret size);
  size ← (if negb (sign =? 0) then emit sign;; mret (size - 1) else mret size);
  size ← (if negb (flag_on type LEFT) then emit_while size c else mret size);
  emit_n (Z.to_nat (precision - i)) 48;;
  (if negb (precision_bak =? 0) then emit_list (rev tmp) else mret tt);;
  emit_while size 32;;
  mret tt.

(** * Formats *)

(** What va_arg yields: an int or pointer as 32 bits, or a string, NULL or its
    bytes with the terminator. Another kind than the format asks for is undefined. *)
Inductive arg := AInt (v : Z) | AStr (s : option (list Z)).
Definition next_int (args : list arg) : P (Z * list arg) :=
  match args with AInt v :: args => mret (v, args) | _ => undefined end.
Definition next_str (args : list arg) : P (option (list Z) * list arg) :=
  match args with AStr s :: args => mret (s, args) | _ => undefined end.
Definition is_digit (c : Z) : bool := u32 (c - 48) <? 10.
(** *fmt; reading behind the terminator is undefined. *)
Definition peek (fmt : list Z) : P Z := lift_p (head fmt).
Definition advance (fmt : list Z) : list Z := drop 1 fmt.

Fixpoint skip_atoi (i : Z) (fmt : list Z) : Z * list Z :=
  match fmt with
  | c :: fmt' => if is_digit c then skip_atoi (s32 (i * 10 + c - 48)) fmt' else (i, fmt)
  | [] => (i, fmt)
  end.
(** From the character behind '%' on. *)
Fixpoint format_flags (flags : Z) (fmt : list Z) : Z * list Z :=
  match fmt with
  | c :: fmt' =>
      if c =? 45 then format_flags (Z.lor flags LEFT) fmt'
      else if c =? 43 then format_flags (Z.lor flags PLUS) fmt'
      else if c =? 32 then format_flags (Z.lor flags SPACE) fmt'
      else if c =? 35 then format_flags (Z.lor flags SPECIAL) fmt'
      else if c =? 48 then format_flags (Z.lor flags ZEROPAD) fmt'
      else (flags, fmt)
  | [] => (flags, fmt)
  end.
Definition format_width (flags : Z) (fmt : list Z) (args : list arg) : P (Z * Z * list Z * list arg) :=
  c ← peek fmt;
  if is_digit c then let (w, fmt) := skip_atoi 0 fmt in mret (w, flags, fmt, args)
  else if c =? 42 then
    '(w, args) ← next_int args;
    let w := s32 w in
    if w <? 0 then mret (s32 (- w), Z.lor flags LEFT, advance fmt, args)
    else mret (w, flags, advance fmt, args)
  else mret (-1, flags, fmt, args).
Definition format_precision (fmt : list Z) (args : list arg) : P (Z * list Z * list arg) :=
  c ← peek fmt;
  if c =? 46 then
    let fmt := advance fmt in
    c ← peek fmt;
    '(p, fmt, args) ← (if is_digit c then let (p, fmt) := skip_atoi 0 fmt in mret (p, fmt, args)
                       else if c =? 42 then '(p, args) ← next_int args; mret (s32 p, advance fmt, args)
                       else mret (-1, fmt, args));
    mret (if p <? 0 then 0 else p, fmt, args)
  else mret (-1, fmt, args).
(** 0, 'h' or 'l' *)
Definition format_qualifier (fmt : list Z) : P (Z * list Z) :=
  c ← peek fmt;
  if (c =? 104) || (c =? 108) then mret (c, advance fmt) else mret (0, fmt).

(** The cases of the switch that print a character, a string, a number. *)
Definition format_char (flags width v : Z) : P unit :=
  width ← (if negb (flag_on flags LEFT) then emit_n (Z.to_nat (width - 1)) 32;; mret 0
           else mret width);
  emit (u8 v);;
  emit_n (Z.to_nat (width - 1)) 32.
(** "(NULL)" *)
Definition null_text : list Z := [40; 78; 85; 76; 76; 41; 0].
Definition format_string (flags width precision : Z) (s : option (list Z)) : P unit :=
  let s := default null_text s in
  len ← lift_p (rt_strlen s);
  let len := if (0 <? precision) && (precision <? len) then precision else len in
  width ← (if negb (flag_on flags LEFT) then emit_n (Z.to_nat (width - len)) 32;; mret 0
           else mret width);
  emit_list (take (Z.to_nat len) s);;
  emit_n (Z.to_nat (width - len)) 32.
Definition format_number (flags width precision qualifier base v : Z) : P unit :=
  let signed := flag_on flags SIGN in
  let num := if qualifier =? 104 then (if signed then s16 v else u16 v) else s32 v in
  print_number num base width precision flags.
(** From one directive behind its flags, width, precision and qualifier to the
    rest of the format. *)
Definition format_directive (flags width precision qualifier : Z) (fmt : list Z) (args : list arg)
    : P (list Z * list arg) :=
  c ← peek fmt;
  let rest := advance fmt in
  let number flags base :=
    '(v, args) ← next_int args;
    format_number flags width precision qualifier base v;;
    mret (rest, args) in
  if c =? 99 then '(v, args) ← next_int args; format_char flags width v;; mret (rest, args)
  else if c =? 115 then '(s, args) ← next_str args; format_string flags width precision s;; mret (rest, args)
  else if c =? 112 then
    '(v, args) ← next_int args;
    (if width =? -1 then print_number (s32 v) 16 8 precision (Z.lor flags ZEROPAD)
     else print_number (s32 v) 16 width precision flags);;
    mret (rest, args)
  else if c =? 37 then emit 37;; mret (rest, args)
  else if c =? 111 then number flags 8
  else if c =? 88 then number (Z.lor flags LARGE) 16
  else if c =? 120 then number flags 16
  else if (c =? 100) || (c =? 105) then number (Z.lor flags SIGN) 10
  else if c =? 117 then number flags 10
  else emit 37;;
       if negb (c =? 0) then emit c;; mret (rest, args) else mret (fmt, args).

(** The loop over the format; each round takes at least one character of it. *)
Fixpoint format_loop (fuel : nat) (fmt : list Z) (args : list arg) : P unit :=
  match fuel with
  | O => undefined
  | S fuel =>
      c ← peek fmt;
      if c =? 0 then mret tt
      else if negb (c =? 37) then emit c;; format_loop fuel (advance fmt) args
      else
        let (flags, fmt) := format_flags 0 (advance fmt) in
        '(width, flags, fmt, args) ← format_width flags fmt args;
        '(precision, fmt, args) ← format_precision fmt args;
        '(qualifier, fmt) ← format_qualifier fmt;
        '(fmt, args) ← format_directive flags width precision qualifier fmt args;
        format_loop fuel fmt args
  end.
(** The length of the text, and the memory. *)
Definition rt_vsnprintf (buf size : Z) (fmt : list Z) (args : list arg) (mem : gmap Z Z)
    : option (Z * gmap Z Z) :=
  let wraps := 4294967296 <=? buf + size in
  let end_ := if wraps then 4294967295 else buf + size in
  let size := if wraps then 4294967295 - buf else size in
  '(_, s) ← format_loop (length fmt) fmt args end_ (PState mem buf);
  let mem :=
    if 0 <? size then
      if ps_str s <? end_ then <[ps_str s := 0]> (ps_mem s) else <[end_ - 1 := 0]> (ps_mem s)
    else ps_mem s in
  Some (s32 (ps_str s - buf), mem).
Definition rt_snprintf (buf size : Z) (fmt : list Z) (args : list arg) (mem : gmap Z Z) : option (Z * gmap Z Z) :=
  rt_vsnprintf buf size fmt args mem.
Definition rt_vsprintf (buf : Z) (fmt : list Z) (args : list arg) (mem : gmap Z Z) : option (Z * gmap Z Z) :=
  rt_vsnprintf buf 4294967295 fmt args mem.
Definition rt_sprintf (buf : Z) (fmt : list Z) (args : list arg) (mem : gmap Z Z) : option (Z * gmap Z Z) :=
  rt_vsprintf buf fmt args mem.

(** rt_kprintf up to the device: the bytes handed to it. *)
Definition RT_CONSOLEBUF_SIZE : Z := 128.
Definition kprintf_bytes (fmt : list Z) (args : list arg) (log_buf : Z) (mem : gmap Z Z)
    : option (list Z * gmap Z Z) :=
  '(length, mem) ← rt_vsnprintf log_buf (RT_CONSOLEBUF_SIZE - 1) fmt args mem;
  let length := if RT_CONSOLEBUF_SIZE - 1 <? length then RT_CONSOLEBUF_SIZE - 1 else length in
  l ← mapM (λ i, mem !! (log_buf + i)) (seqZ 0 length);
  Some (l, mem).

(** * What is written *)

Fixpoint emitted (end_ : Z) (l : list Z) (s : pstate) : pstate :=
  match l with
  | [] => s
  | c :: l => emitted end_ l
      (PState (if ps_str s <? end_ then <[ps_str s := c]> (ps_mem s) else ps_mem s) (ps_str s + 1))
  end.
Lemma emitted_app e l1 l2 s : emitted e (l1 ++ l2) s = emitted e l2 (emitted e l1 s).
Proof. revert s. induction l1 as [|c l1 IH]; intros s; [done|]. apply IH. Qed.
Lemma emitted_str e l s : ps_str (emitted e l s) = ps_str s + Z.of_nat (length l).
Proof. revert s. induction l as [|c l IH]; intros s; simpl; [lia|]. rewrite IH. simpl. lia. Qed.
Lemma emitted_mem e l s a : ps_mem (emitted e l s) !! a =
  if decide (ps_str s ≤ a < ps_str s + Z.of_nat (length l) ∧ a < e)
  then l !! Z.to_nat (a - ps_str s) else ps_mem s !! a.
Proof.
  revert s. induction l as [|c l IH]; intros s; cbn [emitted length].
  { by rewrite decide_False by lia. }
  rewrite IH. cbn [ps_mem ps_str]. clear IH.
  destruct (decide (a = ps_str s)) as [->|Hne].
  - rewrite decide_False by lia. destruct (Z.ltb_spec (ps_str s) e).
    + rewrite lookup_insert_eq, decide_True by lia. by rewrite Z.sub_diag.
    + by rewrite decide_False by lia.
  - assert ((if ps_str s <? e then <[ps_str s:=c]> (ps_mem s) else ps_mem s) !! a = ps_mem s !! a) as ->.
    { destruct (ps_str s <? e); [by rewrite lookup_insert_ne|done]. }
    case_decide as H1.
    + rewrite decide_True by lia.
      replace (Z.to_nat (a - ps_str s)) with (S (Z.to_nat (a - (ps_str s + 1)))) by lia. done.
    + by rewrite decide_False by lia.
Qed.

(** [m] writes the text [l], wherever the buffer is and ends, when the pointer can
    count its characters. *)
Definition writes {A} (m : P A) (l : list Z) (a : A) : Prop := ∀ e s, ps_str s < 4294967296 →
  m e s = if ps_str s + Z.of_nat (length l) <? 4294967296 then Some (a, emitted e l s) else None.
Definition undef {A} (m : P A) : Prop := ∀ e s, ps_str s < 4294967296 → m e s = None.

Lemma writes_ret {A} (a : A) : writes (mret a) [] a.
Proof. intros e s Hs. by rewrite (proj2 (Z.ltb_lt _ _)) by (simpl; lia). Qed.
Lemma writes_bind {A B} (m : P A) (f : A → P B) l1 l2 a b :
  writes m l1 a → writes (f a) l2 b → writes (m ≫= f) (l1 ++ l2) b.
Proof.
  intros Hm Hf e s Hs. unfold mbind, P_bind, mbind, M_bind. rewrite Hm, length_app, emitted_app by done.
  destruct (Z.ltb_spec (ps_str s + Z.of_nat (length l1)) 4294967296).
  - rewrite Hf, emitted_str by (rewrite emitted_str; lia). by rewrite Nat2Z.inj_add, Z.add_assoc.
  - by rewrite (proj2 (Z.ltb_ge _ _)) by lia.
Qed.
Lemma writes_emit c : writes (emit c) [c] tt.
Proof.
  intros e s Hs. unfold emit. change (Z.of_nat (length [c])) with 1.
  assert ((ps_str s + 1 <? 4294967296) = (ps_str s <? 4294967295)) as ->; [|done].
  apply eq_bool_prop_intro. rewrite !Is_true_true, !Z.ltb_lt. lia.
Qed.
Lemma writes_emit_n n c : writes (emit_n n c) (replicate n c) tt.
Proof.
  induction n as [|n IH]; [apply writes_ret|]. by apply (writes_bind _ _ [c] _ tt); [apply writes_emit|].
Qed.
Lemma writes_emit_list l : writes (emit_list l) l tt.
Proof.
  induction l as [|c l IH]; [apply writes_ret|]. by apply (writes_bind _ _ [c] l tt); [apply writes_emit|].
Qed.
Lemma writes_emit_while size c :
  writes (emit_while size c) (replicate (Z.to_nat size) c) (if 0 <? size then -1 else size - 1).
Proof.
  unfold emit_while. rewrite <-(app_nil_r (replicate _ _)).
  eapply writes_bind; [apply writes_emit_n|apply writes_ret].
Qed.
Lemma writes_lift {A} (a : A) : writes (lift_p (Some a)) [] a.
Proof. apply writes_ret. Qed.
(** A format without directives is written as it is. *)
Lemma format_loop_plain l args :
  Forall (λ c, c ≠ 0 ∧ c ≠ 37) l → writes (format_loop (length (l ++ [0])) (l ++ [0]) args) l tt.
Proof.
  induction 1 as [|c l [Hc0 Hc] _ IH]; cbn [format_loop length app].
  { apply (writes_bind _ _ [] [] 0); [apply writes_lift|apply writes_ret]. }
  apply (writes_bind _ _ [] _ c); [apply writes_lift|].
  rewrite (proj2 (Z.eqb_neq _ _) Hc0), (proj2 (Z.eqb_neq _ _) Hc). simpl.
  by apply (writes_bind _ _ [c] _ tt); [apply writes_emit|].
Qed.

(** The memory after a call that writes [text]. *)
Record printed (buf size : Z) (text : list Z) (mem mem' : gmap Z Z) : Prop := {
  pr_text : ∀ i, 0 ≤ i < Z.min (size - 1) (Z.of_nat (length text)) →
    mem' !! (buf + i) = text !! Z.to_nat i;
  pr_end : mem' !! (buf + Z.min (size - 1) (Z.of_nat (length text))) = Some 0;
  pr_other : ∀ a, ¬ (buf ≤ a < buf + size) → mem' !! a = mem !! a
}.
(** A buffer of no size, or one that is cut off at the end of the address space. *)
Definition room_of (buf size : Z) : Z := Z.min size (4294967295 - buf).
Lemma rt_vsnprintf_eq buf size fmt args mem :
  0 ≤ buf < 4294967296 → 0 ≤ size →
  let end_ := buf + room_of buf size in
  rt_vsnprintf buf size fmt args mem =
    ('(_, s) ← format_loop (length fmt) fmt args end_ (PState mem buf);
     Some (s32 (ps_str s - buf),
       if 0 <? room_of buf size then
         if ps_str s <? end_ then <[ps_str s := 0]> (ps_mem s) else <[end_ - 1 := 0]> (ps_mem s)
       else ps_mem s)).
Proof.
  intros Hb Hs end_. unfold rt_vsnprintf, end_, room_of. destruct (Z.leb_spec 4294967296 (buf + size)).
  - by replace (Z.min size (4294967295 - buf)) with (4294967295 - buf) by lia;
      replace (buf + (4294967295 - buf)) with 4294967295 by lia.
  - by replace (Z.min size (4294967295 - buf)) with size by lia.
Qed.
Lemma rt_vsnprintf_run fmt args text buf size mem :
  writes (format_loop (length fmt) fmt args) text tt → 0 ≤ buf < 4294967296 → 0 ≤ size →
  buf + Z.of_nat (length text) < 4294967296 →
  ∃ mem', rt_vsnprintf buf size fmt args mem = Some (s32 (Z.of_nat (length text)), mem') ∧
    if 0 <? room_of buf size then printed buf (room_of buf size) text mem mem' else mem' = mem.
Proof.
  intros Hw Hb Hs Ht. rewrite rt_vsnprintf_eq by done. cbv zeta. rewrite Hw by (cbn; lia).
  set (size' := room_of buf size). assert (0 ≤ size') as Hs' by (unfold size', room_of; lia).
  change (ps_str (PState mem buf)) with buf. rewrite (proj2 (Z.ltb_lt _ _) Ht). cbn. set (s := emitted _ _ _).
  assert (ps_str s = buf + Z.of_nat (length text)) as Es by (unfold s; by rewrite emitted_str).
  assert (∀ a, ps_mem s !! a = if decide (buf ≤ a < buf + Z.of_nat (length text) ∧ a < buf + size')
                               then text !! Z.to_nat (a - buf) else mem !! a) as Em
    by (intros; apply emitted_mem).
  rewrite Es. replace (buf + Z.of_nat (length text) - buf) with (Z.of_nat (length text)) by lia.
  eexists. split; [done|]. destruct (Z.ltb_spec 0 size').
  2:{ apply map_eq. intros a. rewrite Em. by rewrite decide_False by lia. }
  assert ((if buf + Z.of_nat (length text) <? buf + size'
           then <[buf + Z.of_nat (length text) := 0]> (ps_mem s)
           else <[buf + size' - 1 := 0]> (ps_mem s)) =
          <[buf + Z.min (size' - 1) (Z.of_nat (length text)) := 0]> (ps_mem s)) as ->.
  { destruct (Z.ltb_spec (buf + Z.of_nat (length text)) (buf + size'));
      [rewrite Z.min_r by lia|rewrite Z.min_l by lia]; do 2 f_equal; lia. }
  constructor; [|apply lookup_insert_eq|].
  - intros i Hi. rewrite lookup_insert_ne, Em, decide_True by lia. do 2 f_equal. lia.
  - intros a' Ha. rewrite lookup_insert_ne by lia. by rewrite Em, decide_False by lia.
Qed.

(** More fuel than the length of the format changes nothing. *)
Lemma skip_atoi_length i fmt : (length (skip_atoi i fmt).2 ≤ length fmt)%nat.
Proof.
  revert i. induction fmt as [|c fmt IH]; intros i; [done|]. simpl. destruct (is_digit c); [|done].
  etrans; [apply IH|lia].
Qed.
Lemma format_flags_length flags fmt : (length (format_flags flags fmt).2 ≤ length fmt)%nat.
Proof.
  revert flags. induction fmt as [|c fmt IH]; intros flags; [done|]. simpl.
  repeat (case_match; [etrans; [apply IH|lia]|]). done.
Qed.
(** What holds of every result of a step. *)
Definition yields {A} (m : P A) (Q : A → Prop) : Prop := ∀ e s a s', m e s = Some (a, s') → Q a.
Lemma yields_ret {A} (a : A) (Q : A → Prop) : Q a → yields (mret a) Q.
Proof. by intros ? e s ? ? [= <- _]. Qed.
Lemma yields_any {A} (m : P A) : yields m (λ _, True).
Proof. done. Qed.
Lemma yields_undefined {A} (Q : A → Prop) : yields undefined Q.
Proof. by intros e s a s'. Qed.
Lemma yields_bind {A B} (m : P A) (f : A → P B) (R : A → Prop) (Q : B → Prop) :
  yields m R → (∀ a, R a → yields (f a) Q) → yields (m ≫= f) Q.
Proof.
  intros Hm Hf e s b s' E. unfold mbind, P_bind, mbind, M_bind in E.
  destruct (m e s) as [[a s1]|] eqn:Em; [|done]. eapply Hf; [by eapply Hm|done].
Qed.
Lemma bind_ext {A B} (m : P A) (f g : A → P B) (R : A → Prop) e s :
  yields m R → (∀ a s', R a → f a e s' = g a e s') → (m ≫= f) e s = (m ≫= g) e s.
Proof.
  intros Hm Hf. unfold mbind, P_bind, mbind, M_bind.
  destruct (m e s) as [[a s1]|] eqn:Em; [|done]. eapply Hf; by eapply Hm.
Qed.
Ltac yields_step :=
  match goal with
  | |- yields (_ ≫= _) _ => eapply yields_bind; [apply yields_any|]
  | |- ∀ _, _ => intros
  | |- yields (if ?b then _ else _) _ => destruct b
  | |- yields (let '(_, _) := ?x in _) _ => destruct x eqn:?
  | |- yields (mret _) _ => apply yields_ret
  | |- yields undefined _ => apply yields_undefined
  | |- yields (match ?x with _ => _ end) _ => destruct x eqn:?
  | _ => progress cbn zeta beta
  end.
Lemma advance_length fmt : (length (advance fmt) ≤ length fmt)%nat.
Proof. unfold advance. rewrite length_drop. lia. Qed.
Lemma format_width_length flags fmt args :
  yields (format_width flags fmt args) (λ '(_, _, fmt', _), length fmt' ≤ length fmt)%nat.
Proof.
  pose proof (advance_length fmt) as Ha. pose proof (skip_atoi_length 0 fmt) as Hs.
  unfold format_width. by repeat yields_step.
Qed.
Lemma format_precision_length fmt args :
  yields (format_precision fmt args) (λ '(_, fmt', _), length fmt' ≤ length fmt)%nat.
Proof.
  pose proof (advance_length fmt) as Ha. pose proof (advance_length (advance fmt)) as Ha'.
  pose proof (skip_atoi_length 0 (advance fmt)) as Hs. unfold format_precision.
  eapply yields_bind; [apply yields_any|intros c _]. destruct (c =? 46); [|by apply yields_ret].
  cbv zeta. eapply yields_bind; [apply yields_any|intros c' _].
  eapply (yields_bind _ _ (λ '(_, fmt', _), length fmt' ≤ length fmt)%nat); [|by intros [[p fmt'] args']; repeat yields_step].
  repeat yields_step; try lia. destruct (skip_atoi 0 (advance fmt)); simplify_eq/=; lia.
Qed.
Lemma format_qualifier_length fmt :
  yields (format_qualifier fmt) (λ '(_, fmt'), length fmt' ≤ length fmt)%nat.
Proof. pose proof (advance_length fmt) as Ha. unfold format_qualifier. by repeat yields_step. Qed.
Lemma format_directive_length flags width precision qualifier fmt args :
  yields (format_directive flags width precision qualifier fmt args) (λ '(fmt', _), length fmt' ≤ length fmt)%nat.
Proof. pose proof (advance_length fmt) as Ha. unfold format_directive. by repeat yields_step. Qed.
Lemma format_loop_fuel fuel1 : ∀ fuel2 fmt args e s,
  (length fmt ≤ fuel1)%nat → (length fmt ≤ fuel2)%nat →
  format_loop fuel1 fmt args e s = format_loop fuel2 fmt args e s.
Proof.
  induction fuel1 as [|fuel1 IH]; intros fuel2 fmt args e s H1 H2.
  { destruct fmt; [|simpl in *; lia]. by destruct fuel2. }
  destruct fuel2 as [|fuel2]; [by destruct fmt; simpl in *; [|lia]|].
  destruct fmt as [|c0 fmt]; [done|]. cbn [format_loop length] in *. change (advance (c0 :: fmt)) with fmt.
  eapply bind_ext; [apply yields_any|]. intros c s' _. destruct (c =? 0); [done|].
  destruct (negb (c =? 37)).
  { eapply bind_ext; [apply yields_any|]. intros _ s1 _. apply IH; lia. }
  pose proof (format_flags_length 0 fmt). destruct (format_flags 0 fmt) as [flags fmt1]. simpl in *.
  eapply bind_ext; [apply format_width_length|]. intros [[[width flags2] fmt2] args2] s2 Hl2.
  eapply bind_ext; [apply format_precision_length|]. intros [[precision fmt3] args3] s3 Hl3.
  eapply bind_ext; [apply format_qualifier_length|]. intros [qualifier fmt4] s4 Hl4.
  eapply bind_ext; [apply format_directive_length|]. intros [fmt5 args5] s5 Hl5. apply IH; lia.
Qed.

(** rt_kprintf hands the device the text of its format when it has less than 127
    characters; of a longer text it hands over the first 126 and, as the 127th, the
    terminator of its buffer. *)
Lemma kprintf_bytes_run fmt args text log_buf mem :
  writes (format_loop (length fmt) fmt args) text tt →
  0 ≤ log_buf → log_buf + 128 < 4294967296 →
  log_buf + Z.of_nat (length text) < 4294967296 → Z.of_nat (length text) < 2147483648 →
  ∃ mem', kprintf_bytes fmt args log_buf mem =
    Some (if (length text <? 127)%nat then text else take 126 text ++ [0], mem').
Proof.
  intros Hw Hb Hlim Htext Hint. unfold kprintf_bytes. change (RT_CONSOLEBUF_SIZE - 1) with 127.
  destruct (rt_vsnprintf_run fmt args text log_buf 127 mem Hw) as (mem' & E & Hp); [lia..|].
  unfold room_of in Hp. rewrite Z.min_l in Hp by lia. destruct Hp as [Ht He _]. rewrite E, s32_small by lia. cbn. set (n := if 127 <? Z.of_nat (length text) then 127 else Z.of_nat (length text)).
  set (out := if (length text <? 127)%nat then text else take 126 text ++ [0]).
  assert (mapM (λ i, mem' !! (log_buf + i)) (seqZ 0 n) = Some out) as Em; [|rewrite Em; by exists mem'].
  assert (Z.of_nat (length out) = n) as Elen.
  { unfold out, n. destruct (Nat.ltb_spec (length text) 127), (Z.ltb_spec 127 (Z.of_nat (length text)));
      rewrite ?length_app, ?length_take; change (length [0]) with 1%nat; lia. }
  apply mapM_Some. apply Forall2_same_length_lookup_2.
  { rewrite length_seqZ. lia. }
  intros i a b Ha Hb'. apply lookup_seqZ in Ha as [-> Hi]. pose proof (lookup_lt_Some _ _ _ Hb') as Hlt.
  unfold out in Hb', Hlt. destruct (Nat.ltb_spec (length text) 127) as [Hs|Hs].
  - rewrite Ht by lia. rewrite <-Hb'. f_equal. lia.
  - destruct (decide (i < 126)%nat).
    + rewrite Ht by lia. rewrite lookup_app_l, lookup_take_lt in Hb' by (rewrite ?length_take; lia).
      rewrite <-Hb'. f_equal. lia.
    + assert (i = 126%nat) as -> by (rewrite length_app, length_take in Hlt; change (length [0]) with 1%nat in Hlt; lia).
      rewrite lookup_app_r in Hb' by (rewrite length_take; lia). rewrite length_take, Nat.min_l in Hb' by lia.
      change (Some 0 = Some b) in Hb'. rewrite <-Hb', <-He. f_equal. lia.
Qed.

(** * Numbers *)

Definition value (base : Z) (ds : list Z) : Z := foldr (λ d v, d + base * v) 0 ds.
(** Digits from the least significant one on, without a leading zero. *)
Record digits_of (base n : Z) (ds : list Z) : Prop := {
  dg_range : Forall (λ d, 0 ≤ d < base) ds;
  dg_value : value base ds = n;
  dg_lead : ds ≠ [] → last ds ≠ Some 0
}.
Lemma divide_eq n base : base = 10 ∨ base = 16 →
  divide n base = (u32 n mod base, u32 n / base).
Proof.
  pose proof (u32_range n) as Hu. unfold divide.
  intros [->| ->]; simpl; f_equal; apply s32_small; split;
    try (apply Z.le_trans with 0; [lia|apply Z.div_pos; lia]); apply Z.div_lt_upper_bound; lia.
Qed.
Lemma u32_zero n : -2147483648 ≤ n < 2147483648 → u32 n = 0 ↔ n = 0.
Proof. intros Hn. unfold u32. split; [|by intros ->]. intros E. apply Z.mod_divide in E as [q ->]; lia. Qed.
Lemma digits_loop_run fuel large n base : base = 10 ∨ base = 16 → -2147483648 ≤ n < 2147483648 →
  u32 n < base ^ Z.of_nat fuel →
  ∃ ds, digits_loop fuel large n base = Some (digit_char large <$> ds) ∧ digits_of base (u32 n) ds ∧
    (length ds ≤ fuel)%nat ∧ (n ≠ 0 → ds ≠ []).
Proof.
  intros Hb. assert (10 ≤ base) as Hb10 by (destruct Hb; lia).
  revert n. induction fuel as [|fuel IH]; intros n Hn Hlt.
  - simpl in Hlt. pose proof (u32_range n). assert (u32 n = 0) as E by lia. rewrite E.
    apply u32_zero in E as ->; [|done]. exists []. split; [done|]. split; [by constructor|]. done.
  - cbn [digits_loop]. destruct (Z.eqb_spec n 0) as [->|Hz].
    { exists []. split; [done|]. split; [by constructor|]. split; [simpl; lia|done]. }
    rewrite divide_eq by done. pose proof (u32_range n) as Hu.
    set (q := u32 n / base). assert (0 ≤ q < 2147483648) as Hq.
    { split; [apply Z.div_pos; lia|apply Z.div_lt_upper_bound; lia]. }
    rewrite Nat2Z.inj_succ, Z.pow_succ_r in Hlt by lia.
    destruct (IH q) as (ds & E & [Hr Hv Hl] & Hlen & Hne); [lia| |].
    { rewrite u32_small by lia. apply Z.div_lt_upper_bound; lia. }
    rewrite E. simpl. rewrite u32_small in Hv by lia.
    exists (u32 n mod base :: ds). split; [done|]. split; [|simpl; split; [lia|done]].
    pose proof (Z.mod_pos_bound (u32 n) base).
    pose proof (Z_div_mod_eq_full (u32 n) base) as Ed. fold q in Ed. constructor.
    + constructor; [lia|done].
    + simpl. rewrite Hv. lia.
    + intros _. destruct ds as [|d ds]; [|by apply Hl]. simpl in *. intros [= E0].
      assert (u32 n = 0) as Eu by lia. by destruct Hz; apply u32_zero.
Qed.

Lemma digits_loop_more fuel large n base l :
  digits_loop fuel large n base = Some l → digits_loop (S fuel) large n base = Some l.
Proof.
  revert n l. induction fuel as [|fuel IH]; intros n l; [by simpl; destruct (n =? 0)|].
  cbn [digits_loop]. destruct (n =? 0); [done|]. destruct (divide n base) as [d q].
  destruct (digits_loop fuel large q base) as [l'|] eqn:E; [|done]. apply IH in E.
  cbn [digits_loop] in E. by rewrite E.
Qed.

Lemma number_digits_run large num base :
  base = 10 ∨ base = 16 → -2147483648 ≤ num < 2147483648 →
  ∃ ds, number_digits large num base = Some (digit_char large <$> ds) ∧
    Forall (λ d, 0 ≤ d < base) ds ∧ value base ds = u32 num ∧ (length ds ≤ 10)%nat ∧
    (num = 0 ∧ ds = [0] ∨ num ≠ 0 ∧ ds ≠ [] ∧ last ds ≠ Some 0).
Proof.
  intros Hb Hn. unfold number_digits. destruct (Z.eqb_spec num 0) as [->|Hz].
  { exists [0]. split; [by destruct large|]. split; [by repeat constructor; destruct Hb; lia|].
    split; [simpl; change (u32 0) with 0; lia|]. split; [simpl; lia|by left]. }
  assert (u32 num < base ^ Z.of_nat 10) as Hlt.
  { pose proof (u32_range num). destruct Hb as [->| ->]; simpl; lia. }
  destruct (digits_loop_run 10 large num base) as (ds & E & [Hr Hv Hl] & Hlen & Hne); [done..|].
  exists ds. split; [by do 6 apply digits_loop_more|]. split; [done|]. split; [done|].
  split; [done|]. right. auto.
Qed.

(** The text of a number: padding, sign, zeros up to the precision, digits. *)
Definition sign_text (num type : Z) : list Z :=
  if flag_on type SIGN then
    if num <? 0 then [45] else if flag_on type PLUS then [43] else if flag_on type SPACE then [32] else []
  else [].
Definition number_text (digits : list Z) (num s precision type : Z) : list Z :=
  let sign := sign_text num type in
  let places := Z.max precision (Z.of_nat (length digits)) in
  let pad := Z.to_nat (s - places - Z.of_nat (length sign)) in
  let zeros := replicate (Z.to_nat (precision - Z.of_nat (length digits))) 48 in
  let digits := if precision =? 0 then [] else digits in
  if flag_on type LEFT then sign ++ zeros ++ digits ++ replicate pad 32
  else if flag_on type ZEROPAD then sign ++ replicate pad 48 ++ zeros ++ digits
  else replicate pad 32 ++ sign ++ zeros ++ digits.

Lemma flag_on_clear type f : Z.land (Z.lnot ZEROPAD) f = f → flag_on (Z.land type (Z.lnot ZEROPAD)) f = flag_on type f.
Proof. intros E. unfold flag_on. by rewrite <-Z.land_assoc, E. Qed.
Lemma flag_on_or type f g : flag_on type (Z.lor f g) = flag_on type f || flag_on type g.
Proof.
  unfold flag_on. rewrite Z.land_lor_distr_r. destruct (Z.eqb_spec (Z.land type f) 0) as [->|Hf]; [done|].
  destruct (Z.eqb_spec (Z.lor (Z.land type f) (Z.land type g)) 0) as [E|]; [|done].
  by apply Z.lor_eq_0_iff in E as [? _].
Qed.
Lemma writes_eq {A} (m : P A) l l' a : writes m l a → l = l' → writes m l' a.
Proof. by intros ? <-. Qed.
(** The part behind the digits: paddings, sign and digits in the order of the code. *)
Definition print_rest (left zeropad : bool) (sign : Z) (tmp : list Z) (s precision : Z) : P unit :=
  let i := Z.of_nat (length tmp) in
  let precision' := if precision <? i then i else precision in
  let size := s - precision' in
  size ← (if negb (zeropad || left) then
            emit_while (if negb (sign =? 0) && (0 <? size) then size - 1 else size) 32
          else mret size);
  size ← (if negb (sign =? 0) then emit sign;; mret (size - 1) else mret size);
  size ← (if negb left then emit_while size (if zeropad then 48 else 32) else mret size);
  emit_n (Z.to_nat (precision' - i)) 48;;
  (if negb (precision =? 0) then emit_list (rev tmp) else mret tt);;
  emit_while size 32;;
  mret tt.
Ltac writes_steps :=
  repeat match goal with
  | |- writes (_ ≫= _) _ _ => eapply writes_bind
  | |- writes (emit_while _ _) _ _ => apply writes_emit_while
  | |- writes (emit_n _ _) _ _ => apply writes_emit_n
  | |- writes (emit _) _ _ => apply writes_emit
  | |- writes (emit_list _) _ _ => apply writes_emit_list
  | |- writes (mret _) _ _ => apply writes_ret
  end.
Lemma replicate_neg (c z : Z) : z ≤ 0 → replicate (Z.to_nat z) c = [].
Proof. intros. by replace (Z.to_nat z) with O by lia. Qed.
Lemma print_rest_writes left zeropad sign tmp s precision :
  let sign_t := if sign =? 0 then [] else [sign] in
  let places := Z.max precision (Z.of_nat (length tmp)) in
  let pad := Z.to_nat (s - places - Z.of_nat (length sign_t)) in
  let zeros := replicate (Z.to_nat (precision - Z.of_nat (length tmp))) 48 in
  let digits := if precision =? 0 then [] else rev tmp in
  writes (print_rest left (zeropad && negb left) sign tmp s precision)
    (if left then sign_t ++ zeros ++ digits ++ replicate pad 32
     else if zeropad then sign_t ++ replicate pad 48 ++ zeros ++ digits
     else replicate pad 32 ++ sign_t ++ zeros ++ digits) tt.
Proof.
  intros sign_t places pad zeros digits. unfold print_rest.
  set (i := Z.of_nat (length tmp)) in *.
  assert ((if precision <? i then i else precision) = places) as ->
    by (unfold places; destruct (Z.ltb_spec precision i); lia).
  assert (replicate (Z.to_nat (places - i)) 48 = zeros) as Ez
    by (unfold zeros, places; f_equal; lia).
  assert (writes (if negb (precision =? 0) then emit_list (rev tmp) else mret tt) digits tt) as Hd.
  { unfold digits. destruct (precision =? 0); [apply writes_ret|apply writes_emit_list]. }
  destruct left, zeropad; simpl; unfold sign_t in *; destruct (Z.eqb_spec sign 0); simpl in *;
    (eapply writes_eq; [writes_steps; exact Hd|]); rewrite Ez; simpl; rewrite ?app_nil_r.
  all: repeat match goal with |- context [?x <? ?y] => destruct (Z.ltb_spec x y); try lia end.
  all: unfold pad; change (Z.of_nat 0) with 0; change (Z.of_nat 1) with 1; rewrite ?Z.sub_0_r.
  all: repeat match goal with |- context [replicate (Z.to_nat ?z) ?c] => rewrite (replicate_neg c z) by lia end.
  all: rewrite ?app_nil_r; simpl; try done.
Qed.


(** The sign and the number whose digits are printed. *)
Definition sign_of (num type : Z) : Z * Z :=
  if flag_on type SIGN then
    if num <? 0 then (45, s32 (- num))
    else if flag_on type PLUS then (43, num)
    else if flag_on type SPACE then (32, num) else (0, num)
  else (0, num).
Lemma print_number_eq num base s precision type :
  print_number num base s precision type =
    (let '(sign, num) := sign_of num type in
     tmp ← lift_p (number_digits (flag_on type LARGE) num base);
     print_rest (flag_on type LEFT) (flag_on type ZEROPAD && negb (flag_on type LEFT)) sign tmp s precision).
Proof.
  unfold print_number. destruct (flag_on type LEFT) eqn:El; cbv zeta.
  - rewrite flag_on_or, (flag_on_clear type SIGN), (flag_on_clear type PLUS), (flag_on_clear type SPACE),
      (flag_on_clear type LARGE), (flag_on_clear type LEFT), El by done.
    assert (flag_on (Z.land type (Z.lnot ZEROPAD)) ZEROPAD = false) as ->
      by (unfold flag_on; by rewrite <-Z.land_assoc, Z.land_0_r).
    rewrite andb_false_r. fold (sign_of num type). destruct (sign_of num type). reflexivity.
  - rewrite flag_on_or, El, andb_true_r. fold (sign_of num type). destruct (sign_of num type). reflexivity.
Qed.
Lemma sign_of_text num type : -2147483648 ≤ num < 2147483648 →
  let '(sign, n) := sign_of num type in
  sign_text num type = (if sign =? 0 then [] else [sign]) ∧ -2147483648 ≤ n < 2147483648 ∧
  u32 n = if flag_on type SIGN then Z.abs num else u32 num.
Proof.
  intros Hn. unfold sign_of, sign_text. destruct (flag_on type SIGN); [|done].
  destruct (Z.ltb_spec num 0).
  - split; [done|]. destruct (decide (num = -2147483648)) as [->|Hne]; [done|].
    rewrite s32_small by lia. split; [lia|]. rewrite u32_small by lia. lia.
  - destruct (flag_on type PLUS); [|destruct (flag_on type SPACE)];
      (split; [done|]; split; [done|]; rewrite u32_small; lia).
Qed.

(** C25. The number of a directive is written as [number_text]: the digits of its
    absolute value (signed conversions) or of its unsigned value, in base 10 or 16,
    with its sign, padded to the width on the side and with the character the flags
    say. *)
Theorem print_number_correct num base s precision type :
  base = 10 ∨ base = 16 → -2147483648 ≤ num < 2147483648 →
  ∃ ds, Forall (λ d, 0 ≤ d < base) ds ∧
    value base ds = (if flag_on type SIGN then Z.abs num else u32 num) ∧
    (ds = [0] ∨ last ds ≠ Some 0) ∧
    writes (print_number num base s precision type)
      (number_text (rev (digit_char (flag_on type LARGE) <$> ds)) num s precision type) tt.
Proof.
  intros Hb Hn. pose proof (sign_of_text num type Hn) as Hs. rewrite print_number_eq.
  destruct (sign_of num type) as [sign n]. destruct Hs as (Et & Hn' & Ev).
  destruct (number_digits_run (flag_on type LARGE) n base) as (ds & Ed & Hr & Hv & _ & Hl); [done..|].
  exists ds. split; [done|]. split; [by rewrite Hv|]. split; [naive_solver|].
  rewrite Ed. eapply writes_eq.
  { eapply writes_bind; [apply writes_lift|]. apply print_rest_writes. }
  simpl. unfold number_text. rewrite Et, length_rev.
  by destruct (flag_on type LEFT), (flag_on type ZEROPAD).
Qed.

(** * Reading back *)

Lemma digit_char_decimal large d : 0 ≤ d < 10 → digit_char large d = 48 + d ∧ is_digit (48 + d) = true.
Proof.
  intros Hd. unfold digit_char, is_digit. rewrite (proj2 (Z.ltb_lt d 10)) by lia. split; [done|].
  replace (48 + d - 48) with d by lia. rewrite u32_small by lia. apply Z.ltb_lt. lia.
Qed.
Definition horner (i : Z) (ms : list Z) : Z := foldl (λ a d, a * 10 + d) i ms.
Lemma horner_ge ms : ∀ i, 0 ≤ i → Forall (λ d, 0 ≤ d < 10) ms → i ≤ horner i ms.
Proof.
  induction ms as [|m ms IH]; intros i Hi Hf; [done|]. apply Forall_cons in Hf as [Hm Hf].
  simpl. etransitivity; [|apply (IH (i * 10 + m)); [lia|done]]. lia.
Qed.
Lemma skip_atoi_run large ms : ∀ i rest,
  Forall (λ d, 0 ≤ d < 10) ms → (∀ c, head rest = Some c → is_digit c = false) →
  0 ≤ i → horner i ms < 2147483648 →
  skip_atoi i ((digit_char large <$> ms) ++ rest) = (horner i ms, rest).
Proof.
  induction ms as [|m ms IH]; intros i rest Hf Hr Hi Hlt.
  - destruct rest as [|c rest]; [done|]. simpl. by rewrite (Hr c).
  - apply Forall_cons in Hf as [Hm Hf]. destruct (digit_char_decimal large m Hm) as [Ec Ed].
    simpl. rewrite Ec, Ed. pose proof (horner_ge ms (i * 10 + m) ltac:(lia) Hf). simpl in Hlt.
    replace (i * 10 + (48 + m) - 48) with (i * 10 + m) by lia. rewrite s32_small by (unfold horner in *; lia).
    apply IH; [done|done|lia|done].
Qed.
Lemma horner_value ds : horner 0 (rev ds) = value 10 ds.
Proof.
  unfold horner, value. rewrite <-(rev_involutive ds) at 2. induction (rev ds) as [|m ms IH] using rev_ind; [done|].
  rewrite foldl_app, rev_app_distr. simpl. rewrite IH. lia.
Qed.

(** What "%d" prints of a number that is not negative, the format parser's own
    skip_atoi reads back. *)
Theorem print_number_skip_atoi num rest :
  0 ≤ num < 2147483648 → (∀ c, head rest = Some c → is_digit c = false) →
  ∃ text, writes (print_number num 10 (-1) (-1) SIGN) text tt ∧ skip_atoi 0 (text ++ rest) = (num, rest).
Proof.
  intros Hn Hr. pose proof (print_number_eq num 10 (-1) (-1) SIGN) as E.
  assert (sign_of num SIGN = (0, num)) as Es.
  { unfold sign_of. change (flag_on SIGN SIGN) with true. by rewrite (proj2 (Z.ltb_ge num 0)) by lia. }
  rewrite Es in E. change (flag_on SIGN LARGE) with false in E.
  destruct (number_digits_run false num 10) as (ds & Ed & Hf & Hv & _ & _); [by left|lia|].
  rewrite u32_small in Hv by lia. exists (digit_char false <$> rev ds). split.
  - rewrite E. cbv beta iota. rewrite Ed.
    eapply writes_eq; [eapply writes_bind; [apply writes_lift|apply print_rest_writes]|].
    simpl. rewrite !replicate_neg by lia. simpl. symmetry. apply map_rev.
  - rewrite skip_atoi_run; [|by apply Forall_rev|done|done|rewrite horner_value; lia].
    by rewrite horner_value, Hv.
Qed.

(** divide() knows base 10 and takes 16 for every other one. *)
Lemma print_number_octal num s precision type e st :
  print_number num 8 s precision type e st = print_number num 16 s precision type e st.
Proof.
  assert (∀ fuel large n, digits_loop fuel large n 8 = digits_loop fuel large n 16) as Ed.
  { induction fuel as [|fuel IH]; intros large n; [done|]. cbn [digits_loop]. destruct (n =? 0); [done|].
    change (divide n 8) with (divide n 16). destruct (divide n 16) as [d q]. by rewrite IH. }
  rewrite !print_number_eq. destruct (sign_of num type). unfold number_digits. by rewrite Ed.
Qed.
(** An octal directive prints the number in base 16: "%o" writes what "%x" writes, under any flags,
    width, precision and qualifier. *)
Theorem format_directive_octal_is_hex flags width precision qualifier rest args e s :
  format_directive flags width precision qualifier (111 :: rest) args e s =
    format_directive flags width precision qualifier (120 :: rest) args e s.
Proof.
  set (number base := '(v, args) ← next_int args;
    format_number flags width precision qualifier base v;; mret (rest, args) : P (list Z * list arg)).
  transitivity (number 8 e s); [done|]. transitivity (number 16 e s); [|done]. unfold number.
  eapply bind_ext; [apply yields_any|]. intros [v args'] s1 _. unfold mbind, P_bind, mbind, M_bind, format_number.
  by rewrite print_number_octal.
Qed.

(** * The text of a format

    What a call of the family prints, as a function of format and arguments alone: the conversion
    specifications are taken apart and each is given its text. *)
Definition pad (n : Z) : list Z := replicate (Z.to_nat n) 32.
Definition justified (flags width : Z) (t : list Z) : list Z :=
  let fill := pad (width - Z.of_nat (length t)) in
  if flag_on flags LEFT then t ++ fill else fill ++ t.
(** The digits of a number, from the least significant one on. *)
Fixpoint digits (fuel : nat) (base n : Z) : list Z :=
  if n =? 0 then [] else match fuel with O => [] | S fuel => n mod base :: digits fuel base (n / base) end.
Definition number_digits_of (base n : Z) : list Z := if n =? 0 then [0] else digits 16 base n.
Definition integer_text (base num width precision flags : Z) : list Z :=
  number_text (rev (digit_char (flag_on flags LARGE) <$>
    number_digits_of base (if flag_on flags SIGN then Z.abs num else u32 num))) num width precision flags.
Fixpoint c_text (s : list Z) : option (list Z) :=
  match s with [] => None | c :: s => if c =? 0 then Some [] else t ← c_text s; Some (c :: t) end.
Definition string_text (flags width precision : Z) (s : option (list Z)) : option (list Z) :=
  t ← c_text (default null_text s);
  Some (justified flags width (if 0 <? precision then take (Z.to_nat precision) t else t)).
(** The argument of an integer conversion: of 16 bits behind 'h', of 32 bits otherwise. *)
Definition int_arg (flags qualifier v : Z) : Z :=
  if qualifier =? 104 then (if flag_on flags SIGN then s16 v else u16 v) else s32 v.

Record directive := Directive { di_flags : Z; di_width : Z; di_precision : Z; di_qualifier : Z; di_conversion : Z }.
Definition width_of (flags : Z) (fmt : list Z) (args : list arg) : option (Z * Z * list Z * list arg) :=
  match fmt with
  | [] => None
  | c :: rest =>
      if is_digit c then Some ((skip_atoi 0 fmt).1, flags, (skip_atoi 0 fmt).2, args)
      else if c =? 42 then
        match args with
        | AInt w :: args =>
            Some (if s32 w <? 0 then (s32 (- s32 w), Z.lor flags LEFT, rest, args) else (s32 w, flags, rest, args))
        | _ => None
        end
      else Some (-1, flags, fmt, args)
  end.
Definition precision_of (fmt : list Z) (args : list arg) : option (Z * list Z * list arg) :=
  match fmt with
  | [] => None
  | dot :: fmt' =>
      if negb (dot =? 46) then Some (-1, fmt, args) else
      match fmt' with
      | [] => None
      | c :: rest =>
          if is_digit c then Some (Z.max 0 (skip_atoi 0 fmt').1, (skip_atoi 0 fmt').2, args)
          else if c =? 42 then match args with AInt p :: args => Some (Z.max 0 (s32 p), rest, args) | _ => None end
          else Some (0, fmt', args)
      end
  end.
Definition qualifier_of (fmt : list Z) : option (Z * list Z) :=
  match fmt with
  | [] => None
  | c :: rest => Some (if (c =? 104) || (c =? 108) then (c, rest) else (0, fmt))
  end.
(** A conversion specification behind its '%', and what follows it; the terminator stays. *)
Definition parse_directive (fmt : list Z) (args : list arg) : option (directive * list Z * list arg) :=
  let (flags, fmt) := format_flags 0 fmt in
  '(width, flags, fmt, args) ← width_of flags fmt args;
  '(precision, fmt, args) ← precision_of fmt args;
  '(qualifier, fmt) ← qualifier_of fmt;
  match fmt with
  | [] => None
  | c :: rest => Some (Directive flags width precision qualifier c, if c =? 0 then fmt else rest, args)
  end.
(** "%o" prints in base 16, too. *)
Definition directive_text (d : directive) (args : list arg) : option (list Z * list arg) :=
  let c := di_conversion d in
  let integer flags base :=
    match args with
    | AInt v :: args =>
        Some (integer_text base (int_arg flags (di_qualifier d) v) (di_width d) (di_precision d) flags, args)
    | _ => None
    end in
  if c =? 99 then match args with AInt v :: args => Some (justified (di_flags d) (di_width d) [u8 v], args) | _ => None end
  else if c =? 115 then
    match args with
    | AStr s :: args => t ← string_text (di_flags d) (di_width d) (di_precision d) s; Some (t, args)
    | _ => None
    end
  else if c =? 112 then
    match args with
    | AInt v :: args =>
        Some (if di_width d =? -1 then integer_text 16 (s32 v) 8 (di_precision d) (Z.lor (di_flags d) ZEROPAD)
              else integer_text 16 (s32 v) (di_width d) (di_precision d) (di_flags d), args)
    | _ => None
    end
  else if c =? 37 then Some ([37], args)
  else if (c =? 111) || (c =? 120) then integer (di_flags d) 16
  else if c =? 88 then integer (Z.lor (di_flags d) LARGE) 16
  else if (c =? 100) || (c =? 105) then integer (Z.lor (di_flags d) SIGN) 10
  else if c =? 117 then integer (di_flags d) 10
  else Some (if c =? 0 then [37] else [37; c], args).
Fixpoint format_text (fuel : nat) (fmt : list Z) (args : list arg) : option (list Z) :=
  match fuel, fmt with
  | S fuel, c :: rest =>
      if c =? 0 then Some []
      else if negb (c =? 37) then t ← format_text fuel rest args; Some (c :: t)
      else
        '(d, rest, args) ← parse_directive rest args;
        '(t, args) ← directive_text d args;
        t' ← format_text fuel rest args;
        Some (t ++ t')
  | _, _ => None
  end.

(** [m] writes the text of [o] and yields its result, or is undefined when there is none. *)
Definition prints {A} (m : P A) (o : option (list Z * A)) : Prop :=
  match o with Some (l, a) => writes m l a | None => undef m end.
(** [m] only looks. *)
Definition silent {A} (m : P A) (o : option A) : Prop := ∀ e s, m e s = lift_p o e s.
Lemma prints_silent {A B} (m : P A) o (f : A → P B) (g : A → option (list Z * B)) :
  silent m o → (∀ a, o = Some a → prints (f a) (g a)) → prints (m ≫= f) (o ≫= g).
Proof.
  intros Hm Hf. assert (∀ e s, (m ≫= f) e s = (lift_p o ≫= f) e s) as E
    by (intros e s; unfold mbind, P_bind, mbind, M_bind; by rewrite Hm).
  destruct o as [a|]; simpl; [|by intros e s _; rewrite E].
  specialize (Hf a eq_refl). unfold prints in *. destruct (g a) as [[l b]|]; intros e s Hs; rewrite E; by apply Hf.
Qed.
Lemma prints_eq {A} (m : P A) o o' : prints m o → o = o' → prints m o'.
Proof. by intros ? <-. Qed.
Lemma prints_look {A B} (m : P A) o (f : A → P B) (o' : option (list Z * B)) :
  silent m o → (∀ a, o = Some a → prints (f a) o') → (o = None → o' = None) → prints (m ≫= f) o'.
Proof.
  intros Hm Hf Hn. eapply prints_eq; [by apply (prints_silent m o f (λ _, o'))|]. by destruct o; simpl; [|rewrite Hn].
Qed.
Lemma prints_seq {A B} (m : P A) l a (f : A → P B) (o : option (list Z * B)) :
  writes m l a → prints (f a) o → prints (m ≫= f) (x ← o; Some (l ++ x.1, x.2)).
Proof.
  intros Hm Hf. destruct o as [[l2 b]|]; simpl in *; [by eapply writes_bind|].
  intros e s Hs. unfold mbind, P_bind, mbind, M_bind. rewrite Hm by done.
  destruct (Z.ltb_spec (ps_str s + Z.of_nat (length l)) 4294967296); [|done]. apply Hf. by rewrite emitted_str.
Qed.

Lemma prints_peek {B} c rest (f : Z → P B) o : prints (f c) o → prints (peek (c :: rest) ≫= f) o.
Proof. by destruct o as [[]|]. Qed.

(** ** What is in front of a conversion *)

Lemma peek_silent fmt : silent (peek fmt) (head fmt).
Proof. done. Qed.
Lemma format_width_silent flags fmt args : silent (format_width flags fmt args) (width_of flags fmt args).
Proof.
  intros e s. unfold format_width, width_of, peek, next_int, mbind, P_bind, mbind, M_bind, mret, P_ret.
  destruct fmt as [|c rest]; [done|]. cbn [head]. unfold lift_p, lift.
  destruct (is_digit c); [by destruct (skip_atoi 0 (c :: rest))|].
  destruct (c =? 42); [|done]. destruct args as [|[w|] args]; [done| |done]. simpl. by destruct (s32 w <? 0).
Qed.
Lemma clamp_neg p : (if p <? 0 then 0 else p) = Z.max 0 p.
Proof. destruct (Z.ltb_spec p 0); lia. Qed.
Lemma format_precision_silent fmt args : silent (format_precision fmt args) (precision_of fmt args).
Proof.
  intros e s. unfold format_precision, precision_of, peek, next_int, mbind, P_bind, mbind, M_bind, mret, P_ret.
  destruct fmt as [|dot fmt]; [done|]. cbn [head lift_p lift]. change (advance (dot :: fmt)) with fmt.
  unfold lift_p, lift. destruct (dot =? 46); [|done]. cbn [negb]. destruct fmt as [|c rest]; [done|]. cbn [head].
  destruct (is_digit c).
  { destruct (skip_atoi 0 (c :: rest)) as [p fmt]. unfold mret, M_ret. by rewrite clamp_neg. }
  destruct (c =? 42); [|done]. destruct args as [|[p|] args]; [done| |done].
  unfold mret, M_ret. simpl. by rewrite clamp_neg.
Qed.
Lemma format_qualifier_silent fmt : silent (format_qualifier fmt) (qualifier_of fmt).
Proof.
  intros e s. unfold format_qualifier, qualifier_of, peek, mbind, P_bind, mbind, M_bind, mret, P_ret.
  destruct fmt as [|c rest]; [done|]. simpl. by destruct (_ || _).
Qed.

(** ** Conversions *)

Lemma digits_loop_digits fuel large n base : base = 10 ∨ base = 16 → -2147483648 ≤ n < 2147483648 →
  u32 n < base ^ Z.of_nat fuel →
  digits_loop fuel large n base = Some (digit_char large <$> digits fuel base (u32 n)).
Proof.
  intros Hb. revert n. assert (10 ≤ base) as Hb10 by (destruct Hb; lia).
  induction fuel as [|fuel IH]; intros n Hn Hlt; cbn [digits_loop digits].
  - simpl in Hlt. pose proof (u32_range n). assert (u32 n = 0) as E by lia. rewrite E.
    by apply u32_zero in E as ->.
  - destruct (Z.eqb_spec n 0) as [->|Hz]; [done|].
    rewrite (proj2 (Z.eqb_neq (u32 n) 0)) by by rewrite u32_zero. rewrite divide_eq by done.
    pose proof (u32_range n) as Hu. assert (0 ≤ u32 n / base < 2147483648) as Hq.
    { split; [apply Z.div_pos; lia|apply Z.div_lt_upper_bound; lia]. }
    rewrite Nat2Z.inj_succ, Z.pow_succ_r in Hlt by lia.
    rewrite IH; rewrite ?(u32_small (u32 n / base)) by lia; [done|lia|]. apply Z.div_lt_upper_bound; lia.
Qed.
Lemma number_digits_eq large num base : base = 10 ∨ base = 16 → -2147483648 ≤ num < 2147483648 →
  number_digits large num base = Some (digit_char large <$> number_digits_of base (u32 num)).
Proof.
  intros Hb Hn. unfold number_digits, number_digits_of. destruct (Z.eqb_spec num 0) as [->|Hz]; [by destruct large|].
  rewrite (proj2 (Z.eqb_neq (u32 num) 0)) by by rewrite u32_zero. apply digits_loop_digits; [done..|].
  pose proof (u32_range num). destruct Hb as [->| ->]; simpl; lia.
Qed.
Lemma print_number_writes num base s precision type : base = 10 ∨ base = 16 → -2147483648 ≤ num < 2147483648 →
  writes (print_number num base s precision type) (integer_text base num s precision type) tt.
Proof.
  intros Hb Hn. pose proof (sign_of_text num type Hn) as Hs. rewrite print_number_eq.
  destruct (sign_of num type) as [sign n]. destruct Hs as (Et & Hn' & Ev).
  rewrite number_digits_eq, Ev by done. eapply writes_eq.
  { eapply writes_bind; [apply writes_lift|]. apply print_rest_writes. }
  simpl. unfold integer_text, number_text. rewrite Et, length_rev.
  by destruct (flag_on type LEFT), (flag_on type ZEROPAD).
Qed.
Lemma print_number_octal_writes num s precision type : -2147483648 ≤ num < 2147483648 →
  writes (print_number num 8 s precision type) (integer_text 16 num s precision type) tt.
Proof. intros Hn e st Hs. rewrite print_number_octal. by apply print_number_writes; [right|..]. Qed.

Lemma rt_strlen_text s : rt_strlen s = (λ t, Z.of_nat (length t)) <$> c_text s.
Proof.
  induction s as [|c s IH]; [done|]. simpl. destruct (c =? 0); [done|]. rewrite IH.
  destruct (c_text s) as [t|]; [|done]. simpl. f_equal. lia.
Qed.
Lemma c_text_prefix s t : c_text s = Some t → t `prefix_of` s.
Proof.
  revert t. induction s as [|c s IH]; intros t; [done|]. simpl. destruct (c =? 0); [intros [= <-]; apply prefix_nil|].
  destruct (c_text s) as [t'|]; [|done]. intros [= <-]. apply prefix_cons. by apply IH.
Qed.
(** The padding of characters and strings: [body] of [n] characters in a field of [width]. *)
Lemma justified_writes flags width n body text :
  writes body text tt → n = Z.of_nat (length text) →
  writes (width ← (if negb (flag_on flags LEFT) then emit_n (Z.to_nat (width - n)) 32;; mret 0 else mret width);
          body;; emit_n (Z.to_nat (width - n)) 32) (justified flags width text) tt.
Proof.
  intros Hb ->. unfold justified, pad. destruct (flag_on flags LEFT); cbn [negb].
  - apply (writes_bind _ _ [] _ width); [apply writes_ret|].
    eapply writes_bind; [exact Hb|apply writes_emit_n].
  - eapply (writes_bind _ _ _ _ 0).
    { eapply writes_eq; [eapply writes_bind; [apply writes_emit_n|apply writes_ret]|]. by rewrite app_nil_r. }
    eapply writes_eq; [eapply writes_bind; [exact Hb|apply writes_emit_n]|].
    rewrite (replicate_neg 32) by lia. apply app_nil_r.
Qed.
Lemma format_char_writes flags width v : writes (format_char flags width v) (justified flags width [u8 v]) tt.
Proof. apply (justified_writes flags width 1 (emit (u8 v))); [apply writes_emit|done]. Qed.
Lemma format_string_prints flags width precision s :
  prints (format_string flags width precision s) ((λ t, (t, tt)) <$> string_text flags width precision s).
Proof.
  unfold format_string, string_text. set (s0 := default null_text s). rewrite rt_strlen_text.
  destruct (c_text s0) as [t|] eqn:Et; [|done]. destruct (c_text_prefix _ _ Et) as [r Er].
  cbn [fmap option_fmap option_map mbind option_bind prints].
  eapply (writes_bind _ _ []); [apply writes_lift|]. apply justified_writes; [rewrite Er|].
  - eapply writes_eq; [apply writes_emit_list|]. destruct (Z.ltb_spec 0 precision); cbn [andb].
    + destruct (Z.ltb_spec precision (Z.of_nat (length t))); rewrite ?Nat2Z.id.
      * by rewrite take_app_le by lia.
      * by rewrite take_app_length, take_ge by lia.
    + by rewrite Nat2Z.id, take_app_length.
  - destruct (Z.ltb_spec 0 precision); cbn [andb]; [|done].
    destruct (Z.ltb_spec precision (Z.of_nat (length t))); rewrite length_take; lia.
Qed.
Lemma s32_range v : -2147483648 ≤ s32 v < 2147483648.
Proof. unfold s32. pose proof (Z.mod_pos_bound (v + 2147483648) 4294967296 ltac:(lia)). lia. Qed.
Lemma int_arg_range flags qualifier v : -2147483648 ≤ int_arg flags qualifier v < 2147483648.
Proof.
  pose proof (s32_range v). pose proof (u16_range v). pose proof (Z.mod_pos_bound (v + 32768) 65536 ltac:(lia)).
  unfold int_arg, s16. destruct (qualifier =? 104), (flag_on flags SIGN); lia.
Qed.

Lemma format_number_writes flags width precision qualifier base base' v :
  base' = 16 ∧ (base = 16 ∨ base = 8) ∨ base' = 10 ∧ base = 10 →
  writes (format_number flags width precision qualifier base v)
    (integer_text base' (int_arg flags qualifier v) width precision flags) tt.
Proof.
  intros Hb. pose proof (int_arg_range flags qualifier v) as Hr. unfold format_number.
  fold (int_arg flags qualifier v). destruct Hb as [[-> [-> | ->]]|[-> ->]].
  - apply print_number_writes; [by right|done].
  - by apply print_number_octal_writes.
  - apply print_number_writes; [by left|done].
Qed.
Lemma next_int_silent args :
  silent (next_int args) (match args with AInt v :: args => Some (v, args) | _ => None end).
Proof. by destruct args as [|[|]]. Qed.
Lemma next_str_silent args :
  silent (next_str args) (match args with AStr s :: args => Some (s, args) | _ => None end).
Proof. by destruct args as [|[|]]. Qed.
(** The result of a conversion, with the format behind it. *)
Definition converted (rest : list Z) (o : option (list Z * list arg)) : option (list Z * (list Z * list arg)) :=
  '(t, args) ← o; Some (t, (rest, args)).
(** An argument is fetched and printed. *)
Lemma print_arg_prints {A} (m : P (A * list arg)) o (f : A → P unit) (t : A → option (list Z)) (rest : list Z) :
  silent m o → (∀ v, prints (f v) ((λ t, (t, tt)) <$> t v)) →
  prints (m ≫= λ '(v, args), f v;; mret (rest, args)) (converted rest ('(v, args) ← o; t ← t v; Some (t, args))).
Proof.
  intros Hm Hf. destruct o as [[v args]|]; simpl.
  - specialize (Hf v). destruct (t v) as [t'|]; simpl in *; intros e s Hs; unfold mbind, P_bind, mbind, M_bind; rewrite Hm; simpl.
    + rewrite Hf by done. by destruct (_ <? _).
    + by rewrite Hf.
  - intros e s Hs. unfold mbind, P_bind, mbind, M_bind. by rewrite Hm.
Qed.
Lemma print_int_prints (f : Z → P unit) (t : Z → list Z) rest args :
  (∀ v, writes (f v) (t v) tt) →
  prints ('(v, args) ← next_int args; f v;; mret (rest, args))
    (converted rest (match args with AInt v :: args => Some (t v, args) | _ => None end)).
Proof.
  intros Hf. eapply prints_eq.
  - apply (print_arg_prints _ _ f (λ v, Some (t v)) rest (next_int_silent args)). intros v. apply Hf.
  - by destruct args as [|[|]].
Qed.
(** '%' and what is no conversion *)
Lemma format_other_writes c (rest : list Z) (args : list arg) :
  writes (emit 37;; (if negb (c =? 0) then emit c;; mret (rest, args) else mret (c :: rest, args)))
    (if c =? 0 then [37] else [37; c]) (if c =? 0 then c :: rest else rest, args).
Proof.
  destruct (c =? 0); simpl.
  - apply (writes_bind _ _ [37] [] tt); [apply writes_emit|apply writes_ret].
  - apply (writes_bind _ _ [37] [c] tt); [apply writes_emit|].
    apply (writes_bind _ _ [c] [] tt); [apply writes_emit|apply writes_ret].
Qed.
Lemma format_directive_prints flags width precision qualifier c rest args :
  prints (format_directive flags width precision qualifier (c :: rest) args)
    (converted (if c =? 0 then c :: rest else rest) (directive_text (Directive flags width precision qualifier c) args)).
Proof.
  unfold format_directive. apply prints_peek. change (advance (c :: rest)) with rest.
  unfold directive_text. cbn [di_conversion di_flags di_width di_precision di_qualifier].
  assert (∀ flags base base', base' = 16 ∧ (base = 16 ∨ base = 8) ∨ base' = 10 ∧ base = 10 →
    prints ('(v, args) ← next_int args; format_number flags width precision qualifier base v;; mret (rest, args))
      (converted rest (match args with
        | AInt v :: args => Some (integer_text base' (int_arg flags qualifier v) width precision flags, args)
        | _ => None end))) as Hnumber.
  { intros fl base base' Hb. by apply print_int_prints; intros v; apply format_number_writes. }
  destruct (Z.eqb_spec c 99) as [->|]; [apply print_int_prints; intros v; apply format_char_writes|].
  destruct (Z.eqb_spec c 115) as [->|].
  { eapply prints_eq; [apply (print_arg_prints _ _ _ (string_text flags width precision) rest (next_str_silent args))|].
    - intros s. apply format_string_prints.
    - by destruct args as [|[|]]. }
  destruct (Z.eqb_spec c 112) as [->|].
  { eapply prints_eq.
    - apply (print_int_prints _ (λ v, if width =? -1 then integer_text 16 (s32 v) 8 precision (Z.lor flags ZEROPAD)
        else integer_text 16 (s32 v) width precision flags)). intros v. pose proof (s32_range v).
      destruct (width =? -1); (apply print_number_writes; [by right|done]).
    - by destruct args as [|[|]]. }
  destruct (Z.eqb_spec c 37) as [->|].
  { apply (writes_bind _ _ [37] [] tt); [apply writes_emit|apply writes_ret]. }
  destruct (Z.eqb_spec c 111) as [->|]; [apply Hnumber; auto|].
  destruct (Z.eqb_spec c 88) as [->|]; [apply Hnumber; auto|].
  destruct (Z.eqb_spec c 120) as [->|]; [apply Hnumber; auto|]. cbn [orb].
  destruct ((c =? 100) || (c =? 105)) eqn:Ed.
  { assert ((c =? 0) = false) as -> by (destruct (Z.eqb_spec c 0) as [->|]; [by vm_compute in Ed|done]). apply Hnumber; auto. }
  destruct (Z.eqb_spec c 117) as [->|]; [apply Hnumber; auto|]. apply format_other_writes.
Qed.

Lemma format_loop_prints fuel : ∀ fmt args,
  prints (format_loop fuel fmt args) ((λ t, (t, tt)) <$> format_text fuel fmt args).
Proof.
  induction fuel as [|fuel IH]; intros fmt args; [done|]. cbn [format_loop format_text].
  destruct fmt as [|c rest]; [by intros e s|]. apply prints_peek. destruct (c =? 0); [apply writes_ret|].
  change (advance (c :: rest)) with rest. destruct (c =? 37); cbn [negb].
  - unfold parse_directive. destruct (format_flags 0 rest) as [flags fmt].
    eapply prints_look; [apply format_width_silent| |by intros ->]. intros [[[width fl] fmt1] args1] ->.
    eapply prints_look; [apply format_precision_silent| |by intros E; simpl; rewrite E]. intros [[precision fmt2] args2] E1.
    eapply prints_look; [apply format_qualifier_silent| |by intros E; simpl; rewrite E1; simpl; rewrite E].
    intros [qualifier fmt3] E2. cbn [mbind option_bind]. rewrite E1. cbn [mbind option_bind]. rewrite E2.
    cbn [mbind option_bind]. destruct fmt3 as [|c3 fmt3]; [by intros e s|]. cbn [mbind option_bind].
    pose proof (format_directive_prints fl width precision qualifier c3 fmt3 args2) as Hd. unfold converted in Hd.
    destruct (directive_text _ args2) as [[t args3]|]; cbn [mbind option_bind] in *.
    + eapply prints_eq; [eapply prints_seq; [exact Hd|apply IH]|]. by destruct (format_text fuel _ args3).
    + intros e s Hs. unfold mbind, P_bind, mbind, M_bind. by rewrite Hd.
  - eapply prints_eq; [eapply prints_seq; [apply writes_emit|apply IH]|]. by destruct (format_text fuel rest args).
Qed.

(** C24. rt_vsnprintf keeps the contract of snprintf, for a buffer of any size, also of none, anywhere in the
    address space, whose end is cut off when it lies behind that of the address space. Let the text be
    the one that [format_text] makes of format and arguments. When the address space can count its characters
    from the buffer on, the call returns its length (as an int); the buffer holds as much of the
    text as fits, terminated; no byte outside the buffer is written. When it cannot, or when there is no text
    (an argument is missing or of another kind, a string has no terminator), the call is
    undefined; more rounds of the loop than the format has characters change nothing. *)
Theorem rt_vsnprintf_contract buf size fmt args mem :
  0 ≤ buf < 4294967296 → 0 ≤ size < 4294967296 →
  match format_text (length fmt) fmt args with
  | Some text =>
      if buf + Z.of_nat (length text) <? 4294967296 then
        ∃ mem', rt_vsnprintf buf size fmt args mem = Some (s32 (Z.of_nat (length text)), mem') ∧
          if 0 <? room_of buf size then printed buf (room_of buf size) text mem mem' else mem' = mem
      else rt_vsnprintf buf size fmt args mem = None
  | None => rt_vsnprintf buf size fmt args mem = None ∧
      ∀ more end_, format_loop (length fmt + more) fmt args end_ (PState mem buf) = None
  end.
Proof.
  intros Hb Hs. pose proof (format_loop_prints (length fmt) fmt args) as Hp.
  destruct (format_text _ _ _) as [text|]; simpl in Hp.
  - destruct (Z.ltb_spec (buf + Z.of_nat (length text)) 4294967296) as [Ht|Ht]; [apply rt_vsnprintf_run; [done|done|lia|done]|].
    rewrite rt_vsnprintf_eq by lia. cbv zeta. rewrite Hp by (simpl; lia).
    change (ps_str (PState mem buf)) with buf. by rewrite (proj2 (Z.ltb_ge _ _) Ht).
  - split; [rewrite rt_vsnprintf_eq by lia; cbv zeta; by rewrite Hp by (simpl; lia)|].
    intros more end_. rewrite (format_loop_fuel _ (length fmt)) by lia. apply Hp. simpl. lia.
Qed.
