(* ===== verification/KState.v ===== *)
(** The state of the kernel: the data of os/include/rtdef.h and the globals of
    scheduler.c, timer.c, clock.c, irq.c, idle.c and object.c, as one record
    that the other files thread through the monad [K].

    An object lives at an address; the object of the timer embedded in a
    thread is [ThTimer t]. The thread lists (ready table, defunct list,
    suspend lists of the IPC objects) are plain lists keyed by their head:
    file DList proves that the pointer code implements these. A node is on at
    most one list; linking a node that is on one is undefined in C and is
    [None] here. *)
From S2P Require Import Prelude Mem.

(** * Constants of rtdef.h *)
Definition RT_Object_Class_Null : Z := 0.
Definition RT_Object_Class_Thread : Z := 1.
Definition RT_Object_Class_Semaphore : Z := 2.
Definition RT_Object_Class_Mutex : Z := 3.
Definition RT_Object_Class_Event : Z := 4.
Definition RT_Object_Class_MailBox : Z := 5.
Definition RT_Object_Class_MessageQueue : Z := 6.
Definition RT_Object_Class_MemHeap : Z := 7.
Definition RT_Object_Class_MemPool : Z := 8.
Definition RT_Object_Class_Device : Z := 9.
Definition RT_Object_Class_Timer : Z := 10.
Definition RT_Object_Class_Static : Z := 128.
Definition RT_TIMER_FLAG_DEACTIVATED : Z := 0.
Definition RT_TIMER_FLAG_ACTIVATED : Z := 1.
Definition RT_TIMER_FLAG_ONE_SHOT : Z := 0.
Definition RT_TIMER_FLAG_PERIODIC : Z := 2.
Definition RT_TIMER_CTRL_SET_TIME : Z := 0.
Definition RT_TIMER_CTRL_GET_TIME : Z := 1.
Definition RT_TIMER_CTRL_SET_ONESHOT : Z := 2.
Definition RT_TIMER_CTRL_SET_PERIODIC : Z := 3.
Definition RT_TIMER_CTRL_GET_STATE : Z := 4.
Definition RT_THREAD_INIT : Z := 0.
Definition RT_THREAD_READY : Z := 1.
Definition RT_THREAD_SUSPEND : Z := 2.
Definition RT_THREAD_CLOSE : Z := 4.
Definition RT_THREAD_STAT_MASK : Z := 15.
Definition RT_THREAD_CTRL_STARTUP : Z := 0.
Definition RT_THREAD_CTRL_CLOSE : Z := 1.
Definition RT_THREAD_CTRL_CHANGE_PRIORITY : Z := 2.
Definition RT_IPC_FLAG_FIFO : Z := 0.
Definition RT_IPC_FLAG_PRIO : Z := 1.
Definition RT_IPC_CMD_RESET : Z := 1.
Definition RT_WAITING_FOREVER : Z := -1.
Definition RT_EVENT_FLAG_AND : Z := 1.
Definition RT_EVENT_FLAG_OR : Z := 2.
Definition RT_EVENT_FLAG_CLEAR : Z := 4.

(** * Data *)

(** Pointers to kernel objects. *)
Inductive optr := Obj (a : Z) | ThTimer (t : Z).
#[global] Instance optr_eq_dec : EqDecision optr.
Proof. solve_decision. Defined.
#[global] Instance optr_countable : Countable optr.
Proof.
  apply (inj_countable' (λ p, match p with Obj a => inl a | ThTimer t => inr t end)
           (λ s, match s with inl a => Obj a | inr t => ThTimer t end)).
  by intros [].
Defined.

(** Heads of the lists that hold threads through [tlist]. *)
Inductive lhead := LReady (prio : Z) | LDefunct | LSuspend (ipc : Z) | LSender (ipc : Z).
#[global] Instance lhead_eq_dec : EqDecision lhead.
Proof. solve_decision. Defined.
#[global] Instance lhead_countable : Countable lhead.
Proof.
  apply (inj_countable'
    (λ h, match h with LReady p => inl (inl p) | LDefunct => inl (inr tt)
                     | LSuspend a => inr (inl a) | LSender a => inr (inr a) end)
    (λ s, match s with inl (inl p) => LReady p | inl (inr _) => LDefunct
                     | inr (inl a) => LSuspend a | inr (inr a) => LSender a end)).
  by intros [].
Defined.

(** [timeout_func] of a timer: the kernel's own, or a function of the user. *)
Inductive timeout_fn := FnThreadTimeout | FnUser (f : Z).

Record rt_object := Object {
  o_name : list Z;
  o_type : Z;
  o_flag : Z
}.

Record rt_timer := Timer {
  tm_timeout_func : timeout_fn;
  tm_parameter : Z;
  tm_init_tick : Z;
  tm_timeout_tick : Z
}.

(** [th_guard] is the byte at [stack_addr] that the overflow check reads. *)
Record rt_thread := Thread {
  th_entry : Z;
  th_parameter : Z;
  th_stack_addr : Z;
  th_stack_size : Z;
  th_sp : Z;
  th_guard : Z;
  th_error : Z;
  th_stat : Z;
  th_current_priority : Z;
  th_init_priority : Z;
  th_number_mask : Z;
  th_event_set : Z;
  th_event_info : Z;
  th_init_tick : Z;
  th_remaining_tick : Z;
  th_cleanup : Z;
  th_user_data : Z
}.

Record rt_mutex := Mutex {
  mx_value : Z;
  mx_original_priority : Z;
  mx_hold : Z;
  mx_owner : option Z
}.

Record rt_mailbox := Mailbox {
  mb_msg_pool : list Z;
  mb_pool_addr : Z;
  mb_size : Z;
  mb_entry : Z;
  mb_in_offset : Z;
  mb_out_offset : Z
}.

Record rt_mq_message := Msg {
  msg_next : Z;
  msg_data : list Z
}.

Record rt_messagequeue := MQueue {
  mq_pool_addr : Z;
  mq_msg_size : Z;
  mq_max_msgs : Z;
  mq_entry : Z;
  mq_nodes : gmap Z rt_mq_message;
  mq_head : Z;
  mq_tail : Z;
  mq_free : Z
}.

Record rt_mempool := MemPool {
  mp_start_address : Z;
  mp_size : Z;
  mp_block_size : Z;
  mp_block_list : Z;
  mp_block_total_count : Z;
  mp_block_free_count : Z
}.

(** The six driver operations are function pointers, 0 for RT_NULL. *)
Record rt_device := Device {
  dev_type : Z;
  dev_flag : Z;
  dev_open_flag : Z;
  dev_ref_count : Z;
  dev_device_id : Z;
  dev_rx_indicate : Z;
  dev_tx_complete : Z;
  dev_init : Z;
  dev_open : Z;
  dev_close : Z;
  dev_read : Z;
  dev_write : Z;
  dev_control : Z;
  dev_user_data : Z
}.

(** [containers] is [rt_object_container]; [timer_pending] the local list of
    [rt_timer_check]; [pool_words] the words in front of memory pool blocks. *)
Record kernel := Kernel {
  rt_tick : Z;
  objects : gmap optr rt_object;
  containers : gmap Z (list optr);
  threads : gmap Z rt_thread;
  timers : gmap optr rt_timer;
  tlists : gmap lhead (list Z);
  timer_list : list optr;
  timer_pending : list optr;
  random_nr : Z;
  ready_group : Z;
  lock_nest : Z;
  current_thread : option Z;
  current_priority : Z;
  interrupt_nest : Z;
  kerrno : Z;
  kheap : heap;
  sems : gmap Z Z;
  mutexes : gmap Z rt_mutex;
  events : gmap Z Z;
  mailboxes : gmap Z rt_mailbox;
  mqueues : gmap Z rt_messagequeue;
  mempools : gmap Z rt_mempool;
  devices : gmap Z rt_device;
  pool_words : gmap Z Z;
  idle_hook_list : list Z
}.

(** Field updates. *)
Definition set_o_name (v : list Z) (r : rt_object) : rt_object :=
  Object v (o_type r) (o_flag r).
Definition set_o_type (v : Z) (r : rt_object) : rt_object :=
  Object (o_name r) v (o_flag r).
Definition set_o_flag (v : Z) (r : rt_object) : rt_object :=
  Object (o_name r) (o_type r) v.
Definition set_tm_timeout_func (v : timeout_fn) (r : rt_timer) : rt_timer :=
  Timer v (tm_parameter r) (tm_init_tick r) (tm_timeout_tick r).
Definition set_tm_parameter (v : Z) (r : rt_timer) : rt_timer :=
  Timer (tm_timeout_func r) v (tm_init_tick r) (tm_timeout_tick r).
Definition set_tm_init_tick (v : Z) (r : rt_timer) : rt_timer :=
  Timer (tm_timeout_func r) (tm_parameter r) v (tm_timeout_tick r).
Definition set_tm_timeout_tick (v : Z) (r : rt_timer) : rt_timer :=
  Timer (tm_timeout_func r) (tm_parameter r) (tm_init_tick r) v.
Definition set_th_entry (v : Z) (r : rt_thread) : rt_thread :=
    Thread v (th_parameter r) (th_stack_addr r) (th_stack_size r) (th_sp r) (th_guard r)
    (th_error r) (th_stat r) (th_current_priority r) (th_init_priority r) (th_number_mask r)
    (th_event_set r) (th_event_info r) (th_init_tick r) (th_remaining_tick r) (th_cleanup r)
    (th_user_data r).
Definition set_th_parameter (v : Z) (r : rt_thread) : rt_thread :=
    Thread (th_entry r) v (th_stack_addr r) (th_stack_size r) (th_sp r) (th_guard r) (th_error
    r) (th_stat r) (th_current_priority r) (th_init_priority r) (th_number_mask r) (th_event_set
    r) (th_event_info r) (th_init_tick r) (th_remaining_tick r) (th_cleanup r) (th_user_data r).
Definition set_th_stack_addr (v : Z) (r : rt_thread) : rt_thread :=
    Thread (th_entry r) (th_parameter r) v (th_stack_size r) (th_sp r) (th_guard r) (th_error r)
    (th_stat r) (th_current_priority r) (th_init_priority r) (th_number_mask r) (th_event_set r)
    (th_event_info r) (th_init_tick r) (th_remaining_tick r) (th_cleanup r) (th_user_data r).
Definition set_th_stack_size (v : Z) (r : rt_thread) : rt_thread :=
    Thread (th_entry r) (th_parameter r) (th_stack_addr r) v (th_sp r) (th_guard r) (th_error r)
    (th_stat r) (th_current_priority r) (th_init_priority r) (th_number_mask r) (th_event_set r)
    (th_event_info r) (th_init_tick r) (th_remaining_tick r) (th_cleanup r) (th_user_data r).
Definition set_th_sp (v : Z) (r : rt_thread) : rt_thread :=
    Thread (th_entry r) (th_parameter r) (th_stack_addr r) (th_stack_size r) v (th_guard r)
    (th_error r) (th_stat r) (th_current_priority r) (th_init_priority r) (th_number_mask r)
    (th_event_set r) (th_event_info r) (th_init_tick r) (th_remaining_tick r) (th_cleanup r)
    (th_user_data r).
Definition set_th_guard (v : Z) (r : rt_thread) : rt_thread :=
    Thread (th_entry r) (th_parameter r) (th_stack_addr r) (th_stack_size r) (th_sp r) v
    (th_error r) (th_stat r) (th_current_priority r) (th_init_priority r) (th_number_mask r)
    (th_event_set r) (th_event_info r) (th_init_tick r) (th_remaining_tick r) (th_cleanup r)
    (th_user_data r).
Definition set_th_error (v : Z) (r : rt_thread) : rt_thread :=
    Thread (th_entry r) (th_parameter r) (th_stack_addr r) (th_stack_size r) (th_sp r) (th_guard
    r) v (th_stat r) (th_current_priority r) (th_init_priority r) (th_number_mask r)
    (th_event_set r) (th_event_info r) (th_init_tick r) (th_remaining_tick r) (th_cleanup r)
    (th_user_data r).
Definition set_th_stat (v : Z) (r : rt_thread) : rt_thread :=
    Thread (th_entry r) (th_parameter r) (th_stack_addr r) (th_stack_size r) (th_sp r) (th_guard
    r) (th_error r) v (th_current_priority r) (th_init_priority r) (th_number_mask r)
    (th_event_set r) (th_event_info r) (th_init_tick r) (th_remaining_tick r) (th_cleanup r)
    (th_user_data r).
Definition set_th_current_priority (v : Z) (r : rt_thread) : rt_thread :=
    Thread (th_entry r) (th_parameter r) (th_stack_addr r) (th_stack_size r) (th_sp r) (th_guard
    r) (th_error r) (th_stat r) v (th_init_priority r) (th_number_mask r) (th_event_set r)
    (th_event_info r) (th_init_tick r) (th_remaining_tick r) (th_cleanup r) (th_user_data r).
Definition set_th_init_priority (v : Z) (r : rt_thread) : rt_thread :=
    Thread (th_entry r) (th_parameter r) (th_stack_addr r) (th_stack_size r) (th_sp r) (th_guard
    r) (th_error r) (th_stat r) (th_current_priority r) v (th_number_mask r) (th_event_set r)
    (th_event_info r) (th_init_tick r) (th_remaining_tick r) (th_cleanup r) (th_user_data r).
Definition set_th_number_mask (v : Z) (r : rt_thread) : rt_thread :=
    Thread (th_entry r) (th_parameter r) (th_stack_addr r) (th_stack_size r) (th_sp r) (th_guard
    r) (th_error r) (th_stat r) (th_current_priority r) (th_init_priority r) v (th_event_set r)
    (th_event_info r) (th_init_tick r) (th_remaining_tick r) (th_cleanup r) (th_user_data r).
Definition set_th_event_set (v : Z) (r : rt_thread) : rt_thread :=
    Thread (th_entry r) (th_parameter r) (th_stack_addr r) (th_stack_size r) (th_sp r) (th_guard
    r) (th_error r) (th_stat r) (th_current_priority r) (th_init_priority r) (th_number_mask r)
    v (th_event_info r) (th_init_tick r) (th_remaining_tick r) (th_cleanup r) (th_user_data r).
Definition set_th_event_info (v : Z) (r : rt_thread) : rt_thread :=
    Thread (th_entry r) (th_parameter r) (th_stack_addr r) (th_stack_size r) (th_sp r) (th_guard
    r) (th_error r) (th_stat r) (th_current_priority r) (th_init_priority r) (th_number_mask r)
    (th_event_set r) v (th_init_tick r) (th_remaining_tick r) (th_cleanup r) (th_user_data r).
Definition set_th_init_tick (v : Z) (r : rt_thread) : rt_thread :=
    Thread (th_entry r) (th_parameter r) (th_stack_addr r) (th_stack_size r) (th_sp r) (th_guard
    r) (th_error r) (th_stat r) (th_current_priority r) (th_init_priority r) (th_number_mask r)
    (th_event_set r) (th_event_info r) v (th_remaining_tick r) (th_cleanup r) (th_user_data r).
Definition set_th_remaining_tick (v : Z) (r : rt_thread) : rt_thread :=
    Thread (th_entry r) (th_parameter r) (th_stack_addr r) (th_stack_size r) (th_sp r) (th_guard
    r) (th_error r) (th_stat r) (th_current_priority r) (th_init_priority r) (th_number_mask r)
    (th_event_set r) (th_event_info r) (th_init_tick r) v (th_cleanup r) (th_user_data r).
Definition set_th_cleanup (v : Z) (r : rt_thread) : rt_thread :=
    Thread (th_entry r) (th_parameter r) (th_stack_addr r) (th_stack_size r) (th_sp r) (th_guard
    r) (th_error r) (th_stat r) (th_current_priority r) (th_init_priority r) (th_number_mask r)
    (th_event_set r) (th_event_info r) (th_init_tick r) (th_remaining_tick r) v (th_user_data
    r).
Definition set_th_user_data (v : Z) (r : rt_thread) : rt_thread :=
    Thread (th_entry r) (th_parameter r) (th_stack_addr r) (th_stack_size r) (th_sp r) (th_guard
    r) (th_error r) (th_stat r) (th_current_priority r) (th_init_priority r) (th_number_mask r)
    (th_event_set r) (th_event_info r) (th_init_tick r) (th_remaining_tick r) (th_cleanup r) v.
Definition set_mx_value (v : Z) (r : rt_mutex) : rt_mutex :=
  Mutex v (mx_original_priority r) (mx_hold r) (mx_owner r).
Definition set_mx_original_priority (v : Z) (r : rt_mutex) : rt_mutex :=
  Mutex (mx_value r) v (mx_hold r) (mx_owner r).
Definition set_mx_hold (v : Z) (r : rt_mutex) : rt_mutex :=
  Mutex (mx_value r) (mx_original_priority r) v (mx_owner r).
Definition set_mx_owner (v : option Z) (r : rt_mutex) : rt_mutex :=
  Mutex (mx_value r) (mx_original_priority r) (mx_hold r) v.
Definition set_mb_msg_pool (v : list Z) (r : rt_mailbox) : rt_mailbox :=
  Mailbox v (mb_pool_addr r) (mb_size r) (mb_entry r) (mb_in_offset r) (mb_out_offset r).
Definition set_mb_pool_addr (v : Z) (r : rt_mailbox) : rt_mailbox :=
  Mailbox (mb_msg_pool r) v (mb_size r) (mb_entry r) (mb_in_offset r) (mb_out_offset r).
Definition set_mb_size (v : Z) (r : rt_mailbox) : rt_mailbox :=
  Mailbox (mb_msg_pool r) (mb_pool_addr r) v (mb_entry r) (mb_in_offset r) (mb_out_offset r).
Definition set_mb_entry (v : Z) (r : rt_mailbox) : rt_mailbox :=
  Mailbox (mb_msg_pool r) (mb_pool_addr r) (mb_size r) v (mb_in_offset r) (mb_out_offset r).
Definition set_mb_in_offset (v : Z) (r : rt_mailbox) : rt_mailbox :=
  Mailbox (mb_msg_pool r) (mb_pool_addr r) (mb_size r) (mb_entry r) v (mb_out_offset r).
Definition set_mb_out_offset (v : Z) (r : rt_mailbox) : rt_mailbox :=
  Mailbox (mb_msg_pool r) (mb_pool_addr r) (mb_size r) (mb_entry r) (mb_in_offset r) v.
Definition set_msg_next (v : Z) (r : rt_mq_message) : rt_mq_message :=
  Msg v (msg_data r).
Definition set_msg_data (v : list Z) (r : rt_mq_message) : rt_mq_message :=
  Msg (msg_next r) v.
Definition set_mq_pool_addr (v : Z) (r : rt_messagequeue) : rt_messagequeue :=
    MQueue v (mq_msg_size r) (mq_max_msgs r) (mq_entry r) (mq_nodes r) (mq_head r) (mq_tail r)
    (mq_free r).
Definition set_mq_msg_size (v : Z) (r : rt_messagequeue) : rt_messagequeue :=
    MQueue (mq_pool_addr r) v (mq_max_msgs r) (mq_entry r) (mq_nodes r) (mq_head r) (mq_tail r)
    (mq_free r).
Definition set_mq_max_msgs (v : Z) (r : rt_messagequeue) : rt_messagequeue :=
    MQueue (mq_pool_addr r) (mq_msg_size r) v (mq_entry r) (mq_nodes r) (mq_head r) (mq_tail r)
    (mq_free r).
Definition set_mq_entry (v : Z) (r : rt_messagequeue) : rt_messagequeue :=
    MQueue (mq_pool_addr r) (mq_msg_size r) (mq_max_msgs r) v (mq_nodes r) (mq_head r) (mq_tail
    r) (mq_free r).
Definition set_mq_nodes (v : gmap Z rt_mq_message) (r : rt_messagequeue) : rt_messagequeue :=
    MQueue (mq_pool_addr r) (mq_msg_size r) (mq_max_msgs r) (mq_entry r) v (mq_head r) (mq_tail
    r) (mq_free r).
Definition set_mq_head (v : Z) (r : rt_messagequeue) : rt_messagequeue :=
    MQueue (mq_pool_addr r) (mq_msg_size r) (mq_max_msgs r) (mq_entry r) (mq_nodes r) v (mq_tail
    r) (mq_free r).
Definition set_mq_tail (v : Z) (r : rt_messagequeue) : rt_messagequeue :=
    MQueue (mq_pool_addr r) (mq_msg_size r) (mq_max_msgs r) (mq_entry r) (mq_nodes r) (mq_head
    r) v (mq_free r).
Definition set_mq_free (v : Z) (r : rt_messagequeue) : rt_messagequeue :=
    MQueue (mq_pool_addr r) (mq_msg_size r) (mq_max_msgs r) (mq_entry r) (mq_nodes r) (mq_head
    r) (mq_tail r) v.
Definition set_mp_start_address (v : Z) (r : rt_mempool) : rt_mempool :=
    MemPool v (mp_size r) (mp_block_size r) (mp_block_list r) (mp_block_total_count r)
    (mp_block_free_count r).
Definition set_mp_size (v : Z) (r : rt_mempool) : rt_mempool :=
    MemPool (mp_start_address r) v (mp_block_size r) (mp_block_list r) (mp_block_total_count r)
    (mp_block_free_count r).
Definition set_mp_block_size (v : Z) (r : rt_mempool) : rt_mempool :=
    MemPool (mp_start_address r) (mp_size r) v (mp_block_list r) (mp_block_total_count r)
    (mp_block_free_count r).
Definition set_mp_block_list (v : Z) (r : rt_mempool) : rt_mempool :=
    MemPool (mp_start_address r) (mp_size r) (mp_block_size r) v (mp_block_total_count r)
    (mp_block_free_count r).
Definition set_mp_block_total_count (v : Z) (r : rt_mempool) : rt_mempool :=
    MemPool (mp_start_address r) (mp_size r) (mp_block_size r) (mp_block_list r) v
    (mp_block_free_count r).
Definition set_mp_block_free_count (v : Z) (r : rt_mempool) : rt_mempool :=
    MemPool (mp_start_address r) (mp_size r) (mp_block_size r) (mp_block_list r)
    (mp_block_total_count r) v.
Definition set_dev_type (v : Z) (r : rt_device) : rt_device :=
    Device v (dev_flag r) (dev_open_flag r) (dev_ref_count r) (dev_device_id r) (dev_rx_indicate
    r) (dev_tx_complete r) (dev_init r) (dev_open r) (dev_close r) (dev_read r) (dev_write r)
    (dev_control r) (dev_user_data r).
Definition set_dev_flag (v : Z) (r : rt_device) : rt_device :=
    Device (dev_type r) v (dev_open_flag r) (dev_ref_count r) (dev_device_id r) (dev_rx_indicate
    r) (dev_tx_complete r) (dev_init r) (dev_open r) (dev_close r) (dev_read r) (dev_write r)
    (dev_control r) (dev_user_data r).
Definition set_dev_open_flag (v : Z) (r : rt_device) : rt_device :=
    Device (dev_type r) (dev_flag r) v (dev_ref_count r) (dev_device_id r) (dev_rx_indicate r)
    (dev_tx_complete r) (dev_init r) (dev_open r) (dev_close r) (dev_read r) (dev_write r)
    (dev_control r) (dev_user_data r).
Definition set_dev_ref_count (v : Z) (r : rt_device) : rt_device :=
    Device (dev_type r) (dev_flag r) (dev_open_flag r) v (dev_device_id r) (dev_rx_indicate r)
    (dev_tx_complete r) (dev_init r) (dev_open r) (dev_close r) (dev_read r) (dev_write r)
    (dev_control r) (dev_user_data r).
Definition set_dev_device_id (v : Z) (r : rt_device) : rt_device :=
    Device (dev_type r) (dev_flag r) (dev_open_flag r) (dev_ref_count r) v (dev_rx_indicate r)
    (dev_tx_complete r) (dev_init r) (dev_open r) (dev_close r) (dev_read r) (dev_write r)
    (dev_control r) (dev_user_data r).
Definition set_dev_rx_indicate (v : Z) (r : rt_device) : rt_device :=
    Device (dev_type r) (dev_flag r) (dev_open_flag r) (dev_ref_count r) (dev_device_id r) v
    (dev_tx_complete r) (dev_init r) (dev_open r) (dev_close r) (dev_read r) (dev_write r)
    (dev_control r) (dev_user_data r).
Definition set_dev_tx_complete (v : Z) (r : rt_device) : rt_device :=
    Device (dev_type r) (dev_flag r) (dev_open_flag r) (dev_ref_count r) (dev_device_id r)
    (dev_rx_indicate r) v (dev_init r) (dev_open r) (dev_close r) (dev_read r) (dev_write r)
    (dev_control r) (dev_user_data r).
Definition set_dev_init (v : Z) (r : rt_device) : rt_device :=
    Device (dev_type r) (dev_flag r) (dev_open_flag r) (dev_ref_count r) (dev_device_id r)
    (dev_rx_indicate r) (dev_tx_complete r) v (dev_open r) (dev_close r) (dev_read r) (dev_write
    r) (dev_control r) (dev_user_data r).
Definition set_dev_open (v : Z) (r : rt_device) : rt_device :=
    Device (dev_type r) (dev_flag r) (dev_open_flag r) (dev_ref_count r) (dev_device_id r)
    (dev_rx_indicate r) (dev_tx_complete r) (dev_init r) v (dev_close r) (dev_read r) (dev_write
    r) (dev_control r) (dev_user_data r).
Definition set_dev_close (v : Z) (r : rt_device) : rt_device :=
    Device (dev_type r) (dev_flag r) (dev_open_flag r) (dev_ref_count r) (dev_device_id r)
    (dev_rx_indicate r) (dev_tx_complete r) (dev_init r) (dev_open r) v (dev_read r) (dev_write
    r) (dev_control r) (dev_user_data r).
Definition set_dev_read (v : Z) (r : rt_device) : rt_device :=
    Device (dev_type r) (dev_flag r) (dev_open_flag r) (dev_ref_count r) (dev_device_id r)
    (dev_rx_indicate r) (dev_tx_complete r) (dev_init r) (dev_open r) (dev_close r) v (dev_write
    r) (dev_control r) (dev_user_data r).
Definition set_dev_write (v : Z) (r : rt_device) : rt_device :=
    Device (dev_type r) (dev_flag r) (dev_open_flag r) (dev_ref_count r) (dev_device_id r)
    (dev_rx_indicate r) (dev_tx_complete r) (dev_init r) (dev_open r) (dev_close r) (dev_read r)
    v (dev_control r) (dev_user_data r).
Definition set_dev_control (v : Z) (r : rt_device) : rt_device :=
    Device (dev_type r) (dev_flag r) (dev_open_flag r) (dev_ref_count r) (dev_device_id r)
    (dev_rx_indicate r) (dev_tx_complete r) (dev_init r) (dev_open r) (dev_close r) (dev_read r)
    (dev_write r) v (dev_user_data r).
Definition set_dev_user_data (v : Z) (r : rt_device) : rt_device :=
    Device (dev_type r) (dev_flag r) (dev_open_flag r) (dev_ref_count r) (dev_device_id r)
    (dev_rx_indicate r) (dev_tx_complete r) (dev_init r) (dev_open r) (dev_close r) (dev_read r)
    (dev_write r) (dev_control r) v.
Definition set_rt_tick (v : Z) (r : kernel) : kernel :=
    Kernel v (objects r) (containers r) (threads r) (timers r) (tlists r) (timer_list r)
    (timer_pending r) (random_nr r) (ready_group r) (lock_nest r) (current_thread r)
    (current_priority r) (interrupt_nest r) (kerrno r) (kheap r) (sems r) (mutexes r) (events r)
    (mailboxes r) (mqueues r) (mempools r) (devices r) (pool_words r) (idle_hook_list r).
Definition set_objects (v : gmap optr rt_object) (r : kernel) : kernel :=
    Kernel (rt_tick r) v (containers r) (threads r) (timers r) (tlists r) (timer_list r)
    (timer_pending r) (random_nr r) (ready_group r) (lock_nest r) (current_thread r)
    (current_priority r) (interrupt_nest r) (kerrno r) (kheap r) (sems r) (mutexes r) (events r)
    (mailboxes r) (mqueues r) (mempools r) (devices r) (pool_words r) (idle_hook_list r).
Definition set_containers (v : gmap Z (list optr)) (r : kernel) : kernel :=
    Kernel (rt_tick r) (objects r) v (threads r) (timers r) (tlists r) (timer_list r)
    (timer_pending r) (random_nr r) (ready_group r) (lock_nest r) (current_thread r)
    (current_priority r) (interrupt_nest r) (kerrno r) (kheap r) (sems r) (mutexes r) (events r)
    (mailboxes r) (mqueues r) (mempools r) (devices r) (pool_words r) (idle_hook_list r).
Definition set_threads (v : gmap Z rt_thread) (r : kernel) : kernel :=
    Kernel (rt_tick r) (objects r) (containers r) v (timers r) (tlists r) (timer_list r)
    (timer_pending r) (random_nr r) (ready_group r) (lock_nest r) (current_thread r)
    (current_priority r) (interrupt_nest r) (kerrno r) (kheap r) (sems r) (mutexes r) (events r)
    (mailboxes r) (mqueues r) (mempools r) (devices r) (pool_words r) (idle_hook_list r).
Definition set_timers (v : gmap optr rt_timer) (r : kernel) : kernel :=
    Kernel (rt_tick r) (objects r) (containers r) (threads r) v (tlists r) (timer_list r)
    (timer_pending r) (random_nr r) (ready_group r) (lock_nest r) (current_thread r)
    (current_priority r) (interrupt_nest r) (kerrno r) (kheap r) (sems r) (mutexes r) (events r)
    (mailboxes r) (mqueues r) (mempools r) (devices r) (pool_words r) (idle_hook_list r).
Definition set_tlists (v : gmap lhead (list Z)) (r : kernel) : kernel :=
    Kernel (rt_tick r) (objects r) (containers r) (threads r) (timers r) v (timer_list r)
    (timer_pending r) (random_nr r) (ready_group r) (lock_nest r) (current_thread r)
    (current_priority r) (interrupt_nest r) (kerrno r) (kheap r) (sems r) (mutexes r) (events r)
    (mailboxes r) (mqueues r) (mempools r) (devices r) (pool_words r) (idle_hook_list r).
Definition set_timer_list (v : list optr) (r : kernel) : kernel :=
    Kernel (rt_tick r) (objects r) (containers r) (threads r) (timers r) (tlists r) v
    (timer_pending r) (random_nr r) (ready_group r) (lock_nest r) (current_thread r)
    (current_priority r) (interrupt_nest r) (kerrno r) (kheap r) (sems r) (mutexes r) (events r)
    (mailboxes r) (mqueues r) (mempools r) (devices r) (pool_words r) (idle_hook_list r).
Definition set_timer_pending (v : list optr) (r : kernel) : kernel :=
    Kernel (rt_tick r) (objects r) (containers r) (threads r) (timers r) (tlists r) (timer_list
    r) v (random_nr r) (ready_group r) (lock_nest r) (current_thread r) (current_priority r)
    (interrupt_nest r) (kerrno r) (kheap r) (sems r) (mutexes r) (events r) (mailboxes r)
    (mqueues r) (mempools r) (devices r) (pool_words r) (idle_hook_list r).
Definition set_random_nr (v : Z) (r : kernel) : kernel :=
    Kernel (rt_tick r) (objects r) (containers r) (threads r) (timers r) (tlists r) (timer_list
    r) (timer_pending r) v (ready_group r) (lock_nest r) (current_thread r) (current_priority r)
    (interrupt_nest r) (kerrno r) (kheap r) (sems r) (mutexes r) (events r) (mailboxes r)
    (mqueues r) (mempools r) (devices r) (pool_words r) (idle_hook_list r).
Definition set_ready_group (v : Z) (r : kernel) : kernel :=
    Kernel (rt_tick r) (objects r) (containers r) (threads r) (timers r) (tlists r) (timer_list
    r) (timer_pending r) (random_nr r) v (lock_nest r) (current_thread r) (current_priority r)
    (interrupt_nest r) (kerrno r) (kheap r) (sems r) (mutexes r) (events r) (mailboxes r)
    (mqueues r) (mempools r) (devices r) (pool_words r) (idle_hook_list r).
Definition set_lock_nest (v : Z) (r : kernel) : kernel :=
    Kernel (rt_tick r) (objects r) (containers r) (threads r) (timers r) (tlists r) (timer_list
    r) (timer_pending r) (random_nr r) (ready_group r) v (current_thread r) (current_priority r)
    (interrupt_nest r) (kerrno r) (kheap r) (sems r) (mutexes r) (events r) (mailboxes r)
    (mqueues r) (mempools r) (devices r) (pool_words r) (idle_hook_list r).
Definition set_current_thread (v : option Z) (r : kernel) : kernel :=
    Kernel (rt_tick r) (objects r) (containers r) (threads r) (timers r) (tlists r) (timer_list
    r) (timer_pending r) (random_nr r) (ready_group r) (lock_nest r) v (current_priority r)
    (interrupt_nest r) (kerrno r) (kheap r) (sems r) (mutexes r) (events r) (mailboxes r)
    (mqueues r) (mempools r) (devices r) (pool_words r) (idle_hook_list r).
Definition set_current_priority (v : Z) (r : kernel) : kernel :=
    Kernel (rt_tick r) (objects r) (containers r) (threads r) (timers r) (tlists r) (timer_list
    r) (timer_pending r) (random_nr r) (ready_group r) (lock_nest r) (current_thread r) v
    (interrupt_nest r) (kerrno r) (kheap r) (sems r) (mutexes r) (events r) (mailboxes r)
    (mqueues r) (mempools r) (devices r) (pool_words r) (idle_hook_list r).
Definition set_interrupt_nest (v : Z) (r : kernel) : kernel :=
    Kernel (rt_tick r) (objects r) (containers r) (threads r) (timers r) (tlists r) (timer_list
    r) (timer_pending r) (random_nr r) (ready_group r) (lock_nest r) (current_thread r)
    (current_priority r) v (kerrno r) (kheap r) (sems r) (mutexes r) (events r) (mailboxes r)
    (mqueues r) (mempools r) (devices r) (pool_words r) (idle_hook_list r).
Definition set_kerrno (v : Z) (r : kernel) : kernel :=
    Kernel (rt_tick r) (objects r) (containers r) (threads r) (timers r) (tlists r) (timer_list
    r) (timer_pending r) (random_nr r) (ready_group r) (lock_nest r) (current_thread r)
    (current_priority r) (interrupt_nest r) v (kheap r) (sems r) (mutexes r) (events r)
    (mailboxes r) (mqueues r) (mempools r) (devices r) (pool_words r) (idle_hook_list r).
Definition set_kheap (v : heap) (r : kernel) : kernel :=
    Kernel (rt_tick r) (objects r) (containers r) (threads r) (timers r) (tlists r) (timer_list
    r) (timer_pending r) (random_nr r) (ready_group r) (lock_nest r) (current_thread r)
    (current_priority r) (interrupt_nest r) (kerrno r) v (sems r) (mutexes r) (events r)
    (mailboxes r) (mqueues r) (mempools r) (devices r) (pool_words r) (idle_hook_list r).
Definition set_sems (v : gmap Z Z) (r : kernel) : kernel :=
    Kernel (rt_tick r) (objects r) (containers r) (threads r) (timers r) (tlists r) (timer_list
    r) (timer_pending r) (random_nr r) (ready_group r) (lock_nest r) (current_thread r)
    (current_priority r) (interrupt_nest r) (kerrno r) (kheap r) v (mutexes r) (events r)
    (mailboxes r) (mqueues r) (mempools r) (devices r) (pool_words r) (idle_hook_list r).
Definition set_mutexes (v : gmap Z rt_mutex) (r : kernel) : kernel :=
    Kernel (rt_tick r) (objects r) (containers r) (threads r) (timers r) (tlists r) (timer_list
    r) (timer_pending r) (random_nr r) (ready_group r) (lock_nest r) (current_thread r)
    (current_priority r) (interrupt_nest r) (kerrno r) (kheap r) (sems r) v (events r)
    (mailboxes r) (mqueues r) (mempools r) (devices r) (pool_words r) (idle_hook_list r).
Definition set_events (v : gmap Z Z) (r : kernel) : kernel :=
    Kernel (rt_tick r) (objects r) (containers r) (threads r) (timers r) (tlists r) (timer_list
    r) (timer_pending r) (random_nr r) (ready_group r) (lock_nest r) (current_thread r)
    (current_priority r) (interrupt_nest r) (kerrno r) (kheap r) (sems r) (mutexes r) v
    (mailboxes r) (mqueues r) (mempools r) (devices r) (pool_words r) (idle_hook_list r).
Definition set_mailboxes (v : gmap Z rt_mailbox) (r : kernel) : kernel :=
    Kernel (rt_tick r) (objects r) (containers r) (threads r) (timers r) (tlists r) (timer_list
    r) (timer_pending r) (random_nr r) (ready_group r) (lock_nest r) (current_thread r)
    (current_priority r) (interrupt_nest r) (kerrno r) (kheap r) (sems r) (mutexes r) (events r)
    v (mqueues r) (mempools r) (devices r) (pool_words r) (idle_hook_list r).
Definition set_mqueues (v : gmap Z rt_messagequeue) (r : kernel) : kernel :=
    Kernel (rt_tick r) (objects r) (containers r) (threads r) (timers r) (tlists r) (timer_list
    r) (timer_pending r) (random_nr r) (ready_group r) (lock_nest r) (current_thread r)
    (current_priority r) (interrupt_nest r) (kerrno r) (kheap r) (sems r) (mutexes r) (events r)
    (mailboxes r) v (mempools r) (devices r) (pool_words r) (idle_hook_list r).
Definition set_mempools (v : gmap Z rt_mempool) (r : kernel) : kernel :=
    Kernel (rt_tick r) (objects r) (containers r) (threads r) (timers r) (tlists r) (timer_list
    r) (timer_pending r) (random_nr r) (ready_group r) (lock_nest r) (current_thread r)
    (current_priority r) (interrupt_nest r) (kerrno r) (kheap r) (sems r) (mutexes r) (events r)
    (mailboxes r) (mqueues r) v (devices r) (pool_words r) (idle_hook_list r).
Definition set_devices (v : gmap Z rt_device) (r : kernel) : kernel :=
    Kernel (rt_tick r) (objects r) (containers r) (threads r) (timers r) (tlists r) (timer_list
    r) (timer_pending r) (random_nr r) (ready_group r) (lock_nest r) (current_thread r)
    (current_priority r) (interrupt_nest r) (kerrno r) (kheap r) (sems r) (mutexes r) (events r)
    (mailboxes r) (mqueues r) (mempools r) v (pool_words r) (idle_hook_list r).
Definition set_pool_words (v : gmap Z Z) (r : kernel) : kernel :=
    Kernel (rt_tick r) (objects r) (containers r) (threads r) (timers r) (tlists r) (timer_list
    r) (timer_pending r) (random_nr r) (ready_group r) (lock_nest r) (current_thread r)
    (current_priority r) (interrupt_nest r) (kerrno r) (kheap r) (sems r) (mutexes r) (events r)
    (mailboxes r) (mqueues r) (mempools r) (devices r) v (idle_hook_list r).
Definition set_idle_hook_list (v : list Z) (r : kernel) : kernel :=
    Kernel (rt_tick r) (objects r) (containers r) (threads r) (timers r) (tlists r) (timer_list
    r) (timer_pending r) (random_nr r) (ready_group r) (lock_nest r) (current_thread r)
    (current_priority r) (interrupt_nest r) (kerrno r) (kheap r) (sems r) (mutexes r) (events r)
    (mailboxes r) (mqueues r) (mempools r) (devices r) (pool_words r) v.

(** * The kernel monad and its primitives *)

Abbreviation K := (M kernel).

(** What the link decides: the address of [rt_thread_exit], and the functions
    of the application and the drivers that the kernel calls through pointers. *)
Class Callbacks := {
  addr_rt_thread_exit : Z;
  user_timeout : Z → Z → K unit;
  user_cleanup : Z → Z → K unit;
  user_idle : Z → K unit;
  dev_init_fn : Z → Z → K Z;
  dev_open_fn : Z → Z → Z → K Z;
  dev_close_fn : Z → Z → K Z;
  dev_read_fn : Z → Z → Z → Z → K Z;
  dev_write_fn : Z → Z → Z → list Z → K Z;
  dev_control_fn : Z → Z → Z → Z → K Z
}.

(** Access through a pointer; a pointer to no object is undefined. *)
Definition deref {I A} `{Countable I} (f : kernel → gmap I A) (p : I) : K A :=
  λ k, a ← f k !! p; Some (a, k).
Definition thread_at (t : Z) : K rt_thread := deref threads t.
Definition object_at (p : optr) : K rt_object := deref objects p.
Definition timer_at (p : optr) : K rt_timer := deref timers p.

Definition upd_thread (t : Z) (f : rt_thread → rt_thread) : K unit :=
  th ← thread_at t; modify (λ k, set_threads (<[t := f th]> (threads k)) k).
Definition upd_object (p : optr) (f : rt_object → rt_object) : K unit :=
  o ← object_at p; modify (λ k, set_objects (<[p := f o]> (objects k)) k).
Definition upd_timer (p : optr) (f : rt_timer → rt_timer) : K unit :=
  tm ← timer_at p; modify (λ k, set_timers (<[p := f tm]> (timers k)) k).

(** The heap of mem.c inside the kernel. *)
Definition kheap_in (k : kernel) : heap :=
  let h := kheap k in
  Heap (mem h) (bytes h) (heap_ptr h) (heap_end h) (lfree h) (heap_sem h) (mem_size_aligned h)
       (used_mem h) (max_mem h) (interrupt_nest k).
Definition lift_heap {A} (m : M heap A) : K A :=
  λ k, match m (kheap_in k) with Some (a, h) => Some (a, set_kheap h k) | None => None end.
Definition RT_KERNEL_MALLOC (size : Z) : K Z := lift_heap (rt_malloc size).
Definition RT_KERNEL_FREE (p : Z) : K unit := lift_heap (rt_free p).

(** * Lists of threads *)

Definition tl (h : lhead) (k : kernel) : list Z := default [] (tlists k !! h).
Definition put_tl (h : lhead) (l : list Z) (k : kernel) : kernel :=
  set_tlists (<[h := l]> (tlists k)) k.
(** Whether the node [tlist] of the thread is on some list. *)
Definition tlinked (t : Z) (k : kernel) : bool :=
  negb (bool_decide (map_Forall (λ _ l, t ∉ l) (tlists k))).

(** rt_list_init(&(thread->tlist)): on a linked node it would corrupt the list *)
Definition tlist_init (t : Z) : K unit := λ k, if tlinked t k then None else Some (tt, k).
(** rt_list_remove(&(thread->tlist)) *)
Definition tlist_remove (t : Z) : K unit :=
  modify (λ k, set_tlists (lremove t <$> tlists k) k).
(** rt_list_insert_before(head, &(thread->tlist)): at the end *)
Definition tlist_insert_before (h : lhead) (t : Z) : K unit :=
  λ k, if tlinked t k then None else Some (tt, put_tl h (tl h k ++ [t]) k).
(** rt_list_insert_after(head, &(thread->tlist)): at the front *)
Definition tlist_insert_after (h : lhead) (t : Z) : K unit :=
  λ k, if tlinked t k then None else Some (tt, put_tl h (t :: tl h k) k).
(** rt_list_insert_before(&(sthread->tlist), &(thread->tlist)), for the
    [n]-th thread of the list *)
Definition tlist_insert_nth (h : lhead) (n : nat) (t : Z) : K unit :=
  λ k, if tlinked t k then None
       else Some (tt, put_tl h (take n (tl h k) ++ t :: drop n (tl h k)) k).
(** thread->tlist.next != thread->tlist.prev: its list has another node. *)
Definition tlist_shared (t : Z) (k : kernel) : bool :=
  negb (bool_decide (map_Forall (λ _ l, t ∈ l → (length l < 2)%nat) (tlists k))).

(** rt_list_entry(head->next, struct rt_thread, tlist) *)
Definition tlist_first (h : lhead) : K Z :=
  λ k, match tl h k with t :: _ => Some (t, k) | [] => None end.

Section lemmas.
Implicit Types k : kernel.

Lemma tl_put h l h' k : tl h' (put_tl h l k) = if decide (h' = h) then l else tl h' k.
Proof.
  unfold tl, put_tl. simpl. case_decide as E.
  - subst. by rewrite lookup_insert_eq.
  - by rewrite lookup_insert_ne by done.
Qed.
Lemma tl_remove t h k : tl h (set_tlists (lremove t <$> tlists k) k) = lremove t (tl h k).
Proof. unfold tl. simpl. rewrite lookup_fmap. by destruct (tlists k !! h). Qed.
Lemma tlinked_false t k : tlinked t k = false ↔ ∀ h, t ∉ tl h k.
Proof.
  unfold tlinked. rewrite negb_false_iff, bool_decide_eq_true. split.
  - intros Hf h. unfold tl. destruct (tlists k !! h) as [l|] eqn:E; simpl; [|apply not_elem_of_nil].
    by apply (Hf h).
  - intros Hn h l E. specialize (Hn h). unfold tl in Hn. by rewrite E in Hn.
Qed.
Lemma tlist_shared_spec t h k :
  t ∈ tl h k → (∀ h', t ∈ tl h' k → h' = h) → tlist_shared t k = bool_decide (2 ≤ length (tl h k))%nat.
Proof.
  intros Hin Hu. unfold tlist_shared. apply eq_true_iff_eq.
  rewrite negb_true_iff, bool_decide_eq_false, bool_decide_eq_true. split.
  - intros Hn. destruct (le_lt_dec 2 (length (tl h k))) as [|Hl]; [done|]. exfalso. apply Hn.
    intros h' l E Hl'. assert (h' = h) as ->; [apply Hu; unfold tl; by rewrite E|].
    unfold tl in Hl. by rewrite E in Hl.
  - intros Hl Hf. unfold tl in *. destruct (tlists k !! h) as [l|] eqn:E; simpl in *; [|lia].
    specialize (Hf h l E Hin). lia.
Qed.

Lemma wp_deref {I A} `{Countable I} (f : kernel → gmap I A) p a k (Q : A → kernel → Prop) :
  f k !! p = Some a → Q a k → wp (deref f p) Q k.
Proof. intros E HQ. unfold wp, deref. by rewrite E. Qed.
Lemma wp_thread_at k t th (Q : rt_thread → kernel → Prop) :
  threads k !! t = Some th → Q th k → wp (thread_at t) Q k.
Proof. apply wp_deref. Qed.
Lemma wp_object_at k p o (Q : rt_object → kernel → Prop) :
  objects k !! p = Some o → Q o k → wp (object_at p) Q k.
Proof. apply wp_deref. Qed.
Lemma wp_timer_at k p tm (Q : rt_timer → kernel → Prop) :
  timers k !! p = Some tm → Q tm k → wp (timer_at p) Q k.
Proof. apply wp_deref. Qed.
Lemma wp_upd_thread k t th f (Q : unit → kernel → Prop) :
  threads k !! t = Some th → Q tt (set_threads (<[t := f th]> (threads k)) k) →
  wp (upd_thread t f) Q k.
Proof. intros E HQ. unfold upd_thread. apply wp_bind. by eapply wp_thread_at. Qed.
Lemma wp_upd_object k p o f (Q : unit → kernel → Prop) :
  objects k !! p = Some o → Q tt (set_objects (<[p := f o]> (objects k)) k) →
  wp (upd_object p f) Q k.
Proof. intros E HQ. unfold upd_object. apply wp_bind. by eapply wp_object_at. Qed.
Lemma wp_upd_timer k p tm f (Q : unit → kernel → Prop) :
  timers k !! p = Some tm → Q tt (set_timers (<[p := f tm]> (timers k)) k) →
  wp (upd_timer p f) Q k.
Proof. intros E HQ. unfold upd_timer. apply wp_bind. by eapply wp_timer_at. Qed.
Lemma wp_tlist_insert_before k h t (Q : unit → kernel → Prop) :
  (∀ h', t ∉ tl h' k) → Q tt (put_tl h (tl h k ++ [t]) k) → wp (tlist_insert_before h t) Q k.
Proof. intros Hn HQ. unfold wp, tlist_insert_before. by rewrite (proj2 (tlinked_false t k)). Qed.
Lemma wp_tlist_insert_after k h t (Q : unit → kernel → Prop) :
  (∀ h', t ∉ tl h' k) → Q tt (put_tl h (t :: tl h k) k) → wp (tlist_insert_after h t) Q k.
Proof. intros Hn HQ. unfold wp, tlist_insert_after. by rewrite (proj2 (tlinked_false t k)). Qed.
Lemma wp_tlist_insert_nth k h n t (Q : unit → kernel → Prop) :
  (∀ h', t ∉ tl h' k) → Q tt (put_tl h (take n (tl h k) ++ t :: drop n (tl h k)) k) →
  wp (tlist_insert_nth h n t) Q k.
Proof. intros Hn HQ. unfold wp, tlist_insert_nth. by rewrite (proj2 (tlinked_false t k)). Qed.
Lemma wp_tlist_first k h t l (Q : Z → kernel → Prop) :
  tl h k = t :: l → Q t k → wp (tlist_first h) Q k.
Proof. intros E HQ. unfold wp, tlist_first. by rewrite E. Qed.
End lemmas.

(** * Frames *)

(** The part of the state that moving threads and timers leaves alone. *)
Record kframe (k k' : kernel) : Prop := {
  kf_tick : rt_tick k' = rt_tick k;
  kf_containers : containers k' = containers k;
  kf_lock : lock_nest k' = lock_nest k;
  kf_current : current_thread k' = current_thread k;
  kf_prio : current_priority k' = current_priority k;
  kf_nest : interrupt_nest k' = interrupt_nest k;
  kf_errno : kerrno k' = kerrno k;
  kf_heap : kheap k' = kheap k;
  kf_sems : sems k' = sems k;
  kf_mutexes : mutexes k' = mutexes k;
  kf_events : events k' = events k;
  kf_mailboxes : mailboxes k' = mailboxes k;
  kf_mqueues : mqueues k' = mqueues k;
  kf_mempools : mempools k' = mempools k;
  kf_devices : devices k' = devices k;
  kf_words : pool_words k' = pool_words k;
  kf_idle : idle_hook_list k' = idle_hook_list k
}.
(** Moves of threads; moves of timers. *)
Definition sched_frame (k k' : kernel) : Prop :=
  kframe k k' ∧ objects k' = objects k ∧ timers k' = timers k ∧
  timer_list k' = timer_list k ∧ timer_pending k' = timer_pending k ∧ random_nr k' = random_nr k.
Definition timer_frame (k k' : kernel) : Prop :=
  kframe k k' ∧ threads k' = threads k ∧ tlists k' = tlists k ∧ ready_group k' = ready_group k.

#[global] Instance kframe_preorder : PreOrder kframe.
Proof. split; [intros k; by constructor|]. intros k1 k2 k3 [] []. constructor; congruence. Qed.
#[global] Instance sched_frame_preorder : PreOrder sched_frame.
Proof.
  split; [by repeat split|]. intros k1 k2 k3 (F1&?&?&?&?&?) (F2&?&?&?&?&?).
  split; [by transitivity k2|]. split_and!; congruence.
Qed.
#[global] Instance timer_frame_preorder : PreOrder timer_frame.
Proof.
  split; [by repeat split|]. intros k1 k2 k3 (F1&?&?&?) (F2&?&?&?).
  split; [by transitivity k2|]. split_and!; congruence.
Qed.

(** The same when the CPU may have gone to another thread. *)
Record iframe (k k' : kernel) : Prop := {
  if_tick : rt_tick k' = rt_tick k;
  if_containers : containers k' = containers k;
  if_lock : lock_nest k' = lock_nest k;
  if_nest : interrupt_nest k' = interrupt_nest k;
  if_errno : kerrno k' = kerrno k;
  if_heap : kheap k' = kheap k;
  if_sems : sems k' = sems k;
  if_mutexes : mutexes k' = mutexes k;
  if_events : events k' = events k;
  if_mailboxes : mailboxes k' = mailboxes k;
  if_mqueues : mqueues k' = mqueues k;
  if_mempools : mempools k' = mempools k;
  if_devices : devices k' = devices k;
  if_words : pool_words k' = pool_words k;
  if_idle : idle_hook_list k' = idle_hook_list k
}.
#[global] Instance iframe_preorder : PreOrder iframe.
Proof. split; [intros k; by constructor|]. intros k1 k2 k3 [] []. constructor; congruence. Qed.
Lemma kframe_iframe k k' : kframe k k' → iframe k k'.
Proof. intros []. by constructor. Qed.
