(* ===== verification/Sched.v ===== *)
(** The scheduler of os/scheduler.c (32 priorities, one CPU): the ready table
    and its bitmap, [rt_schedule], critical sections, and the invariant that
    ties the table, the bitmap and the thread states together. *)
From S2P Require Import Prelude Kservice KState.

Definition stat_of (th : rt_thread) : Z := Z.land (th_stat th) RT_THREAD_STAT_MASK.
(** stat | (thread->stat & ~RT_THREAD_STAT_MASK) *)
Definition with_stat (stat : Z) (th : rt_thread) : rt_thread :=
  set_th_stat (u8 (Z.lor stat (Z.land (th_stat th) (u32 (Z.lnot RT_THREAD_STAT_MASK))))) th.

Definition rt_system_scheduler_init : K unit :=
  modify (set_lock_nest 0);;
  modify (λ k, set_tlists (foldr (λ p, <[LReady p := []]>) (tlists k)
                             (seqZ 0 RT_THREAD_PRIORITY_MAX)) k);;
  modify (set_current_priority (RT_THREAD_PRIORITY_MAX - 1));;
  modify (set_current_thread None);;
  modify (set_ready_group 0);;
  modify (put_tl LDefunct []).

(** The overflow check does not return when the stack is damaged. *)
Definition _rt_scheduler_stack_check (thread : Z) : K unit :=
  th ← thread_at thread;
  if negb (th_guard th =? 35) || (th_sp th <=? th_stack_addr th)
     || (th_stack_addr th + th_stack_size th <? th_sp th)
  then fail else mret tt.

(** __rt_ffs(rt_thread_ready_priority_group) - 1, as rt_ubase_t *)
Definition highest_ready_priority (k : kernel) : Z := u32 (__rt_ffs (ready_group k) - 1).

Definition rt_system_scheduler_start : K unit :=
  highest ← gets highest_ready_priority;
  to_thread ← tlist_first (LReady highest);
  modify (set_current_thread (Some to_thread)).

Definition rt_schedule : K unit :=
  nest ← gets lock_nest;
  when (nest =? 0)
    (highest ← gets highest_ready_priority;
     to_thread ← tlist_first (LReady highest);
     cur ← gets current_thread;
     when (negb (bool_decide (cur = Some to_thread)))
       (modify (set_current_priority (u8 highest));;
        modify (set_current_thread (Some to_thread));;
        _rt_scheduler_stack_check to_thread)).

Definition rt_schedule_insert_thread (thread : Z) : K unit :=
  upd_thread thread (with_stat RT_THREAD_READY);;
  th ← thread_at thread;
  tlist_insert_before (LReady (th_current_priority th)) thread;;
  modify (λ k, set_ready_group (Z.lor (ready_group k) (th_number_mask th)) k).

Definition rt_schedule_remove_thread (thread : Z) : K unit :=
  th ← thread_at thread;
  tlist_remove thread;;
  l ← gets (tl (LReady (th_current_priority th)));
  when (bool_decide (l = []))
    (modify (λ k, set_ready_group
       (Z.land (ready_group k) (u32 (Z.lnot (th_number_mask th)))) k)).

Definition rt_enter_critical : K unit :=
  modify (λ k, set_lock_nest (s16 (lock_nest k + 1)) k).
Definition rt_exit_critical : K unit :=
  modify (λ k, set_lock_nest (s16 (lock_nest k - 1)) k);;
  nest ← gets lock_nest;
  when (nest <=? 0)
    (modify (set_lock_nest 0);;
     cur ← gets current_thread;
     when (bool_decide (is_Some cur)) rt_schedule).
Definition rt_critical_level : K Z := gets (λ k, u16 (lock_nest k)).

(** * The scheduler invariant *)

(** What rt_thread_init and the context switch guarantee of a stack. *)
Definition stack_ok (th : rt_thread) : Prop :=
  th_guard th = 35 ∧ th_stack_addr th < th_sp th ≤ th_stack_addr th + th_stack_size th.

Record thread_ok (th : rt_thread) : Prop := {
  to_prio : 0 ≤ th_current_priority th < RT_THREAD_PRIORITY_MAX;
  to_init : 0 ≤ th_init_priority th < RT_THREAD_PRIORITY_MAX;
  to_mask : stat_of th ≠ RT_THREAD_INIT → th_number_mask th = 2 ^ th_current_priority th;
  to_stat : 0 ≤ th_stat th < 256;
  to_stack : stack_ok th
}.

(** The list a thread in a given state may be on. *)
Definition list_fits (h : lhead) (th : rt_thread) : Prop :=
  match h with
  | LReady p => stat_of th = RT_THREAD_READY ∧ th_current_priority th = p
  | LDefunct => stat_of th = RT_THREAD_CLOSE
  | LSuspend _ | LSender _ => stat_of th = RT_THREAD_SUSPEND
  end.

(** The invariant, with the demand that a READY thread is in the table lifted
    for one thread while it is moved. *)
Record sched_inv_but (x : option Z) (k : kernel) : Prop := {
  si_nodup : ∀ h, NoDup (tl h k);
  si_fits : ∀ h t, t ∈ tl h k → ∃ th, threads k !! t = Some th ∧ list_fits h th;
  si_one : ∀ h h' t, t ∈ tl h k → t ∈ tl h' k → h = h';
  si_ready : ∀ t th, threads k !! t = Some th → Some t ≠ x → stat_of th = RT_THREAD_READY →
    t ∈ tl (LReady (th_current_priority th)) k;
  si_thread : ∀ t th, threads k !! t = Some th → thread_ok th;
  si_group : ∀ p, 0 ≤ p → Z.testbit (ready_group k) p = true ↔ tl (LReady p) k ≠ [];
  si_range : 0 ≤ ready_group k < 4294967296
}.
Abbreviation sched_inv := (sched_inv_but None).
Definition detached (t : Z) (k : kernel) : Prop := ∀ h, t ∉ tl h k.

Lemma sched_inv_ext x k k' :
  threads k' = threads k → tlists k' = tlists k → ready_group k' = ready_group k →
  sched_inv_but x k → sched_inv_but x k'.
Proof.
  intros E1 E2 E3 []. assert (∀ h, tl h k' = tl h k) as E by (intros; unfold tl; by rewrite E2).
  constructor.
  - intros h. by rewrite E.
  - intros h t. rewrite E, E1. eauto.
  - intros h h' t. rewrite !E. eauto.
  - intros t th. rewrite E, E1. eauto.
  - intros t th. rewrite E1. eauto.
  - intros p. rewrite E, E3. eauto.
  - by rewrite E3.
Qed.

Lemma land_low_lor s st : 0 ≤ s < 16 → Z.land (Z.lor s (Z.land st 4294967280)) 15 = s.
Proof.
  intros. rewrite Z.land_lor_distr_l, <-Z.land_assoc.
  change (Z.land 4294967280 15) with 0. rewrite Z.land_0_r, Z.lor_0_r.
  change 15 with (Z.ones 4). rewrite Z.land_ones by lia. by apply Z.mod_small.
Qed.
Lemma u8_land_low x : Z.land (u8 x) 15 = Z.land x 15.
Proof.
  unfold u8. change 256 with (2 ^ 8). rewrite <-Z.land_ones by lia.
  rewrite <-Z.land_assoc. by change (Z.land (Z.ones 8) 15) with 15.
Qed.
Lemma stat_of_with_stat s th : 0 ≤ s < 16 → stat_of (with_stat s th) = s.
Proof.
  intros. unfold stat_of, with_stat. simpl. change (u32 (Z.lnot RT_THREAD_STAT_MASK)) with 4294967280.
  change RT_THREAD_STAT_MASK with 15. rewrite u8_land_low. by apply land_low_lor.
Qed.
Lemma stat_set_range s th : 0 ≤ th_stat (with_stat s th) < 256.
Proof. unfold with_stat. simpl. apply u8_range. Qed.

Lemma land_range g m : 0 ≤ g < 4294967296 → 0 ≤ Z.land g m < 4294967296.
Proof.
  intros Hg. assert (Z.land g m = Z.land g m mod 2 ^ 32) as ->.
  { rewrite <-Z.land_ones, <-Z.land_assoc, (Z.land_comm m), Z.land_assoc by lia.
    by rewrite (Z.land_ones g), Z.mod_small by lia. }
  by apply Z.mod_pos_bound.
Qed.
Lemma testbit_pow2 p q : 0 ≤ p → Z.testbit (2 ^ p) q = bool_decide (q = p).
Proof.
  intros Hp. case_bool_decide; [subst; by apply Z.pow2_bits_true|].
  apply Z.pow2_bits_false. lia.
Qed.
Lemma testbit_clear g p q :
  0 ≤ g < 4294967296 → 0 ≤ p < 32 → 0 ≤ q →
  Z.testbit (Z.land g (u32 (Z.lnot (2 ^ p)))) q = Z.testbit g q && negb (bool_decide (q = p)).
Proof.
  intros Hg Hp Hq. rewrite Z.land_spec. unfold u32. change 4294967296 with (2 ^ 32).
  destruct (Z_lt_le_dec q 32).
  - rewrite Z.mod_pow2_bits_low, Z.lnot_spec, testbit_pow2 by lia. done.
  - rewrite (testbit_high g) by done. done.
Qed.

(** ** Moving a thread *)

Lemma ready_prio_range x k p t : sched_inv_but x k → t ∈ tl (LReady p) k → 0 ≤ p < 32.
Proof.
  intros Hi Hin. destruct (si_fits _ _ Hi _ _ Hin) as (th & Hth & _ & <-).
  by destruct (si_thread _ _ Hi _ _ Hth).
Qed.

Lemma sched_remove_run k t th :
  sched_inv k → threads k !! t = Some th → stat_of th ≠ RT_THREAD_INIT →
  wp (rt_schedule_remove_thread t) (λ _ k',
    sched_inv_but (Some t) k' ∧ detached t k' ∧ threads k' = threads k ∧
    (∀ h, tl h k' = lremove t (tl h k)) ∧ sched_frame k k') k.
Proof.
  intros Hi Hth Hs. pose proof (si_thread _ _ Hi _ _ Hth) as Hok.
  pose proof (to_mask _ Hok Hs) as Hm. destruct (to_prio _ Hok) as [Hp0 Hp1].
  set (p := th_current_priority th) in *. change RT_THREAD_PRIORITY_MAX with 32 in Hp1.
  unfold rt_schedule_remove_thread, tlist_remove. wp_simpl. eapply wp_thread_at; [done|]. wp_simpl.
  rewrite tl_remove. fold p. rewrite Hm.
  set (k1 := set_tlists (lremove t <$> tlists k) k).
  assert (∀ h, tl h k1 = lremove t (tl h k)) as Htl by (intros; apply tl_remove).
  assert (∀ g, 0 ≤ g < 4294967296 →
    (∀ q, 0 ≤ q → Z.testbit g q = true ↔ lremove t (tl (LReady q) k) ≠ []) →
    sched_inv_but (Some t) (set_ready_group g k1)) as Hmk.
  { intros g Hg1 Hg2. constructor; simpl; try done.
    - intros h. change (NoDup (tl h k1)). rewrite Htl. apply lremove_NoDup, (si_nodup _ _ Hi).
    - intros h u. change (u ∈ tl h k1 → ∃ th, threads k !! u = Some th ∧ list_fits h th).
      rewrite Htl, elem_of_lremove. intros [? _]. by apply (si_fits _ _ Hi).
    - intros h h' u. change (u ∈ tl h k1 → u ∈ tl h' k1 → h = h').
      rewrite !Htl, !elem_of_lremove. intros [? _] [? _]. by eapply (si_one _ _ Hi).
    - intros u thu Hu Hne Hr. change (u ∈ tl (LReady (th_current_priority thu)) k1).
      rewrite Htl, elem_of_lremove. split; [by apply (si_ready _ _ Hi)|congruence].
    - intros u thu Hu. by apply (si_thread _ _ Hi u).
    - intros q Hq. change (Z.testbit g q = true ↔ tl (LReady q) k1 ≠ []). rewrite Htl. auto. }
  assert (∀ q, q ≠ p → lremove t (tl (LReady q) k) = tl (LReady q) k) as Hother.
  { intros q Hq. apply lremove_notin. intros Hin.
    destruct (si_fits _ _ Hi _ _ Hin) as (th' & Hth' & _ & Hp'). by simplify_eq. }
  pose proof (si_range _ _ Hi) as Hrg.
  case_bool_decide as Hnil; wp_simpl.
  - split; [|split; [|split; [done|split; [done|]]]].
    + apply Hmk; simpl; [by apply land_range|]. intros q Hq. rewrite testbit_clear by done.
      rewrite andb_true_iff, (si_group _ _ Hi) by done.
      case_bool_decide as Eq; simpl; [subst; naive_solver|rewrite Hother by done; naive_solver].
    + intros h. change (t ∉ tl h k1). rewrite Htl, elem_of_lremove. naive_solver.
    + by repeat split.
  - replace k1 with (set_ready_group (ready_group k) k1) by by destruct k.
    split; [|split; [|split; [done|split; [done|]]]].
    + apply Hmk; [done|]. intros q Hq. rewrite (si_group _ _ Hi) by done.
      destruct (decide (q = p)) as [->|]; [|by rewrite Hother].
      split; [done|]. intros _. intros E. apply Hnil. rewrite E. done.
    + intros h. change (t ∉ tl h k1). rewrite Htl, elem_of_lremove. naive_solver.
    + by repeat split.
Qed.

Lemma list_fits_stat h th th' :
  stat_of th' = stat_of th →
  (stat_of th = RT_THREAD_READY → th_current_priority th' = th_current_priority th) →
  list_fits h th → list_fits h th'.
Proof.
  intros E1 E2. destruct h; simpl; rewrite ?E1; try done. intros [Hs <-]. split; [done|auto].
Qed.

(** The record of a thread changes: either the scheduler fields stay ... *)
Lemma sched_set_thread x k t th th' :
  sched_inv_but x k → threads k !! t = Some th → thread_ok th' →
  stat_of th' = stat_of th →
  (stat_of th = RT_THREAD_READY → th_current_priority th' = th_current_priority th) →
  sched_inv_but x (set_threads (<[t := th']> (threads k)) k).
Proof.
  intros Hi Hth Hok Es Ep. constructor; simpl; try apply Hi.
  - intros h u Hin. destruct (si_fits _ _ Hi h u Hin) as (thu & Hu & Hf).
    destruct (decide (u = t)) as [->|Hne].
    + simplify_eq. exists th'. rewrite lookup_insert_eq. split; [done|].
      by eapply list_fits_stat.
    + exists thu. by rewrite lookup_insert_ne.
  - intros u thu. destruct (decide (u = t)) as [->|Hne].
    + rewrite lookup_insert_eq. intros [= <-] Hx Hs. rewrite Ep by congruence.
      apply (si_ready _ _ Hi t th); congruence.
    + rewrite lookup_insert_ne by done. apply (si_ready _ _ Hi).
  - intros u thu. destruct (decide (u = t)) as [->|Hne].
    + rewrite lookup_insert_eq. by intros [= <-].
    + rewrite lookup_insert_ne by done. apply (si_thread _ _ Hi).
Qed.
(** ... or the thread is on no list and does not become READY. *)
Lemma sched_set_detached k t th' :
  sched_inv_but (Some t) k → detached t k → thread_ok th' → stat_of th' ≠ RT_THREAD_READY →
  sched_inv (set_threads (<[t := th']> (threads k)) k).
Proof.
  intros Hi Hd Hok Hs. constructor; simpl; try apply Hi.
  - intros h u Hin. assert (u ≠ t) by (intros ->; by apply (Hd h)).
    destruct (si_fits _ _ Hi h u Hin) as (thu & Hu & Hf).
    exists thu. by rewrite lookup_insert_ne.
  - intros u thu. destruct (decide (u = t)) as [->|Hne].
    + rewrite lookup_insert_eq. by intros [= <-].
    + rewrite lookup_insert_ne by done. intros. apply (si_ready _ _ Hi); congruence.
  - intros u thu. destruct (decide (u = t)) as [->|Hne].
    + rewrite lookup_insert_eq. by intros [= <-].
    + rewrite lookup_insert_ne by done. apply (si_thread _ _ Hi).
Qed.
Lemma sched_but_weaken x k : sched_inv k → sched_inv_but x k.
Proof. intros []. constructor; auto. Qed.
Lemma sched_but_strengthen k t th :
  sched_inv_but (Some t) k → threads k !! t = Some th → stat_of th ≠ RT_THREAD_READY →
  sched_inv k.
Proof.
  intros Hi Hth Hs. constructor; try apply Hi. intros u thu Hu _ Hr.
  apply (si_ready _ _ Hi); try done. congruence.
Qed.

(** A thread that is not READY leaves its list. *)
Lemma sched_tlist_remove k t th :
  sched_inv k → threads k !! t = Some th → stat_of th ≠ RT_THREAD_READY →
  let k' := set_tlists (lremove t <$> tlists k) k in
  sched_inv k' ∧ detached t k' ∧ (∀ h, tl h k' = lremove t (tl h k)).
Proof.
  intros Hi Hth Hs k'. assert (∀ h, tl h k' = lremove t (tl h k)) as Htl by (intros; apply tl_remove).
  assert (∀ p, lremove t (tl (LReady p) k) = tl (LReady p) k) as Hr.
  { intros p. apply lremove_notin. intros Hin.
    destruct (si_fits _ _ Hi _ _ Hin) as (th' & Hth' & Hf & _). by simplify_eq. }
  split; [|split; [|done]].
  - constructor; try apply Hi.
    + intros h. rewrite Htl. apply lremove_NoDup, (si_nodup _ _ Hi).
    + intros h u. rewrite Htl, elem_of_lremove. intros [? _]. by apply (si_fits _ _ Hi).
    + intros h h' u. rewrite !Htl, !elem_of_lremove. intros [? _] [? _]. by eapply (si_one _ _ Hi).
    + intros u thu Hu _ Hru. rewrite Htl, Hr. by apply (si_ready _ _ Hi).
    + intros p. rewrite Htl, Hr. apply (si_group _ _ Hi).
  - intros h. rewrite Htl, elem_of_lremove. naive_solver.
Qed.

(** Reordering lists. *)
Lemma sched_permute x k k' :
  sched_inv_but x k → threads k' = threads k → ready_group k' = ready_group k →
  (∀ h, tl h k' ≡ₚ tl h k) → sched_inv_but x k'.
Proof.
  intros Hi Et Eg Hp. constructor; rewrite ?Et, ?Eg; try apply Hi.
  - intros h. rewrite Hp. apply Hi.
  - intros h u. rewrite Hp. apply (si_fits _ _ Hi).
  - intros h h' u. rewrite !Hp. apply (si_one _ _ Hi).
  - intros u thu Hu Hx Hs. rewrite Hp. by apply (si_ready _ _ Hi).
  - intros p H0. rewrite (si_group _ _ Hi) by done.
    split; intros Hn E; apply Hn; apply Permutation_nil_r; rewrite <-E; [symmetry|]; apply Hp.
Qed.

(** A detached thread is linked, anywhere in a list that fits its state. *)
Lemma sched_put k t th h l :
  sched_inv k → threads k !! t = Some th → detached t k → list_fits h th →
  (∀ p, h ≠ LReady p) → l ≡ₚ t :: tl h k →
  sched_inv (put_tl h l k).
Proof.
  intros Hi Hth Hd Hf Hh Hl. constructor; try apply Hi.
  - intros h'. rewrite tl_put. case_decide; [|apply (si_nodup _ _ Hi)].
    rewrite Hl. constructor; [apply Hd|apply (si_nodup _ _ Hi)].
  - intros h' u. rewrite tl_put. case_decide as E; [|apply (si_fits _ _ Hi)].
    subst h'. rewrite Hl, elem_of_cons. intros [->|Hin]; [eauto|by apply (si_fits _ _ Hi)].
  - intros h1 h2 u. rewrite !tl_put. do 2 case_decide; subst; rewrite ?Hl, ?elem_of_cons;
      try done; intros H1 H2.
    + destruct H1 as [->|H1]; [by destruct (Hd h2)|by eapply (si_one _ _ Hi)].
    + destruct H2 as [->|H2]; [by destruct (Hd h1)|by eapply (si_one _ _ Hi)].
    + by eapply (si_one _ _ Hi).
  - intros u thu Hu _ Hr. rewrite tl_put, decide_False by naive_solver. by apply (si_ready _ _ Hi).
  - intros p. rewrite tl_put, decide_False by naive_solver. apply (si_group _ _ Hi).
Qed.

Lemma thread_ok_with_stat s th :
  thread_ok th → stat_of th ≠ RT_THREAD_INIT → 0 ≤ s < 16 → thread_ok (with_stat s th).
Proof.
  intros [] Hs Hr. constructor; simpl; auto. apply u8_range.
Qed.

Lemma testbit_set g p q : 0 ≤ p → Z.testbit (Z.lor g (2 ^ p)) q = Z.testbit g q || bool_decide (q = p).
Proof. intros. by rewrite Z.lor_spec, testbit_pow2. Qed.
Lemma lor_range g p : 0 ≤ g < 4294967296 → 0 ≤ p < 32 → 0 ≤ Z.lor g (2 ^ p) < 4294967296.
Proof.
  intros Hg Hp. assert (0 ≤ Z.lor g (2 ^ p)) by (apply Z.lor_nonneg; split; [lia|apply Z.pow_nonneg; lia]).
  split; [done|]. destruct (Z.eq_dec (Z.lor g (2 ^ p)) 0) as [->|]; [lia|].
  change 4294967296 with (2 ^ 32). apply Z.log2_lt_pow2; [lia|].
  rewrite Z.log2_lor by (try apply Z.pow_nonneg; lia). rewrite Z.log2_pow2 by lia.
  destruct (Z.eq_dec g 0) as [->|]; [simpl; lia|].
  apply Z.max_lub_lt; [|lia]. apply Z.log2_lt_pow2; [lia|]. change (2 ^ 32) with 4294967296. lia.
Qed.

Lemma sched_insert_run k t th :
  sched_inv_but (Some t) k → detached t k → threads k !! t = Some th →
  stat_of th ≠ RT_THREAD_INIT →
  wp (rt_schedule_insert_thread t) (λ _ k',
    sched_inv k' ∧ threads k' = <[t := with_stat RT_THREAD_READY th]> (threads k) ∧
    (∀ h, tl h k' = if decide (h = LReady (th_current_priority th)) then tl h k ++ [t] else tl h k) ∧
    sched_frame k k') k.
Proof.
  intros Hi Hd Hth Hs. pose proof (si_thread _ _ Hi _ _ Hth) as Hok.
  pose proof (to_mask _ Hok Hs) as Hm. destruct (to_prio _ Hok) as [Hp0 Hp1].
  change RT_THREAD_PRIORITY_MAX with 32 in Hp1.
  set (th' := with_stat RT_THREAD_READY th). set (p := th_current_priority th) in *.
  assert (stat_of th' = RT_THREAD_READY) as Hst by (apply stat_of_with_stat; done).
  assert (thread_ok th') as Hok' by (by apply thread_ok_with_stat).
  unfold rt_schedule_insert_thread. wp_simpl. eapply wp_upd_thread; [done|]. wp_simpl.
  eapply wp_thread_at; [apply lookup_insert_eq|]. wp_simpl.
  apply wp_tlist_insert_before; [exact Hd|]. wp_simpl. simpl. fold p. rewrite Hm.
  set (k1 := put_tl _ _ _).
  assert (∀ h, tl h k1 = if decide (h = LReady p) then tl h k ++ [t] else tl h k) as Htl.
  { intros h. unfold k1. rewrite tl_put. by case_decide; [subst|]. }
  split; [|split; [done|split; [exact Htl|]]].
  2:{ by repeat split. }
  constructor; simpl.
  - intros h. change (NoDup (tl h k1)). rewrite Htl. case_decide; [|apply (si_nodup _ _ Hi)].
    apply NoDup_app. split_and!; [apply (si_nodup _ _ Hi)| |apply NoDup_singleton].
    intros u Hu Hin. apply list_elem_of_singleton in Hin as ->. by apply (Hd h).
  - intros h u. change (u ∈ tl h k1 → ∃ th0, <[t:=th']> (threads k) !! u = Some th0 ∧ list_fits h th0).
    rewrite Htl. intros Hin. assert (u ∈ tl h k ∨ (u = t ∧ h = LReady p)) as [Hin'|[-> ->]].
    { revert Hin. case_decide; [|auto]. rewrite elem_of_app, list_elem_of_singleton. naive_solver. }
    + assert (u ≠ t) by (intros ->; by apply (Hd h)). rewrite lookup_insert_ne by done.
      by apply (si_fits _ _ Hi).
    + exists th'. rewrite lookup_insert_eq. done.
  - intros h1 h2 u. change (u ∈ tl h1 k1 → u ∈ tl h2 k1 → h1 = h2). rewrite !Htl.
    assert (∀ h, (u ∈ if decide (h = LReady p) then tl h k ++ [t] else tl h k) →
      u ∈ tl h k ∧ u ≠ t ∨ u = t ∧ h = LReady p) as Hc.
    { intros h Hin. assert (u ∈ tl h k ∨ (u = t ∧ h = LReady p)) as [Hin'|?]; [| |by right].
      { revert Hin. case_decide; [|auto]. rewrite elem_of_app, list_elem_of_singleton. naive_solver. }
      left. split; [done|]. intros ->. by apply (Hd h). }
    intros [[??]|[??]]%Hc [[??]|[??]]%Hc; try congruence. by eapply (si_one _ _ Hi).
  - intros u thu. change (<[t:=th']> (threads k) !! u = Some thu → Some u ≠ None →
      stat_of thu = RT_THREAD_READY → u ∈ tl (LReady (th_current_priority thu)) k1).
    rewrite Htl. destruct (decide (u = t)) as [->|Hne].
    + rewrite lookup_insert_eq. intros [= <-] _ _. simpl. rewrite decide_True by done. set_solver.
    + rewrite lookup_insert_ne by done. intros Hu _ Hr.
      assert (u ∈ tl (LReady (th_current_priority thu)) k) by (apply (si_ready _ _ Hi); congruence).
      case_decide; set_solver.
  - intros u thu. destruct (decide (u = t)) as [->|Hne].
    + rewrite lookup_insert_eq. by intros [= <-].
    + rewrite lookup_insert_ne by done. apply (si_thread _ _ Hi).
  - intros q Hq. change (Z.testbit (Z.lor (ready_group k) (2 ^ p)) q = true ↔ tl (LReady q) k1 ≠ []).
    rewrite Htl, testbit_set, orb_true_iff, (si_group _ _ Hi), bool_decide_eq_true by done.
    case_decide; simplify_eq.
    + split; [intros _; by destruct (tl (LReady p) k)|auto].
    + split; [intros [?|?]; [done|congruence]|auto].
  - by apply lor_range; [apply (si_range _ _ Hi)|].
Qed.

(** ** Choosing a thread *)

Definition some_ready (k : kernel) : Prop :=
  ∃ t th, threads k !! t = Some th ∧ stat_of th = RT_THREAD_READY.

Lemma highest_spec k : sched_inv k → some_ready k →
  let p := highest_ready_priority k in
  0 ≤ p < 32 ∧ tl (LReady p) k ≠ [] ∧ ∀ q, 0 ≤ q < p → tl (LReady q) k = [].
Proof.
  intros Hi (t & th & Hth & Hs) p. pose proof (si_range _ _ Hi) as Hr.
  pose proof (si_ready _ _ Hi t th Hth ltac:(done) Hs) as Hin.
  destruct (ready_prio_range _ _ _ _ Hi Hin) as [Hp0 Hp1].
  assert (Z.testbit (ready_group k) (th_current_priority th) = true) as Hb.
  { apply (si_group _ _ Hi); [done|]. intros E. rewrite E in Hin. set_solver. }
  destruct (__rt_ffs_lowest_exists (ready_group k)) as (q & Hq & E & Hq32).
  { destruct (Z.eq_dec (ready_group k) 0) as [E|]; [|lia]. by rewrite E, Z.bits_0 in Hb. }
  assert (p = q) as ->.
  { unfold p, highest_ready_priority. rewrite E, u32_small; [lia|]. destruct Hq as (_ & ? & _). lia. }
  destruct Hq as (Hq & Hq0 & Hlow). split; [lia|]. split.
  - by apply (si_group _ _ Hi).
  - intros r Hrr. specialize (Hlow r Hrr). destruct (tl (LReady r) k) eqn:Et; [done|].
    assert (Z.testbit (ready_group k) r = true); [|congruence].
    apply (si_group _ _ Hi); [lia|]. by rewrite Et.
Qed.

(** [u] is first in line: the head of the first non-empty ready list. *)
Definition next_to_run (u : Z) (k : kernel) : Prop :=
  ∃ p l, 0 ≤ p < 32 ∧ tl (LReady p) k = u :: l ∧ ∀ q, 0 ≤ q < p → tl (LReady q) k = [].
Lemma next_to_run_unique u v k : next_to_run u k → next_to_run v k → u = v.
Proof.
  intros (p & l & Hp & El & Hlow) (q & m & Hq & Em & Hlow').
  destruct (Z.lt_trichotomy p q) as [H|[->|H]].
  - rewrite Hlow' in El by lia. done.
  - rewrite El in Em. by simplify_eq.
  - rewrite Hlow in Em by lia. done.
Qed.
(** Nothing but the current thread differs. *)
Definition switch_frame (k k' : kernel) : Prop :=
  ∃ c p, k' = set_current_thread c (set_current_priority p k).

Lemma rt_schedule_run k :
  sched_inv k → (lock_nest k = 0 → some_ready k) →
  wp rt_schedule (λ _ k', sched_inv k' ∧ switch_frame k k' ∧
    (lock_nest k = 0 → ∃ u, current_thread k' = Some u ∧ next_to_run u k) ∧
    (lock_nest k ≠ 0 → k' = k)) k.
Proof.
  intros Hi Hr. unfold rt_schedule, _rt_scheduler_stack_check. wp_simpl.
  assert (switch_frame k k) as Hrefl by (exists (current_thread k), (current_priority k); by destruct k).
  destruct (Z.eqb_spec (lock_nest k) 0) as [Hn|Hn]; [|done].
  destruct (highest_spec k Hi (Hr Hn)) as (Hp & Hne & Hlow).
  set (p := highest_ready_priority k) in *. wp_simpl.
  destruct (tl (LReady p) k) as [|u l] eqn:Et; [done|].
  eapply wp_tlist_first; [done|]. wp_simpl.
  assert (next_to_run u k) as Hnext by (exists p, l; auto).
  case_bool_decide as Hc; simpl; [by eauto 6|]. wp_simpl.
  destruct (si_fits _ _ Hi (LReady p) u) as (th & Hth & _); [rewrite Et; set_solver|].
  destruct (to_stack _ (si_thread _ _ Hi _ _ Hth)) as [Hg Hsp].
  eapply wp_thread_at; [done|]. rewrite Hg. simpl.
  rewrite (proj2 (Z.leb_gt _ _)), (proj2 (Z.ltb_ge _ _)) by lia. simpl. apply wp_ret.
  split; [by apply (sched_inv_ext _ k)|]. split; [|split; [eauto|done]].
  eexists _, _. by destruct k.
Qed.

(** C5. With the scheduler unlocked, [rt_schedule] makes the head of the
    highest non-empty ready list the current thread, so no READY thread has a
    higher priority than the running one; it changes nothing else and keeps
    the scheduler invariant. *)
Theorem rt_schedule_picks_highest k :
  sched_inv k → lock_nest k = 0 → some_ready k →
  wp rt_schedule (λ _ k', sched_inv k' ∧ switch_frame k k' ∧
    ∃ u thu, current_thread k' = Some u ∧ threads k' !! u = Some thu ∧
      stat_of thu = RT_THREAD_READY ∧ head (tl (LReady (th_current_priority thu)) k') = Some u ∧
      ∀ t th, threads k' !! t = Some th → stat_of th = RT_THREAD_READY →
        th_current_priority thu ≤ th_current_priority th) k.
Proof.
  intros Hi Hn Hr. eapply wp_mono; [by apply rt_schedule_run|].
  intros [] k' (Hi' & Hf & Hu & _). split; [done|]. split; [done|].
  destruct (Hu Hn) as (u & Hc & p & l & Hp & Et & Hlow). destruct Hf as (c & q & ->).
  destruct (si_fits _ _ Hi (LReady p) u) as (thu & Hthu & Hsu & Hpu); [rewrite Et; set_solver|].
  exists u, thu. rewrite Hpu. split; [done|]. split; [done|]. split; [done|].
  split; [change (head (tl (LReady p) k) = Some u); by rewrite Et|].
  intros t th Ht Hs. pose proof (si_ready _ _ Hi t th Ht ltac:(done) Hs) as Hin.
  destruct (Z_lt_le_dec (th_current_priority th) p) as [Hlt|]; [|done].
  rewrite Hlow in Hin; [set_solver|]. split; [|done].
  apply (to_prio _ (si_thread _ _ Hi _ _ Ht)).
Qed.
