(* ===== verification/Object.v ===== *)
(** Kernel objects of os/object.c: the container of each class, static and
    dynamic objects, lookup by name. Names are the 8 bytes of [name]. *)
From S2P Require Import Prelude Kservice Mem KState Sched.

Definition rt_object_get_information (type : Z) : K (option (list optr)) :=
  gets (λ k, containers k !! type).

Definition rt_object_get_length (type : Z) : K Z :=
  information ← rt_object_get_information type;
  mret (match information with None => 0 | Some l => Z.of_nat (length l) end).

(** The pointers stored, and their number. *)
Definition rt_object_get_pointers (type maxlen : Z) : K (list optr * Z) :=
  if maxlen <=? 0 then mret ([], 0) else
  information ← rt_object_get_information type;
  mret (match information with
        | None => ([], 0)
        | Some l => let pointers := take (Z.to_nat maxlen) l in (pointers, Z.of_nat (length pointers))
        end).

Definition rt_object_is_systemobject (object : optr) : K bool :=
  o ← object_at object; mret (negb (Z.land (o_type o) RT_Object_Class_Static =? 0)).
Definition rt_object_get_type (object : optr) : K Z :=
  o ← object_at object; mret (Z.land (o_type o) (u32 (Z.lnot RT_Object_Class_Static))).

(** Whether the node [list] of the object is on a container's list. *)
Definition olinked (p : optr) (k : kernel) : bool :=
  negb (bool_decide (map_Forall (λ _ l, p ∉ l) (containers k))).
(** rt_list_insert_after(&(information->object_list), &(object->list)) *)
Definition object_attach (type : Z) (object : optr) : K unit :=
  λ k, if olinked object k then None else
       l ← containers k !! type;
       Some (tt, set_containers (<[type := object :: l]> (containers k)) k).
(** rt_list_remove(&(object->list)) *)
Definition object_unlink (object : optr) : K unit :=
  modify (λ k, set_containers (lremove object <$> containers k) k).

(** The flag of a static object is not written here; it is that of the memory. *)
Definition rt_object_init (object : optr) (type : Z) (name : list Z) : K unit :=
  information ← rt_object_get_information type;
  l ← lift information;
  rt_enter_critical;;
  RT_ASSERT (bool_decide (object ∉ l));;
  rt_exit_critical;;
  name ← lift (rt_strncpy (replicate 8 0) name 8);
  modify (λ k, set_objects
    (partial_alter (λ o, Some (Object name (Z.lor type RT_Object_Class_Static)
                                      (default 0 (o_flag <$> o)))) object (objects k)) k);;
  object_attach type object.

Definition rt_object_detach (object : optr) : K unit :=
  upd_object object (set_o_type 0);;
  object_unlink object.

(** sizeof of the structures (4-byte enum). *)
Definition object_size (type : Z) : Z :=
  if type =? RT_Object_Class_Thread then 128
  else if type =? RT_Object_Class_Semaphore then 32
  else if type =? RT_Object_Class_Mutex then 36
  else if type =? RT_Object_Class_Event then 32
  else if type =? RT_Object_Class_MailBox then 48
  else if type =? RT_Object_Class_MessageQueue then 60
  else if type =? RT_Object_Class_MemPool then 52
  else if type =? RT_Object_Class_Device then 68
  else 44.

Definition RT_DEBUG_NOT_IN_INTERRUPT : K unit :=
  n ← gets interrupt_nest; RT_ASSERT (n =? 0).
Definition RT_DEBUG_IN_THREAD_CONTEXT : K unit :=
  cur ← gets current_thread; RT_ASSERT (bool_decide (is_Some cur));;
  RT_DEBUG_NOT_IN_INTERRUPT.

(** The address of the new object, 0 for RT_NULL. *)
Definition rt_object_allocate (type : Z) (name : list Z) : K Z :=
  RT_DEBUG_NOT_IN_INTERRUPT;;
  information ← rt_object_get_information type;
  RT_ASSERT (bool_decide (is_Some information));;
  object ← RT_KERNEL_MALLOC (object_size type);
  if object =? 0 then mret 0 else
  name ← lift (rt_strncpy (replicate 8 0) name 8);
  modify (λ k, set_objects (<[Obj object := Object name type 0]> (objects k)) k);;
  object_attach type (Obj object);;
  mret object.

(** The memory is given back, so the object is gone. *)
Definition rt_object_delete (object : Z) : K unit :=
  o ← object_at (Obj object);
  RT_ASSERT (Z.land (o_type o) RT_Object_Class_Static =? 0);;
  upd_object (Obj object) (set_o_type RT_Object_Class_Null);;
  object_unlink (Obj object);;
  RT_KERNEL_FREE object;;
  modify (λ k, set_objects (delete (Obj object) (objects k)) k).

(** The loop of [rt_object_find]. *)
Fixpoint object_search (l : list optr) (name : list Z) : K (option optr) :=
  match l with
  | [] => mret None
  | p :: l =>
      o ← object_at p;
      r ← lift (rt_strncmp (o_name o) name 8);
      if r =? 0 then mret (Some p) else object_search l name
  end.
Definition rt_object_find (name : option (list Z)) (type : Z) : K (option optr) :=
  information ← rt_object_get_information type;
  match name, information with
  | Some name, Some l =>
      RT_DEBUG_NOT_IN_INTERRUPT;;
      rt_enter_critical;;
      p ← object_search l name;
      rt_exit_critical;;
      mret p
  | _, _ => mret None
  end.

(** The containers at start-up. *)
Definition rt_object_container : gmap Z (list optr) :=
  list_to_map ((λ c, (c, [])) <$>
    [RT_Object_Class_Thread; RT_Object_Class_Semaphore; RT_Object_Class_Mutex;
     RT_Object_Class_Event; RT_Object_Class_MailBox; RT_Object_Class_MessageQueue;
     RT_Object_Class_MemPool; RT_Object_Class_Device; RT_Object_Class_Timer]).

(** * The object table *)

Definition class_of (o : rt_object) : Z := Z.land (o_type o) (u32 (Z.lnot RT_Object_Class_Static)).
(** A name field: 8 bytes, as [rt_strncpy] leaves them. *)
Definition name_ok (n : list Z) : Prop := length n = 8%nat ∧ readable 8 n ∧ is_bytes n.

(** An object is in the container of its class and in no other. *)
Record obj_inv (k : kernel) : Prop := {
  oi_nodup : ∀ c l, containers k !! c = Some l → NoDup l;
  oi_class : ∀ c l p, containers k !! c = Some l → p ∈ l →
    ∃ o, objects k !! p = Some o ∧ class_of o = c;
  oi_name : ∀ c l p o, containers k !! c = Some l → p ∈ l → objects k !! p = Some o →
    name_ok (o_name o)
}.

Lemma obj_inv_ext k k' :
  objects k' = objects k → containers k' = containers k → obj_inv k → obj_inv k'.
Proof. intros E1 E2 []. constructor; rewrite ?E1, ?E2; eauto. Qed.

Lemma class_of_lor name type flag : 0 ≤ type < 128 →
  class_of (Object name (Z.lor type 128) flag) = type ∧
  Z.land (Z.lor type 128) 128 = 128.
Proof.
  intros Ht. unfold class_of. simpl. change (u32 (Z.lnot RT_Object_Class_Static)) with 4294967167.
  rewrite !Z.land_lor_distr_l. change (Z.land 128 4294967167) with 0. rewrite Z.lor_0_r.
  assert (Z.land type 4294967167 = type ∧ Z.land type 128 = 0) as [-> ->]; [|done].
  assert (type = Z.land type 127) as ->.
  { change 127 with (Z.ones 7). rewrite Z.land_ones, Z.mod_small; simpl; lia. }
  rewrite <-!Z.land_assoc. split; [done|]. change (Z.land 127 128) with 0. by rewrite Z.land_0_r.
Qed.

(** What a critical section that leaves the kernel alone amounts to: at most one
    [rt_schedule]. *)
Definition critical (k k' : kernel) : Prop :=
  ∃ c p, k' = set_current_thread c (set_current_priority p k) ∧
    (current_thread k = None → c = None) ∧
    (lock_nest k = 0 → is_Some (current_thread k) → ∃ u, c = Some u ∧ next_to_run u k).
(** The scheduler may be called. *)
Definition may_schedule (k : kernel) : Prop := current_thread k = None ∨ some_ready k.

Lemma rt_exit_critical_run k :
  sched_inv k → may_schedule k → 0 ≤ lock_nest k < 32766 →
  wp rt_exit_critical (λ _ k', sched_inv k' ∧ critical k k') (set_lock_nest (s16 (lock_nest k + 1)) k).
Proof.
  intros Hi Hr Hl. unfold rt_exit_critical. wp_simpl. simpl.
  rewrite (s16_small (lock_nest k + 1)), s16_small by lia.
  replace (lock_nest k + 1 - 1) with (lock_nest k) by lia.
  assert (∀ n m, sched_inv (set_lock_nest n (set_lock_nest m k))) as Hin
    by (intros; by apply (sched_inv_ext _ k)).
  destruct (Z.leb_spec (lock_nest k) 0) as [Hn|Hn]; wp_simpl.
  - assert (lock_nest k = 0) as E by lia. simpl. case_bool_decide as Hc.
    + destruct Hr as [Hr|Hr]; [rewrite Hr in Hc; by destruct Hc|].
      eapply wp_mono; [apply rt_schedule_run; [apply Hin|intros _; exact Hr]|].
      intros [] k' (Hi' & (c & p & ->) & Hu & _). split; [done|]. exists c, p.
      split; [destruct k; simpl in *; by subst|].
      split; [intros E2; rewrite E2 in Hc; by destruct Hc|]. intros _ _. by apply Hu.
    + split; [apply Hin|]. exists (current_thread k), (current_priority k).
      split; [destruct k; simpl in *; by subst|]. split; [done|].
      intros _ Hs. by destruct (Hc Hs).
  - split; [apply Hin|]. exists (current_thread k), (current_priority k).
    split; [by destruct k|]. split; [done|]. lia.
Qed.

Definition same_name (k : kernel) (p : optr) (name : list Z) : Prop :=
  ∃ o, objects k !! p = Some o ∧ ctake 8 (o_name o) = ctake 8 name.

Lemma object_search_run k l name :
  (∀ p, p ∈ l → ∃ o, objects k !! p = Some o ∧ name_ok (o_name o)) →
  readable 8 name → is_bytes name →
  wp (object_search l name) (λ r k', k' = k ∧
    match r with
    | Some p => ∃ l1 l2, l = l1 ++ p :: l2 ∧ same_name k p name ∧
                  Forall (λ q, ¬ same_name k q name) l1
    | None => Forall (λ q, ¬ same_name k q name) l
    end) k.
Proof.
  intros Hl Hrd Hb. induction l as [|p l IH]; cbn [object_search].
  { apply wp_ret. split; [done|]. by apply Forall_nil. }
  destruct (Hl p) as (o & Ho & (Hlen & Hro & Hbo)); [by left|].
  wp_simpl. eapply wp_object_at; [done|]. wp_simpl.
  destruct (rt_strncmp_run 8 (o_name o) name) as (r & E & Hr); [done..|].
  rewrite E. wp_simpl. destruct (Z.eqb_spec r 0) as [Hz|Hz].
  - apply wp_ret. split; [done|]. exists [], l. split; [done|]. split; [|by apply Forall_nil].
    exists o. split; [done|]. by apply Hr.
  - assert (¬ same_name k p name) as Hnp.
    { intros (o' & Ho' & Hn). simplify_eq. by apply Hz, Hr. }
    eapply wp_mono; [apply IH; intros q Hq; apply Hl; by right|].
    intros r' k' [-> Hr']. split; [done|]. destruct r' as [q|].
    + destruct Hr' as (l1 & l2 & -> & ? & ?). exists (p :: l1), l2.
      split; [done|]. split; [done|]. by constructor.
    + by constructor.
Qed.

(** [rt_object_find] returns the first object in the container of the class
    whose name agrees on the 8 significant bytes, RT_NULL when there is none. *)
Lemma rt_object_find_run k name type l :
  obj_inv k → sched_inv k → may_schedule k → 0 ≤ lock_nest k < 32766 → interrupt_nest k = 0 →
  containers k !! type = Some l → readable 8 name → is_bytes name →
  wp (rt_object_find (Some name) type) (λ r k', sched_inv k' ∧ critical k k' ∧
    match r with
    | Some p => ∃ l1 l2, l = l1 ++ p :: l2 ∧ same_name k p name ∧
                  Forall (λ q, ¬ same_name k q name) l1
    | None => Forall (λ q, ¬ same_name k q name) l
    end) k.
Proof.
  intros Ho Hi Hr Hln Hn Hc Hrd Hb.
  unfold rt_object_find, rt_object_get_information, RT_DEBUG_NOT_IN_INTERRUPT, rt_enter_critical.
  wp_simpl. rewrite Hc. wp_simpl. rewrite Hn. split; [done|]. simpl.
  set (k1 := set_lock_nest _ k).
  assert (sched_inv k1) as Hi1 by (by apply (sched_inv_ext _ k)).
  eapply wp_mono; [apply (object_search_run k1); [|done..]|].
  { intros p Hp. destruct (oi_class _ Ho _ _ _ Hc Hp) as (o & E & _).
    exists o. split; [done|]. by eapply oi_name. }
  intros r k2 [-> Hres]. wp_simpl. eapply wp_mono; [by apply rt_exit_critical_run|].
  intros [] k3 [Hi3 Hcr]. wp_simpl. split; [done|]. split; [done|]. by destruct r.
Qed.

Lemma olinked_false p k :
  olinked p k = false ↔ ∀ c l, containers k !! c = Some l → p ∉ l.
Proof. unfold olinked. by rewrite negb_false_iff, bool_decide_eq_true. Qed.

(** The object table after [rt_object_init] and [rt_object_allocate]. *)
Definition with_object (p : optr) (type : Z) (l : list optr) (o : rt_object) (k : kernel) : kernel :=
  set_containers (<[type := p :: l]> (containers k)) (set_objects (<[p := o]> (objects k)) k).
Lemma obj_inv_attach k p type l o :
  obj_inv k → containers k !! type = Some l → olinked p k = false →
  class_of o = type → name_ok (o_name o) → obj_inv (with_object p type l o k).
Proof.
  intros Ho Hc Hl Ht Hn. rewrite olinked_false in Hl.
  assert (∀ c l', <[type := p :: l]> (containers k) !! c = Some l' →
    NoDup l' ∧ ∀ q, q ∈ l' → (q = p ∧ c = type) ∨ (q ≠ p ∧ ∃ l0, containers k !! c = Some l0 ∧ q ∈ l0))
    as Hcase.
  { intros c l' Hc'. destruct (decide (c = type)) as [->|Hne].
    - rewrite lookup_insert_eq in Hc'. injection Hc' as <-. split.
      + constructor; [by eapply Hl|by eapply (oi_nodup _ Ho)].
      + intros q. rewrite elem_of_cons. destruct (decide (q = p)) as [->|]; [by left|].
        intros [?|?]; [done|]. right. eauto.
    - rewrite lookup_insert_ne in Hc' by done. split; [by eapply (oi_nodup _ Ho)|].
      intros q Hq. right. split; [|eauto]. intros ->. by eapply Hl. }
  constructor; simpl.
  - intros c l' Hc'. by destruct (Hcase _ _ Hc').
  - intros c l' q Hc' Hq. destruct (Hcase _ _ Hc') as [_ Hcq].
    destruct (Hcq q Hq) as [[-> ->]|(Hne & l0 & Hl0 & Hq0)].
    + exists o. by rewrite lookup_insert_eq.
    + rewrite lookup_insert_ne by done. by eapply (oi_class _ Ho).
  - intros c l' q o' Hc' Hq. destruct (Hcase _ _ Hc') as [_ Hcq].
    destruct (Hcq q Hq) as [[-> ->]|(Hne & l0 & Hl0 & Hq0)].
    + rewrite lookup_insert_eq. by intros [= <-].
    + rewrite lookup_insert_ne by done. by eapply (oi_name _ Ho).
Qed.

Lemma critical_inv k k' : critical k k' → obj_inv k → obj_inv k'.
Proof. intros (c & p & -> & _). by apply obj_inv_ext. Qed.
Lemma rt_object_init_run k p type name l :
  obj_inv k → sched_inv k → may_schedule k → 0 ≤ lock_nest k < 32766 →
  0 < type < 128 → containers k !! type = Some l → olinked p k = false →
  readable 8 name → is_bytes name →
  wp (rt_object_init p type name)
     (λ _ k', sched_inv k' ∧ obj_inv k' ∧ ∃ k1 o, critical k k1 ∧ k' = with_object p type l o k1 ∧
        class_of o = type ∧ Z.land (o_type o) 128 = 128 ∧ ctake 8 (o_name o) = ctake 8 name ∧
        o_flag o = default 0 (o_flag <$> objects k !! p)) k.
Proof.
  intros Ho Hi Hr Hln Htype Hc Hlink Hrd Hb.
  destruct (rt_strncpy_run 8 (replicate 8 0) name Hrd) as (d & Ed & Hdl & Hdn & Hdr & Hdb); [done|].
  simpl in Ed.
  unfold rt_object_init, rt_object_get_information, rt_enter_critical. wp_simpl.
  rewrite Hc. wp_simpl. simpl.
  split; [apply bool_decide_eq_true; by eapply olinked_false|].
  eapply wp_mono; [by apply rt_exit_critical_run|].
  intros [] k2 (Hi2 & Hcr). wp_simpl. rewrite Ed. wp_simpl.
  destruct (class_of_lor d type (default 0 (o_flag <$> objects k !! p))) as [Hcl Hst]; [lia|].
  set (o := Object d (Z.lor type 128) (default 0 (o_flag <$> objects k !! p))) in *.
  assert (objects k2 = objects k ∧ containers k2 = containers k) as [E1 E2]
    by (by destruct Hcr as (? & ? & -> & _)).
  assert (partial_alter (λ o, Some (Object d (Z.lor type RT_Object_Class_Static)
            (default 0 (o_flag <$> o)))) p (objects k2) = <[p := o]> (objects k2)) as Eo.
  { rewrite E1. apply map_eq. intros q. destruct (decide (q = p)) as [->|].
    - by rewrite lookup_partial_alter_eq, lookup_insert_eq.
    - by rewrite lookup_partial_alter_ne, lookup_insert_ne. }
  unfold wp, object_attach. rewrite Eo.
  change (olinked p _) with (olinked p k2). unfold olinked. simpl. rewrite E2.
  fold (olinked p k). rewrite Hlink, Hc. simpl. split; [by apply (sched_inv_ext _ k2)|].
  assert (name_ok (o_name o)) by (split; [done|split; [done|by apply Hdb]]).
  split.
  - apply (obj_inv_ext (with_object p type l o k2)); [done|by simpl; rewrite E2|].
    apply obj_inv_attach; try done; [by apply (critical_inv k)|by rewrite E2|].
    unfold olinked. by rewrite E2.
  - exists k2, o. split; [done|]. split; [|done]. unfold with_object. by rewrite E2.
Qed.

(** An object is found under the name it was initialised with (its first
    8 bytes), whatever other objects exist: it is the newest of its class. *)
Theorem rt_object_init_find k p type name :
  obj_inv k → sched_inv k → some_ready k → 0 ≤ lock_nest k < 32765 → interrupt_nest k = 0 →
  0 < type < 128 → is_Some (containers k !! type) → olinked p k = false →
  readable 8 name → is_bytes name →
  wp (rt_object_init p type name;; rt_object_find (Some name) type)
     (λ r k', r = Some p ∧ sched_inv k' ∧
        ∃ o, objects k' !! p = Some o ∧ class_of o = type ∧ ctake 8 (o_name o) = ctake 8 name) k.
Proof.
  intros Ho Hi Hr Hln Hn Htype [l Hc] Hlink Hrd Hb.
  wp_simpl. eapply wp_mono; [apply (rt_object_init_run _ _ _ _ l); try done; [by right|lia]|].
  intros [] k1 (Hi1 & Ho1 & k0 & o & Hcr & Ek & Hcl & _ & Hnm & _).
  pose proof Hcr as (c & pr & Ek0 & _).
  assert (same_name k1 p name) as Hsame by (exists o; subst k1; simpl; by rewrite lookup_insert_eq).
  eapply wp_mono; [apply (rt_object_find_run _ name type (p :: l)); try done; subst k1 k0|].
  - by right.
  - simpl. lia.
  - done.
  - simpl. by rewrite lookup_insert_eq.
  - intros r k2 (Hi2 & (c2 & pr2 & -> & _) & Hr2).
    assert (r = Some p) as ->.
    { destruct r as [q|].
      - destruct Hr2 as ([|x l1] & l2 & El & _ & Hf); simpl in El; [congruence|].
        injection El as <- _. apply Forall_cons in Hf as [Hf _]. done.
      - apply Forall_cons in Hr2 as [Hf _]. done. }
    split; [done|]. split; [done|]. exists o. subst k1. simpl. by rewrite lookup_insert_eq.
Qed.
