(* ===== verification/Timer.v ===== *)
(** Timers of os/timer.c (hard timers, a skip list of one level): the ordered
    list, start, stop, control. [rt_timer_check] is in Clock.v, after the
    thread operations that its callbacks reach. *)
From Stdlib Require Import Sorting.Sorted.
From S2P Require Import Prelude Kservice Mem KState Sched Object.

(** RT_TICK_MAX / 2 *)
Definition TICK_HALF : Z := RT_TICK_MAX / 2.

(** clock.c *)
Definition rt_tick_get : K Z := gets rt_tick.
Definition rt_tick_set (tick : Z) : K unit := modify (set_rt_tick tick).
(** [ms] is an rt_int32_t; RT_TICK_PER_SECOND is 1000, so nothing overflows. *)
Definition rt_tick_from_millisecond (ms : Z) : Z :=
  if ms <? 0 then u32 RT_WAITING_FOREVER
  else u32 (u32 (RT_TICK_PER_SECOND * Z.quot ms 1000)
            + Z.quot (RT_TICK_PER_SECOND * Z.rem ms 1000 + 999) 1000).

Definition timer_flag (p : optr) : K Z := o ← object_at p; mret (o_flag o).
Definition timer_flag_clear (p : optr) (bits : Z) : K unit :=
  upd_object p (λ o, set_o_flag (Z.land (o_flag o) (u8 (Z.lnot bits))) o).
Definition timer_flag_set (p : optr) (bits : Z) : K unit :=
  upd_object p (λ o, set_o_flag (Z.lor (o_flag o) bits) o).

(** rt_list_init of the rows; the node of an active timer would take the list
    with it. *)
Definition timer_node_init (p : optr) : K unit :=
  λ k, if bool_decide (p ∈ timer_list k ++ timer_pending k) then None else Some (tt, k).
Definition _rt_timer_init (timer : optr) (timeout : timeout_fn) (parameter time flag : Z) : K unit :=
  upd_object timer (set_o_flag flag);;
  timer_flag_clear timer RT_TIMER_FLAG_ACTIVATED;;
  timer_node_init timer;;
  modify (λ k, set_timers (<[timer := Timer timeout parameter time 0]> (timers k)) k).

(** rt_list_remove of the row node, from the active list or the local list of
    [rt_timer_check] *)
Definition _rt_timer_remove (timer : optr) : K unit :=
  modify (λ k, set_timer_pending (lremove timer (timer_pending k))
               (set_timer_list (lremove timer (timer_list k)) k)).

Definition rt_timer_init (timer : optr) (name : list Z) (timeout : timeout_fn)
    (parameter time flag : Z) : K unit :=
  rt_object_init timer RT_Object_Class_Timer name;;
  _rt_timer_init timer timeout parameter time flag.

Definition assert_class (p : optr) (class : Z) : K unit :=
  type ← rt_object_get_type p; RT_ASSERT (type =? class).

Definition rt_timer_detach (timer : optr) : K Z :=
  assert_class timer RT_Object_Class_Timer;;
  sys ← rt_object_is_systemobject timer; RT_ASSERT sys;;
  _rt_timer_remove timer;;
  timer_flag_clear timer RT_TIMER_FLAG_ACTIVATED;;
  rt_object_detach timer;;
  mret RT_EOK.

Definition rt_timer_create (name : list Z) (timeout : timeout_fn) (parameter time flag : Z) : K Z :=
  timer ← rt_object_allocate RT_Object_Class_Timer name;
  if timer =? 0 then mret 0 else
  _rt_timer_init (Obj timer) timeout parameter time flag;;
  mret timer.

Definition rt_timer_delete (timer : Z) : K Z :=
  assert_class (Obj timer) RT_Object_Class_Timer;;
  sys ← rt_object_is_systemobject (Obj timer); RT_ASSERT (negb sys);;
  _rt_timer_remove (Obj timer);;
  timer_flag_clear (Obj timer) RT_TIMER_FLAG_ACTIVATED;;
  rt_object_delete timer;;
  mret RT_EOK.

(** The walk of [rt_timer_start] along the list: behind every timer that is
    not later. *)
Fixpoint timer_insert (timer : optr) (timeout : Z) (l : list optr) : K (list optr) :=
  match l with
  | [] => mret [timer]
  | t :: l =>
      tm ← timer_at t;
      if u32 (tm_timeout_tick tm - timeout) =? 0 then
        l ← timer_insert timer timeout l; mret (t :: l)
      else if u32 (tm_timeout_tick tm - timeout) <? TICK_HALF then mret (timer :: t :: l)
      else l ← timer_insert timer timeout l; mret (t :: l)
  end.

Definition rt_timer_start (timer : optr) : K Z :=
  assert_class timer RT_Object_Class_Timer;;
  _rt_timer_remove timer;;
  timer_flag_clear timer RT_TIMER_FLAG_ACTIVATED;;
  tm ← timer_at timer;
  RT_ASSERT (tm_init_tick tm <? TICK_HALF);;
  now ← rt_tick_get;
  let timeout := u32 (now + tm_init_tick tm) in
  upd_timer timer (set_tm_timeout_tick timeout);;
  l ← gets timer_list;
  l ← timer_insert timer timeout l;
  modify (λ k, set_random_nr (u32 (random_nr k + 1)) k);;
  modify (set_timer_list l);;
  timer_flag_set timer RT_TIMER_FLAG_ACTIVATED;;
  mret RT_EOK.

Definition rt_timer_stop (timer : optr) : K Z :=
  assert_class timer RT_Object_Class_Timer;;
  flag ← timer_flag timer;
  if Z.land flag RT_TIMER_FLAG_ACTIVATED =? 0 then mret (- RT_ERROR) else
  _rt_timer_remove timer;;
  timer_flag_clear timer RT_TIMER_FLAG_ACTIVATED;;
  mret RT_EOK.

(** The result, and what [arg] points to afterwards. *)
Definition rt_timer_control (timer : optr) (cmd arg : Z) : K (Z * Z) :=
  assert_class timer RT_Object_Class_Timer;;
  if cmd =? RT_TIMER_CTRL_GET_TIME then
    tm ← timer_at timer; mret (RT_EOK, tm_init_tick tm)
  else if cmd =? RT_TIMER_CTRL_SET_TIME then
    upd_timer timer (set_tm_init_tick arg);; mret (RT_EOK, arg)
  else if cmd =? RT_TIMER_CTRL_SET_ONESHOT then
    timer_flag_clear timer RT_TIMER_FLAG_PERIODIC;; mret (RT_EOK, arg)
  else if cmd =? RT_TIMER_CTRL_SET_PERIODIC then
    timer_flag_set timer RT_TIMER_FLAG_PERIODIC;; mret (RT_EOK, arg)
  else if cmd =? RT_TIMER_CTRL_GET_STATE then
    flag ← timer_flag timer;
    mret (RT_EOK, if negb (Z.land flag RT_TIMER_FLAG_ACTIVATED =? 0)
                  then RT_TIMER_FLAG_ACTIVATED else RT_TIMER_FLAG_DEACTIVATED)
  else mret (RT_EOK, arg).

Definition rt_timer_list_next_timeout : K Z :=
  l ← gets timer_list;
  match l with
  | [] => mret RT_TICK_MAX
  | t :: _ => tm ← timer_at t; mret (tm_timeout_tick tm)
  end.
Definition rt_timer_next_timeout_tick : K Z := rt_timer_list_next_timeout.

Definition rt_system_timer_init : K unit := modify (set_timer_list []).

(** * The active list *)

(** Ticks left until a timeout, negative when it has passed. *)
Definition tdist (now timeout : Z) : Z := s32 (timeout - now).
Definition timer_dist (k : kernel) (p : optr) : option Z :=
  tm ← timers k !! p; Some (tdist (rt_tick k) (tm_timeout_tick tm)).

Definition timer_le (k : kernel) (p q : optr) : Prop :=
  ∀ d e, timer_dist k p = Some d → timer_dist k q = Some e → d ≤ e.

(** Every active timer is an object of its class, ACTIVATED, at most [-lo]
    ticks overdue, and the list is in the order of the timeouts. *)
Record timer_inv (lo : Z) (k : kernel) : Prop := {
  ti_nodup : NoDup (timer_list k);
  ti_object : ∀ p, p ∈ timer_list k → ∃ o, objects k !! p = Some o ∧
    class_of o = RT_Object_Class_Timer ∧ Z.land (o_flag o) RT_TIMER_FLAG_ACTIVATED ≠ 0;
  ti_dist : ∀ p, p ∈ timer_list k → ∃ d, timer_dist k p = Some d ∧ lo ≤ d < TICK_HALF;
  ti_sorted : StronglySorted (timer_le k) (timer_list k);
  ti_tick : 0 ≤ rt_tick k < 4294967296;
  ti_range : ∀ p tm, timers k !! p = Some tm → 0 ≤ tm_timeout_tick tm < 4294967296
}.

Lemma StronglySorted_weaken {A} (R R' : A → A → Prop) l :
  (∀ x y, x ∈ l → y ∈ l → R x y → R' x y) → StronglySorted R l → StronglySorted R' l.
Proof.
  intros HR. induction 1 as [|x l Hs IH Hf]; constructor.
  - apply IH. intros y z Hy Hz. apply HR; by right.
  - rewrite Forall_forall in *. intros y Hy. apply HR; [by left|by right|auto].
Qed.
Lemma timer_inv_ext lo k k' :
  timers k' = timers k → objects k' = objects k → timer_list k' = timer_list k →
  rt_tick k' = rt_tick k →
  timer_inv lo k → timer_inv lo k'.
Proof.
  intros E1 E2 E3 E5 []. assert (∀ p, timer_dist k' p = timer_dist k p) as E.
  { intros p. unfold timer_dist. by rewrite E1, E5. }
  constructor; rewrite ?E3, ?E2, ?E5, ?E1; auto.
  - intros p. rewrite E. eauto.
  - eapply StronglySorted_weaken; [|done]. intros p q _ _ H d e. rewrite !E. apply H.
Qed.

Lemma StronglySorted_lremove {A} `{EqDecision A} (R : A → A → Prop) x l :
  StronglySorted R l → StronglySorted R (lremove x l).
Proof.
  induction 1 as [|y l Hs IH Hf]; [constructor|]. destruct (decide (y = x)) as [->|Hne].
  - by rewrite lremove_cons_eq.
  - rewrite lremove_cons_ne by done. constructor; [done|].
    rewrite Forall_forall in *. intros z [Hz _]%elem_of_lremove. auto.
Qed.
Lemma StronglySorted_insert {A} (R : A → A → Prop) x l1 l2 :
  StronglySorted R (l1 ++ l2) → Forall (λ y, R y x) l1 → Forall (R x) l2 →
  StronglySorted R (l1 ++ x :: l2).
Proof.
  induction l1 as [|y l1 IH]; simpl; intros Hs H1 H2; [by constructor|].
  apply StronglySorted_inv in Hs as [Hs Hy]. apply Forall_cons in H1 as [Hyx H1].
  constructor; [by apply IH|]. apply Forall_app in Hy as [? ?].
  apply Forall_app. split; [done|]. by constructor.
Qed.

Lemma StronglySorted_app_1_r {A} (R : A → A → Prop) l1 l2 :
  StronglySorted R (l1 ++ l2) → StronglySorted R l2.
Proof. induction l1; [done|]. intros [??]%StronglySorted_inv. auto. Qed.
Lemma NoDup_Permutation_mid {A} (x : A) l1 l2 :
  NoDup (l1 ++ l2) → x ∉ l1 ++ l2 → NoDup (l1 ++ x :: l2).
Proof. intros. rewrite <-Permutation_middle. by constructor. Qed.

Lemma tdist_cmp now t n :
  -1 ≤ tdist now t < TICK_HALF → 0 ≤ tdist now n < TICK_HALF →
  (u32 (t - n) = 0 ↔ tdist now t = tdist now n) ∧
  (u32 (t - n) ≠ 0 → (u32 (t - n) < TICK_HALF ↔ tdist now n < tdist now t)).
Proof.
  change TICK_HALF with 2147483647. unfold tdist, s32, u32. intros.
  Z.div_mod_to_equations. lia.
Qed.

Lemma timer_insert_run k p timeout l :
  (∀ q, q ∈ l → ∃ d, timer_dist k q = Some d ∧ -1 ≤ d < TICK_HALF) →
  0 ≤ tdist (rt_tick k) timeout < TICK_HALF →
  ∃ l1 l2, timer_insert p timeout l k = Some (l1 ++ p :: l2, k) ∧ l = l1 ++ l2 ∧
    Forall (λ q, ∀ d, timer_dist k q = Some d → d ≤ tdist (rt_tick k) timeout) l1 ∧
    match l2 with
    | [] => True
    | q :: _ => ∀ d, timer_dist k q = Some d → tdist (rt_tick k) timeout < d
    end.
Proof.
  intros Hl Hp. induction l as [|t l IH].
  { exists [], []. split_and!; done. }
  destruct (Hl t) as (d & Hd & Hdr); [by left|].
  destruct IH as (l1 & l2 & E & -> & H1 & H2); [intros q Hq; apply Hl; by right|].
  unfold timer_dist in Hd. destruct (timers k !! t) as [tm|] eqn:Et; [|done].
  simpl in Hd. injection Hd as Hd. subst d.
  destruct (tdist_cmp (rt_tick k) (tm_timeout_tick tm) timeout Hdr Hp) as [C1 C2].
  cbn [timer_insert]. unfold timer_at, deref, mbind, M_bind. rewrite Et. simpl.
  assert (∀ d, timer_dist k t = Some d → d = tdist (rt_tick k) (tm_timeout_tick tm)) as Hdt.
  { intros d. unfold timer_dist. rewrite Et. simpl. by intros [= <-]. }
  destruct (Z.eqb_spec (u32 (tm_timeout_tick tm - timeout)) 0) as [Hz|Hz].
  - rewrite E. exists (t :: l1), l2. split; [done|]. split; [done|]. split; [|done].
    constructor; [|done]. intros d Hd%Hdt. apply C1 in Hz. lia.
  - destruct (Z.ltb_spec (u32 (tm_timeout_tick tm - timeout)) TICK_HALF) as [Hlt|Hge].
    + exists [], (t :: l1 ++ l2). split; [done|]. split; [done|]. split; [by apply Forall_nil|].
      intros d Hd%Hdt. apply C2 in Hlt; [lia|done].
    + rewrite E. exists (t :: l1), l2. split; [done|]. split; [done|]. split; [|done].
      constructor; [|done]. intros d Hd%Hdt.
      destruct (Z_lt_le_dec (tdist (rt_tick k) timeout) (tdist (rt_tick k) (tm_timeout_tick tm)));
        [|lia]. apply C2 in Hz. lia.
Qed.

Lemma land_lor_1 x : Z.land (Z.lor x RT_TIMER_FLAG_ACTIVATED) RT_TIMER_FLAG_ACTIVATED ≠ 0.
Proof.
  intros E. apply (f_equal (λ v, Z.testbit v 0)) in E.
  rewrite Z.land_spec, Z.lor_spec, Z.bits_0 in E. by rewrite orb_true_r in E.
Qed.
Lemma land_clear_1 x : Z.land (Z.land x (u8 (Z.lnot RT_TIMER_FLAG_ACTIVATED))) RT_TIMER_FLAG_ACTIVATED = 0.
Proof. rewrite <-Z.land_assoc. change (Z.land (u8 _) _) with 0. apply Z.land_0_r. Qed.

Lemma land_clear_2 x :
  Z.land (Z.land x (u8 (Z.lnot RT_TIMER_FLAG_ACTIVATED))) RT_TIMER_FLAG_PERIODIC
  = Z.land x RT_TIMER_FLAG_PERIODIC.
Proof. by rewrite <-Z.land_assoc. Qed.
Lemma land_set_2 x :
  Z.land (Z.lor (Z.land x (u8 (Z.lnot RT_TIMER_FLAG_ACTIVATED))) RT_TIMER_FLAG_ACTIVATED)
    RT_TIMER_FLAG_PERIODIC = Z.land x RT_TIMER_FLAG_PERIODIC.
Proof. rewrite Z.land_lor_distr_l, land_clear_2. apply Z.lor_0_r. Qed.
(** What starting and stopping keep of a timer's object. *)
Definition same_timer_object (o o' : rt_object) : Prop :=
  class_of o' = class_of o ∧ o_name o' = o_name o ∧
  Z.land (o_flag o') RT_TIMER_FLAG_PERIODIC = Z.land (o_flag o) RT_TIMER_FLAG_PERIODIC.

(** Taking a timer off the active list. *)
Definition drop_timer (p : optr) (k : kernel) : kernel :=
  set_timer_pending (lremove p (timer_pending k)) (set_timer_list (lremove p (timer_list k)) k).
Lemma drop_timer_inv lo k p : timer_inv lo k → timer_inv lo (drop_timer p k).
Proof.
  intros []. constructor; simpl; auto.
  - intros q [Hq _]%elem_of_lremove. auto.
  - intros q [Hq _]%elem_of_lremove. destruct (ti_dist0 q Hq) as (d & ? & ?). by exists d.
  - apply StronglySorted_lremove. by eapply StronglySorted_weaken; [|done].
Qed.
(** The object of a timer that is not active may change its flags. *)
Lemma timer_inv_object lo k p o :
  timer_inv lo k → p ∉ timer_list k → timer_inv lo (set_objects (<[p := o]> (objects k)) k).
Proof.
  intros [] Hp. constructor; simpl; auto.
  intros q Hq. rewrite lookup_insert_ne by (intros ->; done). auto.
Qed.

(** The timeout of a timer is all the list depends on. *)
Lemma timer_inv_timer lo k p tm tm' :
  timer_inv lo k → timers k !! p = Some tm → tm_timeout_tick tm' = tm_timeout_tick tm →
  timer_inv lo (set_timers (<[p := tm']> (timers k)) k).
Proof.
  intros [] Hp E. set (k' := set_timers _ k).
  assert (∀ q, timer_dist k' q = timer_dist k q) as Hd.
  { intros q. unfold timer_dist. simpl. destruct (decide (q = p)) as [->|Hne].
    - rewrite lookup_insert_eq, Hp. simpl. by rewrite E.
    - by rewrite lookup_insert_ne. }
  constructor; simpl; auto.
  - intros q Hq. change (∃ d, timer_dist k' q = Some d ∧ lo ≤ d < TICK_HALF). rewrite Hd. auto.
  - eapply StronglySorted_weaken; [|exact ti_sorted0]. intros x y _ _ H d e.
    change (timer_dist k' x = Some d → timer_dist k' y = Some e → d ≤ e). rewrite !Hd. apply H.
  - intros q tmq. destruct (decide (q = p)) as [->|Hne].
    + rewrite lookup_insert_eq. intros [= <-]. rewrite E. eauto.
    + rewrite lookup_insert_ne by done. eauto.
Qed.

Lemma assert_class_run k p o class (Q : unit → kernel → Prop) :
  objects k !! p = Some o → class_of o = class → Q tt k → wp (assert_class p class) Q k.
Proof.
  intros Ho Hc HQ. unfold assert_class, rt_object_get_type. wp_simpl.
  eapply wp_object_at; [done|]. wp_simpl. split; [|done]. apply Z.eqb_eq. exact Hc.
Qed.

(** Everything behind the place of a new timer is later. *)
Lemma timer_tail_later k n l1 l2 :
  (∀ q, q ∈ l2 → is_Some (timer_dist k q)) → StronglySorted (timer_le k) (l1 ++ l2) →
  match l2 with [] => True | q :: _ => ∀ d, timer_dist k q = Some d → n < d end →
  Forall (λ q, ∀ d, timer_dist k q = Some d → n < d) l2.
Proof.
  intros Hdef Hs Hh. destruct l2 as [|q l2]; [by apply Forall_nil|].
  constructor; [done|]. apply StronglySorted_app_1_r in Hs.
  apply StronglySorted_inv in Hs as [_ Hf]. rewrite Forall_forall in *.
  intros r Hr d Hd. destruct (Hdef q) as [e He]; [by left|].
  specialize (Hh e He). specialize (Hf r Hr e d He Hd). lia.
Qed.
(** Linking a timer between those that are not later and those that are. *)
Lemma timer_inv_insert lo k k' p o l1 l2 n :
  timer_inv lo k → lremove p (timer_list k) = l1 ++ l2 →
  (∀ q, q ≠ p → timer_dist k' q = timer_dist k q) → timer_dist k' p = Some n →
  (∀ q, q ≠ p → objects k' !! q = objects k !! q) → objects k' !! p = Some o →
  class_of o = RT_Object_Class_Timer → Z.land (o_flag o) RT_TIMER_FLAG_ACTIVATED ≠ 0 →
  lo ≤ n < TICK_HALF → timer_list k' = l1 ++ p :: l2 →
  Forall (λ q, ∀ d, timer_dist k q = Some d → d ≤ n) l1 →
  Forall (λ q, ∀ d, timer_dist k q = Some d → n < d) l2 →
  rt_tick k' = rt_tick k →
  (∀ q tm, timers k' !! q = Some tm → 0 ≤ tm_timeout_tick tm < 4294967296) →
  timer_inv lo k'.
Proof.
  intros Hi El Hd Hp Ho Hop Hc Hf Hn El' F1 F2 Ht Hr.
  assert (∀ q, q ∈ l1 ++ l2 → q ∈ timer_list k ∧ q ≠ p) as Hin.
  { intros q. rewrite <-El. by intros ?%elem_of_lremove. }
  assert (∀ q, q ∈ l1 ++ p :: l2 → q = p ∨ q ∈ l1 ++ l2) as Hin' by set_solver.
  rewrite Forall_forall in F1, F2.
  constructor; rewrite ?El', ?Ht; try done.
  - apply NoDup_Permutation_mid; [by rewrite <-El; apply lremove_NoDup, (ti_nodup _ _ Hi)|].
    intros Hx. by apply Hin in Hx as [_ ?].
  - intros q [->|Hq]%Hin'; [by exists o|]. apply Hin in Hq as [? ?].
    rewrite Ho by done. by apply (ti_object _ _ Hi).
  - intros q [->|Hq]%Hin'; [by exists n|]. apply Hin in Hq as [? ?].
    rewrite Hd by done. by apply (ti_dist _ _ Hi).
  - apply StronglySorted_insert.
    + rewrite <-El. eapply StronglySorted_weaken; [|apply StronglySorted_lremove, (ti_sorted _ _ Hi)].
      intros x y [_ Hx]%elem_of_lremove [_ Hy]%elem_of_lremove H d e. rewrite !Hd by done. apply H.
    + rewrite Forall_forall. intros q Hq d e. rewrite Hp, Hd by (apply Hin; set_solver).
      intros Hdq [= <-]. by eapply F1.
    + rewrite Forall_forall. intros q Hq d e. rewrite Hp, Hd by (apply Hin; set_solver).
      intros [= <-] Hdq. specialize (F2 q Hq e Hdq). lia.
  - apply (ti_tick _ _ Hi).
Qed.

Definition active (p : optr) (k : kernel) : Prop := p ∈ timer_list k.

Lemma rt_timer_start_run lo k p o tm :
  -1 ≤ lo ≤ 0 → timer_inv lo k → objects k !! p = Some o → class_of o = RT_Object_Class_Timer →
  timers k !! p = Some tm → 0 ≤ tm_init_tick tm < TICK_HALF →
  wp (rt_timer_start p) (λ r k', r = RT_EOK ∧ timer_inv lo k' ∧ timer_frame k k' ∧
    timers k' = <[p := set_tm_timeout_tick (u32 (rt_tick k + tm_init_tick tm)) tm]> (timers k) ∧
    (∃ o', objects k' = <[p := o']> (objects k) ∧ same_timer_object o o') ∧
    ∃ l1 l2, lremove p (timer_list k) = l1 ++ l2 ∧ timer_list k' = l1 ++ p :: l2 ∧
      Forall (λ q, ∀ d, timer_dist k q = Some d → d ≤ tm_init_tick tm) l1 ∧
      Forall (λ q, ∀ d, timer_dist k q = Some d → tm_init_tick tm < d) l2) k.
Proof.
  intros Hlo Hi Ho Hcl Ht Hit. unfold rt_timer_start, _rt_timer_remove. wp_simpl.
  eapply assert_class_run; [done..|]. wp_simpl. fold (drop_timer p k).
  unfold timer_flag_clear, timer_flag_set. eapply wp_upd_object; [done|]. wp_simpl.
  eapply wp_timer_at; [done|]. wp_simpl.
  split; [apply Z.ltb_lt; lia|]. unfold rt_tick_get. wp_simpl.
  eapply wp_upd_timer; [done|]. wp_simpl. simpl.
  set (o1 := set_o_flag _ o). set (to := u32 _). set (tm1 := set_tm_timeout_tick to tm).
  assert (timer_inv lo (drop_timer p k)) as Hi1 by by apply drop_timer_inv.
  assert (p ∉ lremove p (timer_list k)) as Hp by (rewrite elem_of_lremove; naive_solver).
  set (k1 := set_timers _ _).
  assert (∀ q, q ≠ p → timer_dist k1 q = timer_dist k q) as Hd.
  { intros q Hq. unfold timer_dist, k1. simpl. by rewrite lookup_insert_ne. }
  assert (tdist (rt_tick k) to = tm_init_tick tm) as Hto.
  { pose proof (ti_tick _ _ Hi). unfold tdist, to, u32, s32. change TICK_HALF with 2147483647 in Hit.
    Z.div_mod_to_equations. lia. }
  assert (timer_dist k1 p = Some (tm_init_tick tm)) as Hdp.
  { unfold timer_dist, k1. simpl. rewrite lookup_insert_eq. simpl. by rewrite Hto. }
  assert (∀ q, q ∈ lremove p (timer_list k) → q ≠ p ∧ ∃ d, timer_dist k q = Some d ∧ lo ≤ d < TICK_HALF)
    as Hq.
  { intros q [Hin Hne]%elem_of_lremove. split; [done|]. by apply (ti_dist _ _ Hi). }
  destruct (timer_insert_run k1 p to (lremove p (timer_list k))) as (l1 & l2 & E & El & H1 & H2).
  { intros q Hin. destruct (Hq q Hin) as (Hne & d & Hdq & ?). exists d.
    rewrite Hd by done. split; [done|lia]. }
  { unfold k1. simpl. by rewrite Hto. }
  rewrite (wp_run _ _ _ _ _ E). wp_simpl.
  change (rt_tick k1) with (rt_tick k) in *. rewrite Hto in *.
  set (k2 := set_timer_list _ _).
  assert (objects k2 !! p = Some o1) as Ho1 by (simpl; by rewrite lookup_insert_eq).
  eapply wp_upd_object; [exact Ho1|]. wp_simpl.
  set (o2 := set_o_flag _ o1). set (k3 := set_objects _ k2).
  assert (∀ q, timer_dist k3 q = timer_dist k1 q) as Hd3 by done.
  assert (Forall (λ q, ∀ d, timer_dist k q = Some d → d ≤ tm_init_tick tm) l1) as F1.
  { rewrite Forall_forall in *. intros q Hin d Hdd. apply (H1 q Hin). rewrite Hd; [done|].
    apply Hq. rewrite El. set_solver. }
  assert (StronglySorted (timer_le k) (l1 ++ l2)) as Hs.
  { rewrite <-El. apply StronglySorted_lremove, (ti_sorted _ _ Hi). }
  assert (Forall (λ q, ∀ d, timer_dist k q = Some d → tm_init_tick tm < d) l2) as F2.
  { apply (timer_tail_later k _ l1); [|done|].
    - intros q Hin. destruct (Hq q) as (_ & d & ? & _); [rewrite El; set_solver|eauto].
    - destruct l2 as [|q l2]; [done|]. intros d Hdd. apply H2. rewrite Hd; [done|].
      apply Hq. rewrite El. set_solver. }
  split; [done|]. split; [|split; [|split; [done|split]]].
  - apply (timer_inv_insert lo k k3 p o2 l1 l2 (tm_init_tick tm)); try done.
    + intros q Hne. simpl. by rewrite !lookup_insert_ne by done.
    + simpl. by rewrite lookup_insert_eq.
    + apply land_lor_1.
    + lia.
    + intros q tmq. change (timers k3) with (<[p:=tm1]> (timers k)).
      destruct (decide (q = p)) as [->|Hne].
      * rewrite lookup_insert_eq. intros [= <-]. apply u32_range.
      * rewrite lookup_insert_ne by done. apply (ti_range _ _ Hi).
  - by repeat split.
  - exists o2. split; [simpl; by rewrite insert_insert_eq|].
    split_and!; [done..|]. apply land_set_2.
  - by exists l1, l2.
Qed.

(** Stopping: the timer is inactive afterwards in both branches. *)
Lemma rt_timer_stop_run lo k p o :
  timer_inv lo k → objects k !! p = Some o → class_of o = RT_Object_Class_Timer →
  wp (rt_timer_stop p) (λ r k',
    r = (if Z.land (o_flag o) RT_TIMER_FLAG_ACTIVATED =? 0 then - RT_ERROR else RT_EOK) ∧
    timer_inv lo k' ∧ timer_frame k k' ∧ timers k' = timers k ∧
    timer_list k' = lremove p (timer_list k) ∧
    (∃ o', objects k' = <[p := o']> (objects k) ∧ same_timer_object o o' ∧
       Z.land (o_flag o') RT_TIMER_FLAG_ACTIVATED = 0 ∧
       (∀ q, q ∈ timer_pending k' → q ∈ timer_pending k))) k.
Proof.
  intros Hi Ho Hcl. unfold rt_timer_stop, timer_flag, _rt_timer_remove, timer_flag_clear. wp_simpl.
  eapply assert_class_run; [done..|]. wp_simpl. eapply wp_object_at; [done|]. wp_simpl.
  destruct (Z.eqb_spec (Z.land (o_flag o) RT_TIMER_FLAG_ACTIVATED) 0) as [Hz|Hz]; wp_simpl.
  - assert (p ∉ timer_list k) as Hp.
    { intros Hin. destruct (ti_object _ _ Hi _ Hin) as (o' & ? & _ & ?). by simplify_eq. }
    split; [done|]. split; [done|]. split; [done|]. split; [done|].
    split; [by rewrite lremove_notin|]. exists o. rewrite insert_id by done. by repeat split.
  - fold (drop_timer p k). eapply wp_upd_object; [done|]. wp_simpl. simpl.
    split; [done|]. split; [|split; [|split; [done|split; [done|]]]].
    + apply (timer_inv_object lo (drop_timer p k)); [by apply drop_timer_inv|].
      simpl. rewrite elem_of_lremove. naive_solver.
    + by repeat split.
    + eexists. split; [done|]. split; [|split; [apply land_clear_1|by intros q [? _]%elem_of_lremove]].
      split_and!; [done..|]. apply land_clear_2.
Qed.

(** Starting a timer: it becomes active with the tick [now + init_tick]
    (mod 2^32), placed behind the timers that are not later and before those
    that are, so the list stays in the order of the timeouts and timers that
    are due together keep the order they were started in. *)
Theorem rt_timer_start_orders k p o tm :
  timer_inv 0 k → objects k !! p = Some o → class_of o = RT_Object_Class_Timer →
  timers k !! p = Some tm → 0 ≤ tm_init_tick tm < TICK_HALF →
  wp (rt_timer_start p) (λ r k', r = RT_EOK ∧ timer_inv 0 k' ∧
    timer_dist k' p = Some (tm_init_tick tm) ∧
    ∃ l1 l2, lremove p (timer_list k) = l1 ++ l2 ∧ timer_list k' = l1 ++ p :: l2 ∧
      Forall (λ q, ∀ d, timer_dist k q = Some d → d ≤ tm_init_tick tm) l1 ∧
      Forall (λ q, ∀ d, timer_dist k q = Some d → tm_init_tick tm < d) l2) k.
Proof.
  intros Hi Ho Hcl Ht Hr. eapply wp_mono; [by apply (rt_timer_start_run 0)|].
  intros r k' (-> & Hi' & Hf & Ets & _ & Hl). split; [done|]. split; [done|]. split; [|done].
  destruct Hf as [Hf _]. unfold timer_dist. rewrite (kf_tick _ _ Hf), Ets, lookup_insert_eq.
  simpl. f_equal. pose proof (ti_tick _ _ Hi). change TICK_HALF with 2147483647 in Hr.
  unfold tdist, s32, u32. Z.div_mod_to_equations. lia.
Qed.

(** The next timeout announced is that of a timer that is active and due
    no later than any other, RT_TICK_MAX when no timer is active. *)
Theorem rt_timer_next_timeout_tick_minimum k :
  timer_inv 0 k →
  wp rt_timer_next_timeout_tick (λ r k', k' = k ∧
    match timer_list k with
    | [] => r = RT_TICK_MAX
    | _ => (∃ p tm, p ∈ timer_list k ∧ timers k !! p = Some tm ∧ tm_timeout_tick tm = r) ∧
           ∀ q d, q ∈ timer_list k → timer_dist k q = Some d → 0 ≤ tdist (rt_tick k) r ≤ d
    end) k.
Proof.
  intros Hi. unfold rt_timer_next_timeout_tick, rt_timer_list_next_timeout. wp_simpl.
  pose proof (ti_sorted _ _ Hi) as Hs. pose proof (ti_dist _ _ Hi) as Hd.
  destruct (timer_list k) as [|p l]; [done|]. wp_simpl.
  destruct (Hd p) as (d & Hdp & Hd0); [by left|]. unfold timer_dist in Hdp.
  destruct (timers k !! p) as [tm|] eqn:Et; [|done]. simpl in Hdp. injection Hdp as Hdp.
  eapply wp_timer_at; [done|]. apply wp_ret. split; [done|].
  split; [exists p, tm; split; [by left|done]|].
  intros q e Hq He. assert (timer_dist k p = Some d) as Hp by (unfold timer_dist; by rewrite Et, <-Hdp).
  rewrite Hdp. split; [lia|]. apply elem_of_cons in Hq as [->|Hq]; [naive_solver lia|].
  apply StronglySorted_inv in Hs as [_ Hf]. rewrite Forall_forall in Hf. by apply (Hf q Hq d e).
Qed.
