(* ===== verification/Thread.v ===== *)
(** Threads of os/thread.c and the stack set-up of
    libcpu/arm/cortex-m4/cpuport.c, with the invariant that ties threads,
    their objects and their timers together. Hooks are never set in this
    program. A call that gives up the CPU is split at [rt_schedule]: it returns
    [Wait f], and the code behind [rt_schedule] is the [_resume] function, run
    when the thread is the current one again. *)
From S2P Require Import Prelude Kservice Mem KState Sched Object Timer.

(** The result of a call that may give up the CPU. *)
Inductive call (F A : Type) := Ret (a : A) | Wait (f : F).
Arguments Ret {F A} a.
Arguments Wait {F A} f.

(** * cpuport.c *)
Definition stack_frame_words (tentry parameter texit : Z) : list Z :=
  [0] ++ replicate 8 3735928559 ++ [parameter; 0; 0; 0; 0; texit; tentry; 16777216].
Definition stack_frame_size : Z := 68.
Definition word_byte (w i : Z) : Z := Z.land (Z.shiftr w (8 * i)) 255.
(** The stack pointer, and the byte the frame leaves at an address, if any. *)
Definition rt_hw_stack_init (tentry parameter stack_addr texit : Z) : Z * (Z → option Z) :=
  let stk := u32 (stack_addr + 4) in
  let stk := RT_ALIGN_DOWN stk 8 in
  let stk := u32 (stk - stack_frame_size) in
  (stk, λ a, let i := a - stk in
             if (0 <=? i) && (i <? stack_frame_size)
             then (λ w, word_byte w (i mod 4)) <$>
                    stack_frame_words tentry parameter texit !! Z.to_nat (i / 4)
             else None).

Section thread.
Context `{CB : Callbacks}.

Definition current : K Z := cur ← gets current_thread; lift cur.

Definition _thread_cleanup_execute (thread : Z) : K unit :=
  th ← thread_at thread;
  when (negb (th_cleanup th =? 0)) (user_cleanup (th_cleanup th) thread).

Definition rt_thread_exit : K unit :=
  thread ← current;
  _thread_cleanup_execute thread;;
  rt_schedule_remove_thread thread;;
  upd_thread thread (set_th_stat RT_THREAD_CLOSE);;
  rt_timer_detach (ThTimer thread);;
  sys ← rt_object_is_systemobject (Obj thread);
  (if sys : bool then rt_object_detach (Obj thread)
   else tlist_insert_after LDefunct thread);;
  rt_schedule.

(** [event_set] and [event_info] keep what is in memory. The stack is
    remembered by its first byte. *)
Definition _rt_thread_init (thread : Z) (name : list Z)
    (entry parameter stack_start stack_size priority tick : Z) : K Z :=
  tlist_init thread;;
  let (sp, frame) := rt_hw_stack_init entry parameter (u32 (stack_start + stack_size - 4))
                       addr_rt_thread_exit in
  RT_ASSERT (priority <? RT_THREAD_PRIORITY_MAX);;
  modify (λ k,
    let old := threads k !! thread in
    set_threads (<[thread := {|
      th_entry := entry; th_parameter := parameter;
      th_stack_addr := stack_start; th_stack_size := stack_size; th_sp := sp;
      th_guard := default (if 0 <? stack_size then 35 else 0) (frame stack_start);
      th_error := RT_EOK; th_stat := RT_THREAD_INIT;
      th_current_priority := priority; th_init_priority := priority; th_number_mask := 0;
      th_event_set := default 0 (th_event_set <$> old);
      th_event_info := default 0 (th_event_info <$> old);
      th_init_tick := tick; th_remaining_tick := tick;
      th_cleanup := 0; th_user_data := 0 |}]> (threads k)) k);;
  rt_timer_init (ThTimer thread) name FnThreadTimeout thread 0 RT_TIMER_FLAG_ONE_SHOT;;
  mret RT_EOK.

Definition rt_thread_init (thread : Z) (name : list Z)
    (entry parameter stack_start stack_size priority tick : Z) : K Z :=
  RT_ASSERT (negb (thread =? 0));;
  RT_ASSERT (negb (stack_start =? 0));;
  rt_object_init (Obj thread) RT_Object_Class_Thread name;;
  _rt_thread_init thread name entry parameter stack_start stack_size priority tick.

Definition rt_thread_self : K (option Z) := gets current_thread.

Definition rt_thread_resume (thread : Z) : K Z :=
  assert_class (Obj thread) RT_Object_Class_Thread;;
  th ← thread_at thread;
  if negb (stat_of th =? RT_THREAD_SUSPEND) then mret (- RT_ERROR) else
  tlist_remove thread;;
  rt_timer_stop (ThTimer thread);;
  rt_schedule_insert_thread thread;;
  mret RT_EOK.

Definition rt_thread_startup (thread : Z) : K Z :=
  th ← thread_at thread;
  RT_ASSERT (stat_of th =? RT_THREAD_INIT);;
  assert_class (Obj thread) RT_Object_Class_Thread;;
  upd_thread thread (λ th, set_th_current_priority (th_init_priority th) th);;
  upd_thread thread (λ th, set_th_number_mask (u32 (Z.shiftl 1 (th_current_priority th))) th);;
  upd_thread thread (set_th_stat RT_THREAD_SUSPEND);;
  rt_thread_resume thread;;
  self ← rt_thread_self;
  when (bool_decide (is_Some self)) rt_schedule;;
  mret RT_EOK.

Definition rt_thread_detach (thread : Z) : K Z :=
  assert_class (Obj thread) RT_Object_Class_Thread;;
  sys ← rt_object_is_systemobject (Obj thread); RT_ASSERT sys;;
  th ← thread_at thread;
  if stat_of th =? RT_THREAD_CLOSE then mret RT_EOK else
  when (negb (stat_of th =? RT_THREAD_INIT)) (rt_schedule_remove_thread thread);;
  _thread_cleanup_execute thread;;
  rt_timer_detach (ThTimer thread);;
  upd_thread thread (set_th_stat RT_THREAD_CLOSE);;
  sys ← rt_object_is_systemobject (Obj thread);
  (if sys : bool then rt_object_detach (Obj thread) else tlist_insert_after LDefunct thread);;
  mret RT_EOK.

(** 0 for RT_NULL *)
Definition rt_thread_create (name : list Z)
    (entry parameter stack_size priority tick : Z) : K Z :=
  thread ← rt_object_allocate RT_Object_Class_Thread name;
  if thread =? 0 then mret 0 else
  stack_start ← RT_KERNEL_MALLOC stack_size;
  if stack_start =? 0 then rt_object_delete thread;; mret 0 else
  _rt_thread_init thread name entry parameter stack_start stack_size priority tick;;
  mret thread.

Definition rt_thread_delete (thread : Z) : K Z :=
  assert_class (Obj thread) RT_Object_Class_Thread;;
  sys ← rt_object_is_systemobject (Obj thread); RT_ASSERT (negb sys);;
  th ← thread_at thread;
  if stat_of th =? RT_THREAD_CLOSE then mret RT_EOK else
  when (negb (stat_of th =? RT_THREAD_INIT)) (rt_schedule_remove_thread thread);;
  _thread_cleanup_execute thread;;
  rt_timer_detach (ThTimer thread);;
  upd_thread thread (set_th_stat RT_THREAD_CLOSE);;
  tlist_insert_after LDefunct thread;;
  mret RT_EOK.

Definition rt_thread_yield : K Z :=
  thread ← current;
  th ← thread_at thread;
  shared ← gets (tlist_shared thread);
  if (stat_of th =? RT_THREAD_READY) && shared then
    tlist_remove thread;;
    tlist_insert_before (LReady (th_current_priority th)) thread;;
    rt_schedule;;
    mret RT_EOK
  else mret RT_EOK.

Definition rt_thread_suspend (thread : Z) : K Z :=
  assert_class (Obj thread) RT_Object_Class_Thread;;
  th ← thread_at thread;
  if negb (stat_of th =? RT_THREAD_READY) then mret (- RT_ERROR) else
  rt_schedule_remove_thread thread;;
  upd_thread thread (with_stat RT_THREAD_SUSPEND);;
  rt_timer_stop (ThTimer thread);;
  mret RT_EOK.

(** Arms the timer of a suspended thread. *)
Definition thread_timer_start (thread tick : Z) : K unit :=
  rt_timer_control (ThTimer thread) RT_TIMER_CTRL_SET_TIME tick;;
  rt_timer_start (ThTimer thread);;
  mret tt.

(** Waits with the sleeping thread as frame. *)
Definition rt_thread_sleep (tick : Z) : K (call Z Z) :=
  thread ← current;
  assert_class (Obj thread) RT_Object_Class_Thread;;
  rt_thread_suspend thread;;
  thread_timer_start thread tick;;
  rt_schedule;;
  mret (Wait thread).
Definition clear_timeout_error (thread : Z) : K unit :=
  th ← thread_at thread;
  when (th_error th =? - RT_ETIMEOUT) (upd_thread thread (set_th_error RT_EOK)).
Definition rt_thread_sleep_resume (thread : Z) : K Z :=
  clear_timeout_error thread;; mret RT_EOK.
Definition rt_thread_delay (tick : Z) : K (call Z Z) := rt_thread_sleep tick.
Definition rt_thread_mdelay (ms : Z) : K (call Z Z) :=
  rt_thread_sleep (rt_tick_from_millisecond ms).

(** Returns the code and the new [*tick]. *)
Definition rt_thread_delay_until (tick inc_tick : Z) : K (call Z (Z * Z)) :=
  thread ← current;
  assert_class (Obj thread) RT_Object_Class_Thread;;
  now ← rt_tick_get;
  if u32 (now - tick) <? inc_tick then
    rt_thread_suspend thread;;
    thread_timer_start thread (u32 (tick + inc_tick - now));;
    rt_schedule;;
    mret (Wait thread)
  else mret (Ret (RT_EOK, now)).
Definition rt_thread_delay_until_resume (thread : Z) : K (Z * Z) :=
  clear_timeout_error thread;;
  now ← rt_tick_get;
  mret (RT_EOK, now).

(** thread->current_priority = arg; thread->number_mask = 1 << ... *)
Definition set_priority (arg : Z) (th : rt_thread) : rt_thread :=
  set_th_number_mask (u32 (Z.shiftl 1 arg)) (set_th_current_priority arg th).

Definition rt_thread_control (thread cmd arg : Z) : K Z :=
  assert_class (Obj thread) RT_Object_Class_Thread;;
  if cmd =? RT_THREAD_CTRL_CHANGE_PRIORITY then
    th ← thread_at thread;
    (if stat_of th =? RT_THREAD_READY then
       rt_schedule_remove_thread thread;;
       upd_thread thread (set_priority (u8 arg));;
       rt_schedule_insert_thread thread
     else upd_thread thread (set_priority (u8 arg)));;
    mret RT_EOK
  else if cmd =? RT_THREAD_CTRL_STARTUP then rt_thread_startup thread
  else if cmd =? RT_THREAD_CTRL_CLOSE then
    sys ← rt_object_is_systemobject (Obj thread);
    if sys : bool then rt_thread_detach thread else rt_thread_delete thread
  else mret RT_EOK.

Definition rt_thread_timeout (parameter : Z) : K unit :=
  let thread := parameter in
  RT_ASSERT (negb (thread =? 0));;
  th ← thread_at thread;
  RT_ASSERT (stat_of th =? RT_THREAD_SUSPEND);;
  assert_class (Obj thread) RT_Object_Class_Thread;;
  upd_thread thread (set_th_error (- RT_ETIMEOUT));;
  tlist_remove thread;;
  rt_schedule_insert_thread thread;;
  rt_schedule.

Definition rt_thread_find (name : option (list Z)) : K (option optr) :=
  rt_object_find name RT_Object_Class_Thread.

End thread.

(** * The invariant of threads, their objects and their timers *)

(** What [rt_thread_init] sets up around a thread. *)
Record thread_objs (t : Z) (k : kernel) : Prop := {
  ts_object : ∃ o, objects k !! Obj t = Some o ∧ class_of o = RT_Object_Class_Thread;
  ts_timer_object : ∃ o, objects k !! ThTimer t = Some o ∧ class_of o = RT_Object_Class_Timer ∧
    Z.land (o_flag o) RT_TIMER_FLAG_PERIODIC = 0;
  ts_timer : ∃ tm, timers k !! ThTimer t = Some tm ∧
    tm_timeout_func tm = FnThreadTimeout ∧ tm_parameter tm = t;
  ts_null : t ≠ 0
}.
(** A thread whose timer runs is SUSPENDed: it waits or sleeps. *)
Record kinv (lo : Z) (k : kernel) : Prop := {
  ki_sched : sched_inv k;
  ki_timer : timer_inv lo k;
  ki_obj : obj_inv k;
  ki_thread : ∀ t th, threads k !! t = Some th → stat_of th ≠ RT_THREAD_CLOSE → thread_objs t k;
  ki_active : ∀ t, ThTimer t ∈ timer_list k →
    ∃ th, threads k !! t = Some th ∧ stat_of th = RT_THREAD_SUSPEND
}.

(** Objects and timers as thread moves leave them. *)
Definition same_objects (k k' : kernel) : Prop :=
  (∀ p o, objects k !! p = Some o → ∃ o', objects k' !! p = Some o' ∧ same_timer_object o o') ∧
  (∀ p tm, timers k !! p = Some tm → ∃ tm', timers k' !! p = Some tm' ∧
     tm_timeout_func tm' = tm_timeout_func tm ∧ tm_parameter tm' = tm_parameter tm) ∧
  (∀ a, objects k' !! Obj a = objects k !! Obj a).
#[global] Instance same_objects_preorder : PreOrder same_objects.
Proof.
  split.
  - intros k. split; [intros p o ?; exists o; by repeat split|].
    split; [intros p tm ?; by exists tm|done].
  - intros k1 k2 k3 (O1 & T1 & C1) (O2 & T2 & C2). split; [|split].
    + intros p o (o2 & H2 & ? & ? & ?)%O1. destruct (O2 _ _ H2) as (o3 & ? & ? & ? & ?).
      exists o3. split_and!; [done|]. split_and!; congruence.
    + intros p tm (t2 & H2 & ? & ?)%T1. destruct (T2 _ _ H2) as (t3 & ? & ? & ?).
      exists t3. split_and!; congruence.
    + intros a. by rewrite C2.
Qed.
Lemma same_objects_insert k k' t o o' :
  timers k' = timers k → objects k !! ThTimer t = Some o →
  objects k' = <[ThTimer t := o']> (objects k) → same_timer_object o o' → same_objects k k'.
Proof.
  intros Et Ho Eo Hs. split; [|split; [intros q tm; rewrite Et; eauto|]].
  - intros q oq Hq. rewrite Eo. destruct (decide (q = ThTimer t)) as [->|Hne].
    + simplify_eq. exists o'. by rewrite lookup_insert_eq.
    + exists oq. rewrite lookup_insert_ne by done. by repeat split.
  - intros a. by rewrite Eo, lookup_insert_ne.
Qed.
Lemma same_objects_eq k k' : objects k' = objects k → timers k' = timers k → same_objects k k'.
Proof.
  intros E1 E2. split; [rewrite E1; intros p o ?; exists o; by repeat split|].
  rewrite E1, E2. split; [eauto|done].
Qed.

(** Thread moves keep the invariant when they keep those of the scheduler and
    of the timers. *)
Lemma kinv_moves lo lo' k k' :
  kinv lo k → containers k' = containers k → same_objects k k' → sched_inv k' → timer_inv lo' k' →
  (∀ t th', threads k' !! t = Some th' →
     ∃ th, threads k !! t = Some th ∧ (stat_of th = RT_THREAD_CLOSE → stat_of th' = RT_THREAD_CLOSE)) →
  (∀ t, ThTimer t ∈ timer_list k' →
     ∃ th, threads k' !! t = Some th ∧ stat_of th = RT_THREAD_SUSPEND) →
  kinv lo' k'.
Proof.
  intros Hk Ec (Ho & Ht & _) Hs Hti Hth Ha. constructor; try done.
  - destruct (ki_obj _ _ Hk) as [H1 H2 H3]. constructor; rewrite Ec; [done|..].
    + intros c l p Hc Hp. destruct (H2 _ _ _ Hc Hp) as (o & Hpo & <-).
      destruct (Ho _ _ Hpo) as (o' & ? & ? & _). eauto.
    + intros c l p o Hc Hp Hpo. destruct (H2 _ _ _ Hc Hp) as (o1 & Ho1 & _).
      pose proof (H3 _ _ _ _ Hc Hp Ho1) as Hn. destruct (Ho _ _ Ho1) as (o' & ? & _ & En & _).
      simplify_eq. by rewrite En.
  - intros t th' Hth' Hst. destruct (Hth _ _ Hth') as (th & Hthk & Himp).
    destruct (ki_thread _ _ Hk _ _ Hthk) as [(o & H1 & C1) (ot & H2 & C2 & P2) (tm & H3 & F1 & F2) Hn];
      [naive_solver|].
    destruct (Ho _ _ H1) as (o' & ? & E1 & _). destruct (Ho _ _ H2) as (ot' & ? & E2 & _ & E3).
    destruct (Ht _ _ H3) as (tm' & ? & E4 & E5). constructor; [eexists; split; [done|congruence]| | |done].
    + eexists. split_and!; [done|congruence|congruence].
    + eexists. split_and!; [done|congruence|congruence].
Qed.

(** Only [t] moved, from a state that is not CLOSE. *)
Lemma kinv_move lo k k' t th th' :
  kinv lo k → threads k !! t = Some th → stat_of th ≠ RT_THREAD_CLOSE →
  threads k' = <[t := th']> (threads k) →
  containers k' = containers k → same_objects k k' → sched_inv k' → timer_inv lo k' →
  (∀ u, u ≠ t → ThTimer u ∈ timer_list k' → ThTimer u ∈ timer_list k) →
  (ThTimer t ∈ timer_list k' → stat_of th' = RT_THREAD_SUSPEND) →
  kinv lo k'.
Proof.
  intros Hk Hth Hst Eth Ec Ho Hs Hti Hl Ht. apply (kinv_moves lo lo k k'); try done; rewrite Eth.
  - intros u thu. destruct (decide (u = t)) as [->|Hne].
    + rewrite lookup_insert_eq. intros [= <-]. exists th. split; [done|]. naive_solver.
    + rewrite lookup_insert_ne by done. eauto.
  - intros u Hu. destruct (decide (u = t)) as [->|Hne].
    + exists th'. rewrite lookup_insert_eq. auto.
    + rewrite lookup_insert_ne by done. apply (ki_active _ _ Hk). auto.
Qed.

(** Everything but the thread lists stayed as it was. *)
Record same_but_lists (k k' : kernel) : Prop := {
  sb_tick : rt_tick k' = rt_tick k;
  sb_containers : containers k' = containers k;
  sb_objects : objects k' = objects k;
  sb_threads : threads k' = threads k;
  sb_timers : timers k' = timers k;
  sb_list : timer_list k' = timer_list k;
  sb_pending : timer_pending k' = timer_pending k
}.
Lemma kinv_lists lo k k' : kinv lo k → same_but_lists k k' → sched_inv k' → kinv lo k'.
Proof.
  intros [] [] Hi'. constructor; try done.
  - by apply (timer_inv_ext lo k).
  - by apply (obj_inv_ext k).
  - rewrite sb_threads0. intros t th Hth Hs. destruct (ki_thread0 t th Hth Hs).
    constructor; rewrite ?sb_objects0, ?sb_timers0; done.
  - by rewrite sb_list0, sb_threads0.
Qed.

(** An IPC field changed. *)
Lemma kinv_same lo k k' :
  kinv lo k → same_but_lists k k' → tlists k' = tlists k → ready_group k' = ready_group k →
  kinv lo k'.
Proof.
  intros Hk Hs E1 E2. apply (kinv_lists lo k); [done|done|].
  apply (sched_inv_ext _ k); try done; [apply Hs|apply Hk].
Qed.
Lemma kinv_pending lo l k : kinv lo k → kinv lo (set_timer_pending l k).
Proof.
  intros []. constructor; try done.
  - by apply (sched_inv_ext _ k).
  - by apply (timer_inv_ext lo k).
  - by apply (obj_inv_ext k).
  - intros t th Hth Hs. destruct (ki_thread0 t th Hth Hs). by constructor.
Qed.

Lemma kinv_thread lo k t th th' :
  kinv lo k → threads k !! t = Some th → stat_of th ≠ RT_THREAD_CLOSE → thread_ok th' →
  stat_of th' = stat_of th →
  (stat_of th = RT_THREAD_READY → th_current_priority th' = th_current_priority th) →
  kinv lo (set_threads (<[t := th']> (threads k)) k).
Proof.
  intros Hk Hth Hc Hok Es Ep. apply (kinv_move lo k _ t th th'); try done;
    [by apply same_objects_eq| |by apply (timer_inv_ext lo k), Hk|].
  - eapply sched_set_thread; [apply Hk|done..].
  - intros Hin. rewrite Es. destruct (ki_active _ _ Hk _ Hin) as (thx & ? & ?). by simplify_eq.
Qed.

Lemma set_stat_ok th s : thread_ok th → 0 ≤ s < 256 →
  (Z.land s RT_THREAD_STAT_MASK ≠ RT_THREAD_INIT → th_number_mask th = 2 ^ th_current_priority th) →
  thread_ok (set_th_stat s th).
Proof. intros [] Hs Hm. by constructor. Qed.

Section threads.
Context `{CB : Callbacks}.

(** [k'] after the thread [t] went to [th'], with the lists [tls]. *)
Record moved (lo : Z) (t : Z) (th' : rt_thread) (tls : lhead → list Z) (k k' : kernel) : Prop := {
  mv_inv : kinv lo k';
  mv_frame : kframe k k';
  mv_threads : threads k' = <[t := th']> (threads k);
  mv_tl : ∀ h, tl h k' = tls h;
  mv_objects : same_objects k k'
}.

Lemma rt_thread_suspend_run lo k t th :
  kinv lo k → threads k !! t = Some th → stat_of th = RT_THREAD_READY →
  wp (rt_thread_suspend t) (λ r k', r = RT_EOK ∧
    moved lo t (with_stat RT_THREAD_SUSPEND th) (λ h, lremove t (tl h k)) k k' ∧
    timer_list k' = lremove (ThTimer t) (timer_list k) ∧ timers k' = timers k) k.
Proof.
  intros Hk Hth Hst. destruct (ki_thread _ _ Hk _ _ Hth) as [(o & Ho & Hc) (ot & Hot & Hct & _) _ _];
    [by rewrite Hst|].
  pose proof (si_thread _ _ (ki_sched _ _ Hk) _ _ Hth) as Hok.
  unfold rt_thread_suspend. wp_simpl. eapply assert_class_run; [done..|]. wp_simpl.
  eapply wp_thread_at; [done|]. wp_simpl. rewrite Hst. simpl. wp_simpl.
  eapply wp_mono; [apply (sched_remove_run k t th); [apply Hk|done|by rewrite Hst]|].
  intros [] k1 (Hi1 & Hd1 & Et1 & Htl1 & Hf1). wp_simpl.
  destruct Hf1 as (Hkf & Eo1 & Ets1 & El1 & Ep1 & _).
  eapply wp_upd_thread; [by rewrite Et1|]. wp_simpl.
  set (th' := with_stat _ th). set (k2 := set_threads _ k1).
  assert (stat_of th' = RT_THREAD_SUSPEND) as Hst' by by apply stat_of_with_stat.
  assert (sched_inv k2) as Hi2.
  { apply sched_set_detached; [done..| |by rewrite Hst'].
    apply thread_ok_with_stat; [done|by rewrite Hst|done]. }
  assert (timer_inv lo k2) as Hti2.
  { apply (timer_inv_ext lo k); try done. apply (kf_tick _ _ Hkf). apply Hk. }
  eapply wp_mono; [apply (rt_timer_stop_run lo k2 _ ot); [done| |done]|].
  { simpl. by rewrite Eo1. }
  intros r k3 (_ & Hti3 & Hf3 & Ets3 & El3 & o' & Eo3 & Hso & _). apply wp_ret. split; [done|].
  destruct Hf3 as (Hkf3 & Eth3 & Etl3 & Eg3).
  assert (threads k3 = <[t := th']> (threads k)) as Eth by (by rewrite Eth3; simpl; rewrite Et1).
  assert (same_objects k k3) as Hos.
  { apply (same_objects_insert k k3 t ot o'); [by rewrite Ets3|done| |done].
    rewrite Eo3. simpl. by rewrite Eo1. }
  assert (kframe k k3) as Hkfr.
  { transitivity k2; [|done]. transitivity k1; [done|]. by constructor. }
  assert (timer_list k3 = lremove (ThTimer t) (timer_list k)) as El by (rewrite El3; simpl; by rewrite El1).
  split; [|split; [done|by rewrite Ets3]]. constructor; try done.
  - apply (kinv_move lo k k3 t th th'); try done; [by rewrite Hst|apply Hkfr| |..].
    + by apply (sched_inv_ext _ k2).
    + intros u _. rewrite El, elem_of_lremove. naive_solver.
  - intros h. unfold tl. rewrite Etl3. apply Htl1.
Qed.

(** Where the lists are after [t] was made READY. *)
Definition tl_ready (t : Z) (th : rt_thread) (k : kernel) (h : lhead) : list Z :=
  if decide (h = LReady (th_current_priority th)) then tl h k ++ [t] else lremove t (tl h k).

(** rt_schedule_insert_thread of a SUSPENDed thread that was unlinked in [k1]. *)
Lemma insert_suspended_run k k1 t th th1 :
  sched_inv k → threads k !! t = Some th → stat_of th = RT_THREAD_SUSPEND →
  sched_inv k1 → detached t k1 → threads k1 !! t = Some th1 → stat_of th1 = RT_THREAD_SUSPEND →
  th_current_priority th1 = th_current_priority th →
  (∀ h, tl h k1 = lremove t (tl h k)) →
  wp (rt_schedule_insert_thread t) (λ _ k',
    sched_inv k' ∧ threads k' = <[t := with_stat RT_THREAD_READY th1]> (threads k1) ∧
    (∀ h, tl h k' = tl_ready t th k h) ∧ sched_frame k1 k') k1.
Proof.
  intros Hi Hth Hst Hi1 Hd1 Hth1 Hst1 Ep Htl1.
  eapply wp_mono; [apply (sched_insert_run k1 t th1); [by apply sched_but_weaken|done|done|by rewrite Hst1]|].
  intros [] k' (Hi' & Eth & Htl & Hf). split; [done|]. split; [done|]. split; [|done].
  intros h. rewrite Htl, Htl1, Ep. unfold tl_ready. case_decide; [|done].
  rewrite lremove_notin; [done|]. subst h. intros Hin.
  destruct (si_fits _ _ Hi _ _ Hin) as (th' & ? & [? _]). simplify_eq. by rewrite H0 in Hst.
Qed.

Lemma rt_thread_resume_run lo k t th :
  kinv lo k → threads k !! t = Some th → stat_of th = RT_THREAD_SUSPEND →
  wp (rt_thread_resume t) (λ r k', r = RT_EOK ∧
    moved lo t (with_stat RT_THREAD_READY th) (tl_ready t th k) k k' ∧
    timer_list k' = lremove (ThTimer t) (timer_list k) ∧ timers k' = timers k ∧
    (∀ q, q ∈ timer_pending k' → q ∈ timer_pending k)) k.
Proof.
  intros Hk Hth Hst. destruct (ki_thread _ _ Hk _ _ Hth) as [(o & Ho & Hc) (ot & Hot & Hct & _) _ _];
    [by rewrite Hst|].
  unfold rt_thread_resume, tlist_remove. wp_simpl. eapply assert_class_run; [done..|]. wp_simpl.
  eapply wp_thread_at; [done|]. wp_simpl. rewrite Hst. simpl. wp_simpl.
  destruct (sched_tlist_remove k t th (ki_sched _ _ Hk) Hth) as (Hi1 & Hd1 & Htl1); [by rewrite Hst|].
  set (k1 := set_tlists _ k) in *.
  eapply wp_mono; [apply (rt_timer_stop_run lo k1 _ ot); [|done|done]|].
  { by apply (timer_inv_ext lo k), Hk. }
  intros r k2 (_ & Hti2 & Hf2 & Ets2 & El2 & o' & Eo2 & Hso & _ & Hpend). wp_simpl.
  destruct Hf2 as (Hkf2 & Eth2 & Etl2 & Eg2).
  assert (∀ h, tl h k2 = lremove t (tl h k)) as Htl2 by (intros h; unfold tl; rewrite Etl2; apply Htl1).
  eapply wp_mono; [apply (insert_suspended_run k k2 t th th); try done; try apply Hk|].
  { by apply (sched_inv_ext _ k1). } { intros h. rewrite Htl2, <-Htl1. apply Hd1. }
  { by rewrite Eth2. }
  intros [] k3 (Hi3 & Eth3 & Htl3 & Hf3). apply wp_ret. split; [done|].
  destruct Hf3 as (Hkf3 & Eo3 & Ets3 & El3 & Ep3 & _).
  assert (threads k3 = <[t := with_stat RT_THREAD_READY th]> (threads k)) as Eth
    by (by rewrite Eth3, Eth2).
  assert (kframe k k3) as Hkfr.
  { transitivity k2; [|done]. transitivity k1; [|done]. by constructor. }
  assert (timer_list k3 = lremove (ThTimer t) (timer_list k)) as El by (by rewrite El3, El2).
  assert (same_objects k k3) as Hos.
  { apply (same_objects_insert k k3 t ot o'); [by rewrite Ets3|done|by rewrite Eo3|done]. }
  split; [|split; [done|split; [by rewrite Ets3|intros q; rewrite Ep3; apply Hpend]]]. constructor; try done.
  apply (kinv_move lo k k3 t th (with_stat RT_THREAD_READY th)); try done; [by rewrite Hst|apply Hkfr|..].
  - apply (timer_inv_ext lo k2); try done. apply (kf_tick _ _ Hkf3).
  - intros u _. rewrite El, elem_of_lremove. naive_solver.
  - rewrite El, elem_of_lremove. naive_solver.
Qed.

(** The wrong state: nothing happens. *)
Lemma rt_thread_suspend_err lo k t th :
  kinv lo k → threads k !! t = Some th → stat_of th ≠ RT_THREAD_CLOSE →
  stat_of th ≠ RT_THREAD_READY → rt_thread_suspend t k = Some (- RT_ERROR, k).
Proof.
  intros Hk Hth Hc Hst. destruct (ki_thread _ _ Hk _ _ Hth Hc) as [(o & Ho & Hco) _ _ _].
  assert (wp (rt_thread_suspend t) (λ r k', r = - RT_ERROR ∧ k' = k) k) as H.
  { unfold rt_thread_suspend. wp_simpl. eapply assert_class_run; [done..|]. wp_simpl.
    eapply wp_thread_at; [done|]. wp_simpl. by rewrite (proj2 (Z.eqb_neq _ _) Hst). }
  apply wp_inv in H as (? & ? & -> & -> & ->). done.
Qed.
Lemma rt_thread_resume_err lo k t th :
  kinv lo k → threads k !! t = Some th → stat_of th ≠ RT_THREAD_CLOSE →
  stat_of th ≠ RT_THREAD_SUSPEND → rt_thread_resume t k = Some (- RT_ERROR, k).
Proof.
  intros Hk Hth Hc Hst. destruct (ki_thread _ _ Hk _ _ Hth Hc) as [(o & Ho & Hco) _ _ _].
  assert (wp (rt_thread_resume t) (λ r k', r = - RT_ERROR ∧ k' = k) k) as H.
  { unfold rt_thread_resume. wp_simpl. eapply assert_class_run; [done..|]. wp_simpl.
    eapply wp_thread_at; [done|]. wp_simpl. by rewrite (proj2 (Z.eqb_neq _ _) Hst). }
  apply wp_inv in H as (? & ? & -> & -> & ->). done.
Qed.

(** ** With the scheduler *)

(** [k'] is [k] after [rt_schedule]. *)
Definition scheduled (k k' : kernel) : Prop :=
  switch_frame k k' ∧
  (lock_nest k = 0 → ∃ u, current_thread k' = Some u ∧ next_to_run u k) ∧
  (lock_nest k ≠ 0 → k' = k).
Lemma switch_iframe k k' : switch_frame k k' → iframe k k'.
Proof. intros (c & p & ->). by constructor. Qed.
Lemma kinv_switch lo k k' : switch_frame k k' → kinv lo k → kinv lo k'.
Proof.
  intros (c & p & ->) []. constructor; try done.
  - by apply (sched_inv_ext _ k).
  - by apply (timer_inv_ext lo k).
  - by apply (obj_inv_ext k).
  - intros t th Hth Hs. destruct (ki_thread0 t th Hth Hs). by constructor.
Qed.
Lemma schedule_run lo k : kinv lo k → some_ready k →
  wp rt_schedule (λ _ k', kinv lo k' ∧ scheduled k k') k.
Proof.
  intros Hk Hr. eapply wp_mono; [apply rt_schedule_run; [apply Hk|done]|].
  intros [] k' (_ & Hf & H1 & H2). split; [by eapply kinv_switch|done].
Qed.
(** Unless the scheduler is locked, the thread that runs is first in line. *)
Definition runs_first (k : kernel) : Prop :=
  lock_nest k = 0 → ∃ u, current_thread k = Some u ∧ next_to_run u k.
Lemma scheduled_runs_first k k' : scheduled k k' → runs_first k'.
Proof.
  intros ((c & q & ->) & H1 & H2) Hn. destruct (H1 Hn) as (u & Hu & Hnx). by exists u.
Qed.
(** The thread that runs is known, and not CLOSEd. *)
Definition cur_ok (k : kernel) : Prop :=
  ∃ c th, current_thread k = Some c ∧ threads k !! c = Some th ∧ stat_of th ≠ RT_THREAD_CLOSE.
Lemma scheduled_cur_ok lo k k' : kinv lo k → cur_ok k → scheduled k k' → cur_ok k'.
Proof.
  intros Hk Hc ((c & q & ->) & H1 & H2). destruct (Z.eq_dec (lock_nest k) 0) as [E|E].
  - destruct (H1 E) as (u & Hu & p & l & _ & El & _).
    destruct (si_fits _ _ (ki_sched _ _ Hk) (LReady p) u) as (th & Hth & Hs & _); [rewrite El; by left|].
    exists u, th. by rewrite Hs.
  - by rewrite (H2 E).
Qed.
Lemma moved_cur_ok lo t th tls k k' :
  moved lo t th tls k k' → stat_of th ≠ RT_THREAD_CLOSE → cur_ok k → cur_ok k'.
Proof.
  intros [] Hs (c & thc & Hc & Hthc & ?). unfold cur_ok. rewrite mv_threads0, (kf_current _ _ mv_frame0).
  destruct (decide (c = t)) as [->|Hne].
  - exists t, th. by rewrite lookup_insert_eq.
  - exists c, thc. by rewrite lookup_insert_ne.
Qed.

Definition other_ready (t : Z) (k : kernel) : Prop :=
  ∃ u th, u ≠ t ∧ threads k !! u = Some th ∧ stat_of th = RT_THREAD_READY.
Lemma other_ready_some t k k' th :
  other_ready t k → threads k' = <[t := th]> (threads k) → some_ready k'.
Proof.
  intros (u & thu & Hne & Hu & Hs) E. exists u, thu. by rewrite E, lookup_insert_ne.
Qed.
Lemma moved_ready lo t th tls k k' :
  moved lo t th tls k k' → stat_of th = RT_THREAD_READY → some_ready k'.
Proof. intros [] Hs. exists t, th. rewrite mv_threads0. by rewrite lookup_insert_eq. Qed.

(** The timeout of a thread that waits: -RT_ETIMEOUT, out of its wait list,
    READY. *)
Lemma rt_thread_timeout_run lo k t th :
  kinv lo k → threads k !! t = Some th → stat_of th = RT_THREAD_SUSPEND →
  ThTimer t ∉ timer_list k →
  wp (rt_thread_timeout t) (λ _ k', ∃ k1,
    moved lo t (with_stat RT_THREAD_READY (set_th_error (- RT_ETIMEOUT) th)) (tl_ready t th k) k k1 ∧
    timer_list k1 = timer_list k ∧ timers k1 = timers k ∧ objects k1 = objects k ∧
    timer_pending k1 = timer_pending k ∧
    kinv lo k' ∧ scheduled k1 k') k.
Proof.
  intros Hk Hth Hst Hnt. destruct (ki_thread _ _ Hk _ _ Hth) as [(o & Ho & Hc) _ _ Hnz];
    [by rewrite Hst|].
  unfold rt_thread_timeout, tlist_remove. wp_simpl.
  split; [by apply negb_true_iff, Z.eqb_neq|]. eapply wp_thread_at; [done|]. wp_simpl.
  split; [by apply Z.eqb_eq|]. eapply assert_class_run; [done..|]. wp_simpl.
  eapply wp_upd_thread; [done|]. wp_simpl.
  set (th1 := set_th_error _ th). set (k1 := set_threads _ k).
  assert (sched_inv k1) as Hi1.
  { apply (sched_set_thread _ _ _ th); [apply Hk|done| |done|done].
    pose proof (si_thread _ _ (ki_sched _ _ Hk) _ _ Hth) as []. by constructor. }
  assert (threads k1 !! t = Some th1) as Hth1 by (simpl; by rewrite lookup_insert_eq).
  destruct (sched_tlist_remove k1 t th1 Hi1 Hth1) as (Hi2 & Hd2 & Htl2); [change (stat_of th ≠ RT_THREAD_READY); by rewrite Hst|].
  set (k2 := set_tlists _ k1) in *.
  eapply wp_mono; [apply (insert_suspended_run k k2 t th th1); try done; apply Hk|].
  intros [] k3 (Hi3 & Eth3 & Htl3 & Hf3).
  destruct Hf3 as (Hkf3 & Eo3 & Ets3 & El3 & Ep3 & _).
  set (th2 := with_stat _ th1) in *.
  assert (stat_of th2 = RT_THREAD_READY) as Hst2 by (by apply stat_of_with_stat).
  assert (threads k3 = <[t := th2]> (threads k)) as Eth by (rewrite Eth3; simpl; by rewrite insert_insert_eq).
  assert (kframe k k3) as Hkfr by (transitivity k2; [by constructor|done]).
  assert (moved lo t th2 (tl_ready t th k) k k3) as Hm.
  { constructor; try done; [|by apply same_objects_eq].
    apply (kinv_move lo k k3 t th th2); try done; [by rewrite Hst|apply Hkfr|by apply same_objects_eq|..].
    - apply (timer_inv_ext lo k); try done; [apply (kf_tick _ _ Hkfr)|apply Hk].
    - intros u _. by rewrite El3.
    - by rewrite El3. }
  eapply wp_mono; [apply (schedule_run lo); [by apply Hm|by eapply moved_ready]|].
  intros [] k4 [Hk4 Hs4]. exists k3. split_and!; done.
Qed.

(** Taking turns: a READY thread that is not alone on its list goes to the
    end of it, and the scheduler runs; otherwise nothing happens. *)
Definition yields (t : Z) (th : rt_thread) (k k' : kernel) : Prop :=
  tl (LReady (th_current_priority th)) k' = lremove t (tl (LReady (th_current_priority th)) k) ++ [t] ∧
  (∀ h, h ≠ LReady (th_current_priority th) → tl h k' = tl h k) ∧
  (lock_nest k = 0 → ∃ u, current_thread k' = Some u ∧ next_to_run u k').
Lemma rt_thread_yield_run lo k t th :
  kinv lo k → current_thread k = Some t → threads k !! t = Some th →
  wp rt_thread_yield (λ r k', r = RT_EOK ∧ kinv lo k' ∧ same_but_lists k k' ∧ iframe k k' ∧
    (cur_ok k → cur_ok k') ∧
    if bool_decide (stat_of th = RT_THREAD_READY ∧
                    (2 ≤ length (tl (LReady (th_current_priority th)) k))%nat)
    then yields t th k k' else k' = k) k.
Proof.
  intros Hk Hcur Hth. set (p := th_current_priority th) in *.
  pose proof (ki_sched _ _ Hk) as Hi.
  assert (same_but_lists k k) as Hrefl by by constructor.
  unfold rt_thread_yield, current, tlist_remove. wp_simpl. rewrite Hcur. wp_simpl.
  eapply wp_thread_at; [done|]. wp_simpl.
  destruct (Z.eqb_spec (stat_of th) RT_THREAD_READY) as [Hst|Hst]; simpl.
  2:{ rewrite bool_decide_eq_false_2 by naive_solver. by apply wp_ret. }
  assert (t ∈ tl (LReady p) k) as Hin by (by apply (si_ready _ _ Hi)).
  assert (∀ h, h ≠ LReady p → t ∉ tl h k) as Hno by (intros h Hh Hin'; by apply Hh, (si_one _ _ Hi _ _ t)).
  rewrite (tlist_shared_spec t (LReady p)) by (try done; intros h' Hh; by apply (si_one _ _ Hi _ _ t)).
  case_bool_decide as Hlen; wp_simpl.
  2:{ rewrite bool_decide_eq_false_2 by naive_solver. by apply wp_ret. }
  rewrite bool_decide_eq_true_2 by done.
  set (k1 := set_tlists _ k).
  assert (∀ h, tl h k1 = lremove t (tl h k)) as Htl1 by (intros; apply tl_remove).
  apply wp_tlist_insert_before.
  { intros h. rewrite Htl1, elem_of_lremove. naive_solver. }
  wp_simpl. fold p. rewrite Htl1. set (k2 := put_tl _ _ k1).
  assert (∀ h, tl h k2 = if decide (h = LReady p) then lremove t (tl (LReady p) k) ++ [t] else tl h k) as Htl2.
  { intros h. unfold k2. rewrite tl_put. case_decide; [done|]. rewrite Htl1.
    apply lremove_notin, Hno. done. }
  assert (sched_inv k2) as Hi2.
  { apply (sched_permute None k); try done. intros h. rewrite Htl2. case_decide; [|done]. subst h.
    apply lremove_cons_perm; [apply (si_nodup _ _ Hi)|done]. }
  assert (kinv lo k2) as Hk2 by (apply (kinv_lists lo k); [done|by constructor|done]).
  eapply wp_mono; [apply (schedule_run lo); [done|by exists t, th]|].
  intros [] k3 [Hk3 (Hf & Hs & Hs')]. apply wp_ret. destruct Hf as (c & q & ->).
  split; [done|]. split; [done|]. split; [by constructor|]. split; [by constructor|].
  split; [intros Hcu; eapply (scheduled_cur_ok lo k2); [done|done|split; [by eexists _, _|done]]|].
  change (∀ h, tl h (set_current_thread c (set_current_priority q k2)) =
    if decide (h = LReady p) then lremove t (tl (LReady p) k) ++ [t] else tl h k) in Htl2.
  split; [by rewrite Htl2, decide_True|]. split; [intros h Hh; by rewrite Htl2, decide_False|].
  intros Hn. destruct (Hs Hn) as (u & Hu & Hnx). by exists u.
Qed.

(** ** Sleeping *)

(** The timer of [t] armed for [tick] ticks. *)
Definition armed (t tick : Z) (k k' : kernel) : Prop :=
  ∃ tm, timers k !! ThTimer t = Some tm ∧
    timers k' = <[ThTimer t := set_tm_timeout_tick (u32 (rt_tick k + tick)) (set_tm_init_tick tick tm)]>
                  (timers k) ∧
    ThTimer t ∈ timer_list k' ∧
    ∀ q, q ≠ ThTimer t → q ∈ timer_list k' ↔ q ∈ timer_list k.

Lemma thread_timer_start_run lo k t th tick :
  -1 ≤ lo ≤ 0 → kinv lo k → threads k !! t = Some th → stat_of th = RT_THREAD_SUSPEND →
  0 ≤ tick < TICK_HALF →
  wp (thread_timer_start t tick) (λ _ k',
    kinv lo k' ∧ kframe k k' ∧ threads k' = threads k ∧ tlists k' = tlists k ∧
    ready_group k' = ready_group k ∧ same_objects k k' ∧ armed t tick k k') k.
Proof.
  intros Hlo Hk Hth Hst Htick.
  destruct (ki_thread _ _ Hk _ _ Hth) as [_ (ot & Hot & Hct & _) (tm & Htm & _) _]; [by rewrite Hst|].
  unfold thread_timer_start, rt_timer_control. wp_simpl. eapply assert_class_run; [done..|]. wp_simpl.
  cbn [Z.eqb RT_TIMER_CTRL_SET_TIME RT_TIMER_CTRL_GET_TIME]. simpl. wp_simpl.
  eapply wp_upd_timer; [done|]. wp_simpl.
  set (tm1 := set_tm_init_tick tick tm). set (k1 := set_timers _ k).
  assert (timer_inv lo k1) as Hti1 by (eapply timer_inv_timer; [apply Hk|done|done]).
  eapply wp_mono; [apply (rt_timer_start_run lo k1 _ ot tm1); try done|].
  { simpl. by rewrite lookup_insert_eq. }
  intros r k2 (_ & Hti2 & [Hkf [Eth [Etl Eg]]] & Ets & (o' & Eo & Hso) & l1 & l2 & El & El' & _).
  apply wp_ret. change (rt_tick k1) with (rt_tick k) in Ets. simpl in Ets.
  rewrite insert_insert_eq in Ets.
  assert (kframe k k2) as Hkf2 by (transitivity k1; [by constructor|done]).
  assert (same_objects k k2) as Hos.
  { split; [|split].
    - intros q oq Hq. rewrite Eo. simpl. destruct (decide (q = ThTimer t)) as [->|Hne].
      + simplify_eq. exists o'. by rewrite lookup_insert_eq.
      + exists oq. rewrite lookup_insert_ne by done. by repeat split.
    - intros q tq Hq. rewrite Ets. destruct (decide (q = ThTimer t)) as [->|Hne].
      + rewrite lookup_insert_eq. simplify_eq. eauto.
      + rewrite lookup_insert_ne by done. eauto.
    - intros a. by rewrite Eo, lookup_insert_ne. }
  assert (∀ q, q ≠ ThTimer t → q ∈ timer_list k2 ↔ q ∈ timer_list k) as Hl.
  { intros q Hq. rewrite El'. transitivity (q ∈ lremove (ThTimer t) (timer_list k1)).
    - rewrite El. set_solver.
    - rewrite elem_of_lremove. naive_solver. }
  split_and!; try done.
  - apply (kinv_moves lo lo k k2); try done; [apply Hkf2| | |].
    + apply (sched_inv_ext _ k); try done. apply Hk.
    + rewrite Eth. eauto.
    + intros u Hu. rewrite Eth. destruct (decide (u = t)) as [->|Hne]; [by exists th|].
      apply (ki_active _ _ Hk). apply Hl; [congruence|done].
  - exists tm. split_and!; [done..| |done]. rewrite El'. set_solver.
Qed.

(** [rt_thread_sleep] up to the point where the CPU goes to another thread. *)
Lemma rt_thread_sleep_run lo k t th tick :
  -1 ≤ lo ≤ 0 → kinv lo k → current_thread k = Some t → threads k !! t = Some th →
  stat_of th = RT_THREAD_READY → other_ready t k → 0 ≤ tick < TICK_HALF →
  wp (rt_thread_sleep tick) (λ r k', r = Wait t ∧ kinv lo k' ∧
    threads k' = <[t := with_stat RT_THREAD_SUSPEND th]> (threads k) ∧
    (∀ h, tl h k' = lremove t (tl h k)) ∧ armed t tick k k' ∧ iframe k k' ∧
    same_objects k k' ∧ cur_ok k' ∧ ∃ k1, scheduled k1 k' ∧ lock_nest k1 = lock_nest k ∧ detached t k1) k.
Proof.
  intros Hlo Hk Hcur Hth Hst Hother Htick.
  destruct (ki_thread _ _ Hk _ _ Hth) as [(o & Ho & Hc) _ (tm & Htm & _) _]; [by rewrite Hst|].
  unfold rt_thread_sleep, current. wp_simpl. rewrite Hcur. wp_simpl.
  eapply assert_class_run; [done..|]. wp_simpl.
  eapply wp_mono; [by apply (rt_thread_suspend_run lo)|]. intros r1 k1 (-> & Hm1 & El1 & Ets1). wp_simpl.
  destruct Hm1 as [Hk1 Hf1 Eth1 Htl1 Ho1]. set (th1 := with_stat _ th) in *.
  eapply wp_mono; [apply (thread_timer_start_run lo k1 t th1); try done|].
  { by rewrite Eth1, lookup_insert_eq. } { by apply stat_of_with_stat. }
  intros [] k2 (Hk2 & Hf2 & Eth2 & Etl2 & Eg2 & Ho2 & tm2 & Htm2 & Ets2 & Hin2 & Hl2). wp_simpl.
  eapply wp_mono; [apply (schedule_run lo); [done|]|].
  { eapply other_ready_some; [done|]. by rewrite Eth2. }
  intros [] k3 [Hk3 Hs]. apply wp_ret. pose proof Hs as [(c & q & E3) _].
  assert (kframe k k2) as Hf by by transitivity k1.
  assert (∀ h, tl h k3 = lremove t (tl h k)) as Htl3.
  { intros h. rewrite E3. unfold tl. simpl. rewrite Etl2. apply Htl1. }
  split; [done|]. split; [done|]. split; [by rewrite E3; simpl; rewrite Eth2|].
  split; [done|]. split; [|split; [|split; [|split]]].
  - exists tm. rewrite E3. simpl. rewrite Ets1 in Htm2. simplify_eq. rewrite Ets2, Ets1.
    rewrite (kf_tick _ _ Hf1). split_and!; try done. intros q' Hq'. rewrite Hl2, El1 by done.
    rewrite elem_of_lremove. naive_solver.
  - transitivity k2; [by apply kframe_iframe|]. apply switch_iframe. by eexists _, _.
  - transitivity k1; [done|]. transitivity k2; [done|]. by apply same_objects_eq; rewrite E3.
  - apply (scheduled_cur_ok lo k2); [done| |done]. exists t, th1.
    rewrite (kf_current _ _ Hf), Eth2, Eth1, lookup_insert_eq. split; [done|]. split; [done|].
    unfold th1. by rewrite stat_of_with_stat.
  - exists k2. split; [done|]. split; [apply Hf|]. intros h Hin.
    unfold tl in Hin. rewrite Etl2 in Hin. change (t ∈ tl h k1) in Hin. rewrite Htl1 in Hin.
    apply elem_of_lremove in Hin. naive_solver.
Qed.

(** ** Start-up and priorities *)

Lemma mask_pow2 p : 0 ≤ p < RT_THREAD_PRIORITY_MAX → u32 (Z.shiftl 1 p) = 2 ^ p.
Proof.
  intros [H0 H1]. rewrite Z.shiftl_1_l. apply u32_small.
  split; [apply Z.pow_nonneg; lia|]. change 4294967296 with (2 ^ 32). by apply Z.pow_lt_mono_r.
Qed.
Lemma stat_of_set s th : stat_of (set_th_stat s th) = Z.land s RT_THREAD_STAT_MASK.
Proof. done. Qed.
Lemma detached_by_stat k t th :
  sched_inv k → threads k !! t = Some th →
  stat_of th = RT_THREAD_INIT → detached t k.
Proof.
  intros Hi Hth Hst h Hin. destruct (si_fits _ _ Hi _ _ Hin) as (th' & ? & Hf). simplify_eq.
  destruct h; simpl in Hf; rewrite Hst in Hf; naive_solver.
Qed.

(** The thread as [rt_thread_startup] leaves it to [rt_thread_resume]. *)
Definition started (th : rt_thread) : rt_thread :=
  set_th_stat RT_THREAD_SUSPEND
    (set_th_number_mask (u32 (Z.shiftl 1 (th_init_priority th)))
      (set_th_current_priority (th_init_priority th) th)).

Lemma rt_thread_startup_run lo k t th :
  kinv lo k → threads k !! t = Some th → stat_of th = RT_THREAD_INIT →
  (∀ h, t ∉ tl h k) → ThTimer t ∉ timer_list k →
  wp (rt_thread_startup t) (λ r k', r = RT_EOK ∧ ∃ k1,
    moved lo t (with_stat RT_THREAD_READY (started th)) (tl_ready t (started th) k) k k1 ∧
    timer_list k1 = lremove (ThTimer t) (timer_list k) ∧
    (∀ q, q ∈ timer_pending k1 → q ∈ timer_pending k) ∧ kinv lo k' ∧ (current_thread k = None → k' = k1) ∧
    (current_thread k ≠ None → scheduled k1 k')) k.
Proof.
  intros Hk Hth Hst Hd Hnt. pose proof (ki_sched _ _ Hk) as Hi.
  destruct (ki_thread _ _ Hk _ _ Hth) as [(o & Ho & Hc) _ _ _]; [by rewrite Hst|].
  unfold rt_thread_startup. wp_simpl. eapply wp_thread_at; [done|]. wp_simpl.
  split; [by apply Z.eqb_eq|]. eapply assert_class_run; [done..|]. wp_simpl.
  eapply wp_upd_thread; [done|]. wp_simpl.
  eapply wp_upd_thread; [apply lookup_insert_eq|]. wp_simpl.
  eapply wp_upd_thread; [apply lookup_insert_eq|]. wp_simpl. simpl. rewrite !insert_insert_eq.
  change (set_th_stat RT_THREAD_SUSPEND _) with (started th). set (th1 := started th).
  set (k1 := set_threads (<[t := th1]> (threads k)) k).
  match goal with |- wp _ _ ?s => change s with k1 end.
  assert (thread_ok th1) as Hok1.
  { destruct (si_thread _ _ Hi _ _ Hth). constructor; simpl; try done. intros _. by apply mask_pow2. }
  assert (sched_inv k1) as Hi1.
  { apply sched_set_detached; [by apply sched_but_weaken|done|done|done]. }
  assert (kinv lo k1) as Hk1.
  { apply (kinv_move lo k k1 t th th1); try done; [by rewrite Hst|by apply same_objects_eq|].
    by apply (timer_inv_ext lo k), Hk. }
  eapply wp_mono; [apply (rt_thread_resume_run lo k1 t th1); [done| |done]|].
  { simpl. by rewrite lookup_insert_eq. }
  intros r k2 (_ & [Hk2 Hf2 Eth2 Htl2 Ho2] & El2 & Ets2 & Hpend). unfold rt_thread_self. wp_simpl.
  assert (moved lo t (with_stat RT_THREAD_READY th1) (tl_ready t th1 k) k k2) as Hm.
  { constructor; [done| |by rewrite Eth2; simpl; rewrite insert_insert_eq|done|].
    - transitivity k1; [by constructor|done].
    - transitivity k1; [by apply same_objects_eq|done]. }
  pose proof (kf_current _ _ Hf2) as Ec. change (current_thread k1) with (current_thread k) in Ec.
  case_bool_decide as Hcur; wp_simpl.
  - eapply wp_mono; [apply (schedule_run lo); [done|]|].
    { eapply moved_ready; [done|]. by apply stat_of_with_stat. }
    intros [] k3 [Hk3 Hs3]. apply wp_ret. split; [done|]. exists k2. split_and!; try done.
    intros E. rewrite Ec, E in Hcur. by destruct Hcur.
  - split; [done|]. exists k2. split_and!; try done. rewrite <-Ec. intros Hn.
    destruct (current_thread k2); [by destruct Hcur|done].
Qed.

(** A change of priority moves a READY thread to the end of the new list. *)
Lemma change_priority_run lo k t th p :
  kinv lo k → threads k !! t = Some th → stat_of th = RT_THREAD_READY →
  0 ≤ p < RT_THREAD_PRIORITY_MAX →
  wp (rt_thread_control t RT_THREAD_CTRL_CHANGE_PRIORITY p) (λ r k', r = RT_EOK ∧
    moved lo t (with_stat RT_THREAD_READY (set_priority p th))
      (λ h, if decide (h = LReady p) then lremove t (tl h k) ++ [t] else lremove t (tl h k)) k k' ∧
    timer_list k' = timer_list k ∧ timers k' = timers k ∧ objects k' = objects k) k.
Proof.
  intros Hk Hth Hst Hp. pose proof (ki_sched _ _ Hk) as Hi.
  destruct (ki_thread _ _ Hk _ _ Hth) as [(o & Ho & Hc) _ _ _]; [by rewrite Hst|].
  unfold rt_thread_control. wp_simpl. eapply assert_class_run; [done..|].
  change (_ =? RT_THREAD_CTRL_CHANGE_PRIORITY) with true. cbv iota. wp_simpl.
  eapply wp_thread_at; [done|]. wp_simpl. rewrite Hst. cbn [Z.eqb RT_THREAD_READY]. simpl. wp_simpl.
  rewrite (u8_small p) by (change RT_THREAD_PRIORITY_MAX with 32 in Hp; lia).
  eapply wp_mono; [apply (sched_remove_run k t th); [done|done|by rewrite Hst]|].
  intros [] k1 (Hi1 & Hd1 & Eth1 & Htl1 & Hf1). wp_simpl.
  eapply wp_upd_thread; [by rewrite Eth1|]. wp_simpl. set (th1 := set_priority p th).
  set (k2 := set_threads _ k1).
  assert (thread_ok th1) as Hok1.
  { destruct (si_thread _ _ Hi _ _ Hth). constructor; simpl; try done. intros _. by apply mask_pow2. }
  assert (sched_inv_but (Some t) k2) as Hi2.
  { constructor; try apply Hi1.
    - intros h u Hin. assert (u ≠ t) by (intros ->; by apply (Hd1 h)).
      simpl. rewrite lookup_insert_ne by done. by apply (si_fits _ _ Hi1).
    - intros u thu. simpl. intros Hu Hne. rewrite lookup_insert_ne in Hu by congruence.
      by apply (si_ready _ _ Hi1).
    - intros u thu. simpl. destruct (decide (u = t)) as [->|Hne].
      + rewrite lookup_insert_eq. by intros [= <-].
      + rewrite lookup_insert_ne by done. apply (si_thread _ _ Hi1). }
  eapply wp_mono; [apply (sched_insert_run k2 t th1); [done|exact Hd1| |]|].
  { simpl. by rewrite lookup_insert_eq. }
  { change (stat_of th ≠ RT_THREAD_INIT). by rewrite Hst. }
  intros [] k3 (Hi3 & Eth3 & Htl3 & Hf3). apply wp_ret. split; [done|].
  destruct Hf1 as (Hkf1 & Eo1 & Ets1 & El1 & Ep1 & _). destruct Hf3 as (Hkf3 & Eo3 & Ets3 & El3 & Ep3 & _).
  assert (kframe k k3) as Hf.
  { transitivity k1; [done|]. transitivity k2; [by constructor|done]. }
  assert (objects k3 = objects k) as Eo by (by rewrite Eo3; simpl; rewrite Eo1).
  assert (timers k3 = timers k) as Ets by (by rewrite Ets3; simpl; rewrite Ets1).
  assert (timer_list k3 = timer_list k) as El by (by rewrite El3; simpl; rewrite El1).
  assert (timer_pending k3 = timer_pending k) as Epd by (by rewrite Ep3; simpl; rewrite Ep1).
  assert (threads k3 = <[t := with_stat RT_THREAD_READY th1]> (threads k)) as Eth.
  { rewrite Eth3. simpl. rewrite insert_insert_eq. by rewrite Eth1. }
  split; [|done]. constructor; try done; [| |by apply same_objects_eq].
  - apply (kinv_move lo k k3 t th (with_stat RT_THREAD_READY th1)); try done;
      [by rewrite Hst|apply Hf|by apply same_objects_eq| | |].
    + apply (timer_inv_ext lo k); try done; [apply Hf|apply Hk].
    + intros u _. by rewrite El.
    + rewrite El. intros Hin. destruct (ki_active _ _ Hk _ Hin) as (th' & ? & Hs'). simplify_eq.
      by rewrite Hst in Hs'.
  - intros h. rewrite Htl3. change (tl h k2) with (tl h k1). by rewrite Htl1.
Qed.

(** A change of priority, whatever the thread does. *)
Definition reprioritised (p : Z) (th : rt_thread) : rt_thread :=
  if stat_of th =? RT_THREAD_READY then with_stat RT_THREAD_READY (set_priority p th)
  else set_priority p th.
Lemma reprioritised_facts p th :
  stat_of (reprioritised p th) = stat_of th ∧ th_current_priority (reprioritised p th) = p ∧
  th_error (reprioritised p th) = th_error th.
Proof.
  unfold reprioritised. destruct (Z.eqb_spec (stat_of th) RT_THREAD_READY) as [E|E]; [|done].
  split; [|done]. rewrite stat_of_with_stat; done.
Qed.
Lemma rt_thread_control_prio_run lo k t th p :
  kinv lo k → threads k !! t = Some th → stat_of th ≠ RT_THREAD_CLOSE →
  0 ≤ p < RT_THREAD_PRIORITY_MAX →
  wp (rt_thread_control t RT_THREAD_CTRL_CHANGE_PRIORITY p) (λ r k', r = RT_EOK ∧ kinv lo k' ∧
    kframe k k' ∧ threads k' = <[t := reprioritised p th]> (threads k) ∧
    (∀ h, (∀ q, h ≠ LReady q) → tl h k' = tl h k) ∧
    timer_list k' = timer_list k ∧ timers k' = timers k ∧ objects k' = objects k) k.
Proof.
  intros Hk Hth Hc Hp. unfold reprioritised.
  destruct (Z.eqb_spec (stat_of th) RT_THREAD_READY) as [Hst|Hst].
  - eapply wp_mono; [by apply (change_priority_run lo k t th p)|].
    intros r k' (-> & [Hk' Hf Eth Htl Ho] & El & Ets & Eo). split_and!; try done.
    intros h Hh. rewrite Htl, decide_False by done. apply lremove_notin. intros Hin.
    eapply (Hh (th_current_priority th)), (si_one _ _ (ki_sched _ _ Hk) _ _ t); [done|].
    by apply (si_ready _ _ (ki_sched _ _ Hk)).
  - destruct (ki_thread _ _ Hk _ _ Hth Hc) as [(o & Ho & Hco) _ _ _].
    unfold rt_thread_control. wp_simpl. eapply assert_class_run; [done..|].
    change (_ =? RT_THREAD_CTRL_CHANGE_PRIORITY) with true. cbv iota. wp_simpl.
    eapply wp_thread_at; [done|]. wp_simpl. rewrite (proj2 (Z.eqb_neq _ _) Hst). wp_simpl.
    rewrite (u8_small p) by (change RT_THREAD_PRIORITY_MAX with 32 in Hp; lia).
    eapply wp_upd_thread; [done|]. wp_simpl. split; [done|].
    split; [|split_and!; try done; by constructor].
    apply (kinv_thread lo k t th); try done.
    destruct (si_thread _ _ (ki_sched _ _ Hk) _ _ Hth). constructor; simpl; try done.
    intros _. by apply mask_pow2.
Qed.

(** * Properties *)

(** Suspending a READY thread and resuming it: both calls return RT_EOK,
    the thread is READY again at the end of the ready list of its priority,
    every other list is as it was, and its timer does not run. *)
Theorem rt_thread_suspend_resume k t th :
  kinv 0 k → threads k !! t = Some th → stat_of th = RT_THREAD_READY →
  wp (rt_thread_suspend t ≫= (λ r1, rt_thread_resume t ≫= (λ r2, mret (r1, r2))))
     (λ r k', r = (RT_EOK, RT_EOK) ∧ kinv 0 k' ∧ (ThTimer t ∉ timer_list k') ∧
        (∃ th', threads k' = <[t := th']> (threads k) ∧ stat_of th' = RT_THREAD_READY ∧
           th_current_priority th' = th_current_priority th) ∧
        ∀ h, tl h k' = (if decide (h = LReady (th_current_priority th))
                        then lremove t (tl h k) ++ [t] else tl h k)) k.
Proof.
  intros Hk Hth Hst. wp_simpl. eapply wp_mono; [by apply (rt_thread_suspend_run 0)|].
  intros r1 k1 (-> & [Hk1 Hf1 Eth1 Htl1 Ho1] & El1 & _). wp_simpl.
  eapply wp_mono; [apply (rt_thread_resume_run 0 k1 t); [done|by rewrite Eth1, lookup_insert_eq|]|].
  { by apply stat_of_with_stat. }
  intros r2 k2 (-> & [Hk2 Hf2 Eth2 Htl2 Ho2] & El2 & _). wp_simpl.
  split; [done|]. split; [done|]. split; [rewrite El2, elem_of_lremove; naive_solver|]. split.
  - eexists. rewrite Eth2, Eth1, insert_insert_eq. split; [done|]. by split; [apply stat_of_with_stat|].
  - intros h. rewrite Htl2. unfold tl_ready. simpl. rewrite !Htl1. case_decide as Eh; [done|].
    rewrite !lremove_notin; [done|..]; intros Hin; try apply elem_of_lremove in Hin as [Hin _];
      apply Eh; eapply (si_one _ _ (ki_sched _ _ Hk) _ _ t); try done;
      by apply (si_ready _ _ (ki_sched _ _ Hk)).
Qed.

(** Suspending a thread that is not READY and resuming one that is not
    SUSPENDed return -RT_ERROR and change nothing. *)
Theorem rt_thread_wrong_state k t th :
  kinv 0 k → threads k !! t = Some th → stat_of th ≠ RT_THREAD_CLOSE →
  (stat_of th ≠ RT_THREAD_READY → rt_thread_suspend t k = Some (- RT_ERROR, k)) ∧
  (stat_of th ≠ RT_THREAD_SUSPEND → rt_thread_resume t k = Some (- RT_ERROR, k)).
Proof.
  intros Hk Hth Hc. split; intros Hs; [by eapply rt_thread_suspend_err|by eapply rt_thread_resume_err].
Qed.

(** [rt_thread_yield] by the head of a ready list rotates that list and
    touches no other; with the scheduler unlocked the CPU goes to the head of
    the highest non-empty list, and alone on its list the thread keeps it. *)
Theorem rt_thread_yield_rotates k t th l :
  kinv 0 k → lock_nest k = 0 → current_thread k = Some t → threads k !! t = Some th →
  stat_of th = RT_THREAD_READY → tl (LReady (th_current_priority th)) k = t :: l →
  wp rt_thread_yield (λ r k', r = RT_EOK ∧ kinv 0 k' ∧ threads k' = threads k ∧
    tl (LReady (th_current_priority th)) k' = l ++ [t] ∧
    (∀ h, h ≠ LReady (th_current_priority th) → tl h k' = tl h k) ∧
    (l = [] → k' = k) ∧
    (l ≠ [] → ∃ u, current_thread k' = Some u ∧ next_to_run u k')) k.
Proof.
  intros Hk Hn Hcur Hth Hst Htl. eapply wp_mono; [by apply (rt_thread_yield_run 0)|].
  assert (t ∉ l) as Htn.
  { pose proof (si_nodup _ _ (ki_sched _ _ Hk) (LReady (th_current_priority th))) as Hnd.
    rewrite Htl in Hnd. by apply NoDup_cons in Hnd as [? _]. }
  intros r k' (-> & ? & Hsb & _ & _ & Hy). split; [done|]. split; [done|]. split; [apply Hsb|].
  rewrite Htl in Hy. case_bool_decide as Hc.
  - destruct Hy as (Hy1 & Hy2 & Hy3). rewrite Htl, lremove_cons_eq, lremove_notin in Hy1 by done.
    split; [done|]. split; [done|]. split; [intros ->; simpl in Hc; lia|auto].
  - assert (l = []) as -> by (destruct l; [done|]; destruct Hc; simpl; split; [done|lia]).
    subst k'. split_and!; done.
Qed.

(** [rt_thread_sleep]: the running thread leaves every list, is SUSPENDed
    with its timer armed for [tick] ticks from now, and the CPU goes to the
    thread that is first in line among the others. *)
Theorem rt_thread_sleep_suspends k t th tick :
  kinv 0 k → lock_nest k = 0 → current_thread k = Some t → threads k !! t = Some th →
  stat_of th = RT_THREAD_READY → other_ready t k → 0 ≤ tick < TICK_HALF →
  wp (rt_thread_sleep tick) (λ r k', r = Wait t ∧ kinv 0 k' ∧ detached t k' ∧ armed t tick k k' ∧
    (∃ th', threads k' = <[t := th']> (threads k) ∧ stat_of th' = RT_THREAD_SUSPEND) ∧
    ∃ u, u ≠ t ∧ current_thread k' = Some u ∧ next_to_run u k') k.
Proof.
  intros Hk Hn Hcur Hth Hst Hother Htick.
  eapply wp_mono; [apply (rt_thread_sleep_run 0 k t th); try done; lia|].
  intros r k' (-> & Hk' & Eth & Htl & Ha & _ & _ & _ & k1 & (Hf & Hs & _) & En & Hd).
  split; [done|]. split; [done|]. split; [intros h; rewrite Htl, elem_of_lremove; naive_solver|].
  split; [done|]. split; [eexists; split; [done|by apply stat_of_with_stat]|].
  rewrite En in Hs. destruct (Hs Hn) as (u & Hu & Hnx). exists u. split; [|split; [done|]].
  - intros ->. destruct Hnx as (p & l & _ & El & _). apply (Hd (LReady p)). rewrite El. by left.
  - destruct Hf as (c & q & ->). done.
Qed.

(** Starting a thread from one that runs: the new thread is READY at the
    end of its ready list, and with the scheduler unlocked it runs at once when
    its priority is higher than that of every READY thread. *)
Theorem rt_thread_startup_runs k t th c :
  kinv 0 k → lock_nest k = 0 → current_thread k = Some c →
  threads k !! t = Some th → stat_of th = RT_THREAD_INIT → ThTimer t ∉ timer_list k →
  wp (rt_thread_startup t) (λ r k', r = RT_EOK ∧ kinv 0 k' ∧
    (∃ th', threads k' = <[t := th']> (threads k) ∧ stat_of th' = RT_THREAD_READY ∧
       th_current_priority th' = th_init_priority th) ∧
    tl (LReady (th_init_priority th)) k' = tl (LReady (th_init_priority th)) k ++ [t] ∧
    ((∀ u thu, threads k !! u = Some thu → stat_of thu = RT_THREAD_READY →
        th_init_priority th < th_current_priority thu) →
     current_thread k' = Some t)) k.
Proof.
  intros Hk Hn Hcur Hth Hst Hnt. pose proof (ki_sched _ _ Hk) as Hi.
  eapply wp_mono; [apply (rt_thread_startup_run 0 k t th); try done; by eapply detached_by_stat|].
  intros r k' (-> & k1 & [Hk1 Hf1 Eth1 Htl1 Ho1] & _ & _ & Hk' & _ & Hs).
  destruct Hs as ((c' & q & E') & Hs & _); [by rewrite Hcur|].
  split; [done|]. split; [done|]. split; [|split].
  - eexists. rewrite E'. split; [done|]. by split; [apply stat_of_with_stat|].
  - rewrite E'. change (tl (LReady (th_init_priority th)) k1 = tl (LReady (th_init_priority th)) k ++ [t]).
    rewrite Htl1. unfold tl_ready. simpl. by rewrite decide_True.
  - intros Hlow. destruct Hs as (u & Hu & p & l & Hp & El & Hl); [by rewrite (kf_lock _ _ Hf1)|].
    rewrite Hu. f_equal. rewrite Htl1 in El. unfold tl_ready in El. simpl in El.
    assert (∀ u, u ∈ tl (LReady (th_init_priority th)) k → False) as Hnone.
    { intros v Hv. destruct (si_fits _ _ Hi _ _ Hv) as (thv & Hthv & Hsv & Hpv).
      specialize (Hlow v thv Hthv Hsv). lia. }
    case_decide as Ep.
    + injection Ep as ->. destruct (tl (LReady _) k) as [|v l']; [simpl in El; congruence|].
      destruct (Hnone v). by left.
    + assert (u ∈ lremove t (tl (LReady p) k)) as Hin by (rewrite El; by left).
      apply elem_of_lremove in Hin as [Hin _].
      destruct (si_fits _ _ Hi _ _ Hin) as (thu & Hthu & Hsu & Hpu).
      specialize (Hlow u thu Hthu Hsu). specialize (Hl (th_init_priority th)).
      rewrite Htl1 in Hl. unfold tl_ready in Hl. simpl in Hl. rewrite decide_True in Hl by done.
      exfalso.
      assert (0 ≤ th_init_priority th) by apply (to_init _ (si_thread _ _ Hi _ _ Hth)).
      assert (tl (LReady (th_init_priority th)) k ++ [t] = []) as E by (apply Hl; lia).
      by destruct (tl (LReady (th_init_priority th)) k).
Qed.

(** RT_THREAD_CTRL_CHANGE_PRIORITY of a READY thread moves it to the end
    of the ready list of the new priority, with the bit mask that goes with it. *)
Theorem rt_thread_control_change_priority k t th p :
  kinv 0 k → threads k !! t = Some th → stat_of th = RT_THREAD_READY →
  0 ≤ p < RT_THREAD_PRIORITY_MAX →
  wp (rt_thread_control t RT_THREAD_CTRL_CHANGE_PRIORITY p) (λ r k', r = RT_EOK ∧ kinv 0 k' ∧
    (∃ th', threads k' = <[t := th']> (threads k) ∧ stat_of th' = RT_THREAD_READY ∧
       th_current_priority th' = p ∧ th_number_mask th' = 2 ^ p) ∧
    ∀ h, tl h k' = if decide (h = LReady p) then lremove t (tl h k) ++ [t] else lremove t (tl h k)) k.
Proof.
  intros Hk Hth Hst Hp. eapply wp_mono; [by apply (change_priority_run 0 k t th p)|].
  intros r k' (-> & [] & _). split; [done|]. split; [done|]. split; [|done].
  eexists. split; [done|]. split; [by apply stat_of_with_stat|]. split; [done|]. by apply mask_pow2.
Qed.
End threads.
