(* ===== verification/ThreadInit.v ===== *)
(** Making threads: what rt_thread_init and rt_thread_create of os/thread.c set up
    (the object, the stack frame, the timer), on a kernel that runs and on one
    that has not started. *)
From S2P Require Import Prelude Kservice Mem KState Sched Object Timer Thread.

(** * The stack of a new thread *)

Definition frame_of (entry parameter stack_start stack_size texit : Z) : Z * (Z → option Z) :=
  rt_hw_stack_init entry parameter (u32 (stack_start + stack_size - 4)) texit.
Lemma frame_of_ok entry parameter start size texit :
  0 < start → 76 ≤ size → start + size < 4294967296 →
  let '(sp, frame) := frame_of entry parameter start size texit in
  start < sp ≤ start + size ∧ frame start = None.
Proof.
  intros Hst Hsz Hlim. unfold frame_of, rt_hw_stack_init.
  rewrite (u32_small (start + size - 4)) by lia. rewrite (u32_small (start + size - 4 + 4)) by lia.
  assert (∀ x, 0 ≤ x < 4294967296 → RT_ALIGN_DOWN x 8 = x - x mod 8) as Hd.
  { intros x Hx. unfold RT_ALIGN_DOWN. change (u32 (Z.lnot (8 - 1))) with 4294967288.
    assert (Z.land x 4294967288 = Z.ldiff x 7) as ->.
    { apply Z.bits_inj'. intros n Hn. rewrite Z.land_spec, Z.ldiff_spec.
      change 4294967288 with (Z.ldiff (Z.ones 32) 7). rewrite Z.ldiff_spec.
      destruct (Z_lt_le_dec n 32).
      - rewrite Z.ones_spec_low by lia. done.
      - rewrite (testbit_high x) by lia. done. }
    change 7 with (Z.ones 3). rewrite Z.ldiff_ones_r, Z.shiftr_div_pow2, Z.shiftl_mul_pow2 by lia.
    change (2 ^ 3) with 8. pose proof (Z_div_mod_eq_full x 8). lia. }
  rewrite Hd by lia. change stack_frame_size with 68.
  pose proof (Z.mod_pos_bound (start + size - 4 + 4) 8 ltac:(lia)).
  rewrite u32_small by lia. split; [lia|].
  destruct (Z.leb_spec 0 (start - (start + size - 4 + 4 - (start + size - 4 + 4) mod 8 - 68))); [lia|done].
Qed.

(** * The invariant while a thread is made *)

(** [kinv] without the demand on the objects of [t]. *)
Record kinv_but (lo t : Z) (k : kernel) : Prop := {
  kb_sched : sched_inv k;
  kb_timer : timer_inv lo k;
  kb_obj : obj_inv k;
  kb_thread : ∀ u th, u ≠ t → threads k !! u = Some th → stat_of th ≠ RT_THREAD_CLOSE → thread_objs u k;
  kb_active : ∀ u, ThTimer u ∈ timer_list k →
    ∃ th, threads k !! u = Some th ∧ stat_of th = RT_THREAD_SUSPEND
}.
Lemma kinv_but_weaken lo t k : kinv lo k → kinv_but lo t k.
Proof. intros []. constructor; eauto. Qed.
Lemma kinv_but_close lo t k : kinv_but lo t k → thread_objs t k → kinv lo k.
Proof.
  intros [] Ht. constructor; try done. intros u th Hu Hs. destruct (decide (u = t)) as [->|Hne]; eauto.
Qed.
Lemma kinv_but_none lo t k : kinv_but lo t k → threads k !! t = None → kinv lo k.
Proof.
  intros [] Ht. constructor; try done. intros u th Hu Hs. apply kb_thread0 with th; try done. congruence.
Qed.
(** Everything the invariant reads. *)
Record same_core (k k' : kernel) : Prop := {
  sc_lists : same_but_lists k k';
  sc_tlists : tlists k' = tlists k;
  sc_group : ready_group k' = ready_group k
}.
Lemma kinv_but_ext lo t k k' : same_core k k' → kinv_but lo t k → kinv_but lo t k'.
Proof.
  intros [[] Etl Eg] []. constructor.
  - by apply (sched_inv_ext _ k).
  - by apply (timer_inv_ext lo k).
  - by apply (obj_inv_ext k).
  - rewrite sb_threads. intros u th Hne Hth Hs. destruct (kb_thread0 u th Hne Hth Hs).
    constructor; rewrite ?sb_objects, ?sb_timers; done.
  - by rewrite sb_list, sb_threads.
Qed.
Lemma critical_core k k' : critical k k' → same_core k k'.
Proof. intros (c & p & -> & _). by repeat constructor. Qed.

(** An object that belongs to [t] is linked. *)
Lemma kinv_but_object lo t k p type l o :
  kinv_but lo t k → p = Obj t ∨ p = ThTimer t → p ∉ timer_list k →
  obj_inv (with_object p type l o k) → kinv_but lo t (with_object p type l o k).
Proof.
  intros [] Hp Hl Ho. constructor; try done.
  - by apply (sched_inv_ext _ k).
  - apply (timer_inv_ext lo (set_objects (<[p := o]> (objects k)) k)); try done. by apply timer_inv_object.
  - intros u th Hne Hth Hs. destruct (kb_thread0 u th Hne Hth Hs).
    constructor; simpl; rewrite ?lookup_insert_ne by naive_solver; done.
Qed.
Lemma kinv_but_thread lo t k th :
  kinv_but lo t k → detached t k → ThTimer t ∉ timer_list k → thread_ok th →
  stat_of th = RT_THREAD_INIT → kinv_but lo t (set_threads (<[t := th]> (threads k)) k).
Proof.
  intros [] Hd Hl Hok Hs. constructor; try done.
  - apply sched_set_detached; [by apply sched_but_weaken|done|done|by rewrite Hs].
  - by apply (timer_inv_ext lo k).
  - by apply (obj_inv_ext k).
  - intros u thu Hne. simpl. rewrite lookup_insert_ne by done. intros Hu Hsu.
    destruct (kb_thread0 u thu Hne Hu Hsu). by constructor.
  - intros u Hu. simpl. rewrite lookup_insert_ne; [by apply kb_active0|]. by intros ->.
Qed.
(** The timer of [t] is written while it is not active. *)
Lemma timer_inv_new lo k p tm :
  timer_inv lo k → p ∉ timer_list k → 0 ≤ tm_timeout_tick tm < 4294967296 →
  timer_inv lo (set_timers (<[p := tm]> (timers k)) k).
Proof.
  intros [] Hp Hr. assert (∀ q, q ∈ timer_list k →
    timer_dist (set_timers (<[p := tm]> (timers k)) k) q = timer_dist k q) as E.
  { intros q Hq. unfold timer_dist. simpl. by rewrite lookup_insert_ne by (by intros ->). }
  constructor; try done.
  - intros q Hq. rewrite E by done. by apply ti_dist.
  - eapply StronglySorted_weaken; [|exact ti_sorted]. intros x y Hx Hy H d e. rewrite !E by done. apply H.
  - intros q tmq. simpl. destruct (decide (q = p)) as [->|Hne].
    + rewrite lookup_insert_eq. by intros [= <-].
    + rewrite lookup_insert_ne by done. eauto.
Qed.
Lemma kinv_but_timer lo t k o o' tm :
  kinv_but lo t k → ThTimer t ∉ timer_list k → objects k !! ThTimer t = Some o →
  class_of o' = class_of o → o_name o' = o_name o → 0 ≤ tm_timeout_tick tm < 4294967296 →
  kinv_but lo t (set_timers (<[ThTimer t := tm]> (timers k))
                  (set_objects (<[ThTimer t := o']> (objects k)) k)).
Proof.
  intros [] Hl Ho Ec En Hr. constructor; try done.
  - by apply (sched_inv_ext _ k).
  - apply (timer_inv_new lo (set_objects (<[ThTimer t := o']> (objects k)) k)); [|done|done].
    by apply timer_inv_object.
  - destruct kb_obj0 as [H1 H2 H3]. constructor; [done|..]; simpl.
    + intros c lc q Hc Hq. destruct (H2 _ _ _ Hc Hq) as (oq & Hoq & Hcq).
      destruct (decide (q = ThTimer t)) as [->|Hne].
      * exists o'. rewrite lookup_insert_eq. simplify_eq. done.
      * exists oq. by rewrite lookup_insert_ne.
    + intros c lc q oq Hc Hq. destruct (decide (q = ThTimer t)) as [->|Hne].
      * rewrite lookup_insert_eq. intros [= <-]. rewrite En. by eapply H3.
      * rewrite lookup_insert_ne by done. by eapply H3.
  - intros u th Hne Hth Hs. destruct (kb_thread0 u th Hne Hth Hs).
    constructor; simpl; rewrite ?lookup_insert_ne by naive_solver; done.
Qed.

(** * The calls *)

(** The record of a thread that was made and did not start. *)
Record newborn (entry parameter start size priority tick : Z) (th : rt_thread) : Prop := {
  nb_stat : th_stat th = RT_THREAD_INIT;
  nb_prio : th_current_priority th = priority ∧ th_init_priority th = priority;
  nb_entry : th_entry th = entry ∧ th_parameter th = parameter;
  nb_stack : th_stack_addr th = start ∧ th_stack_size th = size ∧ stack_ok th;
  nb_ticks : th_init_tick th = tick ∧ th_remaining_tick th = tick;
  nb_error : th_error th = RT_EOK
}.
(** What making [t] changes: its record, its two objects and its timer; the CPU
    stays with, or goes to, the thread that is first in line. *)
Definition made (t : Z) (th : rt_thread) (k k' : kernel) : Prop :=
  ∃ c p os cs ts,
    k' = set_current_thread c (set_current_priority p (set_threads (<[t := th]> (threads k))
           (set_objects os (set_containers cs (set_timers ts k))))) ∧
    (current_thread k = None → c = None) ∧
    (lock_nest k = 0 → is_Some (current_thread k) → ∃ u, c = Some u ∧ next_to_run u k) ∧
    (∀ a, a ≠ t → os !! Obj a = objects k !! Obj a) ∧
    (∀ q i l, q ≠ Obj t → q ≠ ThTimer t → cs !! i = Some l → q ∈ l →
       ∃ l0, containers k !! i = Some l0 ∧ q ∈ l0) ∧
    (∀ i, is_Some (containers k !! i) → is_Some (cs !! i)).
(** Memory that is no thread yet, on no list and not linked as an object. *)
Record fresh_thread (t : Z) (k : kernel) : Prop := {
  fr_null : t ≠ 0;
  fr_detached : detached t k;
  fr_object : olinked (Obj t) k = false;
  fr_timer_object : olinked (ThTimer t) k = false;
  fr_timer : ThTimer t ∉ timer_list k ++ timer_pending k;
  fr_not_timer : Obj t ∉ timer_list k
}.

Section init.
Context `{CB : Callbacks}.
Context (name : list Z) (entry parameter start size priority tick : Z).
Context (Hname : readable 8 name ∧ is_bytes name) (Hprio : 0 ≤ priority < RT_THREAD_PRIORITY_MAX).
Context (Hstart : 0 < start) (Hsize : 76 ≤ size) (Hend : start + size < 4294967296).

Lemma newborn_ok th : newborn entry parameter start size priority tick th →
  thread_ok th ∧ stat_of th = RT_THREAD_INIT.
Proof using Hprio.
  intros [Hs [Hc Hi] _ (_ & _ & Hst) _ _]. assert (stat_of th = RT_THREAD_INIT) as E by (unfold stat_of; by rewrite Hs).
  split; [|done]. constructor; try done; rewrite ?Hc, ?Hi, ?Hs; done.
Qed.

(** The timer of a thread whose record is written. *)
Lemma rt_timer_init_run lo k t lt :
  kinv_but lo t k → may_schedule k → 0 ≤ lock_nest k < 32766 → t ≠ 0 →
  olinked (ThTimer t) k = false → ThTimer t ∉ timer_list k ++ timer_pending k →
  containers k !! RT_Object_Class_Timer = Some lt →
  (∃ o, objects k !! Obj t = Some o ∧ class_of o = RT_Object_Class_Thread) →
  wp (rt_timer_init (ThTimer t) name FnThreadTimeout t 0 RT_TIMER_FLAG_ONE_SHOT)
     (λ _ k', kinv lo k' ∧ ∃ c p os ts,
        k' = set_current_thread c (set_current_priority p (set_objects os
               (set_containers (<[RT_Object_Class_Timer := ThTimer t :: lt]> (containers k)) (set_timers ts k)))) ∧
        (current_thread k = None → c = None) ∧
        (lock_nest k = 0 → is_Some (current_thread k) → ∃ u, c = Some u ∧ next_to_run u k) ∧
        (∀ a, os !! Obj a = objects k !! Obj a)) k.
Proof using Hname.
  intros Hk Hm Hln H0 Hl Ht Hc (ob & Hob & Hcb). destruct Hname as [Hrd Hb].
  apply not_elem_of_app in Ht as [Ht1 Ht2].
  unfold rt_timer_init, _rt_timer_init, timer_flag_clear, timer_node_init. wp_simpl.
  eapply wp_mono; [apply (rt_object_init_run k _ RT_Object_Class_Timer name lt); try done; apply Hk|].
  intros [] k1 (_ & Ho1 & k0 & o & Hcr & -> & Hcl & _). pose proof (critical_core _ _ Hcr) as Hsc.
  pose proof (kinv_but_ext _ _ _ _ Hsc Hk) as Hk0. destruct Hcr as (c & p & -> & Hc0 & Hc1).
  pose proof (kinv_but_object _ _ _ (ThTimer t) _ _ _ Hk0 ltac:(by right) Ht1 Ho1) as Hk1.
  set (k1 := with_object _ _ _ _ _) in *. wp_simpl.
  eapply wp_upd_object; [apply lookup_insert_eq|]. wp_simpl.
  eapply wp_upd_object; [apply lookup_insert_eq|]. wp_simpl. simpl.
  set (o' := set_o_flag _ _).
  unfold wp. simpl. rewrite bool_decide_eq_false_2 by (by apply not_elem_of_app). simpl.
  split.
  - set (tm := Timer FnThreadTimeout t 0 0).
    assert (kinv_but lo t (set_timers (<[ThTimer t := tm]> (timers k1))
      (set_objects (<[ThTimer t := o']> (objects k1)) k1))) as Hk2.
    { apply (kinv_but_timer lo t k1 o); try done. apply lookup_insert_eq. }
    assert (objects k1 = <[ThTimer t := o]> (objects k)) as Eo by done.
    rewrite Eo, insert_insert_eq in Hk2. rewrite !insert_insert_eq.
    apply (kinv_but_close _ t); [exact Hk2|]. constructor; simpl; [|..|done].
    + exists ob. by rewrite lookup_insert_ne.
    + exists o'. by rewrite lookup_insert_eq.
    + exists tm. by rewrite lookup_insert_eq.
  - exists c, p, (<[ThTimer t := o']> (objects k)), (<[ThTimer t := Timer FnThreadTimeout t 0 0]> (timers k)).
    split; [unfold k1; simpl; by rewrite !insert_insert_eq|]. split; [done|]. split; [done|].
    intros a. by rewrite lookup_insert_ne.
Qed.

Lemma _rt_thread_init_run lo k t :
  kinv_but lo t k → may_schedule k → 0 ≤ lock_nest k < 32766 → t ≠ 0 → detached t k →
  olinked (ThTimer t) k = false → ThTimer t ∉ timer_list k ++ timer_pending k →
  is_Some (containers k !! RT_Object_Class_Timer) →
  (∃ o, objects k !! Obj t = Some o ∧ class_of o = RT_Object_Class_Thread) →
  wp (_rt_thread_init t name entry parameter start size priority tick)
     (λ r k', r = RT_EOK ∧ kinv lo k' ∧ ∃ th, newborn entry parameter start size priority tick th ∧
        made t th k k') k.
Proof using Hend Hname Hprio Hsize Hstart.
  intros Hk Hm Hln H0 Hd Hl Ht [lt Hc] Ho. unfold _rt_thread_init, tlist_init. wp_simpl.
  pose proof (frame_of_ok entry parameter start size addr_rt_thread_exit Hstart Hsize Hend) as Hf.
  unfold frame_of in Hf. destruct (rt_hw_stack_init _ _ _ _) as [sp frame] eqn:Ef.
  destruct Hf as [Hsp Hguard].
  unfold wp at 1. rewrite (proj2 (tlinked_false t k)) by exact Hd.
  wp_simpl. split; [apply Z.ltb_lt, Hprio|]. rewrite Hguard.
  rewrite (proj2 (Z.ltb_lt 0 size)) by lia. simpl.
  match goal with |- context [<[t := ?x]> (threads k)] => set (th := x) end.
  assert (newborn entry parameter start size priority tick th) as Hnb by (constructor; done).
  destruct (newborn_ok th Hnb) as [Hok Hst].
  set (k1 := set_threads _ k).
  pose proof (proj1 (not_elem_of_app _ _ _) Ht) as [Ht1 _].
  assert (kinv_but lo t k1) as Hk1 by (by apply kinv_but_thread).
  assert (may_schedule k1) as Hm1.
  { destruct Hm as [?|(u & thu & Hu & Hsu)]; [by left|right]. exists u, thu.
    simpl. rewrite lookup_insert_ne; [done|]. intros <-.
    by destruct (Hd _ (si_ready _ _ (kb_sched _ _ _ Hk) _ _ Hu ltac:(done) Hsu)). }
  eapply wp_mono; [by apply (rt_timer_init_run lo k1 t lt)|].
  intros [] k2 (Hk2 & c & p & os & ts & -> & Hc0 & Hc1 & Hos). apply wp_ret. split; [done|].
  split; [done|]. exists th. split; [done|].
  exists c, p, os, (<[RT_Object_Class_Timer := ThTimer t :: lt]> (containers k)), ts.
  split; [done|]. split; [done|]. split; [done|]. split; [auto|]. split.
  - intros q i l Hq1 Hq2. destruct (decide (i = RT_Object_Class_Timer)) as [->|Hne].
    + rewrite lookup_insert_eq. intros [= <-] [?|Hin]%elem_of_cons; [done|]. by exists lt.
    + rewrite lookup_insert_ne by done. eauto.
  - intros i. destruct (decide (i = RT_Object_Class_Timer)) as [->|Hne].
    + by rewrite lookup_insert_eq.
    + by rewrite lookup_insert_ne.
Qed.

Lemma rt_thread_init_run lo k t :
  kinv lo k → may_schedule k → 0 ≤ lock_nest k < 32766 → fresh_thread t k →
  is_Some (containers k !! RT_Object_Class_Thread) → is_Some (containers k !! RT_Object_Class_Timer) →
  wp (rt_thread_init t name entry parameter start size priority tick)
     (λ r k', r = RT_EOK ∧ kinv lo k' ∧ ∃ th, newborn entry parameter start size priority tick th ∧
        made t th k k') k.
Proof using Hend Hname Hprio Hsize Hstart.
  intros Hk Hm Hln [H0 Hd Hlo Hlt Ht Hnt] [l Hl] [lt Hlt']. destruct Hname as [Hrd Hb].
  unfold rt_thread_init. wp_simpl. split; [by rewrite (proj2 (Z.eqb_neq _ _))|].
  split; [by rewrite (proj2 (Z.eqb_neq start 0)) by lia|].
  eapply wp_mono; [by apply (rt_object_init_run k (Obj t) RT_Object_Class_Thread name l); [apply Hk|apply Hk|..]|].
  intros [] k1 (_ & Ho1 & k0 & o & Hcr & -> & Hcl & _).
  pose proof (kinv_but_ext _ _ _ _ (critical_core _ _ Hcr) (kinv_but_weaken _ t _ Hk)) as Hk0.
  destruct Hcr as (c0 & p0 & -> & Hc0 & Hc1).
  pose proof (kinv_but_object _ _ _ (Obj t) _ _ _ Hk0 ltac:(by left) Hnt Ho1) as Hk1.
  set (k1 := with_object _ _ _ _ _) in *.
  eapply wp_mono; [apply (_rt_thread_init_run lo k1 t); try done|].
  - destruct Hm as [Hm|Hm]; [left; by apply Hc0|by right].
  - apply olinked_false. intros i li. simpl. destruct (decide (i = RT_Object_Class_Thread)) as [->|Hne].
    + rewrite lookup_insert_eq. intros [= <-] [?|Hin]%elem_of_cons; [done|].
      by apply (proj1 (olinked_false _ _) Hlt _ _ Hl).
    + rewrite lookup_insert_ne by done. by apply olinked_false.
  - simpl. by rewrite lookup_insert_ne.
  - exists o. simpl. by rewrite lookup_insert_eq.
  - intros r k2 (-> & Hk2 & th & Hnb & c & p & os & cs & ts & -> & Hn & Hr & Hos & Hcs & Hsome).
    split; [done|]. split; [done|]. exists th. split; [done|].
    exists c, p, os, cs, ts. split; [done|]. split; [auto|]. split; [|split; [|split]].
    + intros Hln0 Hcur. destruct (Hc1 Hln0 Hcur) as (u & -> & _). by apply Hr.
    + intros a Ha. rewrite Hos by done. simpl. rewrite lookup_insert_ne; [done|congruence].
    + intros q i li Hq1 Hq2 Hi Hin. destruct (Hcs _ _ _ Hq1 Hq2 Hi Hin) as (l0 & Hl0 & Hin0).
      simpl in Hl0. destruct (decide (i = RT_Object_Class_Thread)) as [->|Hne].
      * rewrite lookup_insert_eq in Hl0. injection Hl0 as <-.
        apply elem_of_cons in Hin0 as [?|?]; [done|]. by exists l.
      * rewrite lookup_insert_ne in Hl0 by done. by exists l0.
    + intros i Hi. apply Hsome. simpl. destruct (decide (i = RT_Object_Class_Thread)) as [->|Hne].
      * by rewrite lookup_insert_eq.
      * by rewrite lookup_insert_ne.
Qed.
End init.

(** * Other objects *)

(** Memory for an object that is not a thread, with no list of threads yet. *)
Record fresh_object (a : Z) (k : kernel) : Prop := {
  fo_null : a ≠ 0;
  fo_object : olinked (Obj a) k = false;
  fo_not_timer : Obj a ∉ timer_list k;
  fo_not_thread : threads k !! a = None;
  fo_list : tl (LSuspend a) k = []
}.
Lemma object_init_kinv lo k a type name :
  kinv lo k → may_schedule k → 0 ≤ lock_nest k < 32766 → fresh_object a k → 0 < type < 128 →
  is_Some (containers k !! type) → readable 8 name → is_bytes name →
  wp (rt_object_init (Obj a) type name) (λ _ k', kinv lo k' ∧ ∃ c p o cs,
    k' = set_current_thread c (set_current_priority p
           (set_objects (<[Obj a := o]> (objects k)) (set_containers cs k))) ∧
    (lock_nest k = 0 → is_Some (current_thread k) → ∃ u, c = Some u ∧ next_to_run u k) ∧
    class_of o = type ∧ (∀ i, is_Some (containers k !! i) → is_Some (cs !! i))) k.
Proof.
  intros Hk Hm Hln [H0 Hl Hnt Hth Htl] Hty [l Hc] Hrd Hb.
  eapply wp_mono; [apply (rt_object_init_run k (Obj a) type name l); try done; apply Hk|].
  intros [] k1 (_ & Ho1 & k0 & o & Hcr & -> & Hcl & _).
  pose proof (kinv_but_ext _ _ _ _ (critical_core _ _ Hcr) (kinv_but_weaken _ a _ Hk)) as Hk0.
  destruct Hcr as (c & p & -> & _ & Hrun). split.
  - apply (kinv_but_none lo a); [|done]. by apply kinv_but_object; [|left|..].
  - exists c, p, o, (<[type := Obj a :: l]> (containers k)). split; [done|]. split; [done|]. split; [done|].
    intros i Hi. destruct (decide (i = type)) as [->|Hne]; [by rewrite lookup_insert_eq|].
    by rewrite lookup_insert_ne.
Qed.
(** The flag of an object that is no active timer. *)
Lemma kinv_object lo k a o o' :
  kinv lo k → objects k !! Obj a = Some o → class_of o' = class_of o → o_name o' = o_name o →
  Obj a ∉ timer_list k → kinv lo (set_objects (<[Obj a := o']> (objects k)) k).
Proof.
  intros [] Ho Ec En Hl. constructor; try done.
  - by apply (sched_inv_ext _ k).
  - by apply timer_inv_object.
  - destruct ki_obj as [H1 H2 H3]. constructor; [done|..]; simpl.
    + intros c lc q Hc Hq. destruct (H2 _ _ _ Hc Hq) as (oq & Hoq & Hcq).
      destruct (decide (q = Obj a)) as [->|Hne].
      * exists o'. rewrite lookup_insert_eq. simplify_eq. done.
      * exists oq. by rewrite lookup_insert_ne.
    + intros c lc q oq Hc Hq. destruct (decide (q = Obj a)) as [->|Hne].
      * rewrite lookup_insert_eq. intros [= <-]. rewrite En. by eapply H3.
      * rewrite lookup_insert_ne by done. by eapply H3.
  - intros u th Hth Hs. destruct (ki_thread u th Hth Hs) as [(ou & Hou & Hcu) (ot & Hot & ?) Ht Hn].
    constructor; simpl; try done.
    + destruct (decide (u = a)) as [->|Hne].
      * exists o'. rewrite lookup_insert_eq. simplify_eq. split; [done|congruence].
      * exists ou. rewrite lookup_insert_ne by naive_solver. done.
    + exists ot. by rewrite lookup_insert_ne.
Qed.

(** rt_thread_init on fresh memory, in a kernel that runs or has not started:
    it returns RT_EOK and keeps the invariant; the new thread is not started, has
    the arguments' entry, priority and time slice and a stack whose frame fits
    with the guard byte intact; no other thread and no list changed. *)
Theorem rt_thread_init_makes `{CB : Callbacks} k t name entry parameter start size priority tick :
  kinv 0 k → may_schedule k → 0 ≤ lock_nest k < 32766 → fresh_thread t k →
  is_Some (containers k !! RT_Object_Class_Thread) → is_Some (containers k !! RT_Object_Class_Timer) →
  readable 8 name → is_bytes name → 0 ≤ priority < RT_THREAD_PRIORITY_MAX →
  0 < start → 76 ≤ size → start + size < 4294967296 →
  wp (rt_thread_init t name entry parameter start size priority tick)
     (λ r k', r = RT_EOK ∧ kinv 0 k' ∧ ∃ th, newborn entry parameter start size priority tick th ∧
        threads k' = <[t := th]> (threads k) ∧ tlists k' = tlists k ∧ timer_list k' = timer_list k ∧
        ThTimer t ∉ timer_list k') k.
Proof.
  intros Hk Hm Hln Hfr Hc1 Hc2 Hrd Hb Hp Hst Hsz Hend.
  eapply wp_mono; [by apply (rt_thread_init_run name entry parameter start size priority tick)|].
  intros r k' (-> & Hk' & th & Hnb & c & p & os & cs & ts & -> & _).
  split; [done|]. split; [done|]. exists th. do 4 (split; [done|]).
  destruct Hfr. by apply not_elem_of_app in fr_timer0 as [? _].
Qed.
