(* ===== verification/Clock.v ===== *)
(** The clock: os/clock.c, os/irq.c, [rt_timer_check] of os/timer.c and the
    SysTick handler of the board. Timeouts are called through the timer's
    function pointer: the kernel's own [rt_thread_timeout], or a function of
    the application. The loop of [rt_timer_check] takes fuel; a periodic timer
    of 0 ticks makes the C loop forever. *)
From Stdlib Require Import Sorting.Sorted.
From S2P Require Import Prelude Kservice Mem KState Sched Object Timer Thread.

Section clock.
Context `{CB : Callbacks}.

(** irq.c *)
Definition rt_interrupt_enter : K unit :=
  modify (λ k, set_interrupt_nest (u8 (interrupt_nest k + 1)) k).
Definition rt_interrupt_leave : K unit :=
  modify (λ k, set_interrupt_nest (u8 (interrupt_nest k - 1)) k).
Definition rt_interrupt_get_nest : K Z := gets interrupt_nest.

(** t->timeout_func(t->parameter) *)
Definition call_timeout (f : timeout_fn) (parameter : Z) : K unit :=
  match f with
  | FnThreadTimeout => rt_thread_timeout parameter
  | FnUser f => user_timeout f parameter
  end.

(** One timer that is due. Returns after the restart of a periodic one. *)
Definition timer_expire (t : optr) : K unit :=
  _rt_timer_remove t;;
  flag ← timer_flag t;
  when (Z.land flag RT_TIMER_FLAG_PERIODIC =? 0) (timer_flag_clear t RT_TIMER_FLAG_ACTIVATED);;
  modify (λ k, set_timer_pending (t :: timer_pending k) k);;
  tm ← timer_at t;
  call_timeout (tm_timeout_func tm) (tm_parameter tm);;
  list ← gets timer_pending;
  when (negb (bool_decide (list = [])))
    (_rt_timer_remove t;;
     flag ← timer_flag t;
     when (negb (Z.land flag RT_TIMER_FLAG_PERIODIC =? 0)
           && negb (Z.land flag RT_TIMER_FLAG_ACTIVATED =? 0))
       (timer_flag_clear t RT_TIMER_FLAG_ACTIVATED;;
        rt_timer_start t;;
        mret tt)).

(** The while loop. *)
Fixpoint timer_check_loop (fuel : nat) (current_tick : Z) : K unit :=
  match fuel with
  | O => fail
  | S fuel =>
      l ← gets timer_list;
      match l with
      | [] => mret tt
      | t :: _ =>
          tm ← timer_at t;
          if u32 (current_tick - tm_timeout_tick tm) <? TICK_HALF then
            timer_expire t;;
            current_tick ← rt_tick_get;
            timer_check_loop fuel current_tick
          else mret tt
      end
  end.
Definition rt_timer_check (fuel : nat) : K unit :=
  modify (set_timer_pending []);;
  current_tick ← rt_tick_get;
  timer_check_loop fuel current_tick.

Definition rt_tick_increase (fuel : nat) : K unit :=
  modify (λ k, set_rt_tick (u32 (rt_tick k + 1)) k);;
  thread ← current;
  upd_thread thread (λ th, set_th_remaining_tick (u32 (th_remaining_tick th - 1)) th);;
  th ← thread_at thread;
  when (th_remaining_tick th =? 0)
    (upd_thread thread (λ th, set_th_remaining_tick (th_init_tick th) th);;
     rt_thread_yield;;
     mret tt);;
  rt_timer_check fuel.

(** HAL_IncTick counts a tick of the HAL's own. *)
Definition SysTick_Handler (fuel : nat) : K unit :=
  rt_interrupt_enter;;
  rt_tick_increase fuel;;
  rt_interrupt_leave.

(** * Timeouts *)

Lemma due_iff now t :
  -1 ≤ tdist now t < TICK_HALF → u32 (now - t) < TICK_HALF ↔ tdist now t ≤ 0.
Proof.
  change TICK_HALF with 2147483647. unfold tdist, s32, u32. intros. Z.div_mod_to_equations. lia.
Qed.

Definition due (k : kernel) (p : optr) : Prop := ∃ d, timer_dist k p = Some d ∧ d ≤ 0.
(** A thread after its timeout. *)
Definition woken (th : rt_thread) : rt_thread :=
  with_stat RT_THREAD_READY (set_th_error (- RT_ETIMEOUT) th).

(** Only the timers of threads are active. *)
Definition thread_timers (k : kernel) : Prop := Forall (λ p, ∃ t, p = ThTimer t) (timer_list k).

(** [k'] after the timeouts of the threads in [ts], whose timers were active. *)
Record timeouts (ts : list Z) (k k' : kernel) : Prop := {
  tt_woken : ∀ t, t ∈ ts → ∃ th, threads k !! t = Some th ∧ stat_of th = RT_THREAD_SUSPEND ∧
    threads k' !! t = Some (woken th);
  tt_other : ∀ t, t ∉ ts → threads k' !! t = threads k !! t;
  tt_timers : timers k' = timers k;
  tt_frame : iframe k k';
  tt_waiting : ∀ h t, (∀ p, h ≠ LReady p) → t ∈ tl h k' → t ∈ tl h k;
  tt_objects : same_objects k k'
}.
Lemma tt_tick ts k k' : timeouts ts k k' → rt_tick k' = rt_tick k.
Proof. intros H. apply (tt_frame _ _ _ H). Qed.
Lemma tt_lock ts k k' : timeouts ts k k' → lock_nest k' = lock_nest k.
Proof. intros H. apply (tt_frame _ _ _ H). Qed.
Lemma timeouts_nil k : timeouts [] k k.
Proof. by constructor; try done; intros ? []%not_elem_of_nil. Qed.
Lemma timeouts_cons t ts k k1 k2 :
  t ∉ ts → timeouts [t] k k1 → timeouts ts k1 k2 → timeouts (t :: ts) k k2.
Proof.
  intros Ht H1 H2. constructor.
  - intros u [->|Hu]%elem_of_cons.
    + destruct (tt_woken _ _ _ H1 t) as (th & ? & ? & ?); [by left|]. exists th.
      rewrite (tt_other _ _ _ H2) by done. done.
    + destruct (tt_woken _ _ _ H2 u Hu) as (th & Hth & ? & ?). exists th.
      rewrite (tt_other _ _ _ H1) in Hth; [done|]. rewrite list_elem_of_singleton. by intros ->.
  - intros u Hu. rewrite not_elem_of_cons in Hu. rewrite (tt_other _ _ _ H2) by naive_solver.
    apply (tt_other _ _ _ H1). rewrite list_elem_of_singleton. naive_solver.
  - rewrite (tt_timers _ _ _ H2). apply H1.
  - transitivity k1; [apply H1|apply H2].
  - intros h u Hh Hu. apply (tt_waiting _ _ _ H1); [done|]. by apply (tt_waiting _ _ _ H2).
  - transitivity k1; [apply H1|apply H2].
Qed.

(** The timer of a thread expires. *)
Lemma timer_expire_run t l k :
  kinv (-1) k → timer_list k = ThTimer t :: l → timer_pending k = [] →
  wp (timer_expire (ThTimer t)) (λ _ k', kinv (-1) k' ∧ timer_list k' = l ∧ timer_pending k' = [] ∧
    timeouts [t] k k' ∧ runs_first k' ∧ (cur_ok k → cur_ok k')) k.
Proof.
  intros Hk El Ep. destruct (ki_active _ _ Hk t) as (th & Hth & Hst); [rewrite El; by left|].
  destruct (ki_thread _ _ Hk _ _ Hth) as [_ (o & Ho & Hc & Hp) (tm & Htm & Hf & Hpar) _];
    [by rewrite Hst|].
  assert (ThTimer t ∉ l) as Hnl.
  { pose proof (ti_nodup _ _ (ki_timer _ _ Hk)) as Hnd. rewrite El in Hnd.
    by apply NoDup_cons in Hnd as [? _]. }
  assert (lremove (ThTimer t) (timer_list k) = l) as El1.
  { by rewrite El, lremove_cons_eq, lremove_notin. }
  unfold timer_expire, timer_flag, timer_flag_clear, _rt_timer_remove. wp_simpl.
  fold (drop_timer (ThTimer t) k). eapply wp_object_at; [done|]. wp_simpl. rewrite Hp. simpl. wp_simpl.
  eapply wp_upd_object; [done|]. wp_simpl. set (o1 := set_o_flag _ o).
  set (k1 := set_timer_pending (_ :: _) _). eapply wp_timer_at; [done|]. wp_simpl. rewrite Hf, Hpar.
  assert (same_timer_object o o1) as Hso1 by (split_and!; [done..|]; apply land_clear_2).
  assert (same_objects k k1) as Hos1 by (by apply (same_objects_insert k k1 t o o1)).
  assert (kinv (-1) k1) as Hk1.
  { apply (kinv_moves (-1) (-1) k k1); try done.
    - apply (sched_inv_ext _ k); try done. apply Hk.
    - apply (timer_inv_ext (-1) (set_objects (<[ThTimer t := o1]> (objects (drop_timer (ThTimer t) k)))
          (drop_timer (ThTimer t) k)));
        try done. apply timer_inv_object; [apply drop_timer_inv, Hk|].
      simpl. rewrite elem_of_lremove. naive_solver.
    - eauto.
    - intros u. simpl. rewrite elem_of_lremove. intros [? _]. by apply (ki_active _ _ Hk). }
  eapply wp_mono; [apply (rt_thread_timeout_run (-1) k1 t th); try done|].
  { simpl. rewrite elem_of_lremove. naive_solver. }
  intros [] k3 (k2 & Hm & El2 & Ets2 & Eo2 & Ep2 & Hk3 & Hsch). wp_simpl.
  assert (cur_ok k → cur_ok k3) as Hcur.
  { intros Hc0. eapply (scheduled_cur_ok (-1) k2); [apply Hm| |done].
    eapply moved_cur_ok; [done| |done]. by rewrite stat_of_with_stat. }
  pose proof (scheduled_runs_first _ _ Hsch) as Hrf.
  destruct Hm as [Hk2 Hf2 Eth2 Htl2 Ho2].
  destruct Hsch as ((c & q & ->) & Hs1 & Hs2). simpl. rewrite Ep2.
  rewrite (bool_decide_eq_false_2 (timer_pending k1 = [])) by done. simpl. wp_simpl.
  eapply wp_object_at; [simpl; rewrite Eo2; simpl; by rewrite lookup_insert_eq|]. wp_simpl.
  rewrite (proj2 (proj2 Hso1)), Hp. simpl. wp_simpl.
  set (k4 := set_timer_pending _ _).
  assert (timer_list k4 = l) as El4.
  { simpl. rewrite El2. simpl. rewrite El1. by apply lremove_notin. }
  assert (timer_pending k4 = []) as Ep4.
  { simpl. rewrite Ep2. simpl. by rewrite lremove_cons_eq, Ep. }
  split; [|split; [done|split; [done|split; [|split; [exact Hrf|done]]]]].
  - eapply (kinv_lists _ (set_timer_pending [] (set_current_thread c (set_current_priority q k2)))).
    + by eapply (kinv_pending).
    + constructor; try done. rewrite El4. simpl. by rewrite El2.
    + apply (sched_inv_ext _ k2); try done. apply Hk2.
  - constructor; simpl; try done.
    + intros u ->%list_elem_of_singleton. exists th. rewrite Eth2. simpl. by rewrite lookup_insert_eq.
    + intros u Hu. rewrite list_elem_of_singleton in Hu. rewrite Eth2. simpl.
      by rewrite lookup_insert_ne.
    + transitivity k2; [|by constructor]. transitivity k1; [by constructor|by apply kframe_iframe].
    + intros h u Hh. change (u ∈ tl h k2 → u ∈ tl h k). rewrite Htl2. unfold tl_ready.
      rewrite decide_False by apply Hh. rewrite elem_of_lremove. by intros [? _].
    + transitivity k1; [done|]. transitivity k2; [done|]. by apply same_objects_eq.
Qed.

Lemma kinv_lo lo lo' k :
  kinv lo k → (∀ p d, p ∈ timer_list k → timer_dist k p = Some d → lo' ≤ d) → kinv lo' k.
Proof.
  intros [Hs Ht Ho Hth Ha] Hd. constructor; try done. destruct (Ht) as [H1 H2 H3 H4 H5 H6]. constructor; try done.
  intros p Hp. destruct (H3 p Hp) as (d & Hpd & ?). exists d. split; [done|].
  split; [by eapply Hd|lia].
Qed.
Lemma timer_dist_eq k k' p :
  timers k' = timers k → rt_tick k' = rt_tick k → timer_dist k' p = timer_dist k p.
Proof. intros E1 E2. unfold timer_dist. by rewrite E1, E2. Qed.

(** The loop runs the timeouts of the timers that are due, a prefix of the
    list, and stops. *)
Lemma timer_check_loop_run l : ∀ k fuel,
  kinv (-1) k → timer_list k = l → thread_timers k → timer_pending k = [] → (length l < fuel)%nat →
  wp (timer_check_loop fuel (rt_tick k)) (λ _ k', kinv 1 k' ∧ timer_pending k' = [] ∧
    (cur_ok k → cur_ok k') ∧ (runs_first k → runs_first k') ∧
    ∃ ts l2, l = (ThTimer <$> ts) ++ l2 ∧ timer_list k' = l2 ∧
      Forall (due k) (ThTimer <$> ts) ∧ Forall (λ p, ¬ due k p) l2 ∧ timeouts ts k k') k.
Proof.
  induction l as [|p l IH]; intros k [|fuel] Hk El Htt Ep Hfuel; try (simpl in Hfuel; lia);
    cbn [timer_check_loop]; wp_simpl; rewrite El; cbn iota.
  { apply wp_ret. split; [|split; [done|split; [done|split; [done|]]]].
    - eapply kinv_lo; [done|]. rewrite El. by intros ? ? ?%not_elem_of_nil.
    - exists [], []. split_and!; try done; [by apply Forall_nil..|]. by apply timeouts_nil. }
  pose proof Htt as Htt0. unfold thread_timers in Htt. rewrite El in Htt. apply Forall_cons in Htt as [[t ->] Htt].
  destruct (ti_dist _ _ (ki_timer _ _ Hk) (ThTimer t)) as (d & Hd & Hd0); [rewrite El; by left|].
  unfold timer_dist in Hd. destruct (timers k !! ThTimer t) as [tm|] eqn:Etm; [|done]. simpl in Hd.
  injection Hd as <-. wp_simpl. eapply wp_timer_at; [done|]. wp_simpl.
  pose proof (due_iff _ _ Hd0) as Hiff.
  assert (timer_dist k (ThTimer t) = Some (tdist (rt_tick k) (tm_timeout_tick tm))) as Hdt.
  { unfold timer_dist. by rewrite Etm. }
  destruct (Z.ltb_spec (u32 (rt_tick k - tm_timeout_tick tm)) TICK_HALF) as [Hlt|Hge].
  - apply Hiff in Hlt. wp_simpl. eapply wp_mono; [by apply (timer_expire_run t l)|].
    intros [] k1 (Hk1 & El1 & Ep1 & Ht1 & Hrf & Hc0). unfold rt_tick_get. wp_simpl.
    eapply wp_mono; [apply IH; try done|].
    { unfold thread_timers. by rewrite El1. } { simpl in Hfuel. lia. }
    intros [] k2 (Hk2 & Ep2 & Hcur & Hrun & ts & l2 & -> & El2 & Hdue & Hnd & Ht2).
    assert (∀ q, timer_dist k1 q = timer_dist k q) as Hdist.
    { intros q. apply timer_dist_eq; apply Ht1. }
    split; [done|]. split; [done|]. split; [auto|]. split; [auto|].
    exists (t :: ts), l2. split; [done|]. split; [done|]. split; [|split].
    + constructor; [by eexists|]. eapply Forall_impl; [exact Hdue|]. intros q. unfold due.
      by rewrite Hdist.
    + eapply Forall_impl; [exact Hnd|]. intros q. unfold due. by rewrite Hdist.
    + eapply timeouts_cons; [|done|done]. intros Hin.
      pose proof (ti_nodup _ _ (ki_timer _ _ Hk)) as Hnd2. rewrite El in Hnd2.
      apply NoDup_cons in Hnd2 as [Hn _]. apply Hn. apply elem_of_app. left.
      by apply list_elem_of_fmap_2.
  - assert (¬ tdist (rt_tick k) (tm_timeout_tick tm) ≤ 0) as Hnd by (intros ?%Hiff; lia).
    assert (∀ q e, q ∈ timer_list k → timer_dist k q = Some e → 1 ≤ e) as Hall.
    { intros q e Hq He. pose proof (ti_sorted _ _ (ki_timer _ _ Hk)) as Hs. rewrite El in Hs, Hq.
      apply StronglySorted_inv in Hs as [_ Hf]. rewrite Forall_forall in Hf.
      apply elem_of_cons in Hq as [->|Hq]; [rewrite Hdt in He; injection He as <-; lia|].
      specialize (Hf q Hq _ e Hdt He). lia. }
    apply wp_ret. split; [by eapply kinv_lo|]. do 3 (split; [done|]).
    exists [], (ThTimer t :: l). split; [done|]. split; [done|]. split; [by apply Forall_nil|].
    split; [|by apply timeouts_nil]. rewrite Forall_forall. intros q Hq (e & He & ?).
    rewrite <-El in Hq. specialize (Hall q e Hq He). lia.
Qed.

(** ** The tick *)

Lemma tdist_tick now t lo :
  0 ≤ lo → lo ≤ tdist now t < TICK_HALF → tdist (u32 (now + 1)) t = tdist now t - 1.
Proof.
  change TICK_HALF with 2147483647. unfold tdist, s32, u32. intros. Z.div_mod_to_equations. lia.
Qed.
(** A tick brings every timeout one closer. *)
Lemma kinv_tick lo k :
  0 ≤ lo → kinv lo k →
  kinv (lo - 1) (set_rt_tick (u32 (rt_tick k + 1)) k) ∧
  ∀ p d, p ∈ timer_list k → timer_dist k p = Some d →
    timer_dist (set_rt_tick (u32 (rt_tick k + 1)) k) p = Some (d - 1).
Proof.
  intros Hlo Hk. set (k' := set_rt_tick _ k).
  assert (∀ p d, p ∈ timer_list k → timer_dist k p = Some d → timer_dist k' p = Some (d - 1)) as Hd.
  { intros p d Hp Hpd. destruct (ti_dist _ _ (ki_timer _ _ Hk) p Hp) as (e & He & Hr).
    rewrite Hpd in He. injection He as <-. unfold timer_dist in *. simpl.
    destruct (timers k !! p) as [tm|]; [|done]. simpl in *. injection Hpd as <-.
    by erewrite tdist_tick. }
  split; [|done]. apply (kinv_moves lo (lo - 1) k k'); try done.
  - by apply same_objects_eq.
  - apply (sched_inv_ext _ k); try done. apply Hk.
  - destruct (ki_timer _ _ Hk) as [H1 H2 H3 H4 H5 H6]. constructor; try done.
    + intros p Hp. destruct (H3 p Hp) as (d & Hpd & ?). exists (d - 1).
      split; [by apply Hd|lia].
    + eapply StronglySorted_weaken; [|exact H4]. intros x y Hx Hy H d e.
      destruct (H3 x Hx) as (dx & Hdx & _). destruct (H3 y Hy) as (dy & Hdy & _).
      rewrite (Hd x dx), (Hd y dy) by done. intros [= <-] [= <-].
      specialize (H dx dy Hdx Hdy). lia.
    + apply u32_range.
  - eauto.
  - apply Hk.
Qed.

(** What a tick does to the thread that runs. *)
Definition ticked (th : rt_thread) : rt_thread :=
  let r := u32 (th_remaining_tick th - 1) in
  set_th_remaining_tick (if r =? 0 then th_init_tick th else r) th.

(** What a tick leaves alone. *)
Record tick_frame (k k' : kernel) : Prop := {
  tf_containers : containers k' = containers k;
  tf_sems : sems k' = sems k;
  tf_mutexes : mutexes k' = mutexes k;
  tf_events : events k' = events k;
  tf_mailboxes : mailboxes k' = mailboxes k;
  tf_mqueues : mqueues k' = mqueues k;
  tf_objects : ∀ a, objects k' !! Obj a = objects k !! Obj a;
  tf_dom : ∀ t, is_Some (threads k' !! t) → is_Some (threads k !! t);
  tf_waiting : ∀ h t, (∀ p, h ≠ LReady p) → t ∈ tl h k' → t ∈ tl h k
}.
Lemma rt_tick_increase_run k c thc fuel :
  kinv 1 k → thread_timers k → current_thread k = Some c → threads k !! c = Some thc →
  stat_of thc ≠ RT_THREAD_CLOSE → (length (timer_list k) < fuel)%nat →
  wp (rt_tick_increase fuel) (λ _ k', kinv 1 k' ∧ timer_pending k' = [] ∧
    rt_tick k' = u32 (rt_tick k + 1) ∧ lock_nest k' = lock_nest k ∧
    interrupt_nest k' = interrupt_nest k ∧ cur_ok k' ∧ timers k' = timers k ∧
    tick_frame k k' ∧ (runs_first k → runs_first k') ∧
    (∀ p d, p ∈ timer_list k → timer_dist k p = Some d → 2 ≤ d →
       p ∈ timer_list k' ∧ timer_dist k' p = Some (d - 1)) ∧
    (∀ p, p ∈ timer_list k' → p ∈ timer_list k ∧ timer_dist k p ≠ Some 1) ∧
    (∀ t th, threads k !! t = Some th →
       let th1 := if decide (t = c) then ticked th else th in
       threads k' !! t = Some
         (if bool_decide (ThTimer t ∈ timer_list k ∧ timer_dist k (ThTimer t) = Some 1)
          then woken th1 else th1))) k.
Proof.
  intros Hk Htt Hcur Hc Hst Hfuel.
  unfold rt_tick_increase, current. wp_simpl. simpl. rewrite Hcur. wp_simpl.
  set (k1 := set_rt_tick _ k). destruct (kinv_tick 1 k) as [Hk1 Hd1]; [lia|done|]. simpl in Hk1. fold k1 in Hk1, Hd1.
  eapply wp_upd_thread; [done|]. wp_simpl. set (thr := set_th_remaining_tick _ thc).
  set (k2 := set_threads _ k1).
  eapply wp_thread_at; [apply lookup_insert_eq|]. wp_simpl. simpl.
  assert (∀ v, thread_ok (set_th_remaining_tick v thc)) as Hok.
  { intros v. destruct (si_thread _ _ (ki_sched _ _ Hk) _ _ Hc). by constructor. }
  set (k3 := set_threads (<[c := ticked thc]> (threads k)) k1).
  assert (kinv 0 k3) as Hk3 by (apply (kinv_thread 0 k1 c thc); try done; apply Hok).
  assert (cur_ok k3) as Hc3.
  { exists c, (ticked thc). split; [done|]. split; [simpl; by rewrite lookup_insert_eq|done]. }
  match goal with |- if _ then _ else wp _ ?Q _ => assert (∀ k4, kinv 0 k4 → same_but_lists k3 k4 →
    iframe k3 k4 → (∀ h, (∀ p, h ≠ LReady p) → tl h k4 = tl h k3) → cur_ok k4 →
    (runs_first k → runs_first k4) →
    wp (rt_timer_check fuel) Q k4) as Hcont end.
  { intros k4 Hk4 Hsb Hfr Hw4 Hcs Hrf. unfold rt_timer_check, rt_tick_get. wp_simpl.
    set (k5 := set_timer_pending [] k4). destruct Hsb as [S1 S2 S3 S4 S5 S6 S7].
    eapply wp_mono; [apply (timer_check_loop_run (timer_list k) k5); try done|].
    { eapply kinv_lo; [by apply kinv_pending|].
      intros p d Hp Hpd. destruct (ti_dist _ _ (ki_timer _ _ Hk4) p Hp) as (e & He & ?).
      unfold timer_dist in Hpd, He. simpl in Hpd. rewrite He in Hpd. injection Hpd as <-. lia. }
    { unfold thread_timers. simpl. by rewrite S6. }
    intros [] k6 (Hk6 & Ep6 & Hc6 & Hrf6 & ts & l2 & El & El2 & Hdue & Hndue & Ht6).
    assert (∀ p, timer_dist k5 p = timer_dist k1 p) as Hd5.
    { intros p. apply timer_dist_eq; [exact S5|exact S1]. }
    assert (∀ p, timer_dist k6 p = timer_dist k1 p) as Hd6.
    { intros p. rewrite <-Hd5. apply timer_dist_eq; apply Ht6. }
    assert (∀ p, p ∈ timer_list k → ∃ d, timer_dist k p = Some d ∧ timer_dist k1 p = Some (d - 1) ∧
      1 ≤ d) as Hdk.
    { intros p Hp. destruct (ti_dist _ _ (ki_timer _ _ Hk) p Hp) as (d & Hpd & ?). exists d. auto with lia. }
    rewrite Forall_forall in Hdue, Hndue.
    assert (∀ p, p ∈ timer_list k → p ∈ ThTimer <$> ts ↔ timer_dist k p = Some 1) as Hts.
    { intros p Hp. destruct (Hdk p Hp) as (d & Hpd & Hpd1 & ?). split.
      - intros Hin. destruct (Hdue p Hin) as (e & He & ?). rewrite Hd5, Hpd1 in He.
        injection He as <-. rewrite Hpd. f_equal. lia.
      - intros E. rewrite Hpd in E. injection E as ->. rewrite El in Hp.
        apply elem_of_app in Hp as [?|Hp]; [done|]. destruct (Hndue p Hp). exists 0.
        rewrite Hd5, Hpd1. split; [done|lia]. }
    split; [done|]. split; [done|]. split; [by rewrite (tt_tick _ _ _ Ht6); simpl; rewrite S1|].
    assert (iframe k3 k6) as Hfr6 by (transitivity k4; [done|]; transitivity k5; [by constructor|apply (tt_frame _ _ _ Ht6)]).
    split; [apply Hfr6|]. split; [apply Hfr6|].
    split; [by apply Hc6|]. split; [by rewrite (tt_timers _ _ _ Ht6); simpl; rewrite S5|].
    split; [|split; [auto|]].
    { constructor; try apply Hfr6.
      - intros a. rewrite (proj2 (proj2 (tt_objects _ _ _ Ht6))). simpl. by rewrite S3.
      - intros t Ht. assert (is_Some (threads k5 !! t)) as [th Hth].
        { destruct (decide (t ∈ ts)) as [Hin|Hin].
          - destruct (tt_woken _ _ _ Ht6 t Hin) as (th & ? & _). by exists th.
          - by rewrite <-(tt_other _ _ _ Ht6). }
        simpl in Hth. rewrite S4 in Hth. simpl in Hth. destruct (decide (t = c)) as [->|Hne]; [by eexists|].
        rewrite lookup_insert_ne in Hth by done. by exists th.
      - intros h t Hh Ht. apply (tt_waiting _ _ _ Ht6) in Ht; [|done].
        change (t ∈ tl h k4) in Ht. by rewrite Hw4 in Ht. }
    split; [|split].
    - intros p d Hp Hpd Hd2. rewrite Hd6. split; [|auto]. rewrite El2.
      pose proof Hp as Hp2. rewrite El in Hp2. apply elem_of_app in Hp2 as [Hp2|]; [|done].
      apply Hts in Hp2; [|done]. rewrite Hpd in Hp2. injection Hp2. lia.
    - intros p Hp. rewrite El2 in Hp. assert (p ∈ timer_list k) as Hpk by (rewrite El; set_solver).
      split; [done|]. intros E. apply Hts in E; [|done].
      destruct (Hndue p Hp). destruct (Hdue p E) as (e & ? & ?). by exists e.
    - intros t th Hth. assert (threads k5 !! t = Some (if decide (t = c) then ticked th else th)) as Ht5.
      { simpl. rewrite S4. simpl. case_decide; [subst t; rewrite lookup_insert_eq; congruence|].
        by rewrite lookup_insert_ne. }
      cbn zeta. case_bool_decide as Hb.
      + destruct Hb as [Hin Hone]. apply Hts in Hone; [|done].
        apply list_elem_of_fmap in Hone as (t' & [= <-] & Hone).
        destruct (tt_woken _ _ _ Ht6 t Hone) as (th' & Hth' & _ & ->). congruence.
      + rewrite (tt_other _ _ _ Ht6); [done|]. intros Hin. apply Hb.
        assert (ThTimer t ∈ ThTimer <$> ts) as Hint by (by apply list_elem_of_fmap_2).
        assert (ThTimer t ∈ timer_list k) by (rewrite El; set_solver). split; [done|].
        by apply Hts. }
  destruct (Z.eqb_spec (u32 (th_remaining_tick thc - 1)) 0) as [Hz|Hz].
  - wp_simpl. eapply wp_upd_thread; [apply lookup_insert_eq|]. wp_simpl.
    match goal with |- wp _ _ ?s => replace s with k3 end.
    2:{ unfold k3, k2. simpl. unfold ticked. rewrite Hz, insert_insert_eq. done. }
    eapply wp_mono; [apply (rt_thread_yield_run 0 k3 c (ticked thc)); [done|done|]|].
    { simpl. by rewrite lookup_insert_eq. }
    intros r k4 (_ & Hk4 & Hsb & Hfr & Hc4 & Hy). wp_simpl.
    case_bool_decide as Hb; [|rewrite Hy; by apply Hcont].
    destruct Hy as (_ & Hy & Hn). apply Hcont; auto. intros _ E. apply Hn. by rewrite <-(if_lock _ _ Hfr).
  - replace k2 with k3.
    2:{ unfold k3, k2, ticked, thr. simpl. by rewrite (proj2 (Z.eqb_neq _ _) Hz). }
    apply Hcont; try done.
Qed.

(** ** Runs of ticks *)

Fixpoint rt_ticks (n fuel : nat) : K unit :=
  match n with O => mret tt | S n => rt_tick_increase fuel;; rt_ticks n fuel end.

Lemma tick_inv_length k k' :
  NoDup (timer_list k') → (∀ p, p ∈ timer_list k' → p ∈ timer_list k) →
  (length (timer_list k') ≤ length (timer_list k))%nat.
Proof. intros Hnd Hin. by apply submseteq_length, NoDup_submseteq. Qed.
Lemma ticked_keeps th : stat_of (ticked th) = stat_of th ∧ th_error (ticked th) = th_error th.
Proof. done. Qed.

Lemma rt_ticks_run n : ∀ k fuel,
  kinv 1 k → thread_timers k → cur_ok k → (length (timer_list k) < fuel)%nat →
  wp (rt_ticks n fuel) (λ _ k', kinv 1 k' ∧ cur_ok k' ∧
    ∀ t th, threads k !! t = Some th →
      ∃ th', threads k' !! t = Some th' ∧
        (ThTimer t ∉ timer_list k → stat_of th' = stat_of th ∧ th_error th' = th_error th) ∧
        ∀ d, ThTimer t ∈ timer_list k → timer_dist k (ThTimer t) = Some d →
          if decide (d ≤ Z.of_nat n) then stat_of th' = RT_THREAD_READY ∧ th_error th' = - RT_ETIMEOUT
          else stat_of th' = RT_THREAD_SUSPEND) k.
Proof.
  induction n as [|n IH]; intros k fuel Hk Htt Hcu Hfuel; cbn [rt_ticks].
  { apply wp_ret. split; [done|]. split; [done|]. intros t th Hth. exists th. split; [done|].
    split; [done|]. intros d Hin Hd. destruct (ti_dist _ _ (ki_timer _ _ Hk) _ Hin) as (e & He & ?).
    rewrite decide_False by (simplify_eq; lia).
    destruct (ki_active _ _ Hk _ Hin) as (th' & ? & ?). by simplify_eq. }
  destruct Hcu as (c & thc & Hc & Hthc & Hstc). wp_simpl.
  eapply wp_mono; [by apply (rt_tick_increase_run k c thc)|].
  intros [] k1 (Hk1 & _ & _ & _ & _ & Hcu1 & _ & _ & _ & Hlate & Hsub & Hth1).
  eapply wp_mono; [apply IH; try done|].
  { unfold thread_timers in *. rewrite Forall_forall in *. intros p Hp. apply Htt. by apply Hsub. }
  { pose proof (tick_inv_length k k1 (ti_nodup _ _ (ki_timer _ _ Hk1))) as Hlen.
    specialize (Hlen (λ p Hp, proj1 (Hsub p Hp))). lia. }
  intros [] k2 (Hk2 & Hcu2 & Hth2). split; [done|]. split; [done|]. intros t th Hth.
  specialize (Hth1 t th Hth). cbn zeta in Hth1.
  set (th0 := if decide (t = c) then ticked th else th) in *.
  assert (stat_of th0 = stat_of th ∧ th_error th0 = th_error th) as [Es Ee].
  { unfold th0. by destruct (decide (t = c)). }
  destruct (Hth2 _ _ Hth1) as (th' & Hth' & Hno & Hyes). exists th'. split; [done|]. split.
  - intros Hn. rewrite bool_decide_eq_false_2 in Hno by (by intros [? _]).
    rewrite <-Es, <-Ee. apply Hno. intros Hin. by apply Hn, Hsub.
  - intros d Hin Hd. destruct (ti_dist _ _ (ki_timer _ _ Hk) _ Hin) as (e & He & Hr). rewrite Hd in He. injection He as <-.
    destruct (Z.eq_dec d 1) as [->|Hd1].
    + rewrite bool_decide_eq_true_2 in Hno by done. rewrite decide_True by lia.
      destruct Hno as [-> ->]; [by intros [_ ?]%Hsub|]. split; [|done].
      unfold woken. by rewrite stat_of_with_stat.
    + destruct (Hlate _ _ Hin Hd) as [Hin1 Hd']; [lia|]. specialize (Hyes _ Hin1 Hd').
      rewrite (decide_ext _ (d ≤ Z.of_nat (S n))) in Hyes by lia. done.
Qed.


(** A tick: the clock advances (mod 2^32), the running thread loses a tick
    of its time slice, exactly the threads whose timeout falls on this tick
    wake with -RT_ETIMEOUT, every other timer is one tick closer. *)
Theorem rt_tick_increase_wakes k c thc fuel :
  kinv 1 k → thread_timers k → current_thread k = Some c → threads k !! c = Some thc →
  stat_of thc ≠ RT_THREAD_CLOSE → (length (timer_list k) < fuel)%nat →
  wp (rt_tick_increase fuel) (λ _ k', kinv 1 k' ∧ rt_tick k' = u32 (rt_tick k + 1) ∧ cur_ok k' ∧
    (∀ p d, p ∈ timer_list k → timer_dist k p = Some d → 2 ≤ d →
       p ∈ timer_list k' ∧ timer_dist k' p = Some (d - 1)) ∧
    (∀ p, p ∈ timer_list k' → p ∈ timer_list k ∧ timer_dist k p ≠ Some 1) ∧
    (∀ t th, threads k !! t = Some th →
       let th1 := if decide (t = c) then ticked th else th in
       threads k' !! t = Some
         (if bool_decide (ThTimer t ∈ timer_list k ∧ timer_dist k (ThTimer t) = Some 1)
          then woken th1 else th1))) k.
Proof.
  intros. eapply wp_mono; [by apply (rt_tick_increase_run k c thc)|].
  intros [] k' (? & _ & ? & _ & _ & ? & _ & _ & _ & ? & ? & ?). split_and!; try done.
Qed.

(** What is left of the timeouts after a timer was armed for a tick or more. *)
Lemma armed_kinv k k' t tick :
  kinv 1 k → kinv 0 k' → rt_tick k' = rt_tick k → thread_timers k → armed t tick k k' →
  1 ≤ tick < TICK_HALF →
  kinv 1 k' ∧ thread_timers k' ∧ timer_dist k' (ThTimer t) = Some tick.
Proof.
  intros Hk Hk1 Et Htt (tm & Htm & Ets & Hin & Hl) Htick.
  assert (timer_dist k' (ThTimer t) = Some tick) as Hdt.
  { unfold timer_dist. rewrite Ets, Et, lookup_insert_eq. simpl. f_equal.
    pose proof (ti_tick _ _ (ki_timer _ _ Hk)). change TICK_HALF with 2147483647 in Htick.
    unfold tdist, s32, u32. Z.div_mod_to_equations. lia. }
  split; [|split; [|done]].
  - eapply kinv_lo; [done|]. intros p d Hp Hpd. destruct (decide (p = ThTimer t)) as [->|Hne].
    + simplify_eq. lia.
    + assert (timer_dist k p = Some d) as Hpd'.
      { rewrite <-Hpd. unfold timer_dist. by rewrite Ets, Et, lookup_insert_ne. }
      apply Hl in Hp; [|done]. destruct (ti_dist _ _ (ki_timer _ _ Hk) p Hp) as (e & He & ?). simplify_eq. lia.
  - unfold thread_timers in *. rewrite Forall_forall in *. intros q Hq.
    destruct (decide (q = ThTimer t)) as [->|Hne]; [eauto|]. by apply Htt, Hl.
Qed.
Lemma kinv_1_0 k : kinv 1 k → kinv 0 k.
Proof.
  intros Hk. eapply kinv_lo; [done|]. intros p d Hp Hd.
  destruct (ti_dist _ _ (ki_timer _ _ Hk) p Hp) as (e & He & ?). simplify_eq. lia.
Qed.

(** C6. A thread that sleeps [tick] ticks is SUSPENDed for the first [tick - 1]
    ticks of the clock and READY from the [tick]-th on, across a wrap of the
    tick counter too. *)
Theorem rt_thread_sleep_lasts k t th tick n fuel :
  kinv 1 k → lock_nest k = 0 → thread_timers k → current_thread k = Some t →
  threads k !! t = Some th → stat_of th = RT_THREAD_READY → other_ready t k →
  1 ≤ tick < TICK_HALF → (S (length (timer_list k)) < fuel)%nat →
  wp (rt_thread_sleep tick;; rt_ticks n fuel) (λ _ k', kinv 1 k' ∧ ∃ th',
    threads k' !! t = Some th' ∧
    if decide (tick ≤ Z.of_nat n) then stat_of th' = RT_THREAD_READY ∧ th_error th' = - RT_ETIMEOUT
    else stat_of th' = RT_THREAD_SUSPEND) k.
Proof.
  intros Hk Hn Htt Hcur Hth Hst Hother Htick Hfuel. wp_simpl.
  eapply wp_mono; [apply (rt_thread_sleep_run 0 k t th); try done; [by apply kinv_1_0|lia]|].
  intros r k1 (_ & Hk1 & Eth & _ & Ha & Hf & _ & Hcu & _).
  destruct (armed_kinv k k1 t tick) as (Hk1' & Htt1 & Hdt); try done; [apply Hf|].
  destruct Ha as (tm & Htm & Ets & Hin & Hl).
  assert (length (timer_list k1) ≤ S (length (timer_list k)))%nat as Hlen.
  { change (S (length (timer_list k))) with (length (ThTimer t :: timer_list k)).
    apply submseteq_length, NoDup_submseteq; [apply (ti_nodup _ _ (ki_timer _ _ Hk1'))|].
    intros q Hq. destruct (decide (q = ThTimer t)) as [->|Hne]; [by left|]. right. by apply Hl. }
  eapply wp_mono; [apply rt_ticks_run; try done; lia|].
  intros [] k2 (Hk2 & _ & Hall). split; [done|].
  destruct (Hall t (with_stat RT_THREAD_SUSPEND th)) as (th' & Hth' & _ & Hyes).
  { by rewrite Eth, lookup_insert_eq. }
  exists th'. split; [done|]. by apply Hyes.
Qed.
End clock.
