(* ===== verification/Ipc.v ===== *)
(** What the IPC objects of os/ipc.c share: the list of suspended threads of an
    object (FIFO or by priority), waking its first thread or all of them, and
    the wait of the running thread with an optional timeout. *)
From S2P Require Import Prelude Kservice Mem KState Sched Object Timer Thread.

(** timeout -= rt_tick_get() - tick_delta; if (timeout < 0) timeout = 0; *)
Definition remaining_timeout (timeout tick_delta now : Z) : Z :=
  if 0 <? timeout then
    let timeout := s32 (timeout - u32 (now - tick_delta)) in
    if timeout <? 0 then 0 else timeout
  else timeout.

Section ipc.
Context `{CB : Callbacks}.

(** rt_ipc_object_init, and rt_list_init of a second list; threads on the old
    list would be lost. *)
Definition list_head_init (h : lhead) : K unit :=
  λ k, match tl h k with [] => Some (tt, put_tl h [] k) | _ => None end.
Definition rt_ipc_object_init (h : lhead) : K Z := list_head_init h;; mret RT_EOK.

(** The index of the first thread that waits with a lower priority. *)
Fixpoint prio_position (prio : Z) (l : list Z) : K nat :=
  match l with
  | [] => mret O
  | n :: l =>
      sthread ← thread_at n;
      if prio <? th_current_priority sthread then mret O
      else i ← prio_position prio l; mret (S i)
  end.
Definition rt_ipc_list_suspend (h : lhead) (thread flag : Z) : K Z :=
  rt_thread_suspend thread;;
  (if flag =? RT_IPC_FLAG_FIFO then tlist_insert_before h thread
   else if flag =? RT_IPC_FLAG_PRIO then
     th ← thread_at thread;
     l ← gets (tl h);
     n ← prio_position (th_current_priority th) l;
     tlist_insert_nth h n thread
   else mret tt);;
  mret RT_EOK.

Definition rt_ipc_list_resume (h : lhead) : K Z :=
  thread ← tlist_first h;
  rt_thread_resume thread;;
  mret RT_EOK.

(** The loop goes round once per thread, unless a thread on the list is not
    SUSPENDed; then it does not end. *)
Fixpoint resume_all_loop (fuel : nat) (h : lhead) : K unit :=
  match fuel with
  | O => fail
  | S fuel =>
      l ← gets (tl h);
      match l with
      | [] => mret tt
      | thread :: _ =>
          upd_thread thread (set_th_error (- RT_ERROR));;
          rt_thread_resume thread;;
          resume_all_loop fuel h
      end
  end.
Definition rt_ipc_list_resume_all (h : lhead) : K Z :=
  n ← gets (λ k, length (tl h k));
  resume_all_loop (S n) h;;
  mret RT_EOK.

(** The common tail of the calls that wait: on the list, with the timer of the
    thread started when [time] is positive. *)
Definition ipc_suspend (h : lhead) (thread flag time : Z) : K unit :=
  rt_ipc_list_suspend h thread flag;;
  when (0 <? time) (thread_timer_start thread time).

(** ipc->parent.flag, and the checks of detach and delete *)
Definition object_flag (p : optr) : K Z := o ← object_at p; mret (o_flag o).
Definition assert_static (p : optr) (b : bool) : K unit :=
  sys ← rt_object_is_systemobject p; RT_ASSERT (Bool.eqb sys b).

(** The thread in whose name a call runs. *)
Record running (t : Z) (th : rt_thread) (k : kernel) : Prop := {
  ru_nest : interrupt_nest k = 0;
  ru_current : current_thread k = Some t;
  ru_thread : threads k !! t = Some th;
  ru_ready : stat_of th = RT_THREAD_READY
}.

(** * Who waits where *)

(** Insertion by priority: behind the threads that are not of lower priority. *)
Definition prio_of (k : kernel) (t : Z) : option Z := th_current_priority <$> threads k !! t.
Definition placed (flag : Z) (k : kernel) (t p : Z) (l l' : list Z) : Prop :=
  ∃ l1 l2, l = l1 ++ l2 ∧ l' = l1 ++ t :: l2 ∧
    if flag =? RT_IPC_FLAG_FIFO then l2 = []
    else Forall (λ u, ∀ q, prio_of k u = Some q → q ≤ p) l1 ∧
         match l2 with [] => True | u :: _ => ∃ q, prio_of k u = Some q ∧ p < q end.

Lemma prio_position_run k p l :
  (∀ u, u ∈ l → is_Some (threads k !! u)) →
  ∃ n, prio_position p l k = Some (n, k) ∧ (n ≤ length l)%nat ∧
    Forall (λ u, ∀ q, prio_of k u = Some q → q ≤ p) (take n l) ∧
    match drop n l with [] => True | u :: _ => ∃ q, prio_of k u = Some q ∧ p < q end.
Proof.
  intros Hl. induction l as [|u l IH]; [by exists O|].
  destruct (Hl u) as [th Hth]; [by left|].
  destruct IH as (n & E & Hn & H1 & H2); [intros v Hv; apply Hl; by right|].
  cbn [prio_position]. unfold thread_at, deref, mbind, M_bind. rewrite Hth. simpl.
  destruct (Z.ltb_spec p (th_current_priority th)).
  - exists O. split; [done|]. split; [simpl; lia|]. split; [done|]. simpl.
    exists (th_current_priority th). unfold prio_of. by rewrite Hth.
  - rewrite E. exists (S n). split; [done|]. split; [simpl; lia|]. split; [|done].
    simpl. constructor; [|done]. intros q. unfold prio_of. rewrite Hth. by intros [= <-].
Qed.

Lemma wp_object_flag k p o (Q : Z → kernel → Prop) :
  objects k !! p = Some o → Q (o_flag o) k → wp (object_flag p) Q k.
Proof. intros Ho HQ. unfold object_flag. wp_simpl. by eapply wp_object_at. Qed.

Definition ipc_flag (p : optr) (k : kernel) : Z := default 0 (o_flag <$> objects k !! p).
(** The error of a thread is its own. *)
Lemma kinv_error lo k t th e :
  kinv lo k → threads k !! t = Some th → stat_of th ≠ RT_THREAD_CLOSE →
  kinv lo (set_threads (<[t := set_th_error e th]> (threads k)) k).
Proof.
  intros Hk Hth Hc. apply (kinv_thread lo k t th); try done.
  destruct (si_thread _ _ (ki_sched _ _ Hk) _ _ Hth). by constructor.
Qed.

Lemma other_ready_set k t th :
  other_ready t k → other_ready t (set_threads (<[t := th]> (threads k)) k).
Proof.
  intros (u & thu & Hne & Hu & Hs). exists u, thu. simpl. by rewrite lookup_insert_ne.
Qed.

Definition ipc_head (h : lhead) : Prop := match h with LSuspend _ | LSender _ => True | _ => False end.
Lemma ready_not_waiting k t th h :
  sched_inv k → threads k !! t = Some th → stat_of th = RT_THREAD_READY → ipc_head h → t ∉ tl h k.
Proof.
  intros Hi Hth Hst Hh Hin. destruct (si_fits _ _ Hi _ _ Hin) as (th' & ? & Hf). simplify_eq.
  destruct h; simpl in Hh, Hf; try done; by rewrite Hst in Hf.
Qed.

(** [t] waits: SUSPENDed, on the list [h] in its place and on no other. *)
Record waits (lo t : Z) (th : rt_thread) (h : lhead) (flag : Z) (k k' : kernel) : Prop := {
  wt_inv : kinv lo k';
  wt_frame : iframe k k';
  wt_objects : same_objects k k';
  wt_threads : threads k' = <[t := with_stat RT_THREAD_SUSPEND th]> (threads k);
  wt_placed : placed flag k t (th_current_priority th) (tl h k) (tl h k');
  wt_tl : ∀ h', h' ≠ h → tl h' k' = lremove t (tl h' k)
}.

Lemma rt_ipc_list_suspend_run lo k t th h flag :
  kinv lo k → threads k !! t = Some th → stat_of th = RT_THREAD_READY → ipc_head h →
  flag = RT_IPC_FLAG_FIFO ∨ flag = RT_IPC_FLAG_PRIO →
  wp (rt_ipc_list_suspend h t flag) (λ r k', r = RT_EOK ∧ waits lo t th h flag k k' ∧ kframe k k' ∧
    timer_list k' = lremove (ThTimer t) (timer_list k) ∧ timers k' = timers k) k.
Proof.
  intros Hk Hth Hst Hh Hflag. unfold rt_ipc_list_suspend. wp_simpl.
  eapply wp_mono; [by apply (rt_thread_suspend_run lo)|].
  intros r k1 (_ & [Hk1 Hf1 Eth1 Htl1 Ho1] & El1 & Ets1). wp_simpl.
  set (th1 := with_stat _ th) in *.
  assert (threads k1 !! t = Some th1) as Hth1 by (by rewrite Eth1, lookup_insert_eq).
  assert (stat_of th1 = RT_THREAD_SUSPEND) as Hst1 by by apply stat_of_with_stat.
  assert (detached t k1) as Hd1.
  { intros h'. rewrite Htl1, elem_of_lremove. naive_solver. }
  assert (t ∉ tl h k) as Hn by (eapply ready_not_waiting; [apply Hk|done..]).
  assert (tl h k1 = tl h k) as Etl by (by rewrite Htl1, lremove_notin).
  assert (∀ l', placed flag k t (th_current_priority th) (tl h k) l' →
    waits lo t th h flag k (put_tl h l' k1) ∧ kframe k (put_tl h l' k1)) as Hput.
  { intros l' Hpl. assert (kframe k (put_tl h l' k1)) as Hf by (transitivity k1; [done|by constructor]).
    split; [|done]. constructor.
    - apply (kinv_lists lo k1); [done|by constructor|].
      apply (sched_put k1 t th1); try done; [apply Hk1|destruct h; done|destruct h; done|].
      destruct Hpl as (l1 & l2 & El & -> & _). rewrite Etl, El. by rewrite Permutation_middle.
    - by apply kframe_iframe.
    - transitivity k1; [done|by apply same_objects_eq].
    - done.
    - rewrite tl_put, decide_True by done. done.
    - intros h' Hne. by rewrite tl_put, decide_False, Htl1. }
  destruct Hflag as [->| ->]; simpl; wp_simpl.
  - apply wp_tlist_insert_before; [exact Hd1|]. wp_simpl. split; [done|]. rewrite Etl.
    destruct (Hput (tl h k ++ [t])) as [??]; [|done]. exists (tl h k), []. by rewrite app_nil_r.
  - eapply wp_thread_at; [done|]. wp_simpl. rewrite Etl.
    destruct (prio_position_run k1 (th_current_priority th1) (tl h k)) as (n & E & Hle & H1 & H2).
    { intros u Hu. rewrite <-Etl in Hu. destruct (si_fits _ _ (ki_sched _ _ Hk1) _ _ Hu) as (x & ? & _).
      by eexists. }
    rewrite (wp_run _ _ _ _ _ E). apply wp_tlist_insert_nth; [exact Hd1|]. wp_simpl.
    split; [done|]. rewrite Etl.
    destruct (Hput (take n (tl h k) ++ t :: drop n (tl h k))) as [??]; [|done].
    assert (∀ u, u ∈ tl h k → prio_of k1 u = prio_of k u) as Hpo.
    { intros u Hu. unfold prio_of. rewrite Eth1, lookup_insert_ne; [done|]. by intros <-. }
    exists (take n (tl h k)), (drop n (tl h k)). split; [by rewrite take_drop|]. split; [done|]. simpl.
    split.
    + rewrite Forall_forall in *. intros u Hu q Hq. apply (H1 u Hu).
      rewrite Hpo; [done|]. rewrite <-(take_drop n (tl h k)). set_solver.
    + destruct (drop n (tl h k)) as [|u l] eqn:Ed; [done|]. destruct H2 as (q & Hq & ?).
      exists q. split; [|done]. rewrite <-Hpo; [done|].
      rewrite <-(take_drop n (tl h k)), Ed. set_solver.
Qed.

(** The timer of a thread that waits: armed when there is a timeout. *)
Definition timed (t time : Z) (k k' : kernel) : Prop :=
  if 0 <? time then armed t time k k'
  else timers k' = timers k ∧ timer_list k' = lremove (ThTimer t) (timer_list k).

Lemma ipc_suspend_run lo k t th h flag time :
  -1 ≤ lo ≤ 0 → kinv lo k → threads k !! t = Some th → stat_of th = RT_THREAD_READY → ipc_head h →
  flag = RT_IPC_FLAG_FIFO ∨ flag = RT_IPC_FLAG_PRIO → time < TICK_HALF →
  wp (ipc_suspend h t flag time) (λ _ k', waits lo t th h flag k k' ∧ kframe k k' ∧ timed t time k k') k.
Proof.
  intros Hlo Hk Hth Hst Hh Hflag Htime. unfold ipc_suspend, timed. wp_simpl.
  eapply wp_mono; [by apply (rt_ipc_list_suspend_run lo k t th)|].
  intros r k1 (_ & [Hk1 Hf1 Ho1 Eth1 Hpl1 Htl1] & Hkf1 & El1 & Ets1). wp_simpl.
  destruct (Z.ltb_spec 0 time) as [Ht|Ht].
  2:{ split_and!; try done. }
  set (th1 := with_stat _ th) in *.
  eapply wp_mono; [apply (thread_timer_start_run lo k1 t th1); try done; [|by apply stat_of_with_stat|lia]|].
  { by rewrite Eth1, lookup_insert_eq. }
  intros [] k2 (Hk2 & Hf2 & Eth2 & Etl2 & Eg2 & Ho2 & tm & Htm & Ets2 & Hin & Hl).
  assert (kframe k k2) as Hkf by by transitivity k1.
  split; [|split; [done|]].
  - constructor; try done.
    + by apply kframe_iframe.
    + by transitivity k1.
    + by rewrite Eth2.
    + unfold tl in *. by rewrite Etl2.
    + unfold tl in *. by rewrite Etl2.
  - exists tm. rewrite Ets1 in Htm, Ets2. rewrite (kf_tick _ _ Hkf1) in Ets2.
    split_and!; try done. intros q Hq. rewrite Hl, El1, elem_of_lremove by done. naive_solver.
Qed.

Lemma waits_switch lo t th h flag k k1 k2 :
  waits lo t th h flag k k1 → switch_frame k1 k2 → kinv lo k2 → waits lo t th h flag k k2.
Proof.
  intros [] Hs Hk2. pose proof (switch_iframe _ _ Hs). destruct Hs as (c & p & ->).
  constructor; try done. by transitivity k1.
Qed.

(** The whole wait, up to the moment another thread runs. *)
Lemma ipc_block_run lo k t th h flag time :
  -1 ≤ lo ≤ 0 → kinv lo k → threads k !! t = Some th → stat_of th = RT_THREAD_READY → ipc_head h →
  flag = RT_IPC_FLAG_FIFO ∨ flag = RT_IPC_FLAG_PRIO → time < TICK_HALF → other_ready t k →
  wp (ipc_suspend h t flag time;; rt_schedule) (λ _ k',
    waits lo t th h flag k k' ∧ timed t time k k' ∧
    (lock_nest k = 0 → ∃ u, u ≠ t ∧ current_thread k' = Some u ∧ next_to_run u k')) k.
Proof.
  intros Hlo Hk Hth Hst Hh Hflag Htime Hother. wp_simpl.
  eapply wp_mono; [by apply (ipc_suspend_run lo k t th)|].
  intros [] k1 (Hw & Hkf & Ht).
  eapply wp_mono; [apply (schedule_run lo); [apply Hw|]|].
  { eapply other_ready_some; [done|apply Hw]. }
  intros [] k2 [Hk2 (Hs & H1 & H2)]. split; [by eapply waits_switch|].
  pose proof Hs as (c & q & E2). split; [by rewrite E2|].
  intros Hn. destruct H1 as (u & Hu & Hnx); [by rewrite (kf_lock _ _ Hkf)|].
  exists u. split; [|split; [done|by rewrite E2]]. intros ->.
  destruct Hnx as (p & l & _ & El & _). destruct h; simpl in Hh; try done;
    (rewrite (wt_tl _ _ _ _ _ _ _ Hw) in El by done;
     assert (t ∈ lremove t (tl (LReady p) k)) as [_ ?]%elem_of_lremove by (rewrite El; by left); done).
Qed.

Lemma ipc_block_wp {A} lo k t th h flag time (f : unit → K A) (Q : A → kernel → Prop) :
  -1 ≤ lo ≤ 0 → kinv lo k → threads k !! t = Some th → stat_of th = RT_THREAD_READY → ipc_head h →
  flag = RT_IPC_FLAG_FIFO ∨ flag = RT_IPC_FLAG_PRIO → time < TICK_HALF → other_ready t k →
  (∀ k', waits lo t th h flag k k' → timed t time k k' →
     (lock_nest k = 0 → ∃ u, u ≠ t ∧ current_thread k' = Some u ∧ next_to_run u k') →
     wp (f tt) Q k') →
  wp (ipc_suspend h t flag time) (λ _ k1, wp (rt_schedule ≫= f) Q k1) k.
Proof.
  intros ? ? ? ? ? ? ? ? HQ. apply (wp_mono _ (λ _ k1, wp rt_schedule (λ a k2, wp (f a) Q k2) k1)).
  - apply (proj1 (wp_bind _ (λ _, rt_schedule) _ _)).
    eapply wp_mono; [by apply (ipc_block_run lo k t th)|]. intros [] k' (? & ? & ?). auto.
  - intros [] k1. apply wp_bind.
Qed.

Lemma placed_priorities flag k k1 t p l l' :
  (∀ u, u ∈ l → prio_of k1 u = prio_of k u) → placed flag k1 t p l l' → placed flag k t p l l'.
Proof.
  intros Hpo (l1 & l2 & E1 & E2 & Hp). exists l1, l2. split; [done|]. split; [done|].
  destruct (flag =? RT_IPC_FLAG_FIFO); [done|]. destruct Hp as [Hp1 Hp2]. split.
  - rewrite Forall_forall in *. intros u Hu q. rewrite <-Hpo by set_solver. by apply Hp1.
  - destruct l2; [done|]. destruct Hp2 as (q & Hq & ?). exists q. rewrite <-Hpo by set_solver. done.
Qed.
Lemma prio_of_set k t th th' u :
  threads k !! t = Some th → th_current_priority th' = th_current_priority th →
  prio_of (set_threads (<[t := th']> (threads k)) k) u = prio_of k u.
Proof.
  intros Hth E. unfold prio_of. simpl. destruct (decide (u = t)) as [->|Hne].
  - rewrite lookup_insert_eq, Hth. simpl. by rewrite E.
  - by rewrite lookup_insert_ne.
Qed.

(** A thread that waits and whose time is over. *)
Lemma timeout_wake_run k t th :
  kinv 0 k → threads k !! t = Some th → stat_of th = RT_THREAD_SUSPEND →
  wp (rt_timer_stop (ThTimer t);; rt_thread_timeout t) (λ _ k', kinv 0 k' ∧ iframe k k' ∧ same_objects k k' ∧
    threads k' = <[t := with_stat RT_THREAD_READY (set_th_error (- RT_ETIMEOUT) th)]> (threads k) ∧
    (∀ h, ipc_head h → tl h k' = lremove t (tl h k))) k.
Proof.
  intros Hk Hth Hst. destruct (ki_thread _ _ Hk _ _ Hth) as [_ (ot & Hot & Hct & _) _ _]; [by rewrite Hst|].
  wp_simpl. eapply wp_mono; [apply (rt_timer_stop_run 0 k _ ot); [apply Hk|done|done]|].
  intros r2 k2 (_ & Hti2 & [Hf2 [Eth2 [Etl2 Eg2]]] & Ets2 & Elt2 & o' & Eo2 & Hso & _).
  assert (same_objects k k2) as Hos2 by (by apply (same_objects_insert k k2 t ot o')).
  assert (kinv 0 k2) as Hk2.
  { apply (kinv_moves 0 0 k k2); try done; [apply Hf2| |rewrite Eth2; eauto|].
    - apply (sched_inv_ext _ k); try done. apply Hk.
    - intros u. rewrite Elt2, Eth2, elem_of_lremove. intros [? _]. by apply (ki_active _ _ Hk). }
  eapply wp_mono; [apply (rt_thread_timeout_run 0 k2 t th); try done|].
  { by rewrite Eth2. } { rewrite Elt2, elem_of_lremove. naive_solver. }
  intros [] k4 (k3 & [Hk3 Hf3 Eth3 Htl3 Ho3] & _ & _ & _ & _ & Hk4 & Hs & _ & _).
  split; [done|]. pose proof (switch_iframe _ _ Hs). destruct Hs as (c & q & ->). split; [|split; [|split]].
  - transitivity k3; [|done]. apply kframe_iframe. by transitivity k2.
  - by transitivity k2.
  - simpl. by rewrite Eth3, Eth2.
  - intros h Hh. change (tl h k3 = lremove t (tl h k)). rewrite Htl3. unfold tl_ready, tl.
    by rewrite decide_False, Etl2 by by destruct h.
Qed.

(** Waking the first thread of a list. *)
Lemma rt_ipc_list_resume_run lo k h t l :
  kinv lo k → ipc_head h → tl h k = t :: l →
  ∃ th, threads k !! t = Some th ∧ stat_of th = RT_THREAD_SUSPEND ∧
  wp (rt_ipc_list_resume h) (λ r k', r = RT_EOK ∧
    moved lo t (with_stat RT_THREAD_READY th) (tl_ready t th k) k k' ∧ tl h k' = l ∧
    timer_list k' = lremove (ThTimer t) (timer_list k) ∧ timers k' = timers k) k.
Proof.
  intros Hk Hh El. destruct (si_fits _ _ (ki_sched _ _ Hk) h t) as (th & Hth & Hf); [rewrite El; by left|].
  assert (stat_of th = RT_THREAD_SUSPEND) as Hst by by destruct h.
  exists th. split; [done|]. split; [done|]. unfold rt_ipc_list_resume. wp_simpl.
  eapply wp_tlist_first; [done|]. wp_simpl.
  eapply wp_mono; [by apply (rt_thread_resume_run lo)|].
  intros r k1 (-> & Hm & El1 & Ets1 & _). wp_simpl. split; [done|]. split; [done|]. split; [|done].
  rewrite (mv_tl _ _ _ _ _ _ Hm). unfold tl_ready. rewrite decide_False by by destruct h.
  pose proof (si_nodup _ _ (ki_sched _ _ Hk) h) as Hnd. rewrite El in Hnd |- *.
  apply NoDup_cons in Hnd as [? _]. by rewrite lremove_cons_eq, lremove_notin.
Qed.

(** [ts] are READY again with the error [err]; [k] and [k'] differ in nothing else
    but lists and timers. *)
Record released (lo err : Z) (ts : list Z) (k k' : kernel) : Prop := {
  rl_inv : kinv lo k';
  rl_frame : kframe k k';
  rl_objects : same_objects k k';
  rl_woken : ∀ t, t ∈ ts → ∃ th, threads k !! t = Some th ∧ stat_of th = RT_THREAD_SUSPEND ∧
    threads k' !! t = Some (with_stat RT_THREAD_READY (set_th_error err th));
  rl_other : ∀ t, t ∉ ts → threads k' !! t = threads k !! t
}.
Lemma resume_all_loop_run lo l : ∀ k h fuel,
  kinv lo k → ipc_head h → tl h k = l → (length l < fuel)%nat →
  wp (resume_all_loop fuel h) (λ _ k', released lo (- RT_ERROR) l k k' ∧ tl h k' = [] ∧
    (∀ h', h' ≠ h → ipc_head h' → tl h' k' = tl h' k)) k.
Proof.
  induction l as [|t l IH]; intros k h [|fuel] Hk Hh El Hfuel; try (simpl in Hfuel; lia);
    cbn [resume_all_loop]; wp_simpl; rewrite El; cbn iota.
  { apply wp_ret. split; [|done]. constructor; try done. by intros ? ?%not_elem_of_nil. }
  destruct (si_fits _ _ (ki_sched _ _ Hk) h t) as (th & Hth & Hf); [rewrite El; by left|].
  assert (stat_of th = RT_THREAD_SUSPEND) as Hst by by destruct h.
  pose proof (si_nodup _ _ (ki_sched _ _ Hk) h) as Hnd. rewrite El in Hnd.
  apply NoDup_cons in Hnd as [Htl Hnd].
  wp_simpl. eapply wp_upd_thread; [done|]. wp_simpl. set (th1 := set_th_error _ th).
  set (k1 := set_threads _ k).
  assert (kinv lo k1) as Hk1.
  { apply (kinv_thread lo k t th); try done; [by rewrite Hst|].
    destruct (si_thread _ _ (ki_sched _ _ Hk) _ _ Hth). by constructor. }
  eapply wp_mono; [apply (rt_thread_resume_run lo k1 t th1); [done| |done]|].
  { simpl. by rewrite lookup_insert_eq. }
  intros r k2 (_ & [Hk2 Hf2 Eth2 Htl2 Ho2] & _ & _). wp_simpl.
  assert (∀ h', ipc_head h' → tl h' k2 = lremove t (tl h' k)) as Htl2'.
  { intros h' Hh'. rewrite Htl2. unfold tl_ready. by rewrite decide_False by by destruct h'. }
  eapply wp_mono; [apply (IH k2 h fuel); try done|].
  { rewrite Htl2', El, lremove_cons_eq, lremove_notin; done. } { simpl in Hfuel. lia. }
  intros [] k3 ([Hk3 Hf3 Ho3 Hw3 Hn3] & Hnil & Hoth). split; [|split; [done|]].
  - constructor; try done.
    + transitivity k2; [|done]. transitivity k1; [by constructor|done].
    + transitivity k2; [|done]. transitivity k1; [by apply same_objects_eq|done].
    + intros u [->|Hu]%elem_of_cons.
      * exists th. rewrite Hn3, Eth2, lookup_insert_eq by done. done.
      * destruct (Hw3 u Hu) as (thu & Hthu & ? & ?). exists thu. split; [|done].
        rewrite Eth2 in Hthu. simpl in Hthu.
        by rewrite !lookup_insert_ne in Hthu by (by intros ->).
    + intros u [Hne Hu]%not_elem_of_cons. rewrite Hn3, Eth2 by done. simpl.
      by rewrite !lookup_insert_ne.
  - intros h' Hne Hh'. rewrite Hoth, Htl2' by done. apply lremove_notin.
    intros Hin. apply Hne. eapply (si_one _ _ (ki_sched _ _ Hk) _ _ t); [done|]. rewrite El. by left.
Qed.
Lemma rt_ipc_list_resume_all_run lo k h :
  kinv lo k → ipc_head h →
  wp (rt_ipc_list_resume_all h) (λ r k', r = RT_EOK ∧ released lo (- RT_ERROR) (tl h k) k k' ∧
    tl h k' = [] ∧ (∀ h', h' ≠ h → ipc_head h' → tl h' k' = tl h' k)) k.
Proof.
  intros Hk Hh. unfold rt_ipc_list_resume_all. wp_simpl.
  eapply wp_mono; [apply (resume_all_loop_run lo (tl h k)); try done; lia|].
  intros [] k' ?. by apply wp_ret.
Qed.

(** ** Order among the waiting *)

(** Waiting threads in the order of their priorities. *)
Definition prio_sorted (k : kernel) (l : list Z) : Prop :=
  ∀ i j u v p q, (i < j)%nat → l !! i = Some u → l !! j = Some v →
    prio_of k u = Some p → prio_of k v = Some q → p ≤ q.

Lemma lookup_insert_cases {A} (l1 l2 : list A) x i u :
  (l1 ++ x :: l2) !! i = Some u →
  (i < length l1)%nat ∧ l1 !! i = Some u ∨ i = length l1 ∧ u = x ∨
  (length l1 < i)%nat ∧ l2 !! (i - S (length l1))%nat = Some u.
Proof.
  intros Hi. destruct (lt_eq_lt_dec i (length l1)) as [[Hl| ->]|Hl].
  - left. by rewrite lookup_app_l in Hi.
  - right. left. rewrite lookup_app_r, Nat.sub_diag in Hi by lia. by injection Hi.
  - right. right. split; [done|]. rewrite lookup_app_r in Hi by lia.
    by replace (i - length l1)%nat with (S (i - S (length l1))) in Hi by lia.
Qed.
Lemma prio_sorted_insert k k' t p l1 l2 :
  (∀ u q, prio_of k' u = Some q → (u = t ∧ q = p) ∨ (u ≠ t ∧ prio_of k u = Some q)) →
  t ∉ l1 ++ l2 → prio_sorted k (l1 ++ l2) →
  Forall (λ u, ∀ q, prio_of k u = Some q → q ≤ p) l1 →
  Forall (λ u, ∀ q, prio_of k u = Some q → p < q) l2 →
  prio_sorted k' (l1 ++ t :: l2).
Proof.
  intros Hpo Hnt Hs H1 H2 i j u v a b Hij Hu Hv Ha Hb. rewrite Forall_forall in H1, H2.
  assert (∀ n w, l1 !! n = Some w → w ∈ l1) as M1 by (intros; by eapply list_elem_of_lookup_2).
  assert (∀ n w, l2 !! n = Some w → w ∈ l2) as M2 by (intros; by eapply list_elem_of_lookup_2).
  apply Hpo in Ha, Hb.
  apply lookup_insert_cases in Hu as [[Hi Hu]|[[-> ->]|[Hi Hu]]];
    apply lookup_insert_cases in Hv as [[Hj Hv]|[[-> ->]|[Hj Hv]]]; try lia.
  - destruct Ha as [[-> _]|[_ Ha]]; [by apply M1 in Hu; set_solver|].
    destruct Hb as [[-> _]|[_ Hb]]; [by apply M1 in Hv; set_solver|].
    apply (Hs i j u v); try done; by rewrite lookup_app_l.
  - destruct Ha as [[-> _]|[_ Ha]]; [by apply M1 in Hu; set_solver|].
    destruct Hb as [[_ ->]|[? _]]; [|done]. by eapply H1; [eapply M1|].
  - destruct Ha as [[-> _]|[_ Ha]]; [by apply M1 in Hu; set_solver|].
    destruct Hb as [[-> _]|[_ Hb]]; [by apply M2 in Hv; set_solver|].
    specialize (H1 u (M1 _ _ Hu) a Ha). specialize (H2 v (M2 _ _ Hv) b Hb). lia.
  - destruct Ha as [[_ ->]|[? _]]; [|done].
    destruct Hb as [[-> _]|[_ Hb]]; [by apply M2 in Hv; set_solver|].
    specialize (H2 v (M2 _ _ Hv) b Hb). lia.
  - destruct Ha as [[-> _]|[_ Ha]]; [by apply M2 in Hu; set_solver|].
    destruct Hb as [[-> _]|[_ Hb]]; [by apply M2 in Hv; set_solver|].
    apply (Hs (i - 1)%nat (j - 1)%nat u v); try done; [lia|..];
      (rewrite lookup_app_r by lia); [rewrite <-Hu|rewrite <-Hv]; f_equal; lia.
Qed.

(** C12. A thread that starts to wait: on a FIFO object it is last; on a PRIO
    object whose waiters are in the order of their priorities it comes behind
    all waiters of its own or a higher priority and before all of a lower one,
    and the order is kept. No other list changes but the ready list it leaves. *)
Theorem rt_ipc_list_suspend_order k t th h flag :
  kinv 0 k → threads k !! t = Some th → stat_of th = RT_THREAD_READY → ipc_head h →
  flag = RT_IPC_FLAG_FIFO ∨ flag = RT_IPC_FLAG_PRIO → prio_sorted k (tl h k) →
  wp (rt_ipc_list_suspend h t flag) (λ r k', r = RT_EOK ∧ kinv 0 k' ∧
    (∀ h', h' ≠ h → tl h' k' = lremove t (tl h' k)) ∧
    if flag =? RT_IPC_FLAG_FIFO then tl h k' = tl h k ++ [t]
    else prio_sorted k' (tl h k') ∧ ∃ l1 l2, tl h k = l1 ++ l2 ∧ tl h k' = l1 ++ t :: l2 ∧
      Forall (λ u, ∀ q, prio_of k u = Some q → q ≤ th_current_priority th) l1 ∧
      Forall (λ u, ∀ q, prio_of k u = Some q → th_current_priority th < q) l2) k.
Proof.
  intros Hk Hth Hst Hh Hflag Hs. eapply wp_mono; [by apply (rt_ipc_list_suspend_run 0 k t th)|].
  intros r k' (-> & [Hk' _ _ Eth (l1 & l2 & El & El' & Hp) Htl] & _). split; [done|]. split; [done|].
  split; [done|]. destruct (flag =? RT_IPC_FLAG_FIFO).
  { subst l2. rewrite El', El. by rewrite app_nil_r. }
  destruct Hp as [H1 H2].
  assert (Forall (λ u, ∀ q, prio_of k u = Some q → th_current_priority th < q) l2) as H2'.
  { destruct l2 as [|u l2]; [by apply Forall_nil|]. destruct H2 as (p & Hp & Hlt).
    rewrite Forall_forall. intros v Hv q Hq. apply list_elem_of_lookup in Hv as [[|j] Hj].
    - injection Hj as ->. simplify_eq. lia.
    - assert (p ≤ q); [|lia].
      apply (Hs (length l1) (length l1 + S j)%nat u v p q); [lia|..]; try done; rewrite El.
      + rewrite lookup_app_r, Nat.sub_diag by lia. done.
      + rewrite lookup_app_r by lia. by replace (length l1 + S j - length l1)%nat with (S j) by lia. }
  split; [|by exists l1, l2].
  assert (∀ u q, prio_of k' u = Some q → (u = t ∧ q = th_current_priority th) ∨ (u ≠ t ∧ prio_of k u = Some q)) as Hpo.
  { intros u q. unfold prio_of. rewrite Eth. destruct (decide (u = t)) as [->|Hne].
    - rewrite lookup_insert_eq. intros [= <-]. by left.
    - rewrite lookup_insert_ne by done. by right. }
  assert (t ∉ tl h k) as Hnt by (eapply ready_not_waiting; [apply Hk|done..]).
  rewrite El'. apply (prio_sorted_insert k k' t (th_current_priority th)); try done; by rewrite <-El.
Qed.
End ipc.
