(* ===== verification/Sem.v ===== *)
(** Counting semaphores of os/ipc.c. *)
From S2P Require Import Prelude Kservice Mem KState Sched Object Timer Thread ThreadInit Ipc.

Section sem.
Context `{CB : Callbacks}.

Definition sem_value (sem : Z) : K Z := deref sems sem.
Definition set_sem_value (sem value : Z) : K unit :=
  modify (λ k, set_sems (<[sem := value]> (sems k)) k).

Definition rt_sem_init (sem : Z) (name : list Z) (value flag : Z) : K Z :=
  RT_ASSERT (negb (sem =? 0));;
  RT_ASSERT (value <? 65536);;
  rt_object_init (Obj sem) RT_Object_Class_Semaphore name;;
  rt_ipc_object_init (LSuspend sem);;
  set_sem_value sem (u16 value);;
  upd_object (Obj sem) (set_o_flag flag);;
  mret RT_EOK.

Definition rt_sem_detach (sem : Z) : K Z :=
  assert_class (Obj sem) RT_Object_Class_Semaphore;;
  assert_static (Obj sem) true;;
  rt_ipc_list_resume_all (LSuspend sem);;
  rt_object_detach (Obj sem);;
  mret RT_EOK.

Definition rt_sem_create (name : list Z) (value flag : Z) : K Z :=
  RT_DEBUG_NOT_IN_INTERRUPT;;
  RT_ASSERT (value <? 65536);;
  sem ← rt_object_allocate RT_Object_Class_Semaphore name;
  if sem =? 0 then mret 0 else
  rt_ipc_object_init (LSuspend sem);;
  set_sem_value sem (u16 value);;
  upd_object (Obj sem) (set_o_flag flag);;
  mret sem.

Definition rt_sem_delete (sem : Z) : K Z :=
  RT_DEBUG_NOT_IN_INTERRUPT;;
  assert_class (Obj sem) RT_Object_Class_Semaphore;;
  assert_static (Obj sem) false;;
  rt_ipc_list_resume_all (LSuspend sem);;
  rt_object_delete sem;;
  modify (λ k, set_sems (delete sem (sems k)) k);;
  mret RT_EOK.

(** [time] is an rt_int32_t: 0 does not wait, negative waits without timeout. *)
Definition rt_sem_take (sem time : Z) : K (call Z Z) :=
  assert_class (Obj sem) RT_Object_Class_Semaphore;;
  value ← sem_value sem;
  if 0 <? value then
    set_sem_value sem (value - 1);;
    mret (Ret RT_EOK)
  else if time =? 0 then mret (Ret (- RT_ETIMEOUT))
  else
    RT_DEBUG_IN_THREAD_CONTEXT;;
    thread ← current;
    upd_thread thread (set_th_error RT_EOK);;
    flag ← object_flag (Obj sem);
    ipc_suspend (LSuspend sem) thread flag time;;
    rt_schedule;;
    mret (Wait thread).
Definition rt_sem_take_resume (thread : Z) : K Z :=
  th ← thread_at thread;
  if negb (th_error th =? RT_EOK) then mret (th_error th) else mret RT_EOK.

Definition rt_sem_trytake (sem : Z) : K (call Z Z) := rt_sem_take sem 0.

Definition rt_sem_release (sem : Z) : K Z :=
  assert_class (Obj sem) RT_Object_Class_Semaphore;;
  l ← gets (tl (LSuspend sem));
  if negb (bool_decide (l = [])) then
    rt_ipc_list_resume (LSuspend sem);;
    rt_schedule;;
    mret RT_EOK
  else
    value ← sem_value sem;
    if value <? RT_SEM_VALUE_MAX then
      set_sem_value sem (value + 1);;
      mret RT_EOK
    else mret (- RT_EFULL).

Definition rt_sem_control (sem cmd arg : Z) : K Z :=
  assert_class (Obj sem) RT_Object_Class_Semaphore;;
  if cmd =? RT_IPC_CMD_RESET then
    let value := arg in
    rt_ipc_list_resume_all (LSuspend sem);;
    set_sem_value sem (u16 value);;
    rt_schedule;;
    mret RT_EOK
  else mret (- RT_ERROR).

(** * Properties *)

(** A semaphore: its object, and no one waits while the value is positive. *)
Record sem_ok (s v : Z) (k : kernel) : Prop := {
  so_value : sems k !! s = Some v;
  so_range : 0 ≤ v ≤ RT_SEM_VALUE_MAX;
  so_idle : 0 < v → tl (LSuspend s) k = [];
  so_object : ∃ o, objects k !! Obj s = Some o ∧ class_of o = RT_Object_Class_Semaphore ∧
    (o_flag o = RT_IPC_FLAG_FIFO ∨ o_flag o = RT_IPC_FLAG_PRIO)
}.

Lemma kinv_sems lo m k : kinv lo k → kinv lo (set_sems m k).
Proof.
  intros Hk. by apply (kinv_same lo k).
Qed.
Lemma sem_ok_value s v v' k :
  sem_ok s v k → 0 ≤ v' ≤ RT_SEM_VALUE_MAX → (0 < v' → tl (LSuspend s) k = []) →
  sem_ok s v' (set_sems (<[s := v']> (sems k)) k).
Proof. intros [] Hr Hi. constructor; try done. simpl. by rewrite lookup_insert_eq. Qed.

(** A new semaphore. *)
Lemma rt_sem_init_run lo k s name value flag :
  kinv lo k → may_schedule k → 0 ≤ lock_nest k < 32766 → fresh_object s k →
  is_Some (containers k !! RT_Object_Class_Semaphore) → readable 8 name → is_bytes name →
  0 ≤ value < 65536 → flag = RT_IPC_FLAG_FIFO ∨ flag = RT_IPC_FLAG_PRIO →
  wp (rt_sem_init s name value flag) (λ r k', r = RT_EOK ∧ kinv lo k' ∧ sem_ok s value k' ∧
    ∃ c p os cs tls, k' = set_current_thread c (set_current_priority p (set_objects os
        (set_containers cs (set_tlists tls (set_sems (<[s := value]> (sems k)) k))))) ∧
      (lock_nest k = 0 → is_Some (current_thread k) → ∃ u, c = Some u ∧ next_to_run u k) ∧
      (∀ a, a ≠ s → os !! Obj a = objects k !! Obj a) ∧ (∀ h, tl h k' = tl h k) ∧
      (∀ i, is_Some (containers k !! i) → is_Some (cs !! i))) k.
Proof.
  intros Hk Hm Hln Hfr Hc Hrd Hb Hv Hfl. pose proof Hfr as [H0 _ Hnt Hnth Htl].
  unfold rt_sem_init, rt_ipc_object_init, set_sem_value. wp_simpl.
  split; [by rewrite (proj2 (Z.eqb_neq s 0))|]. split; [apply Z.ltb_lt; lia|].
  eapply wp_mono; [by apply (object_init_kinv lo k s)|].
  intros [] k1 (Hk1 & c & p & o & cs & Ek1 & Hrun & Hcl & Hcs). wp_simpl.
  assert (tl (LSuspend s) k1 = []) as Htl1 by (by subst k1).
  unfold list_head_init, wp at 1. rewrite Htl1. wp_simpl.
  rewrite u16_small by lia. set (k2 := set_sems _ (put_tl _ _ k1)).
  assert (∀ h, tl h k2 = tl h k1) as Etl.
  { intros h. change (tl h (put_tl (LSuspend s) [] k1) = tl h k1). rewrite tl_put.
    by case_decide as E; [rewrite E|]. }
  assert (kinv lo k2) as Hk2.
  { apply (kinv_lists lo k1); [done|by constructor|]. apply (sched_permute None k1); [apply Hk1|done|done|].
    intros h. by rewrite Etl. }
  set (o2 := set_o_flag flag o).
  assert (objects k2 = <[Obj s := o]> (objects k)) as Eo by (by subst k1).
  eapply wp_upd_object; [rewrite Eo; apply lookup_insert_eq|]. apply wp_ret. rewrite Eo, insert_insert_eq.
  fold o2. set (k3 := set_objects _ k2).
  assert (kinv lo k3) as Hk3.
  { unfold k3. rewrite <-(insert_insert_eq (objects k) (Obj s) o2 o), <-Eo.
    apply (kinv_object lo k2 s o); [done|rewrite Eo; apply lookup_insert_eq|done|done|by subst k1]. }
  split; [done|]. split; [done|]. split.
  - constructor; simpl; [by subst k1; rewrite lookup_insert_eq|unfold RT_SEM_VALUE_MAX, RT_UINT16_MAX; lia| |].
    + intros _. change (tl (LSuspend s) k2 = []). by rewrite Etl.
    + exists o2. by rewrite lookup_insert_eq.
  - exists c, p, (<[Obj s := o2]> (objects k)), cs, (tlists k2). split; [by subst k1|]. split; [done|].
    split; [intros a Ha; rewrite lookup_insert_ne; [done|congruence]|]. split; [|done].
    intros h. change (tl h k2 = tl h k). rewrite Etl. by subst k1.
Qed.
Lemma sem_ok_move s v k k' :
  sem_ok s v k → sems k' = sems k → objects k' !! Obj s = objects k !! Obj s →
  (0 < v → tl (LSuspend s) k' = []) → sem_ok s v k'.
Proof. intros [] E1 E2 Hi. constructor; rewrite ?E1, ?E2; done. Qed.

(** Taking a semaphore of value 0 with a timeout. *)
Lemma rt_sem_take_block_run lo k s t th time :
  -1 ≤ lo ≤ 0 → kinv lo k → sem_ok s 0 k → interrupt_nest k = 0 → current_thread k = Some t →
  threads k !! t = Some th → stat_of th = RT_THREAD_READY → other_ready t k →
  time ≠ 0 → time < TICK_HALF →
  wp (rt_sem_take s time) (λ r k', r = Wait t ∧ sem_ok s 0 k' ∧ kinv lo k' ∧
    threads k' = <[t := with_stat RT_THREAD_SUSPEND (set_th_error RT_EOK th)]> (threads k) ∧
    placed (ipc_flag (Obj s) k) k t (th_current_priority th) (tl (LSuspend s) k) (tl (LSuspend s) k') ∧
    (∀ h, h ≠ LSuspend s → tl h k' = lremove t (tl h k)) ∧ iframe k k' ∧ same_objects k k' ∧
    timed t time k k' ∧
    (lock_nest k = 0 → ∃ u, u ≠ t ∧ current_thread k' = Some u ∧ next_to_run u k')) k.
Proof.
  intros Hlo Hk Hs Hn Hcur Hth Hst Hother Ht0 Htime.
  destruct (so_object _ _ _ Hs) as (o & Ho & Hc & Hflag).
  unfold rt_sem_take, sem_value, RT_DEBUG_IN_THREAD_CONTEXT, RT_DEBUG_NOT_IN_INTERRUPT, current.
  wp_simpl. eapply assert_class_run; [done..|]. wp_simpl.
  eapply wp_deref; [apply Hs|]. simpl. rewrite (proj2 (Z.eqb_neq _ _) Ht0). wp_simpl.
  rewrite Hcur. split; [done|]. rewrite Hn. split; [done|]. wp_simpl.
  eapply wp_upd_thread; [done|]. wp_simpl. set (th1 := set_th_error _ th). set (k1 := set_threads _ k).
  eapply wp_object_flag; [done|]. wp_simpl.
  assert (kinv lo k1) as Hk1 by (apply kinv_error; [done|done|by rewrite Hst]).
  assert (threads k1 !! t = Some th1) as Hth1 by (simpl; by rewrite lookup_insert_eq).
  eapply (ipc_block_wp lo k1 t th1); try done; [by apply other_ready_set|].
  intros k2 [Hk2 Hf2 Ho2 Eth2 Hpl2 Htl2] Ht Hnx. apply wp_ret.
  split; [done|]. split; [|split; [done|split; [|split; [|split; [done|split; [|split; [|split; [done|done]]]]]]]].
  - apply (sem_ok_move s 0 k); [done|apply Hf2|apply Ho2|lia].
  - rewrite Eth2. simpl. by rewrite insert_insert_eq.
  - eapply (placed_priorities _ k k1); [intros u _; by eapply prio_of_set|].
    unfold ipc_flag. by rewrite Ho.
  - transitivity k1; [by constructor|done].
  - transitivity k1; [by apply same_objects_eq|done].
Qed.

(** Releasing a semaphore that threads wait for. *)
Lemma rt_sem_release_wake_run lo k s t l :
  kinv lo k → sem_ok s 0 k → tl (LSuspend s) k = t :: l →
  ∃ th, threads k !! t = Some th ∧ stat_of th = RT_THREAD_SUSPEND ∧
  wp (rt_sem_release s) (λ r k', r = RT_EOK ∧ sem_ok s 0 k' ∧ kinv lo k' ∧ tl (LSuspend s) k' = l ∧
    threads k' = <[t := with_stat RT_THREAD_READY th]> (threads k) ∧
    (∀ h, tl h k' = tl_ready t th k h) ∧ iframe k k' ∧ same_objects k k' ∧
    timer_list k' = lremove (ThTimer t) (timer_list k) ∧
    (lock_nest k = 0 → ∃ u, current_thread k' = Some u ∧ next_to_run u k')) k.
Proof.
  intros Hk Hs El. destruct (so_object _ _ _ Hs) as (o & Ho & Hc & Hflag).
  destruct (rt_ipc_list_resume_run lo k (LSuspend s) t l Hk I El) as (th & Hth & Hst & Hwp).
  exists th. split; [done|]. split; [done|]. unfold rt_sem_release. wp_simpl.
  eapply assert_class_run; [done..|]. wp_simpl. rewrite El. simpl. wp_simpl.
  eapply wp_mono; [exact Hwp|]. intros r k1 (-> & Hm & El1 & Etl1 & _). wp_simpl.
  eapply wp_mono; [apply (schedule_run lo); [apply Hm|eapply moved_ready; [done|by apply stat_of_with_stat]]|].
  intros [] k2 [Hk2 ((c & q & ->) & H1 & _)]. apply wp_ret. destruct Hm as [Hk1 Hf1 Eth1 Htl1 Ho1].
  split; [done|]. split; [|split; [done|split; [done|split; [done|split; [done|split; [|split; [|split; [done|]]]]]]]].
  - apply (sem_ok_move s 0 k); [done|apply Hf1|apply Ho1|lia].
  - transitivity k1; [by apply kframe_iframe|by constructor].
  - transitivity k1; [done|by apply same_objects_eq].
  - intros Hn. destruct H1 as (u & Hu & Hnx); [by rewrite (kf_lock _ _ Hf1)|]. by exists u.
Qed.

(** Taking a semaphore that is available returns RT_EOK and takes one off
    its value; an unavailable one without waiting returns -RT_ETIMEOUT. Nothing
    else changes. *)
Theorem rt_sem_take_nowait k s v time :
  kinv 0 k → sem_ok s v k → (0 < v ∨ time = 0) →
  wp (rt_sem_take s time) (λ r k',
    if 0 <? v then r = Ret RT_EOK ∧ k' = set_sems (<[s := v - 1]> (sems k)) k ∧ sem_ok s (v - 1) k'
    else r = Ret (- RT_ETIMEOUT) ∧ k' = k) k.
Proof.
  intros Hk Hs Hv. destruct (so_object _ _ _ Hs) as (o & Ho & Hc & Hflag).
  pose proof (so_range _ _ _ Hs). unfold rt_sem_take, sem_value, set_sem_value.
  wp_simpl. eapply assert_class_run; [done..|]. wp_simpl. eapply wp_deref; [apply Hs|].
  destruct (Z.ltb_spec 0 v) as [Hp|Hp]; wp_simpl.
  - split; [done|]. split; [done|]. apply (sem_ok_value s v); [done|lia|].
    intros _. by apply (so_idle _ _ _ Hs).
  - destruct Hv as [?| ->]; [lia|]. by apply wp_ret.
Qed.

(** Taking a semaphore of value 0 with a timeout suspends the running
    thread in its place on the semaphore's list, with its timer armed when the
    timeout is positive, and gives the CPU to the thread first in line; the
    value stays 0. *)
Theorem rt_sem_take_waits k s t th time :
  kinv 0 k → sem_ok s 0 k → interrupt_nest k = 0 → lock_nest k = 0 → current_thread k = Some t →
  threads k !! t = Some th → stat_of th = RT_THREAD_READY → other_ready t k →
  time ≠ 0 → time < TICK_HALF →
  wp (rt_sem_take s time) (λ r k', r = Wait t ∧ kinv 0 k' ∧ sem_ok s 0 k' ∧
    placed (ipc_flag (Obj s) k) k t (th_current_priority th) (tl (LSuspend s) k) (tl (LSuspend s) k') ∧
    (∀ h, h ≠ LSuspend s → tl h k' = lremove t (tl h k)) ∧ timed t time k k' ∧
    (∃ th', threads k' = <[t := th']> (threads k) ∧ stat_of th' = RT_THREAD_SUSPEND) ∧
    ∃ u, u ≠ t ∧ current_thread k' = Some u ∧ next_to_run u k') k.
Proof.
  intros Hk Hs Hn Hl Hcur Hth Hst Hother Ht0 Htime.
  eapply wp_mono; [apply (rt_sem_take_block_run 0 k s t th); try done; lia|].
  intros r k' (-> & ? & ? & Eth & ? & ? & _ & _ & ? & Hu). split_and!; try done; [|auto].
  eexists. split; [done|]. by apply stat_of_with_stat.
Qed.

(** Releasing: with waiting threads the first of them becomes READY and the
    value stays 0; without, the value grows by one, and at 65535 the call
    returns -RT_EFULL and changes nothing. *)
Theorem rt_sem_release_wakes k s v :
  kinv 0 k → sem_ok s v k →
  wp (rt_sem_release s) (λ r k', kinv 0 k' ∧
    match tl (LSuspend s) k with
    | t :: l => r = RT_EOK ∧ v = 0 ∧ sem_ok s 0 k' ∧ tl (LSuspend s) k' = l ∧
        (ThTimer t ∉ timer_list k') ∧
        (∃ th th', threads k !! t = Some th ∧ stat_of th = RT_THREAD_SUSPEND ∧
           threads k' = <[t := th']> (threads k) ∧ stat_of th' = RT_THREAD_READY ∧
           tl (LReady (th_current_priority th)) k' = tl (LReady (th_current_priority th)) k ++ [t]) ∧
        (lock_nest k = 0 → ∃ u, current_thread k' = Some u ∧ next_to_run u k')
    | [] => if v <? RT_SEM_VALUE_MAX
            then r = RT_EOK ∧ k' = set_sems (<[s := v + 1]> (sems k)) k ∧ sem_ok s (v + 1) k'
            else r = - RT_EFULL ∧ k' = k
    end) k.
Proof.
  intros Hk Hs. destruct (so_object _ _ _ Hs) as (o & Ho & Hc & Hflag).
  pose proof (so_range _ _ _ Hs). destruct (tl (LSuspend s) k) as [|t l] eqn:El.
  - unfold rt_sem_release, sem_value, set_sem_value. wp_simpl.
    eapply assert_class_run; [done..|]. wp_simpl. rewrite El. simpl. wp_simpl.
    eapply wp_deref; [apply Hs|]. wp_simpl.
    destruct (Z.ltb_spec v RT_SEM_VALUE_MAX); wp_simpl; [|done].
    split; [by apply kinv_sems|]. split; [done|]. split; [done|].
    apply (sem_ok_value s v); [done|lia|done].
  - assert (v = 0) as ->.
    { destruct (Z_lt_le_dec 0 v) as [Hv|]; [|lia]. apply (so_idle _ _ _ Hs) in Hv. congruence. }
    destruct (rt_sem_release_wake_run 0 k s t l Hk Hs El) as (th & Hth & Hst & Hwp).
    eapply wp_mono; [exact Hwp|].
    intros r k' (-> & Hs' & Hk' & El' & Eth & Htl & Hf & _ & Elt & Hu). split; [done|].
    split; [done|]. split; [done|]. split; [done|]. split; [done|]. split.
    { rewrite Elt, elem_of_lremove. naive_solver. }
    split; [|done]. eexists _, _. split; [done|]. split; [done|]. split; [done|].
    split; [by apply stat_of_with_stat|]. rewrite Htl. unfold tl_ready. by rewrite decide_True.
Qed.

(** Hand-over: a thread that waits alone for a semaphore and is woken by a
    release returns RT_EOK from [rt_sem_take], the value still 0: the release
    was passed on, not counted. Woken by its timeout instead, it returns
    -RT_ETIMEOUT. *)
Theorem rt_sem_handover k s t th time :
  kinv 0 k → sem_ok s 0 k → tl (LSuspend s) k = [] → interrupt_nest k = 0 →
  current_thread k = Some t → threads k !! t = Some th → stat_of th = RT_THREAD_READY →
  other_ready t k → time ≠ 0 → time < TICK_HALF →
  wp (rt_sem_take s time;; rt_sem_release s;; rt_sem_take_resume t)
     (λ r k', r = RT_EOK ∧ kinv 0 k' ∧ sem_ok s 0 k' ∧ tl (LSuspend s) k' = []) k ∧
  wp (rt_sem_take s time;; rt_timer_stop (ThTimer t);; rt_thread_timeout t;; rt_sem_take_resume t)
     (λ r k', r = - RT_ETIMEOUT ∧ kinv 0 k' ∧ sem_ok s 0 k' ∧ tl (LSuspend s) k' = []) k.
Proof.
  intros Hk Hs El Hn Hcur Hth Hst Hother Ht0 Htime. split; wp_simpl;
    (eapply wp_mono; [apply (rt_sem_take_block_run 0 k s t th); try done; lia|]);
    intros r1 k1 (_ & Hs1 & Hk1 & Eth1 & (l1 & l2 & E1 & E2 & _) & Htl1 & Hf1 & Ht1 & _); wp_simpl;
    rewrite El in E1; destruct l1, l2; try done; simpl in E2;
    set (th1 := with_stat _ _) in Eth1;
    assert (threads k1 !! t = Some th1) as Hth1 by (by rewrite Eth1, lookup_insert_eq).
  - destruct (rt_sem_release_wake_run 0 k1 s t [] Hk1 Hs1 E2) as (th1' & Hth1' & _ & Hwp).
    simplify_eq. eapply wp_mono; [exact Hwp|].
    intros r2 k2 (_ & Hs2 & Hk2 & El2 & Eth2 & _). unfold rt_sem_take_resume. wp_simpl.
    eapply wp_thread_at; [by rewrite Eth2, lookup_insert_eq|]. simpl. by apply wp_ret.
  - assert (stat_of th1 = RT_THREAD_SUSPEND) as Hst1 by by apply stat_of_with_stat.
    pose proof (timeout_wake_run k1 t th1 Hk1 Hth1 Hst1) as Hw. rewrite wp_bind in Hw.
    eapply wp_mono; [exact Hw|]. intros r2 k2 Hw2. wp_simpl.
    eapply wp_mono; [exact Hw2|]. intros [] k4 (Hk4 & Hf & Ho & Eth4 & Htl4).
    unfold rt_sem_take_resume. wp_simpl.
    eapply wp_thread_at; [by rewrite Eth4, lookup_insert_eq|]. simpl. apply wp_ret.
    split; [done|]. split; [done|]. split.
    + apply (sem_ok_move s 0 k1); [done|apply Hf|apply Ho|lia].
    + rewrite Htl4, E2 by done. by rewrite lremove_cons_eq.
Qed.
End sem.
