(* ===== verification/Mutex.v ===== *)
(** Mutexes of os/ipc.c: recursive, with priority inheritance. *)
From S2P Require Import Prelude Kservice Mem KState Sched Object Timer Thread Ipc.

Section mutex.
Context `{CB : Callbacks}.

Definition mutex_at (m : Z) : K rt_mutex := deref mutexes m.
Definition upd_mutex (m : Z) (f : rt_mutex → rt_mutex) : K unit :=
  mx ← mutex_at m; modify (λ k, set_mutexes (<[m := f mx]> (mutexes k)) k).
Definition new_mutex : rt_mutex :=
  {| mx_value := 1; mx_original_priority := 255; mx_hold := 0; mx_owner := None |}.

Definition rt_mutex_init (mutex : Z) (name : list Z) (flag : Z) : K Z :=
  RT_ASSERT (negb (mutex =? 0));;
  rt_object_init (Obj mutex) RT_Object_Class_Mutex name;;
  rt_ipc_object_init (LSuspend mutex);;
  modify (λ k, set_mutexes (<[mutex := new_mutex]> (mutexes k)) k);;
  upd_object (Obj mutex) (set_o_flag flag);;
  mret RT_EOK.

Definition rt_mutex_detach (mutex : Z) : K Z :=
  assert_class (Obj mutex) RT_Object_Class_Mutex;;
  assert_static (Obj mutex) true;;
  rt_ipc_list_resume_all (LSuspend mutex);;
  rt_object_detach (Obj mutex);;
  mret RT_EOK.

Definition rt_mutex_create (name : list Z) (flag : Z) : K Z :=
  RT_DEBUG_NOT_IN_INTERRUPT;;
  mutex ← rt_object_allocate RT_Object_Class_Mutex name;
  if mutex =? 0 then mret 0 else
  rt_ipc_object_init (LSuspend mutex);;
  modify (λ k, set_mutexes (<[mutex := new_mutex]> (mutexes k)) k);;
  upd_object (Obj mutex) (set_o_flag flag);;
  mret mutex.

Definition rt_mutex_delete (mutex : Z) : K Z :=
  RT_DEBUG_NOT_IN_INTERRUPT;;
  assert_class (Obj mutex) RT_Object_Class_Mutex;;
  assert_static (Obj mutex) false;;
  rt_ipc_list_resume_all (LSuspend mutex);;
  rt_object_delete mutex;;
  modify (λ k, set_mutexes (delete mutex (mutexes k)) k);;
  mret RT_EOK.

(** if (mutex->hold < RT_MUTEX_HOLD_MAX) mutex->hold ++; else return -RT_EFULL;
    true when it was counted. *)
Definition mutex_hold (mutex : Z) : K bool :=
  mx ← mutex_at mutex;
  if mx_hold mx <? RT_MUTEX_HOLD_MAX then
    upd_mutex mutex (λ mx, set_mx_hold (mx_hold mx + 1) mx);; mret true
  else mret false.
Definition set_owner (mutex thread : Z) : K unit :=
  th ← thread_at thread;
  upd_mutex mutex (λ mx, set_mx_original_priority (th_current_priority th)
                          (set_mx_owner (Some thread) mx)).

Definition rt_mutex_take (mutex time : Z) : K (call Z Z) :=
  RT_DEBUG_IN_THREAD_CONTEXT;;
  assert_class (Obj mutex) RT_Object_Class_Mutex;;
  thread ← current;
  upd_thread thread (set_th_error RT_EOK);;
  mx ← mutex_at mutex;
  if bool_decide (mx_owner mx = Some thread) then
    counted ← mutex_hold mutex;
    mret (Ret (if counted : bool then RT_EOK else - RT_EFULL))
  else if 0 <? mx_value mx then
    upd_mutex mutex (λ mx, set_mx_value (mx_value mx - 1) mx);;
    set_owner mutex thread;;
    counted ← mutex_hold mutex;
    mret (Ret (if counted : bool then RT_EOK else - RT_EFULL))
  else if time =? 0 then
    upd_thread thread (set_th_error (- RT_ETIMEOUT));;
    mret (Ret (- RT_ETIMEOUT))
  else
    th ← thread_at thread;
    owner ← lift (mx_owner mx);
    oth ← thread_at owner;
    when (th_current_priority th <? th_current_priority oth)
      (rt_thread_control owner RT_THREAD_CTRL_CHANGE_PRIORITY (th_current_priority th);; mret tt);;
    flag ← object_flag (Obj mutex);
    ipc_suspend (LSuspend mutex) thread flag time;;
    rt_schedule;;
    mret (Wait thread).
Definition rt_mutex_take_resume (thread : Z) : K Z :=
  th ← thread_at thread;
  if negb (th_error th =? RT_EOK) then mret (th_error th) else mret RT_EOK.

Definition rt_mutex_release (mutex : Z) : K Z :=
  assert_class (Obj mutex) RT_Object_Class_Mutex;;
  RT_DEBUG_IN_THREAD_CONTEXT;;
  thread ← current;
  mx ← mutex_at mutex;
  if negb (bool_decide (mx_owner mx = Some thread)) then
    upd_thread thread (set_th_error (- RT_ERROR));;
    mret (- RT_ERROR)
  else
    upd_mutex mutex (λ mx, set_mx_hold (u8 (mx_hold mx - 1)) mx);;
    mx ← mutex_at mutex;
    if negb (mx_hold mx =? 0) then mret RT_EOK else
    oth ← thread_at thread;
    when (negb (mx_original_priority mx =? th_current_priority oth))
      (rt_thread_control thread RT_THREAD_CTRL_CHANGE_PRIORITY (mx_original_priority mx);; mret tt);;
    l ← gets (tl (LSuspend mutex));
    match l with
    | thread :: _ =>
        set_owner mutex thread;;
        counted ← mutex_hold mutex;
        if negb counted then mret (- RT_EFULL) else
        rt_ipc_list_resume (LSuspend mutex);;
        rt_schedule;;
        mret RT_EOK
    | [] =>
        if mx_value mx <? RT_MUTEX_VALUE_MAX then
          upd_mutex mutex (λ mx, set_mx_value (mx_value mx + 1)
                                  (set_mx_owner None (set_mx_original_priority 255 mx)));;
          mret RT_EOK
        else mret (- RT_EFULL)
    end.

Definition rt_mutex_control (mutex cmd arg : Z) : K Z :=
  assert_class (Obj mutex) RT_Object_Class_Mutex;;
  mret (- RT_ERROR).

(** * Properties *)

(** Free, and no one waits; or owned, with value 0 and as many holds as takes
    not yet released. *)
Record mutex_ok (m : Z) (mx : rt_mutex) (k : kernel) : Prop := {
  mo_mutex : mutexes k !! m = Some mx;
  mo_object : ∃ o, objects k !! Obj m = Some o ∧ class_of o = RT_Object_Class_Mutex ∧
    (o_flag o = RT_IPC_FLAG_FIFO ∨ o_flag o = RT_IPC_FLAG_PRIO);
  mo_owner : match mx_owner mx with
    | None => mx = new_mutex ∧ tl (LSuspend m) k = []
    | Some t => mx_value mx = 0 ∧ 1 ≤ mx_hold mx ≤ RT_MUTEX_HOLD_MAX ∧
        0 ≤ mx_original_priority mx < RT_THREAD_PRIORITY_MAX ∧
        (∃ th, threads k !! t = Some th ∧ stat_of th ≠ RT_THREAD_CLOSE) ∧ t ∉ tl (LSuspend m) k
    end
}.
Lemma wp_mutex_at k m mx (Q : rt_mutex → kernel → Prop) :
  mutexes k !! m = Some mx → Q mx k → wp (mutex_at m) Q k.
Proof. apply wp_deref. Qed.
Lemma wp_upd_mutex k m mx f (Q : unit → kernel → Prop) :
  mutexes k !! m = Some mx → Q tt (set_mutexes (<[m := f mx]> (mutexes k)) k) →
  wp (upd_mutex m f) Q k.
Proof. intros E HQ. unfold upd_mutex. apply wp_bind. by eapply wp_mutex_at. Qed.
Lemma wp_mutex_hold k m mx (Q : bool → kernel → Prop) :
  mutexes k !! m = Some mx → mx_hold mx < RT_MUTEX_HOLD_MAX →
  Q true (set_mutexes (<[m := set_mx_hold (mx_hold mx + 1) mx]> (mutexes k)) k) →
  wp (mutex_hold m) Q k.
Proof.
  intros E Hh HQ. unfold mutex_hold. wp_simpl. eapply wp_mutex_at; [done|].
  rewrite (proj2 (Z.ltb_lt _ _) Hh). wp_simpl. by eapply wp_upd_mutex.
Qed.
Lemma wp_set_owner k m mx t th (Q : unit → kernel → Prop) :
  mutexes k !! m = Some mx → threads k !! t = Some th →
  Q tt (set_mutexes (<[m := set_mx_original_priority (th_current_priority th)
                           (set_mx_owner (Some t) mx)]> (mutexes k)) k) →
  wp (set_owner m t) Q k.
Proof.
  intros E Hth HQ. unfold set_owner. wp_simpl. eapply wp_thread_at; [done|]. by eapply wp_upd_mutex.
Qed.

(** The head of [rt_mutex_take]: the checks, and the error of the caller reset. *)
Definition reset_error (t : Z) (th : rt_thread) (k : kernel) : kernel :=
  set_threads (<[t := set_th_error RT_EOK th]> (threads k)) k.

(** Taking a free mutex makes the caller its owner with one hold and
    remembers its priority; the owner may take it again, up to 255 holds, and
    gets -RT_EFULL beyond. *)
Theorem rt_mutex_take_owns k m mx t th time :
  kinv 0 k → mutex_ok m mx k → running t th k → mx_owner mx = None ∨ mx_owner mx = Some t →
  wp (rt_mutex_take m time) (λ r k', kinv 0 k' ∧ ∃ mx', mutex_ok m mx' k' ∧
    k' = set_mutexes (<[m := mx']> (mutexes k)) (reset_error t th k) ∧ mx_owner mx' = Some t ∧
    match mx_owner mx with
    | None => r = Ret RT_EOK ∧ mx_hold mx' = 1 ∧ mx_original_priority mx' = th_current_priority th
    | Some _ => if mx_hold mx <? RT_MUTEX_HOLD_MAX
                then r = Ret RT_EOK ∧ mx' = set_mx_hold (mx_hold mx + 1) mx
                else r = Ret (- RT_EFULL) ∧ mx' = mx
    end) k.
Proof.
  intros Hk [Hm (o & Ho & Hc & Hfl) Hown] [Hn Hcur Hth Hst] Hcase.
  unfold rt_mutex_take, RT_DEBUG_IN_THREAD_CONTEXT, RT_DEBUG_NOT_IN_INTERRUPT, current.
  wp_simpl. rewrite Hcur. split; [done|]. rewrite Hn. split; [done|]. wp_simpl.
  eapply assert_class_run; [done..|]. wp_simpl. rewrite Hcur. wp_simpl.
  eapply wp_upd_thread; [done|]. wp_simpl. fold (reset_error t th k).
  set (k1 := reset_error t th k).
  assert (kinv 0 k1) as Hk1 by (apply kinv_error; [done|done|by rewrite Hst]).
  assert (t ∉ tl (LSuspend m) k) as Htn by (eapply ready_not_waiting; [apply Hk|done..]).
  assert (∀ mx', mx_owner mx' = Some t → mx_value mx' = 0 → 1 ≤ mx_hold mx' ≤ RT_MUTEX_HOLD_MAX →
    0 ≤ mx_original_priority mx' < RT_THREAD_PRIORITY_MAX →
    kinv 0 (set_mutexes (<[m := mx']> (mutexes k)) k1) ∧
    mutex_ok m mx' (set_mutexes (<[m := mx']> (mutexes k)) k1)) as Hmk.
  { intros mx' H1 H2 H3 H4. split; [by apply (kinv_same 0 k1)|]. constructor.
    - simpl. by rewrite lookup_insert_eq.
    - by exists o.
    - rewrite H1. split; [done|]. split; [done|]. split; [done|]. split; [|done].
      exists (set_th_error RT_EOK th). simpl. rewrite lookup_insert_eq. split; [done|].
      change (stat_of th ≠ RT_THREAD_CLOSE). by rewrite Hst. }
  eapply wp_mutex_at; [done|]. wp_simpl.
  destruct Hcase as [E|E]; rewrite E in Hown |- *.
  - destruct Hown as [-> Hnil]. rewrite bool_decide_eq_false_2 by done. simpl. wp_simpl.
    eapply wp_upd_mutex; [done|]. wp_simpl.
    eapply wp_set_owner; [apply lookup_insert_eq|simpl; by rewrite lookup_insert_eq|]. wp_simpl.
    eapply wp_mutex_hold; [apply lookup_insert_eq|done|]. wp_simpl. simpl.
    rewrite !insert_insert_eq. set (mx' := set_mx_hold _ _).
    match goal with |- kinv 0 ?s ∧ _ => change s with (set_mutexes (<[m := mx']> (mutexes k)) k1) end.
    destruct (Hmk mx') as [? ?]; try done.
    { apply (to_prio _ (si_thread _ _ (ki_sched _ _ Hk) _ _ Hth)). }
    split; [done|]. by exists mx'.
  - rewrite bool_decide_eq_true_2 by done. wp_simpl. destruct Hown as (Hv & Hh & Hp & _ & _).
    destruct (Z.ltb_spec (mx_hold mx) RT_MUTEX_HOLD_MAX) as [Hlt|Hge].
    + eapply wp_mutex_hold; [done|done|]. wp_simpl.
      destruct (Hmk (set_mx_hold (mx_hold mx + 1) mx)) as [? ?]; try done; [simpl; lia|].
      split; [done|]. by eexists.
    + unfold mutex_hold. wp_simpl. eapply wp_mutex_at; [done|].
      rewrite (proj2 (Z.ltb_ge _ _) Hge). wp_simpl.
      destruct (Hmk mx) as [? ?]; try done. rewrite insert_id in * by done.
      replace (set_mutexes (mutexes k) k1) with k1 in * by (by destruct k). split; [done|].
      exists mx. rewrite insert_id by done. split_and!; try done.
Qed.

Lemma mutex_ok_owner m mx w k :
  mutex_ok m mx k → mx_owner mx = Some w →
  mx_value mx = 0 ∧ 1 ≤ mx_hold mx ≤ RT_MUTEX_HOLD_MAX ∧
  0 ≤ mx_original_priority mx < RT_THREAD_PRIORITY_MAX ∧
  (∃ th, threads k !! w = Some th ∧ stat_of th ≠ RT_THREAD_CLOSE) ∧ w ∉ tl (LSuspend m) k.
Proof. intros [_ _ Ho] E. by rewrite E in Ho. Qed.

(** Taking a mutex that another thread owns: without waiting the call
    returns -RT_ETIMEOUT (noted as the caller's error) and changes nothing
    else. *)
Theorem rt_mutex_take_busy k m mx t th w :
  kinv 0 k → mutex_ok m mx k → running t th k → mx_owner mx = Some w → w ≠ t →
  wp (rt_mutex_take m 0) (λ r k', r = Ret (- RT_ETIMEOUT) ∧
    k' = set_threads (<[t := set_th_error (- RT_ETIMEOUT) th]> (threads k)) k) k.
Proof.
  intros Hk Hmx [Hn Hcur Hth Hst] E Hne.
  destruct (mutex_ok_owner _ _ _ _ Hmx E) as (Hv & _). destruct Hmx as [Hm (o & Ho & Hc & Hfl) _].
  unfold rt_mutex_take, RT_DEBUG_IN_THREAD_CONTEXT, RT_DEBUG_NOT_IN_INTERRUPT, current.
  wp_simpl. rewrite Hcur. split; [done|]. rewrite Hn. split; [done|]. wp_simpl.
  eapply assert_class_run; [done..|]. wp_simpl. rewrite Hcur. wp_simpl.
  eapply wp_upd_thread; [done|]. wp_simpl. eapply wp_mutex_at; [done|]. wp_simpl.
  rewrite E, bool_decide_eq_false_2 by congruence. rewrite Hv. simpl. wp_simpl.
  eapply wp_upd_thread; [apply lookup_insert_eq|]. wp_simpl. simpl. rewrite insert_insert_eq.
  split; [done|]. by destruct k.
Qed.

(** C7. Waiting for a mutex: the caller is suspended in its place on the list
    with its timer armed when a timeout is given, and the owner runs at the
    higher of the two priorities from then on (priority inheritance). *)
Theorem rt_mutex_take_inherits k m mx t th w thw time :
  kinv 0 k → mutex_ok m mx k → running t th k → mx_owner mx = Some w → w ≠ t →
  threads k !! w = Some thw → lock_nest k = 0 → other_ready t k → time ≠ 0 → time < TICK_HALF →
  wp (rt_mutex_take m time) (λ r k', r = Wait t ∧ kinv 0 k' ∧ mutex_ok m mx k' ∧
    placed (ipc_flag (Obj m) k) k t (th_current_priority th) (tl (LSuspend m) k) (tl (LSuspend m) k') ∧
    (∃ th', threads k' !! t = Some th' ∧ stat_of th' = RT_THREAD_SUSPEND ∧ th_error th' = RT_EOK) ∧
    (∃ thw', threads k' !! w = Some thw' ∧ stat_of thw' = stat_of thw ∧
       th_current_priority thw' = Z.min (th_current_priority thw) (th_current_priority th)) ∧
    (0 < time → ThTimer t ∈ timer_list k') ∧
    ∃ u, u ≠ t ∧ current_thread k' = Some u ∧ next_to_run u k') k.
Proof.
  intros Hk Hmx [Hn Hcur Hth Hst] E Hne Hw Hlk Hother Ht0 Htime.
  destruct (mutex_ok_owner _ _ _ _ Hmx E) as (Hv & Hh & Hop & (thw0 & Hw0 & Hsw) & Hwn).
  simplify_eq. destruct Hmx as [Hm (o & Ho & Hc & Hfl) Hown].
  unfold rt_mutex_take, RT_DEBUG_IN_THREAD_CONTEXT, RT_DEBUG_NOT_IN_INTERRUPT, current.
  wp_simpl. rewrite Hcur. split; [done|]. rewrite Hn. split; [done|]. wp_simpl.
  eapply assert_class_run; [done..|]. wp_simpl. rewrite Hcur. wp_simpl.
  eapply wp_upd_thread; [done|]. wp_simpl. set (th1 := set_th_error _ th). set (k1 := set_threads _ k).
  eapply wp_mutex_at; [done|]. wp_simpl.
  rewrite E, bool_decide_eq_false_2 by congruence. rewrite Hv, (proj2 (Z.eqb_neq _ _) Ht0). simpl. wp_simpl.
  assert (kinv 0 k1) as Hk1 by (apply kinv_error; [done|done|by rewrite Hst]).
  eapply wp_thread_at; [apply lookup_insert_eq|]. wp_simpl.
  eapply wp_thread_at; [simpl; by rewrite lookup_insert_ne|]. wp_simpl.
  assert (t ∉ tl (LSuspend m) k) as Htn by (eapply ready_not_waiting; [apply Hk|done..]).
  match goal with |- if _ then wp _ _ _ else wp ?rest ?Q _ => assert (∀ k2 thw2, kinv 0 k2 → kframe k1 k2 →
    threads k2 = <[w := thw2]> (threads k1) → stat_of thw2 = stat_of thw →
    th_current_priority thw2 = Z.min (th_current_priority thw) (th_current_priority th) →
    tl (LSuspend m) k2 = tl (LSuspend m) k → objects k2 = objects k → timers k2 = timers k →
    wp rest Q k2) as Hcont end.
  { intros k2 thw2 Hk2 Hf2 Eth2 Es2 Ep2 Etl2 Eo2 Ets2.
    assert (threads k2 !! t = Some th1) as Hth2.
    { rewrite Eth2, lookup_insert_ne by done. simpl. by rewrite lookup_insert_eq. }
    wp_simpl. eapply wp_object_flag; [by rewrite Eo2|]. wp_simpl.
    eapply (ipc_block_wp 0 k2 t th1); try done; [|].
    { destruct Hother as (v & thv & Hvt & Hv' & Hsv). destruct (decide (v = w)) as [->|Hvw].
      - exists w, thw2. rewrite Eth2, lookup_insert_eq. split_and!; try done. simplify_eq. congruence.
      - exists v, thv. rewrite Eth2, lookup_insert_ne by done. simpl. by rewrite lookup_insert_ne. }
    intros k3 [Hk3 Hf3 Ho3 Eth3 Hpl3 Htl3] Ht3 Hnx. apply wp_ret.
    split; [done|]. split; [done|].
    assert (threads k3 !! w = Some thw2) as Hw3.
    { rewrite Eth3, lookup_insert_ne by done. by rewrite Eth2, lookup_insert_eq. }
    rewrite Etl2 in Hpl3.
    assert (placed (ipc_flag (Obj m) k) k t (th_current_priority th) (tl (LSuspend m) k)
              (tl (LSuspend m) k3)) as Hpl.
    { unfold ipc_flag. rewrite Ho. simpl. eapply (placed_priorities _ k k2); [|done].
      intros u Hu. unfold prio_of. rewrite Eth2, lookup_insert_ne by set_solver. simpl.
      by rewrite lookup_insert_ne by set_solver. }
    split.
    { constructor.
      - rewrite (if_mutexes _ _ Hf3), (kf_mutexes _ _ Hf2). done.
      - destruct Ho3 as (_ & _ & ->). rewrite Eo2. by exists o.
      - rewrite E. split_and!; try done; [lia..|exists thw2; by rewrite Es2|].
        destruct Hpl as (l1 & l2 & E1 & -> & _). rewrite E1 in Hwn. set_solver. }
    split; [done|]. split.
    { eexists. rewrite Eth3, lookup_insert_eq. split; [done|]. split; [by apply stat_of_with_stat|done]. }
    split; [by exists thw2|]. split.
    - intros Hpos. unfold timed in Ht3. rewrite (proj2 (Z.ltb_lt _ _) Hpos) in Ht3.
      by destruct Ht3 as (? & _ & _ & ? & _).
    - apply Hnx. rewrite (kf_lock _ _ Hf2). done. }
  change (th_current_priority th1) with (th_current_priority th).
  destruct (Z.ltb_spec (th_current_priority th) (th_current_priority thw)) as [Hlt|Hge]; wp_simpl.
  - eapply wp_mono; [apply (rt_thread_control_prio_run 0 k1 w thw); try done|].
    { simpl. by rewrite lookup_insert_ne. }
    { apply (to_prio _ (si_thread _ _ (ki_sched _ _ Hk) _ _ Hth)). }
    intros r k2 (_ & Hk2 & Hf2 & Eth2 & Htl2 & El2 & Ets2 & Eo2). apply wp_ret.
    destruct (reprioritised_facts (th_current_priority th) thw) as (R1 & R2 & R3).
    eapply Hcont; try done; [lia|]. rewrite Htl2 by done. done.
  - apply (proj1 (wp_bind _ _ _ _)). eapply (Hcont k1 thw); try done; [|lia].
    symmetry. apply insert_id. simpl. by rewrite lookup_insert_ne.
Qed.

(** C8. Releasing a mutex. Only the owner may (others get -RT_ERROR); an inner
    release takes one hold off; the last one restores the owner's priority and
    hands the mutex to the first waiting thread, which becomes READY and its
    owner with one hold, or leaves it free when no thread waits. *)
Theorem rt_mutex_release_passes k m mx t th :
  kinv 0 k → mutex_ok m mx k → running t th k →
  wp (rt_mutex_release m) (λ r k', kinv 0 k' ∧
    if bool_decide (mx_owner mx = Some t) then r = RT_EOK ∧ ∃ mx', mutex_ok m mx' k' ∧
      if 1 <? mx_hold mx then mx' = set_mx_hold (mx_hold mx - 1) mx ∧
        k' = set_mutexes (<[m := mx']> (mutexes k)) k
      else
        (∃ th', threads k' !! t = Some th' ∧ th_current_priority th' = mx_original_priority mx) ∧
        match tl (LSuspend m) k with
        | [] => mx' = new_mutex
        | w :: l => tl (LSuspend m) k' = l ∧ mx_owner mx' = Some w ∧ mx_hold mx' = 1 ∧
            prio_of k w = Some (mx_original_priority mx') ∧
            ∃ thw, threads k' !! w = Some thw ∧ stat_of thw = RT_THREAD_READY
        end
    else r = - RT_ERROR ∧ k' = set_threads (<[t := set_th_error (- RT_ERROR) th]> (threads k)) k) k.
Proof.
  intros Hk Hmx [Hn Hcur Hth Hst]. pose proof Hmx as [Hm (o & Ho & Hc & Hfl) _].
  unfold rt_mutex_release, RT_DEBUG_IN_THREAD_CONTEXT, RT_DEBUG_NOT_IN_INTERRUPT, current.
  wp_simpl. eapply assert_class_run; [done..|]. wp_simpl. rewrite Hcur. split; [done|].
  rewrite Hn. split; [done|]. wp_simpl. eapply wp_mutex_at; [done|].
  case_bool_decide as E; simpl; wp_simpl.
  2:{ eapply wp_upd_thread; [done|]. wp_simpl. split; [|done].
      apply kinv_error; [done|done|by rewrite Hst]. }
  destruct (mutex_ok_owner _ _ _ _ Hmx E) as (Hv & Hh & Hop & _ & Htn).
  change RT_MUTEX_HOLD_MAX with 255 in Hh.
  eapply wp_upd_mutex; [done|]. wp_simpl. eapply wp_mutex_at; [apply lookup_insert_eq|]. simpl.
  rewrite u8_small by lia.
  set (mx1 := set_mx_hold _ mx). set (k1 := set_mutexes _ k).
  assert (kinv 0 k1) as Hk1 by by apply (kinv_same 0 k).
  destruct (Z.ltb_spec 1 (mx_hold mx)) as [H1|H1].
  { rewrite (proj2 (Z.eqb_neq (mx_hold mx - 1) 0)) by lia. simpl. apply wp_ret.
    split; [done|]. split; [done|]. exists mx1. split; [|done]. constructor; [|by exists o|].
    - simpl. by rewrite lookup_insert_eq.
    - simpl. rewrite E. change RT_MUTEX_HOLD_MAX with 255. split_and!; try done; [lia..|].
      exists th. split; [done|]. by rewrite Hst. }
  assert (mx_hold mx = 1) as Eh by lia. rewrite Eh. simpl. wp_simpl.
  eapply wp_thread_at; [done|]. wp_simpl.
  match goal with |- if _ then wp _ _ _ else wp ?rest ?Q _ => assert (∀ k2 th2, kinv 0 k2 →
    kframe k1 k2 → threads k2 = <[t := th2]> (threads k) → stat_of th2 = RT_THREAD_READY →
    th_current_priority th2 = mx_original_priority mx →
    tl (LSuspend m) k2 = tl (LSuspend m) k → objects k2 = objects k → wp rest Q k2) as Hcont end.
  { intros k2 th2 Hk2 Hf2 Eth2 Es2 Ep2 Etl2 Eo2. wp_simpl. rewrite Etl2.
    assert (mutexes k2 !! m = Some mx1) as Hm2.
    { rewrite (kf_mutexes _ _ Hf2). simpl. by rewrite lookup_insert_eq. }
    assert (threads k2 !! t = Some th2) as Hth2 by (by rewrite Eth2, lookup_insert_eq).
    destruct (tl (LSuspend m) k) as [|w l] eqn:El.
    - rewrite Hv. simpl. wp_simpl. eapply wp_upd_mutex; [done|]. wp_simpl.
      split; [by apply (kinv_same 0 k2)|]. split; [done|]. simpl. exists new_mutex.
      split; [|by eauto]. constructor; simpl; [|by rewrite Eo2; exists o|done].
      rewrite lookup_insert_eq. f_equal. unfold mx1, new_mutex. destruct mx; simpl in *. by subst.
    - assert (w ≠ t) as Hwt by (intros ->; apply Htn; by left).
      assert (w ∈ tl (LSuspend m) k2) as Hwin by (rewrite Etl2; by left).
      destruct (si_fits _ _ (ki_sched _ _ Hk2) _ _ Hwin) as (thw & Hw2 & Hsw).
      wp_simpl. eapply wp_set_owner; [done|done|]. wp_simpl.
      eapply wp_mutex_hold; [apply lookup_insert_eq|simpl; by rewrite Eh|]. simpl. wp_simpl.
      rewrite !insert_insert_eq. set (mx3 := set_mx_hold _ _). set (k3 := set_mutexes _ _).
      assert (kinv 0 k3) as Hk3 by by apply (kinv_same 0 k2).
      destruct (rt_ipc_list_resume_run 0 k3 (LSuspend m) w l Hk3 I) as (thw' & Hw3 & Hsw3 & Hwp).
      { change (tl (LSuspend m) k2 = w :: l). by rewrite Etl2. }
      change (threads k2 !! w = Some thw') in Hw3. simplify_eq.
      eapply wp_mono; [exact Hwp|]. intros r k4 (_ & Hm4 & El4 & _ & _). wp_simpl.
      eapply wp_mono; [apply (schedule_run 0); [apply Hm4|eapply moved_ready; [done|by apply stat_of_with_stat]]|].
      intros [] k5 [Hk5 ((c & q & ->) & _ & _)]. apply wp_ret.
      destruct Hm4 as [Hk4 Hf4 Eth4 Htl4 Ho4]. split; [done|]. split; [done|].
      exists mx3. split; [|split; [|split; [done|split; [done|split; [simpl; by rewrite Eh|split]]]]].
      + constructor; simpl.
        * rewrite (kf_mutexes _ _ Hf4). simpl. by rewrite lookup_insert_eq.
        * destruct Ho4 as (_ & _ & ->). simpl. rewrite Eo2. by exists o.
        * rewrite Hv, Eh. split; [done|]. split; [done|].
          split; [apply (to_prio _ (si_thread _ _ (ki_sched _ _ Hk2) _ _ Hw2))|]. split.
          -- eexists. rewrite Eth4, lookup_insert_eq. split; [done|]. by rewrite stat_of_with_stat.
          -- change (w ∉ tl (LSuspend m) k4). rewrite El4.
             pose proof (si_nodup _ _ (ki_sched _ _ Hk) (LSuspend m)) as Hnd. rewrite El in Hnd.
             by apply NoDup_cons in Hnd as [? _].
      + exists th2. simpl. rewrite Eth4, lookup_insert_ne by done. done.
      + unfold prio_of. simpl. rewrite Eth2, lookup_insert_ne in Hw2 by done. by rewrite Hw2.
      + eexists. simpl. rewrite Eth4, lookup_insert_eq. split; [done|]. by apply stat_of_with_stat. }
  destruct (Z.eqb_spec (mx_original_priority mx) (th_current_priority th)) as [Ep|Ep]; cbn [negb].
  - apply (Hcont k1 th); try done. simpl. symmetry. by apply insert_id.
  - wp_simpl. eapply wp_mono; [apply (rt_thread_control_prio_run 0 k1 t th); try done; by rewrite Hst|].
    intros r k2 (_ & Hk2 & Hf2 & Eth2 & Htl2 & El2 & Ets2 & Eo2). apply wp_ret.
    destruct (reprioritised_facts (mx_original_priority mx) th) as (R1 & R2 & R3).
    eapply (Hcont k2); try done; [by rewrite R1|]. by rewrite Htl2.
Qed.
End mutex.
