(* ===== verification/Event.v ===== *)
(** Event sets of os/ipc.c: 32 flags, waited for with AND or OR. *)
From S2P Require Import Prelude Kservice Mem KState Sched Object Timer Thread Ipc.

Definition has_bit (option flag : Z) : bool := negb (Z.land option flag =? 0).

Section event.
Context `{CB : Callbacks}.

Definition event_at (e : Z) : K Z := deref events e.
Definition set_event (e set : Z) : K unit := modify (λ k, set_events (<[e := set]> (events k)) k).

Definition rt_event_init (event : Z) (name : list Z) (flag : Z) : K Z :=
  RT_ASSERT (negb (event =? 0));;
  rt_object_init (Obj event) RT_Object_Class_Event name;;
  upd_object (Obj event) (set_o_flag flag);;
  rt_ipc_object_init (LSuspend event);;
  set_event event 0;;
  mret RT_EOK.

Definition rt_event_detach (event : Z) : K Z :=
  assert_class (Obj event) RT_Object_Class_Event;;
  assert_static (Obj event) true;;
  rt_ipc_list_resume_all (LSuspend event);;
  rt_object_detach (Obj event);;
  mret RT_EOK.

Definition rt_event_create (name : list Z) (flag : Z) : K Z :=
  RT_DEBUG_NOT_IN_INTERRUPT;;
  event ← rt_object_allocate RT_Object_Class_Event name;
  if event =? 0 then mret 0 else
  upd_object (Obj event) (set_o_flag flag);;
  rt_ipc_object_init (LSuspend event);;
  set_event event 0;;
  mret event.

Definition rt_event_delete (event : Z) : K Z :=
  assert_class (Obj event) RT_Object_Class_Event;;
  assert_static (Obj event) false;;
  RT_DEBUG_NOT_IN_INTERRUPT;;
  rt_ipc_list_resume_all (LSuspend event);;
  rt_object_delete event;;
  modify (λ k, set_events (delete event (events k)) k);;
  mret RT_EOK.

(** The loop over the waiting threads; resuming one takes it off the list and
    leaves the rest. True when one was resumed, None for -RT_EINVAL. *)
Fixpoint event_send_loop (event : Z) (l : list Z) (need_schedule : bool) : K (option bool) :=
  match l with
  | [] => mret (Some need_schedule)
  | thread :: l =>
      th ← thread_at thread;
      set ← event_at event;
      let resume :=
        th ← thread_at thread;
        when (has_bit (th_event_info th) RT_EVENT_FLAG_CLEAR)
          (set_event event (Z.land set (u32 (Z.lnot (th_event_set th)))));;
        rt_thread_resume thread;;
        event_send_loop event l true in
      if has_bit (th_event_info th) RT_EVENT_FLAG_AND then
        if Z.land (th_event_set th) set =? th_event_set th then resume
        else event_send_loop event l need_schedule
      else if has_bit (th_event_info th) RT_EVENT_FLAG_OR then
        if negb (Z.land (th_event_set th) set =? 0) then
          upd_thread thread (set_th_event_set (Z.land (th_event_set th) set));; resume
        else event_send_loop event l need_schedule
      else mret None
  end.

Definition rt_event_send (event set : Z) : K Z :=
  assert_class (Obj event) RT_Object_Class_Event;;
  if set =? 0 then mret (- RT_ERROR) else
  s ← event_at event;
  set_event event (Z.lor s set);;
  l ← gets (tl (LSuspend event));
  r ← event_send_loop event l false;
  match r with
  | None => mret (- RT_EINVAL)
  | Some need_schedule => when need_schedule rt_schedule;; mret RT_EOK
  end.

(** Returns the code, and what is written to [*recved], if anything is. *)
Definition rt_event_recv (event set option timeout : Z) : K (call Z (Z * Datatypes.option Z)) :=
  RT_DEBUG_IN_THREAD_CONTEXT;;
  assert_class (Obj event) RT_Object_Class_Event;;
  if set =? 0 then mret (Ret (- RT_ERROR, None)) else
  thread ← current;
  upd_thread thread (set_th_error RT_EOK);;
  s ← event_at event;
  RT_ASSERT (has_bit option RT_EVENT_FLAG_AND || has_bit option RT_EVENT_FLAG_OR);;
  let status := if has_bit option RT_EVENT_FLAG_AND then Z.land s set =? set
                else negb (Z.land s set =? 0) in
  if status then
    upd_thread thread (λ th, set_th_event_info option (set_th_event_set (Z.land s set) th));;
    when (has_bit option RT_EVENT_FLAG_CLEAR) (set_event event (Z.land s (u32 (Z.lnot set))));;
    th ← thread_at thread;
    mret (Ret (th_error th, Some (Z.land s set)))
  else if timeout =? 0 then
    upd_thread thread (set_th_error (- RT_ETIMEOUT));;
    mret (Ret (- RT_ETIMEOUT, None))
  else
    upd_thread thread (λ th, set_th_event_info option (set_th_event_set set th));;
    flag ← object_flag (Obj event);
    ipc_suspend (LSuspend event) thread flag timeout;;
    rt_schedule;;
    mret (Wait thread).
Definition rt_event_recv_resume (thread : Z) : K (Z * Datatypes.option Z) :=
  th ← thread_at thread;
  if negb (th_error th =? RT_EOK) then mret (th_error th, None)
  else mret (th_error th, Some (th_event_set th)).

Definition rt_event_control (event cmd arg : Z) : K Z :=
  assert_class (Obj event) RT_Object_Class_Event;;
  if cmd =? RT_IPC_CMD_RESET then
    rt_ipc_list_resume_all (LSuspend event);;
    set_event event 0;;
    rt_schedule;;
    mret RT_EOK
  else mret (- RT_ERROR).

(** * Properties *)

(** What a waiting thread asks for, and whether a set satisfies it. *)
Definition satisfied (th : rt_thread) (set : Z) : bool :=
  if has_bit (th_event_info th) RT_EVENT_FLAG_AND
  then Z.land (th_event_set th) set =? th_event_set th
  else negb (Z.land (th_event_set th) set =? 0).
(** What it gets. *)
Definition got (th : rt_thread) (set : Z) : Z :=
  if has_bit (th_event_info th) RT_EVENT_FLAG_AND then th_event_set th
  else Z.land (th_event_set th) set.
Definition asks (th : rt_thread) : Prop :=
  0 ≤ th_event_set th ∧
  (has_bit (th_event_info th) RT_EVENT_FLAG_AND = true ∨
   has_bit (th_event_info th) RT_EVENT_FLAG_OR = true).

Record event_ok (e s : Z) (k : kernel) : Prop := {
  eo_set : events k !! e = Some s;
  eo_object : ∃ o, objects k !! Obj e = Some o ∧ class_of o = RT_Object_Class_Event ∧
    (o_flag o = RT_IPC_FLAG_FIFO ∨ o_flag o = RT_IPC_FLAG_PRIO);
  eo_waiters : ∀ t, t ∈ tl (LSuspend e) k → ∃ th, threads k !! t = Some th ∧ asks th
}.

(** Every bit of [a] is in [b]. *)
Definition subset (a b : Z) : Prop := ∀ i, Z.testbit a i = true → Z.testbit b i = true.
#[global] Instance subset_preorder : PreOrder subset.
Proof. split; [by intros a i|]. intros a b c H1 H2 i Hi. auto. Qed.
Lemma subset_land a b : subset (Z.land a b) a.
Proof. intros i. rewrite Z.land_spec. by intros [? _]%andb_true_iff. Qed.
Lemma land_eq_subset a b : Z.land a b = a ↔ subset a b.
Proof.
  split.
  - intros E i Hi. rewrite <-E, Z.land_spec in Hi. by apply andb_true_iff in Hi as [_ ?].
  - intros Hs. apply Z.bits_inj. intros i. rewrite Z.land_spec.
    destruct (Z.testbit a i) eqn:E; [|done]. by rewrite (Hs _ E).
Qed.
(** Clearing flags satisfies no one. *)
Lemma satisfied_mono th s s' : subset s' s → satisfied th s = false → satisfied th s' = false.
Proof.
  unfold satisfied. intros Hs. destruct (has_bit _ _).
  - rewrite !Z.eqb_neq. intros Hn E. apply Hn. apply land_eq_subset in E. apply land_eq_subset.
    by transitivity s'.
  - rewrite !negb_false_iff, !Z.eqb_eq. intros E. apply Z.bits_inj_0. intros i.
    rewrite Z.land_spec. destruct (Z.testbit s' i) eqn:Ei; [|by rewrite andb_false_r].
    apply (f_equal (λ x, Z.testbit x i)) in E. rewrite Z.land_spec, (Hs _ Ei), Z.bits_0 in E. done.
Qed.

Lemma kinv_events lo m k : kinv lo k → kinv lo (set_events m k).
Proof. intros Hk. by apply (kinv_same lo k). Qed.
Lemma subset_nonneg_land a b : subset (Z.land a b) b.
Proof. rewrite Z.land_comm. apply subset_land. Qed.

(** A waiting thread at the time the loop came to it, when the flags were [st]. *)
Definition event_woken (s s' : Z) (th th' : rt_thread) : Prop :=
  ∃ st, subset st s ∧ subset s' st ∧ satisfied th st = true ∧
    stat_of th' = RT_THREAD_READY ∧ th_error th' = th_error th ∧ th_event_set th' = got th st.
Record event_pass (lo e s : Z) (l kept woken : list Z) (k : kernel) (s' : Z) (k' : kernel) : Prop := {
  ep_inv : kinv lo k';
  ep_events : events k' = <[e := s']> (events k);
  ep_subset : subset s' s;
  ep_none : woken = [] → s' = s;
  ep_lock : lock_nest k' = lock_nest k;
  ep_objects : same_objects k k';
  ep_split : ∀ t, t ∈ l → t ∈ kept ∨ t ∈ woken;
  ep_within : ∀ t, t ∈ kept ∨ t ∈ woken → t ∈ l;
  ep_tl : tl (LSuspend e) k' = filter (λ t, t ∉ woken) (tl (LSuspend e) k);
  ep_kept : ∀ t th, t ∈ kept → threads k !! t = Some th → satisfied th s' = false;
  ep_woken : ∀ t, t ∈ woken → ∃ th th', threads k !! t = Some th ∧ threads k' !! t = Some th' ∧
    event_woken s s' th th';
  ep_other : ∀ t, t ∉ woken → threads k' !! t = threads k !! t
}.

(** The wake-up of one thread, the middle of the loop. *)
Lemma event_resume_wp {A} lo k e st t th (rest : K A) (Q : A → kernel → Prop) :
  kinv lo k → events k !! e = Some st → t ∈ tl (LSuspend e) k → threads k !! t = Some th →
  (∀ k' s', subset s' st → kinv lo k' → events k' = <[e := s']> (events k) →
     lock_nest k' = lock_nest k → same_objects k k' →
     threads k' = <[t := with_stat RT_THREAD_READY th]> (threads k) →
     tl (LSuspend e) k' = lremove t (tl (LSuspend e) k) → wp rest Q k') →
  wp (th ← thread_at t;
      when (has_bit (th_event_info th) RT_EVENT_FLAG_CLEAR)
        (set_event e (Z.land st (u32 (Z.lnot (th_event_set th)))));;
      rt_thread_resume t;;
      rest) Q k.
Proof.
  intros Hk He Hin Hth HQ.
  destruct (si_fits _ _ (ki_sched _ _ Hk) _ _ Hin) as (th' & ? & Hst). simplify_eq. simpl in Hst.
  assert (∀ s', subset s' st → wp (rt_thread_resume t;; rest) Q (set_events (<[e := s']> (events k)) k))
    as Hgo.
  { intros s' Hs. wp_simpl.
    eapply wp_mono; [apply (rt_thread_resume_run lo _ t th); [by apply kinv_events|done|done]|].
    intros r k1 (_ & [Hk1 Hf1 Eth1 Htl1 Ho1] & _). apply (HQ k1 s'); try done; try apply Hf1. }
  wp_simpl. eapply wp_thread_at; [done|]. wp_simpl.
  destruct (has_bit (th_event_info th) RT_EVENT_FLAG_CLEAR); wp_simpl.
  - unfold set_event. wp_simpl. apply (proj1 (wp_bind _ _ _ _)). apply Hgo, subset_land.
  - apply (proj1 (wp_bind _ _ _ _)). specialize (Hgo st). rewrite insert_id in Hgo by done.
    replace (set_events (events k) k) with k in Hgo by by destruct k. by apply Hgo.
Qed.

Lemma filter_all {A} (P : A → Prop) `{∀ x, Decision (P x)} (l : list A) : (∀ x, P x) → filter P l = l.
Proof. intros HP. induction l as [|x l IH]; [done|]. rewrite filter_cons_True by done. by rewrite IH. Qed.
Lemma event_send_loop_run lo e l : ∀ k s b,
  kinv lo k → events k !! e = Some s → NoDup l → (∀ t, t ∈ l → t ∈ tl (LSuspend e) k) →
  (∀ t, t ∈ l → ∃ th, threads k !! t = Some th ∧ asks th) →
  wp (event_send_loop e l b) (λ r k', ∃ kept woken s',
    event_pass lo e s l kept woken k s' k' ∧
    r = Some (b || negb (bool_decide (woken = [])))) k.
Proof.
  induction l as [|t l IH]; intros k s b Hk He Hnd Hin Hasks; cbn [event_send_loop].
  { apply wp_ret. exists [], [], s. split; [|by rewrite orb_false_r].
    assert (∀ x : Z, x ∉ []) as Hno by (intros x; apply not_elem_of_nil).
    constructor; try done; try (by intros ? ?%Hno).
    - by rewrite insert_id.
    - intros u [Hu|Hu]; by destruct (Hno u).
    - symmetry. apply filter_all. intros x. apply Hno.
    - by intros t th []%Hno. }
  apply NoDup_cons in Hnd as [Hnt Hnd].
  destruct (Hasks t) as (th & Hth & Hnn & Hflag); [by left|].
  wp_simpl. eapply wp_thread_at; [done|]. wp_simpl. eapply wp_deref; [done|]. cbn zeta.
  (* one that stays *)
  assert (satisfied th s = false → wp (event_send_loop e l b) (λ r k', ∃ kept woken s',
    event_pass lo e s (t :: l) kept woken k s' k' ∧
    r = Some (b || negb (bool_decide (woken = [])))) k) as Hkeep.
  { intros Hns. eapply wp_mono; [apply (IH k s b); try done; intros u Hu; [apply Hin|apply Hasks]; by right|].
    intros r k' (kept & woken & s' & [] & ->). exists (t :: kept), woken, s'. split; [|done].
    constructor; try done.
    - intros u [->|Hu]%elem_of_cons; [left; by left|]. destruct (ep_split0 u Hu); [left; by right|by right].
    - intros u [[->|Hu]%elem_of_cons|Hu]; [by left|right; auto..].
    - intros u thu [->|Hu]%elem_of_cons Hthu; [|by eapply ep_kept0].
      simplify_eq. by eapply satisfied_mono. }
  (* one that is woken *)
  assert (∀ th1, satisfied th s = true → th1 = set_th_event_set (got th s) th →
    wp (th2 ← thread_at t;
        when (has_bit (th_event_info th2) RT_EVENT_FLAG_CLEAR)
          (set_event e (Z.land s (u32 (Z.lnot (th_event_set th2)))));;
        rt_thread_resume t;; event_send_loop e l true)
      (λ r k', ∃ kept woken s', event_pass lo e s (t :: l) kept woken k s' k' ∧
         r = Some (b || negb (bool_decide (woken = []))))
      (set_threads (<[t := th1]> (threads k)) k)) as Hwake.
  { intros th1 Hsat E1. set (k1 := set_threads _ k).
    assert (t ∈ tl (LSuspend e) k) as Ht by (apply Hin; by left).
    destruct (si_fits _ _ (ki_sched _ _ Hk) _ _ Ht) as (th' & ? & Hst). simplify_eq. simpl in Hst.
    set (th1 := set_th_event_set (got th s) th).
    assert (kinv lo k1) as Hk1.
    { apply (kinv_thread lo k t th); try done; [by rewrite Hst|].
      destruct (si_thread _ _ (ki_sched _ _ Hk) _ _ Hth). by constructor. }
    apply (event_resume_wp lo k1 e s t th1); try done; [simpl; by rewrite lookup_insert_eq|].
    intros k2 s2 Hs2 Hk2 Eev2 El2 Ho2 Eth2 Etl2. simpl in Eth2, Eev2. rewrite insert_insert_eq in Eth2.
    change (tl (LSuspend e) k1) with (tl (LSuspend e) k) in Etl2.
    eapply wp_mono; [apply (IH k2 s2 true); try done|].
    { by rewrite Eev2, lookup_insert_eq. }
    { intros u Hu. rewrite Etl2, elem_of_lremove. split; [apply Hin; by right|by intros ->]. }
    { intros u Hu. rewrite Eth2, lookup_insert_ne by (by intros ->). apply Hasks. by right. }
    intros r k3 (kept & woken & s' & [] & ->). exists kept, (t :: woken), s'.
    split; [|by rewrite orb_true_r].
    assert (t ∉ woken) as Htw by (intros Hw; apply Hnt, ep_within0; by right).
    constructor; try done.
    - by rewrite ep_events0, Eev2, insert_insert_eq.
    - by transitivity s2.
    - by rewrite ep_lock0.
    - transitivity k1; [by apply same_objects_eq|]. by transitivity k2.
    - intros u [->|Hu]%elem_of_cons; [right; by left|]. destruct (ep_split0 u Hu); [by left|right; by right].
    - intros u [Hu|[->|Hu]%elem_of_cons]; [right; auto|by left|right; auto].
    - rewrite ep_tl0, Etl2. unfold lremove. rewrite list_filter_filter. apply list_filter_iff.
      intros u. rewrite not_elem_of_cons. naive_solver.
    - intros u thu Hu Hthu. apply (ep_kept0 u thu Hu). rewrite Eth2, lookup_insert_ne; [done|].
      intros <-. apply Hnt, ep_within0. by left.
    - intros u [->|Hu]%elem_of_cons.
      + exists th, (with_stat RT_THREAD_READY th1). split; [done|].
        rewrite ep_other0, Eth2, lookup_insert_eq by done. split; [done|].
        exists s. split; [done|]. split; [by transitivity s2|]. split; [done|].
        split; [by apply stat_of_with_stat|done].
      + destruct (ep_woken0 u Hu) as (thu & thu' & H1 & H2 & st & H3 & H4 & H5).
        rewrite Eth2, lookup_insert_ne in H1 by (by intros ->).
        exists thu, thu'. split; [done|]. split; [done|]. exists st. split; [by transitivity s2|done].
    - intros u [Hne Hu]%not_elem_of_cons. by rewrite ep_other0, Eth2, lookup_insert_ne. }
  unfold satisfied, got in *. destruct (has_bit (th_event_info th) RT_EVENT_FLAG_AND) eqn:Ea.
  - destruct (Z.land (th_event_set th) s =? th_event_set th) eqn:Es; [|by apply Hkeep].
    replace k with (set_threads (<[t := th]> (threads k)) k) at 1.
    2:{ rewrite insert_id by done. by destruct k. }
    apply Hwake; [done|]. by destruct th.
  - destruct Hflag as [?|Ho]; [done|]. rewrite Ho.
    destruct (Z.land (th_event_set th) s =? 0) eqn:Es; simpl; [by apply Hkeep|].
    apply wp_bind. eapply wp_upd_thread; [done|]. by apply Hwake.
Qed.

(** C9. Sending flags: afterwards no thread waits for flags that are set (none
    is forgotten), each thread taken off the list was satisfied when the loop
    came to it and is READY with the flags it asked for (AND) or those of them
    that were set (OR), the others keep their order, and flags are only taken
    out again for threads that were woken. *)
Theorem rt_event_send_wakes k e s set :
  kinv 0 k → event_ok e s k → set ≠ 0 →
  wp (rt_event_send e set) (λ r k', r = RT_EOK ∧ kinv 0 k' ∧ ∃ s' woken,
    event_ok e s' k' ∧ subset s' (Z.lor s set) ∧ (woken = [] → s' = Z.lor s set) ∧
    tl (LSuspend e) k' = filter (λ t, t ∉ woken) (tl (LSuspend e) k) ∧
    (∀ t th, t ∈ tl (LSuspend e) k' → threads k' !! t = Some th → satisfied th s' = false) ∧
    (∀ t, t ∈ woken → t ∈ tl (LSuspend e) k ∧ ∃ th th', threads k !! t = Some th ∧
       threads k' !! t = Some th' ∧ event_woken (Z.lor s set) s' th th')) k.
Proof.
  intros Hk [He (o & Ho & Hc & Hfl) Hw] Hset. unfold rt_event_send, event_at, set_event.
  wp_simpl. eapply assert_class_run; [done..|]. rewrite (proj2 (Z.eqb_neq _ _) Hset). wp_simpl.
  eapply wp_deref; [done|]. wp_simpl. set (k1 := set_events _ k).
  change (tl (LSuspend e) k1) with (tl (LSuspend e) k).
  eapply wp_mono; [apply (event_send_loop_run 0 e _ k1 (Z.lor s set) false)|].
  { by apply kinv_events. } { simpl. by rewrite lookup_insert_eq. }
  { apply (si_nodup _ _ (ki_sched _ _ Hk)). } { done. } { exact Hw. }
  intros r k2 (kept & woken & s' & Hp & ->). cbn [orb].
  assert (∀ k3, kinv 0 k3 → switch_frame k2 k3 → kinv 0 k3 ∧ ∃ s' woken,
    event_ok e s' k3 ∧ subset s' (Z.lor s set) ∧ (woken = [] → s' = Z.lor s set) ∧
    tl (LSuspend e) k3 = filter (λ t, t ∉ woken) (tl (LSuspend e) k) ∧
    (∀ t th, t ∈ tl (LSuspend e) k3 → threads k3 !! t = Some th → satisfied th s' = false) ∧
    (∀ t, t ∈ woken → t ∈ tl (LSuspend e) k ∧ ∃ th th', threads k !! t = Some th ∧
       threads k3 !! t = Some th' ∧ event_woken (Z.lor s set) s' th th')) as Hfin.
  { intros k3 Hk3 (c & q & ->). split; [done|]. exists s', woken. destruct Hp as [P1 P2 P3 PN P4 P5 P6 P7 P8 P10 P11 P12].
    assert (∀ t, t ∈ tl (LSuspend e) k2 → t ∈ tl (LSuspend e) k ∧ t ∉ woken) as Hkt.
    { intros t. rewrite P8. rewrite list_elem_of_filter. naive_solver. }
    split; [|split; [done|split; [done|split; [done|split]]]].
    - constructor; simpl.
      + by rewrite P2, lookup_insert_eq.
      + destruct P5 as (_ & _ & ->). by exists o.
      + intros t Ht. change (t ∈ tl (LSuspend e) k2) in Ht. apply Hkt in Ht as [Ht Hn].
        rewrite P12 by done. by apply Hw.
    - intros t th Ht Hth. change (t ∈ tl (LSuspend e) k2) in Ht. apply Hkt in Ht as [Ht Hn].
      simpl in Hth. rewrite P12 in Hth by done. destruct (P6 t Ht); [by eapply P10|done].
    - intros t Ht. split; [apply P7; by right|]. by apply P11. }
  destruct (bool_decide (woken = [])) eqn:Ew; simpl; wp_simpl.
  - split; [done|]. apply Hfin; [apply Hp|]. exists (current_thread k2), (current_priority k2). by destruct k2.
  - eapply wp_mono; [apply (schedule_run 0); [apply Hp|]|].
    { apply bool_decide_eq_false in Ew. destruct woken as [|t w]; [done|].
      destruct (ep_woken _ _ _ _ _ _ _ _ _ Hp t) as (th & th' & _ & Hth' & st & _ & _ & _ & Hst & _);
        [by left|]. by exists t, th'. }
    intros [] k3 [Hk3 (Hs & _)]. apply wp_ret. split; [done|]. by apply Hfin.
Qed.

(** Receiving flags that are there returns RT_EOK at once with the flags
    asked for that are set, and clears all flags asked for when the CLEAR
    option is given; without waiting the call returns -RT_ETIMEOUT. *)
Theorem rt_event_recv_nowait k e s t th set option timeout :
  kinv 0 k → event_ok e s k → interrupt_nest k = 0 → current_thread k = Some t →
  threads k !! t = Some th → stat_of th = RT_THREAD_READY → set ≠ 0 →
  has_bit option RT_EVENT_FLAG_AND || has_bit option RT_EVENT_FLAG_OR = true →
  let sat := if has_bit option RT_EVENT_FLAG_AND then Z.land s set =? set
             else negb (Z.land s set =? 0) in
  sat = true ∨ timeout = 0 →
  wp (rt_event_recv e set option timeout) (λ r k', kinv 0 k' ∧
    tlists k' = tlists k ∧ current_thread k' = current_thread k ∧
    if sat then r = Ret (RT_EOK, Some (Z.land s set)) ∧
      events k' !! e = Some (if has_bit option RT_EVENT_FLAG_CLEAR
                             then Z.land s (u32 (Z.lnot set)) else s)
    else r = Ret (- RT_ETIMEOUT, None) ∧ events k' = events k) k.
Proof.
  intros Hk [He (o & Ho & Hc & Hfl) _] Hn Hcur Hth Hst Hset Hopt sat Hcase.
  unfold rt_event_recv, RT_DEBUG_IN_THREAD_CONTEXT, RT_DEBUG_NOT_IN_INTERRUPT, current, event_at, set_event.
  wp_simpl. rewrite Hcur. split; [done|]. rewrite Hn. split; [done|]. wp_simpl.
  eapply assert_class_run; [done..|]. rewrite (proj2 (Z.eqb_neq _ _) Hset). wp_simpl.
  rewrite Hcur. wp_simpl. eapply wp_upd_thread; [done|]. wp_simpl.
  eapply wp_deref; [done|]. wp_simpl. split; [done|]. fold sat.
  assert (∀ th', th_current_priority th' = th_current_priority th → stat_of th' = stat_of th →
    thread_ok th' → kinv 0 (set_threads (<[t := th']> (threads k)) k)) as Hkt.
  { intros th' E1 E2 Hok. apply (kinv_thread 0 k t th); try done. by rewrite Hst. }
  assert (thread_ok th) as Hok by (apply (si_thread _ _ (ki_sched _ _ Hk) _ _ Hth)).
  destruct sat; wp_simpl.
  - eapply wp_upd_thread; [apply lookup_insert_eq|]. wp_simpl. simpl. rewrite insert_insert_eq.
    set (th2 := set_th_event_info _ _).
    assert (kinv 0 (set_threads (<[t := th2]> (threads k)) k)) as Hk2
      by (apply Hkt; try done; destruct Hok; by constructor).
    destruct (has_bit option RT_EVENT_FLAG_CLEAR); wp_simpl;
      (eapply wp_thread_at; [simpl; by rewrite lookup_insert_eq|]); wp_simpl; simpl.
    + rewrite lookup_insert_eq. split_and!; try done. by apply (kinv_events 0 _ _ Hk2).
    + by split_and!.
  - destruct Hcase as [?| ->]; [done|]. simpl. wp_simpl.
    eapply wp_upd_thread; [apply lookup_insert_eq|]. wp_simpl. simpl. rewrite insert_insert_eq.
    split_and!; try done. eapply kinv_same; [apply (Hkt (set_th_error (- RT_ETIMEOUT) (set_th_error RT_EOK th)))|..];
      try done. destruct Hok; by constructor.
Qed.
End event.
