(* ===== verification/Mailbox.v ===== *)
(** Mailboxes of os/ipc.c: a cyclic array of words, with waiting receivers and
    waiting senders. The loops around [rt_schedule] are split there: [Wait f]
    carries what the C function keeps in its locals, and the [_resume] function
    goes through the rest of the loop body and its test again. *)
From S2P Require Import Prelude Kservice Mem KState Sched Object Timer Thread Ipc.

(** The locals of a call that waits; [mf_value] is the value to send. *)
Record mb_frame := MbFrame {
  mf_mb : Z;
  mf_value : Z;
  mf_thread : Z;
  mf_timeout : Z;
  mf_tick_delta : Z
}.
Section mailbox.
Context `{CB : Callbacks}.

Definition mb_at (b : Z) : K rt_mailbox := deref mailboxes b.
Definition put_mb (b : Z) (m : rt_mailbox) : K unit :=
  modify (λ k, set_mailboxes (<[b := m]> (mailboxes k)) k).

(** [pool] is what the memory at [msgpool] holds. *)
Definition rt_mb_init (mb : Z) (name : list Z) (msgpool : Z) (pool : list Z) (size flag : Z) : K Z :=
  RT_ASSERT (negb (mb =? 0));;
  rt_object_init (Obj mb) RT_Object_Class_MailBox name;;
  upd_object (Obj mb) (set_o_flag flag);;
  rt_ipc_object_init (LSuspend mb);;
  put_mb mb {| mb_msg_pool := pool; mb_pool_addr := msgpool; mb_size := u16 size; mb_entry := 0;
               mb_in_offset := 0; mb_out_offset := 0 |};;
  list_head_init (LSender mb);;
  mret RT_EOK.

Definition rt_mb_detach (mb : Z) : K Z :=
  assert_class (Obj mb) RT_Object_Class_MailBox;;
  assert_static (Obj mb) true;;
  rt_ipc_list_resume_all (LSuspend mb);;
  rt_ipc_list_resume_all (LSender mb);;
  rt_object_detach (Obj mb);;
  mret RT_EOK.

(** The pool is fresh memory; its cells are written before they are read. *)
Definition rt_mb_create (name : list Z) (size flag : Z) : K Z :=
  RT_DEBUG_NOT_IN_INTERRUPT;;
  mb ← rt_object_allocate RT_Object_Class_MailBox name;
  if mb =? 0 then mret 0 else
  upd_object (Obj mb) (set_o_flag flag);;
  rt_ipc_object_init (LSuspend mb);;
  pool ← RT_KERNEL_MALLOC (u16 size * 4);
  if pool =? 0 then rt_object_delete mb;; mret 0 else
  put_mb mb {| mb_msg_pool := replicate (Z.to_nat (u16 size)) 0; mb_pool_addr := pool;
               mb_size := u16 size; mb_entry := 0; mb_in_offset := 0; mb_out_offset := 0 |};;
  list_head_init (LSender mb);;
  mret mb.

Definition rt_mb_delete (mb : Z) : K Z :=
  RT_DEBUG_NOT_IN_INTERRUPT;;
  assert_class (Obj mb) RT_Object_Class_MailBox;;
  assert_static (Obj mb) false;;
  rt_ipc_list_resume_all (LSuspend mb);;
  rt_ipc_list_resume_all (LSender mb);;
  m ← mb_at mb;
  RT_KERNEL_FREE (mb_pool_addr m);;
  rt_object_delete mb;;
  modify (λ k, set_mailboxes (delete mb (mailboxes k)) k);;
  mret RT_EOK.

(** ++ off; if (off >= size) off = 0; *)
Definition next_offset (off size : Z) : Z :=
  let off := u16 (off + 1) in if size <=? off then 0 else off.

(** Behind the loops: the word goes in at [in_offset], or out at [out_offset]. *)
Definition mb_store (value : Z) (m : rt_mailbox) : option rt_mailbox :=
  if decide (Z.to_nat (mb_in_offset m) < length (mb_msg_pool m))%nat then
    Some (set_mb_in_offset (next_offset (mb_in_offset m) (mb_size m))
           (set_mb_msg_pool (<[Z.to_nat (mb_in_offset m) := value]> (mb_msg_pool m)) m))
  else None.
Definition mb_fetch (m : rt_mailbox) : option (Z * rt_mailbox) :=
  value ← mb_msg_pool m !! Z.to_nat (mb_out_offset m);
  Some (value, set_mb_out_offset (next_offset (mb_out_offset m) (mb_size m)) m).

(** The body of the waiting loops up to [rt_schedule]. *)
Definition mb_wait (h : lhead) (mb value thread timeout : Z) : K (call mb_frame Z) :=
  RT_DEBUG_IN_THREAD_CONTEXT;;
  flag ← object_flag (Obj mb);
  now ← rt_tick_get;
  ipc_suspend h thread flag timeout;;
  rt_schedule;;
  mret (Wait {| mf_mb := mb; mf_value := value; mf_thread := thread; mf_timeout := timeout;
                mf_tick_delta := if 0 <? timeout then now else 0 |}).

Definition mb_send_rest (mb value : Z) : K Z :=
  m ← mb_at mb;
  m ← lift (mb_store value m);
  put_mb mb m;;
  if mb_entry m <? RT_MB_ENTRY_MAX then
    put_mb mb (set_mb_entry (mb_entry m + 1) m);;
    l ← gets (tl (LSuspend mb));
    if negb (bool_decide (l = [])) then
      rt_ipc_list_resume (LSuspend mb);; rt_schedule;; mret RT_EOK
    else mret RT_EOK
  else mret (- RT_EFULL).
(** while (mb->entry == mb->size) *)
Definition mb_send_loop (mb value timeout : Z) : K (call mb_frame Z) :=
  m ← mb_at mb;
  if mb_entry m =? mb_size m then
    thread ← current;
    upd_thread thread (set_th_error RT_EOK);;
    if timeout =? 0 then mret (Ret (- RT_EFULL)) else
    mb_wait (LSender mb) mb value thread timeout
  else r ← mb_send_rest mb value; mret (Ret r).
Definition rt_mb_send_wait (mb value timeout : Z) : K (call mb_frame Z) :=
  assert_class (Obj mb) RT_Object_Class_MailBox;;
  m ← mb_at mb;
  if (mb_entry m =? mb_size m) && (timeout =? 0) then mret (Ret (- RT_EFULL))
  else mb_send_loop mb value timeout.
Definition rt_mb_send_wait_resume (f : mb_frame) : K (call mb_frame Z) :=
  th ← thread_at (mf_thread f);
  if negb (th_error th =? RT_EOK) then mret (Ret (th_error th)) else
  now ← rt_tick_get;
  mb_send_loop (mf_mb f) (mf_value f) (remaining_timeout (mf_timeout f) (mf_tick_delta f) now).
Definition rt_mb_send (mb value : Z) : K (call mb_frame Z) := rt_mb_send_wait mb value 0.

(** Returns the code and the value received, if any. *)
Definition mb_recv_rest (mb : Z) : K (Z * option Z) :=
  m ← mb_at mb;
  x ← lift (mb_fetch m);
  let m := x.2 in
  put_mb mb (if 0 <? mb_entry m then set_mb_entry (mb_entry m - 1) m else m);;
  l ← gets (tl (LSender mb));
  when (negb (bool_decide (l = [])))
    (rt_ipc_list_resume (LSender mb);; rt_schedule);;
  mret (RT_EOK, Some x.1).
(** while (mb->entry == 0) *)
Definition mb_recv_loop (mb timeout : Z) : K (call mb_frame (Z * option Z)) :=
  m ← mb_at mb;
  if mb_entry m =? 0 then
    thread ← current;
    upd_thread thread (set_th_error RT_EOK);;
    if timeout =? 0 then
      upd_thread thread (set_th_error (- RT_ETIMEOUT));;
      mret (Ret (- RT_ETIMEOUT, None))
    else
      r ← mb_wait (LSuspend mb) mb 0 thread timeout;
      match r with Wait f => mret (Wait f) | Ret r => mret (Ret (r, None)) end
  else r ← mb_recv_rest mb; mret (Ret r).
Definition rt_mb_recv (mb timeout : Z) : K (call mb_frame (Z * option Z)) :=
  assert_class (Obj mb) RT_Object_Class_MailBox;;
  m ← mb_at mb;
  if (mb_entry m =? 0) && (timeout =? 0) then mret (Ret (- RT_ETIMEOUT, None))
  else mb_recv_loop mb timeout.
Definition rt_mb_recv_resume (f : mb_frame) : K (call mb_frame (Z * option Z)) :=
  th ← thread_at (mf_thread f);
  if negb (th_error th =? RT_EOK) then mret (Ret (th_error th, None)) else
  now ← rt_tick_get;
  mb_recv_loop (mf_mb f) (remaining_timeout (mf_timeout f) (mf_tick_delta f) now).

Definition rt_mb_control (mb cmd arg : Z) : K Z :=
  assert_class (Obj mb) RT_Object_Class_MailBox;;
  if cmd =? RT_IPC_CMD_RESET then
    rt_ipc_list_resume_all (LSuspend mb);;
    rt_ipc_list_resume_all (LSender mb);;
    m ← mb_at mb;
    put_mb mb (set_mb_entry 0 (set_mb_in_offset 0 (set_mb_out_offset 0 m)));;
    rt_schedule;;
    mret RT_EOK
  else mret (- RT_ERROR).

(** * The queue a mailbox implements *)

Record mb_inv (m : rt_mailbox) : Prop := {
  mi_size : 1 ≤ mb_size m ≤ RT_MB_ENTRY_MAX;
  mi_pool : Z.of_nat (length (mb_msg_pool m)) = mb_size m;
  mi_entry : 0 ≤ mb_entry m ≤ mb_size m;
  mi_out : 0 ≤ mb_out_offset m < mb_size m;
  mi_in : mb_in_offset m = (mb_out_offset m + mb_entry m) mod mb_size m
}.
(** The word in cell [i] behind the oldest one. *)
Definition mb_cell (m : rt_mailbox) (i : nat) : Z :=
  nth (Z.to_nat ((mb_out_offset m + Z.of_nat i) mod mb_size m)) (mb_msg_pool m) 0.
Definition mb_queue (m : rt_mailbox) : list Z := mb_cell m <$> seq 0 (Z.to_nat (mb_entry m)).

Lemma next_offset_mod off size : 0 ≤ off < size → size ≤ RT_MB_ENTRY_MAX →
  next_offset off size = (off + 1) mod size.
Proof.
  change RT_MB_ENTRY_MAX with 65535. intros H1 H2. unfold next_offset. rewrite u16_small by lia.
  destruct (Z.leb_spec size (off + 1)).
  - replace (off + 1) with size by lia. by rewrite Z.mod_same by lia.
  - by rewrite Z.mod_small by lia.
Qed.

(** Offsets less than [s] apart meet different cells. *)
Lemma mod_window s o e i : 0 ≤ i < e → e < s → (o + i) mod s ≠ (o + e) mod s.
Proof.
  intros Hi Hs E. pose proof (Z_div_mod_eq_full (o + i) s). pose proof (Z_div_mod_eq_full (o + e) s).
  assert (e - i = s * ((o + e) / s - (o + i) / s)) by lia.
  destruct (Z_le_gt_dec ((o + e) / s - (o + i) / s) 0); nia.
Qed.
Lemma mb_store_queue v m :
  mb_inv m → mb_entry m < mb_size m →
  ∃ m', mb_store v m = Some m' ∧ mb_entry m' = mb_entry m ∧ mb_size m' = mb_size m ∧
    mb_inv (set_mb_entry (mb_entry m + 1) m') ∧
    mb_queue (set_mb_entry (mb_entry m + 1) m') = mb_queue m ++ [v].
Proof.
  intros [Hs Hp He Ho Hi] Hlt. unfold mb_store.
  assert (0 ≤ mb_in_offset m < mb_size m) as Hr by (rewrite Hi; apply Z.mod_pos_bound; lia).
  rewrite decide_True by lia. eexists. do 3 (split; [done|]). split.
  - constructor; simpl; try done; [|lia|].
    + by rewrite length_insert.
    + rewrite next_offset_mod by lia. rewrite Hi, Zplus_mod_idemp_l. f_equal. lia.
  - unfold mb_queue. simpl. replace (Z.to_nat (mb_entry m + 1)) with (S (Z.to_nat (mb_entry m))) by lia.
    rewrite seq_S, fmap_app. simpl. f_equal.
    + apply list_fmap_ext. intros i x Hx. apply lookup_seq in Hx as [-> Hx]. unfold mb_cell. simpl.
      rewrite !nth_lookup. f_equal. rewrite list_lookup_insert_ne; [done|].
      assert ((mb_out_offset m + Z.of_nat i) mod mb_size m ≠ mb_in_offset m) as Hne.
      { rewrite Hi. apply mod_window; lia. }
      pose proof (Z.mod_pos_bound (mb_out_offset m + Z.of_nat i) (mb_size m) ltac:(lia)). lia.
    + f_equal. unfold mb_cell. simpl. rewrite Z2Nat.id, <-Hi by lia.
      rewrite nth_lookup, list_lookup_insert_eq by lia. done.
Qed.
Lemma mb_fetch_queue m :
  mb_inv m → 0 < mb_entry m →
  ∃ v m', mb_fetch m = Some (v, m') ∧ mb_entry m' = mb_entry m ∧ mb_size m' = mb_size m ∧
    mb_inv (set_mb_entry (mb_entry m - 1) m') ∧
    mb_queue m = v :: mb_queue (set_mb_entry (mb_entry m - 1) m').
Proof.
  intros [Hs Hp He Ho Hi] Hlt. unfold mb_fetch.
  destruct (lookup_lt_is_Some_2 (mb_msg_pool m) (Z.to_nat (mb_out_offset m))) as [v Hv]; [lia|].
  rewrite Hv. simpl. eexists v, _. do 3 (split; [done|]).
  assert (next_offset (mb_out_offset m) (mb_size m) = (mb_out_offset m + 1) mod mb_size m) as En
    by (apply next_offset_mod; lia).
  split.
  - constructor; simpl; try done; [lia| |].
    + rewrite En. apply Z.mod_pos_bound. lia.
    + rewrite Hi, En, Zplus_mod_idemp_l. f_equal. lia.
  - unfold mb_queue. simpl. replace (Z.to_nat (mb_entry m)) with (S (Z.to_nat (mb_entry m - 1))) by lia.
    cbn [seq]. rewrite fmap_cons. f_equal.
    + unfold mb_cell. rewrite Z.add_0_r, Z.mod_small by lia. by erewrite nth_lookup_Some.
    + rewrite <-fmap_S_seq, <-list_fmap_compose. apply list_fmap_ext. intros i x _.
      unfold mb_cell. simpl. rewrite En, Zplus_mod_idemp_l. do 3 f_equal. lia.
Qed.

(** A mailbox object with its state. *)
Record mb_ok (b : Z) (m : rt_mailbox) (k : kernel) : Prop := {
  mk_mb : mailboxes k !! b = Some m;
  mk_inv : mb_inv m;
  mk_object : ∃ o, objects k !! Obj b = Some o ∧ class_of o = RT_Object_Class_MailBox ∧
    (o_flag o = RT_IPC_FLAG_FIFO ∨ o_flag o = RT_IPC_FLAG_PRIO)
}.
Lemma wp_mb_at k b m (Q : rt_mailbox → kernel → Prop) :
  mailboxes k !! b = Some m → Q m k → wp (mb_at b) Q k.
Proof. apply wp_deref. Qed.
Lemma kinv_mailboxes lo m k : kinv lo k → kinv lo (set_mailboxes m k).
Proof. intros Hk. by apply (kinv_same lo k). Qed.

(** The first of the threads on [h], if there is one, is READY; otherwise
    nothing is. *)
Definition woke_first (h : lhead) (k k' : kernel) : Prop :=
  match tl h k with
  | [] => tl h k' = [] ∧ threads k' = threads k ∧ current_thread k' = current_thread k
  | t :: l => tl h k' = l ∧ ∃ th, threads k !! t = Some th ∧
      threads k' = <[t := with_stat RT_THREAD_READY th]> (threads k) ∧
      tl (LReady (th_current_priority th)) k' = tl (LReady (th_current_priority th)) k ++ [t]
  end.

(** Waking one thread of a list at the end of a call. *)
Lemma wake_when_wp lo k h (Q : unit → kernel → Prop) :
  kinv lo k → ipc_head h →
  (∀ k', kinv lo k' → woke_first h k k' → mailboxes k' = mailboxes k →
     mqueues k' = mqueues k → mempools k' = mempools k →
     (∀ a, objects k' !! Obj a = objects k !! Obj a) →
     (∀ h', ipc_head h' → h' ≠ h → tl h' k' = tl h' k) → lock_nest k' = lock_nest k → Q tt k') →
  wp (when (negb (bool_decide (tl h k = []))) (rt_ipc_list_resume h;; rt_schedule)) Q k.
Proof.
  intros Hk Hh HQ. wp_simpl. case_bool_decide as Hnil; simpl; wp_simpl.
  - apply (HQ k); try done. unfold woke_first. by rewrite Hnil.
  - destruct (tl h k) as [|t l] eqn:El; [done|].
    destruct (rt_ipc_list_resume_run lo k h t l Hk Hh El) as (th & Hth & Hst & Hwp).
    eapply wp_mono; [exact Hwp|]. intros r1 k1 (_ & Hm & El1 & _). wp_simpl.
    eapply wp_mono; [apply (schedule_run lo); [apply Hm|eapply moved_ready; [done|by apply stat_of_with_stat]]|].
    intros [] k2 [Hk2 ((c & q & ->) & _)]. destruct Hm as [Hk1 Hf1 Eth1 Htl1 Ho1].
    apply HQ; try done; try apply Hf1; [|apply Ho1|].
    + unfold woke_first. rewrite El. split; [done|]. exists th. split; [done|]. split; [done|].
      change (tl (LReady (th_current_priority th)) k1 = tl (LReady (th_current_priority th)) k ++ [t]).
      rewrite Htl1. unfold tl_ready. by rewrite decide_True.
    + intros h' Hh' Hne. change (tl h' k1 = tl h' k). rewrite Htl1. unfold tl_ready.
      rewrite decide_False by by destruct h'. apply lremove_notin. intros Hin. apply Hne.
      eapply (si_one _ _ (ki_sched _ _ Hk) _ _ t); [done|]. rewrite El. by left.
Qed.

Lemma wake_if_wp {A} lo k h (r : A) (Q : A → kernel → Prop) :
  kinv lo k → ipc_head h →
  (∀ k', kinv lo k' → woke_first h k k' → mailboxes k' = mailboxes k →
     mqueues k' = mqueues k → mempools k' = mempools k →
     (∀ a, objects k' !! Obj a = objects k !! Obj a) →
     (∀ h', ipc_head h' → h' ≠ h → tl h' k' = tl h' k) → lock_nest k' = lock_nest k → Q r k') →
  wp (if negb (bool_decide (tl h k = [])) then rt_ipc_list_resume h;; rt_schedule;; mret r
      else mret r) Q k.
Proof.
  intros Hk Hh HQ. pose proof (wake_when_wp lo k h (λ _, Q r) Hk Hh HQ) as H. revert H.
  destruct (negb _); wp_simpl; [|done]. intros H. eapply wp_mono; [exact H|].
  intros a s H'. wp_simpl. exact H'.
Qed.

(** Sending to a mailbox that is not full, from a thread or an interrupt:
    RT_EOK, the word is appended to the queue, and the first waiting receiver,
    if any, becomes READY. *)
Theorem rt_mb_send_appends k b m v timeout :
  kinv 0 k → mb_ok b m k → mb_entry m < mb_size m →
  wp (rt_mb_send_wait b v timeout) (λ r k', r = Ret RT_EOK ∧ kinv 0 k' ∧ woke_first (LSuspend b) k k' ∧
    tl (LSender b) k' = tl (LSender b) k ∧
    ∃ m', mb_ok b m' k' ∧ mb_queue m' = mb_queue m ++ [v] ∧ mb_size m' = mb_size m) k.
Proof.
  intros Hk [Hm Hinv (o & Ho & Hc & Hfl)] Hlt.
  destruct (mb_store_queue v m Hinv Hlt) as (m1 & Es & Ee & Ez & Hinv1 & Eq1).
  unfold rt_mb_send_wait, mb_send_loop, mb_send_rest. wp_simpl. eapply assert_class_run; [done..|]. wp_simpl.
  eapply wp_mb_at; [done|]. wp_simpl. rewrite (proj2 (Z.eqb_neq _ _)) by lia. simpl. wp_simpl.
  eapply wp_mb_at; [done|]. wp_simpl. rewrite (proj2 (Z.eqb_neq _ _)) by lia. wp_simpl.
  eapply wp_mb_at; [done|]. wp_simpl. rewrite Es. unfold put_mb. wp_simpl. rewrite Ee.
  pose proof (mi_size _ Hinv). rewrite (proj2 (Z.ltb_lt _ _)) by lia. wp_simpl. simpl.
  rewrite insert_insert_eq. set (m2 := set_mb_entry _ m1) in *. set (k1 := set_mailboxes _ _).
  assert (kinv 0 k1) as Hk1 by by apply (kinv_same 0 k).
  change (tl (LSuspend b) k) with (tl (LSuspend b) k1).
  apply (wake_if_wp 0 k1); [done|done|].
  intros k' Hk' Hw Emb _ _ Eo Etl _. apply wp_ret. split; [done|]. split; [done|]. split; [done|].
  split; [by apply Etl|]. exists m2. split; [|done]. constructor; [|done|rewrite Eo; by exists o].
  rewrite Emb. simpl. by rewrite lookup_insert_eq.
Qed.

(** Receiving from a mailbox that is not empty: RT_EOK with the oldest
    word, which leaves the queue, and the first waiting sender, if any, becomes
    READY. With [rt_mb_send_appends], words come out in the order they went in. *)
Theorem rt_mb_recv_takes k b m timeout :
  kinv 0 k → mb_ok b m k → 0 < mb_entry m →
  wp (rt_mb_recv b timeout) (λ r k', ∃ v m', r = Ret (RT_EOK, Some v) ∧ kinv 0 k' ∧
    woke_first (LSender b) k k' ∧ tl (LSuspend b) k' = tl (LSuspend b) k ∧
    mb_ok b m' k' ∧ mb_queue m = v :: mb_queue m' ∧ mb_size m' = mb_size m) k.
Proof.
  intros Hk [Hm Hinv (o & Ho & Hc & Hfl)] Hlt.
  destruct (mb_fetch_queue m Hinv Hlt) as (v & m1 & Es & Ee & Ez & Hinv1 & Eq1).
  unfold rt_mb_recv, mb_recv_loop, mb_recv_rest. wp_simpl. eapply assert_class_run; [done..|]. wp_simpl.
  eapply wp_mb_at; [done|]. wp_simpl. rewrite (proj2 (Z.eqb_neq _ _)) by lia. simpl. wp_simpl.
  eapply wp_mb_at; [done|]. wp_simpl. rewrite (proj2 (Z.eqb_neq _ _)) by lia. wp_simpl.
  eapply wp_mb_at; [done|]. wp_simpl. rewrite Es. unfold put_mb. wp_simpl. simpl. rewrite Ee.
  rewrite (proj2 (Z.ltb_lt _ _)) by lia. set (m2 := set_mb_entry _ m1) in *.
  set (k1 := set_mailboxes _ _). assert (kinv 0 k1) as Hk1 by by apply (kinv_same 0 k).
  rewrite <-wp_when. apply (wake_when_wp 0 k1); [done|done|].
  intros k' Hk' Hw Emb _ _ Eo Etl _. apply wp_ret. exists v, m2. split; [done|]. split; [done|]. split; [done|].
  split; [by apply Etl|]. split; [|done]. constructor; [|done|rewrite Eo; by exists o].
  rewrite Emb. simpl. by rewrite lookup_insert_eq.
Qed.
End mailbox.
