(* ===== verification/MsgQueue.v ===== *)
(** Message queues of os/ipc.c: messages of a fixed size in a pool of nodes,
    linked into a queue and a free list. [mq_nodes] maps the address of a node
    to its [next] pointer and the bytes behind it. *)
From S2P Require Import Prelude Kservice Mem KState Sched Object Timer Thread Ipc Mailbox.

(** The locals of a call that waits: the message to send, or the size asked for. *)
Record mq_frame := MqFrame {
  qf_mq : Z;
  qf_buffer : list Z;
  qf_size : Z;
  qf_thread : Z;
  qf_timeout : Z;
  qf_tick_delta : Z
}.

(** * The linked lists *)

Definition node_at (q : rt_messagequeue) (p : Z) : option rt_mq_message := mq_nodes q !! p.
Definition set_node (p : Z) (n : rt_mq_message) (q : rt_messagequeue) : rt_messagequeue :=
  set_mq_nodes (<[p := n]> (mq_nodes q)) q.
(** p->next = next *)
Definition set_next (p next : Z) (q : rt_messagequeue) : option rt_messagequeue :=
  n ← node_at q p; Some (set_node p (set_msg_next next n) q).
(** msg = mq->msg_queue_free; mq->msg_queue_free = msg->next; *)
Definition mq_take_free (q : rt_messagequeue) : option (Z * rt_messagequeue) :=
  let msg := mq_free q in
  n ← node_at q msg; Some (msg, set_mq_free (msg_next n) q).
(** rt_memcpy(msg + 1, buffer, size) *)
Definition mq_copy_in (msg : Z) (buffer : list Z) (size : Z) (q : rt_messagequeue) : option rt_messagequeue :=
  n ← node_at q msg;
  if decide (Z.to_nat size ≤ length buffer ∧ Z.to_nat size ≤ length (msg_data n))%nat then
    Some (set_node msg (set_msg_data (lwrite 0 (take (Z.to_nat size) buffer) (msg_data n)) n) q)
  else None.
Definition mq_link_tail (msg : Z) (q : rt_messagequeue) : option rt_messagequeue :=
  q ← (if mq_tail q =? 0 then Some q else set_next (mq_tail q) msg q);
  let q := set_mq_tail msg q in
  Some (if mq_head q =? 0 then set_mq_head msg q else q).
Definition mq_link_head (msg : Z) (q : rt_messagequeue) : option rt_messagequeue :=
  q ← set_next msg (mq_head q) q;
  let q := set_mq_head msg q in
  Some (if mq_tail q =? 0 then set_mq_tail msg q else q).
Definition mq_unlink_head (q : rt_messagequeue) : option (Z * rt_messagequeue) :=
  let msg := mq_head q in
  n ← node_at q msg;
  let q := set_mq_head (msg_next n) q in
  Some (msg, if mq_tail q =? msg then set_mq_tail 0 q else q).
(** msg->next = mq->msg_queue_free; mq->msg_queue_free = msg; *)
Definition mq_release (msg : Z) (q : rt_messagequeue) : option rt_messagequeue :=
  q ← set_next msg (mq_free q) q; Some (set_mq_free msg q).

(** The list operations of rt_mq_send_wait, rt_mq_urgent and rt_mq_recv. *)
Definition mq_append (buffer : list Z) (size : Z) (q : rt_messagequeue) : option rt_messagequeue :=
  x ← mq_take_free q;
  let msg := x.1 in
  q ← set_next msg 0 x.2;
  q ← mq_copy_in msg buffer size q;
  mq_link_tail msg q.
Definition mq_prepend (buffer : list Z) (size : Z) (q : rt_messagequeue) : option rt_messagequeue :=
  x ← mq_take_free q;
  let msg := x.1 in
  q ← mq_copy_in msg buffer size x.2;
  mq_link_head msg q.
Definition mq_remove (size : Z) (q : rt_messagequeue) : option (list Z * rt_messagequeue) :=
  x ← mq_unlink_head q;
  let msg := x.1 in let q := x.2 in
  let q := if 0 <? mq_entry q then set_mq_entry (mq_entry q - 1) q else q in
  n ← node_at q msg;
  let n_bytes := if mq_msg_size q <? size then mq_msg_size q else size in
  q ← mq_release msg q;
  Some (take (Z.to_nat n_bytes) (msg_data n), q).

(** The loop of rt_mq_init over the nodes from [temp] on; a node's bytes are
    what is in memory, 0 here. *)
Fixpoint mq_build_free (n : nat) (temp : Z) (q : rt_messagequeue) : rt_messagequeue :=
  match n with
  | O => q
  | S n =>
      let head := mq_pool_addr q + temp * (mq_msg_size q + 4) in
      mq_build_free n (temp + 1)
        (set_mq_free head
          (set_node head (Msg (mq_free q) (replicate (Z.to_nat (mq_msg_size q)) 0)) q))
  end.

Section msgqueue.
Context `{CB : Callbacks}.

Definition mq_at (a : Z) : K rt_messagequeue := deref mqueues a.
Definition put_mq (a : Z) (q : rt_messagequeue) : K unit :=
  modify (λ k, set_mqueues (<[a := q]> (mqueues k)) k).

Definition new_mq (msgpool msg_size max_msgs : Z) : rt_messagequeue :=
  mq_build_free (Z.to_nat max_msgs) 0
    {| mq_pool_addr := msgpool; mq_msg_size := msg_size; mq_max_msgs := max_msgs; mq_entry := 0;
       mq_nodes := ∅; mq_head := 0; mq_tail := 0; mq_free := 0 |}.

Definition rt_mq_init (mq : Z) (name : list Z) (msgpool msg_size pool_size flag : Z) : K Z :=
  RT_ASSERT (negb (mq =? 0));;
  rt_object_init (Obj mq) RT_Object_Class_MessageQueue name;;
  upd_object (Obj mq) (set_o_flag flag);;
  rt_ipc_object_init (LSuspend mq);;
  let msg_size := u16 (RT_ALIGN msg_size RT_ALIGN_SIZE) in
  put_mq mq (new_mq msgpool msg_size (u16 (pool_size / (msg_size + 4))));;
  list_head_init (LSender mq);;
  mret RT_EOK.

Definition rt_mq_detach (mq : Z) : K Z :=
  assert_class (Obj mq) RT_Object_Class_MessageQueue;;
  assert_static (Obj mq) true;;
  rt_ipc_list_resume_all (LSuspend mq);;
  rt_ipc_list_resume_all (LSender mq);;
  rt_object_detach (Obj mq);;
  mret RT_EOK.

Definition rt_mq_create (name : list Z) (msg_size max_msgs flag : Z) : K Z :=
  RT_DEBUG_NOT_IN_INTERRUPT;;
  mq ← rt_object_allocate RT_Object_Class_MessageQueue name;
  if mq =? 0 then mret 0 else
  upd_object (Obj mq) (set_o_flag flag);;
  rt_ipc_object_init (LSuspend mq);;
  let msg_size := u16 (RT_ALIGN msg_size RT_ALIGN_SIZE) in
  let max_msgs := u16 max_msgs in
  pool ← RT_KERNEL_MALLOC ((msg_size + 4) * max_msgs);
  if pool =? 0 then rt_object_delete mq;; mret 0 else
  put_mq mq (new_mq pool msg_size max_msgs);;
  list_head_init (LSender mq);;
  mret mq.

Definition rt_mq_delete (mq : Z) : K Z :=
  RT_DEBUG_NOT_IN_INTERRUPT;;
  assert_class (Obj mq) RT_Object_Class_MessageQueue;;
  assert_static (Obj mq) false;;
  rt_ipc_list_resume_all (LSuspend mq);;
  rt_ipc_list_resume_all (LSender mq);;
  q ← mq_at mq;
  RT_KERNEL_FREE (mq_pool_addr q);;
  rt_object_delete mq;;
  modify (λ k, set_mqueues (delete mq (mqueues k)) k);;
  mret RT_EOK.

(** The body of the waiting loops up to [rt_schedule]. *)
Definition mq_wait (h : lhead) (mq : Z) (buffer : list Z) (size thread timeout : Z) : K (call mq_frame Z) :=
  flag ← object_flag (Obj mq);
  now ← rt_tick_get;
  ipc_suspend h thread flag timeout;;
  rt_schedule;;
  mret (Wait {| qf_mq := mq; qf_buffer := buffer; qf_size := size; qf_thread := thread;
                qf_timeout := timeout; qf_tick_delta := if 0 <? timeout then now else 0 |}).

(** if (mq->entry < RT_MQ_ENTRY_MAX) mq->entry ++ ..., and the first receiver. *)
Definition mq_sent (mq : Z) : K Z :=
  q ← mq_at mq;
  if mq_entry q <? RT_MQ_ENTRY_MAX then
    put_mq mq (set_mq_entry (mq_entry q + 1) q);;
    l ← gets (tl (LSuspend mq));
    if negb (bool_decide (l = [])) then
      rt_ipc_list_resume (LSuspend mq);; rt_schedule;; mret RT_EOK
    else mret RT_EOK
  else mret (- RT_EFULL).

Definition mq_send_rest (mq : Z) (buffer : list Z) (size : Z) : K Z :=
  q ← mq_at mq;
  q ← lift (mq_append buffer size q);
  put_mq mq q;;
  mq_sent mq.
(** while ((msg = mq->msg_queue_free) == RT_NULL) *)
Definition mq_send_loop (mq : Z) (buffer : list Z) (size timeout : Z) : K (call mq_frame Z) :=
  q ← mq_at mq;
  if mq_free q =? 0 then
    thread ← current;
    upd_thread thread (set_th_error RT_EOK);;
    if timeout =? 0 then mret (Ret (- RT_EFULL)) else
    RT_DEBUG_IN_THREAD_CONTEXT;;
    mq_wait (LSender mq) mq buffer size thread timeout
  else r ← mq_send_rest mq buffer size; mret (Ret r).
Definition rt_mq_send_wait (mq : Z) (buffer : list Z) (size timeout : Z) : K (call mq_frame Z) :=
  assert_class (Obj mq) RT_Object_Class_MessageQueue;;
  RT_ASSERT (negb (size =? 0));;
  q ← mq_at mq;
  if mq_msg_size q <? size then mret (Ret (- RT_ERROR)) else
  if (mq_free q =? 0) && (timeout =? 0) then mret (Ret (- RT_EFULL))
  else mq_send_loop mq buffer size timeout.
Definition rt_mq_send_wait_resume (f : mq_frame) : K (call mq_frame Z) :=
  th ← thread_at (qf_thread f);
  if negb (th_error th =? RT_EOK) then mret (Ret (th_error th)) else
  now ← rt_tick_get;
  mq_send_loop (qf_mq f) (qf_buffer f) (qf_size f)
    (remaining_timeout (qf_timeout f) (qf_tick_delta f) now).
Definition rt_mq_send (mq : Z) (buffer : list Z) (size : Z) : K (call mq_frame Z) :=
  rt_mq_send_wait mq buffer size 0.

Definition rt_mq_urgent (mq : Z) (buffer : list Z) (size : Z) : K Z :=
  assert_class (Obj mq) RT_Object_Class_MessageQueue;;
  RT_ASSERT (negb (size =? 0));;
  q ← mq_at mq;
  if mq_msg_size q <? size then mret (- RT_ERROR) else
  if mq_free q =? 0 then mret (- RT_EFULL) else
  q ← lift (mq_prepend buffer size q);
  put_mq mq q;;
  mq_sent mq.

(** Returns the code and the bytes written to [buffer], if any. *)
Definition mq_recv_rest (mq size : Z) : K (Z * option (list Z)) :=
  q ← mq_at mq;
  x ← lift (mq_remove size q);
  put_mq mq x.2;;
  l ← gets (tl (LSender mq));
  when (negb (bool_decide (l = [])))
    (rt_ipc_list_resume (LSender mq);; rt_schedule);;
  mret (RT_EOK, Some x.1).
(** while (mq->entry == 0) *)
Definition mq_recv_loop (mq size timeout : Z) : K (call mq_frame (Z * option (list Z))) :=
  q ← mq_at mq;
  if mq_entry q =? 0 then
    RT_DEBUG_IN_THREAD_CONTEXT;;
    thread ← current;
    upd_thread thread (set_th_error RT_EOK);;
    if timeout =? 0 then
      upd_thread thread (set_th_error (- RT_ETIMEOUT));;
      mret (Ret (- RT_ETIMEOUT, None))
    else
      r ← mq_wait (LSuspend mq) mq [] size thread timeout;
      match r with Wait f => mret (Wait f) | Ret r => mret (Ret (r, None)) end
  else r ← mq_recv_rest mq size; mret (Ret r).
Definition rt_mq_recv (mq size timeout : Z) : K (call mq_frame (Z * option (list Z))) :=
  assert_class (Obj mq) RT_Object_Class_MessageQueue;;
  RT_ASSERT (negb (size =? 0));;
  q ← mq_at mq;
  if (mq_entry q =? 0) && (timeout =? 0) then mret (Ret (- RT_ETIMEOUT, None))
  else mq_recv_loop mq size timeout.
Definition rt_mq_recv_resume (f : mq_frame) : K (call mq_frame (Z * option (list Z))) :=
  th ← thread_at (qf_thread f);
  if negb (th_error th =? RT_EOK) then mret (Ret (th_error th, None)) else
  now ← rt_tick_get;
  mq_recv_loop (qf_mq f) (qf_size f) (remaining_timeout (qf_timeout f) (qf_tick_delta f) now).

(** while (mq->msg_queue_head != RT_NULL): one node per round, so the number of
    nodes bounds the rounds of a list without a cycle. *)
Fixpoint mq_flush (fuel : nat) (q : rt_messagequeue) : option rt_messagequeue :=
  if mq_head q =? 0 then Some q else
  match fuel with
  | O => None
  | S fuel => x ← mq_unlink_head q; q ← mq_release x.1 x.2; mq_flush fuel q
  end.
Definition rt_mq_control (mq cmd arg : Z) : K Z :=
  assert_class (Obj mq) RT_Object_Class_MessageQueue;;
  if cmd =? RT_IPC_CMD_RESET then
    rt_ipc_list_resume_all (LSuspend mq);;
    rt_ipc_list_resume_all (LSender mq);;
    q ← mq_at mq;
    q ← lift (mq_flush (size (mq_nodes q)) q);
    put_mq mq (set_mq_entry 0 q);;
    rt_schedule;;
    mret RT_EOK
  else mret (- RT_ERROR).
End msgqueue.

(** * The queue it implements *)

Abbreviation chain := (slist msg_next).
Definition msg_bytes (ns : gmap Z rt_mq_message) (a : Z) : list Z :=
  default [] (msg_data <$> ns !! a).
(** The messages of the nodes [qs]. *)
Definition mq_messages (q : rt_messagequeue) (qs : list Z) : list (list Z) :=
  msg_bytes (mq_nodes q) <$> qs.

(** [qs] are the queued nodes, [fs] the free ones. *)
Record mq_inv (q : rt_messagequeue) (qs fs : list Z) : Prop := {
  qi_nodup : NoDup (qs ++ fs);
  qi_head : chain (mq_nodes q) (mq_head q) qs;
  qi_free : chain (mq_nodes q) (mq_free q) fs;
  qi_tail : mq_tail q = default 0 (last qs);
  qi_entry : mq_entry q = Z.of_nat (length qs);
  qi_count : Z.of_nat (length (qs ++ fs)) ≤ RT_MQ_ENTRY_MAX;
  qi_data : ∀ a n, mq_nodes q !! a = Some n → Z.of_nat (length (msg_data n)) = mq_msg_size q
}.

(** Linking one more node behind the last. *)
Lemma chain_snoc ns p l t nt m nm :
  NoDup (l ++ [t]) → m ∉ l ++ [t] → m ≠ 0 → chain ns p (l ++ [t]) →
  ns !! t = Some nt → ns !! m = Some nm → msg_next nm = 0 →
  chain (<[t := set_msg_next m nt]> ns) p (l ++ [t; m]).
Proof.
  intros Hnd Hm H0 Hc Ht Hnm Hz. revert p Hc. induction l as [|a l IH]; intros p; simpl.
  - intros (-> & Ht0 & _). split; [done|]. split; [done|].
    apply not_elem_of_cons in Hm as [Hm _].
    exists (set_msg_next m nt). rewrite lookup_insert_eq. split; [done|]. simpl.
    split; [done|]. split; [done|]. exists nm. rewrite lookup_insert_ne by done. done.
  - intros (-> & Ha & n & Hn & Hc). simpl in Hnd, Hm. apply NoDup_cons in Hnd as [Hat Hnd].
    apply not_elem_of_cons in Hm as [_ Hm].
    split; [done|]. split; [done|]. exists n. rewrite lookup_insert_ne by (intros ->; set_solver).
    split; [done|]. by apply IH.
Qed.
Lemma messages_insert_ne (ns : gmap Z rt_mq_message) a n (qs : list Z) :
  a ∉ qs → msg_bytes (<[a := n]> ns) <$> qs = msg_bytes ns <$> qs.
Proof.
  intros Ha. apply list_fmap_ext. intros i x Hx. unfold msg_bytes.
  rewrite lookup_insert_ne; [done|]. intros ->. apply Ha. by eapply list_elem_of_lookup_2.
Qed.
Lemma msg_bytes_next (ns : gmap Z rt_mq_message) a n p x :
  ns !! a = Some n → msg_bytes (<[a := set_msg_next p n]> ns) x = msg_bytes ns x.
Proof.
  intros Ha. unfold msg_bytes. destruct (decide (x = a)) as [->|Hne].
  - by rewrite lookup_insert_eq, Ha.
  - by rewrite lookup_insert_ne.
Qed.

(** The node of a message to send: off the free list, with the bytes in. *)
Definition filled (buffer : list Z) (size : Z) (n : rt_mq_message) (next : Z) : rt_mq_message :=
  Msg next (lwrite 0 (take (Z.to_nat size) buffer) (msg_data n)).
Lemma take_filled buffer size n next :
  (Z.to_nat size ≤ length buffer)%nat →
  take (Z.to_nat size) (msg_data (filled buffer size n next)) = take (Z.to_nat size) buffer.
Proof.
  intros Hs. unfold filled, lwrite. simpl. rewrite take_app_le, firstn_all2; [done|..];
    rewrite length_take; lia.
Qed.

(** What both senders do first: the node off the free list and filled. *)
Lemma take_filled_node q qs m fs n buffer size next :
  mq_inv q qs (m :: fs) → mq_nodes q !! m = Some n → 0 ≤ size ≤ mq_msg_size q →
  (Z.to_nat size ≤ length buffer)%nat →
  let q3 := set_mq_nodes (<[m := filled buffer size n next]> (mq_nodes q)) (set_mq_free (msg_next n) q) in
  mq_inv q3 qs fs ∧ mq_messages q3 qs = mq_messages q qs ∧ (m ∉ qs) ∧ (m ∉ fs) ∧ m ≠ 0.
Proof.
  intros [Hnd Hh (Efree & Hm0 & n' & Hn & Hf) Ht He Hcnt Hd] Hn' Hs Hb q3. assert (n' = n) as -> by congruence.
  assert (NoDup (m :: qs ++ fs)) as Hnd' by (by rewrite Permutation_middle).
  apply NoDup_cons in Hnd' as [Hmn Hnd'].
  assert ((m ∉ qs) ∧ (m ∉ fs)) as [Hmq Hmf] by set_solver.
  split; [|split; [by apply messages_insert_ne|done]].
  constructor; simpl; try done.
  - by apply slist_insert_ne.
  - by apply slist_insert_ne.
  - rewrite length_app in *. simpl in Hcnt. lia.
  - intros a na. destruct (decide (a = m)) as [->|Hne].
    + rewrite lookup_insert_eq. intros [= <-]. pose proof (Hd _ _ Hn).
      unfold filled. simpl. rewrite length_lwrite; [done|]. rewrite length_take. lia.
    + rewrite lookup_insert_ne by done. apply Hd.
Qed.

(** rt_mq_send_wait: the message goes to the end. *)
Lemma mq_append_run q qs m fs buffer size :
  mq_inv q qs (m :: fs) → 0 ≤ size ≤ mq_msg_size q → (Z.to_nat size ≤ length buffer)%nat →
  ∃ q' d, mq_append buffer size q = Some q' ∧ mq_entry q' = mq_entry q ∧
    mq_inv (set_mq_entry (mq_entry q + 1) q') (qs ++ [m]) fs ∧
    take (Z.to_nat size) d = take (Z.to_nat size) buffer ∧
    mq_messages q' (qs ++ [m]) = mq_messages q qs ++ [d].
Proof.
  intros Hq Hs Hb. destruct (qi_free _ _ _ Hq) as (Efree & Hm0 & n & Hn & _).
  destruct (take_filled_node _ _ _ _ n buffer size 0 Hq Hn Hs Hb) as ([Hnd Hh Hf Ht He Hcnt Hd] & Hms & Hmq & Hmf & _).
  pose proof (qi_count _ _ _ Hq) as Hcnt'. pose proof (qi_data _ _ _ Hq _ _ Hn) as Hlen.
  set (n1 := filled buffer size n 0) in *. set (ns1 := <[m := n1]> (mq_nodes q)) in *.
  assert (mq_append buffer size q =
    mq_link_tail m (set_mq_nodes ns1 (set_mq_free (msg_next n) q))) as ->.
  { unfold mq_append, mq_take_free, set_next, mq_copy_in, set_node, node_at. rewrite Efree, Hn. simpl.
    rewrite Hn. simpl. rewrite lookup_insert_eq. simpl. rewrite decide_True by lia.
    simpl. by rewrite insert_insert_eq. }
  assert (ns1 !! m = Some n1) as Hm1 by apply lookup_insert_eq.
  assert (take (Z.to_nat size) (msg_data n1) = take (Z.to_nat size) buffer) as Htk by by apply take_filled.
  assert (msg_next n1 = 0) as Hnx by done. clearbody n1. simpl in *.
  assert (msg_bytes ns1 m = msg_data n1) as Hbm by (unfold msg_bytes; by rewrite Hm1).
  assert (NoDup ((qs ++ [m]) ++ fs)) as Hnd'.
  { rewrite <-app_assoc. simpl. rewrite <-Permutation_middle. apply NoDup_cons. set_solver. }
  assert (Z.of_nat (length ((qs ++ [m]) ++ fs)) ≤ RT_MQ_ENTRY_MAX) as Hcnt''.
  { rewrite !length_app in *. simpl in *. lia. }
  assert (mq_entry q + 1 = Z.of_nat (length (qs ++ [m]))) as He' by (rewrite length_app; simpl; lia).
  unfold mq_link_tail, set_next, set_node, node_at. simpl. rewrite Ht.
  destruct qs as [|t qs' _] using rev_ind.
  - simpl in *. subst. rewrite Hh. simpl.
    eexists _, (msg_data n1). split; [done|]. split; [done|].
    split; [|split; [done|unfold mq_messages; simpl; by rewrite Hbm]].
    constructor; simpl; try done. split; [done|]. split; [done|]. exists n1. by rewrite Hnx.
  - rewrite last_snoc. simpl.
    assert (t ≠ 0) as Ht0 by (eapply slist_nonzero; [exact Hh|set_solver]).
    destruct (slist_lookup _ _ _ _ t Hh) as [nt Hnt]; [set_solver|].
    rewrite (proj2 (Z.eqb_neq _ _) Ht0), Hnt. simpl.
    assert (mq_head q ≠ 0) as Hhd.
    { intros E. apply (slist_head_zero _ _ _ _ Hh) in E. by destruct qs'. }
    rewrite (proj2 (Z.eqb_neq _ _) Hhd).
    eexists _, (msg_data n1). do 2 (split; [done|]). split; [|split; [done|]].
    + constructor; simpl; try done.
      * rewrite <-app_assoc. simpl. apply (chain_snoc _ _ _ _ _ _ n1); try done.
        by apply NoDup_app in Hnd as [? _].
      * apply slist_insert_ne; [|done]. apply NoDup_app in Hnd as (_ & Hdis & _). apply Hdis. set_solver.
      * by rewrite last_snoc.
      * intros a n'. destruct (decide (a = t)) as [->|Hne].
        -- rewrite lookup_insert_eq. intros [= <-]. by apply (Hd t nt).
        -- rewrite lookup_insert_ne by done. apply Hd.
    + unfold mq_messages in *. simpl in *. rewrite fmap_app, <-Hms. simpl.
      rewrite (msg_bytes_next _ _ _ _ _ Hnt), Hbm. f_equal.
      apply list_fmap_ext. intros i x _. by apply msg_bytes_next.
Qed.

(** rt_mq_urgent: the message goes to the front. *)
Lemma mq_prepend_run q qs m fs buffer size :
  mq_inv q qs (m :: fs) → 0 ≤ size ≤ mq_msg_size q → (Z.to_nat size ≤ length buffer)%nat →
  ∃ q' d, mq_prepend buffer size q = Some q' ∧ mq_entry q' = mq_entry q ∧
    mq_inv (set_mq_entry (mq_entry q + 1) q') (m :: qs) fs ∧
    take (Z.to_nat size) d = take (Z.to_nat size) buffer ∧
    mq_messages q' (m :: qs) = d :: mq_messages q qs.
Proof.
  intros Hq Hs Hb. destruct (qi_free _ _ _ Hq) as (Efree & Hm0 & n & Hn & _).
  destruct (take_filled_node _ _ _ _ n buffer size (mq_head q) Hq Hn Hs Hb)
    as ([Hnd Hh Hf Ht He Hcnt Hd] & Hms & Hmq & Hmf & _).
  pose proof (qi_count _ _ _ Hq) as Hcnt'. pose proof (qi_data _ _ _ Hq _ _ Hn) as Hlen.
  set (n1 := filled buffer size n (mq_head q)) in *. set (ns1 := <[m := n1]> (mq_nodes q)) in *.
  assert (mq_prepend buffer size q =
    let q' := set_mq_head m (set_mq_nodes ns1 (set_mq_free (msg_next n) q)) in
    Some (if mq_tail q' =? 0 then set_mq_tail m q' else q')) as ->.
  { unfold mq_prepend, mq_take_free, set_next, mq_copy_in, set_node, node_at. rewrite Efree, Hn. simpl.
    rewrite Hn. simpl. rewrite decide_True by lia. simpl.
    unfold mq_link_head, set_next, set_node, node_at. simpl. rewrite lookup_insert_eq. simpl.
    by rewrite insert_insert_eq. }
  assert (ns1 !! m = Some n1) as Hm1 by apply lookup_insert_eq.
  assert (take (Z.to_nat size) (msg_data n1) = take (Z.to_nat size) buffer) as Htk by by apply take_filled.
  assert (msg_next n1 = mq_head q) as Hnx by done. clearbody n1. simpl in *.
  eexists _, (msg_data n1). split; [done|].
  assert (∀ b : bool, mq_messages (if b then set_mq_tail m (set_mq_head m (set_mq_nodes ns1 (set_mq_free (msg_next n) q)))
     else set_mq_head m (set_mq_nodes ns1 (set_mq_free (msg_next n) q))) (m :: qs) = msg_data n1 :: mq_messages q qs) as Hmsg.
  { intros b. rewrite <-Hms. unfold mq_messages. destruct b; simpl; f_equal;
      unfold msg_bytes; by rewrite Hm1. }
  split; [by destruct (mq_tail q =? 0)|]. split; [|split; [done|apply Hmsg]].
  assert (mq_tail q = 0 ↔ qs = []) as Hemp.
  { rewrite Ht. destruct qs as [|t qs' _] using rev_ind; [done|]. rewrite last_snoc. simpl.
    split; [|by destruct qs']. intros ->. edestruct (slist_nonzero _ _ _ _ 0 Hh); set_solver. }
  assert (mq_inv (set_mq_entry (mq_entry q + 1) (set_mq_tail (if mq_tail q =? 0 then m else mq_tail q)
     (set_mq_head m (set_mq_nodes ns1 (set_mq_free (msg_next n) q))))) (m :: qs) fs) as Hinv.
  { constructor; simpl; try done.
    - apply NoDup_cons. set_solver.
    - split; [done|]. split; [done|]. exists n1. by rewrite Hnx.
    - destruct (Z.eqb_spec (mq_tail q) 0) as [E|E].
      + apply Hemp in E. by subst.
      + rewrite Ht. destruct qs; [naive_solver|]. simpl. by destruct (last _).
    - lia.
    - rewrite !length_app in *. simpl in *. lia. }
  destruct (mq_tail q =? 0); [done|]. by destruct Hinv.
Qed.

(** rt_mq_recv: the first message leaves the queue and its node is free. *)
Lemma mq_remove_run q m qs fs size :
  mq_inv q (m :: qs) fs →
  ∃ q', mq_remove size q = Some (take (Z.to_nat (Z.min size (mq_msg_size q))) (msg_bytes (mq_nodes q) m), q') ∧
    mq_inv q' qs (m :: fs) ∧ mq_messages q' qs = mq_messages q qs ∧ mq_msg_size q' = mq_msg_size q.
Proof.
  intros [Hnd (Eh & Hm0 & n & Hn & Hh) Hf Ht He Hcnt Hd].
  apply NoDup_cons in Hnd as Hnd'. destruct Hnd' as [Hmn Hnd'].
  assert ((m ∉ qs) ∧ (m ∉ fs)) as [Hmq Hmf] by set_solver. simpl in He.
  set (tl' := if mq_tail q =? m then 0 else mq_tail q).
  set (q' := set_mq_free m (set_mq_nodes (<[m := set_msg_next (mq_free q) n]> (mq_nodes q))
    (set_mq_entry (mq_entry q - 1) (set_mq_tail tl' (set_mq_head (msg_next n) q))))).
  exists q'. split; [|split; [|split; [by apply messages_insert_ne|done]]].
  - unfold mq_remove, mq_unlink_head, mq_release, set_next, set_node, node_at, msg_bytes.
    rewrite Eh, Hn. simpl.
    assert ((if mq_msg_size q <? size then mq_msg_size q else size) = Z.min size (mq_msg_size q)) as E
      by (destruct (Z.ltb_spec (mq_msg_size q) size); lia).
    unfold q', tl'. destruct (mq_tail q =? m); simpl; rewrite (proj2 (Z.ltb_lt 0 _)) by lia;
      simpl; rewrite Hn; simpl; by rewrite E.
  - constructor; simpl; try done.
    + by rewrite <-Permutation_middle.
    + by apply slist_insert_ne.
    + split; [done|]. split; [done|]. eexists. rewrite lookup_insert_eq. split; [done|].
      by apply slist_insert_ne.
    + unfold tl'. rewrite Ht. destruct qs as [|t qs' _] using rev_ind; simpl; [by rewrite Z.eqb_refl|].
      rewrite app_comm_cons, !last_snoc. simpl. rewrite (proj2 (Z.eqb_neq _ _)); [done|].
      intros ->. set_solver.
    + lia.
    + rewrite !length_app in *. simpl in *. lia.
    + intros a n'. destruct (decide (a = m)) as [->|Hne].
      * rewrite lookup_insert_eq. intros [= <-]. by apply (Hd m n).
      * rewrite lookup_insert_ne by done. apply Hd.
Qed.

(** The loop of rt_mq_init leaves an empty queue with every node free. *)
Lemma mq_build_free_run n temp q fs :
  0 < mq_pool_addr q → 0 ≤ mq_msg_size q → 0 ≤ temp →
  mq_inv q [] fs → (∀ a, a ∈ fs → a < mq_pool_addr q + temp * (mq_msg_size q + 4)) →
  Z.of_nat (n + length fs) ≤ RT_MQ_ENTRY_MAX →
  ∃ fs', mq_inv (mq_build_free n temp q) [] fs' ∧ length fs' = (n + length fs)%nat ∧
    mq_msg_size (mq_build_free n temp q) = mq_msg_size q.
Proof.
  intros Hp Hs. revert temp q fs Hp Hs. induction n as [|n IH]; intros temp q fs Hp Hs Htp Hq Hlt Hc; simpl.
  { by exists fs. }
  set (h := mq_pool_addr q + temp * (mq_msg_size q + 4)) in *.
  assert (h ∉ fs) as Hh by (intros ?%Hlt; lia).
  assert (h ≠ 0) as Hh0 by nia.
  set (nd := Msg (mq_free q) _). destruct Hq as [Hnd Hhd Hf Ht He Hcnt Hd].
  destruct (IH (temp + 1) (set_mq_free h (set_node h nd q)) (h :: fs)) as (fs' & Hi & Hl & Hz);
    [done|done|lia| |simpl; intros a [->|?%Hlt]%elem_of_cons; unfold h in *; nia|simpl; lia|].
  - constructor; simpl; try done.
    + apply NoDup_cons. split; done.
    + split; [done|]. split; [done|]. exists nd. rewrite lookup_insert_eq. split; [done|].
      by apply slist_insert_ne.
    + simpl in *. lia.
    + intros a n'. destruct (decide (a = h)) as [->|Hne].
      * rewrite lookup_insert_eq. intros [= <-]. simpl. rewrite length_replicate. lia.
      * rewrite lookup_insert_ne by done. apply Hd.
  - exists fs'. split; [done|]. split; [|done]. rewrite Hl. simpl. lia.
Qed.
Lemma new_mq_inv pool msg_size max_msgs :
  0 < pool → 0 ≤ msg_size → 0 ≤ max_msgs ≤ RT_MQ_ENTRY_MAX →
  ∃ fs, mq_inv (new_mq pool msg_size max_msgs) [] fs ∧ Z.of_nat (length fs) = max_msgs ∧
    mq_msg_size (new_mq pool msg_size max_msgs) = msg_size.
Proof.
  intros Hp Hs Hm. unfold new_mq.
  edestruct (mq_build_free_run (Z.to_nat max_msgs) 0
    {| mq_pool_addr := pool; mq_msg_size := msg_size; mq_max_msgs := max_msgs; mq_entry := 0;
       mq_nodes := ∅; mq_head := 0; mq_tail := 0; mq_free := 0 |} []) as (fs & Hi & Hl & Hz); simpl; try done; try lia.
  - constructor; simpl; try done. apply NoDup_nil_2.
  - intros a ?%not_elem_of_nil. done.
  - exists fs. split; [done|]. split; [|done]. rewrite Hl. simpl. lia.
Qed.

(** A message queue object with its state. *)
Record mq_ok (b : Z) (q : rt_messagequeue) (qs fs : list Z) (k : kernel) : Prop := {
  qk_mq : mqueues k !! b = Some q;
  qk_inv : mq_inv q qs fs;
  qk_object : ∃ o, objects k !! Obj b = Some o ∧ class_of o = RT_Object_Class_MessageQueue ∧
    (o_flag o = RT_IPC_FLAG_FIFO ∨ o_flag o = RT_IPC_FLAG_PRIO)
}.

Section claims.
Context `{CB : Callbacks}.
Lemma wp_mq_at k b q (Q : rt_messagequeue → kernel → Prop) :
  mqueues k !! b = Some q → Q q k → wp (mq_at b) Q k.
Proof. apply wp_deref. Qed.
Lemma mq_ok_nonempty q m qs fs : mq_inv q (m :: qs) fs → 0 < mq_entry q.
Proof. intros Hq. rewrite (qi_entry _ _ _ Hq). simpl. lia. Qed.
Lemma mq_free_nonzero q qs m fs : mq_inv q qs (m :: fs) → mq_free q ≠ 0.
Proof. intros Hq. by destruct (qi_free _ _ _ Hq) as (-> & ? & _). Qed.

(** The counting and waking at the end of both senders. *)
Lemma mq_sent_run k b q qs fs q1 qs1 fs1 :
  kinv 0 k → mq_ok b q qs fs k → mq_entry q1 < RT_MQ_ENTRY_MAX →
  mq_inv (set_mq_entry (mq_entry q1 + 1) q1) qs1 fs1 →
  wp (put_mq b q1;; mq_sent b) (λ r k', r = RT_EOK ∧ kinv 0 k' ∧ woke_first (LSuspend b) k k' ∧
    tl (LSender b) k' = tl (LSender b) k ∧ mq_ok b (set_mq_entry (mq_entry q1 + 1) q1) qs1 fs1 k') k.
Proof.
  intros Hk [Hq _ (o & Ho & Hc & Hfl)] Hlt Hinv. unfold mq_sent, put_mq. wp_simpl.
  eapply wp_mq_at; [simpl; by rewrite lookup_insert_eq|]. wp_simpl.
  rewrite (proj2 (Z.ltb_lt _ _)) by done. wp_simpl. simpl. rewrite insert_insert_eq.
  set (q2 := set_mq_entry _ q1) in *. set (k1 := set_mqueues _ _).
  assert (kinv 0 k1) as Hk1 by by apply (kinv_same 0 k).
  change (tl (LSuspend b) k) with (tl (LSuspend b) k1).
  apply (wake_if_wp 0 k1); [done|done|].
  intros k' Hk' Hw _ Emq _ Eo Etl _. split; [done|]. split; [done|]. split; [done|].
  split; [by apply Etl|]. constructor; [|done|rewrite Eo; by exists o].
  rewrite Emq. simpl. by rewrite lookup_insert_eq.
Qed.

(** C10. Sending a message of at most msg_size bytes to a queue with a free
    node: RT_EOK, the message is appended, and the first waiting receiver, if
    any, becomes READY. *)
Theorem rt_mq_send_appends k b q qs m fs buffer size timeout :
  kinv 0 k → mq_ok b q qs (m :: fs) k → 0 < size ≤ mq_msg_size q → (Z.to_nat size ≤ length buffer)%nat →
  wp (rt_mq_send_wait b buffer size timeout) (λ r k', r = Ret RT_EOK ∧ kinv 0 k' ∧
    woke_first (LSuspend b) k k' ∧ ∃ q' d, mq_ok b q' (qs ++ [m]) fs k' ∧
      take (Z.to_nat size) d = take (Z.to_nat size) buffer ∧
      mq_messages q' (qs ++ [m]) = mq_messages q qs ++ [d]) k.
Proof.
  intros Hk Hok Hs Hb. destruct Hok as [Hq Hinv (o & Ho & Hc & Hfl)] eqn:E; clear E.
  destruct (mq_append_run q qs m fs buffer size Hinv) as (q1 & d & Ea & Ee & Hinv1 & Hd & Hms); [lia|done|].
  pose proof (mq_free_nonzero _ _ _ _ Hinv) as Hfr.
  unfold rt_mq_send_wait, mq_send_loop, mq_send_rest. wp_simpl. eapply assert_class_run; [done..|]. wp_simpl.
  rewrite (proj2 (Z.eqb_neq _ _)) by lia. simpl. split; [done|].
  eapply wp_mq_at; [done|]. wp_simpl. rewrite (proj2 (Z.ltb_ge _ _)) by lia. wp_simpl.
  rewrite (proj2 (Z.eqb_neq _ _)) by done. simpl. wp_simpl.
  eapply wp_mq_at; [done|]. wp_simpl. rewrite (proj2 (Z.eqb_neq _ _)) by done. wp_simpl.
  eapply wp_mq_at; [done|]. wp_simpl. rewrite Ea. apply wp_ret.
  pose proof (qi_count _ _ _ Hinv) as Hcnt. rewrite length_app in Hcnt. simpl in Hcnt.
  pose proof (qi_entry _ _ _ Hinv) as Hen. rewrite <-Ee in Hinv1.
  eapply wp_mono; [eapply (mq_sent_run k b q qs (m :: fs) q1); [done|done|lia|done]|].
  intros r k' (-> & Hk' & Hw & _ & Hok'). wp_simpl. do 3 (split; [done|]). eauto.
Qed.

(** Sending an urgent message: it goes in front of all the others. *)
Theorem rt_mq_urgent_prepends k b q qs m fs buffer size :
  kinv 0 k → mq_ok b q qs (m :: fs) k → 0 < size ≤ mq_msg_size q → (Z.to_nat size ≤ length buffer)%nat →
  wp (rt_mq_urgent b buffer size) (λ r k', r = RT_EOK ∧ kinv 0 k' ∧
    woke_first (LSuspend b) k k' ∧ ∃ q' d, mq_ok b q' (m :: qs) fs k' ∧
      take (Z.to_nat size) d = take (Z.to_nat size) buffer ∧
      mq_messages q' (m :: qs) = d :: mq_messages q qs) k.
Proof.
  intros Hk Hok Hs Hb. destruct Hok as [Hq Hinv (o & Ho & Hc & Hfl)] eqn:E; clear E.
  destruct (mq_prepend_run q qs m fs buffer size Hinv) as (q1 & d & Ea & Ee & Hinv1 & Hd & Hms); [lia|done|].
  pose proof (mq_free_nonzero _ _ _ _ Hinv) as Hfr.
  unfold rt_mq_urgent. wp_simpl. eapply assert_class_run; [done..|]. wp_simpl.
  rewrite (proj2 (Z.eqb_neq _ _)) by lia. simpl. split; [done|].
  eapply wp_mq_at; [done|]. wp_simpl. rewrite (proj2 (Z.ltb_ge _ _)) by lia. wp_simpl.
  rewrite (proj2 (Z.eqb_neq _ _)) by done. wp_simpl. rewrite Ea. apply wp_ret.
  pose proof (qi_count _ _ _ Hinv) as Hcnt. rewrite length_app in Hcnt. simpl in Hcnt.
  pose proof (qi_entry _ _ _ Hinv) as Hen. rewrite <-Ee in Hinv1.
  eapply wp_mono; [eapply (mq_sent_run k b q qs (m :: fs) q1); [done|done|lia|done]|].
  intros r k' (-> & Hk' & Hw & _ & Hok'). do 3 (split; [done|]). eauto.
Qed.

(** C11. Receiving from a queue with a message: RT_EOK with the first message,
    cut to the size asked for; it leaves the queue, its node is free, and the
    first waiting sender, if any, becomes READY. *)
Theorem rt_mq_recv_takes k b q m qs fs size timeout :
  kinv 0 k → mq_ok b q (m :: qs) fs k → 0 < size →
  wp (rt_mq_recv b size timeout) (λ r k', ∃ d l, mq_messages q (m :: qs) = d :: l ∧
    r = Ret (RT_EOK, Some (take (Z.to_nat (Z.min size (mq_msg_size q))) d)) ∧ kinv 0 k' ∧
    woke_first (LSender b) k k' ∧ ∃ q', mq_ok b q' qs (m :: fs) k' ∧ mq_messages q' qs = l) k.
Proof.
  intros Hk Hok Hs. destruct Hok as [Hq Hinv (o & Ho & Hc & Hfl)] eqn:E; clear E.
  destruct (mq_remove_run q m qs fs size Hinv) as (q1 & Er & Hinv1 & Hms & Hz).
  pose proof (mq_ok_nonempty _ _ _ _ Hinv) as Hpos.
  unfold rt_mq_recv, mq_recv_loop, mq_recv_rest. wp_simpl. eapply assert_class_run; [done..|]. wp_simpl.
  rewrite (proj2 (Z.eqb_neq _ _)) by lia. simpl. split; [done|].
  eapply wp_mq_at; [done|]. wp_simpl. rewrite (proj2 (Z.eqb_neq _ _)) by lia. simpl. wp_simpl.
  eapply wp_mq_at; [done|]. wp_simpl. rewrite (proj2 (Z.eqb_neq _ _)) by lia. wp_simpl.
  eapply wp_mq_at; [done|]. wp_simpl. rewrite Er. unfold put_mq. wp_simpl.
  simpl. set (k1 := set_mqueues _ _). assert (kinv 0 k1) as Hk1 by by apply (kinv_same 0 k).
  rewrite <-wp_when. apply (wake_when_wp 0 k1); [done|done|].
  intros k' Hk' Hw _ Emq _ Eo Etl _. apply wp_ret.
  exists (msg_bytes (mq_nodes q) m), (mq_messages q qs). do 4 (split; [done|]).
  exists q1. split; [|done]. constructor; [|done|rewrite Eo; by exists o].
  rewrite Emq. simpl. by rewrite lookup_insert_eq.
Qed.
End claims.
