(* ===== verification/MemPool.v ===== *)
(** Memory pools of os/mempool.c and the error number of os/kservice.c. The
    word in front of a block ([pool_words]) links the free blocks; in a block
    that is in use it names the pool. *)
From S2P Require Import Prelude Kservice Mem KState Sched Object Timer Thread Ipc Sem.

Section errno.
Context `{CB : Callbacks}.
(** * Error numbers *)
Definition rt_get_errno : K Z :=
  n ← gets interrupt_nest;
  if negb (n =? 0) then gets kerrno else
  tid ← rt_thread_self;
  match tid with None => gets kerrno | Some t => th ← thread_at t; mret (th_error th) end.
Definition rt_set_errno (error : Z) : K unit :=
  n ← gets interrupt_nest;
  if negb (n =? 0) then modify (set_kerrno error) else
  tid ← rt_thread_self;
  match tid with None => modify (set_kerrno error) | Some t => upd_thread t (set_th_error error) end.
End errno.

(** * Memory pools *)

(** The step from block to block. *)
Definition mp_stride (block_size : Z) : Z := block_size + 4.
(** The loop that links the blocks from [offset] on. *)
Fixpoint mp_link (n : nat) (block_ptr block_size offset : Z) (w : gmap Z Z) : gmap Z Z :=
  match n with
  | O => w
  | S n => mp_link n block_ptr block_size (offset + 1)
             (<[block_ptr + offset * mp_stride block_size :=
                block_ptr + (offset + 1) * mp_stride block_size]> w)
  end.
(** The last link is cut; a pool without a block has none, and the code would
    write in front of the pool. *)
Definition mp_format (block_ptr block_size count : Z) (w : gmap Z Z) : option (gmap Z Z) :=
  if 0 <? count then
    Some (<[block_ptr + (count - 1) * mp_stride block_size := 0]>
            (mp_link (Z.to_nat count) block_ptr block_size 0 w))
  else None.

(** The locals of a call that waits. *)
Record mp_frame := MpFrame { pf_mp : Z; pf_time : Z; pf_before_sleep : Z; pf_thread : Z }.

Section mempool.
Context `{CB : Callbacks}.

Definition mp_at (mp : Z) : K rt_mempool := deref mempools mp.
Definition upd_mp (mp : Z) (f : rt_mempool → rt_mempool) : K unit :=
  m ← mp_at mp; modify (λ k, set_mempools (<[mp := f m]> (mempools k)) k).
Definition word_at (a : Z) : K Z := deref pool_words a.
Definition set_word (a v : Z) : K unit := modify (λ k, set_pool_words (<[a := v]> (pool_words k)) k).
Definition format_pool (mp : Z) (m : rt_mempool) : K unit :=
  w ← gets pool_words;
  w ← lift (mp_format (mp_start_address m) (mp_block_size m) (mp_block_total_count m) w);
  modify (set_pool_words w);;
  modify (λ k, set_mempools (<[mp := m]> (mempools k)) k).

Definition rt_mp_init (mp : Z) (name : list Z) (start size block_size : Z) : K Z :=
  RT_ASSERT (negb (mp =? 0));;
  RT_ASSERT (negb (start =? 0));;
  RT_ASSERT ((0 <? size) && (0 <? block_size));;
  rt_object_init (Obj mp) RT_Object_Class_MemPool name;;
  let size := RT_ALIGN_DOWN size RT_ALIGN_SIZE in
  let block_size := RT_ALIGN block_size RT_ALIGN_SIZE in
  let count := size / mp_stride block_size in
  list_head_init (LSuspend mp);;
  format_pool mp {| mp_start_address := start; mp_size := size; mp_block_size := block_size;
                    mp_block_list := start; mp_block_total_count := count;
                    mp_block_free_count := count |};;
  mret RT_EOK.

Definition rt_mp_detach (mp : Z) : K Z :=
  assert_class (Obj mp) RT_Object_Class_MemPool;;
  assert_static (Obj mp) true;;
  rt_ipc_list_resume_all (LSuspend mp);;
  rt_object_detach (Obj mp);;
  mret RT_EOK.

Definition rt_mp_create (name : list Z) (block_count block_size : Z) : K Z :=
  RT_DEBUG_NOT_IN_INTERRUPT;;
  RT_ASSERT ((0 <? block_count) && (0 <? block_size));;
  mp ← rt_object_allocate RT_Object_Class_MemPool name;
  if mp =? 0 then mret 0 else
  let block_size := RT_ALIGN block_size RT_ALIGN_SIZE in
  let size := u32 ((block_size + 4) * block_count) in
  start ← lift_heap (rt_malloc size);
  if start =? 0 then rt_object_delete mp;; mret 0 else
  list_head_init (LSuspend mp);;
  format_pool mp {| mp_start_address := start; mp_size := size; mp_block_size := block_size;
                    mp_block_list := start; mp_block_total_count := block_count;
                    mp_block_free_count := block_count |};;
  mret mp.

Definition rt_mp_delete (mp : Z) : K Z :=
  RT_DEBUG_NOT_IN_INTERRUPT;;
  assert_class (Obj mp) RT_Object_Class_MemPool;;
  assert_static (Obj mp) false;;
  rt_ipc_list_resume_all (LSuspend mp);;
  m ← mp_at mp;
  lift_heap (rt_free (mp_start_address m));;
  rt_object_delete mp;;
  modify (λ k, set_mempools (delete mp (mempools k)) k);;
  mret RT_EOK.

(** A block comes off the free list and is marked with its pool. *)
Definition mp_take (mp : Z) : K Z :=
  upd_mp mp (λ m, set_mp_block_free_count (u32 (mp_block_free_count m - 1)) m);;
  m ← mp_at mp;
  let block_ptr := mp_block_list m in
  RT_ASSERT (negb (block_ptr =? 0));;
  next ← word_at block_ptr;
  upd_mp mp (set_mp_block_list next);;
  set_word block_ptr mp;;
  mret (block_ptr + 4).
(** Before and behind [rt_schedule] of the waiting loop. *)
Definition mp_wait (mp time thread : Z) : K (call mp_frame Z) :=
  RT_DEBUG_NOT_IN_INTERRUPT;;
  upd_thread thread (set_th_error RT_EOK);;
  rt_thread_suspend thread;;
  tlist_insert_after (LSuspend mp) thread;;
  now ← rt_tick_get;
  when (0 <? time) (thread_timer_start thread time);;
  rt_schedule;;
  mret (Wait {| pf_mp := mp; pf_time := time;
                pf_before_sleep := if 0 <? time then now else 0; pf_thread := thread |}).
Definition mp_alloc_loop (mp time : Z) : K (call mp_frame Z) :=
  m ← mp_at mp;
  if mp_block_free_count m =? 0 then
    if time =? 0 then rt_set_errno (- RT_ETIMEOUT);; mret (Ret 0)
    else thread ← current; mp_wait mp time thread
  else block ← mp_take mp; mret (Ret block).
Definition rt_mp_alloc (mp time : Z) : K (call mp_frame Z) :=
  RT_ASSERT (negb (mp =? 0));;
  mp_alloc_loop mp time.
Definition rt_mp_alloc_resume (f : mp_frame) : K (call mp_frame Z) :=
  th ← thread_at (pf_thread f);
  if negb (th_error th =? RT_EOK) then mret (Ret 0) else
  now ← rt_tick_get;
  mp_alloc_loop (pf_mp f)
    (remaining_timeout (pf_time f) (pf_before_sleep f) now).

Definition rt_mp_free (block : Z) : K unit :=
  if block =? 0 then mret tt else
  let block_ptr := block - 4 in
  mp ← word_at block_ptr;
  upd_mp mp (λ m, set_mp_block_free_count (u32 (mp_block_free_count m + 1)) m);;
  m ← mp_at mp;
  set_word block_ptr (mp_block_list m);;
  upd_mp mp (set_mp_block_list block_ptr);;
  l ← gets (tl (LSuspend mp));
  match l with
  | thread :: _ =>
      upd_thread thread (set_th_error RT_EOK);;
      rt_thread_resume thread;;
      rt_schedule
  | [] => mret tt
  end.
End mempool.

(** * What a pool is *)

Definition word_list (w : gmap Z Z) (p : Z) (l : list Z) : Prop := slist id w p l.
Definition mp_blocks (start block_size count : Z) : list Z :=
  (λ i, start + i * mp_stride block_size) <$> seqZ 0 count.

(** [free] are the free blocks in the order they will be handed out, [used] the
    others; both by the address of the word in front. *)
Record mp_inv (mp : Z) (m : rt_mempool) (w : gmap Z Z) (free used : list Z) : Prop := {
  pi_blocks : free ++ used ≡ₚ mp_blocks (mp_start_address m) (mp_block_size m) (mp_block_total_count m);
  pi_free : word_list w (mp_block_list m) free;
  pi_used : ∀ b, b ∈ used → w !! b = Some mp;
  pi_count : mp_block_free_count m = Z.of_nat (length free);
  pi_start : 0 < mp_start_address m;
  pi_size : 0 < mp_block_size m;
  pi_total : 0 ≤ mp_block_total_count m < 4294967296;
  pi_mp : mp ≠ 0
}.

Lemma mp_blocks_spread start bs n a b :
  0 < bs → a ∈ mp_blocks start bs n → b ∈ mp_blocks start bs n → a ≠ b →
  a + mp_stride bs ≤ b ∨ b + mp_stride bs ≤ a.
Proof.
  intros Hbs (i & -> & _)%list_elem_of_fmap (j & -> & _)%list_elem_of_fmap Hne. unfold mp_stride in *.
  assert (i ≠ j) by congruence. destruct (Z.lt_ge_cases i j); [left|right]; nia.
Qed.
Lemma mp_blocks_nodup start bs n : 0 < bs → NoDup (mp_blocks start bs n).
Proof.
  intros Hbs. apply NoDup_fmap_2_strong; [|apply NoDup_seqZ]. unfold mp_stride. intros i j _ _ E. nia.
Qed.
Lemma mp_inv_nodup mp m w free used : mp_inv mp m w free used → NoDup (free ++ used).
Proof. intros H. rewrite (pi_blocks _ _ _ _ _ H). apply mp_blocks_nodup, (pi_size _ _ _ _ _ H). Qed.
Lemma mp_inv_block mp m w free used b :
  mp_inv mp m w free used → b ∈ free ++ used → b ≠ 0.
Proof.
  intros H. rewrite (pi_blocks _ _ _ _ _ H). intros (i & -> & Hi)%list_elem_of_fmap.
  apply elem_of_seqZ in Hi. pose proof (pi_start _ _ _ _ _ H). pose proof (pi_size _ _ _ _ _ H).
  unfold mp_stride. nia.
Qed.

(** The free list after the loop and the cut. *)
Lemma mp_link_other n p bs o w a :
  0 < bs → (∀ i, o ≤ i < o + Z.of_nat n → a ≠ p + i * mp_stride bs) → mp_link n p bs o w !! a = w !! a.
Proof.
  intros Hbs. revert o w. induction n as [|n IH]; intros o w Ha; [done|]. simpl.
  rewrite IH by (intros i Hi; apply Ha; lia). rewrite lookup_insert_ne; [done|].
  intros E. apply (Ha o); lia.
Qed.
Lemma mp_link_lookup n p bs o w i :
  0 < bs → o ≤ i < o + Z.of_nat n →
  mp_link n p bs o w !! (p + i * mp_stride bs) = Some (p + (i + 1) * mp_stride bs).
Proof.
  intros Hbs. revert o w. induction n as [|n IH]; intros o w Hi; [lia|]. simpl.
  destruct (decide (i = o)) as [->|Hne]; [|apply IH; lia].
  rewrite mp_link_other, lookup_insert_eq; [done|done|]. unfold mp_stride. intros j Hj E. nia.
Qed.
Lemma word_list_seq w p bs n (len : nat) : ∀ o,
  0 < p → 0 < bs → 0 ≤ o → o + Z.of_nat len = n →
  (∀ i, 0 ≤ i < n → w !! (p + i * mp_stride bs) =
     Some (if i =? n - 1 then 0 else p + (i + 1) * mp_stride bs)) →
  word_list w (if (len =? 0)%nat then 0 else p + o * mp_stride bs)
    ((λ i, p + i * mp_stride bs) <$> seqZ o (Z.of_nat len)).
Proof.
  induction len as [|len IH]; intros o Hp Hbs Ho Hn Hw; [done|].
  rewrite seqZ_cons by lia. rewrite fmap_cons. cbn [Nat.eqb]. unfold word_list in *. cbn [slist].
  split; [done|]. split; [unfold mp_stride; nia|]. eexists. split; [apply Hw; lia|]. simpl.
  replace (Z.succ o) with (o + 1) by lia. replace (Z.pred (Z.of_nat (S len))) with (Z.of_nat len) by lia.
  specialize (IH (o + 1) Hp Hbs). replace (if o =? n - 1 then 0 else p + (o + 1) * mp_stride bs)
    with (if (len =? 0)%nat then 0 else p + (o + 1) * mp_stride bs); [apply IH; [lia..|done]|].
  destruct (Nat.eqb_spec len 0), (Z.eqb_spec o (n - 1)); try done; lia.
Qed.
Lemma mp_format_inv mp start size bs count w w' :
  mp_format start bs count w = Some w' → 0 < start → 0 < bs → count < 4294967296 → mp ≠ 0 →
  mp_inv mp (MemPool start size bs start count count) w' (mp_blocks start bs count) [].
Proof.
  unfold mp_format. destruct (Z.ltb_spec 0 count) as [Hc|]; [|done]. intros [= <-] Hst Hbs Hmax Hmp.
  constructor; simpl; try done; try lia.
  - by rewrite app_nil_r.
  - pose proof (word_list_seq (<[start + (count - 1) * mp_stride bs := 0]> (mp_link (Z.to_nat count) start bs 0 w))
      start bs count (Z.to_nat count) 0) as H.
    replace (Z.to_nat count =? 0)%nat with false in H by (symmetry; apply Nat.eqb_neq; lia).
    unfold mp_blocks. rewrite Z2Nat.id in H by lia. rewrite Z.mul_0_l, Z.add_0_r in H. apply H; try lia.
    intros i Hi. destruct (Z.eqb_spec i (count - 1)) as [->|Hne].
    + by rewrite lookup_insert_eq.
    + rewrite lookup_insert_ne by (unfold mp_stride; nia). apply mp_link_lookup; lia.
  - by intros b ?%not_elem_of_nil.
  - unfold mp_blocks. rewrite length_fmap, length_seqZ. lia.
Qed.

Record mp_ok (mp : Z) (m : rt_mempool) (free used : list Z) (k : kernel) : Prop := {
  po_pool : mempools k !! mp = Some m;
  po_inv : mp_inv mp m (pool_words k) free used
}.

Section claims.
Context `{CB : Callbacks}.
Lemma wp_mp_at k mp m (Q : rt_mempool → kernel → Prop) : mempools k !! mp = Some m → Q m k → wp (mp_at mp) Q k.
Proof. apply wp_deref. Qed.
Lemma wp_upd_mp k mp m f (Q : unit → kernel → Prop) :
  mempools k !! mp = Some m → Q tt (set_mempools (<[mp := f m]> (mempools k)) k) → wp (upd_mp mp f) Q k.
Proof. intros Hm HQ. unfold upd_mp. wp_simpl. by eapply wp_mp_at. Qed.
Lemma wp_word_at k a v (Q : Z → kernel → Prop) : pool_words k !! a = Some v → Q v k → wp (word_at a) Q k.
Proof. apply wp_deref. Qed.

Lemma mp_take_run k mp m b free used :
  mp_ok mp m (b :: free) used k →
  wp (mp_take mp) (λ r k', r = b + 4 ∧ ∃ m', mp_ok mp m' free (b :: used) k' ∧
    mp_block_size m' = mp_block_size m ∧
    k' = set_pool_words (<[b := mp]> (pool_words k)) (set_mempools (<[mp := m']> (mempools k)) k)) k.
Proof.
  intros [Hm Hinv]. pose proof (mp_inv_nodup _ _ _ _ _ Hinv) as Hnd.
  destruct Hinv as [Hb (El & Hb0 & n & Hn & Hf) Hu Hc Hst Hsz Htot Hmp]. simpl in Hc.
  assert (Z.of_nat (length free) + 1 ≤ mp_block_total_count m) as Hmax.
  { apply Permutation_length in Hb. unfold mp_blocks in Hb.
    rewrite length_fmap, length_seqZ, length_app in Hb. simpl in Hb. lia. }
  unfold mp_take, set_word. wp_simpl. eapply wp_upd_mp; [done|]. wp_simpl.
  eapply wp_mp_at; [simpl; by rewrite lookup_insert_eq|]. wp_simpl. simpl. rewrite El.
  split; [by rewrite (proj2 (Z.eqb_neq _ _))|]. eapply wp_word_at; [done|]. wp_simpl.
  eapply wp_upd_mp; [simpl; by rewrite lookup_insert_eq|]. wp_simpl. simpl.
  split; [done|]. rewrite insert_insert_eq. eexists. split; [|split; [|done]]; [|done].
  apply NoDup_cons in Hnd as [Hbn Hnd]. rewrite elem_of_app in Hbn.
  constructor; [simpl; by rewrite lookup_insert_eq|]. constructor; simpl; try done.
  - rewrite <-Hb. simpl. by rewrite <-Permutation_middle.
  - apply slist_insert_ne; naive_solver.
  - intros a [->|Ha]%elem_of_cons; [by rewrite lookup_insert_eq|].
    rewrite lookup_insert_ne; [by apply Hu|]. naive_solver.
  - rewrite u32_small; lia.
Qed.

(** Allocating from a pool with a free block: the call returns the memory
    behind the word of the first free block, which is in use from then on, and
    apart by a whole block from every other block in use. *)
Theorem rt_mp_alloc_takes k mp m b free used time :
  mp_ok mp m (b :: free) used k →
  wp (rt_mp_alloc mp time) (λ r k', r = Ret (b + 4) ∧ (∃ m', mp_ok mp m' free (b :: used) k') ∧
    tlists k' = tlists k ∧ threads k' = threads k ∧
    Forall (λ u, b + mp_stride (mp_block_size m) ≤ u ∨ u + mp_stride (mp_block_size m) ≤ b) used) k.
Proof.
  intros Hok. pose proof Hok as [Hm Hinv]. pose proof (mp_inv_nodup _ _ _ _ _ Hinv) as Hnd.
  unfold rt_mp_alloc, mp_alloc_loop. wp_simpl.
  split; [by rewrite (proj2 (Z.eqb_neq _ _)) by apply (pi_mp _ _ _ _ _ Hinv)|].
  eapply wp_mp_at; [done|]. wp_simpl. rewrite (pi_count _ _ _ _ _ Hinv).
  rewrite (proj2 (Z.eqb_neq _ _)) by (simpl; lia). wp_simpl.
  eapply wp_mono; [by apply mp_take_run|]. intros r k' (-> & m' & Hok' & _ & ->). apply wp_ret.
  split; [done|]. split; [by exists m'|]. do 2 (split; [done|]).
  apply NoDup_cons in Hnd as [Hbn _]. rewrite Forall_forall. intros u Hu.
  apply (mp_blocks_spread (mp_start_address m) _ (mp_block_total_count m)); [apply Hinv|..].
  - rewrite <-(pi_blocks _ _ _ _ _ Hinv). by left.
  - rewrite <-(pi_blocks _ _ _ _ _ Hinv). apply elem_of_cons. right. set_solver.
  - intros ->. set_solver.
Qed.

(** The word goes back on the free list. *)
Lemma mp_put_inv mp m w free used b :
  mp_inv mp m w free used → b ∈ used →
  mp_inv mp (set_mp_block_list b (set_mp_block_free_count (u32 (mp_block_free_count m + 1)) m))
    (<[b := mp_block_list m]> w) (b :: free) (lremove b used).
Proof.
  intros Hinv Hb. pose proof (mp_inv_nodup _ _ _ _ _ Hinv) as Hnd.
  pose proof (mp_inv_block _ _ _ _ _ b Hinv ltac:(set_solver)) as Hb0.
  apply NoDup_app in Hnd as (Hnf & Hdis & Hnu).
  destruct Hinv as [Hbl Hf Hu Hc Hst Hsz Htot Hmp].
  assert (used ≡ₚ b :: lremove b used) as Hp.
  { rewrite Permutation_cons_append. symmetry. by apply lremove_cons_perm. }
  assert (Z.of_nat (length free) + 1 ≤ mp_block_total_count m) as Hmax.
  { apply Permutation_length in Hbl. rewrite Hp in Hbl. unfold mp_blocks in Hbl.
    rewrite length_fmap, length_seqZ, length_app in Hbl. simpl in Hbl. lia. }
  constructor; simpl; try done.
  - rewrite <-Hbl. transitivity (free ++ b :: lremove b used); [by rewrite <-Permutation_middle|].
    by rewrite <-Hp.
  - split; [done|]. split; [done|]. eexists. rewrite lookup_insert_eq. split; [done|].
    apply slist_insert_ne; [|done]. intros Hin. by apply (Hdis b).
  - intros a [Ha Hne]%elem_of_lremove. rewrite lookup_insert_ne by done. by apply Hu.
  - rewrite u32_small; lia.
Qed.

(** Freeing a block in use: it is the first free block from then on, and
    the thread that heads the waiting list, if any, is READY with error RT_EOK. *)
Theorem rt_mp_free_returns k mp m b free used :
  kinv 0 k → mp_ok mp m free used k → b ∈ used →
  wp (rt_mp_free (b + 4)) (λ _ k', kinv 0 k' ∧ (∃ m', mp_ok mp m' (b :: free) (lremove b used) k') ∧
    match tl (LSuspend mp) k with
    | [] => tlists k' = tlists k ∧ threads k' = threads k
    | t :: l => tl (LSuspend mp) k' = l ∧ ∃ th th', threads k !! t = Some th ∧
        threads k' = <[t := th']> (threads k) ∧ stat_of th' = RT_THREAD_READY ∧ th_error th' = RT_EOK
    end) k.
Proof.
  intros Hk [Hm Hinv] Hb. pose proof (mp_put_inv _ _ _ _ _ _ Hinv Hb) as Hinv'.
  destruct (pi_used _ _ _ _ _ Hinv b Hb).
  unfold rt_mp_free, set_word. destruct (Z.eqb_spec (b + 4) 0) as [E|_].
  { exfalso. assert (b ∈ mp_blocks (mp_start_address m) (mp_block_size m) (mp_block_total_count m)) as Hin
      by (rewrite <-(pi_blocks _ _ _ _ _ Hinv); set_solver).
    apply list_elem_of_fmap in Hin as (i & -> & Hi%elem_of_seqZ).
    pose proof (pi_start _ _ _ _ _ Hinv). pose proof (pi_size _ _ _ _ _ Hinv). unfold mp_stride in *. nia. }
  replace (b + 4 - 4) with b by lia. wp_simpl.
  eapply wp_word_at; [by apply (pi_used _ _ _ _ _ Hinv)|]. wp_simpl. eapply wp_upd_mp; [done|]. wp_simpl.
  eapply wp_mp_at; [simpl; by rewrite lookup_insert_eq|]. wp_simpl.
  eapply wp_upd_mp; [simpl; by rewrite lookup_insert_eq|]. wp_simpl. simpl. rewrite insert_insert_eq.
  set (m' := set_mp_block_list b _) in *. set (k1 := set_mempools _ _).
  assert (kinv 0 k1) as Hk1 by by apply (kinv_same 0 k).
  assert (∀ k', mempools k' = mempools k1 → pool_words k' = pool_words k1 →
    ∃ m', mp_ok mp m' (b :: free) (lremove b used) k') as Hok.
  { intros k' E1 E2. exists m'. constructor; [rewrite E1; simpl; by rewrite lookup_insert_eq|by rewrite E2]. }
  change (tl (LSuspend mp) k) with (tl (LSuspend mp) k1).
  destruct (tl (LSuspend mp) k1) as [|t l] eqn:El; [by apply wp_ret; auto|].
  destruct (si_fits _ _ (ki_sched _ _ Hk1) (LSuspend mp) t) as (th & Hth & Hst); [rewrite El; by left|].
  simpl in Hst. wp_simpl. eapply wp_upd_thread; [done|]. wp_simpl. set (th1 := set_th_error RT_EOK th). set (k2 := set_threads _ k1).
  assert (kinv 0 k2) as Hk2 by (apply kinv_error; [done|done|by rewrite Hst]).
  eapply wp_mono; [apply (rt_thread_resume_run 0 k2 t th1); [done| |done]|].
  { simpl. by rewrite lookup_insert_eq. }
  intros r k3 (_ & Hmv & _). wp_simpl.
  eapply wp_mono; [apply (schedule_run 0); [apply Hmv|eapply moved_ready; [done|by apply stat_of_with_stat]]|].
  intros [] k4 [Hk4 ((c & q & ->) & _)]. destruct Hmv as [_ Hf3 Eth3 Htl3 _].
  split; [done|]. split; [apply Hok; simpl; [apply (kf_mempools _ _ Hf3)|apply (kf_words _ _ Hf3)]|].
  split.
  - change (tl (LSuspend mp) k3 = l). rewrite Htl3. unfold tl_ready. rewrite decide_False by done.
    change (tl (LSuspend mp) k2) with (tl (LSuspend mp) k1).
    pose proof (si_nodup _ _ (ki_sched _ _ Hk1) (LSuspend mp)) as Hnd. rewrite El in Hnd |- *.
    apply NoDup_cons in Hnd as [? _]. by rewrite lremove_cons_eq, lremove_notin.
  - exists th, (with_stat RT_THREAD_READY th1). split; [done|]. split; [|split; [by apply stat_of_with_stat|done]].
    simpl. rewrite Eth3. simpl. by rewrite insert_insert_eq.
Qed.

(** A READY thread that is suspended and put at the front of a waiting list. *)
Lemma suspend_front_run {A} lo k t th h (f : unit → K A) (Q : A → kernel → Prop) :
  kinv lo k → threads k !! t = Some th → stat_of th = RT_THREAD_READY → ipc_head h →
  (∀ k', kinv lo k' → kframe k k' → threads k' = <[t := with_stat RT_THREAD_SUSPEND th]> (threads k) →
     tl h k' = t :: tl h k → (∀ h', h' ≠ h → tl h' k' = lremove t (tl h' k)) → wp (f tt) Q k') →
  wp (rt_thread_suspend t) (λ _ k1, wp (tlist_insert_after h t ≫= f) Q k1) k.
Proof.
  intros Hk Hth Hst Hh HQ. eapply wp_mono; [by apply (rt_thread_suspend_run lo)|].
  intros r k1 (_ & [Hk1 Hf1 Eth1 Htl1 Ho1] & El1 & Ets1). set (th1 := with_stat _ th) in *.
  assert (threads k1 !! t = Some th1) as Hth1 by (by rewrite Eth1, lookup_insert_eq).
  assert (detached t k1) as Hd1 by (intros h'; rewrite Htl1, elem_of_lremove; naive_solver).
  assert (t ∉ tl h k) as Hn by (eapply ready_not_waiting; [apply Hk|done..]).
  assert (tl h k1 = tl h k) as Etl by (by rewrite Htl1, lremove_notin).
  apply wp_bind, wp_tlist_insert_after; [exact Hd1|]. rewrite Etl. apply HQ; [|by transitivity k1|done|..].
  - apply (kinv_lists lo k1); [done|by constructor|].
    apply (sched_put k1 t th1); try done; [apply Hk1|destruct h; try done; by apply stat_of_with_stat|by destruct h|].
    by rewrite Etl.
  - by rewrite tl_put, decide_True.
  - intros h' Hne. by rewrite tl_put, decide_False, Htl1.
Qed.

(** Allocating from a pool without a free block: without waiting RT_NULL
    and the error -RT_ETIMEOUT; else the caller is SUSPENDed at the front of the
    waiting list, so that the last to come is the first to be served, and
    another thread runs. *)
Theorem rt_mp_alloc_waits k mp m used t th time :
  kinv 0 k → mp_ok mp m [] used k → running t th k → lock_nest k = 0 → other_ready t k →
  time < TICK_HALF →
  wp (rt_mp_alloc mp time) (λ r k', kinv 0 k' ∧ mp_ok mp m [] used k' ∧
    if time =? 0 then r = Ret 0 ∧ k' = set_threads (<[t := set_th_error (- RT_ETIMEOUT) th]> (threads k)) k
    else (∃ f, r = Wait f ∧ pf_thread f = t) ∧ tl (LSuspend mp) k' = t :: tl (LSuspend mp) k ∧
      (0 < time → ThTimer t ∈ timer_list k') ∧
      (∃ th', threads k' = <[t := th']> (threads k) ∧ stat_of th' = RT_THREAD_SUSPEND) ∧
      ∃ u, u ≠ t ∧ current_thread k' = Some u ∧ next_to_run u k') k.
Proof.
  intros Hk Hok [Hn Hcur Hth Hst] Hl Hother Htime. pose proof Hok as [Hm Hinv].
  unfold rt_mp_alloc, mp_alloc_loop, current. wp_simpl.
  split; [by rewrite (proj2 (Z.eqb_neq _ _)) by apply (pi_mp _ _ _ _ _ Hinv)|].
  eapply wp_mp_at; [done|]. wp_simpl. rewrite (pi_count _ _ _ _ _ Hinv). simpl.
  destruct (Z.eqb_spec time 0) as [->|Ht]; wp_simpl.
  - unfold rt_set_errno, rt_thread_self. wp_simpl. rewrite Hn. simpl. wp_simpl. rewrite Hcur.
    eapply wp_upd_thread; [done|]. apply wp_ret. split; [|done].
    apply kinv_error; [done|done|by rewrite Hst].
  - rewrite Hcur. wp_simpl. unfold mp_wait, RT_DEBUG_NOT_IN_INTERRUPT. wp_simpl. rewrite Hn.
    split; [done|]. wp_simpl. eapply wp_upd_thread; [done|]. wp_simpl.
    set (th1 := set_th_error RT_EOK th). set (k1 := set_threads _ k).
    assert (kinv 0 k1) as Hk1 by (apply kinv_error; [done|done|by rewrite Hst]).
    assert (threads k1 !! t = Some th1) as Hth1 by apply lookup_insert_eq.
    apply (suspend_front_run 0 k1 t th1); [done..|].
    intros k2 Hk2 Hf2 Eth2 Etl2 Eo2. unfold rt_tick_get. apply wp_bind, wp_gets, wp_bind.
    set (th2 := with_stat _ th1) in *. set (f := MpFrame _ _ _ _).
    assert (threads k2 = <[t := th2]> (threads k)) as Eth.
    { rewrite Eth2. simpl. by rewrite insert_insert_eq. }
    assert (stat_of th2 = RT_THREAD_SUSPEND) as Hst2 by by apply stat_of_with_stat.
    apply (wp_mono _ (λ _ k3, kinv 0 k3 ∧ kframe k2 k3 ∧ threads k3 = threads k2 ∧ tlists k3 = tlists k2 ∧
      (0 < time → ThTimer t ∈ timer_list k3))).
    { destruct (Z.ltb_spec 0 time) as [Hp|Hp]; simpl; [|apply wp_ret; split_and!; try done; lia].
      eapply wp_mono; [apply (thread_timer_start_run 0 k2 t th2); try done; [by rewrite Eth, lookup_insert_eq|lia]|].
      intros [] k3 (? & ? & ? & ? & _ & _ & tm & _ & _ & ? & _). done. }
    intros [] k3 (Hk3 & Hf3 & Eth3 & Etl3 & Hin). wp_simpl.
    assert (threads k3 = <[t := th2]> (threads k)) as Eth3' by by rewrite Eth3.
    eapply wp_mono; [apply (schedule_run 0); [done|by eapply other_ready_some]|].
    intros [] k4 [Hk4 (Hs & H1 & _)]. pose proof Hs as (c & q & E4). wp_simpl.
    assert (kframe k k3) as Hf by (transitivity k2; [|done]; transitivity k1; [by constructor|done]).
    split; [done|]. split; [constructor; rewrite E4; simpl; [by rewrite (kf_mempools _ _ Hf)|by rewrite (kf_words _ _ Hf)]|].
    split; [by exists f|]. rewrite E4. split; [|split; [done|split]].
    + change (tl (LSuspend mp) k3 = t :: tl (LSuspend mp) k). unfold tl in *. by rewrite Etl3.
    + exists th2. done.
    + destruct H1 as (u & Hu & Hnx); [by rewrite (kf_lock _ _ Hf)|]. rewrite E4 in Hu. simpl in *.
      exists u. split; [|split; [done|done]]. intros ->. destruct Hnx as (p & l & _ & El & _).
      unfold tl in El. rewrite Etl3 in El. fold (tl (LReady p) k2) in El. rewrite Eo2 in El by done.
      assert (t ∈ lremove t (tl (LReady p) k1)) as [_ ?]%elem_of_lremove; [rewrite El; by left|done].
Qed.
End claims.
