(* ===== verification/DriverIpc.v ===== *)
(** What the communication objects of the drivers (components/drivers/src) share: each
    has a table of its own beside the kernel's state, waits as the objects of
    [Ipc] do, first in first out, and wakes the first thread of a list. *)
From S2P Require Import Prelude Kservice Mem KState Sched Object Timer Thread Ipc Mailbox.

(** A call of the kernel from a component with the table [T]. *)
Definition in_k {T A} (m : K A) : M (kernel * T) A := λ s,
  match m s.1 with Some (x, k) => Some (x, (k, s.2)) | None => None end.
Lemma wp_in_k {T A} (m : K A) (Q : A → kernel * T → Prop) s :
  wp (in_k m) Q s ↔ wp m (λ x k, Q x (k, s.2)) s.1.
Proof. unfold wp, in_k. by destruct (m s.1) as [[??]|]. Qed.
#[export] Hint Rewrite @wp_in_k : wp.

Section driver_ipc.
Context `{CB : Callbacks}.
Implicit Types k : kernel.

Lemma wake_run k h (Q : unit → kernel → Prop) :
  kinv 0 k → ipc_head h → tl h k ≠ [] →
  (∀ k', kinv 0 k' → woke_first h k k' → (∀ h', ipc_head h' → h' ≠ h → tl h' k' = tl h' k) → Q tt k') →
  wp (rt_ipc_list_resume h) (λ _ k1, wp rt_schedule Q k1) k.
Proof.
  intros Hk Hh Hne HQ. pose proof (wake_when_wp 0 k h Q Hk Hh) as H.
  rewrite bool_decide_eq_false_2 in H by done. apply (proj1 (wp_bind _ (λ _, rt_schedule) _ _)), H. auto.
Qed.

(** [t] waits on the list [h], with the error number cleared, and another thread runs. *)
Record blocked (t : Z) (th : rt_thread) (h : lhead) (timeout : Z) (k k' : kernel) : Prop := {
  bl_inv : kinv 0 k';
  bl_list : tl h k' = tl h k ++ [t];
  bl_other : ∀ h', h' ≠ h → tl h' k' = lremove t (tl h' k);
  bl_threads : threads k' = <[t := with_stat RT_THREAD_SUSPEND (set_th_error RT_EOK th)]> (threads k);
  bl_timed : timed t timeout k k';
  bl_runs : lock_nest k = 0 → ∃ u, u ≠ t ∧ current_thread k' = Some u ∧ next_to_run u k'
}.
Lemma block_run k t th h timeout :
  kinv 0 k → running t th k → other_ready t k → ipc_head h → timeout < TICK_HALF →
  wp (ipc_suspend h t RT_IPC_FLAG_FIFO timeout)
    (λ _ k1, wp rt_schedule (λ _ k', blocked t th h timeout k k') k1)
    (set_threads (<[t := set_th_error RT_EOK th]> (threads k)) k).
Proof.
  intros Hk [Hn Hcur Hth Hst] Hother Hh Htime. set (th1 := set_th_error _ th). set (k1 := set_threads _ k).
  assert (kinv 0 k1) as Hk1 by (apply kinv_error; [done|done|by rewrite Hst]).
  assert (threads k1 !! t = Some th1) as Hth1 by (simpl; by rewrite lookup_insert_eq).
  apply (proj1 (wp_bind _ (λ _, rt_schedule) _ _)).
  eapply wp_mono; [apply (ipc_block_run 0 k1 t th1 h RT_IPC_FLAG_FIFO timeout);
    first [done|lia|by left|by apply other_ready_set]|].
  intros [] k3 ([Hk3 _ _ Eth3 Hpl Htl3] & Ht & Hu). constructor; try done.
  - destruct Hpl as (l1 & l2 & El & -> & Hl2). simpl in Hl2. subst l2. rewrite app_nil_r in El. by rewrite <-El.
  - rewrite Eth3. simpl. by rewrite insert_insert_eq.
Qed.
(** The same with the steps of [ipc_suspend] apart: some callers look at the interrupt nesting
    between them. *)
Lemma block_split_run k t th h timeout :
  kinv 0 k → running t th k → other_ready t k → ipc_head h → timeout < TICK_HALF →
  wp (rt_ipc_list_suspend h t RT_IPC_FLAG_FIFO)
    (λ _ k1, interrupt_nest k1 = 0 ∧
       wp (when (0 <? timeout) (thread_timer_start t timeout))
         (λ _ k2, wp rt_schedule (λ _ k', blocked t th h timeout k k') k2) k1)
    (set_threads (<[t := set_th_error RT_EOK th]> (threads k)) k).
Proof.
  intros Hk Hrun Hother Hh Htime. pose proof (block_run k t th h timeout Hk Hrun Hother Hh Htime) as Hw.
  unfold ipc_suspend in Hw. rewrite wp_bind in Hw.
  assert (wp (rt_ipc_list_suspend h t RT_IPC_FLAG_FIFO) (λ _ k1, interrupt_nest k1 = 0)
    (set_threads (<[t := set_th_error RT_EOK th]> (threads k)) k)) as Hn.
  { destruct Hrun as [Hnest _ Hth Hst].
    eapply wp_mono; [apply (rt_ipc_list_suspend_run 0 _ t (set_th_error RT_EOK th) h); [| | |done|by left]|].
    - apply kinv_error; [done|done|by rewrite Hst].
    - simpl. by rewrite lookup_insert_eq.
    - done.
    - intros r k1 (_ & _ & Hkf & _). by rewrite (kf_nest _ _ Hkf). }
  eapply wp_mono; [exact (wp_conj _ _ _ _ Hn Hw)|]. intros r k1 [Hn1 Hw1]. done.
Qed.
Lemma lremove_first (x : Z) l : x ∉ l → lremove x (x :: l) = l.
Proof. intros Hx. unfold lremove. rewrite filter_cons_False by (intros H; by apply H). by apply lremove_notin. Qed.
(** A thread is woken if it sleeps. *)
Lemma resume_any_run t th k :
  kinv 0 k → threads k !! t = Some th → stat_of th ≠ RT_THREAD_CLOSE →
  wp (rt_thread_resume t) (λ r k',
    if stat_of th =? RT_THREAD_SUSPEND
    then r = RT_EOK ∧ moved 0 t (with_stat RT_THREAD_READY th) (tl_ready t th k) k k'
    else r = - RT_ERROR ∧ k' = k) k.
Proof.
  intros Hk Hth Hc. destruct (Z.eqb_spec (stat_of th) RT_THREAD_SUSPEND) as [E|E].
  - eapply wp_mono; [by apply (rt_thread_resume_run 0)|]. by intros r k' (-> & Hm & _).
  - destruct (ki_thread _ _ Hk _ _ Hth Hc) as [(o & Ho & Hco) _ _].
    unfold rt_thread_resume. wp_simpl. eapply assert_class_run; [done..|]. wp_simpl. eapply wp_thread_at; [done|].
    rewrite (proj2 (Z.eqb_neq _ _) E). simpl. by wp_simpl.
Qed.
(** A thread that suspends itself, with or without a timeout. *)
Lemma suspend_self_run k t th tick (timed : bool) :
  kinv 0 k → running t th k → other_ready t k → 0 ≤ tick < TICK_HALF →
  wp (rt_thread_suspend t)
    (λ _ k1, wp (when timed (thread_timer_start t tick))
      (λ _ k2, wp rt_schedule (λ _ k', kinv 0 k' ∧ threads k' = <[t := with_stat RT_THREAD_SUSPEND th]> (threads k) ∧
        iframe k k' ∧ same_objects k k') k2) k1) k.
Proof.
  intros Hk [_ _ Hth Hst] Hother Htick.
  eapply wp_mono; [by apply (rt_thread_suspend_run 0)|]. intros r1 k1 (-> & [Hk1 Hf1 Eth1 Htl1 Ho1] & _).
  set (th1 := with_stat _ th) in *.
  assert (wp (when timed (thread_timer_start t tick)) (λ _ k2, kinv 0 k2 ∧ kframe k k2 ∧ threads k2 = threads k1 ∧
    same_objects k k2) k1) as Hw.
  { destruct timed; wp_simpl; [|done].
    eapply wp_mono; [apply (thread_timer_start_run 0 k1 t th1); try done; [by rewrite Eth1, lookup_insert_eq|by apply stat_of_with_stat]|].
    intros [] k2 (Hk2 & Hf2 & Eth2 & _ & _ & Ho2 & _). split_and!; [done|by transitivity k1|done|by transitivity k1]. }
  eapply wp_mono; [exact Hw|]. intros [] k2 (Hk2 & Hf2 & Eth2 & Ho2).
  eapply wp_mono; [apply (schedule_run 0); [done|eapply other_ready_some; [done|by rewrite Eth2]]|].
  intros [] k3 [Hk3 [(c & q & E3) _]]. split_and!; [done| | |].
  - by rewrite E3; simpl; rewrite Eth2.
  - transitivity k2; [by apply kframe_iframe|]. apply switch_iframe. by eexists _, _.
  - transitivity k2; [done|]. by apply same_objects_eq; rewrite E3.
Qed.
End driver_ipc.
