(* ===== verification/DataQueue.v ===== *)
(** Data queues of components/drivers/src/dataqueue.c: a cyclic array of items with
    one list of threads that wait to push and one of threads that wait to pop. The
    loops around rt_schedule are split there, as in [Mailbox]. *)
From S2P Require Import Prelude Kservice Mem KState Sched Object Timer Thread Ipc Mailbox DriverIpc.

Definition DATAQUEUE_MAGIC : Z := 3199012366.
Definition RT_DATAQUEUE_EVENT_POP : Z := 1.
Definition RT_DATAQUEUE_EVENT_PUSH : Z := 2.
Definition RT_DATAQUEUE_EVENT_LWM : Z := 3.

(** An item is a pointer and a size; [dq_queue] is the address of the array and
    [dq_items] what it holds. The indices are bit fields of 15 bits. *)
Record rt_data_queue := DQueue {
  dq_magic : Z;
  dq_size : Z;
  dq_lwm : Z;
  dq_get_index : Z;
  dq_is_empty : bool;
  dq_put_index : Z;
  dq_is_full : bool;
  dq_queue : Z;
  dq_items : list (Z * Z);
  dq_evt_notify : Z
}.
Definition u15 (x : Z) : Z := x mod 32768.
(** The kernel, and the queues by address. Queue [q] has its poppers on
    [LSuspend q] and its pushers on [LSender q]. *)
Abbreviation dstate := (kernel * gmap Z rt_data_queue)%type.
Abbreviation D := (M dstate).
(** The notification functions of the drivers. *)
Class DqCallbacks := { evt_notify_fn : Z → Z → Z → D unit }.

(** The locals of a call that waits. *)
Record dq_frame := DqFrame { df_queue : Z; df_item : Z * Z; df_thread : option Z; df_timeout : Z }.

Section data_queue.
Context `{CB : Callbacks} `{DC : DqCallbacks}.

Definition dq_at (queue : Z) : D rt_data_queue := qs ← gets snd; lift (qs !! queue).
Definition put_dq (queue : Z) (q : rt_data_queue) : D unit :=
  modify (λ s : dstate, (s.1, <[queue := q]> s.2)).
Definition dq_assert (queue : Z) : D unit :=
  RT_ASSERT (negb (queue =? 0));;
  q ← dq_at queue;
  RT_ASSERT (dq_magic q =? DATAQUEUE_MAGIC).
Definition notify (queue event : Z) : D unit :=
  q ← dq_at queue;
  when (negb (dq_evt_notify q =? 0)) (evt_notify_fn (dq_evt_notify q) queue event).

Definition rt_data_queue_init (queue size lwm evt_notify : Z) : D Z :=
  RT_ASSERT (negb (queue =? 0));;
  RT_ASSERT (0 <? u16 size);;
  in_k (list_head_init (LSender queue));;
  in_k (list_head_init (LSuspend queue));;
  addr ← in_k (lift_heap (rt_malloc (u32 (8 * u16 size))));
  put_dq queue (DQueue DATAQUEUE_MAGIC (u16 size) (u16 lwm) 0 true 0 false addr
    (if addr =? 0 then [] else replicate (Z.to_nat (u16 size)) (0, 0)) evt_notify);;
  mret (if addr =? 0 then - RT_ENOMEM else RT_EOK).

(** ++ index; if (index == size) index = 0; *)
Definition next_index (index size : Z) : Z :=
  let index := u15 (index + 1) in if index =? size then 0 else index.
Definition dq_store (item : Z * Z) (q : rt_data_queue) : option rt_data_queue :=
  if decide (Z.to_nat (dq_put_index q) < length (dq_items q))%nat then
    let put := next_index (dq_put_index q) (dq_size q) in
    Some (DQueue (dq_magic q) (dq_size q) (dq_lwm q) (dq_get_index q) false put
           (if put =? dq_get_index q then true else dq_is_full q) (dq_queue q)
           (<[Z.to_nat (dq_put_index q) := item]> (dq_items q)) (dq_evt_notify q))
  else None.
Definition dq_fetch (q : rt_data_queue) : option ((Z * Z) * rt_data_queue) :=
  item ← dq_items q !! Z.to_nat (dq_get_index q);
  let get := next_index (dq_get_index q) (dq_size q) in
  Some (item, DQueue (dq_magic q) (dq_size q) (dq_lwm q) get
                (if dq_put_index q =? get then true else dq_is_empty q) (dq_put_index q) false
                (dq_queue q) (dq_items q) (dq_evt_notify q)).
Definition dq_len (q : rt_data_queue) : Z :=
  if dq_is_empty q then 0 else
  u16 (s16 (if dq_get_index q <? dq_put_index q then dq_put_index q - dq_get_index q
            else dq_size q + dq_put_index q - dq_get_index q)).
Definition rt_data_queue_len (queue : Z) : D Z :=
  dq_assert queue;; q ← dq_at queue; mret (dq_len q).

(** The body of the waiting loops: the caller goes to the end of the list, its
    timer runs when there is a timeout, and another thread is switched to. *)
Definition dq_wait (h : lhead) (f : dq_frame) : D unit :=
  in_k RT_DEBUG_NOT_IN_INTERRUPT;;
  thread ← lift (df_thread f);
  in_k (upd_thread thread (set_th_error RT_EOK));;
  in_k (ipc_suspend h thread RT_IPC_FLAG_FIFO (df_timeout f));;
  in_k rt_schedule.

(** Behind the loop. A push that wakes a thread does not notify. *)
Definition dq_push_rest (queue : Z) (item : Z * Z) : D Z :=
  q ← dq_at queue;
  q ← lift (dq_store item q);
  put_dq queue q;;
  l ← in_k (gets (tl (LSuspend queue)));
  if negb (bool_decide (l = [])) then
    in_k (rt_ipc_list_resume (LSuspend queue);; rt_schedule);; mret RT_EOK
  else notify queue RT_DATAQUEUE_EVENT_PUSH;; mret RT_EOK.
(** while (queue->is_full) *)
Definition dq_push_loop (f : dq_frame) : D (call dq_frame Z) :=
  q ← dq_at (df_queue f);
  if dq_is_full q then
    if df_timeout f =? 0 then mret (Ret (- RT_ETIMEOUT)) else
    dq_wait (LSender (df_queue f)) f;; mret (Wait f)
  else r ← dq_push_rest (df_queue f) (df_item f); mret (Ret r).
Definition rt_data_queue_push (queue data_ptr data_size timeout : Z) : D (call dq_frame Z) :=
  dq_assert queue;;
  thread ← in_k rt_thread_self;
  dq_push_loop (DqFrame queue (data_ptr, data_size) thread timeout).
Definition rt_data_queue_push_resume (f : dq_frame) : D (call dq_frame Z) :=
  thread ← lift (df_thread f);
  th ← in_k (thread_at thread);
  if negb (th_error th =? RT_EOK) then mret (Ret (th_error th)) else dq_push_loop f.

(** A pusher is woken at the low water mark only. *)
Definition dq_pop_rest (queue : Z) : D (Z * option (Z * Z)) :=
  q ← dq_at queue;
  x ← lift (dq_fetch q);
  put_dq queue x.2;;
  len ← rt_data_queue_len queue;
  if len <=? dq_lwm x.2 then
    l ← in_k (gets (tl (LSender queue)));
    when (negb (bool_decide (l = []))) (in_k (rt_ipc_list_resume (LSender queue);; rt_schedule));;
    notify queue RT_DATAQUEUE_EVENT_LWM;;
    mret (RT_EOK, Some x.1)
  else notify queue RT_DATAQUEUE_EVENT_POP;; mret (RT_EOK, Some x.1).
(** while (queue->is_empty) *)
Definition dq_pop_loop (f : dq_frame) : D (call dq_frame (Z * option (Z * Z))) :=
  q ← dq_at (df_queue f);
  if dq_is_empty q then
    if df_timeout f =? 0 then mret (Ret (- RT_ETIMEOUT, None)) else
    dq_wait (LSuspend (df_queue f)) f;; mret (Wait f)
  else r ← dq_pop_rest (df_queue f); mret (Ret r).
Definition rt_data_queue_pop (queue timeout : Z) : D (call dq_frame (Z * option (Z * Z))) :=
  dq_assert queue;;
  thread ← in_k rt_thread_self;
  dq_pop_loop (DqFrame queue (0, 0) thread timeout).
Definition rt_data_queue_pop_resume (f : dq_frame) : D (call dq_frame (Z * option (Z * Z))) :=
  thread ← lift (df_thread f);
  th ← in_k (thread_at thread);
  if negb (th_error th =? RT_EOK) then mret (Ret (th_error th, None)) else dq_pop_loop f.

Definition rt_data_queue_peek (queue : Z) : D (Z * option (Z * Z)) :=
  dq_assert queue;;
  q ← dq_at queue;
  if dq_is_empty q then mret (- RT_EEMPTY, None) else
  item ← lift (dq_items q !! Z.to_nat (dq_get_index q));
  mret (RT_EOK, Some item).
(** Both loops give the threads the error -RT_ERROR. *)
Definition rt_data_queue_reset (queue : Z) : D unit :=
  dq_assert queue;;
  q ← dq_at queue;
  put_dq queue (DQueue (dq_magic q) (dq_size q) (dq_lwm q) 0 true 0 false (dq_queue q) (dq_items q) (dq_evt_notify q));;
  in_k (rt_enter_critical;;
        rt_ipc_list_resume_all (LSuspend queue);;
        rt_ipc_list_resume_all (LSender queue);;
        rt_exit_critical;;
        rt_schedule).
Definition rt_data_queue_deinit (queue : Z) : D Z :=
  dq_assert queue;;
  rt_data_queue_reset queue;;
  q ← dq_at queue;
  put_dq queue (DQueue 0 (dq_size q) (dq_lwm q) (dq_get_index q) (dq_is_empty q) (dq_put_index q)
    (dq_is_full q) (dq_queue q) (dq_items q) (dq_evt_notify q));;
  in_k (lift_heap (rt_free (dq_queue q)));;
  mret RT_EOK.
End data_queue.

(** * The queue of items *)

(** [n] items from index [o] on, around the end of the array. *)
Definition cyc {A} (items : list A) (o n : Z) : list A :=
  omap (λ i, items !! Z.to_nat ((o + i) mod Z.of_nat (length items))) (seqZ 0 n).
Section cyc.
Context {A : Type}.
Implicit Types items : list A.
Lemma cyc_snoc items o n v : 0 ≤ n < Z.of_nat (length items) →
  cyc (<[Z.to_nat ((o + n) mod Z.of_nat (length items)) := v]> items) o (n + 1) = cyc items o n ++ [v].
Proof.
  intros Hn. unfold cyc. rewrite length_insert.
  pose proof (Z.mod_pos_bound (o + n) (Z.of_nat (length items)) ltac:(lia)).
  rewrite seqZ_app by lia. rewrite omap_app. f_equal.
  - apply list_omap_ext. apply Forall2_same_length_lookup_2; [done|].
    intros i x y Hx Hy. rewrite Hx in Hy. injection Hy as <-. apply lookup_seqZ in Hx as [-> Hi].
    rewrite list_lookup_insert_ne; [done|]. pose proof (mod_window (Z.of_nat (length items)) o n (0 + Z.of_nat i)).
    pose proof (Z.mod_pos_bound (o + (0 + Z.of_nat i)) (Z.of_nat (length items)) ltac:(lia)). lia.
  - change (seqZ (0 + n) 1) with [0 + n]. simpl. by rewrite list_lookup_insert_eq by lia.
Qed.
Lemma cyc_cons items o n v :
  0 ≤ o < Z.of_nat (length items) → 0 < n → items !! Z.to_nat o = Some v →
  cyc items o n = v :: cyc items ((o + 1) mod Z.of_nat (length items)) (n - 1).
Proof.
  intros Ho Hn Hv. unfold cyc. rewrite seqZ_cons by lia. simpl.
  rewrite Z.add_0_r, Z.mod_small, Hv by lia. f_equal.
  apply list_omap_ext, Forall2_same_length_lookup_2; [rewrite !length_seqZ; lia|].
  intros i x y Hx Hy. apply lookup_seqZ in Hx as [-> _], Hy as [-> _].
  rewrite Zplus_mod_idemp_l. do 3 f_equal. lia.
Qed.
End cyc.

(** A queue with [n] items. Sizes above 32768 do not fit the indices. *)
Record dq_inv (q : rt_data_queue) (n : Z) : Prop := {
  dv_magic : dq_magic q = DATAQUEUE_MAGIC;
  dv_size : 1 ≤ dq_size q ≤ 32768;
  dv_items : Z.of_nat (length (dq_items q)) = dq_size q;
  dv_count : 0 ≤ n ≤ dq_size q;
  dv_get : 0 ≤ dq_get_index q < dq_size q;
  dv_put : dq_put_index q = (dq_get_index q + n) mod dq_size q;
  dv_empty : dq_is_empty q = (n =? 0);
  dv_full : dq_is_full q = (n =? dq_size q)
}.
Definition dq_list (q : rt_data_queue) (n : Z) : list (Z * Z) := cyc (dq_items q) (dq_get_index q) n.
(** What a push or a pop leaves as it is. *)
Definition same_config (q q' : rt_data_queue) : Prop :=
  dq_size q' = dq_size q ∧ dq_lwm q' = dq_lwm q ∧ dq_queue q' = dq_queue q ∧ dq_evt_notify q' = dq_evt_notify q.

Lemma next_index_mod i size : 0 ≤ i < size → size ≤ 32768 → next_index i size = (i + 1) mod size.
Proof.
  intros Hi Hs. unfold next_index, u15. destruct (Z.eq_dec i 32767) as [->|].
  - assert (size = 32768) as -> by lia. done.
  - rewrite (Z.mod_small (i + 1) 32768) by lia. destruct (Z.eqb_spec (i + 1) size) as [->|].
    + by rewrite Z.mod_same by lia.
    + by rewrite Z.mod_small by lia.
Qed.
Lemma mod_back o n s : 0 ≤ o < s → 0 ≤ n ≤ s → (o + n) mod s = o ↔ n = 0 ∨ n = s.
Proof.
  intros Ho Hn. split.
  - intros E. pose proof (Z_div_mod_eq_full (o + n) s). rewrite E in H.
    assert (n = s * ((o + n) / s)) as En by lia. destruct (Z_le_gt_dec ((o + n) / s) 0); nia.
  - intros [->| ->]; [by rewrite Z.add_0_r, Z.mod_small|].
    rewrite <-(Z.mul_1_l s) at 1. by rewrite Z_mod_plus_full, Z.mod_small.
Qed.
Lemma dq_len_run q n : dq_inv q n → dq_len q = n.
Proof.
  intros [_ Hs _ Hn Hg Hp He Hf]. unfold dq_len. rewrite He. destruct (Z.eqb_spec n 0) as [->|Hz]; [done|].
  assert ((if dq_get_index q <? dq_put_index q then dq_put_index q - dq_get_index q
           else dq_size q + dq_put_index q - dq_get_index q) = n) as ->.
  { rewrite Hp. destruct (Z_lt_le_dec (dq_get_index q + n) (dq_size q)).
    - rewrite Z.mod_small by lia. rewrite (proj2 (Z.ltb_lt _ _)) by lia. lia.
    - replace ((dq_get_index q + n) mod dq_size q) with (dq_get_index q + n - dq_size q).
      + rewrite (proj2 (Z.ltb_ge _ _)) by lia. lia.
      + apply (Zmod_unique _ _ 1); lia. }
  unfold u16, s16. rewrite Zminus_mod, Zmod_mod, <-Zminus_mod.
  replace (n + 32768 - 32768) with n by lia. apply Z.mod_small. lia.
Qed.
Lemma dq_store_run q n item : dq_inv q n → n < dq_size q →
  ∃ q', dq_store item q = Some q' ∧ dq_inv q' (n + 1) ∧ same_config q q' ∧
    dq_list q' (n + 1) = dq_list q n ++ [item].
Proof.
  intros [Hm Hs Hi Hn Hg Hp He Hf] Hlt. unfold dq_store.
  pose proof (Z.mod_pos_bound (dq_get_index q + n) (dq_size q) ltac:(lia)) as Hr. rewrite <-Hp in Hr.
  rewrite decide_True by lia. eexists. split; [done|].
  assert (next_index (dq_put_index q) (dq_size q) = (dq_get_index q + (n + 1)) mod dq_size q) as En.
  { rewrite next_index_mod, Hp, Zplus_mod_idemp_l by lia. f_equal. lia. }
  split; [|split; [done|]].
  - constructor; simpl; try done; [by rewrite length_insert|lia| |].
    + symmetry. apply Z.eqb_neq. lia.
    + rewrite En, Hf. pose proof (mod_back (dq_get_index q) (n + 1) (dq_size q) Hg ltac:(lia)) as Hb.
      destruct (Z.eqb_spec ((dq_get_index q + (n + 1)) mod dq_size q) (dq_get_index q)) as [E|E].
      * symmetry. apply Z.eqb_eq. apply Hb in E as [?|?]; lia.
      * rewrite (proj2 (Z.eqb_neq n (dq_size q))) by lia. symmetry. apply Z.eqb_neq. intros ?. apply E, Hb. by right.
  - unfold dq_list. simpl. rewrite Hp, <-Hi. apply cyc_snoc. lia.
Qed.
Lemma dq_fetch_run q n : dq_inv q n → 0 < n →
  ∃ item q', dq_fetch q = Some (item, q') ∧ dq_inv q' (n - 1) ∧ same_config q q' ∧
    dq_list q n = item :: dq_list q' (n - 1).
Proof.
  intros [Hm Hs Hi Hn Hg Hp He Hf] Hlt. unfold dq_fetch.
  destruct (lookup_lt_is_Some_2 (dq_items q) (Z.to_nat (dq_get_index q))) as [v Hv]; [lia|].
  rewrite Hv. simpl. rewrite next_index_mod by lia. eexists v, _. split; [done|].
  assert (dq_put_index q = ((dq_get_index q + 1) mod dq_size q + (n - 1)) mod dq_size q) as Ep.
  { rewrite Hp, Zplus_mod_idemp_l. f_equal. lia. }
  pose proof (Z.mod_pos_bound (dq_get_index q + 1) (dq_size q) ltac:(lia)) as Hg'.
  split; [|split; [done|]].
  - constructor; simpl; try done; [lia| |].
    + rewrite He, (proj2 (Z.eqb_neq n 0)) by lia.
      pose proof (mod_back ((dq_get_index q + 1) mod dq_size q) (n - 1) (dq_size q) Hg' ltac:(lia)) as Hb.
      rewrite <-Ep in Hb. destruct (Z.eqb_spec (dq_put_index q) ((dq_get_index q + 1) mod dq_size q)) as [E|E].
      * symmetry. apply Z.eqb_eq. apply Hb in E as [?|?]; lia.
      * symmetry. apply Z.eqb_neq. intros ?. apply E, Hb. by left.
    + symmetry. apply Z.eqb_neq. lia.
  - unfold dq_list. simpl. rewrite <-Hi. by apply cyc_cons; [lia..|].
Qed.

(** * Pushing and popping *)

Section proofs.
Context `{CB : Callbacks} `{DC : DqCallbacks}.
Implicit Types (k : kernel) (q : rt_data_queue).

(** A driver's notification function returns, and leaves its queue and the kernel's
    invariant as they are. *)
Class NotifyLaws := law_notify f queue event s : kinv 0 s.1 →
  wp (evt_notify_fn f queue event) (λ _ s', kinv 0 s'.1 ∧ s'.2 !! queue = s.2 !! queue) s.

(** A queue with [n] items. *)
Record dq_ok (queue : Z) (q : rt_data_queue) (n : Z) (s : dstate) : Prop := {
  dk_null : queue ≠ 0;
  dk_queue : s.2 !! queue = Some q;
  dk_inv : dq_inv q n
}.
Lemma dq_assert_run queue q n (Q : unit → dstate → Prop) s :
  dq_ok queue q n s → Q tt s → wp (dq_assert queue) Q s.
Proof.
  intros [Hnz Hq Hi] HQ. unfold dq_assert, dq_at. wp_simpl. split; [by rewrite (proj2 (Z.eqb_neq _ _) Hnz)|].
  rewrite Hq. wp_simpl. split; [|done]. by rewrite (dv_magic _ _ Hi).
Qed.
Lemma wp_dq_at queue q (Q : rt_data_queue → dstate → Prop) s :
  s.2 !! queue = Some q → Q q s → wp (dq_at queue) Q s.
Proof. intros Hq HQ. unfold dq_at. wp_simpl. by rewrite Hq. Qed.

(** The end of a call: the driver is told of it, unless it has no function. *)
Definition notified (f queue event : Z) (s s' : dstate) : Prop :=
  if f =? 0 then s' = s else evt_notify_fn f queue event s = Some (tt, s').
Lemma notify_run `{NL : NotifyLaws} queue event q n (Q : unit → dstate → Prop) s :
  kinv 0 s.1 → dq_ok queue q n s →
  (∀ s', notified (dq_evt_notify q) queue event s s' → kinv 0 s'.1 → dq_ok queue q n s' → Q tt s') →
  wp (notify queue event) Q s.
Proof.
  intros Hk Hq HQ. unfold notify. wp_simpl. eapply wp_dq_at; [apply Hq|]. wp_simpl. unfold notified in HQ.
  destruct (dq_evt_notify q =? 0); simpl; [by apply HQ|].
  pose proof (law_notify (dq_evt_notify q) queue event s Hk) as Hw. unfold wp in *.
  destruct (evt_notify_fn _ _ _ s) as [[[] s']|]; [|done]. destruct Hw as [Hk' Eq]. apply HQ; [done|done|].
  destruct Hq. constructor; [done|by rewrite Eq|done].
Qed.

Lemma dq_ok_put queue q q' n n' k k' qs :
  dq_ok queue q n (k, qs) → dq_inv q' n' → dq_ok queue q' n' (k', <[queue := q']> qs).
Proof. intros [] ?. constructor; [done|apply lookup_insert_eq|done]. Qed.

(** Pushing to a data queue that is not full, with the timeout it likes: RT_EOK, the
    item is appended. The first thread that waits to pop, if any, becomes READY;
    otherwise the driver is notified. *)
Lemma rt_data_queue_push_run `{NL : NotifyLaws} k qs queue q n data_ptr data_size timeout :
  kinv 0 k → dq_ok queue q n (k, qs) → n < dq_size q →
  wp (rt_data_queue_push queue data_ptr data_size timeout) (λ r s', r = Ret RT_EOK ∧
    ∃ q' k', let s1 := (k', <[queue := q']> qs) in
      dq_ok queue q' (n + 1) s1 ∧ dq_list q' (n + 1) = dq_list q n ++ [(data_ptr, data_size)] ∧
      same_config q q' ∧ kinv 0 k' ∧ woke_first (LSuspend queue) k k' ∧
      tl (LSender queue) k' = tl (LSender queue) k ∧ kinv 0 s'.1 ∧ dq_ok queue q' (n + 1) s' ∧
      (if bool_decide (tl (LSuspend queue) k = [])
       then k' = k ∧ notified (dq_evt_notify q) queue RT_DATAQUEUE_EVENT_PUSH s1 s' else s' = s1)) (k, qs).
Proof using Type*.
  intros Hk Hq Hlt. pose proof (dk_inv _ _ _ _ Hq) as Hi.
  destruct (dq_store_run q n (data_ptr, data_size) Hi Hlt) as (q' & Es & Hi' & Hcfg & El).
  unfold rt_data_queue_push, dq_push_loop, dq_push_rest, rt_thread_self, put_dq. wp_simpl.
  eapply dq_assert_run; [done|]. wp_simpl. simpl. eapply wp_dq_at; [apply Hq|].
  rewrite (dv_full _ _ Hi), (proj2 (Z.eqb_neq n (dq_size q))) by lia. wp_simpl.
  eapply wp_dq_at; [apply Hq|]. wp_simpl. rewrite Es. wp_simpl. simpl.
  assert (∀ k', dq_ok queue q' (n + 1) (k', <[queue := q']> qs)) as Hq' by (intros; by eapply dq_ok_put).
  case_bool_decide as Hnil; simpl; wp_simpl.
  - eapply notify_run; [done|apply Hq'|]. intros s' Hs' Hks Hqs. apply wp_ret.
    split; [done|]. exists q', k. split_and!; try done.
    + unfold woke_first. by rewrite Hnil.
    + destruct Hcfg as (_ & _ & _ & En). by rewrite <-En.
  - apply wake_run; [done..|]. intros k' Hk' Hw Htl. apply wp_ret. split; [done|].
    exists q', k'. split_and!; try done. by apply Htl.
Qed.

(** Popping from a data queue that is not empty: RT_EOK with the oldest item, which
    leaves the queue. At the low water mark or below it the first thread that waits
    to push, if any, becomes READY. *)
Lemma dq_pop_loop_run `{NL : NotifyLaws} k qs queue q n f :
  df_queue f = queue →
  kinv 0 k → dq_ok queue q n (k, qs) → 0 < n →
  wp (dq_pop_loop f) (λ r s', ∃ item q' k', let s1 := (k', <[queue := q']> qs) in
      r = Ret (RT_EOK, Some item) ∧ dq_list q n = item :: dq_list q' (n - 1) ∧
      dq_ok queue q' (n - 1) s1 ∧ same_config q q' ∧ kinv 0 k' ∧
      tl (LSuspend queue) k' = tl (LSuspend queue) k ∧ kinv 0 s'.1 ∧ dq_ok queue q' (n - 1) s' ∧
      (if n - 1 <=? dq_lwm q then woke_first (LSender queue) k k' else k' = k) ∧
      notified (dq_evt_notify q) queue
        (if n - 1 <=? dq_lwm q then RT_DATAQUEUE_EVENT_LWM else RT_DATAQUEUE_EVENT_POP) s1 s') (k, qs).
Proof using Type*.
  intros Hf Hk Hq Hlt. pose proof (dk_inv _ _ _ _ Hq) as Hi.
  destruct (dq_fetch_run q n Hi Hlt) as (item & q' & Es & Hi' & Hcfg & El).
  assert (∀ k', dq_ok queue q' (n - 1) (k', <[queue := q']> qs)) as Hq' by (intros; by eapply dq_ok_put).
  pose proof Hcfg as (_ & Elwm & _ & En).
  unfold dq_pop_loop, dq_pop_rest, put_dq, rt_data_queue_len. rewrite Hf. wp_simpl. eapply wp_dq_at; [apply Hq|].
  rewrite (dv_empty _ _ Hi), (proj2 (Z.eqb_neq n 0)) by lia. wp_simpl.
  eapply wp_dq_at; [apply Hq|]. wp_simpl. rewrite Es. wp_simpl. simpl.
  eapply dq_assert_run; [apply Hq'|]. wp_simpl. eapply wp_dq_at; [apply lookup_insert_eq|].
  rewrite (dq_len_run _ _ Hi'). wp_simpl. simpl. rewrite Elwm.
  destruct (n - 1 <=? dq_lwm q); wp_simpl; simpl.
  - case_bool_decide as Hnil; simpl; wp_simpl.
    + eapply notify_run; [done|apply Hq'|]. intros s' Hs' Hks Hqs. apply wp_ret.
      exists item, q', k. split_and!; try done; [|by rewrite <-En]. unfold woke_first. by rewrite Hnil.
    + apply wake_run; [done..|]. intros k' Hk' Hw Htl. wp_simpl.
      eapply notify_run; [done|apply Hq'|]. intros s' Hs' Hks Hqs. apply wp_ret.
      exists item, q', k'. split_and!; try done; [by apply Htl|by rewrite <-En].
  - eapply notify_run; [done|apply Hq'|]. intros s' Hs' Hks Hqs. apply wp_ret.
    exists item, q', k. split_and!; try done. by rewrite <-En.
Qed.
Lemma rt_data_queue_pop_run `{NL : NotifyLaws} k qs queue q n timeout :
  kinv 0 k → dq_ok queue q n (k, qs) → 0 < n →
  wp (rt_data_queue_pop queue timeout) (λ r s', ∃ item q' k', let s1 := (k', <[queue := q']> qs) in
      r = Ret (RT_EOK, Some item) ∧ dq_list q n = item :: dq_list q' (n - 1) ∧
      dq_ok queue q' (n - 1) s1 ∧ same_config q q' ∧ kinv 0 k' ∧
      tl (LSuspend queue) k' = tl (LSuspend queue) k ∧ kinv 0 s'.1 ∧ dq_ok queue q' (n - 1) s' ∧
      (if n - 1 <=? dq_lwm q then woke_first (LSender queue) k k' else k' = k) ∧
      notified (dq_evt_notify q) queue
        (if n - 1 <=? dq_lwm q then RT_DATAQUEUE_EVENT_LWM else RT_DATAQUEUE_EVENT_POP) s1 s') (k, qs).
Proof using Type*.
  intros Hk Hq Hlt. unfold rt_data_queue_pop, rt_thread_self. wp_simpl.
  eapply dq_assert_run; [done|]. wp_simpl. by apply (dq_pop_loop_run k qs queue q n).
Qed.

(** The wait of a call on a full or an empty queue. *)
Lemma dq_wait_run k qs h f t th :
  kinv 0 k → running t th k → other_ready t k → ipc_head h →
  df_thread f = Some t → df_timeout f ≠ 0 → df_timeout f < TICK_HALF →
  wp (dq_wait h f) (λ _ s', ∃ k', s' = (k', qs) ∧ blocked t th h (df_timeout f) k k') (k, qs).
Proof using Type.
  intros Hk Hrun Hother Hh Hft Ht0 Htime. unfold dq_wait, RT_DEBUG_NOT_IN_INTERRUPT. wp_simpl.
  simpl. split; [by rewrite (ru_nest _ _ _ Hrun)|]. rewrite Hft. wp_simpl. simpl.
  eapply wp_upd_thread; [apply Hrun|]. wp_simpl.
  eapply wp_mono; [by eapply (block_run k t th h (df_timeout f))|]. intros [] k2 Hw. wp_simpl. simpl.
  eapply wp_mono; [exact Hw|]. intros [] k3 Hb. by exists k3.
Qed.

(** A queue that cannot take or give anything without waiting: -RT_ETIMEOUT. *)
Lemma rt_data_queue_full_run s queue q data_ptr data_size :
  dq_ok queue q (dq_size q) s →
  wp (rt_data_queue_push queue data_ptr data_size 0) (λ r s', r = Ret (- RT_ETIMEOUT) ∧ s' = s) s.
Proof.
  intros Hq. pose proof (dk_inv _ _ _ _ Hq) as Hi. unfold rt_data_queue_push, dq_push_loop, rt_thread_self.
  wp_simpl. eapply dq_assert_run; [done|]. wp_simpl. simpl. eapply wp_dq_at; [apply Hq|].
  rewrite (dv_full _ _ Hi), Z.eqb_refl. apply wp_ret. by destruct s.
Qed.
Lemma rt_data_queue_empty_run s queue q :
  dq_ok queue q 0 s →
  wp (rt_data_queue_pop queue 0) (λ r s', r = Ret (- RT_ETIMEOUT, None) ∧ s' = s) s.
Proof.
  intros Hq. pose proof (dk_inv _ _ _ _ Hq) as Hi. unfold rt_data_queue_pop, dq_pop_loop, rt_thread_self.
  wp_simpl. eapply dq_assert_run; [done|]. wp_simpl. simpl. eapply wp_dq_at; [apply Hq|].
  rewrite (dv_empty _ _ Hi). simpl. wp_simpl. simpl. by destruct s.
Qed.
End proofs.

(** * The contract: a bounded queue *)

Inductive dq_op := DPush (item : Z * Z) | DPop.
(** Calls that do not wait. *)
Definition dq_call `{CB : Callbacks} `{DC : DqCallbacks} (queue : Z) (op : dq_op) : D (Z * option (Z * Z)) :=
  match op with
  | DPush item =>
      r ← rt_data_queue_push queue item.1 item.2 0;
      match r with Ret code => mret (code, None) | Wait _ => fail end
  | DPop =>
      r ← rt_data_queue_pop queue 0;
      match r with Ret x => mret x | Wait _ => fail end
  end.
Fixpoint dq_calls `{CB : Callbacks} `{DC : DqCallbacks} (queue : Z) (ops : list dq_op) : D (list (Z * option (Z * Z))) :=
  match ops with
  | [] => mret []
  | op :: ops => r ← dq_call queue op; rs ← dq_calls queue ops; mret (r :: rs)
  end.
(** The same on a list of at most [size] items. *)
Definition fifo_call (size : Z) (l : list (Z * Z)) (op : dq_op) : (Z * option (Z * Z)) * list (Z * Z) :=
  match op, l with
  | DPush item, _ => if Z.of_nat (length l) <? size then ((RT_EOK, None), l ++ [item]) else ((- RT_ETIMEOUT, None), l)
  | DPop, [] => ((- RT_ETIMEOUT, None), [])
  | DPop, item :: l => ((RT_EOK, Some item), l)
  end.
Fixpoint fifo_calls (size : Z) (l : list (Z * Z)) (ops : list dq_op) : list (Z * option (Z * Z)) * list (Z * Z) :=
  match ops with
  | [] => ([], l)
  | op :: ops => let '(r, l) := fifo_call size l op in
                 let '(rs, l) := fifo_calls size l ops in (r :: rs, l)
  end.

Lemma length_cyc {A} (items : list A) n : 0 ≤ n → ∀ o,
  0 ≤ o < Z.of_nat (length items) → length (cyc items o n) = Z.to_nat n.
Proof.
  intros Hn. pattern n. apply natlike_ind; [done| |done]. clear n Hn. intros n Hn IH o Ho.
  destruct (lookup_lt_is_Some_2 items (Z.to_nat o)) as [v Hv]; [lia|].
  rewrite (cyc_cons _ _ _ v) by (done || lia). replace (Z.succ n - 1) with n by lia. simpl.
  rewrite IH; [lia|]. apply Z.mod_pos_bound. lia.
Qed.
Lemma length_dq_list q n : dq_inv q n → Z.of_nat (length (dq_list q n)) = n.
Proof. intros []. unfold dq_list. rewrite length_cyc by lia. lia. Qed.

Section contract.
Context `{CB : Callbacks} `{DC : DqCallbacks} `{NL : !NotifyLaws}.

Lemma dq_call_run s queue q n op :
  kinv 0 s.1 → dq_ok queue q n s →
  wp (dq_call queue op) (λ r s', ∃ q' n', kinv 0 s'.1 ∧ dq_ok queue q' n' s' ∧ dq_size q' = dq_size q ∧
    fifo_call (dq_size q) (dq_list q n) op = (r, dq_list q' n')) s.
Proof using NL.
  intros Hk Hq. pose proof (dk_inv _ _ _ _ Hq) as Hi. pose proof (dv_count _ _ Hi) as Hn.
  pose proof (length_dq_list q n Hi) as Hlen. destruct s as [k qs]. destruct op as [[p sz]|]; unfold dq_call; wp_simpl.
  - unfold fifo_call. rewrite Hlen. destruct (Z.ltb_spec n (dq_size q)) as [Hlt|Hge].
    + eapply wp_mono; [by apply (rt_data_queue_push_run k qs queue q n p sz 0)|].
      intros r s' (-> & q' & k' & _ & El & Hcfg & _ & _ & _ & Hks & Hqs & _). apply wp_ret.
      exists q', (n + 1). split_and!; try done; [apply Hcfg|by rewrite El].
    + assert (n = dq_size q) as -> by lia.
      eapply wp_mono; [by apply (rt_data_queue_full_run _ queue q)|].
      intros r s' [-> ->]. apply wp_ret. by exists q, (dq_size q).
  - destruct (Z.eq_dec n 0) as [->|Hne].
    + eapply wp_mono; [by apply (rt_data_queue_empty_run _ queue q)|].
      intros r s' [-> ->]. apply wp_ret. exists q, 0. split_and!; try done.
    + eapply wp_mono; [apply (rt_data_queue_pop_run k qs queue q n 0); [done|done|lia]|].
      intros r s' (item & q' & k' & -> & El & _ & Hcfg & _ & _ & Hks & Hqs & _). apply wp_ret.
      exists q', (n - 1). split_and!; try done; [apply Hcfg|by rewrite El].
Qed.

(** C27. Any sequence of pushes and pops that do not wait, whoever waits on the queue and
    whatever the driver's notification function does within its law: the calls
    return, with the results of a first-in first-out queue that holds the size of the data
    queue. *)
Theorem rt_data_queue_refines ops s queue q n :
  kinv 0 s.1 → dq_ok queue q n s →
  wp (dq_calls queue ops) (λ rs s', ∃ q' n', kinv 0 s'.1 ∧ dq_ok queue q' n' s' ∧
    fifo_calls (dq_size q) (dq_list q n) ops = (rs, dq_list q' n')) s.
Proof using NL.
  revert s q n. induction ops as [|op ops IH]; intros s q n Hk Hq; cbn [dq_calls fifo_calls].
  { apply wp_ret. by exists q, n. }
  wp_simpl. eapply wp_mono; [by eapply dq_call_run|]. intros r s1 (q1 & n1 & Hk1 & Hq1 & Es & ->). wp_simpl.
  eapply wp_mono; [by apply IH|]. intros rs s2 (q2 & n2 & Hk2 & Hq2 & E). apply wp_ret.
  exists q2, n2. split; [done|]. split; [done|]. rewrite Es in E. by rewrite E.
Qed.

(** A thread that waits to pop gets the item: it finds the queue empty and waits, with
    or without a timeout; another thread or an interrupt pushes; when the
    thread runs again, its call returns RT_EOK with that item. *)
Theorem rt_data_queue_handover k qs queue q t th data_ptr data_size timeout timeout' :
  kinv 0 k → dq_ok queue q 0 (k, qs) → running t th k → other_ready t k → tl (LSuspend queue) k = [] →
  timeout ≠ 0 → timeout < TICK_HALF →
  wp (r ← rt_data_queue_pop queue timeout;
      match r with
      | Wait f => rt_data_queue_push queue data_ptr data_size timeout';; rt_data_queue_pop_resume f
      | Ret x => mret (Ret x)
      end)
    (λ r s', r = Ret (RT_EOK, Some (data_ptr, data_size)) ∧ kinv 0 s'.1 ∧
       ∃ q', dq_ok queue q' 0 s' ∧ dq_list q' 0 = []) (k, qs).
Proof using NL.
  intros Hk Hq Hrun Hother Hnil Ht0 Htime. pose proof (dk_inv _ _ _ _ Hq) as Hi.
  pose proof (dv_size _ _ Hi) as Hsz.
  unfold rt_data_queue_pop, dq_pop_loop at 1, rt_thread_self. wp_simpl. eapply dq_assert_run; [done|].
  wp_simpl. simpl. eapply wp_dq_at; [apply Hq|]. rewrite (dv_empty _ _ Hi). simpl.
  rewrite (proj2 (Z.eqb_neq _ _) Ht0). wp_simpl. set (f := DqFrame _ _ _ _).
  eapply wp_mono; [apply (dq_wait_run k qs (LSuspend queue) f t th); try done; apply Hrun|].
  intros [] s1 (k1 & -> & [Hk1 Etl _ Eth _ _]). wp_simpl. rewrite Hnil in Etl. simpl in Etl.
  assert (dq_ok queue q 0 (k1, qs)) as Hq1 by (destruct Hq; by constructor).
  eapply wp_mono; [apply (rt_data_queue_push_run k1 qs queue q 0 data_ptr data_size timeout'); [done|done|lia]|].
  intros r s2 (-> & q2 & k2 & Hq2 & El & _ & Hk2 & Hw & _ & _ & _ & Hs2). rewrite Etl in Hs2. simpl in Hs2. subst s2.
  unfold woke_first in Hw. rewrite Etl in Hw. destruct Hw as (_ & th1 & Hth1 & Eth2 & _).
  rewrite Eth, lookup_insert_eq in Hth1. injection Hth1 as <-.
  unfold rt_data_queue_pop_resume. wp_simpl. change (df_thread f) with (current_thread k).
  rewrite (ru_current _ _ _ Hrun). wp_simpl. eapply wp_thread_at; [cbn [fst]; by rewrite Eth2, lookup_insert_eq|]. simpl.
  eapply wp_mono; [apply (dq_pop_loop_run k2 _ queue q2 1 f); [done|done|done|lia]|].
  intros r s3 (item & q3 & k3 & -> & El3 & _ & _ & _ & _ & Hk3 & Hq3 & _).
  change (0 + 1) with 1 in El. rewrite El3 in El. change (1 - 1) with 0 in *.
  change (dq_list q 0) with (@nil (Z * Z)) in El. injection El as ->. split; [done|]. split; [done|].
  by exists q3.
Qed.
End contract.
