(* ===== verification/Completion.v ===== *)
(** Completions of components/drivers/src/completion.c: a flag, and at most one thread
    that waits for it. *)
From S2P Require Import Prelude Kservice Mem KState Sched Object Timer Thread Ipc Mailbox DriverIpc.

Definition RT_COMPLETED : Z := 1.
Definition RT_UNCOMPLETED : Z := 0.
(** The kernel, and the flags by address; the thread waits on [LSuspend c]. *)
Abbreviation cstate := (kernel * gmap Z Z)%type.
Abbreviation C := (M cstate).

Section completion.
Context `{CB : Callbacks}.

Definition completion_flag (c : Z) : C Z := fs ← gets snd; lift (fs !! c).
Definition set_completion (c flag : Z) : C unit := modify (λ s : cstate, (s.1, <[c := flag]> s.2)).

Definition rt_completion_init (c : Z) : C unit :=
  RT_ASSERT (negb (c =? 0));;
  set_completion c RT_UNCOMPLETED;;
  in_k (list_head_init (LSuspend c)).
(** [Wait thread]: up to rt_schedule. *)
Definition rt_completion_wait (c timeout : Z) : C (call Z Z) :=
  RT_ASSERT (negb (c =? 0));;
  self ← in_k rt_thread_self;
  flag ← completion_flag c;
  if negb (flag =? RT_COMPLETED) then
    l ← in_k (gets (tl (LSuspend c)));
    RT_ASSERT (bool_decide (l = []));;
    if timeout =? 0 then mret (Ret (- RT_ETIMEOUT)) else
    thread ← lift self;
    in_k (upd_thread thread (set_th_error RT_EOK));;
    in_k (rt_ipc_list_suspend (LSuspend c) thread RT_IPC_FLAG_FIFO);;
    in_k RT_DEBUG_NOT_IN_INTERRUPT;;
    in_k (when (0 <? timeout) (thread_timer_start thread timeout));;
    in_k rt_schedule;;
    mret (Wait thread)
  else set_completion c RT_UNCOMPLETED;; mret (Ret RT_EOK).
(** The flag is cleared whatever the result is. *)
Definition rt_completion_wait_resume (c thread : Z) : C Z :=
  th ← in_k (thread_at thread);
  set_completion c RT_UNCOMPLETED;;
  mret (th_error th).
Definition rt_completion_done (c : Z) : C unit :=
  RT_ASSERT (negb (c =? 0));;
  flag ← completion_flag c;
  if flag =? RT_COMPLETED then mret tt else
  set_completion c RT_COMPLETED;;
  l ← in_k (gets (tl (LSuspend c)));
  when (negb (bool_decide (l = []))) (in_k (rt_ipc_list_resume (LSuspend c);; rt_schedule)).
End completion.

(** * Waiting and being done *)

Section proofs.
Context `{CB : Callbacks}.
Implicit Types (k : kernel) (fs : gmap Z Z).

Lemma wp_completion_flag c v (Q : Z → cstate → Prop) s :
  s.2 !! c = Some v → Q v s → wp (completion_flag c) Q s.
Proof. intros Hv HQ. unfold completion_flag. wp_simpl. by rewrite Hv. Qed.

(** Waiting for a completion that is not done. *)
Lemma rt_completion_block_run k fs c t th timeout :
  kinv 0 k → c ≠ 0 → fs !! c = Some RT_UNCOMPLETED → running t th k → other_ready t k →
  tl (LSuspend c) k = [] → timeout ≠ 0 → timeout < TICK_HALF →
  wp (rt_completion_wait c timeout) (λ r s', r = Wait t ∧ ∃ k', s' = (k', fs) ∧
    blocked t th (LSuspend c) timeout k k') (k, fs).
Proof.
  intros Hk Hc Hf Hrun Hother Hnil Ht0 Htime. unfold rt_completion_wait, rt_thread_self, RT_DEBUG_NOT_IN_INTERRUPT.
  wp_simpl. split; [by rewrite (proj2 (Z.eqb_neq _ _) Hc)|]. simpl. eapply wp_completion_flag; [done|]. simpl.
  wp_simpl. simpl. split; [by rewrite Hnil|]. rewrite (proj2 (Z.eqb_neq _ _) Ht0), (ru_current _ _ _ Hrun). wp_simpl.
  eapply wp_upd_thread; [apply Hrun|]. wp_simpl. simpl.
  eapply wp_mono; [by apply (block_split_run k t th (LSuspend c) timeout)|]. intros r k1 [Hn1 Hw1].
  wp_simpl. simpl. split; [by rewrite Hn1|]. rewrite wp_when in Hw1. wp_simpl. simpl.
  destruct (0 <? timeout); [eapply wp_mono; [exact Hw1|]; intros [] k2 Hw2|rename Hw1 into Hw2];
    wp_simpl; simpl; (eapply wp_mono; [exact Hw2|]); intros [] k3 Hb; (split; [done|by exists k3]).
Qed.
Lemma rt_completion_done_run k fs c :
  kinv 0 k → c ≠ 0 → fs !! c = Some RT_UNCOMPLETED →
  wp (rt_completion_done c) (λ _ s', ∃ k', s' = (k', <[c := RT_COMPLETED]> fs) ∧ kinv 0 k' ∧
    woke_first (LSuspend c) k k') (k, fs).
Proof.
  intros Hk Hc Hf. unfold rt_completion_done, set_completion. wp_simpl.
  split; [by rewrite (proj2 (Z.eqb_neq _ _) Hc)|]. eapply wp_completion_flag; [done|]. simpl. wp_simpl. simpl.
  case_bool_decide as Hnil; simpl; wp_simpl.
  - exists k. split_and!; try done. unfold woke_first. by rewrite Hnil.
  - apply wake_run; [done..|]. intros k' Hk' Hw _. by exists k'.
Qed.

(** A completion passes from rt_completion_done to the thread that waits for it: the call
    returns RT_EOK, once, and the flag is clear again for the next one. *)
Theorem rt_completion_handover k fs c t th timeout :
  kinv 0 k → c ≠ 0 → fs !! c = Some RT_UNCOMPLETED → running t th k → other_ready t k →
  tl (LSuspend c) k = [] → timeout ≠ 0 → timeout < TICK_HALF →
  wp (r ← rt_completion_wait c timeout;
      match r with
      | Wait t => rt_completion_done c;; rt_completion_wait_resume c t
      | Ret r => mret r
      end)
    (λ r s', r = RT_EOK ∧ kinv 0 s'.1 ∧ s'.2 !! c = Some RT_UNCOMPLETED ∧ tl (LSuspend c) s'.1 = []) (k, fs).
Proof.
  intros Hk Hc Hf Hrun Hother Hnil Ht0 Htime. wp_simpl.
  eapply wp_mono; [by apply (rt_completion_block_run k fs c t th)|].
  intros r s1 (-> & k1 & -> & [Hk1 Etl _ Eth _ _]). rewrite Hnil in Etl. simpl in Etl. wp_simpl.
  eapply wp_mono; [by apply rt_completion_done_run|]. intros [] s2 (k2 & -> & Hk2 & Hw).
  unfold woke_first in Hw. rewrite Etl in Hw. destruct Hw as (Etl2 & th1 & Hth1 & Eth2 & _).
  rewrite Eth, lookup_insert_eq in Hth1. injection Hth1 as <-.
  unfold rt_completion_wait_resume, set_completion. wp_simpl. simpl.
  eapply wp_thread_at; [by rewrite Eth2, lookup_insert_eq|]. wp_simpl. simpl.
  by rewrite lookup_insert_eq.
Qed.

(** A completion can be lost: the wait of a thread times out, and before that thread runs
    again another thread or an interrupt completes. The wait returns -RT_ETIMEOUT and
    clears the flag all the same, so that a second wait without a timeout
    fails too. *)
Theorem rt_completion_lost k fs c t th timeout :
  kinv 0 k → c ≠ 0 → fs !! c = Some RT_UNCOMPLETED → running t th k → other_ready t k →
  tl (LSuspend c) k = [] → timeout ≠ 0 → timeout < TICK_HALF →
  wp (r ← rt_completion_wait c timeout;
      match r with
      | Wait t =>
          in_k (rt_timer_stop (ThTimer t);; rt_thread_timeout t);;
          rt_completion_done c;;
          r1 ← rt_completion_wait_resume c t;
          r2 ← rt_completion_wait c 0;
          mret (r1, r2)
      | Ret _ => fail
      end)
    (λ r s', r = (- RT_ETIMEOUT, Ret (- RT_ETIMEOUT)) ∧ kinv 0 s'.1 ∧ s'.2 !! c = Some RT_UNCOMPLETED) (k, fs).
Proof.
  intros Hk Hc Hf Hrun Hother Hnil Ht0 Htime. wp_simpl.
  eapply wp_mono; [by apply (rt_completion_block_run k fs c t th)|].
  intros r s1 (-> & k1 & -> & [Hk1 Etl _ Eth _ _]). rewrite Hnil in Etl. simpl in Etl.
  set (th1 := with_stat _ _) in Eth.
  pose proof (timeout_wake_run k1 t th1 Hk1 ltac:(by rewrite Eth, lookup_insert_eq) ltac:(by apply stat_of_with_stat)) as Hw.
  rewrite wp_bind, wp_in_k. eapply wp_mono; [exact Hw|]. intros [] k2 (Hk2 & _ & _ & Eth2 & Htl2).
  specialize (Htl2 (LSuspend c) I). rewrite Etl, lremove_cons_eq in Htl2. change (lremove t []) with (@nil Z) in Htl2.
  wp_simpl. simpl. eapply wp_mono; [by apply rt_completion_done_run|]. intros [] s2 (k3 & -> & Hk3 & Hw3).
  unfold woke_first in Hw3. rewrite Htl2 in Hw3. destruct Hw3 as (Htl3 & Eth3 & _).
  unfold rt_completion_wait_resume, rt_completion_wait, set_completion, rt_thread_self. wp_simpl. simpl.
  eapply wp_thread_at; [by rewrite Eth3, Eth2, lookup_insert_eq|]. wp_simpl.
  split; [by rewrite (proj2 (Z.eqb_neq _ _) Hc)|].
  eapply wp_completion_flag; [simpl; by rewrite lookup_insert_eq|]. simpl. wp_simpl. simpl.
  split; [by rewrite Htl3|]. by rewrite lookup_insert_eq.
Qed.
End proofs.
