(* ===== verification/WaitQueue.v ===== *)
(** Wait queues of components/drivers/src/waitqueue.c: a flag and a list of nodes, one for each thread that
    waits; the node of rt_wqueue_wait is a local variable of that call. *)
From S2P Require Import Prelude Kservice Mem KState Sched Object Timer Thread Ipc DriverIpc.

Definition RT_WQ_FLAG_CLEAN : Z := 0x00.
Definition RT_WQ_FLAG_WAKEUP : Z := 0x01.
Record rt_wqueue := Wqueue { wqu_flag : Z; waiting_list : list Z }.
Record rt_wqueue_node := WqNode { polling_thread : Z; wqn_wakeup : Z; wqn_key : Z }.

(** The kernel, the queues and the nodes by address. *)
Record qstate := QState { q_kernel : kernel; q_wqueues : gmap Z rt_wqueue; q_nodes : gmap Z rt_wqueue_node }.
Abbreviation WQ := (M qstate).
(** The functions of the nodes: whether a wakeup with this key is for them. They leave the queues alone. *)
Class WakeFns := { wake_fn : Z → Z → Z → K Z; addr_default_wake : Z }.
Definition __wqueue_default_wake `{CB : Callbacks} (node key : Z) : K Z := mret 0.
Class WakeLaws `{CB : Callbacks} `{WF : WakeFns} := { law_default_wake node key : wake_fn addr_default_wake node key = __wqueue_default_wake node key }.

Section wait_queue.
Context `{CB : Callbacks} `{WF : WakeFns}.

Definition in_q {A} (m : K A) : WQ A := λ s,
  match m (q_kernel s) with Some (x, k) => Some (x, QState k (q_wqueues s) (q_nodes s)) | None => None end.
Definition wqueue_at (queue : Z) : WQ rt_wqueue := m ← gets q_wqueues; lift (m !! queue).
Definition upd_wqueue (queue : Z) (f : rt_wqueue → rt_wqueue) : WQ unit :=
  q ← wqueue_at queue; modify (λ s, QState (q_kernel s) (<[queue := f q]> (q_wqueues s)) (q_nodes s)).
Definition wqnode_at (node : Z) : WQ rt_wqueue_node := m ← gets q_nodes; lift (m !! node).
Definition set_wqu_flag (v : Z) (q : rt_wqueue) : rt_wqueue := Wqueue v (waiting_list q).
Definition set_waiting (l : list Z) (q : rt_wqueue) : rt_wqueue := Wqueue (wqu_flag q) l.

Definition rt_wqueue_init (queue : Z) : WQ unit :=
  RT_ASSERT (negb (queue =? 0));;
  modify (λ s, QState (q_kernel s) (<[queue := Wqueue RT_WQ_FLAG_CLEAN []]> (q_wqueues s)) (q_nodes s)).
(** The last of the list *)
Definition rt_wqueue_add (queue node : Z) : WQ unit := upd_wqueue queue (λ q, set_waiting (waiting_list q ++ [node]) q).
(** Whichever list the node is on *)
Definition rt_wqueue_remove (node : Z) : WQ unit :=
  modify (λ s, QState (q_kernel s) ((λ q, set_waiting (lremove node (waiting_list q)) q) <$> q_wqueues s) (q_nodes s)).

(** The first node that takes the wakeup leaves the list; the result is need_schedule. *)
Fixpoint wakeup_loop (l : list Z) (key : Z) : WQ bool :=
  match l with
  | [] => mret false
  | node :: l =>
      entry ← wqnode_at node;
      r ← in_q (wake_fn (wqn_wakeup entry) node key);
      if r =? 0 then
        in_q (rt_thread_resume (polling_thread entry));;
        rt_wqueue_remove node;;
        mret true
      else wakeup_loop l key
  end.
Definition rt_wqueue_wakeup (queue key : Z) : WQ unit :=
  upd_wqueue queue (set_wqu_flag RT_WQ_FLAG_WAKEUP);;
  q ← wqueue_at queue;
  need_schedule ← wakeup_loop (waiting_list q) key;
  when need_schedule (in_q rt_schedule).

Definition wait_exit (queue node : Z) : WQ Z :=
  upd_wqueue queue (set_wqu_flag 0);; rt_wqueue_remove node;; mret 0.
(** [node] is the address of the local __wait. *)
Definition rt_wqueue_wait (queue node : Z) (condition : bool) (msec : Z) : WQ (call Z Z) :=
  self ← in_q rt_thread_self;
  in_q RT_DEBUG_NOT_IN_INTERRUPT;;
  let tick := s32 (rt_tick_from_millisecond msec) in
  if condition || (tick =? 0) then mret (Ret 0) else
  tid ← lift self;
  modify (λ s, QState (q_kernel s) (q_wqueues s) (<[node := WqNode tid addr_default_wake 0]> (q_nodes s)));;
  q ← wqueue_at queue;
  if wqu_flag q =? RT_WQ_FLAG_WAKEUP then r ← wait_exit queue node; mret (Ret r) else
  rt_wqueue_add queue node;;
  in_q (rt_thread_suspend tid);;
  in_q (when (negb (tick =? RT_WAITING_FOREVER)) (thread_timer_start tid (u32 tick)));;
  in_q rt_schedule;;
  mret (Wait node).
Definition rt_wqueue_wait_resume (queue node : Z) : WQ Z := wait_exit queue node.
End wait_queue.

(** * Properties *)

Section proofs.
Context `{CB : Callbacks} `{WF : WakeFns} `{WL : !WakeLaws}.
Implicit Types (k : kernel) (s : qstate).

Lemma wp_in_q {A} (m : K A) (Q : A → qstate → Prop) s :
  wp (in_q m) Q s ↔ wp m (λ r k, Q r (QState k (q_wqueues s) (q_nodes s))) (q_kernel s).
Proof. unfold wp, in_q. by destruct (m (q_kernel s)) as [[??]|]. Qed.
#[local] Hint Rewrite @wp_in_q : wp.
Lemma wp_wqueue_at s queue q (Q : rt_wqueue → qstate → Prop) :
  q_wqueues s !! queue = Some q → Q q s → wp (wqueue_at queue) Q s.
Proof. intros E HQ. unfold wqueue_at. wp_simpl. by rewrite E. Qed.
Lemma wp_upd_wqueue s queue q f (Q : unit → qstate → Prop) :
  q_wqueues s !! queue = Some q → Q tt (QState (q_kernel s) (<[queue := f q]> (q_wqueues s)) (q_nodes s)) →
  wp (upd_wqueue queue f) Q s.
Proof. intros E HQ. unfold upd_wqueue. wp_simpl. by eapply wp_wqueue_at. Qed.

(** A wakeup goes to the first thread of the list. *)
Lemma wakeup_first_run queue f node l key t th s :
  q_wqueues s = {[ queue := Wqueue f (node :: l) ]} → NoDup (node :: l) →
  q_nodes s !! node = Some (WqNode t addr_default_wake 0) →
  kinv 0 (q_kernel s) → threads (q_kernel s) !! t = Some th → stat_of th ≠ RT_THREAD_CLOSE → some_ready (q_kernel s) →
  wp (rt_wqueue_wakeup queue key) (λ _ s', q_wqueues s' = {[ queue := Wqueue RT_WQ_FLAG_WAKEUP l ]} ∧
    q_nodes s' = q_nodes s ∧ kinv 0 (q_kernel s') ∧
    threads (q_kernel s') = if stat_of th =? RT_THREAD_SUSPEND
                            then <[t := with_stat RT_THREAD_READY th]> (threads (q_kernel s)) else threads (q_kernel s)) s.
Proof using WL.
  intros Eq Hnd Hnode Hk Hth Hc Hready. apply NoDup_cons in Hnd as [Hnot _]. unfold rt_wqueue_wakeup. wp_simpl.
  eapply wp_upd_wqueue; [by rewrite Eq, lookup_singleton_eq|]. rewrite Eq, insert_singleton_eq. wp_simpl.
  eapply wp_wqueue_at; [apply lookup_singleton_eq|]. simpl. unfold wqnode_at. wp_simpl. simpl. rewrite Hnode. wp_simpl.
  simpl. rewrite law_default_wake. unfold __wqueue_default_wake. wp_simpl. simpl. wp_simpl. simpl.
  eapply wp_mono; [by apply (resume_any_run t th)|]. intros r k1 Hr. unfold rt_wqueue_remove. wp_simpl. simpl.
  assert (kinv 0 k1 ∧ some_ready k1 ∧ threads k1 = if stat_of th =? RT_THREAD_SUSPEND
    then <[t := with_stat RT_THREAD_READY th]> (threads (q_kernel s)) else threads (q_kernel s)) as (Hk1 & Hr1 & Eth1).
  { destruct (stat_of th =? RT_THREAD_SUSPEND); [|by destruct Hr as [_ ->]]. destruct Hr as [_ Hm].
    split_and!; [apply Hm|eapply moved_ready; [done|by apply stat_of_with_stat]|apply Hm]. }
  eapply wp_mono; [by apply (schedule_run 0)|]. intros [] k2 [Hk2 [(c & p & E2) _]]. simpl.
  split_and!; [|done|done|by rewrite E2].
  rewrite map_fmap_singleton. unfold set_waiting, set_wqu_flag. simpl.
  by rewrite lremove_first.
Qed.
Lemma wait_exit_run queue f l node s :
  q_wqueues s = {[ queue := Wqueue f l ]} →
  wp (wait_exit queue node) (λ r s', r = 0 ∧ s' = QState (q_kernel s) {[ queue := Wqueue 0 (lremove node l) ]} (q_nodes s)) s.
Proof.
  intros Eq. unfold wait_exit, rt_wqueue_remove. wp_simpl. eapply wp_upd_wqueue; [by rewrite Eq, lookup_singleton_eq|].
  wp_simpl. split; [done|]. rewrite Eq, insert_singleton_eq. simpl. by rewrite map_fmap_singleton.
Qed.
(** What a timeout in milliseconds comes to. *)
Definition wait_tick (msec : Z) : Z := s32 (rt_tick_from_millisecond msec).
Lemma wait_run queue l node msec t th s :
  q_wqueues s = {[ queue := Wqueue 0 l ]} → kinv 0 (q_kernel s) → running t th (q_kernel s) →
  other_ready t (q_kernel s) → wait_tick msec = RT_WAITING_FOREVER ∨ 0 < wait_tick msec < TICK_HALF →
  wp (rt_wqueue_wait queue node false msec) (λ r s', r = Wait node ∧ kinv 0 (q_kernel s') ∧
    q_wqueues s' = {[ queue := Wqueue 0 (l ++ [node]) ]} ∧
    q_nodes s' = <[node := WqNode t addr_default_wake 0]> (q_nodes s) ∧
    threads (q_kernel s') = <[t := with_stat RT_THREAD_SUSPEND th]> (threads (q_kernel s))) s.
Proof.
  intros Eq Hk Hrun Hother Htick. pose proof Hrun as [Hn Hcur _ _].
  unfold rt_wqueue_wait, rt_thread_self, RT_DEBUG_NOT_IN_INTERRUPT. wp_simpl. simpl. rewrite Hn. split; [done|].
  wp_simpl. fold (wait_tick msec). simpl.
  assert (wait_tick msec ≠ 0) as Hnz by (destruct Htick as [->|?]; [done|lia]).
  rewrite (proj2 (Z.eqb_neq _ _) Hnz). rewrite Hcur. simpl. wp_simpl.
  eapply wp_wqueue_at; [simpl; by rewrite Eq, lookup_singleton_eq|]. simpl. wp_simpl. unfold rt_wqueue_add. 
  eapply wp_upd_wqueue; [simpl; by rewrite Eq, lookup_singleton_eq|]. simpl. wp_simpl. simpl.
  pose proof (suspend_self_run (q_kernel s) t th (if wait_tick msec =? RT_WAITING_FOREVER then 0 else u32 (wait_tick msec))
    (negb (wait_tick msec =? RT_WAITING_FOREVER)) Hk Hrun Hother) as Hs.
  eapply wp_mono; [apply Hs|].
  { destruct Htick as [->|?]; [done|]. rewrite (proj2 (Z.eqb_neq _ _)) by (unfold RT_WAITING_FOREVER; lia).
    assert (TICK_HALF < 4294967296) by done. rewrite u32_small by lia. lia. }
  intros r1 k1 Hk1. wp_simpl. simpl.
  assert (wp (when (negb (wait_tick msec =? RT_WAITING_FOREVER)) (thread_timer_start t (u32 (wait_tick msec))))
    (λ _ k2, wp rt_schedule (λ _ k', kinv 0 k' ∧ threads k' = <[t := with_stat RT_THREAD_SUSPEND th]> (threads (q_kernel s)) ∧
        iframe (q_kernel s) k' ∧ same_objects (q_kernel s) k') k2) k1) as Hw.
  { revert Hk1. by destruct (wait_tick msec =? RT_WAITING_FOREVER). }
  rewrite <-wp_when. eapply wp_mono; [exact Hw|]. intros [] k2 Hk2. wp_simpl. simpl.
  eapply wp_mono; [exact Hk2|]. intros [] k3 (Hk3 & Eth3 & _). wp_simpl. simpl.
  split_and!; [done..| |done|done]. by rewrite Eq, insert_singleton_eq.
Qed.

(** A thread that waits alone returns when it is woken, and nothing of it stays behind; a wakeup that comes before
    the wait is remembered, once. *)
Theorem rt_wqueue_handover queue node msec key t th s :
  q_wqueues s = {[ queue := Wqueue 0 [] ]} → kinv 0 (q_kernel s) → running t th (q_kernel s) →
  other_ready t (q_kernel s) → wait_tick msec = RT_WAITING_FOREVER ∨ 0 < wait_tick msec < TICK_HALF →
  wp (r1 ← rt_wqueue_wait queue node false msec; rt_wqueue_wakeup queue key;;
      th' ← in_q (thread_at t); r2 ← rt_wqueue_wait_resume queue node; mret (r1, stat_of th', r2))
     (λ r s', r = (Wait node, RT_THREAD_READY, 0) ∧ q_wqueues s' = {[ queue := Wqueue 0 [] ]} ∧ kinv 0 (q_kernel s')) s ∧
  wp (rt_wqueue_wakeup queue key;; r1 ← rt_wqueue_wait queue node false msec; mret r1)
     (λ r s', r = Ret 0 ∧ q_wqueues s' = {[ queue := Wqueue 0 [] ]} ∧ q_kernel s' = q_kernel s) s.
Proof using WL.
  intros Eq Hk Hrun Hother Htick. pose proof Hrun as [Hn Hcur Hth Hst]. split; wp_simpl.
  - eapply wp_mono; [by apply (wait_run queue [] node msec t th)|].
    intros r1 s1 (-> & Hk1 & Eq1 & Enode & Eth1). wp_simpl.
    assert (threads (q_kernel s1) !! t = Some (with_stat RT_THREAD_SUSPEND th)) as Hth1 by by rewrite Eth1, lookup_insert_eq.
    assert (stat_of (with_stat RT_THREAD_SUSPEND th) = RT_THREAD_SUSPEND) as Es by by apply stat_of_with_stat.
    eapply wp_mono; [apply (wakeup_first_run queue 0 node [] key t (with_stat RT_THREAD_SUSPEND th) s1 Eq1); try done|].
    + apply NoDup_singleton.
    + by rewrite Enode, lookup_insert_eq.
    + by rewrite Es.
    + by eapply other_ready_some.
    + intros [] s2 (Eq2 & _ & Hk2 & Eth2). rewrite Es in Eth2. simpl in Eth2. wp_simpl.
      eapply wp_thread_at; [by rewrite Eth2, lookup_insert_eq|]. simpl. wp_simpl. unfold rt_wqueue_wait_resume.
      eapply wp_mono; [by apply (wait_exit_run queue RT_WQ_FLAG_WAKEUP [])|]. intros r s3 [-> ->]. wp_simpl.
      split_and!; [|done|done]. by rewrite stat_of_with_stat.
  - unfold rt_wqueue_wakeup. wp_simpl. eapply wp_upd_wqueue; [by rewrite Eq, lookup_singleton_eq|].
    rewrite Eq, insert_singleton_eq. wp_simpl. eapply wp_wqueue_at; [apply lookup_singleton_eq|]. simpl. wp_simpl. simpl. wp_simpl.
    unfold rt_wqueue_wait, rt_thread_self, RT_DEBUG_NOT_IN_INTERRUPT. wp_simpl. simpl. rewrite Hn. split; [done|].
    wp_simpl. fold (wait_tick msec). simpl.
    assert (wait_tick msec ≠ 0) as Hnz by (destruct Htick as [->|?]; [done|lia]).
    rewrite (proj2 (Z.eqb_neq _ _) Hnz). rewrite Hcur. simpl. wp_simpl.
    eapply wp_wqueue_at; [simpl; by rewrite lookup_singleton_eq|]. simpl. wp_simpl.
    eapply wp_mono; [by apply (wait_exit_run queue RT_WQ_FLAG_WAKEUP [])|]. intros r s3 [-> ->]. by wp_simpl.
Qed.

(** Two threads wait; the timeout of the first comes, and before it runs a wakeup. The wakeup is spent on the thread
    that no longer waits: the second one sleeps on, and the flag is clear again. *)
Theorem rt_wqueue_wakeup_wasted queue na nb ta tb tha thb key s :
  q_wqueues s = {[ queue := Wqueue 0 [na; nb] ]} → na ≠ nb → ta ≠ tb →
  q_nodes s !! na = Some (WqNode ta addr_default_wake 0) → q_nodes s !! nb = Some (WqNode tb addr_default_wake 0) →
  kinv 0 (q_kernel s) → threads (q_kernel s) !! ta = Some tha → stat_of tha = RT_THREAD_SUSPEND →
  threads (q_kernel s) !! tb = Some thb → stat_of thb = RT_THREAD_SUSPEND →
  wp (in_q (rt_timer_stop (ThTimer ta);; rt_thread_timeout ta);; rt_wqueue_wakeup queue key;;
      r ← rt_wqueue_wait_resume queue na; mret r)
     (λ r s', r = 0 ∧ q_wqueues s' = {[ queue := Wqueue 0 [nb] ]} ∧ threads (q_kernel s') !! tb = Some thb ∧
        ∃ tha', threads (q_kernel s') !! ta = Some tha' ∧ stat_of tha' = RT_THREAD_READY) s.
Proof using WL.
  intros Eq Hne Htne Hna Hnb Hk Hta Hsa Htb Hsb. rewrite wp_bind, wp_in_q.
  eapply wp_mono; [by apply (timeout_wake_run _ ta tha)|]. intros r0 k1 (Hk1 & _ & _ & Eth1 & _).
  set (tha1 := with_stat RT_THREAD_READY _) in *.
  assert (threads k1 !! ta = Some tha1) as Hta1 by by rewrite Eth1, lookup_insert_eq.
  assert (stat_of tha1 = RT_THREAD_READY) as Es by by apply stat_of_with_stat.
  wp_simpl. eapply wp_mono; [apply (wakeup_first_run queue 0 na [nb] key ta tha1 (QState k1 (q_wqueues s) (q_nodes s)) Eq); try done|].
  - apply NoDup_cons. split; [by intros ?%list_elem_of_singleton|apply NoDup_singleton].
  - simpl. by rewrite Es.
  - by exists ta, tha1.
  - intros [] s2 (Eq2 & _ & Hk2 & Eth2). simpl in Eth2. rewrite Es in Eth2. simpl in Eth2. wp_simpl.
    unfold rt_wqueue_wait_resume. eapply wp_mono; [by apply (wait_exit_run queue RT_WQ_FLAG_WAKEUP [nb])|].
    intros r s3 [-> ->]. wp_simpl. simpl. split_and!; [done| | |].
    + rewrite lremove_notin; [done|]. by intros ?%list_elem_of_singleton.
    + by rewrite Eth2, Eth1, lookup_insert_ne.
    + exists tha1. by rewrite Eth2.
Qed.
End proofs.
