(* ===== verification/WorkQueue.v ===== *)
(** Work queues of components/drivers/src/workqueue.c: threads submit work, the thread of the
    queue takes it off a list and does it. The lists of works are plain lists of their
    addresses; a work is on one list at most. *)
From S2P Require Import Prelude Kservice Mem KState Sched Object Timer Thread ThreadInit Ipc Sem DriverIpc.

Definition RT_WORK_STATE_PENDING : Z := 0x0001.
Definition RT_WORK_STATE_SUBMITTING : Z := 0x0002.
Definition RT_WORK_TYPE_DELAYED : Z := 0x0001.
Definition WQUEUE_NAME : list Z := [119; 113; 117; 101; 117; 101; 0].
Definition WORK_NAME : list Z := [119; 111; 114; 107; 0].
Definition RT_TIMER_FLAG_SOFT_TIMER : Z := 4.

Record rt_workqueue := WQueue { work_list : list Z; work_current : Z; work_thread : Z }.
Record rt_work := Work { work_func : Z; work_data : Z; wk_flags : Z; wk_type : Z; workqueue : Z }.
(** The semaphore inside of a queue and the timer inside of a work. *)
Definition wq_sem (queue : Z) : Z := queue + 12.
Definition wk_timer (work : Z) : optr := Obj (work + 20).
Definition sizeof_workqueue : Z := 12 + object_size RT_Object_Class_Semaphore + 4.
Definition set_work_list (v : list Z) (q : rt_workqueue) : rt_workqueue := WQueue v (work_current q) (work_thread q).
Definition set_work_current (v : Z) (q : rt_workqueue) : rt_workqueue := WQueue (work_list q) v (work_thread q).
Definition set_wk_flags (v : Z) (w : rt_work) : rt_work := Work (work_func w) (work_data w) v (wk_type w) (workqueue w).
Definition set_wk_type (v : Z) (w : rt_work) : rt_work := Work (work_func w) (work_data w) (wk_flags w) v (workqueue w).
Definition set_workqueue (v : Z) (w : rt_work) : rt_work := Work (work_func w) (work_data w) (wk_flags w) (wk_type w) v.

(** The kernel, the queues and the works by address. *)
Record wstate := WState { w_kernel : kernel; w_queues : gmap Z rt_workqueue; w_works : gmap Z rt_work }.
Abbreviation W := (M wstate).
(** The functions of the works; what C leaves to the compiler and the linker. *)
Class WorkFns := {
  work_fn : Z → Z → Z → W unit;
  addr_workqueue_thread_entry : Z;
  addr_delayed_work_timeout_handler : Z;
  libc_EINVAL : Z
}.

Section work_queue.
Context `{CB : Callbacks} `{WF : WorkFns}.

Definition in_kernel {A} (m : K A) : W A := λ s,
  match m (w_kernel s) with Some (x, k) => Some (x, WState k (w_queues s) (w_works s)) | None => None end.
Definition queue_at (queue : Z) : W rt_workqueue := m ← gets w_queues; lift (m !! queue).
Definition upd_queue (queue : Z) (f : rt_workqueue → rt_workqueue) : W unit :=
  q ← queue_at queue; modify (λ s, WState (w_kernel s) (<[queue := f q]> (w_queues s)) (w_works s)).
Definition work_at (work : Z) : W rt_work := m ← gets w_works; lift (m !! work).
Definition upd_work (work : Z) (f : rt_work → rt_work) : W unit :=
  w ← work_at work; modify (λ s, WState (w_kernel s) (w_queues s) (<[work := f w]> (w_works s))).
Definition set_bits (m x : Z) : Z := Z.lor x m.
Definition clear_bits (m x : Z) : Z := Z.land x (Z.lnot m).
Definition has_bits (m x : Z) : bool := negb (Z.land x m =? 0).
Definition upd_flags (work : Z) (f : Z → Z) : W unit := upd_work work (λ w, set_wk_flags (f (wk_flags w)) w).
(** rt_list_remove of the node of a work, on whichever list it is *)
Definition unlink (work : Z) : W unit :=
  work_at work;;
  modify (λ s, WState (w_kernel s) ((λ q, set_work_list (lremove work (work_list q)) q) <$> w_queues s) (w_works s)).
(** rt_list_insert_after(queue->work_list.prev, ...) *)
Definition link_last (queue work : Z) : W unit := upd_queue queue (λ q, set_work_list (work_list q ++ [work]) q).

Definition rt_work_init (work func data : Z) : W unit :=
  modify (λ s, WState (w_kernel s) (w_queues s) (<[work := Work func data 0 0 0]> (w_works s))).
Definition rt_delayed_work_init (work func data : Z) : W unit := rt_work_init work func data.

(** ** The thread of a queue *)

(** [fuel] bounds the threads that wait for the end of the work, plus two. *)
Fixpoint completion_loop (fuel : nat) (sem : Z) : K Z :=
  match fuel with
  | O => fail
  | S fuel =>
      r ← rt_sem_trytake sem;
      match r with
      | Ret result =>
          if result =? - RT_ETIMEOUT then rt_sem_release sem;; completion_loop fuel sem
          else if result =? RT_EOK then mret RT_EOK
          else mret (- RT_ERROR)
      | Wait _ => fail
      end
  end.
Definition _workqueue_work_completion (fuel : nat) (queue : Z) : K Z :=
  rt_enter_critical;;
  result ← completion_loop fuel (wq_sem queue);
  rt_exit_critical;;
  mret result.

(** _workqueue_thread_entry between the points where something else can run. *)
Inductive worker := WCheck | WSuspend | WTake | WWork (work : Z) | WDone.
(** With an empty list [work_list.next] is the list itself, and no work. *)
Definition worker_take (queue : Z) : W Z :=
  q ← queue_at queue;
  work ← lift (head (work_list q));
  unlink work;;
  upd_queue queue (set_work_current work);;
  upd_flags work (clear_bits RT_WORK_STATE_PENDING);;
  upd_work work (set_workqueue 0);;
  mret work.
Definition worker_step (queue : Z) (p : worker) : W worker :=
  match p with
  | WCheck => q ← queue_at queue; mret (if bool_decide (work_list q = []) then WSuspend else WTake)
  | WSuspend =>
      in_kernel (self ← rt_thread_self; t ← lift self; rt_thread_suspend t;; rt_schedule);;
      mret WTake
  | WTake => work ← worker_take queue; mret (WWork work)
  | WWork work => w ← work_at work; work_fn (work_func w) work (work_data w);; mret WDone
  | WDone =>
      upd_queue queue (set_work_current 0);;
      k ← gets w_kernel;
      in_kernel (_workqueue_work_completion (2 + length (tl (LSuspend (wq_sem queue)) k)) queue);;
      mret WCheck
  end.

(** ** Submitting and cancelling *)

Definition wake_worker (queue : Z) : W unit :=
  q ← queue_at queue;
  in_kernel (rt_thread_resume (work_thread q);; rt_schedule).
Definition _workqueue_submit_work (queue work : Z) : W Z :=
  w ← work_at work;
  if has_bits RT_WORK_STATE_PENDING (wk_flags w) then mret (- RT_EBUSY) else
  q ← queue_at queue;
  if work_current q =? work then mret (- RT_EBUSY) else
  unlink work;;
  link_last queue work;;
  upd_flags work (set_bits RT_WORK_STATE_PENDING);;
  q ← queue_at queue;
  when (work_current q =? 0) (wake_worker queue);;
  mret RT_EOK.
Definition _workqueue_cancel_work (queue work : Z) : W Z :=
  q ← queue_at queue;
  if work_current q =? work then mret (- RT_EBUSY) else
  unlink work;;
  upd_flags work (clear_bits RT_WORK_STATE_PENDING);;
  mret RT_EOK.
Definition stop_delay (work : Z) : W unit :=
  in_kernel (rt_timer_stop (wk_timer work));;
  in_kernel (rt_timer_detach (wk_timer work));;
  upd_flags work (clear_bits RT_WORK_STATE_SUBMITTING).
Definition _workqueue_cancel_delayed_work (work : Z) : W Z :=
  w ← work_at work;
  if workqueue w =? 0 then mret (- libc_EINVAL) else
  ret ← (if has_bits RT_WORK_STATE_PENDING (wk_flags w) then _workqueue_cancel_work (workqueue w) work
         else when (has_bits RT_WORK_STATE_SUBMITTING (wk_flags w)) (stop_delay work);; mret RT_EOK);
  if negb (ret =? 0) then mret ret else
  upd_work work (set_workqueue 0);;
  upd_flags work (clear_bits RT_WORK_STATE_PENDING);;
  mret ret.
Definition _workqueue_submit_delayed_work (queue work ticks : Z) : W Z :=
  w ← work_at work;
  if negb (workqueue w =? 0) && negb (workqueue w =? queue) then mret (- RT_EINVAL) else
  ret ← (if workqueue w =? queue then _workqueue_cancel_delayed_work work else mret RT_EOK);
  if ret <? 0 then mret ret else
  upd_work work (set_workqueue queue);;
  if ticks =? 0 then _workqueue_submit_work queue work
  else
    upd_flags work (set_bits RT_WORK_STATE_SUBMITTING);;
    in_kernel (rt_timer_init (wk_timer work) WORK_NAME (FnUser addr_delayed_work_timeout_handler) work ticks
                 RT_TIMER_FLAG_SOFT_TIMER);;
    in_kernel (rt_timer_start (wk_timer work));;
    mret ret.
(** What the timer of a delayed work calls. *)
Definition _delayed_work_timeout_handler (work : Z) : W unit :=
  stop_delay work;;
  upd_work work (λ w, set_wk_type (clear_bits RT_WORK_TYPE_DELAYED (wk_type w)) w);;
  w ← work_at work;
  _workqueue_submit_work (workqueue w) work;; mret tt.

Definition rt_workqueue_create (name : list Z) (stack_size priority : Z) : W Z :=
  queue ← in_kernel (RT_KERNEL_MALLOC sizeof_workqueue);
  if queue =? 0 then mret 0 else
  modify (λ s, WState (w_kernel s) (<[queue := WQueue [] 0 0]> (w_queues s)) (w_works s));;
  in_kernel (rt_sem_init (wq_sem queue) WQUEUE_NAME 0 RT_IPC_FLAG_FIFO);;
  thread ← in_kernel (rt_thread_create name addr_workqueue_thread_entry queue stack_size priority 10);
  upd_queue queue (λ q, WQueue (work_list q) (work_current q) thread);;
  if thread =? 0 then in_kernel (RT_KERNEL_FREE queue);; mret 0 else
  in_kernel (rt_thread_startup thread);;
  mret queue.
Definition rt_workqueue_destroy (queue : Z) : W Z :=
  RT_ASSERT (negb (queue =? 0));;
  q ← queue_at queue;
  in_kernel (rt_thread_delete (work_thread q));;
  in_kernel (RT_KERNEL_FREE queue);;
  modify (λ s, WState (w_kernel s) (delete queue (w_queues s)) (w_works s));;
  mret RT_EOK.
Definition not_null (p : Z) : W unit := RT_ASSERT (negb (p =? 0)).
Definition rt_workqueue_dowork (queue work : Z) : W Z :=
  not_null queue;; not_null work;; _workqueue_submit_work queue work.
Definition rt_workqueue_submit_work (queue work time : Z) : W Z :=
  not_null queue;; not_null work;;
  when (0 <? time) (upd_work work (λ w, set_wk_type (set_bits RT_WORK_TYPE_DELAYED (wk_type w)) w));;
  w ← work_at work;
  if has_bits RT_WORK_TYPE_DELAYED (wk_type w) then _workqueue_submit_delayed_work queue work time
  else _workqueue_submit_work queue work.
Definition rt_workqueue_critical_work (queue work : Z) : W Z :=
  not_null queue;; not_null work;;
  q ← queue_at queue;
  if work_current q =? work then mret (- RT_EBUSY) else
  unlink work;;
  link_last queue work;;
  when (work_current q =? 0) (wake_worker queue);;
  mret RT_EOK.
Definition rt_workqueue_cancel_work (queue work : Z) : W Z :=
  not_null queue;; not_null work;;
  w ← work_at work;
  if has_bits RT_WORK_TYPE_DELAYED (wk_type w) then _workqueue_cancel_delayed_work work
  else _workqueue_cancel_work queue work.
(** The thread that waits for the end of the work, and what it does behind its wait. *)
Definition cancel_sync_rest (work : Z) : W Z := upd_flags work (clear_bits RT_WORK_STATE_PENDING);; mret RT_EOK.
Definition rt_workqueue_cancel_work_sync (queue work : Z) : W (call Z Z) :=
  not_null queue;; not_null work;;
  q ← queue_at queue;
  if work_current q =? work then
    w ← in_kernel (rt_sem_take (wq_sem queue) (-1));
    match w with
    | Wait t => mret (Wait t)
    | Ret _ => r ← cancel_sync_rest work; mret (Ret r)
    end
  else unlink work;; r ← cancel_sync_rest work; mret (Ret r).
Definition rt_workqueue_cancel_work_sync_resume (work thread : Z) : W Z :=
  in_kernel (rt_sem_take_resume thread);; cancel_sync_rest work.
Definition rt_workqueue_cancel_all_work (queue : Z) : W Z :=
  RT_ASSERT (negb (queue =? 0));;
  in_kernel rt_enter_critical;;
  upd_queue queue (set_work_list []);;
  in_kernel rt_exit_critical;;
  mret RT_EOK.
End work_queue.
(** * What a queue promises *)

(** The calls of threads, and what the thread of the queue does with the list. *)
Inductive wq_event := Submit (work : Z) | Cancel (work : Z) | Take | Done.
(** The queue as a list of works to do and the work being done (0 for none). *)
Record wq_abs := WqAbs { wa_pending : list Z; wa_current : Z }.
Definition wq_spec (e : wq_event) (a : wq_abs) : option (Z * wq_abs) :=
  let '(WqAbs l c) := a in
  match e with
  | Submit w => if bool_decide (w ∈ l) || (c =? w) then Some (- RT_EBUSY, a) else Some (RT_EOK, WqAbs (l ++ [w]) c)
  | Cancel w => if c =? w then Some (- RT_EBUSY, a) else Some (RT_EOK, WqAbs (lremove w l) c)
  | Take => match l with w :: l => if c =? 0 then Some (w, WqAbs l w) else None | [] => None end
  | Done => if c =? 0 then None else Some (0, WqAbs l 0)
  end.
Fixpoint wq_specs (es : list wq_event) (a : wq_abs) : option (list Z * wq_abs) :=
  match es with
  | [] => Some ([], a)
  | e :: es => '(r, a) ← wq_spec e a; '(rs, a) ← wq_specs es a; Some (r :: rs, a)
  end.

Section proofs.
Context `{CB : Callbacks} `{WF : WorkFns}.
Implicit Types (k : kernel) (s : wstate).

Definition wq_do (queue : Z) (e : wq_event) : W Z :=
  match e with
  | Submit w => rt_workqueue_submit_work queue w 0
  | Cancel w => rt_workqueue_cancel_work queue w
  | Take => worker_take queue
  | Done => worker_step queue WDone;; mret 0
  end.
Fixpoint wq_run (queue : Z) (es : list wq_event) : W (list Z) :=
  match es with
  | [] => mret []
  | e :: es => r ← wq_do queue e; rs ← wq_run queue es; mret (r :: rs)
  end.
Definition event_work (e : wq_event) : option Z := match e with Submit w | Cancel w => Some w | _ => None end.

Lemma wp_in_kernel {A} (m : K A) (Q : A → wstate → Prop) s :
  wp (in_kernel m) Q s ↔ wp m (λ r k, Q r (WState k (w_queues s) (w_works s))) (w_kernel s).
Proof. unfold wp, in_kernel. by destruct (m (w_kernel s)) as [[??]|]. Qed.
#[local] Hint Rewrite @wp_in_kernel : wp.
Lemma wp_queue_at s queue q (Q : rt_workqueue → wstate → Prop) :
  w_queues s !! queue = Some q → Q q s → wp (queue_at queue) Q s.
Proof. intros E HQ. unfold queue_at. wp_simpl. by rewrite E. Qed.
Lemma wp_work_at s work w (Q : rt_work → wstate → Prop) : w_works s !! work = Some w → Q w s → wp (work_at work) Q s.
Proof. intros E HQ. unfold work_at. wp_simpl. by rewrite E. Qed.
Lemma wp_upd_queue s queue q f (Q : unit → wstate → Prop) :
  w_queues s !! queue = Some q → Q tt (WState (w_kernel s) (<[queue := f q]> (w_queues s)) (w_works s)) →
  wp (upd_queue queue f) Q s.
Proof. intros E HQ. unfold upd_queue. wp_simpl. by eapply wp_queue_at. Qed.
Lemma wp_upd_work s work w f (Q : unit → wstate → Prop) :
  w_works s !! work = Some w → Q tt (WState (w_kernel s) (w_queues s) (<[work := f w]> (w_works s))) →
  wp (upd_work work f) Q s.
Proof. intros E HQ. unfold upd_work. wp_simpl. by eapply wp_work_at. Qed.

(** The kernel as a queue with the thread [t] needs it. *)
Record wq_kernel (queue t : Z) k : Prop := {
  wk_inv : kinv 0 k;
  wk_ready : some_ready k;
  wk_sem : sem_ok (wq_sem queue) 0 k;
  wk_thread : ∃ th, threads k !! t = Some th ∧ stat_of th ≠ RT_THREAD_CLOSE
}.
(** One queue, [ws] the works; a work is marked as pending when it is on its list, and no work is delayed. *)
Record wq_ok (queue t : Z) (ws : gset Z) (a : wq_abs) s : Prop := {
  wo_null : queue ≠ 0;
  wo_kernel : wq_kernel queue t (w_kernel s);
  wo_lock : 0 ≤ lock_nest (w_kernel s) < 32766;
  wo_queue : w_queues s = {[ queue := WQueue (wa_pending a) (wa_current a) t ]};
  wo_nodup : NoDup (wa_pending a);
  wo_works : dom (w_works s) = ws;
  wo_listed w : w ∈ wa_pending a → w ≠ 0 ∧ w ∈ ws;
  wo_flags w x : w_works s !! w = Some x →
    has_bits RT_WORK_STATE_PENDING (wk_flags x) = bool_decide (w ∈ wa_pending a) ∧
    has_bits RT_WORK_TYPE_DELAYED (wk_type x) = false
}.

Lemma has_set_bits m x : m ≠ 0 → has_bits m (set_bits m x) = true.
Proof.
  intros Hm. unfold has_bits, set_bits. rewrite Z.land_lor_distr_l, Z.land_diag.
  destruct (Z.eqb_spec (Z.lor (Z.land x m) m) 0) as [E|]; [|done]. by apply Z.lor_eq_0_iff in E as [_ ?].
Qed.
Lemma has_clear_bits m x : has_bits m (clear_bits m x) = false.
Proof.
  unfold has_bits, clear_bits. by rewrite <-Z.land_assoc, (Z.land_comm (Z.lnot m)), Z.land_lnot_diag, Z.land_0_r.
Qed.

(** ** The kernel's part *)

Lemma wq_kernel_move queue t k k' :
  wq_kernel queue t k → kinv 0 k' → iframe k k' → same_objects k k' →
  (∀ u th, threads k !! u = Some th → ∃ th', threads k' !! u = Some th' ∧
     (stat_of th' = stat_of th ∨ stat_of th' = RT_THREAD_READY)) → wq_kernel queue t k'.
Proof.
  intros [Hk (u & thu & Hu & Hur) Hs (th & Hth & Hc)] Hk' Hf (_ & _ & Eo) Ht. constructor; [done| | |].
  - destruct (Ht _ _ Hu) as (thu' & Hu' & Es). exists u, thu'. split; [done|]. destruct Es as [->| ->]; done.
  - apply (sem_ok_move _ 0 k); [done|apply Hf|done|lia].
  - destruct (Ht _ _ Hth) as (th' & Hth' & Es). exists th'. split; [done|]. by destruct Es as [->| ->].
Qed.
Lemma moved_threads k t th th' u thu :
  threads k !! t = Some th → stat_of th' = RT_THREAD_READY → threads k !! u = Some thu →
  ∃ thu', <[t := th']> (threads k) !! u = Some thu' ∧ (stat_of thu' = stat_of thu ∨ stat_of thu' = RT_THREAD_READY).
Proof.
  intros Ht Hr Hu. destruct (decide (u = t)) as [->|Hne].
  - exists th'. rewrite lookup_insert_eq. auto.
  - exists thu. rewrite lookup_insert_ne by done. auto.
Qed.
Lemma scheduled_kernel queue t k k' : wq_kernel queue t k → kinv 0 k' → scheduled k k' → wq_kernel queue t k'.
Proof.
  intros Hk Hk' [Hf _]. apply (wq_kernel_move queue t k); [done|done|by apply switch_iframe| |].
  - destruct Hf as (c & p & ->). by apply same_objects_eq.
  - destruct Hf as (c & p & ->). intros u th Hu. eauto.
Qed.
(** The thread of the queue is awake behind it. *)
Lemma wake_worker_kernel_run queue t k :
  wq_kernel queue t k →
  wp (rt_thread_resume t;; rt_schedule) (λ _ k', wq_kernel queue t k' ∧ lock_nest k' = lock_nest k ∧
    (∃ th', threads k' !! t = Some th' ∧ stat_of th' ≠ RT_THREAD_SUSPEND) ∧
    (∀ th, running t th k → next_to_run t k → running t th k' ∧ threads k' = threads k)) k.
Proof.
  intros Hk. pose proof Hk as [Hki Hready Hs (th & Hth & Hc)]. wp_simpl.
  eapply wp_mono; [by apply (resume_any_run t th)|]. intros r k1 Hr.
  assert (wq_kernel queue t k1 ∧ lock_nest k1 = lock_nest k ∧
    (∃ th1, threads k1 !! t = Some th1 ∧ stat_of th1 ≠ RT_THREAD_SUSPEND) ∧
    (∀ th, running t th k → k1 = k)) as (Hk1 & El & H1 & Hsame).
  { destruct (Z.eqb_spec (stat_of th) RT_THREAD_SUSPEND) as [E|E].
    - destruct Hr as (_ & Hm). split; [|split; [apply Hm|]].
      + apply (wq_kernel_move queue t k); [done|apply Hm|apply kframe_iframe, Hm|apply Hm|].
        intros u thu Hu. rewrite (mv_threads _ _ _ _ _ _ Hm). eapply moved_threads; [exact Hth| |done].
        by apply stat_of_with_stat.
      + split.
        * eexists. rewrite (mv_threads _ _ _ _ _ _ Hm), lookup_insert_eq. split; [done|].
          by rewrite stat_of_with_stat.
        * intros th0 [_ _ Hth0 Hst0]. simplify_eq. by rewrite Hst0 in E.
    - destruct Hr as [_ ->]. split_and!; [done..|by exists th|done]. }
  eapply wp_mono; [apply (schedule_run 0); apply Hk1|]. intros [] k2 [Hk2 Hsch]. split; [by eapply scheduled_kernel|].
  destruct Hsch as [(c & p & ->) [Hn0 Hn1]]. split_and!; [done..|]. intros th0 Hrun Hnext. split; [|by rewrite (Hsame _ Hrun)].
  rewrite (Hsame _ Hrun) in *. destruct (decide (lock_nest k = 0)) as [E|E]; [|by rewrite (Hn1 E)].
  destruct (Hn0 E) as (u & Hu & Hnx). simpl in Hu. rewrite (next_to_run_unique _ _ _ Hnx Hnext) in Hu.
  destruct Hrun. by constructor.
Qed.

(** At the end of a work every thread that waits for it goes on, and the semaphore is 0 again. *)
Lemma completion_loop_run queue t l fuel k :
  wq_kernel queue t k → tl (LSuspend (wq_sem queue)) k = l → (length l + 2 ≤ fuel)%nat →
  wp (completion_loop fuel (wq_sem queue)) (λ r k', r = RT_EOK ∧ wq_kernel queue t k' ∧
    tl (LSuspend (wq_sem queue)) k' = [] ∧ lock_nest k' = lock_nest k ∧
    (∀ u, u ∈ l → ∃ th, threads k' !! u = Some th ∧ stat_of th = RT_THREAD_READY) ∧
    (∀ u th, threads k !! u = Some th → ∃ th', threads k' !! u = Some th' ∧
       (stat_of th' = stat_of th ∨ stat_of th' = RT_THREAD_READY))) k.
Proof.
  revert l k. induction fuel as [|fuel IH]; intros l k Hk El Hf; [lia|]. simpl.
  pose proof Hk as [Hki Hready Hs Hth]. destruct (so_object _ _ _ Hs) as (o & Ho & Hc & Hflag).
  assert (rt_sem_trytake (wq_sem queue) k = Some (Ret (- RT_ETIMEOUT), k)) as Etry.
  { assert (wp (rt_sem_trytake (wq_sem queue)) (λ r k', r = Ret (- RT_ETIMEOUT) ∧ k' = k) k) as (r & k' & E & -> & ->)%wp_inv; [|done].
    unfold rt_sem_trytake, rt_sem_take, sem_value. wp_simpl. eapply assert_class_run; [done..|]. wp_simpl.
    eapply wp_deref; [apply Hs|]. simpl. by wp_simpl. }
  wp_simpl. rewrite (wp_run _ _ _ _ _ Etry). simpl. wp_simpl. destruct l as [|u l].
  - assert (rt_sem_release (wq_sem queue) k = Some (RT_EOK, set_sems (<[wq_sem queue := 1]> (sems k)) k)) as Erel.
    { assert (wp (rt_sem_release (wq_sem queue)) (λ r k', r = RT_EOK ∧ k' = set_sems (<[wq_sem queue := 1]> (sems k)) k) k)
        as (r & k' & E & -> & ->)%wp_inv; [|done].
      unfold rt_sem_release, sem_value, set_sem_value. wp_simpl. eapply assert_class_run; [done..|]. wp_simpl. rewrite El. simpl.
      wp_simpl. eapply wp_deref; [apply Hs|]. simpl. by wp_simpl. }
    rewrite (wp_run _ _ _ _ _ Erel). destruct fuel as [|fuel]; [simpl in Hf; lia|]. simpl.
    set (k1 := set_sems _ k). assert (kinv 0 k1) as Hk1 by by apply kinv_sems.
    unfold rt_sem_trytake, rt_sem_take, sem_value, set_sem_value. wp_simpl. eapply assert_class_run; [done..|]. wp_simpl.
    eapply wp_deref; [simpl; by rewrite lookup_insert_eq|]. simpl. wp_simpl. simpl. wp_simpl.
    split; [done|]. split_and!; [|done|done| |by eauto].
    + constructor; [by apply kinv_sems|done| |done].
      destruct Hs. constructor; [|done..]. simpl. by rewrite lookup_insert_eq.
    + intros u Hu. by apply elem_of_nil in Hu.
  - destruct (rt_sem_release_wake_run 0 k _ u l Hki Hs El) as (th & Hu & _ & Hw).
    eapply wp_mono; [exact Hw|]. intros r k1 (_ & Hs1 & Hk1 & El1 & Eth & _ & Hf1 & Ho1 & _).
    assert (stat_of (with_stat RT_THREAD_READY th) = RT_THREAD_READY) as Est by by apply stat_of_with_stat.
    assert (wq_kernel queue t k1) as Hwk1.
    { apply (wq_kernel_move queue t k); try done. intros v thv Hv. rewrite Eth. by eapply moved_threads. }
    eapply wp_mono; [apply (IH l k1 Hwk1 El1); simpl in Hf; lia|].
    intros r2 k2 (-> & Hk2 & El2 & Elock & Hall & Hth2). split_and!; [done..| | |].
    + rewrite Elock. apply Hf1.
    + intros v [->|Hv]%elem_of_cons; [|by apply Hall]. destruct (Hth2 u (with_stat RT_THREAD_READY th)) as (th' & Hv' & Es).
      { by rewrite Eth, lookup_insert_eq. }
      exists th'. split; [done|]. destruct Es as [->| ->]; done.
    + intros v thv Hv. destruct (moved_threads k u th (with_stat RT_THREAD_READY th) v thv Hu Est Hv) as (v1 & Hv1 & Es1).
      rewrite <-Eth in Hv1. destruct (Hth2 _ _ Hv1) as (v2 & Hv2 & Es2). exists v2. split; [done|].
      destruct Es2 as [->| ->]; auto.
Qed.
Lemma wq_kernel_lock queue t k n : wq_kernel queue t k → wq_kernel queue t (set_lock_nest n k).
Proof. intros [Hk Hr Hs Ht]. constructor; [by apply (kinv_same 0 k)|done| |done]. by apply (sem_ok_move _ 0 k). Qed.
Lemma exit_critical_kernel_run queue t k :
  wq_kernel queue t k → 1 ≤ lock_nest k < 32767 →
  wp rt_exit_critical (λ _ k', wq_kernel queue t k' ∧ threads k' = threads k ∧ tlists k' = tlists k ∧
    lock_nest k' = lock_nest k - 1) k.
Proof.
  intros Hk Hn. unfold rt_exit_critical. wp_simpl. rewrite s16_small by lia. simpl. wp_simpl.
  destruct (Z.leb_spec (lock_nest k - 1) 0); wp_simpl; [|split_and!; [by apply wq_kernel_lock|done..]].
  assert (lock_nest k - 1 = 0) as E by lia. rewrite E in *. simpl.
  pose proof (wq_kernel_lock _ _ _ 0 Hk) as Hk1. set (k1 := set_lock_nest 0 k) in *. change (set_lock_nest 0 k1) with k1.
  case_bool_decide; [|by wp_simpl].
  eapply wp_mono; [apply (schedule_run 0); apply Hk1|]. intros [] k2 [Hk2 Hsch]. split; [by eapply scheduled_kernel|].
  destruct Hsch as [(c & p & ->) _]. done.
Qed.
Lemma work_completion_run queue t k :
  wq_kernel queue t k → 0 ≤ lock_nest k < 32766 →
  wp (_workqueue_work_completion (2 + length (tl (LSuspend (wq_sem queue)) k)) queue) (λ r k', r = RT_EOK ∧
    wq_kernel queue t k' ∧ lock_nest k' = lock_nest k ∧ tl (LSuspend (wq_sem queue)) k' = [] ∧
    (∀ u, u ∈ tl (LSuspend (wq_sem queue)) k → ∃ th, threads k' !! u = Some th ∧ stat_of th = RT_THREAD_READY)) k.
Proof.
  intros Hk Hl. unfold _workqueue_work_completion, rt_enter_critical. rewrite wp_bind, wp_modify.
  rewrite s16_small by lia. pose proof (wq_kernel_lock _ _ _ (lock_nest k + 1) Hk) as Hk1.
  set (k1 := set_lock_nest (lock_nest k + 1) k) in *. rewrite wp_bind.
  eapply wp_mono; [apply (completion_loop_run queue t (tl (LSuspend (wq_sem queue)) k) _ k1 Hk1); [done|lia]|].
  intros r k2 (-> & Hk2 & El2 & Elock & Hall & _). wp_simpl. simpl in Elock.
  eapply wp_mono; [apply (exit_critical_kernel_run queue t); [done|lia]|]. intros [] k3 (Hk3 & Eth & Etl & El3). wp_simpl.
  split_and!; [done..|lia| |].
  - unfold tl in *. by rewrite Etl.
  - by rewrite Eth.
Qed.

(** ** The list *)

(** Moves of the list, of the mark of a work and of the kernel. *)
Lemma wq_ok_listed queue t ws l c s k f work w :
  wq_ok queue t ws (WqAbs l c) s → w_works s !! work = Some w →
  let q := WQueue l c t in
  ∀ l' c', wq_kernel queue t k → lock_nest k = lock_nest (w_kernel s) → NoDup l' →
  (∀ u, u ∈ l' → u ≠ 0 ∧ (u = work ∨ u ∈ l)) →
  (∀ u, u ≠ work → (u ∈ l' ↔ u ∈ l)) →
  has_bits RT_WORK_STATE_PENDING (wk_flags (f w)) = bool_decide (work ∈ l') → wk_type (f w) = wk_type w →
  wq_ok queue t ws (WqAbs l' c') (WState k {[ queue := WQueue l' c' t ]} (<[work := f w]> (w_works s))).
Proof.
  intros [Hn Hk Hl Hq Hd Hws Hin Hfl] Hw q l' c' Hk' Elock Hnd Hl' Hother Hbit Etype. constructor; simpl; try done.
  - by rewrite Elock.
  - rewrite dom_insert_lookup_L by done. done.
  - intros u Hu. destruct (Hl' u Hu) as [Hne Hcase]. split; [done|]. destruct Hcase as [->|Hu']; [|by apply Hin].
    rewrite <-Hws. by apply elem_of_dom.
  - intros u x Hu. destruct (decide (u = work)) as [->|Hne].
    + rewrite lookup_insert_eq in Hu. simplify_eq. split; [done|]. rewrite Etype. by apply (Hfl work).
    + rewrite lookup_insert_ne in Hu by done. destruct (Hfl u x Hu) as [-> ?]. split; [|done].
      apply bool_decide_ext. by rewrite Hother.
Qed.
Lemma unlink_run queue t l c s work w (Q : unit → wstate → Prop) :
  w_queues s = {[ queue := WQueue l c t ]} → w_works s !! work = Some w →
  Q tt (WState (w_kernel s) {[ queue := WQueue (lremove work l) c t ]} (w_works s)) → wp (unlink work) Q s.
Proof. intros Eq Hw HQ. unfold unlink. wp_simpl. eapply wp_work_at; [done|]. wp_simpl. by rewrite Eq, map_fmap_singleton. Qed.

Lemma submit_run queue t ws l c s work w :
  wq_ok queue t ws (WqAbs l c) s → work ≠ 0 → w_works s !! work = Some w →
  wp (_workqueue_submit_work queue work) (λ r s',
    if bool_decide (work ∈ l) || (c =? work) then r = - RT_EBUSY ∧ s' = s
    else r = RT_EOK ∧ wq_ok queue t ws (WqAbs (l ++ [work]) c) s' ∧
      (c = 0 → ∃ th, threads (w_kernel s') !! t = Some th ∧ stat_of th ≠ RT_THREAD_SUSPEND) ∧
      (∀ th, running t th (w_kernel s) → next_to_run t (w_kernel s) →
        running t th (w_kernel s') ∧ threads (w_kernel s') = threads (w_kernel s)) ∧ w_works s' !! work ≠ None) s.
Proof.
  intros Hok Hnz Hw. pose proof Hok as [Hn Hk Hl Hq Hd Hws Hin Hfl]. simpl in *. destruct (Hfl _ _ Hw) as [Hp Htype].
  unfold _workqueue_submit_work. wp_simpl. eapply wp_work_at; [done|]. rewrite Hp.
  case_bool_decide as Hlist; [by wp_simpl|]. wp_simpl.
  eapply wp_queue_at; [by rewrite Hq, lookup_singleton_eq|]. simpl. destruct (Z.eqb_spec c work) as [->|Hne]; [by wp_simpl|].
  wp_simpl. eapply unlink_run; [done..|]. rewrite lremove_notin by done. unfold link_last. wp_simpl.
  eapply wp_upd_queue; [apply lookup_singleton_eq|]. simpl. unfold set_work_list. simpl. rewrite insert_singleton_eq.
  unfold upd_flags. wp_simpl. eapply wp_upd_work; [done|]. wp_simpl.
  eapply wp_queue_at; [apply lookup_singleton_eq|]. simpl.
  assert (∀ k', wq_kernel queue t k' → lock_nest k' = lock_nest (w_kernel s) → wq_ok queue t ws (WqAbs (l ++ [work]) c)
    (WState k' {[ queue := WQueue (l ++ [work]) c t ]}
       (<[work := set_wk_flags (set_bits RT_WORK_STATE_PENDING (wk_flags w)) w]> (w_works s)))) as Hnew.
  { intros k' Hk' El.
    apply (wq_ok_listed queue t ws l c s k' (λ w, set_wk_flags (set_bits RT_WORK_STATE_PENDING (wk_flags w)) w) work w Hok Hw
      (l ++ [work]) c); [done|done| | | | |done].
    - apply NoDup_app. split_and!; [done|set_solver|apply NoDup_singleton].
    - intros u [Hu|Hu%list_elem_of_singleton]%elem_of_app; [|by subst; auto]. split; [by apply Hin|by right].
    - intros u Hu. rewrite elem_of_app, list_elem_of_singleton. naive_solver.
    - simpl. rewrite has_set_bits by done. symmetry. apply bool_decide_true. set_solver. }
  destruct (Z.eqb_spec c 0) as [->|Hc]; simpl; wp_simpl.
  - unfold wake_worker. wp_simpl. eapply wp_queue_at; [apply lookup_singleton_eq|]. rewrite wp_in_kernel. simpl.
    eapply wp_mono; [by apply wake_worker_kernel_run|]. intros [] k' (Hk' & El & Hth & Hsame). wp_simpl.
    split; [done|]. split; [by apply Hnew|]. split; [done|]. split; [done|]. simpl. by rewrite lookup_insert_eq.
  - split; [done|]. split; [by apply Hnew|]. split; [done|]. split; [done|]. simpl. by rewrite lookup_insert_eq.
Qed.
Lemma cancel_run queue t ws l c s work w :
  wq_ok queue t ws (WqAbs l c) s → w_works s !! work = Some w →
  wp (_workqueue_cancel_work queue work) (λ r s',
    if c =? work then r = - RT_EBUSY ∧ s' = s
    else r = RT_EOK ∧ wq_ok queue t ws (WqAbs (lremove work l) c) s' ∧ w_kernel s' = w_kernel s) s.
Proof.
  intros Hok Hw. pose proof Hok as [Hn Hk Hl Hq Hd Hws Hin Hfl]. simpl in *.
  unfold _workqueue_cancel_work. wp_simpl. eapply wp_queue_at; [by rewrite Hq, lookup_singleton_eq|]. simpl.
  destruct (Z.eqb_spec c work) as [->|Hne]; [by wp_simpl|]. wp_simpl. eapply unlink_run; [done..|]. 
  unfold upd_flags. wp_simpl. eapply wp_upd_work; [done|]. wp_simpl. split; [done|]. split; [|done].
  apply (wq_ok_listed queue t ws l c s (w_kernel s) (λ w, set_wk_flags (clear_bits RT_WORK_STATE_PENDING (wk_flags w)) w) work w Hok Hw
    (lremove work l) c); [done|done| | | | |done].
  - by apply NoDup_filter.
  - intros u [Hu _]%elem_of_lremove. split; [by apply Hin|by right].
  - intros u Hu. rewrite elem_of_lremove. naive_solver.
  - simpl. rewrite has_clear_bits. symmetry. apply bool_decide_false. rewrite elem_of_lremove. naive_solver.
Qed.
Lemma take_run queue t ws w l s :
  wq_ok queue t ws (WqAbs (w :: l) 0) s →
  wp (worker_take queue) (λ r s', r = w ∧ wq_ok queue t ws (WqAbs l w) s' ∧ w_kernel s' = w_kernel s) s.
Proof.
  intros Hok. pose proof Hok as [Hn Hk Hl Hq Hd Hws Hin Hfl]. simpl in *.
  destruct (Hin w) as [Hw0 Hx]; [by left|]. rewrite <-Hws in Hx. apply elem_of_dom in Hx as [x Hx]. apply NoDup_cons in Hd as [Hnot Hd].
  unfold worker_take. wp_simpl. eapply wp_queue_at; [by rewrite Hq, lookup_singleton_eq|]. simpl. wp_simpl.
  eapply unlink_run; [done..|].
  rewrite lremove_first by done. wp_simpl. eapply wp_upd_queue; [apply lookup_singleton_eq|].
  unfold set_work_current. simpl. rewrite insert_singleton_eq. unfold upd_flags. wp_simpl.
  eapply wp_upd_work; [done|]. wp_simpl. eapply wp_upd_work; [apply lookup_insert_eq|]. wp_simpl. simpl.
  rewrite insert_insert_eq. split; [done|]. split; [|done].
  apply (wq_ok_listed queue t ws (w :: l) 0 s (w_kernel s)
    (λ x, set_workqueue 0 (set_wk_flags (clear_bits RT_WORK_STATE_PENDING (wk_flags x)) x)) w x Hok Hx l w);
    [done|done|done| | | |done].
  - intros u Hu. split; [apply Hin; by right|right; by right].
  - intros u Hu. rewrite elem_of_cons. naive_solver.
  - simpl. rewrite has_clear_bits. symmetry. by apply bool_decide_false.
Qed.
Lemma done_run queue t ws l c s :
  wq_ok queue t ws (WqAbs l c) s →
  wp (worker_step queue WDone) (λ p s', p = WCheck ∧ wq_ok queue t ws (WqAbs l 0) s' ∧
    tl (LSuspend (wq_sem queue)) (w_kernel s') = [] ∧
    (∀ u, u ∈ tl (LSuspend (wq_sem queue)) (w_kernel s) →
       ∃ th, threads (w_kernel s') !! u = Some th ∧ stat_of th = RT_THREAD_READY)) s.
Proof.
  intros [Hn Hk Hl Hq Hd Hws Hin Hfl]. simpl in *. wp_simpl.
  eapply wp_upd_queue; [by rewrite Hq, lookup_singleton_eq|]. unfold set_work_current. simpl. wp_simpl. simpl.
  eapply wp_mono; [by apply (work_completion_run queue t)|].
  intros r k' (-> & Hk' & El & Etl & Hall). wp_simpl. split_and!; [done| |done|done].
  constructor; simpl; try done; [by rewrite El|]. by rewrite Hq, insert_singleton_eq.
Qed.

Lemma wq_do_run queue t ws e a r a' s :
  wq_ok queue t ws a s → (∀ w, event_work e = Some w → w ≠ 0 ∧ w ∈ ws) → wq_spec e a = Some (r, a') →
  wp (wq_do queue e) (λ r' s', r' = r ∧ wq_ok queue t ws a' s') s.
Proof.
  intros Hok He. pose proof (wo_null _ _ _ _ _ Hok) as Hq0. destruct a as [l c].
  destruct e as [w|w| |]; unfold wq_do, wq_spec.
  - destruct (He w eq_refl) as [Hw0 Hw]. rewrite <-(wo_works _ _ _ _ _ Hok) in Hw. apply elem_of_dom in Hw as [x Hx].
    destruct (wo_flags _ _ _ _ _ Hok w x Hx) as [_ Htype]. intros Hspec.
    unfold rt_workqueue_submit_work, not_null. wp_simpl. split_and!; [by apply negb_true_iff, Z.eqb_neq..|]. simpl.
    wp_simpl. eapply wp_work_at; [done|]. rewrite Htype.
    eapply wp_mono; [by apply (submit_run queue t ws l c s w x)|]. intros r' s'.
    destruct (_ || _); simplify_eq; [by intros [-> ->]|by intros (-> & ? & _)].
  - destruct (He w eq_refl) as [Hw0 Hw]. rewrite <-(wo_works _ _ _ _ _ Hok) in Hw. apply elem_of_dom in Hw as [x Hx].
    destruct (wo_flags _ _ _ _ _ Hok w x Hx) as [_ Htype]. intros Hspec.
    unfold rt_workqueue_cancel_work, not_null. wp_simpl. split_and!; [by apply negb_true_iff, Z.eqb_neq..|].
    wp_simpl. eapply wp_work_at; [done|]. rewrite Htype.
    eapply wp_mono; [by apply (cancel_run queue t ws l c s w x)|]. intros r' s'.
    destruct (c =? w); simplify_eq; [by intros [-> ->]|by intros (-> & ? & _)].
  - destruct l as [|w l]; [done|]. destruct (Z.eqb_spec c 0) as [->|]; [|done]. intros [= <- <-].
    eapply wp_mono; [by apply (take_run queue t ws w l)|]. by intros r' s' (-> & ? & _).
  - destruct (c =? 0); [done|]. intros [= <- <-]. wp_simpl.
    eapply wp_mono; [by apply (done_run queue t ws l c)|]. intros p s' (_ & ? & _). by wp_simpl.
Qed.
(** C36. A work queue is a queue: works are done in the order in which they were submitted, each once; a work that
    is pending or being done is refused; at the end of a work the semaphore of those that wait for
    it is back at 0. *)
Theorem workqueue_refines queue t ws es a rs a' s :
  wq_ok queue t ws a s → Forall (λ e, ∀ w, event_work e = Some w → w ≠ 0 ∧ w ∈ ws) es →
  wq_specs es a = Some (rs, a') →
  wp (wq_run queue es) (λ rs' s', rs' = rs ∧ wq_ok queue t ws a' s') s.
Proof.
  intros Hok Hes. revert a rs s Hok. induction Hes as [|e es He Hes IH]; intros a rs s Hok; simpl.
  { intros [= <- <-]. by wp_simpl. }
  destruct (wq_spec e a) as [[r a1]|] eqn:E1; [|done]. simpl.
  destruct (wq_specs es a1) as [[rs1 a2]|] eqn:E2; [|done]. simpl. intros [= <- <-].
  wp_simpl. eapply wp_mono; [by apply (wq_do_run queue t ws e a r a1)|]. intros r' s1 [-> Hok1]. wp_simpl.
  eapply wp_mono; [by apply (IH a1)|]. intros rs' s2 [-> Hok2]. by wp_simpl.
Qed.

(** ** Between the steps of its thread *)

Lemma wq_ok_kernel queue t ws a s k' :
  wq_ok queue t ws a s → wq_kernel queue t k' → lock_nest k' = lock_nest (w_kernel s) →
  wq_ok queue t ws a (WState k' (w_queues s) (w_works s)).
Proof. intros [] ? E. constructor; try done. simpl. by rewrite E. Qed.
Lemma worker_suspend_run queue t ws a th s :
  wq_ok queue t ws a s → running t th (w_kernel s) → other_ready t (w_kernel s) →
  wp (worker_step queue WSuspend) (λ p s', p = WTake ∧ wq_ok queue t ws a s' ∧ w_works s' = w_works s ∧
    ∃ th', threads (w_kernel s') !! t = Some th' ∧ stat_of th' = RT_THREAD_SUSPEND) s.
Proof.
  intros Hok [_ Hcur Hth Hst] Hother. pose proof (wo_kernel _ _ _ _ _ Hok) as Hk. set (k := w_kernel s) in *.
  simpl. unfold rt_thread_self. wp_simpl. fold k. rewrite Hcur. simpl. wp_simpl.
  eapply wp_mono; [apply (rt_thread_suspend_run 0 k t th); [apply Hk|done..]|].
  intros r k1 (-> & [Hk1 Hf1 Eth1 Htl1 Ho1] & _). wp_simpl.
  set (th1 := with_stat RT_THREAD_SUSPEND th) in *.
  assert (threads k1 !! t = Some th1) as Hth1 by (by rewrite Eth1, lookup_insert_eq).
  assert (stat_of th1 = RT_THREAD_SUSPEND) as Hst1 by by apply stat_of_with_stat.
  assert (wq_kernel queue t k1) as Hwk1.
  { constructor; [done|by eapply other_ready_some| |].
    - apply (sem_ok_move _ 0 k); [apply Hk|apply Hf1|apply Ho1|lia].
    - exists th1. split; [done|]. by rewrite Hst1. }
  eapply wp_mono; [apply (schedule_run 0); apply Hwk1|]. intros [] k2 [Hk2 Hsch]. wp_simpl.
  pose proof Hsch as [(c & p & E2) _].
  split_and!; [done| |done|exists th1; split; [by rewrite E2|done]].
  apply wq_ok_kernel; [done|by eapply scheduled_kernel|]. rewrite E2. apply Hf1.
Qed.

(** C37. Two ways in which the thread of a queue and its clients miss each other. The thread finds its list empty; before it
    suspends itself an interrupt submits a work, and wakes a thread that does not sleep yet: the thread
    sleeps, the work is on the list, and no one wakes it. Or the thread sleeps, a work is submitted
    and cancelled before it runs: it takes a work off an empty list. *)
Theorem workqueue_misses queue t ws th work s :
  wq_ok queue t ws (WqAbs [] 0) s → running t th (w_kernel s) → other_ready t (w_kernel s) →
  next_to_run t (w_kernel s) → work ≠ 0 → work ∈ ws →
  wp (p1 ← worker_step queue WCheck; r ← rt_workqueue_submit_work queue work 0; p2 ← worker_step queue p1; mret (r, p2))
     (λ '(r, p2) s', r = RT_EOK ∧ p2 = WTake ∧ wq_ok queue t ws (WqAbs [work] 0) s' ∧
        ∃ th', threads (w_kernel s') !! t = Some th' ∧ stat_of th' = RT_THREAD_SUSPEND) s ∧
  wp (p1 ← worker_step queue WCheck; p2 ← worker_step queue p1;
      r1 ← rt_workqueue_submit_work queue work 0; r2 ← rt_workqueue_cancel_work queue work; mret (p2, r1, r2))
     (λ '(p2, r1, r2) s', r1 = RT_EOK ∧ r2 = RT_EOK ∧ p2 = WTake ∧ worker_step queue p2 s' = None ∧
        ∃ th', threads (w_kernel s') !! t = Some th' ∧ stat_of th' ≠ RT_THREAD_SUSPEND) s.
Proof.
  intros Hok Hrun Hother Hnext Hnz Hws.
  assert (worker_step queue WCheck s = Some (WSuspend, s)) as E1.
  { assert (wp (worker_step queue WCheck) (λ p s', p = WSuspend ∧ s' = s) s) as (p & s' & E & -> & ->)%wp_inv; [|done].
    simpl. wp_simpl. eapply wp_queue_at; [by rewrite (wo_queue _ _ _ _ _ Hok), lookup_singleton_eq|]. by wp_simpl. }
  assert (∀ s0 a, wq_ok queue t ws a s0 → is_Some (w_works s0 !! work)) as Hin.
  { intros s0 a H0. apply elem_of_dom. by rewrite (wo_works _ _ _ _ _ H0). }
  assert (∀ s0 a (Q : Z → wstate → Prop), wq_ok queue t ws a s0 → wp (_workqueue_submit_work queue work) Q s0 →
    wp (rt_workqueue_submit_work queue work 0) Q s0) as Hsubmit.
  { intros s0 a Q H0 HQ. destruct (Hin _ _ H0) as [x Hx]. destruct (wo_flags _ _ _ _ _ H0 _ _ Hx) as [_ Htype].
    unfold rt_workqueue_submit_work, not_null. wp_simpl.
    split_and!; [by apply negb_true_iff, Z.eqb_neq, (wo_null _ _ _ _ _ H0)|by apply negb_true_iff, Z.eqb_neq|]. simpl.
    wp_simpl. eapply wp_work_at; [done|]. by rewrite Htype. }
  split; wp_simpl; rewrite (wp_run _ _ _ _ _ E1).
  - wp_simpl. eapply Hsubmit; [done|]. destruct (Hin _ _ Hok) as [x Hx].
    eapply wp_mono; [by apply (submit_run queue t ws [] 0 s work x)|].
    rewrite bool_decide_false, (proj2 (Z.eqb_neq 0 work)) by (done || apply not_elem_of_nil). intros r s1 (-> & Hok1 & _ & Hsame & _). wp_simpl.
    destruct (Hsame th Hrun Hnext) as [Hrun1 Eth]. 
    eapply wp_mono; [apply (worker_suspend_run queue t ws (WqAbs [work] 0) th s1 Hok1 Hrun1)|].
    { destruct Hother as (u & thu & ? & Hu & ?). exists u, thu. by rewrite Eth. }
    intros p s2 (-> & Hok2 & _ & Hth2). by wp_simpl.
  - wp_simpl. eapply wp_mono; [by apply (worker_suspend_run queue t ws (WqAbs [] 0) th s)|].
    intros p s1 (-> & Hok1 & _ & _). wp_simpl. eapply Hsubmit; [done|]. destruct (Hin _ _ Hok1) as [x Hx].
    eapply wp_mono; [by apply (submit_run queue t ws [] 0 s1 work x)|].
    rewrite bool_decide_false, (proj2 (Z.eqb_neq 0 work)) by (done || apply not_elem_of_nil). intros r s2 (-> & Hok2 & Hawake & _). wp_simpl.
    destruct (Hin _ _ Hok2) as [x2 Hx2]. destruct (wo_flags _ _ _ _ _ Hok2 _ _ Hx2) as [_ Htype].
    unfold rt_workqueue_cancel_work, not_null. wp_simpl.
    split_and!; [by apply negb_true_iff, Z.eqb_neq, (wo_null _ _ _ _ _ Hok)|by apply negb_true_iff, Z.eqb_neq|].
    wp_simpl. eapply wp_work_at; [done|]. rewrite Htype.
    eapply wp_mono; [by apply (cancel_run queue t ws [work] 0 s2 work x2)|].
    rewrite (proj2 (Z.eqb_neq 0 work)) by done. intros r s3 (-> & Hok3 & Ek). wp_simpl. split_and!; [done..| |].
    + simpl. unfold worker_take, queue_at, mbind, M_bind, gets. simpl.
      rewrite (wo_queue _ _ _ _ _ Hok3), lremove_first by apply not_elem_of_nil. unfold lift. simpl. by rewrite lookup_singleton_eq.
    + rewrite Ek. by apply Hawake.
Qed.
End proofs.
