(* ===== verification/Device.v ===== *)
(** Devices of os/device.c: registration, and the reference count and the flags
    that rt_device_open and rt_device_close keep. The functions of a driver are
    the [Callbacks]; what they promise the framework is [DriverLaws]. *)
From S2P Require Import Prelude Kservice Mem KState Sched Object Timer Thread MemPool.

Definition RT_DEVICE_FLAG_STANDALONE : Z := 8.
Definition RT_DEVICE_FLAG_ACTIVATED : Z := 16.
Definition RT_DEVICE_OFLAG_CLOSE : Z := 0.
Definition RT_DEVICE_OFLAG_OPEN : Z := 8.
Definition RT_DEVICE_OFLAG_MASK : Z := 3855.
(** A pointer to a function that is not NULL. *)
Definition is_fn (f : Z) : bool := negb (f =? 0).
Definition has_flag (x flag : Z) : bool := negb (Z.land x flag =? 0).
(** [result == RT_EOK || result == -RT_ENOSYS] *)
Definition accepted (result : Z) : bool := (result =? RT_EOK) || (result =? - RT_ENOSYS).

Section device.
Context `{CB : Callbacks}.

Definition device_at (dev : Z) : K rt_device := deref devices dev.
Definition upd_device (dev : Z) (f : rt_device → rt_device) : K unit :=
  d ← device_at dev; modify (λ k, set_devices (<[dev := f d]> (devices k)) k).
Definition assert_device (dev : Z) : K unit :=
  RT_ASSERT (negb (dev =? 0));;
  type ← rt_object_get_type (Obj dev);
  RT_ASSERT (type =? RT_Object_Class_Device).

Definition rt_device_find (name : list Z) : K (option optr) :=
  rt_object_find (Some name) RT_Object_Class_Device.

Definition rt_device_register (dev : Z) (name : list Z) (flags : Z) : K Z :=
  if dev =? 0 then mret (- RT_ERROR) else
  found ← rt_device_find name;
  if bool_decide (is_Some found) then mret (- RT_ERROR) else
  rt_object_init (Obj dev) RT_Object_Class_Device name;;
  upd_device dev (set_dev_flag flags);;
  upd_device dev (set_dev_ref_count 0);;
  upd_device dev (set_dev_open_flag 0);;
  mret RT_EOK.

Definition rt_device_unregister (dev : Z) : K Z :=
  assert_device dev;;
  static ← rt_object_is_systemobject (Obj dev);
  RT_ASSERT static;;
  rt_object_detach (Obj dev);;
  mret RT_EOK.

Definition rt_device_init_all : K Z := mret RT_EOK.

(** The structure is cleared, the object at its start included. *)
Definition rt_device_create (type attach_size : Z) : K Z :=
  let size := RT_ALIGN (object_size RT_Object_Class_Device) RT_ALIGN_SIZE in
  let attach_size := RT_ALIGN attach_size RT_ALIGN_SIZE in
  device ← lift_heap (rt_malloc (u32 (size + attach_size)));
  when (negb (device =? 0))
    (modify (λ k, set_devices (<[device := Device type 0 0 0 0 0 0 0 0 0 0 0 0 0]> (devices k)) k);;
     modify (λ k, set_objects (<[Obj device := Object (replicate 8 0) 0 0]> (objects k)) k));;
  mret device.

Definition rt_device_destroy (dev : Z) : K unit :=
  assert_device dev;;
  static ← rt_object_is_systemobject (Obj dev);
  RT_ASSERT (negb static);;
  rt_object_detach (Obj dev);;
  lift_heap (rt_free dev);;
  modify (λ k, set_devices (delete dev (devices k)) k).

Definition rt_device_init (dev : Z) : K Z :=
  RT_ASSERT (negb (dev =? 0));;
  d ← device_at dev;
  if is_fn (dev_init d) && negb (has_flag (dev_flag d) RT_DEVICE_FLAG_ACTIVATED) then
    result ← dev_init_fn (dev_init d) dev;
    when (result =? RT_EOK)
      (upd_device dev (λ d, set_dev_flag (Z.lor (dev_flag d) RT_DEVICE_FLAG_ACTIVATED) d));;
    mret result
  else mret RT_EOK.

(** The first part of [rt_device_open]: the device is initialised when it is
    not active yet. *)
Definition open_activate (dev : Z) : K Z :=
  d ← device_at dev;
  if has_flag (dev_flag d) RT_DEVICE_FLAG_ACTIVATED then mret RT_EOK else
  result ← (if is_fn (dev_init d) then dev_init_fn (dev_init d) dev else mret RT_EOK);
  if negb (result =? RT_EOK) then mret result else
  upd_device dev (λ d, set_dev_flag (Z.lor (dev_flag d) RT_DEVICE_FLAG_ACTIVATED) d);;
  mret RT_EOK.
(** The last part: the count goes up when the driver accepts. *)
Definition open_count (dev oflag : Z) : K Z :=
  d ← device_at dev;
  result ← (if is_fn (dev_open d) then dev_open_fn (dev_open d) dev oflag
            else upd_device dev (set_dev_open_flag (Z.land oflag RT_DEVICE_OFLAG_MASK));; mret RT_EOK);
  when (accepted result)
    (upd_device dev (λ d, set_dev_open_flag (Z.lor (dev_open_flag d) RT_DEVICE_OFLAG_OPEN) d);;
     upd_device dev (λ d, set_dev_ref_count (u8 (dev_ref_count d + 1)) d);;
     d ← device_at dev;
     RT_ASSERT (negb (dev_ref_count d =? 0)));;
  mret result.
Definition rt_device_open (dev oflag : Z) : K Z :=
  assert_device dev;;
  result ← open_activate dev;
  if negb (result =? RT_EOK) then mret result else
  d ← device_at dev;
  if has_flag (dev_flag d) RT_DEVICE_FLAG_STANDALONE &&
     has_flag (dev_open_flag d) RT_DEVICE_OFLAG_OPEN
  then mret (- RT_EBUSY)
  else open_count dev oflag.

Definition rt_device_close (dev : Z) : K Z :=
  assert_device dev;;
  d ← device_at dev;
  if dev_ref_count d =? 0 then mret (- RT_ERROR) else
  upd_device dev (λ d, set_dev_ref_count (u8 (dev_ref_count d - 1)) d);;
  d ← device_at dev;
  if negb (dev_ref_count d =? 0) then mret RT_EOK else
  result ← (if is_fn (dev_close d) then dev_close_fn (dev_close d) dev else mret RT_EOK);
  when (accepted result) (upd_device dev (set_dev_open_flag RT_DEVICE_OFLAG_CLOSE));;
  mret result.

(** The number of bytes; the buffer is the driver's and the caller's. *)
Definition rt_device_read (dev pos size : Z) : K Z :=
  assert_device dev;;
  d ← device_at dev;
  if dev_ref_count d =? 0 then rt_set_errno (- RT_ERROR);; mret 0 else
  if is_fn (dev_read d) then dev_read_fn (dev_read d) dev pos size else
  rt_set_errno (- RT_ENOSYS);; mret 0.
Definition rt_device_write (dev pos : Z) (buffer : list Z) : K Z :=
  assert_device dev;;
  d ← device_at dev;
  if dev_ref_count d =? 0 then rt_set_errno (- RT_ERROR);; mret 0 else
  if is_fn (dev_write d) then dev_write_fn (dev_write d) dev pos buffer else
  rt_set_errno (- RT_ENOSYS);; mret 0.
Definition rt_device_control (dev cmd arg : Z) : K Z :=
  assert_device dev;;
  d ← device_at dev;
  if is_fn (dev_control d) then dev_control_fn (dev_control d) dev cmd arg else
  mret (- RT_ENOSYS).
Definition rt_device_set_rx_indicate (dev rx_ind : Z) : K Z :=
  assert_device dev;; upd_device dev (set_dev_rx_indicate rx_ind);; mret RT_EOK.
Definition rt_device_set_tx_complete (dev tx_done : Z) : K Z :=
  assert_device dev;; upd_device dev (set_dev_tx_complete tx_done);; mret RT_EOK.
End device.

(** * The contract of a device *)

(** The count is of 8 bits. *)
Definition MAX_REFS : Z := 255.

(** A device is open a number of times, and marked as open or not. *)
Record dev_state := DevState { ds_refs : Z; ds_open : bool }.
Inductive dev_op := OpOpen (oflag : Z) | OpClose.

(** What an opening and a closing call may do, with their results. *)
Inductive dev_spec (standalone : bool) : dev_state → dev_op → Z → dev_state → Prop :=
  | open_ok n o oflag r : standalone && o = false → accepted r = true →
      dev_spec standalone (DevState n o) (OpOpen oflag) r (DevState (n + 1) true)
  | open_busy n oflag : standalone = true →
      dev_spec standalone (DevState n true) (OpOpen oflag) (- RT_EBUSY) (DevState n true)
  | open_fail n o oflag r : r ≠ RT_EOK →
      dev_spec standalone (DevState n o) (OpOpen oflag) r (DevState n o)
  | close_none o : dev_spec standalone (DevState 0 o) OpClose (- RT_ERROR) (DevState 0 o)
  | close_shared n o : 1 < n →
      dev_spec standalone (DevState n o) OpClose RT_EOK (DevState (n - 1) o)
  | close_last o r : accepted r = true →
      dev_spec standalone (DevState 1 o) OpClose r (DevState 0 false)
  | close_fail o r : accepted r = false →
      dev_spec standalone (DevState 1 o) OpClose r (DevState 0 o).

Definition dev_abs (d : rt_device) : dev_state :=
  DevState (dev_ref_count d) (has_flag (dev_open_flag d) RT_DEVICE_OFLAG_OPEN).
Definition standalone (d : rt_device) : bool := has_flag (dev_flag d) RT_DEVICE_FLAG_STANDALONE.
Definition dev_call `{CB : Callbacks} (dev : Z) (op : dev_op) : K Z :=
  match op with OpOpen oflag => rt_device_open dev oflag | OpClose => rt_device_close dev end.
Fixpoint dev_calls `{CB : Callbacks} (dev : Z) (ops : list dev_op) : K (list Z) :=
  match ops with
  | [] => mret []
  | op :: ops => r ← dev_call dev op; rs ← dev_calls dev ops; mret (r :: rs)
  end.

(** A registered device. *)
Record dev_ok (dev : Z) (d : rt_device) (k : kernel) : Prop := {
  do_nonzero : dev ≠ 0;
  do_device : devices k !! dev = Some d;
  do_object : ∃ o, objects k !! Obj dev = Some o ∧ class_of o = RT_Object_Class_Device;
  do_refs : 0 ≤ dev_ref_count d < 256
}.
(** What a driver's function leaves to the framework: the count, the flags of
    the registration, its own entry points, and the mark of an open device
    unless it reports success. *)
Definition driver_keeps (dev : Z) (marked : bool) (k k' : kernel) : Prop :=
  objects k' !! Obj dev = objects k !! Obj dev ∧
  ∀ d, devices k !! dev = Some d → ∃ d', devices k' !! dev = Some d' ∧
    dev_ref_count d' = dev_ref_count d ∧ dev_flag d' = dev_flag d ∧
    dev_open d' = dev_open d ∧ dev_close d' = dev_close d ∧
    (marked = true → has_flag (dev_open_flag d') RT_DEVICE_OFLAG_OPEN =
              has_flag (dev_open_flag d) RT_DEVICE_OFLAG_OPEN).
Class DriverLaws `{CB : Callbacks} (dev : Z) := {
  law_init f k : wp (dev_init_fn f dev) (λ _ k', driver_keeps dev true k k') k;
  law_open f oflag k :
    wp (dev_open_fn f dev oflag) (λ r k', driver_keeps dev (negb (accepted r)) k k') k;
  law_close f k :
    wp (dev_close_fn f dev) (λ r k', driver_keeps dev (negb (accepted r)) k k') k
}.

Section proofs.
Context `{CB : Callbacks}.
Implicit Types d : rt_device.

Lemma wp_device_at k dev d (Q : rt_device → kernel → Prop) :
  devices k !! dev = Some d → Q d k → wp (device_at dev) Q k.
Proof. apply wp_deref. Qed.
Lemma wp_upd_device k dev d f (Q : unit → kernel → Prop) :
  devices k !! dev = Some d → Q tt (set_devices (<[dev := f d]> (devices k)) k) →
  wp (upd_device dev f) Q k.
Proof. intros E HQ. unfold upd_device. apply wp_bind. by eapply wp_device_at. Qed.
Lemma has_flag_lor x y flag : Z.land y flag = 0 → has_flag (Z.lor x y) flag = has_flag x flag.
Proof. intros E. unfold has_flag. by rewrite Z.land_lor_distr_l, E, Z.lor_0_r. Qed.
Lemma has_flag_set x flag : flag ≠ 0 → has_flag (Z.lor x flag) flag = true.
Proof.
  intros Hf. unfold has_flag. rewrite Z.land_lor_distr_l, Z.land_diag.
  destruct (Z.eqb_spec (Z.lor (Z.land x flag) flag) 0) as [E|]; [|done].
  by apply Z.lor_eq_0_iff in E as [_ ?].
Qed.

Lemma dev_ok_upd dev d d' k :
  dev_ok dev d k → 0 ≤ dev_ref_count d' < 256 →
  dev_ok dev d' (set_devices (<[dev := d']> (devices k)) k).
Proof. intros [] ?. constructor; try done. simpl. apply lookup_insert_eq. Qed.
Lemma dev_ok_keeps dev d marked k k' :
  dev_ok dev d k → driver_keeps dev marked k k' →
  ∃ d', dev_ok dev d' k' ∧ dev_ref_count d' = dev_ref_count d ∧ dev_flag d' = dev_flag d ∧
    dev_open d' = dev_open d ∧ dev_close d' = dev_close d ∧ (marked = true → dev_abs d' = dev_abs d).
Proof.
  intros [Hnz Hd (o & Ho & Hc) Hr] [Eo Hk]. destruct (Hk d Hd) as (d' & Hd' & Er & ? & ? & ? & Hm).
  exists d'. split_and!; try done; [constructor; rewrite ?Eo, ?Er; eauto|].
  intros E. unfold dev_abs. by rewrite Er, Hm.
Qed.
Lemma assert_device_run dev d k (Q : unit → kernel → Prop) :
  dev_ok dev d k → Q tt k → wp (assert_device dev) Q k.
Proof.
  intros [Hnz Hd (o & Ho & Hc) Hr] HQ. unfold assert_device, rt_object_get_type. wp_simpl.
  split; [by rewrite (proj2 (Z.eqb_neq _ _))|]. eapply wp_object_at; [done|]. wp_simpl.
  split; [|done]. unfold class_of in Hc. by rewrite Hc.
Qed.
End proofs.

(** [wp] for calls that an assertion may end, under the condition [F]. *)
Section unless.
Context {S : Type}.
Implicit Types F : Prop.
Definition wp_unless F {A} (m : M S A) (Q : A → S → Prop) (s : S) : Prop :=
  match m s with Some (a, s') => Q a s' | None => F end.
Lemma wp_wp_unless F {A} (m : M S A) (Q : A → S → Prop) s : wp m Q s → wp_unless F m Q s.
Proof. unfold wp, wp_unless. by destruct (m s) as [[]|]. Qed.
Lemma wp_unless_bind F {A B} (m : M S A) (f : A → M S B) (Q : B → S → Prop) s :
  wp_unless F m (λ a s', wp_unless F (f a) Q s') s → wp_unless F (m ≫= f) Q s.
Proof. unfold wp_unless, mbind, M_bind. by destruct (m s) as [[]|]. Qed.
Lemma wp_unless_mono F F' {A} (m : M S A) (Q Q' : A → S → Prop) s :
  wp_unless F m Q s → (∀ a s', Q a s' → Q' a s') → (F → F') → wp_unless F' m Q' s.
Proof. unfold wp_unless. destruct (m s) as [[]|]; auto. Qed.
Lemma wp_unless_assert F (b : bool) (Q : unit → S → Prop) s :
  (if b then Q tt s else F) → wp_unless F (RT_ASSERT b) Q s.
Proof. unfold wp_unless, RT_ASSERT. by destruct b. Qed.
(** First a part that returns. *)
Lemma wp_unless_seq F {A B} (m : M S A) (f : A → M S B) (Q : B → S → Prop) s :
  wp m (λ a s', wp_unless F (f a) Q s') s → wp_unless F (m ≫= f) Q s.
Proof. intros H. by apply wp_unless_bind, wp_wp_unless. Qed.
End unless.

Section contract.
Context `{DL : DriverLaws dev}.
Implicit Types d : rt_device.

(** Activation leaves count and mark alone. *)
Lemma open_activate_run k d :
  dev_ok dev d k →
  wp (open_activate dev) (λ _ k', ∃ d', dev_ok dev d' k' ∧ dev_abs d' = dev_abs d ∧
    standalone d' = standalone d) k.
Proof using DL.
  intros Hd. unfold open_activate. wp_simpl. eapply wp_device_at; [apply Hd|].
  destruct (has_flag (dev_flag d) _); [apply wp_ret; by exists d|]. wp_simpl.
  assert (wp (if is_fn (dev_init d) then dev_init_fn (dev_init d) dev else mret RT_EOK)
    (λ _ k', driver_keeps dev true k k') k) as Hw.
  { destruct (is_fn _); [apply law_init|]. apply wp_ret. split; [done|]. intros d0 Hd0. by exists d0. }
  eapply wp_mono; [exact Hw|]. intros r k1 Hk1.
  destruct (dev_ok_keeps _ _ _ _ _ Hd Hk1) as (d1 & Hd1 & _ & Ef & _ & _ & Ea). specialize (Ea eq_refl).
  assert (standalone d1 = standalone d) as Es by (unfold standalone; by rewrite Ef).
  destruct (negb (r =? RT_EOK)); [apply wp_ret; by exists d1|]. wp_simpl.
  eapply wp_upd_device; [apply Hd1|]. apply wp_ret.
  eexists. split; [apply (dev_ok_upd _ d1); [done|apply Hd1]|]. split; [done|].
  rewrite <-Es. unfold standalone. simpl. by apply has_flag_lor.
Qed.

(** The driver's verdict decides, and then the assertion behind the count. *)
Definition count_full d : Prop := dev_ref_count d = MAX_REFS ∧ standalone d && ds_open (dev_abs d) = false.
Lemma open_counted_run k d0 d r oflag :
  dev_ok dev d k → dev_ref_count d = dev_ref_count d0 → standalone d = standalone d0 →
  standalone d0 && ds_open (dev_abs d0) = false → accepted r = true →
  wp_unless (count_full d0)
    ((upd_device dev (λ d, set_dev_open_flag (Z.lor (dev_open_flag d) RT_DEVICE_OFLAG_OPEN) d);;
      upd_device dev (λ d, set_dev_ref_count (u8 (dev_ref_count d + 1)) d);;
      d ← device_at dev;
      RT_ASSERT (negb (dev_ref_count d =? 0)));; mret r)
    (λ r k', ∃ d', dev_ok dev d' k' ∧ standalone d' = standalone d0 ∧
      dev_spec (standalone d0) (dev_abs d0) (OpOpen oflag) r (dev_abs d')) k.
Proof using Type.
  intros Hd Er Es Hs Hr. pose proof (do_refs _ _ _ Hd) as Hn. apply wp_unless_bind, wp_unless_seq.
  eapply wp_upd_device; [apply Hd|]. apply wp_unless_seq. eapply wp_upd_device; [apply lookup_insert_eq|].
  apply wp_unless_seq. eapply wp_device_at; [apply lookup_insert_eq|]. apply wp_unless_assert. simpl.
  destruct (decide (dev_ref_count d = MAX_REFS)) as [E|E].
  { rewrite E. simpl. split; [congruence|done]. }
  unfold MAX_REFS in E. rewrite u8_small by lia. rewrite (proj2 (Z.eqb_neq _ _)) by lia. simpl.
  apply wp_wp_unless, (proj2 (wp_ret _ _ _)).
  eexists. split; [eapply dev_ok_upd; [eapply dev_ok_upd; [exact Hd|simpl; lia]|simpl; lia]|].
  split; [done|]. unfold dev_abs at 2. simpl. rewrite has_flag_set, Er by done. by apply open_ok.
Qed.
Lemma open_count_run k d oflag :
  dev_ok dev d k → standalone d && ds_open (dev_abs d) = false →
  wp_unless (count_full d) (open_count dev oflag) (λ r k', ∃ d', dev_ok dev d' k' ∧ standalone d' = standalone d ∧
    dev_spec (standalone d) (dev_abs d) (OpOpen oflag) r (dev_abs d')) k.
Proof using DL.
  intros Hd Hs. unfold open_count. apply wp_unless_seq. eapply wp_device_at; [apply Hd|]. apply wp_unless_seq.
  assert (wp (if is_fn (dev_open d) then dev_open_fn (dev_open d) dev oflag
    else upd_device dev (set_dev_open_flag (Z.land oflag RT_DEVICE_OFLAG_MASK));; mret RT_EOK)
    (λ r k', driver_keeps dev (negb (accepted r)) k k') k) as Hw.
  { destruct (is_fn _); [apply law_open|]. wp_simpl. eapply wp_upd_device; [apply Hd|]. apply wp_ret.
    split; [done|]. intros d0 Hd0. simpl. rewrite lookup_insert_eq. eexists. split; [done|].
    rewrite (do_device _ _ _ Hd) in Hd0. by simplify_eq. }
  eapply wp_mono; [exact Hw|]. intros r k1 Hk1.
  destruct (dev_ok_keeps _ _ _ _ _ Hd Hk1) as (d1 & Hd1 & Er & Ef & _ & _ & Ea).
  assert (standalone d1 = standalone d) as Es by (unfold standalone; by rewrite Ef).
  destruct (accepted r) eqn:Hr; [by apply (open_counted_run k1 d d1)|].
  apply wp_wp_unless, (proj2 (wp_ret _ _ _)). exists d1. split; [done|]. split; [done|]. rewrite Ea by done.
  destruct (dev_abs d). apply open_fail. intros ->. done.
Qed.

Lemma rt_device_open_run k d oflag :
  dev_ok dev d k →
  wp_unless (count_full d) (rt_device_open dev oflag) (λ r k', ∃ d', dev_ok dev d' k' ∧ standalone d' = standalone d ∧
    dev_spec (standalone d) (dev_abs d) (OpOpen oflag) r (dev_abs d')) k.
Proof using DL.
  intros Hd. unfold rt_device_open. apply wp_unless_seq. eapply assert_device_run; [done|]. apply wp_unless_seq.
  eapply wp_mono; [by apply open_activate_run|]. intros r k1 (d1 & Hd1 & Ea & Es).
  destruct (Z.eqb_spec r RT_EOK) as [->|Hr]; simpl.
  - apply wp_unless_seq. eapply wp_device_at; [apply Hd1|].
    destruct (standalone d1 && ds_open (dev_abs d1)) eqn:Hb; pose proof Hb as Hb'; unfold standalone in Hb; simpl in Hb; rewrite Hb.
    + apply wp_wp_unless, wp_ret. exists d1. split; [done|]. split; [done|]. rewrite <-Es, Ea.
      apply andb_prop in Hb as [Hst Ho]. destruct (dev_abs d) as [n o].
      assert (o = true) as ->; [|by apply open_busy].
      transitivity (ds_open (dev_abs d1)); [by rewrite Ea|done].
    + rewrite <-Es, <-Ea. eapply wp_unless_mono; [by apply (open_count_run k1 d1)|done|].
      unfold count_full. rewrite Ea, Es. intros [<- ?]. split; [|done]. by injection Ea.
  - apply wp_wp_unless, wp_ret. exists d1. split; [done|]. split; [done|]. rewrite Ea.
    destruct (dev_abs d). by apply open_fail.
Qed.

Lemma rt_device_close_run k d :
  dev_ok dev d k →
  wp (rt_device_close dev) (λ r k', ∃ d', dev_ok dev d' k' ∧ standalone d' = standalone d ∧
    dev_spec (standalone d) (dev_abs d) OpClose r (dev_abs d')) k.
Proof using DL.
  intros Hd. pose proof (do_refs _ _ _ Hd) as Hn. unfold rt_device_close. wp_simpl.
  eapply assert_device_run; [done|]. wp_simpl. eapply wp_device_at; [apply Hd|].
  destruct (Z.eqb_spec (dev_ref_count d) 0) as [E|E].
  { apply wp_ret. exists d. split; [done|]. split; [done|]. unfold dev_abs. rewrite E. apply close_none. }
  wp_simpl. eapply wp_upd_device; [apply Hd|]. wp_simpl. eapply wp_device_at; [apply lookup_insert_eq|].
  rewrite u8_small by lia. simpl. set (d1 := set_dev_ref_count (dev_ref_count d - 1) d).
  assert (dev_ok dev d1 (set_devices (<[dev := d1]> (devices k)) k)) as Hd1
    by (eapply dev_ok_upd; [done|simpl; lia]).
  destruct (Z.eqb_spec (dev_ref_count d - 1) 0) as [E1|E1]; simpl.
  2: { apply wp_ret. exists d1. split; [done|]. split; [done|]. apply close_shared. lia. }
  assert (dev_abs d = DevState 1 (ds_open (dev_abs d))) as -> by (unfold dev_abs; simpl; f_equal; lia).
  assert (wp (if is_fn (dev_close d) then dev_close_fn (dev_close d) dev else mret RT_EOK)
    (λ r k', driver_keeps dev (negb (accepted r)) (set_devices (<[dev := d1]> (devices k)) k) k')
    (set_devices (<[dev := d1]> (devices k)) k)) as Hw.
  { destruct (is_fn _); [apply law_close|]. apply wp_ret. split; [done|]. intros d0 Hd0. by exists d0. }
  wp_simpl. eapply wp_mono; [exact Hw|]. intros r k2 Hk2. wp_simpl.
  destruct (dev_ok_keeps _ _ _ _ _ Hd1 Hk2) as (d2 & Hd2 & Er & Ef & _ & _ & Ea).
  assert (standalone d2 = standalone d) as Es by (unfold standalone; by rewrite Ef).
  assert (dev_ref_count d2 = 0) as Er0 by (rewrite Er; simpl; lia).
  destruct (accepted r) eqn:Hr; wp_simpl.
  - eapply wp_upd_device; [apply Hd2|]. eexists. split; [eapply dev_ok_upd; [exact Hd2|simpl; lia]|].
    split; [done|]. unfold dev_abs at 2. simpl. rewrite Er0. by apply close_last.
  - exists d2. split; [done|]. split; [done|]. rewrite Ea by done. unfold dev_abs at 2. simpl.
    rewrite E1. by apply close_fail.
Qed.
End contract.

(** * Sequences of calls *)

(** Calls with their results. The count stays in its range. *)
Inductive dev_trace (standalone : bool) : dev_state → list dev_op → list Z → dev_state → Prop :=
  | trace_nil s : dev_trace standalone s [] [] s
  | trace_cons s op r s1 ops rs s2 : dev_spec standalone s op r s1 → 0 ≤ ds_refs s1 ≤ MAX_REFS →
      dev_trace standalone s1 ops rs s2 → dev_trace standalone s (op :: ops) (r :: rs) s2.
(** The call that the code refuses with an assertion: to open the device once more than the count can
    tell. *)
Definition dev_overflow (standalone : bool) (s : dev_state) (ops : list dev_op) : Prop :=
  ∃ ops1 oflag ops2 rs o, ops = ops1 ++ OpOpen oflag :: ops2 ∧
    dev_trace standalone s ops1 rs (DevState MAX_REFS o) ∧ standalone && o = false.

(** It takes as many openings as the count is short of its limit. *)
Lemma dev_trace_refs sa s ops rs s' : dev_trace sa s ops rs s' → ds_refs s' ≤ ds_refs s + Z.of_nat (length ops).
Proof.
  induction 1 as [s|s op r s1 ops rs s2 Hs _ _ IH]; simpl; [lia|].
  assert (ds_refs s1 ≤ ds_refs s + 1) by (destruct Hs; simpl; lia). lia.
Qed.
Lemma dev_overflow_refs sa s ops : dev_overflow sa s ops → MAX_REFS < ds_refs s + Z.of_nat (length ops).
Proof.
  intros (ops1 & oflag & ops2 & rs & o & -> & Ht & _). apply dev_trace_refs in Ht. simpl in Ht.
  rewrite length_app. simpl. lia.
Qed.
(** A device that may be opened once only and is marked as open stays so. *)
Lemma dev_trace_stuck ops rs s' :
  dev_trace true (DevState 0 true) ops rs s' → Forall (λ r, r ≠ RT_EOK) rs ∧ s' = DevState 0 true.
Proof.
  revert rs. induction ops as [|op ops IH]; intros rs Ht; inversion Ht as [|? ? r s1 ? rs' ? Hs _ Ht']; subst.
  { by split; [apply Forall_nil|]. }
  inversion Hs; subst; try done; try lia; (split; [constructor; [done|]|]; by eapply IH).
Qed.

Lemma dev_spec_last sa o r s :
  dev_spec sa (DevState 1 o) OpClose r s → ds_refs s = 0 ∧ (accepted r = false → s = DevState 0 o).
Proof. inversion 1; subst; try lia; split; try done; congruence. Qed.

Section traces.
Context `{DL : DriverLaws dev}.

Lemma dev_call_run k d op :
  dev_ok dev d k →
  wp_unless (count_full d ∧ ∃ oflag, op = OpOpen oflag) (dev_call dev op)
    (λ r k', ∃ d', dev_ok dev d' k' ∧ standalone d' = standalone d ∧ dev_spec (standalone d) (dev_abs d) op r (dev_abs d')) k.
Proof using DL.
  intros Hd. destruct op as [oflag|]; simpl.
  - eapply wp_unless_mono; [by apply rt_device_open_run|done|eauto].
  - by apply wp_wp_unless, rt_device_close_run.
Qed.
Lemma dev_calls_run k d ops :
  dev_ok dev d k →
  wp_unless (dev_overflow (standalone d) (dev_abs d) ops) (dev_calls dev ops)
    (λ rs k', ∃ d', dev_ok dev d' k' ∧ standalone d' = standalone d ∧
      dev_trace (standalone d) (dev_abs d) ops rs (dev_abs d')) k.
Proof using DL.
  revert k d. induction ops as [|op ops IH]; intros k d Hd; cbn [dev_calls].
  { apply wp_wp_unless, wp_ret. exists d. split; [done|]. split; [done|]. constructor. }
  apply wp_unless_bind. eapply wp_unless_mono; [by apply (dev_call_run k d)| |].
  2:{ intros [[En Ho] [oflag ->]]. exists [], oflag, ops, [], (ds_open (dev_abs d)). split; [done|]. split; [|done].
      unfold MAX_REFS in *. rewrite <-En. destruct d. constructor. }
  intros r k1 (d1 & Hd1 & Es & Hs).
  assert (0 ≤ ds_refs (dev_abs d1) ≤ MAX_REFS) as Hn by (pose proof (do_refs _ _ _ Hd1); unfold MAX_REFS; simpl; lia).
  apply wp_unless_bind. eapply wp_unless_mono; [by apply (IH k1 d1)| |].
  - intros rs k2 (d2 & Hd2 & Es2 & Ht). apply wp_wp_unless, wp_ret. exists d2. split; [done|]. split; [congruence|].
    rewrite Es in Ht. by econstructor.
  - rewrite Es. intros (ops1 & oflag & ops2 & rs & o & -> & Ht & Ho). exists (op :: ops1), oflag, ops2, (r :: rs), o.
    split; [done|]. split; [by econstructor|done].
Qed.


(** A standalone device whose close function fails is lost: its count is 0 but
    it stays marked as open, so that no later call opens it again. *)
Theorem rt_device_close_failure_sticks k d ops :
  dev_ok dev d k → standalone d = true → dev_abs d = DevState 1 true →
  wp (r ← rt_device_close dev; if accepted r then mret [] else dev_calls dev ops)
     (λ rs _, Forall (λ r, r ≠ RT_EOK) rs) k.
Proof using DL.
  intros Hd Hs Ha. wp_simpl. eapply wp_mono; [by apply rt_device_close_run|].
  intros r k1 (d1 & Hd1 & Es & Hc). rewrite Ha, Hs in Hc. apply dev_spec_last in Hc as [Er0 Hf].
  destruct (accepted r) eqn:Hr; [apply wp_ret; by constructor|]. specialize (Hf eq_refl).
  pose proof (dev_calls_run k1 d1 ops Hd1) as Hw. rewrite Hf, Es, Hs in Hw. unfold wp_unless in Hw. unfold wp.
  destruct (dev_calls dev ops k1) as [[rs k2]|].
  - destruct Hw as (d2 & _ & _ & Ht). by eapply dev_trace_stuck.
  - destruct Hw as (ops1 & oflag & ops2 & rs & o & _ & Ht & _). by apply dev_trace_stuck in Ht as [_ [=]].
Qed.
End traces.

Section register.
Context `{CB : Callbacks}.

Lemma rt_device_destroy_static k dev d o :
  dev_ok dev d k → objects k !! Obj dev = Some o → Z.land (o_type o) 128 = 128 →
  rt_device_destroy dev k = None.
Proof.
  intros [Hnz _ (o' & Ho' & Hc) _] Ho Hst. simplify_eq. unfold rt_device_destroy, assert_device.
  unfold rt_object_get_type, rt_object_is_systemobject, object_at, deref, mbind, M_bind, RT_ASSERT.
  rewrite (proj2 (Z.eqb_neq dev 0)) by done. simpl. rewrite Ho'. simpl. unfold class_of in Hc.
  rewrite Hc. simpl. rewrite Ho'. simpl. change RT_Object_Class_Static with 128. by rewrite Hst.
Qed.

(** A device that rt_device_register accepts is found under its name from then
    on, closed and with the flags given; it is a static object, so that the
    assertion of rt_device_destroy fails for it even when rt_device_create made it. *)
Theorem rt_device_register_static k dev d name flags l :
  obj_inv k → sched_inv k → some_ready k → 0 ≤ lock_nest k < 32765 → interrupt_nest k = 0 →
  containers k !! RT_Object_Class_Device = Some l → olinked (Obj dev) k = false →
  readable 8 name → is_bytes name → dev ≠ 0 → devices k !! dev = Some d →
  wp (rt_device_register dev name flags) (λ r k',
    (r = - RT_ERROR ∧ (∃ p, p ∈ l ∧ same_name k p name) ∧ devices k' = devices k) ∨
    (r = RT_EOK ∧ Forall (λ p, ¬ same_name k p name) l ∧ same_name k' (Obj dev) name ∧
     (∃ d', dev_ok dev d' k' ∧ dev_flag d' = flags ∧ dev_abs d' = DevState 0 false) ∧
     rt_device_destroy dev k' = None)) k.
Proof.
  intros Ho Hi Hr Hln Hn Hc Hlink Hrd Hb Hnz Hd. unfold rt_device_register.
  rewrite (proj2 (Z.eqb_neq dev 0)) by done. unfold rt_device_find. wp_simpl.
  eapply wp_mono; [apply (rt_object_find_run k name RT_Object_Class_Device l); try done; [by right|lia]|].
  intros r k1 (Hi1 & (c & pr & Ek & _) & Hf). destruct r as [p|]; simpl.
  { apply wp_ret. left. destruct Hf as (l1 & l2 & -> & Hp & _). subst k1.
    split; [done|]. split; [|done]. exists p. split; [set_solver|done]. }
  wp_simpl. eapply wp_mono.
  { apply (rt_object_init_run k1 (Obj dev) RT_Object_Class_Device name l); subst k1; try done.
    - by apply (obj_inv_ext k).
    - by right.
    - simpl. lia. }
  intros [] k2 (Hi2 & _ & k3 & o & (c2 & pr2 & -> & _) & Ek2 & Hcl & Hst & Hnm & _).
  wp_simpl. subst k1 k2. eapply wp_upd_device; [exact Hd|].
  wp_simpl. eapply wp_upd_device; [apply lookup_insert_eq|].
  wp_simpl. eapply wp_upd_device; [apply lookup_insert_eq|]. apply wp_ret. right.
  split; [done|]. split; [done|].
  match goal with |- same_name ?k' _ _ ∧ _ => set (k4 := k') end.
  assert (objects k4 !! Obj dev = Some o) as Ho4 by (simpl; apply lookup_insert_eq).
  assert (∃ d', dev_ok dev d' k4 ∧ dev_flag d' = flags ∧ dev_abs d' = DevState 0 false) as (d' & Hd' & Hd'').
  { eexists. split; [constructor; [done|apply lookup_insert_eq|by exists o|simpl; lia]|done]. }
  split; [by exists o|]. split; [by exists d'|]. by eapply rt_device_destroy_static.
Qed.
End register.
