(* ===== verification/Pipe.v ===== *)
(** Pipe devices of components/drivers/src/pipe.c (without the file system): a ring buffer on the
    heap behind a mutex. The two wait queues of a pipe serve the file system only. *)
From S2P Require Import Prelude Mem RingBuffer RingBlk BufHeap Kservice KState Sched Object Timer Thread Ipc Mutex MemPool Device.

Definition RT_Device_Class_Pipe : Z := 15.
(** RT_DEVICE_FLAG_RDWR | RT_DEVICE_FLAG_REMOVABLE *)
Definition PIPE_FLAGS : Z := 0x007.
Definition sizeof_pipe : Z := 140.
(** The mutex inside of a pipe. *)
Definition pipe_lock (pipe : Z) : Z := pipe + 104.
(** [fifo] is RT_NULL, or the address of the structure, that of its pool, and the structure. *)
Record rt_pipe := Pipe { pipe_fifo : option (Z * Z * rt_ringbuffer); pipe_bufsz : Z }.
Definition set_pipe_fifo (v : option (Z * Z * rt_ringbuffer)) (p : rt_pipe) : rt_pipe := Pipe v (pipe_bufsz p).

(** The kernel and the pipes by the address of their device. *)
Record pstate := PState { p_kernel : kernel; p_pipes : gmap Z rt_pipe }.
Abbreviation P := (M pstate).
(** What C leaves to the compiler and the linker. *)
Class PipeConsts := {
  pipe_EINVAL : Z; pipe_ENODEV : Z;
  addr_rt_pipe_open : Z; addr_rt_pipe_close : Z; addr_rt_pipe_read : Z; addr_rt_pipe_write : Z; addr_rt_pipe_control : Z
}.

Section pipe.
Context `{CB : Callbacks} `{PC : PipeConsts}.

Definition in_p {A} (m : K A) : P A := λ s,
  match m (p_kernel s) with Some (x, k) => Some (x, PState k (p_pipes s)) | None => None end.
Definition pipe_at (pipe : Z) : P rt_pipe := m ← gets p_pipes; lift (m !! pipe).
Definition upd_pipe (pipe : Z) (f : rt_pipe → rt_pipe) : P unit :=
  p ← pipe_at pipe; modify (λ s, PState (p_kernel s) (<[pipe := f p]> (p_pipes s))).
(** What runs between rt_mutex_take and rt_mutex_release; the take may have to wait. *)
Definition and_release {A} (pipe : Z) (body : P A) : P A :=
  x ← body; in_p (rt_mutex_release (pipe_lock pipe));; mret x.
Definition locked {A} (pipe : Z) (body : P A) : P (call Z A) :=
  r ← in_p (rt_mutex_take (pipe_lock pipe) RT_WAITING_FOREVER);
  match r with
  | Wait t => mret (Wait t)
  | Ret _ => x ← and_release pipe body; mret (Ret x)
  end.
Definition locked_resume {A} (pipe thread : Z) (body : P A) : P A :=
  in_p (rt_mutex_take_resume thread);; and_release pipe body.

(** [pool] is what the memory of the pool holds. *)
Definition pipe_open_body (pipe : Z) (pool : list Z) : P Z :=
  p ← pipe_at pipe;
  match pipe_fifo p with
  | Some _ => mret RT_EOK
  | None =>
      fifo ← in_p (lift_heap (rt_ringbuffer_create (pipe_bufsz p) pool));
      upd_pipe pipe (set_pipe_fifo fifo);;
      mret (if bool_decide (is_Some fifo) then RT_EOK else - RT_ENOMEM)
  end.
Definition rt_pipe_open (device : Z) (pool : list Z) : P (call Z Z) :=
  if device =? 0 then mret (Ret (- RT_EINVAL)) else locked device (pipe_open_body device pool).
Definition fifo_destroy (fifo : option (Z * Z * rt_ringbuffer)) : K unit :=
  match fifo with
  | Some (rb, buffer_ptr, _) => lift_heap (rt_ringbuffer_destroy rb buffer_ptr)
  | None => fail
  end.
Definition pipe_close_body (device : Z) : P Z :=
  d ← in_p (device_at device);
  when (dev_ref_count d =? 1)
    (p ← pipe_at device;
     in_p (fifo_destroy (pipe_fifo p));;
     upd_pipe device (set_pipe_fifo None));;
  mret RT_EOK.
Definition rt_pipe_close (device : Z) : P (call Z Z) :=
  if device =? 0 then mret (Ret (- RT_EINVAL)) else locked device (pipe_close_body device).

(** rt_ringbuffer_get and rt_ringbuffer_put take the length in 16 bits; every round but the last moves a byte at least. *)
Fixpoint pipe_read_loop (fuel : nat) (pipe count : Z) (data : list Z) : P (list Z) :=
  match fuel with
  | O => fail
  | S fuel =>
      if Z.of_nat (length data) <? count then
        p ← pipe_at pipe;
        '(rb, ptr, r) ← lift (pipe_fifo p);
        let '(r, d, len) := rt_ringbuffer_get r (u16 (count - Z.of_nat (length data))) in
        upd_pipe pipe (set_pipe_fifo (Some (rb, ptr, r)));;
        if len <=? 0 then mret data else pipe_read_loop fuel pipe count (data ++ d)
      else mret data
  end.
Definition rt_pipe_read (device count : Z) : P (call Z (list Z)) :=
  if device =? 0 then in_p (rt_set_errno (- pipe_EINVAL));; mret (Ret []) else
  if count =? 0 then mret (Ret []) else
  locked device (pipe_read_loop (S (Z.to_nat count)) device count []).
(** What is left of [rt_pipe_read] when [thread] has waited for the lock, and so with [rt_pipe_write]. *)
Definition rt_pipe_read_resume (device count thread : Z) : P (list Z) :=
  locked_resume device thread (pipe_read_loop (S (Z.to_nat count)) device count []).
(** The bytes written so far are [n]. *)
Fixpoint pipe_write_loop (fuel : nat) (pipe n : Z) (data : list Z) : P Z :=
  match fuel with
  | O => fail
  | S fuel =>
      if n <? Z.of_nat (length data) then
        p ← pipe_at pipe;
        '(rb, ptr, r) ← lift (pipe_fifo p);
        let '(r, len) := rt_ringbuffer_put r (drop (Z.to_nat n) data) (u16 (Z.of_nat (length data) - n)) in
        upd_pipe pipe (set_pipe_fifo (Some (rb, ptr, r)));;
        if len <=? 0 then mret n else pipe_write_loop fuel pipe (n + len) data
      else mret n
  end.
Definition rt_pipe_write (device : Z) (data : list Z) : P (call Z Z) :=
  if device =? 0 then in_p (rt_set_errno (- pipe_EINVAL));; mret (Ret 0) else
  if Z.of_nat (length data) =? 0 then mret (Ret 0) else
  locked device (pipe_write_loop (S (length data)) device 0 data).
Definition rt_pipe_write_resume (device : Z) (data : list Z) (thread : Z) : P Z :=
  locked_resume device thread (pipe_write_loop (S (length data)) device 0 data).
Definition rt_pipe_control (dev cmd args : Z) : P Z := mret RT_EOK.

Definition rt_pipe_create (name : list Z) (bufsz : Z) : P Z :=
  pipe ← in_p (lift_heap (rt_malloc sizeof_pipe));
  if pipe =? 0 then mret 0 else
  modify (λ s, PState (p_kernel s) (<[pipe := Pipe None 0]> (p_pipes s)));;
  in_p (rt_mutex_init (pipe_lock pipe) name RT_IPC_FLAG_FIFO);;
  RT_ASSERT (bufsz <? 0xFFFF);;
  upd_pipe pipe (λ p, Pipe (pipe_fifo p) (u16 bufsz));;
  in_p (modify (λ k, set_devices (<[pipe := Device RT_Device_Class_Pipe 0 0 0 0 0 0 0 addr_rt_pipe_open addr_rt_pipe_close
    addr_rt_pipe_read addr_rt_pipe_write addr_rt_pipe_control 0]> (devices k)) k));;
  r ← in_p (rt_device_register pipe name PIPE_FLAGS);
  if negb (r =? 0) then in_p (lift_heap (rt_free pipe));; mret 0 else
  mret pipe.
Definition rt_pipe_delete (name : list Z) : P Z :=
  device ← in_p (rt_device_find name);
  match device with
  | Some (Obj device) =>
      d ← in_p (device_at device);
      if dev_type d =? RT_Device_Class_Pipe then
        if negb (dev_ref_count d =? 0) then mret (- RT_EBUSY) else
        in_p (rt_mutex_detach (pipe_lock device));;
        in_p (rt_device_unregister device);;
        p ← pipe_at device;
        when (bool_decide (is_Some (pipe_fifo p)))
          (in_p (fifo_destroy (pipe_fifo p));; upd_pipe device (set_pipe_fifo None));;
        in_p (lift_heap (rt_free device));;
        modify (λ s, PState (p_kernel s) (delete device (p_pipes s)));;
        mret 0
      else mret (- pipe_ENODEV)
  | _ => mret (- pipe_ENODEV)
  end.
(** rt_device_close on a pipe *)
Definition pipe_device_close (dev : Z) : P (call Z Z) :=
  in_p (assert_device dev);;
  d ← in_p (device_at dev);
  if dev_ref_count d =? 0 then mret (Ret (- RT_ERROR)) else
  in_p (upd_device dev (λ d, set_dev_ref_count (u8 (dev_ref_count d - 1)) d));;
  d ← in_p (device_at dev);
  if negb (dev_ref_count d =? 0) then mret (Ret RT_EOK) else
  RT_ASSERT (dev_close d =? addr_rt_pipe_close);;
  result ← rt_pipe_close dev;
  match result with
  | Wait t => mret (Wait t)
  | Ret result =>
      when (accepted result) (in_p (upd_device dev (set_dev_open_flag RT_DEVICE_OFLAG_CLOSE)));;
      mret (Ret result)
  end.
End pipe.

(** * A pipe is a bounded queue *)

Inductive pipe_event := PWrite (data : list Z) | PRead (count : Z).
Definition pipe_event_ok (e : pipe_event) : Prop :=
  match e with PWrite data => Z.of_nat (length data) < 65536 | PRead count => 0 ≤ count < 65536 end.
(** What is written and does not fit is left out: the count, or the bytes. *)
Definition pipe_spec (n : Z) (e : pipe_event) (q : list Z) : (Z + list Z) * list Z :=
  match e with
  | PWrite data => let k := Z.min (Z.of_nat (length data)) (n - Z.of_nat (length q)) in
      (inl k, q ++ take (Z.to_nat k) data)
  | PRead count => (inr (take (Z.to_nat count) q), drop (Z.to_nat count) q)
  end.
Fixpoint pipe_specs (n : Z) (es : list pipe_event) (q : list Z) : list (Z + list Z) * list Z :=
  match es with
  | [] => ([], q)
  | e :: es => let x := pipe_spec n e q in let y := pipe_specs n es x.2 in (x.1 :: y.1, y.2)
  end.

Section proofs.
Context `{CB : Callbacks} `{PC : PipeConsts}.
Implicit Types (k : kernel) (s : pstate).

Definition pipe_do (dev : Z) (e : pipe_event) : P (call Z (Z + list Z)) :=
  match e with
  | PWrite data => r ← rt_pipe_write dev data; mret (match r with Ret n => Ret (inl n) | Wait t => Wait t end)
  | PRead count => r ← rt_pipe_read dev count; mret (match r with Ret d => Ret (inr d) | Wait t => Wait t end)
  end.
Fixpoint pipe_run (dev : Z) (es : list pipe_event) : P (list (call Z (Z + list Z))) :=
  match es with
  | [] => mret []
  | e :: es => r ← pipe_do dev e; rs ← pipe_run dev es; mret (r :: rs)
  end.

Lemma wp_in_p {A} (m : K A) (Q : A → pstate → Prop) s :
  wp (in_p m) Q s ↔ wp m (λ r k, Q r (PState k (p_pipes s))) (p_kernel s).
Proof. unfold wp, in_p. by destruct (m (p_kernel s)) as [[??]|]. Qed.
#[local] Hint Rewrite @wp_in_p : wp.
Lemma wp_pipe_at s dev p (Q : rt_pipe → pstate → Prop) : p_pipes s !! dev = Some p → Q p s → wp (pipe_at dev) Q s.
Proof. intros E HQ. unfold pipe_at. wp_simpl. by rewrite E. Qed.
Lemma wp_upd_pipe s dev p f (Q : unit → pstate → Prop) :
  p_pipes s !! dev = Some p → Q tt (PState (p_kernel s) (<[dev := f p]> (p_pipes s))) → wp (upd_pipe dev f) Q s.
Proof. intros E HQ. unfold upd_pipe. wp_simpl. by eapply wp_pipe_at. Qed.

(** ** The lock *)

(** The lock is free and [t] runs. *)
Record lock_free (dev t : Z) k : Prop := {
  lf_inv : kinv 0 k;
  lf_mutex : mutex_ok (pipe_lock dev) new_mutex k;
  lf_running : ∃ th, running t th k
}.
Lemma mutex_release_free_run m mx t th k :
  mutexes k !! m = Some mx → mx_owner mx = Some t → mx_hold mx = 1 → mx_value mx = 0 →
  mx_original_priority mx = th_current_priority th → running t th k →
  (∃ o, objects k !! Obj m = Some o ∧ class_of o = RT_Object_Class_Mutex) → tl (LSuspend m) k = [] →
  wp (rt_mutex_release m) (λ r k', r = RT_EOK ∧ k' = set_mutexes (<[m := new_mutex]> (mutexes k)) k) k.
Proof.
  intros Hm Eo Eh Ev Ep [Hn Hcur Hth Hst] (o & Ho & Hc) El.
  unfold rt_mutex_release, RT_DEBUG_IN_THREAD_CONTEXT, RT_DEBUG_NOT_IN_INTERRUPT, current. wp_simpl.
  eapply assert_class_run; [done..|]. wp_simpl. rewrite Hcur. split; [done|]. rewrite Hn. split; [done|]. wp_simpl.
  eapply wp_mutex_at; [done|]. rewrite Eo, bool_decide_true by done. simpl.
  wp_simpl. eapply wp_upd_mutex; [done|]. wp_simpl. eapply wp_mutex_at; [apply lookup_insert_eq|]. simpl.
  rewrite Eh. simpl. wp_simpl. eapply wp_thread_at; [done|]. rewrite Ep, Z.eqb_refl. simpl. wp_simpl.
  simpl. change (tl (LSuspend m) (set_mutexes (<[m:=set_mx_hold (u8 (1 - 1)) mx]> (mutexes k)) k)) with (tl (LSuspend m) k).
  rewrite El, Ev. simpl. wp_simpl. eapply wp_upd_mutex; [apply lookup_insert_eq|]. wp_simpl. split; [done|].
  simpl. rewrite insert_insert_eq. by destruct mx; simpl in *; subst.
Qed.
Lemma locked_run {A} dev t (body : P A) (Q : A → gmap Z rt_pipe → Prop) s :
  lock_free dev t (p_kernel s) →
  (∀ k, devices k = devices (p_kernel s) → wp body (λ x s', p_kernel s' = k ∧ Q x (p_pipes s')) (PState k (p_pipes s))) →
  wp (locked dev body) (λ r s', ∃ x, r = Ret x ∧ Q x (p_pipes s') ∧ lock_free dev t (p_kernel s') ∧
    devices (p_kernel s') = devices (p_kernel s) ∧ objects (p_kernel s') = objects (p_kernel s) ∧
    kheap (p_kernel s') = kheap (p_kernel s)) s.
Proof.
  intros [Hk Hm (th & Hrun)] Hbody. unfold locked, and_release. wp_simpl. set (k := p_kernel s) in *.
  eapply wp_mono; [apply (rt_mutex_take_owns k (pipe_lock dev) new_mutex t th); [done..|by left]|].
  intros r k1 (Hk1 & mx & Hmx & E1 & Eo & -> & Eh & Ep). wp_simpl.
  eapply wp_mono; [apply (Hbody k1); by rewrite E1|]. intros x s1 [Ek HQ]. wp_simpl. rewrite Ek.
  pose proof Hrun as [Hn Hcur Hth Hst]. set (th1 := set_th_error RT_EOK th).
  assert (running t th1 k1) as Hrun1.
  { rewrite E1. constructor; try done. simpl. by rewrite lookup_insert_eq. }
  pose proof Hmx as [Hmx1 Hobj Hown]. rewrite Eo in Hown. destruct Hown as (Ev & _).
  destruct (mo_owner _ _ _ Hm) as [_ El].
  assert (tl (LSuspend (pipe_lock dev)) k1 = []) as El1 by by rewrite E1.
  eapply wp_mono; [apply (mutex_release_free_run (pipe_lock dev) mx t th1 k1); try done; [by destruct Hobj as (o & ? & ? & _); exists o]|].
  intros r k2 (_ & E2). wp_simpl. exists x. split_and!; [done|done| | | |].
  - rewrite E2. constructor.
    + by apply (kinv_same 0 k1).
    + constructor; [simpl; by rewrite lookup_insert_eq|done|by split].
    + exists th1. destruct Hrun1. by constructor.
  - simpl. by rewrite E2, E1.
  - simpl. by rewrite E2, E1.
  - simpl. by rewrite E2, E1.
Qed.

(** ** The queue *)

(** The pipe at [dev] is open, its ring buffer has [n] bytes and holds [q]. *)
Definition pipe_holds (dev n : Z) (q : list Z) (ps : gmap Z rt_pipe) : Prop :=
  ∃ rb ptr r sz, ps !! dev = Some (Pipe (Some (rb, ptr, r)) sz) ∧ rb_wf r ∧ buffer_size r = n ∧ rb_data r = q.
Definition pipe_ok (dev t n : Z) (q : list Z) s : Prop :=
  lock_free dev t (p_kernel s) ∧ pipe_holds dev n q (p_pipes s).

Lemma pipe_holds_length dev n q ps : pipe_holds dev n q ps → 0 < n < 32768 ∧ Z.of_nat (length q) ≤ n.
Proof.
  intros (rb & ptr & r & sz & _ & Hwf & <- & <-). pose proof (rb_len_range r Hwf). pose proof Hwf as [? ? ? ? _].
  rewrite rb_data_length, rb_len_eq by done. lia.
Qed.
(** One round of the loop of [rt_pipe_read], and of that of [rt_pipe_write]. *)
Lemma get_round dev n q ps m :
  pipe_holds dev n q ps → 0 ≤ m < 65536 →
  ∃ rb ptr r sz r', ps !! dev = Some (Pipe (Some (rb, ptr, r)) sz) ∧
    rt_ringbuffer_get r m = (r', take (Z.to_nat m) q, Z.min m (Z.of_nat (length q))) ∧
    pipe_holds dev n (drop (Z.to_nat m) q) (<[dev := Pipe (Some (rb, ptr, r')) sz]> ps).
Proof.
  intros (rb & ptr & r & sz & Hp & Hwf & <- & <-) Hm.
  destruct (rt_ringbuffer_get_takes r m) as (r' & E & Hwf' & Hs & Hd); [done..|].
  exists rb, ptr, r, sz, r'. split_and!; [done..|]. exists rb, ptr, r', sz. by rewrite lookup_insert_eq.
Qed.
Lemma put_round dev n q ps data m :
  pipe_holds dev n q ps → 0 ≤ m ≤ Z.of_nat (length data) → m < 65536 →
  let len := Z.min m (n - Z.of_nat (length q)) in
  ∃ rb ptr r sz r', ps !! dev = Some (Pipe (Some (rb, ptr, r)) sz) ∧ rt_ringbuffer_put r data m = (r', len) ∧
    pipe_holds dev n (q ++ take (Z.to_nat len) data) (<[dev := Pipe (Some (rb, ptr, r')) sz]> ps).
Proof.
  intros (rb & ptr & r & sz & Hp & Hwf & <- & <-) Hm Hm'.
  destruct (rt_ringbuffer_put_appends r data m) as (r' & E & Hwf' & Hs & Hd); [done..|].
  exists rb, ptr, r, sz, r'. split_and!; [done..|]. exists rb, ptr, r', sz. by rewrite lookup_insert_eq.
Qed.

Lemma read_loop_run dev n count k fuel : ∀ data q ps,
  pipe_holds dev n q ps → Z.of_nat (length data) ≤ count < 65536 → count - Z.of_nat (length data) < Z.of_nat fuel →
  wp (pipe_read_loop fuel dev count data)
    (λ d s', p_kernel s' = k ∧ d = data ++ take (Z.to_nat count - length data) q ∧
      pipe_holds dev n (drop (Z.to_nat count - length data) q) (p_pipes s')) (PState k ps).
Proof.
  induction fuel as [|fuel IH]; intros data q ps Hp Hc Hf; [lia|]. cbn [pipe_read_loop].
  destruct (Z.ltb_spec (Z.of_nat (length data)) count) as [Hlt|].
  2:{ wp_simpl. replace (Z.to_nat count - length data)%nat with 0%nat by lia. by rewrite take_0, drop_0, app_nil_r. }
  set (m := count - Z.of_nat (length data)).
  destruct (get_round dev n q ps m) as (rb & ptr & r & sz & r' & Ep & Eg & Hp'); [done|lia|].
  wp_simpl. eapply wp_pipe_at; [done|]. cbn [pipe_fifo]. wp_simpl.
  rewrite u16_small, Eg by lia. wp_simpl.
  eapply wp_upd_pipe; [done|]. cbn [p_kernel p_pipes].
  replace (Z.to_nat count - length data)%nat with (Z.to_nat m) by lia.
  destruct (Z.leb_spec (Z.min m (Z.of_nat (length q))) 0) as [Hz|Hz]; wp_simpl.
  - assert (q = []) as -> by (apply length_zero_iff_nil; lia). by rewrite take_nil, app_nil_r.
  - eapply wp_mono; [apply IH; [exact Hp'|rewrite length_app, length_take; lia..]|].
    intros d s' (Ek & -> & Hh). split; [done|]. rewrite length_app, length_take in *.
    destruct (decide (Z.to_nat m ≤ length q)%nat).
    + replace (Z.to_nat count - (length data + Z.to_nat m `min` length q))%nat with 0%nat in * by lia.
      by rewrite take_0, app_nil_r.
    + rewrite (drop_ge q) in * by lia. by rewrite take_nil, app_nil_r, drop_nil in *.
Qed.
Lemma write_loop_run dev n data k fuel : ∀ w q ps,
  pipe_holds dev n q ps → 0 ≤ w ≤ Z.of_nat (length data) → Z.of_nat (length data) < 65536 →
  Z.of_nat (length data) - w < Z.of_nat fuel →
  let c := Z.min (Z.of_nat (length data) - w) (n - Z.of_nat (length q)) in
  wp (pipe_write_loop fuel dev w data)
    (λ x s', p_kernel s' = k ∧ x = w + c ∧
      pipe_holds dev n (q ++ take (Z.to_nat c) (drop (Z.to_nat w) data)) (p_pipes s')) (PState k ps).
Proof.
  induction fuel as [|fuel IH]; intros w q ps Hp Hw Hd Hf c; [lia|]. cbn [pipe_write_loop].
  destruct (pipe_holds_length _ _ _ _ Hp) as [Hn Hq].
  destruct (Z.ltb_spec w (Z.of_nat (length data))) as [Hlt|].
  2:{ wp_simpl. replace c with 0 by lia. rewrite take_0, app_nil_r. split_and!; [done|lia|done]. }
  destruct (put_round dev n q ps (drop (Z.to_nat w) data) (Z.of_nat (length data) - w))
    as (rb & ptr & r & sz & r' & Ep & Eg & Hp'); [done|rewrite ?length_drop; lia..|]. fold c in Eg, Hp'.
  wp_simpl. eapply wp_pipe_at; [done|]. cbn [pipe_fifo]. wp_simpl.
  rewrite u16_small, Eg by lia. wp_simpl.
  eapply wp_upd_pipe; [done|]. cbn [p_kernel p_pipes].
  destruct (Z.leb_spec c 0) as [Hz|Hz]; wp_simpl; [split_and!; [done|lia|done]|].
  eapply wp_mono; [apply IH; [exact Hp'|lia..]|].
  intros x s' (Ek & -> & Hh). split; [done|]. rewrite ?length_app, ?length_take, ?length_drop in Hh |- *.
  replace (Z.min (Z.of_nat (length data) - (w + c)) _) with 0 in * by lia.
  rewrite take_0, app_nil_r in Hh. split; [lia|done].
Qed.

Lemma read_run dev t n q count s :
  pipe_ok dev t n q s → 0 ≤ count < 65536 → dev ≠ 0 →
  wp (rt_pipe_read dev count) (λ r s', r = Ret (take (Z.to_nat count) q) ∧ pipe_ok dev t n (drop (Z.to_nat count) q) s') s.
Proof.
  intros [Hl Hp] Hc Hdev. unfold rt_pipe_read. rewrite (proj2 (Z.eqb_neq _ _)) by done.
  destruct (Z.eqb_spec count 0) as [->|]; [by wp_simpl|].
  eapply wp_mono.
  - eapply (locked_run _ t _ (λ d ps, d = take (Z.to_nat count) q ∧ pipe_holds dev n (drop (Z.to_nat count) q) ps)); [done|].
    intros k _. eapply wp_mono; [apply (read_loop_run dev n count k _ [] q _ Hp); simpl; lia|].
    simpl. intros d s' (? & -> & ?). by rewrite Nat.sub_0_r in *.
  - by intros r s' (d & -> & (-> & ?) & ? & _).
Qed.
Lemma write_run dev t n q data s :
  pipe_ok dev t n q s → Z.of_nat (length data) < 65536 → dev ≠ 0 →
  let c := Z.min (Z.of_nat (length data)) (n - Z.of_nat (length q)) in
  wp (rt_pipe_write dev data) (λ r s', r = Ret c ∧ pipe_ok dev t n (q ++ take (Z.to_nat c) data) s') s.
Proof.
  intros [Hl Hp] Hd Hdev c. unfold rt_pipe_write. rewrite (proj2 (Z.eqb_neq _ _)) by done.
  destruct (pipe_holds_length _ _ _ _ Hp) as [Hn Hq].
  destruct (Z.eqb_spec (Z.of_nat (length data)) 0).
  { wp_simpl. replace c with 0 by lia. rewrite take_0, app_nil_r. by split. }
  eapply wp_mono.
  - eapply (locked_run _ t _ (λ d ps, d = c ∧ pipe_holds dev n (q ++ take (Z.to_nat c) data) ps)); [done|].
    intros k _. eapply wp_mono; [apply (write_loop_run dev n data k _ 0 q _ Hp); lia|].
    intros x s' (? & -> & Hh). replace (Z.of_nat (length data) - 0) with (Z.of_nat (length data)) in * by lia.
    by rewrite drop_0 in Hh.
  - by intros r s' (d & -> & (-> & ?) & ? & _).
Qed.
Lemma pipe_do_run dev t n q e s :
  pipe_ok dev t n q s → pipe_event_ok e → dev ≠ 0 →
  wp (pipe_do dev e) (λ r s', r = Ret (pipe_spec n e q).1 ∧ pipe_ok dev t n (pipe_spec n e q).2 s') s.
Proof.
  intros Hs He Hdev. destruct e; simpl; wp_simpl.
  - eapply wp_mono; [by eapply write_run|]. intros r s' [-> ?]. by wp_simpl.
  - eapply wp_mono; [by eapply read_run|]. intros r s' [-> ?]. by wp_simpl.
Qed.

(** C18. Whatever is written to an open pipe and read from it by a thread that need not wait for its lock, with
    counts that fit 16 bits: the calls return what they return on a queue of as many bytes as the ring
    buffer has. A write returns the number of bytes there was room for, and those alone are read
    later, in order and once; the lock is free again after each call. *)
Theorem pipe_refines dev t n q es s :
  pipe_ok dev t n q s → Forall pipe_event_ok es → dev ≠ 0 →
  wp (pipe_run dev es) (λ rs s', rs = Ret <$> (pipe_specs n es q).1 ∧ pipe_ok dev t n (pipe_specs n es q).2 s') s.
Proof.
  intros Hs Hes Hdev. revert q s Hs. induction Hes as [|e es He _ IH]; intros q s Hs; simpl; wp_simpl; [done|].
  eapply wp_mono; [by eapply pipe_do_run|]. intros r s1 [-> Hs1]. wp_simpl.
  eapply wp_mono; [by apply IH|]. intros rs s2 [-> ?]. by wp_simpl.
Qed.

(** ** The last close *)

(** C19. The last rt_device_close of an open pipe lowers ref_count to 0 before it calls [rt_pipe_close], which frees
    the ring buffer when it finds 1: the pipe stays as it was, with what it holds, and no memory is
    given back. *)
Theorem pipe_close_keeps_fifo dev t n q d s :
  pipe_ok dev t n q s → dev_ok dev d (p_kernel s) → dev_ref_count d = 1 → dev_close d = addr_rt_pipe_close →
  wp (pipe_device_close dev) (λ r s', r = Ret RT_EOK ∧ p_pipes s' = p_pipes s ∧ pipe_ok dev t n q s' ∧
    kheap (p_kernel s') = kheap (p_kernel s) ∧ ∃ d', devices (p_kernel s') !! dev = Some d' ∧ dev_ref_count d' = 0) s.
Proof.
  intros [Hl Hp] Hd Er Ec. pose proof (do_device _ _ _ Hd) as Hdev. unfold pipe_device_close. wp_simpl.
  eapply assert_device_run; [done|]. wp_simpl. eapply wp_device_at; [done|]. rewrite Er. simpl. wp_simpl.
  eapply wp_upd_device; [done|]. wp_simpl. eapply wp_device_at; [apply lookup_insert_eq|].
  simpl. rewrite Er. simpl. wp_simpl. split; [by apply Z.eqb_eq|]. wp_simpl.
  set (d1 := set_dev_ref_count (u8 (1 - 1)) d). set (k1 := set_devices (<[dev := d1]> (devices (p_kernel s))) (p_kernel s)).
  unfold rt_pipe_close. rewrite (proj2 (Z.eqb_neq _ _)) by apply Hd.
  eapply wp_mono.
  - eapply (locked_run dev t _ (λ r ps, r = RT_EOK ∧ ps = p_pipes s)).
    + destruct Hl as [Hk Hm Hr]. constructor; [by apply (kinv_same 0 (p_kernel s))|by destruct Hm|].
      destruct Hr as (th & [? ? ? ?]). by exists th.
    + intros k E. unfold pipe_close_body. wp_simpl. eapply wp_device_at; [cbn [p_kernel]; rewrite E; apply lookup_insert_eq|].
      simpl. by wp_simpl.
  - intros r s1 (x & -> & (-> & Eps) & Hl1 & Ed & _ & Eh). wp_simpl. simpl. wp_simpl.
    eapply wp_upd_device; [rewrite Ed; apply lookup_insert_eq|]. wp_simpl. simpl. split; [done|]. split; [done|].
    split; [|split; [done|eexists; split; [apply lookup_insert_eq|done]]].
    split; [|cbn [p_pipes]; by rewrite Eps]. destruct Hl1 as [Hk Hm Hr].
    constructor; [by apply (kinv_same 0 (p_kernel s1))|by destruct Hm|].
    destruct Hr as (th & [? ? ? ?]). by exists th.
Qed.
End proofs.
