(* ===== verification/Serial.v ===== *)
(** The serial framework of components/drivers/serial/serial.c, on top of which the console and
    the shell stand: opening and closing, the receive buffer that interrupts fill and
    calls empty, transmission by polling, by interrupt and by DMA. The functions of the
    UART driver are the class [UartOps]. *)
From S2P Require Import Prelude Kservice Mem KState Sched Object Timer Thread Ipc Mailbox MemPool DriverIpc DataQueue Completion Device.

Definition RT_DEVICE_FLAG_SUSPENDED : Z := 0x020.
Definition RT_DEVICE_FLAG_STREAM : Z := 0x040.
Definition RT_DEVICE_FLAG_INT_RX : Z := 0x100.
Definition RT_DEVICE_FLAG_DMA_RX : Z := 0x200.
Definition RT_DEVICE_FLAG_INT_TX : Z := 0x400.
Definition RT_DEVICE_FLAG_DMA_TX : Z := 0x800.
Definition RT_DEVICE_CTRL_RESUME : Z := 0x01.
Definition RT_DEVICE_CTRL_SUSPEND : Z := 0x02.
Definition RT_DEVICE_CTRL_CONFIG : Z := 0x03.
Definition RT_DEVICE_CTRL_CLOSE : Z := 0x04.
Definition RT_DEVICE_CTRL_SET_INT : Z := 0x10.
Definition RT_DEVICE_CTRL_CLR_INT : Z := 0x11.
Definition RT_Device_Class_Char : Z := 0.
Definition RT_SERIAL_EVENT_RX_IND : Z := 0x01.
Definition RT_SERIAL_EVENT_TX_DONE : Z := 0x02.
Definition RT_SERIAL_EVENT_RX_DMADONE : Z := 0x03.
Definition RT_SERIAL_EVENT_TX_DMADONE : Z := 0x04.
Definition RT_SERIAL_DMA_RX : Z := 1.
Definition RT_SERIAL_DMA_TX : Z := 2.
Definition RT_WAITING_FOREVER : Z := -1.

(** struct serial_configure *)
Record serial_configure := SerialConfig {
  baud_rate : Z; data_bits : Z; stop_bits : Z; parity : Z; bit_order : Z; invert : Z; bufsz : Z; reserved : Z
}.
Record rt_serial_rx_fifo := RxFifo {
  rx_buffer : list Z; put_index : Z; get_index : Z; is_full : bool
}.
(** What [serial_rx] and [serial_tx] point to, with the address of the structure. The completion is the start of
    its structure, the data queue stands behind [activated]. *)
Inductive rx_state := RxNull | RxInt (addr : Z) (f : rt_serial_rx_fifo) | RxDma (addr : Z) (activated : bool).
Inductive tx_state := TxNull | TxInt (addr : Z) | TxDma (addr : Z) (activated : bool).
Definition tx_queue (addr : Z) : Z := addr + 4.
Definition sizeof_rx_fifo : Z := 12.
Definition sizeof_tx_fifo : Z := 12.
Definition sizeof_rx_dma : Z := 4.
Definition sizeof_tx_dma : Z := 40.
(** struct rt_serial_device but for its device, which is the kernel's *)
Record rt_serial := Serial { config : serial_configure; serial_rx : rx_state; serial_tx : tx_state }.

(** The operations of the driver on the state of its hardware [HW], by serial device. *)
Class UartOps (HW : Type) := {
  uart_configure : Z → serial_configure → HW → Z * HW;
  uart_control : Z → Z → Z → HW → Z * HW;
  uart_putc : Z → Z → HW → Z * HW;
  uart_getc : Z → HW → Z * HW;
  uart_dma_transmit : Z → list Z → Z → Z → HW → Z * HW
}.
(** What the owners of a device are called with, and the addresses of the functions of serial.c. *)
Class SerialCallbacks := {
  rx_indicate_fn : Z → Z → Z → K Z;
  tx_complete_fn : Z → Z → Z → K Z;
  addr_serial_init : Z; addr_serial_open : Z; addr_serial_close : Z;
  addr_serial_read : Z; addr_serial_write : Z; addr_serial_control : Z
}.

(** The kernel, the data queues and completions, the serial devices by address, the flag
    [already_output] of _serial_check_buffer_size, the hardware. *)
Record sstate (HW : Type) := SState {
  s_kernel : kernel;
  s_queues : gmap Z rt_data_queue;
  s_flags : gmap Z Z;
  s_serials : gmap Z rt_serial;
  already_output : bool;
  s_hw : HW
}.
Arguments SState {HW}.
Arguments s_kernel {HW}.
Arguments s_queues {HW}.
Arguments s_flags {HW}.
Arguments s_serials {HW}.
Arguments already_output {HW}.
Arguments s_hw {HW}.

Section serial.
Context `{CB : Callbacks} `{DC : DqCallbacks} `{SC : SerialCallbacks} {HW : Type} `{UO : !UartOps HW}.
Abbreviation SM := (M (sstate HW)).
Implicit Types s : sstate HW.

(** ** Access *)

Definition put_kernel (k : kernel) s : sstate HW := SState k (s_queues s) (s_flags s) (s_serials s) (already_output s) (s_hw s).
Definition put_serials (v : gmap Z rt_serial) s : sstate HW :=
  SState (s_kernel s) (s_queues s) (s_flags s) v (already_output s) (s_hw s).
Definition put_hw (h : HW) s : sstate HW := SState (s_kernel s) (s_queues s) (s_flags s) (s_serials s) (already_output s) h.
Definition kcall {A} (m : K A) : SM A := λ s,
  match m (s_kernel s) with Some (x, k) => Some (x, put_kernel k s) | None => None end.
Definition dcall {A} (m : D A) : SM A := λ s,
  match m (s_kernel s, s_queues s) with
  | Some (x, (k, q)) => Some (x, SState k q (s_flags s) (s_serials s) (already_output s) (s_hw s))
  | None => None
  end.
Definition ccall {A} (m : C A) : SM A := λ s,
  match m (s_kernel s, s_flags s) with
  | Some (x, (k, f)) => Some (x, SState k (s_queues s) f (s_serials s) (already_output s) (s_hw s))
  | None => None
  end.
Definition ops {A} (f : HW → A * HW) : SM A := λ s, let x := f (s_hw s) in Some (x.1, put_hw x.2 s).

Definition serial_at (dev : Z) : SM rt_serial := m ← gets s_serials; lift (m !! dev).
Definition upd_serial (dev : Z) (f : rt_serial → rt_serial) : SM unit :=
  x ← serial_at dev; modify (λ s, put_serials (<[dev := f x]> (s_serials s)) s).
Definition set_config (v : serial_configure) (x : rt_serial) : rt_serial := Serial v (serial_rx x) (serial_tx x).
Definition set_rx (v : rx_state) (x : rt_serial) : rt_serial := Serial (config x) v (serial_tx x).
Definition set_tx (v : tx_state) (x : rt_serial) : rt_serial := Serial (config x) (serial_rx x) v.
Definition get_bufsz (dev : Z) : SM Z := x ← serial_at dev; mret (bufsz (config x)).
(** [serial_rx] as a pointer to a struct rt_serial_rx_fifo that is not NULL. *)
Definition rx_fifo (dev : Z) : SM rt_serial_rx_fifo :=
  x ← serial_at dev; lift (match serial_rx x with RxInt _ f => Some f | _ => None end).
Definition set_fifo (dev : Z) (f : rt_serial_rx_fifo) : SM unit :=
  upd_serial dev (λ x, match serial_rx x with RxInt a _ => set_rx (RxInt a f) x | _ => x end).
Definition rx_dma (dev : Z) : SM (Z * bool) :=
  x ← serial_at dev; lift (match serial_rx x with RxDma a b => Some (a, b) | _ => None end).
Definition tx_fifo (dev : Z) : SM Z :=
  x ← serial_at dev; lift (match serial_tx x with TxInt a => Some a | _ => None end).
Definition tx_dma (dev : Z) : SM (Z * bool) :=
  x ← serial_at dev; lift (match serial_tx x with TxDma a b => Some (a, b) | _ => None end).
Definition dev_has (dev flag : Z) : SM bool := d ← kcall (device_at dev); mret (has_flag (dev_open_flag d) flag).
Definition upd_open_flag (dev : Z) (f : Z → Z) : SM unit :=
  kcall (upd_device dev (λ d, set_dev_open_flag (u16 (f (dev_open_flag d))) d)).

(** ** Polling *)

(** [length] characters at most, into [data]. *)
Fixpoint poll_rx_loop (length : nat) (dev : Z) (data : list Z) : SM (list Z) :=
  match length with
  | O => mret data
  | S length =>
      ch ← ops (uart_getc dev);
      if ch =? -1 then mret data else
      stream ← dev_has dev RT_DEVICE_FLAG_STREAM;
      if stream && (ch =? 10) then mret (data ++ [u8 ch]) else poll_rx_loop length dev (data ++ [u8 ch])
  end.
Definition _serial_poll_rx (dev : Z) (length : nat) : SM (list Z) := poll_rx_loop length dev [].
(** A carriage return goes before a line feed in stream mode. *)
Fixpoint _serial_poll_tx (dev : Z) (data : list Z) : SM unit :=
  match data with
  | [] => mret tt
  | c :: data =>
      stream ← dev_has dev RT_DEVICE_FLAG_STREAM;
      when ((c =? 10) && stream) (ops (uart_putc dev 13);; mret tt);;
      ops (uart_putc dev c);;
      _serial_poll_tx dev data
  end.

(** ** Interrupts *)

Fixpoint int_rx_loop (length : nat) (dev : Z) (data : list Z) : SM (list Z) :=
  match length with
  | O => mret data
  | S length =>
      f ← rx_fifo dev; size ← get_bufsz dev;
      if (get_index f =? put_index f) && negb (is_full f) then mret data else
      ch ← lift (rx_buffer f !! Z.to_nat (get_index f));
      let get := u16 (get_index f + 1) in
      let get := if size <=? get then 0 else get in
      set_fifo dev (RxFifo (rx_buffer f) (put_index f) get false);;
      int_rx_loop length dev (data ++ [u8 ch])
  end.
Definition _serial_int_rx (dev : Z) (length : nat) : SM (list Z) := rx_fifo dev;; int_rx_loop length dev [].

(** Without the LOG_W of the first call. *)
Definition _serial_check_buffer_size : SM unit :=
  modify (λ s, SState (s_kernel s) (s_queues s) (s_flags s) (s_serials s) true (s_hw s)).

(** The locals of a write that waits: what is left of the data, its size, and the thread. *)
Record tx_wait := TxWait { tw_dev : Z; tw_data : list Z; tw_size : Z; tw_thread : Z }.
(** A character, or -1: the driver has no room. *)
Definition put_char (dev c : Z) : SM Z :=
  stream ← dev_has dev RT_DEVICE_FLAG_STREAM;
  r ← (if (c =? 10) && stream then ops (uart_putc dev 13) else mret 0);
  if r =? -1 then mret (-1) else ops (uart_putc dev c).
(** The loop of _serial_int_tx. A wait that returns at once has cleared the completion, so that there is
    one such wait at most. *)
Fixpoint int_tx_loop (fuel : nat) (dev size : Z) (data : list Z) : SM (call tx_wait Z) :=
  match fuel, data with
  | _, [] => mret (Ret size)
  | O, _ => fail
  | S fuel, c :: rest =>
      tx ← tx_fifo dev;
      r ← put_char dev c;
      if r =? -1 then
        w ← ccall (rt_completion_wait tx RT_WAITING_FOREVER);
        match w with
        | Wait thread => mret (Wait (TxWait dev data size thread))
        | Ret _ => int_tx_loop fuel dev size data
        end
      else int_tx_loop fuel dev size rest
  end.
Definition _serial_int_tx (dev : Z) (data : list Z) : SM (call tx_wait Z) :=
  tx_fifo dev;;
  int_tx_loop (2 + length data) dev (Z.of_nat (length data)) data.
Definition _serial_int_tx_resume (w : tx_wait) : SM (call tx_wait Z) :=
  tx ← tx_fifo (tw_dev w);
  ccall (rt_completion_wait_resume tx (tw_thread w));;
  int_tx_loop (2 + length (tw_data w)) (tw_dev w) (tw_size w) (tw_data w).

(** ** DMA *)

(** The number of bytes in the buffer. *)
Definition recved_len (f : rt_serial_rx_fifo) (size : Z) : Z :=
  if put_index f =? get_index f then if negb (is_full f) then 0 else size
  else if get_index f <? put_index f then put_index f - get_index f
  else size - (get_index f - put_index f).
Definition _serial_fifo_calc_recved_len (dev : Z) : SM Z :=
  f ← rx_fifo dev; size ← get_bufsz dev; mret (recved_len f size).
Definition rt_dma_calc_recved_len (dev : Z) : SM Z := _serial_fifo_calc_recved_len dev.
(** index += len, in 16 bits, and its remainder when it is beyond the end *)
Definition wrap_index (index len size : Z) : option Z :=
  let index := u16 (index + len) in
  if size <=? index then if size =? 0 then None else Some (index mod size) else Some index.
Definition rt_dma_recv_update_get_index (dev len : Z) : SM unit :=
  f ← rx_fifo dev; size ← get_bufsz dev;
  recved ← rt_dma_calc_recved_len dev;
  RT_ASSERT (len <=? recved);;
  get ← lift (wrap_index (get_index f) len size);
  set_fifo dev (RxFifo (rx_buffer f) (put_index f) get (if negb (len =? 0) then false else is_full f)).
Definition rt_dma_recv_update_put_index (dev len : Z) : SM unit :=
  f ← rx_fifo dev; size ← get_bufsz dev;
  let sum := u16 (put_index f + len) in
  put ← lift (wrap_index (put_index f) len size);
  let full :=
    if get_index f <=? put_index f
    then if (size <=? sum) && (get_index f <=? put) then true else is_full f
    else if get_index f <=? sum then true else is_full f in
  when full _serial_check_buffer_size;;
  set_fifo dev (RxFifo (rx_buffer f) put (if full then put else get_index f) full).
(** The two rt_memcpy: [n] bytes from the index on, going round at the end. *)
Definition ring_read (f : rt_serial_rx_fifo) (size n : Z) : option (list Z) :=
  let get := get_index f in
  let range (i n : Z) := if (0 <=? n) && (i + n <=? Z.of_nat (length (rx_buffer f)))
                         then Some (lread (Z.to_nat i) (Z.to_nat n) (rx_buffer f)) else None in
  if get + n <? size then range get n
  else d1 ← range get (size - get); d2 ← range 0 (n + get - size); Some (d1 ++ d2).
(** The number of bytes, and the bytes that are in the caller's buffer already. *)
Definition _serial_dma_rx (dev length : Z) : SM (Z * list Z) :=
  size ← get_bufsz dev;
  if size =? 0 then
    '(addr, activated) ← rx_dma dev;
    if activated : bool then kcall (rt_set_errno (- RT_EBUSY));; mret (0, []) else
    upd_serial dev (set_rx (RxDma addr true));;
    ops (uart_dma_transmit dev [] length RT_SERIAL_DMA_RX);;
    mret (length, [])
  else
    f ← rx_fifo dev;
    fifo_recved_len ← rt_dma_calc_recved_len dev;
    let recv_len := if length <? s32 fifo_recved_len then length else fifo_recved_len in
    data ← lift (ring_read f size recv_len);
    rt_dma_recv_update_get_index dev recv_len;;
    mret (recv_len, data).
(** [data_ptr] is the address of [data], which the queue keeps. *)
Definition dma_tx_start (dev : Z) (data : list Z) (result : Z) : SM Z :=
  if result =? RT_EOK then
    '(addr, activated) ← tx_dma dev;
    when (negb activated)
      (upd_serial dev (set_tx (TxDma addr true));;
       ops (uart_dma_transmit dev data (Z.of_nat (length data)) RT_SERIAL_DMA_TX);; mret tt);;
    mret (Z.of_nat (length data))
  else kcall (rt_set_errno result);; mret 0.
Definition dma_tx_pushed (dev : Z) (data : list Z) (r : call dq_frame Z) : SM (call dq_frame Z) :=
  match r with
  | Wait f => mret (Wait f)
  | Ret result => n ← dma_tx_start dev data result; mret (Ret n)
  end.
Definition _serial_dma_tx (dev data_ptr : Z) (data : list Z) : SM (call dq_frame Z) :=
  '(addr, _) ← tx_dma dev;
  r ← dcall (rt_data_queue_push (tx_queue addr) data_ptr (Z.of_nat (length data)) RT_WAITING_FOREVER);
  dma_tx_pushed dev data r.
Definition _serial_dma_tx_resume (dev : Z) (data : list Z) (f : dq_frame) : SM (call dq_frame Z) :=
  r ← dcall (rt_data_queue_push_resume f);
  dma_tx_pushed dev data r.

(** ** The interface of the device *)

Definition rt_serial_init (dev : Z) : SM Z :=
  RT_ASSERT (negb (dev =? 0));;
  upd_serial dev (set_rx RxNull);;
  upd_serial dev (set_tx TxNull);;
  x ← serial_at dev;
  ops (uart_configure dev (config x)).

Definition new_fifo (size : Z) : rt_serial_rx_fifo := RxFifo (replicate (Z.to_nat size) 0) 0 0 false.
(** A fresh structure of the receiver or the transmitter; memory must not run out. *)
Definition serial_malloc (size : Z) : SM Z :=
  p ← kcall (lift_heap (rt_malloc (u32 size))); RT_ASSERT (negb (p =? 0));; mret p.
Definition open_rx (dev oflag : Z) : SM unit :=
  x ← serial_at dev;
  let size := bufsz (config x) in
  match serial_rx x with
  | RxNull =>
      if has_flag oflag RT_DEVICE_FLAG_INT_RX then
        p ← serial_malloc (sizeof_rx_fifo + size);
        upd_serial dev (set_rx (RxInt p (new_fifo size)));;
        upd_open_flag dev (Z.lor RT_DEVICE_FLAG_INT_RX);;
        ops (uart_control dev RT_DEVICE_CTRL_SET_INT RT_DEVICE_FLAG_INT_RX);; mret tt
      else if has_flag oflag RT_DEVICE_FLAG_DMA_RX then
        (if size =? 0 then
           p ← serial_malloc sizeof_rx_dma;
           upd_serial dev (set_rx (RxDma p false))
         else
           p ← serial_malloc (sizeof_rx_fifo + size);
           upd_serial dev (set_rx (RxInt p (new_fifo size)));;
           ops (uart_control dev RT_DEVICE_CTRL_CONFIG RT_DEVICE_FLAG_DMA_RX);; mret tt);;
        upd_open_flag dev (Z.lor RT_DEVICE_FLAG_DMA_RX)
      else upd_serial dev (set_rx RxNull)
  | _ =>
      if has_flag oflag RT_DEVICE_FLAG_INT_RX then upd_open_flag dev (Z.lor RT_DEVICE_FLAG_INT_RX)
      else if has_flag oflag RT_DEVICE_FLAG_DMA_RX then upd_open_flag dev (Z.lor RT_DEVICE_FLAG_DMA_RX)
      else mret tt
  end.
Definition open_tx (dev oflag : Z) : SM unit :=
  x ← serial_at dev;
  match serial_tx x with
  | TxNull =>
      if has_flag oflag RT_DEVICE_FLAG_INT_TX then
        p ← serial_malloc sizeof_tx_fifo;
        ccall (rt_completion_init p);;
        upd_serial dev (set_tx (TxInt p));;
        upd_open_flag dev (Z.lor RT_DEVICE_FLAG_INT_TX);;
        ops (uart_control dev RT_DEVICE_CTRL_SET_INT RT_DEVICE_FLAG_INT_TX);; mret tt
      else if has_flag oflag RT_DEVICE_FLAG_DMA_TX then
        p ← serial_malloc sizeof_tx_dma;
        dcall (rt_data_queue_init (tx_queue p) 8 4 0);;
        upd_serial dev (set_tx (TxDma p false));;
        upd_open_flag dev (Z.lor RT_DEVICE_FLAG_DMA_TX);;
        ops (uart_control dev RT_DEVICE_CTRL_CONFIG RT_DEVICE_FLAG_DMA_TX);; mret tt
      else upd_serial dev (set_tx TxNull)
  | _ =>
      if has_flag oflag RT_DEVICE_FLAG_INT_TX then upd_open_flag dev (Z.lor RT_DEVICE_FLAG_INT_TX)
      else if has_flag oflag RT_DEVICE_FLAG_DMA_TX then upd_open_flag dev (Z.lor RT_DEVICE_FLAG_DMA_TX)
      else mret tt
  end.
(** An opening may only ask for what the registration offers. *)
Definition mode_refused (d : rt_device) (oflag : Z) : bool :=
  existsb (λ m, has_flag oflag m && negb (has_flag (dev_flag d) m))
    [RT_DEVICE_FLAG_DMA_RX; RT_DEVICE_FLAG_DMA_TX; RT_DEVICE_FLAG_INT_RX; RT_DEVICE_FLAG_INT_TX].
Definition rt_serial_open (dev oflag : Z) : SM Z :=
  RT_ASSERT (negb (dev =? 0));;
  d ← kcall (device_at dev);
  if mode_refused d oflag then mret (- RT_EIO) else
  let stream_flag :=
    if has_flag oflag RT_DEVICE_FLAG_STREAM || has_flag (dev_open_flag d) RT_DEVICE_FLAG_STREAM
    then RT_DEVICE_FLAG_STREAM else 0 in
  upd_open_flag dev (λ _, Z.land oflag 0xff);;
  open_rx dev oflag;;
  open_tx dev oflag;;
  upd_open_flag dev (Z.lor stream_flag);;
  mret RT_EOK.

Definition clear_bits (m x : Z) : Z := Z.land x (Z.lnot m).
Definition close_rx (dev : Z) : SM unit :=
  int ← dev_has dev RT_DEVICE_FLAG_INT_RX; dma ← dev_has dev RT_DEVICE_FLAG_DMA_RX;
  x ← serial_at dev;
  let mode := if int : bool then RT_DEVICE_FLAG_INT_RX else RT_DEVICE_FLAG_DMA_RX in
  when (int || dma)
    (p ← lift (match serial_rx x with RxNull => None | RxInt p _ | RxDma p _ => Some p end);
     kcall (lift_heap (rt_free p));;
     upd_serial dev (set_rx RxNull);;
     upd_open_flag dev (clear_bits mode);;
     ops (uart_control dev RT_DEVICE_CTRL_CLR_INT mode);; mret tt).
Definition close_tx (dev : Z) : SM unit :=
  int ← dev_has dev RT_DEVICE_FLAG_INT_TX; dma ← dev_has dev RT_DEVICE_FLAG_DMA_TX;
  if int : bool then
    x ← serial_at dev;
    p ← lift (match serial_tx x with TxNull => None | TxInt p | TxDma p _ => Some p end);
    kcall (lift_heap (rt_free p));;
    upd_serial dev (set_tx TxNull);;
    upd_open_flag dev (clear_bits RT_DEVICE_FLAG_INT_TX);;
    ops (uart_control dev RT_DEVICE_CTRL_CLR_INT RT_DEVICE_FLAG_INT_TX);; mret tt
  else when dma
    ('(addr, _) ← tx_dma dev;
     dcall (rt_data_queue_deinit (tx_queue addr));;
     kcall (lift_heap (rt_free addr));;
     upd_serial dev (set_tx TxNull);;
     upd_open_flag dev (clear_bits RT_DEVICE_FLAG_DMA_TX);;
     ops (uart_control dev RT_DEVICE_CTRL_CLR_INT RT_DEVICE_FLAG_DMA_TX);; mret tt).
Definition rt_serial_close (dev : Z) : SM Z :=
  RT_ASSERT (negb (dev =? 0));;
  d ← kcall (device_at dev);
  if 1 <? dev_ref_count d then mret RT_EOK else
  close_rx dev;;
  close_tx dev;;
  ops (uart_control dev RT_DEVICE_CTRL_CLOSE 0);;
  kcall (upd_device dev (λ d, set_dev_flag (clear_bits RT_DEVICE_FLAG_ACTIVATED (dev_flag d)) d));;
  mret RT_EOK.

(** The size is below 2^31: the loops count it in an int. *)
Definition rt_serial_read (dev size : Z) : SM (Z * list Z) :=
  RT_ASSERT (negb (dev =? 0));;
  if size =? 0 then mret (0, []) else
  int ← dev_has dev RT_DEVICE_FLAG_INT_RX; dma ← dev_has dev RT_DEVICE_FLAG_DMA_RX;
  if int : bool then data ← _serial_int_rx dev (Z.to_nat size); mret (Z.of_nat (length data), data)
  else if dma : bool then _serial_dma_rx dev size
  else data ← _serial_poll_rx dev (Z.to_nat size); mret (Z.of_nat (length data), data).
(** Which wait a write is in. *)
Inductive write_wait := WaitInt (w : tx_wait) | WaitDma (f : dq_frame).
Definition wait_map {F A} (g : F → write_wait) (r : call F A) : call write_wait A :=
  match r with Ret x => Ret x | Wait f => Wait (g f) end.
Definition rt_serial_write (dev data_ptr : Z) (data : list Z) : SM (call write_wait Z) :=
  RT_ASSERT (negb (dev =? 0));;
  if Z.of_nat (length data) =? 0 then mret (Ret 0) else
  int ← dev_has dev RT_DEVICE_FLAG_INT_TX; dma ← dev_has dev RT_DEVICE_FLAG_DMA_TX;
  if int : bool then r ← _serial_int_tx dev data; mret (wait_map WaitInt r)
  else if dma : bool then r ← _serial_dma_tx dev data_ptr data; mret (wait_map WaitDma r)
  else _serial_poll_tx dev data;; mret (Ret (Z.of_nat (length data))).

(** [args] is what the third argument points to; None is RT_NULL. *)
Definition control_config (dev : Z) (args : option serial_configure) : SM Z :=
  match args with
  | None => mret RT_EOK
  | Some pconfig =>
      x ← serial_at dev; d ← kcall (device_at dev);
      if negb (bufsz pconfig =? bufsz (config x)) && negb (dev_ref_count d =? 0) then mret RT_EBUSY else
      upd_serial dev (set_config pconfig);;
      when (negb (dev_ref_count d =? 0)) (ops (uart_configure dev pconfig);; mret tt);;
      mret RT_EOK
  end.
Definition rt_serial_control (dev cmd arg : Z) (args : option serial_configure) : SM Z :=
  RT_ASSERT (negb (dev =? 0));;
  if cmd =? RT_DEVICE_CTRL_SUSPEND then
    kcall (upd_device dev (λ d, set_dev_flag (Z.lor (dev_flag d) RT_DEVICE_FLAG_SUSPENDED) d));; mret RT_EOK
  else if cmd =? RT_DEVICE_CTRL_RESUME then
    kcall (upd_device dev (λ d, set_dev_flag (clear_bits RT_DEVICE_FLAG_SUSPENDED (dev_flag d)) d));; mret RT_EOK
  else if cmd =? RT_DEVICE_CTRL_CONFIG then control_config dev args
  else ops (uart_control dev cmd arg).

Definition rt_hw_serial_register (dev : Z) (name : list Z) (flag data : Z) : SM Z :=
  RT_ASSERT (negb (dev =? 0));;
  kcall (upd_device dev (λ d, Device RT_Device_Class_Char (dev_flag d) (dev_open_flag d) (dev_ref_count d)
    (dev_device_id d) 0 0 addr_serial_init addr_serial_open addr_serial_close addr_serial_read addr_serial_write
    addr_serial_control data));;
  kcall (rt_device_register dev name flag).

(** ** The interrupt service routine *)

(** One character into the buffer; the oldest one gives way. *)
Definition isr_store (dev ch : Z) : SM unit :=
  f ← rx_fifo dev; size ← get_bufsz dev;
  RT_ASSERT (Z.to_nat (put_index f) <? length (rx_buffer f))%nat;;
  let buffer := <[Z.to_nat (put_index f) := u8 ch]> (rx_buffer f) in
  let put := u16 (put_index f + 1) in
  let put := if size <=? put then 0 else put in
  if put =? get_index f then
    let get := u16 (get_index f + 1) in
    set_fifo dev (RxFifo buffer put (if size <=? get then 0 else get) true);;
    _serial_check_buffer_size
  else set_fifo dev (RxFifo buffer put (get_index f) (is_full f)).
(** The loop ends when the driver has no more characters. *)
Fixpoint isr_rx_loop (fuel : nat) (dev : Z) : SM unit :=
  match fuel with
  | O => fail
  | S fuel =>
      ch ← ops (uart_getc dev);
      if ch =? -1 then mret tt else isr_store dev ch;; isr_rx_loop fuel dev
  end.
Definition rx_indicate (dev length : Z) : SM unit :=
  d ← kcall (device_at dev); kcall (rx_indicate_fn (dev_rx_indicate d) dev length);; mret tt.
(** [rx_indicate] when there is one and there are characters. *)
Definition isr_indicate (dev : Z) : SM unit :=
  d ← kcall (device_at dev);
  when (is_fn (dev_rx_indicate d))
    (f ← rx_fifo dev; size ← get_bufsz dev;
     let rx_length := if get_index f <=? put_index f then put_index f - get_index f
                      else u32 (size - (get_index f - put_index f)) in
     when (negb (rx_length =? 0)) (rx_indicate dev rx_length)).
(** The data of a transfer are read from the memory at their address, [mem]. *)
Definition isr_tx_dmadone (dev : Z) (mem : Z → Z → list Z) : SM unit :=
  '(addr, _) ← tx_dma dev;
  last ← dcall (rt_data_queue_pop (tx_queue addr) 0);
  next ← dcall (rt_data_queue_peek (tx_queue addr));
  match next with
  | (0, Some (data_ptr, data_size)) =>
      upd_serial dev (set_tx (TxDma addr true));;
      ops (uart_dma_transmit dev (mem data_ptr data_size) data_size RT_SERIAL_DMA_TX);; mret tt
  | _ => upd_serial dev (set_tx (TxDma addr false))
  end;;
  d ← kcall (device_at dev);
  when (is_fn (dev_tx_complete d))
    (last_data_ptr ← lift (match last with Ret (_, Some x) => Some x.1 | _ => None end);
     kcall (tx_complete_fn (dev_tx_complete d) dev last_data_ptr);; mret tt).
Definition isr_rx_dmadone (dev length : Z) : SM unit :=
  d ← kcall (device_at dev); size ← get_bufsz dev;
  if size =? 0 then
    '(addr, _) ← rx_dma dev;
    RT_ASSERT (is_fn (dev_rx_indicate d));;
    rx_indicate dev length;;
    upd_serial dev (set_rx (RxDma addr false))
  else
    rt_dma_recv_update_put_index dev length;;
    length ← rt_dma_calc_recved_len dev;
    when (is_fn (dev_rx_indicate d)) (rx_indicate dev length).
(** [fuel] bounds the characters of one interrupt. *)
Definition rt_hw_serial_isr (fuel : nat) (mem : Z → Z → list Z) (dev event : Z) : SM unit :=
  let ev := Z.land event 0xff in
  if ev =? RT_SERIAL_EVENT_RX_IND then rx_fifo dev;; isr_rx_loop fuel dev;; isr_indicate dev
  else if ev =? RT_SERIAL_EVENT_TX_DONE then tx ← tx_fifo dev; ccall (rt_completion_done tx)
  else if ev =? RT_SERIAL_EVENT_TX_DMADONE then isr_tx_dmadone dev mem
  else if ev =? RT_SERIAL_EVENT_RX_DMADONE then
    isr_rx_dmadone dev (Z.shiftr (Z.land event (Z.lnot 0xff)) 8)
  else mret tt.
End serial.
