(* ===== verification/SerialRx.v ===== *)
(** What the receive buffer of a serial device holds: characters that interrupts or a DMA channel
    put in and rt_serial_read takes out. In interrupt mode the device is a queue of
    [bufsz - 1] characters that drops the oldest ones. *)
From S2P Require Import Prelude Kservice Mem KState Sched Object Timer Thread DriverIpc DataQueue Completion Device Serial.

(** * The ring of the buffer *)

Definition slot (f : rt_serial_rx_fifo) (size i : Z) : nat := Z.to_nat ((get_index f + i) mod size).
Definition contents (f : rt_serial_rx_fifo) (size : Z) : list Z :=
  (λ i, default 0 (rx_buffer f !! slot f size i)) <$> seqZ 0 (recved_len f size).
Record fifo_ok (size : Z) (f : rt_serial_rx_fifo) : Prop := {
  fo_size : 0 < size < 65536;
  fo_buffer : Z.of_nat (length (rx_buffer f)) = size;
  fo_get : 0 ≤ get_index f < size;
  fo_put : 0 ≤ put_index f < size;
  fo_bytes : Forall (λ c, 0 ≤ c < 256) (rx_buffer f)
}.
(** The newest [n] elements. *)
Definition lastn {A} (n : nat) (l : list A) : list A := drop (length l - n) l.

Lemma lastn_all {A} n (l : list A) : (length l ≤ n)%nat → lastn n l = l.
Proof. intros. unfold lastn. by replace (length l - n)%nat with 0%nat by lia. Qed.
Lemma lastn_app {A} n (l k : list A) : lastn n (lastn n l ++ k) = lastn n (l ++ k).
Proof.
  unfold lastn at 1 2. rewrite length_app, length_drop.
  destruct (decide (length l ≤ n)%nat).
  - replace (length l - n)%nat with 0%nat by lia. rewrite drop_0. unfold lastn. rewrite length_app. f_equal. lia.
  - rewrite <-(drop_app_le l k (length l - n)%nat), drop_drop by lia. unfold lastn. rewrite length_app. f_equal. lia.
Qed.
Lemma length_lastn {A} n (l : list A) : (length (lastn n l) ≤ n)%nat.
Proof. unfold lastn. rewrite length_drop. lia. Qed.

Section ring.
Implicit Types f : rt_serial_rx_fifo.

Lemma next_mod i size : 0 ≤ i < size → size < 65536 →
  (if size <=? u16 (i + 1) then 0 else u16 (i + 1)) = (i + 1) mod size.
Proof.
  intros Hi Hs. rewrite u16_small by lia. destruct (Z.leb_spec size (i + 1)).
  - replace (i + 1) with size by lia. by rewrite Z.mod_same by lia.
  - by rewrite Z.mod_small by lia.
Qed.
Lemma recved_len_mod size f : fifo_ok size f →
  recved_len f size = if decide (put_index f = get_index f) then if is_full f then size else 0
                      else (put_index f - get_index f) mod size.
Proof.
  intros [Hs _ Hg Hp _]. unfold recved_len. case_decide as E.
  - rewrite (proj2 (Z.eqb_eq _ _) E). by destruct (is_full f).
  - rewrite (proj2 (Z.eqb_neq _ _) E). destruct (Z.ltb_spec (get_index f) (put_index f)).
    + by rewrite Z.mod_small by lia.
    + rewrite <-(Z.mod_add _ 1) by lia. rewrite Z.mod_small; lia.
Qed.
Lemma recved_len_range size f : fifo_ok size f → 0 ≤ recved_len f size ≤ size.
Proof.
  intros Hf. rewrite recved_len_mod by done. pose proof (fo_size _ _ Hf).
  repeat case_match; [lia..|]. pose proof (Z.mod_pos_bound (put_index f - get_index f) size). lia.
Qed.
Lemma length_contents size f : fifo_ok size f → Z.of_nat (length (contents f size)) = recved_len f size.
Proof. intros Hf. unfold contents. rewrite length_fmap, length_seqZ. pose proof (recved_len_range _ _ Hf). lia. Qed.
(** Where the next character goes. *)
Lemma put_slot size f : fifo_ok size f → recved_len f size < size → 
  (get_index f + recved_len f size) mod size = put_index f.
Proof.
  intros Hf Hlt. rewrite recved_len_mod in * by done. destruct Hf as [Hs _ Hg Hp _].
  case_decide as E; [destruct (is_full f); [lia|]|].
  - rewrite Z.add_0_r, Z.mod_small; lia.
  - rewrite Z.add_mod_idemp_r by lia. replace (get_index f + (put_index f - get_index f)) with (put_index f) by lia.
    apply Z.mod_small. lia.
Qed.
Lemma slot_lt size f i : fifo_ok size f → (slot f size i < length (rx_buffer f))%nat.
Proof. intros [Hs Hb _ _ _]. unfold slot. pose proof (Z.mod_pos_bound (get_index f + i) size). lia. Qed.

(** The oldest character leaves. *)
Lemma contents_take size f b :
  fifo_ok size f → 0 < recved_len f size →
  let f' := RxFifo (rx_buffer f) (put_index f) ((get_index f + 1) mod size) b in
  b = false → 
  ∃ c, rx_buffer f !! Z.to_nat (get_index f) = Some c ∧ contents f size = c :: contents f' size ∧ fifo_ok size f'.
Proof.
  intros Hf Hpos f' Eb. pose proof (recved_len_range _ _ Hf) as Hr. pose proof Hf as [Hs Hb Hg Hp Hby].
  assert (fifo_ok size f') as Hf'.
  { constructor; simpl; try done. apply Z.mod_pos_bound. lia. }
  assert (recved_len f' size = recved_len f size - 1) as El.
  { rewrite !recved_len_mod in * by done. simpl. subst b.
    case_decide as E1; [destruct (is_full f); [|lia]|]; case_decide as E2.
    - rewrite E1 in E2. destruct (decide (get_index f + 1 = size)) as [E3|E3].
      + rewrite E3, Z.mod_same in E2 by lia. lia.
      + rewrite Z.mod_small in E2 by lia. lia.
    - rewrite Zminus_mod_idemp_r, E1. replace (get_index f - (get_index f + 1)) with (-1) by lia.
      rewrite <-(Z.mod_add _ 1) by lia. rewrite Z.mod_small; lia.
    - assert ((put_index f - get_index f) mod size = 1) as ->; [|lia]. rewrite E2.
      rewrite Zminus_mod_idemp_l. replace (get_index f + 1 - get_index f) with 1 by lia.
      apply Z.mod_small. assert (size ≠ 1) by (intros ->; lia). lia.
    - rewrite Zminus_mod_idemp_r. replace (put_index f - (get_index f + 1)) with (put_index f - get_index f - 1) by lia.
      rewrite <-(Z.mod_small ((put_index f - get_index f) mod size - 1) size).
      + by rewrite Zminus_mod_idemp_l.
      + pose proof (Z.mod_pos_bound (put_index f - get_index f) size). lia. }
  destruct (lookup_lt_is_Some_2 (rx_buffer f) (Z.to_nat (get_index f))) as [c Hc]; [lia|].
  exists c. split_and!; [done| |done]. unfold contents.
  rewrite El, seqZ_cons by lia. rewrite fmap_cons. f_equal.
  - unfold slot. by rewrite Z.add_0_r, Z.mod_small, Hc by lia.
  - replace (Z.pred (recved_len f size)) with (recved_len f size - 1) by lia.
    change (Z.succ 0) with (1 + 0). rewrite <-fmap_add_seqZ, <-list_fmap_compose. apply list_fmap_ext. intros i j _. simpl.
    unfold slot. simpl. do 3 f_equal. rewrite Z.add_mod_idemp_l by lia. f_equal. lia.
Qed.
(** A character is put behind the others. *)
Lemma contents_put size f c b :
  fifo_ok size f → recved_len f size < size - 1 → 0 ≤ c < 256 →
  let f' := RxFifo (<[Z.to_nat (put_index f) := c]> (rx_buffer f)) ((put_index f + 1) mod size) (get_index f) b in
  contents f' size = contents f size ++ [c] ∧ fifo_ok size f' ∧ put_index f' ≠ get_index f'.
Proof.
  intros Hf Hlt Hc f'. pose proof (recved_len_range _ _ Hf) as Hr. pose proof Hf as [Hs Hb Hg Hp Hby].
  pose proof (put_slot _ _ Hf ltac:(lia)) as Eput.
  assert (fifo_ok size f') as Hf'.
  { constructor; simpl; try done; [by rewrite length_insert|apply Z.mod_pos_bound; lia|by apply Forall_insert]. }
  assert (put_index f' ≠ get_index f' ∧ recved_len f' size = recved_len f size + 1) as [Hne El].
  { assert ((put_index f' - get_index f') mod size = recved_len f size + 1) as E.
    { simpl. rewrite <-Eput, Z.add_mod_idemp_l, Zminus_mod_idemp_l by lia.
      replace (get_index f + recved_len f size + 1 - get_index f) with (recved_len f size + 1) by lia.
      apply Z.mod_small. lia. }
    assert (put_index f' ≠ get_index f') as Hne.
    { intros Eq. rewrite Eq, Z.sub_diag, Z.mod_0_l in E by lia. lia. }
    split; [done|]. rewrite recved_len_mod by done. by rewrite decide_False. }
  split_and!; [|done..]. unfold contents. rewrite El.
  replace (recved_len f size + 1) with (Z.of_nat (S (Z.to_nat (recved_len f size)))) by lia.
  rewrite seqZ_S, fmap_app. f_equal.
  - rewrite Z2Nat.id by lia. apply list_fmap_ext. intros i j Hj%list_elem_of_lookup_2.
    apply elem_of_seqZ in Hj. f_equal. simpl. rewrite list_lookup_insert_ne; [done|].
    unfold slot. rewrite <-Eput. intros E%Z2Nat.inj; [|apply Z.mod_pos_bound; lia..].
    apply (f_equal (λ x, (x - get_index f) mod size)) in E. rewrite !Zminus_mod_idemp_l in E.
    replace (get_index f + recved_len f size - get_index f) with (recved_len f size) in E by lia.
    replace (get_index f + j - get_index f) with j in E by lia. simpl in E. rewrite !Z.mod_small in E; lia.
  - rewrite Z.add_0_l, Z2Nat.id by lia. cbn [fmap list_fmap]. f_equal. unfold slot. cbn [get_index rx_buffer f'].
    rewrite Eput, list_lookup_insert_eq; [done|]. lia.
Qed.
End ring.

(** * Receiving by interrupt *)

Section receive.
Context `{CB : Callbacks} `{DC : DqCallbacks} `{SC : SerialCallbacks} {HW : Type} `{UO : !UartOps HW}.
Abbreviation SM := (M (sstate HW)).
Implicit Types (s : sstate HW) (x : rt_serial) (f : rt_serial_rx_fifo).

Lemma wp_kcall {A} (m : K A) (Q : A → sstate HW → Prop) s :
  wp (kcall m) Q s ↔ wp m (λ r k, Q r (put_kernel k s)) (s_kernel s).
Proof. unfold wp, kcall. by destruct (m (s_kernel s)) as [[??]|]. Qed.
Lemma wp_ops {A} (g : HW → A * HW) (Q : A → sstate HW → Prop) s :
  wp (ops g) Q s ↔ Q (g (s_hw s)).1 (put_hw (g (s_hw s)).2 s).
Proof. done. Qed.
#[local] Hint Rewrite @wp_kcall @wp_ops : wp.
Lemma wp_serial_at s dev x (Q : rt_serial → sstate HW → Prop) :
  s_serials s !! dev = Some x → Q x s → wp (serial_at dev) Q s.
Proof. intros E HQ. unfold serial_at. wp_simpl. by rewrite E. Qed.

(** The device [dev] receives into the buffer [f]. *)
Record receiving (dev : Z) (x : rt_serial) (a : Z) (f : rt_serial_rx_fifo) s : Prop := {
  rv_serial : s_serials s !! dev = Some x;
  rv_rx : serial_rx x = RxInt a f;
  rv_fifo : fifo_ok (bufsz (config x)) f;
  rv_int : is_full f = true → put_index f ≠ get_index f
}.
Definition with_fifo (dev : Z) (x : rt_serial) (a : Z) (f : rt_serial_rx_fifo) (out : bool) s : sstate HW :=
  SState (s_kernel s) (s_queues s) (s_flags s) (<[dev := set_rx (RxInt a f) x]> (s_serials s)) out (s_hw s).

Lemma wp_rx_fifo s dev x a f (Q : rt_serial_rx_fifo → sstate HW → Prop) :
  s_serials s !! dev = Some x → serial_rx x = RxInt a f → Q f s → wp (rx_fifo dev) Q s.
Proof. intros Hx E HQ. unfold rx_fifo. wp_simpl. eapply wp_serial_at; [done|]. by rewrite E. Qed.
Lemma wp_get_bufsz s dev x (Q : Z → sstate HW → Prop) :
  s_serials s !! dev = Some x → Q (bufsz (config x)) s → wp (get_bufsz dev) Q s.
Proof. intros Hx HQ. unfold get_bufsz. wp_simpl. eapply wp_serial_at; [done|]. by wp_simpl. Qed.
Lemma wp_set_fifo s dev x a f f' (Q : unit → sstate HW → Prop) :
  s_serials s !! dev = Some x → serial_rx x = RxInt a f → Q tt (with_fifo dev x a f' (already_output s) s) →
  wp (set_fifo dev f') Q s.
Proof.
  intros Hx E HQ. unfold set_fifo, upd_serial. wp_simpl. eapply wp_serial_at; [done|]. wp_simpl. by rewrite E.
Qed.
Lemma with_fifo_receiving dev x a f f' out s :
  receiving dev x a f s → fifo_ok (bufsz (config x)) f' → (is_full f' = true → put_index f' ≠ get_index f') →
  receiving dev (set_rx (RxInt a f') x) a f' (with_fifo dev x a f' out s).
Proof. intros [] ??. constructor; simpl; try done. by rewrite lookup_insert_eq. Qed.

(** What a step does to the buffer. *)
Definition fifo_step (dev : Z) (x : rt_serial) (a : Z) (f' : rt_serial_rx_fifo) s s' : Prop :=
  ∃ out, s' = with_fifo dev x a f' out s ∧ receiving dev (set_rx (RxInt a f') x) a f' s'.

Lemma recved_full f size b :
  recved_len (RxFifo (rx_buffer f) (put_index f) (get_index f) b) size = recved_len f size ∨ put_index f = get_index f.
Proof. unfold recved_len. simpl. destruct (Z.eqb_spec (put_index f) (get_index f)); auto. Qed.
Lemma isr_store_run dev x a f ch s :
  receiving dev x a f s → 2 ≤ bufsz (config x) →
  wp (isr_store dev ch) (λ _ s', ∃ f', fifo_step dev x a f' s s' ∧
    contents f' (bufsz (config x)) = lastn (Z.to_nat (bufsz (config x) - 1)) (contents f (bufsz (config x)) ++ [u8 ch])) s.
Proof.
  intros Hr H2. pose proof Hr as [Hx Erx Hf Hint]. pose proof Hf as [Hs Hb Hg Hp Hby]. set (n := bufsz (config x)) in *.
  unfold isr_store. wp_simpl. eapply wp_rx_fifo; [done..|]. wp_simpl. eapply wp_get_bufsz; [done|]. fold n. wp_simpl.
  split; [apply Nat.ltb_lt; lia|]. rewrite !next_mod by lia.
  pose proof (recved_len_range _ _ Hf) as Hrange. pose proof (length_contents _ _ Hf) as Hlen.
  assert (recved_len f n < n) as Hlt.
  { rewrite recved_len_mod by done. case_decide as E; [destruct (is_full f); [by destruct Hint|lia]|].
    apply Z.mod_pos_bound. lia. }
  pose proof (put_slot _ _ Hf Hlt) as Eput. destruct (Z.eqb_spec ((put_index f + 1) mod n) (get_index f)) as [E|E].
  - assert (recved_len f n = n - 1) as El.
    { rewrite recved_len_mod by done. rewrite decide_False.
      - rewrite <-E, Zminus_mod_idemp_r. replace (put_index f - (put_index f + 1)) with (n - 1 + -1 * n) by lia.
        rewrite Z.mod_add by lia. apply Z.mod_small. lia.
      - intros Eq. rewrite <-E in Eq. destruct (decide (put_index f + 1 = n)) as [E3|].
        + rewrite E3, Z.mod_same in Eq by lia. lia.
        + rewrite Z.mod_small in Eq by lia. lia. }
    destruct (contents_take n f false Hf ltac:(lia) eq_refl) as (c & _ & Ec & Hf1).
    set (f1 := RxFifo _ _ _ false) in *.
    assert (recved_len f1 n = n - 2) as El1.
    { pose proof (length_contents _ _ Hf1). rewrite Ec in Hlen. simpl in Hlen. lia. }
    destruct (contents_put n f1 (u8 ch) true Hf1 ltac:(lia) (u8_range _)) as (Ec2 & Hf2 & Hne). simpl in Ec2, Hf2, Hne.
    wp_simpl. eapply wp_set_fifo; [done..|]. unfold _serial_check_buffer_size. wp_simpl.
    exists (RxFifo (<[Z.to_nat (put_index f) := u8 ch]> (rx_buffer f)) ((put_index f + 1) mod n)
      ((get_index f + 1) mod n) true).
    split; [exists true; split; [done|by apply (with_fifo_receiving dev x a f _ true s)]|].
    rewrite Ec2, Ec. unfold lastn. simpl. rewrite !length_app. simpl.
    pose proof (length_contents _ _ Hf1). replace (S (length (contents f1 n) + 1) - Z.to_nat (n - 1))%nat with 1%nat by lia.
    done.
  - assert (recved_len f n < n - 1) as El.
    { destruct (decide (recved_len f n = n - 1)) as [El|]; [|lia]. destruct E. rewrite El in Eput. rewrite <-Eput.
      rewrite Zplus_mod_idemp_l. replace (get_index f + (n - 1) + 1) with (get_index f + 1 * n) by lia.
      rewrite Z.mod_add by lia. by apply Z.mod_small. }
    destruct (contents_put n f (u8 ch) (is_full f) Hf El (u8_range _)) as (Ec & Hf' & Hne).
    eapply wp_set_fifo; [done..|].
    exists (RxFifo (<[Z.to_nat (put_index f) := u8 ch]> (rx_buffer f)) ((put_index f + 1) mod n)
      (get_index f) (is_full f)). split; [eexists; split; [done|]|].
    + by apply (with_fifo_receiving dev x a f _ _ s).
    + rewrite Ec, lastn_all; [done|]. rewrite length_app. simpl. lia.
Qed.

Lemma fifo_step_refl dev x a f s : receiving dev x a f s → fifo_step dev x a f s s.
Proof.
  intros Hr. pose proof Hr as [Hx E Hf Hi]. assert (set_rx (RxInt a f) x = x) as Ex by (destruct x; simpl in *; by subst).
  exists (already_output s). rewrite Ex. split; [|done]. unfold with_fifo. rewrite Ex, insert_id by done. by destruct s.
Qed.
Lemma fifo_step_trans dev x a f1 f2 s s1 s2 :
  fifo_step dev x a f1 s s1 → fifo_step dev (set_rx (RxInt a f1) x) a f2 s1 s2 → fifo_step dev x a f2 s s2.
Proof.
  intros (o1 & -> & _) (o2 & -> & H2). exists o2. split; [|done]. unfold with_fifo. simpl. by rewrite insert_insert_eq.
Qed.

(** The characters that the driver hands out before it says that there are no more. *)
Inductive drains (dev : Z) : HW → list Z → HW → Prop :=
  | drains_end hw hw' : uart_getc dev hw = (-1, hw') → drains dev hw [] hw'
  | drains_more hw c hw1 cs hw' :
      uart_getc dev hw = (c, hw1) → c ≠ -1 → drains dev hw1 cs hw' → drains dev hw (c :: cs) hw'.

Lemma contents_short dev x a f s :
  receiving dev x a f s → 2 ≤ bufsz (config x) →
  (length (contents f (bufsz (config x))) ≤ Z.to_nat (bufsz (config x) - 1))%nat.
Proof.
  intros [_ _ Hf Hi] H2. pose proof (length_contents _ _ Hf). pose proof (fo_size _ _ Hf).
  assert (recved_len f (bufsz (config x)) < bufsz (config x)) as Hlt; [|lia].
  rewrite recved_len_mod by done. case_decide as E; [destruct (is_full f); [by destruct Hi|lia]|].
  apply Z.mod_pos_bound. lia.
Qed.
Lemma isr_rx_loop_run fuel dev x a f cs hw' s :
  receiving dev x a f s → 2 ≤ bufsz (config x) → drains dev (s_hw s) cs hw' → (length cs < fuel)%nat →
  wp (isr_rx_loop fuel dev) (λ _ s', ∃ f', fifo_step dev x a f' (put_hw hw' s) s' ∧
    contents f' (bufsz (config x)) = lastn (Z.to_nat (bufsz (config x) - 1))
      (contents f (bufsz (config x)) ++ (u8 <$> cs))) s.
Proof.
  intros Hr H2 Hd. remember (s_hw s) as hw eqn:Ehw. revert s x f fuel Hr H2 Ehw.
  induction Hd as [hw hw' E|hw c hw1 cs hw' E Hc Hd IH]; intros s x f [|fuel] Hr H2 -> Hfuel;
    try (simpl in Hfuel; lia); simpl; wp_simpl; rewrite E; simpl.
  - wp_simpl. exists f. split; [apply fifo_step_refl; by destruct Hr|].
    simpl. rewrite app_nil_r, lastn_all; [done|by eapply contents_short].
  - rewrite (proj2 (Z.eqb_neq _ _) Hc). wp_simpl.
    assert (receiving dev x a f (put_hw hw1 s)) as Hr1 by by destruct Hr.
    eapply wp_mono; [by apply (isr_store_run dev x a f)|]. intros [] s1 (f1 & Hs1 & Ec1).
    pose proof Hs1 as (out & -> & Hr1').
    eapply wp_mono; [apply (IH _ (set_rx (RxInt a f1) x) f1); [exact Hr1'|done|done|simpl in Hfuel; lia]|].
    intros [] s2 (f2 & Hs2 & Ec2). exists f2. split.
    + destruct Hs2 as (o2 & -> & H). exists o2. split; [|done]. unfold with_fifo. simpl. by rewrite insert_insert_eq.
    + simpl in Ec2. by rewrite Ec2, Ec1, lastn_app, <-app_assoc.
Qed.

(** The owner of the device is told, and leaves the device alone; [Inv] is what it needs. *)
Class IndicateLaws (dev : Z) (Inv : kernel → Prop) := {
  law_indicate fn n k : Inv k →
    wp (rx_indicate_fn fn dev n) (λ _ k', Inv k' ∧ devices k' !! dev = devices k !! dev) k;
  law_own d k : Inv k → Inv (set_devices (<[dev := d]> (devices k)) k)
}.
(** It is called when there is something to read. *)
Lemma isr_indicate_wp dev x a f d s (Q : unit → sstate HW → Prop) :
  receiving dev x a f s → devices (s_kernel s) !! dev = Some d →
  (if is_fn (dev_rx_indicate d) && negb (bool_decide (contents f (bufsz (config x)) = []))
   then ∀ n, wp (rx_indicate_fn (dev_rx_indicate d) dev n) (λ _ k', Q tt (put_kernel k' s)) (s_kernel s)
   else Q tt s) → wp (isr_indicate dev) Q s.
Proof.
  intros [Hx E Hf Hi] Hd HQ. unfold isr_indicate. wp_simpl. eapply wp_device_at; [done|]. simpl.
  assert (put_kernel (s_kernel s) s = s) as Es by (by destruct s).
  wp_simpl. rewrite Es. destruct (is_fn _); [|done]. wp_simpl. eapply wp_rx_fifo; [done..|]. wp_simpl.
  eapply wp_get_bufsz; [done|]. wp_simpl. set (n := bufsz (config x)) in *.
  pose proof (length_contents _ _ Hf) as Hlen. pose proof (recved_len_mod _ _ Hf) as Hm.
  pose proof Hf as [Hn Hb Hg Hp _]. set (len := if _ <=? _ then _ else _).
  assert (negb (len =? 0) = negb (bool_decide (contents f n = []))) as ->.
  { f_equal. transitivity (bool_decide (put_index f = get_index f)).
    - unfold len. destruct (decide (put_index f = get_index f)) as [Eq|Eq].
      { by rewrite bool_decide_true, Eq, Z.leb_refl, Z.sub_diag by done. }
      rewrite bool_decide_false by done. apply Z.eqb_neq.
      destruct (Z.leb_spec (get_index f) (put_index f)); [lia|]. rewrite u32_small by lia. lia.
    - apply bool_decide_ext. rewrite <-length_zero_iff_nil. case_decide as Eq.
      + destruct (is_full f) eqn:Ef; [by destruct Hi|]. split; [lia|done].
      + split; [done|]. intros Ez. destruct Eq. rewrite Ez in Hlen.
        destruct (Z.lt_total (put_index f) (get_index f)) as [Hlt|[?|Hlt]]; [|done|].
        * rewrite <-(Z.mod_add _ 1), Z.mod_small in Hm; lia.
        * rewrite Z.mod_small in Hm; lia. }
  destruct (bool_decide _); cbn [negb andb] in *; [by wp_simpl|]. unfold rx_indicate. wp_simpl.
  eapply wp_device_at; [done|]. wp_simpl. rewrite Es.  eapply wp_mono; [apply HQ|]. intros r k' HQ'. by wp_simpl.
Qed.

Lemma int_rx_loop_run k dev x a f data s :
  receiving dev x a f s →
  wp (int_rx_loop k dev data) (λ r s', ∃ f', fifo_step dev x a f' s s' ∧
    r = data ++ take k (contents f (bufsz (config x))) ∧
    contents f' (bufsz (config x)) = drop k (contents f (bufsz (config x)))) s.
Proof.
  revert x f data s. induction k as [|k IH]; intros x f data s Hr; simpl.
  - wp_simpl. exists f. split; [by apply fifo_step_refl|]. by rewrite app_nil_r, drop_0.
  - pose proof Hr as [Hx E Hf Hi]. wp_simpl. eapply wp_rx_fifo; [done..|]. wp_simpl.
    eapply wp_get_bufsz; [done|]. set (n := bufsz (config x)) in *.
    assert ((get_index f =? put_index f) && negb (is_full f) = bool_decide (recved_len f n = 0)) as ->.
    { pose proof (fo_size _ _ Hf). rewrite recved_len_mod by done. rewrite Z.eqb_sym. case_decide as E1.
      - rewrite (proj2 (Z.eqb_eq _ _) E1). simpl. destruct (is_full f); simpl; [rewrite bool_decide_false by lia|]; done.
      - rewrite (proj2 (Z.eqb_neq _ _) E1). simpl. symmetry. apply bool_decide_false. intros E2.
        destruct Hf as [_ _ Hg Hp _].
        destruct (Z.lt_total (put_index f) (get_index f)) as [Hlt|[?|Hlt]]; [|lia|].
        + rewrite <-(Z.mod_add _ 1), Z.mod_small in E2; lia.
        + rewrite Z.mod_small in E2; lia. }
    pose proof (length_contents _ _ Hf) as Hlen. fold n in Hlen.
    pose proof (recved_len_range _ _ Hf) as Hrange. fold n in Hrange. case_bool_decide as E0.
    + wp_simpl. exists f. split; [by apply fifo_step_refl|].
      assert (contents f n = []) as -> by (apply length_zero_iff_nil; lia). by rewrite take_nil, drop_nil, app_nil_r.
    + destruct (contents_take n f false Hf ltac:(lia) eq_refl) as (c & Hc & Ec & Hf1).
      rewrite Hc. wp_simpl. pose proof Hf as [Hs Hb Hg Hp Hby]. fold n in Hs, Hg.
      rewrite next_mod by lia. eapply wp_set_fifo; [done..|].
      assert (u8 c = c) as -> by (apply u8_small; by eapply Forall_lookup_1 in Hby).
      set (f1 := RxFifo _ _ _ false) in *.
      assert (receiving dev (set_rx (RxInt a f1) x) a f1 (with_fifo dev x a f1 (already_output s) s)) as Hr1
        by by apply (with_fifo_receiving dev x a f).
      eapply wp_mono; [apply (IH _ f1 _ _ Hr1)|]. intros r s2 (f2 & Hs2 & -> & Ec2). exists f2.
      split; [|split].
      * eapply fifo_step_trans; [|exact Hs2]. by exists (already_output s).
      * simpl. fold n. by rewrite Ec, <-app_assoc.
      * simpl in Ec2. fold n in Ec2. by rewrite Ec2, Ec.
Qed.

(** ** The device as a queue *)

(** [dev] is open for reception by interrupt with a buffer of [n] bytes, and [q] has arrived. *)
Definition buffered (dev n : Z) (q : list Z) s : Prop :=
  ∃ x a f d, receiving dev x a f s ∧ bufsz (config x) = n ∧ 2 ≤ n ∧ contents f n = q ∧
    devices (s_kernel s) !! dev = Some d.
Definition rx_open (dev n : Z) (q : list Z) s : Prop :=
  buffered dev n q s ∧ wp (dev_has dev RT_DEVICE_FLAG_INT_RX) (λ b s', b = true ∧ s' = s) s.

(** Characters arrive: the state of the hardware at an interrupt, and what it hands out;
    or a thread reads. *)
Inductive rx_event := Arrive (hw : HW) (cs : list Z) | Take (size : Z).
Definition event_ok (dev : Z) (e : rx_event) : Prop :=
  match e with Arrive hw cs => ∃ hw', drains dev hw cs hw' | Take size => 0 ≤ size < 2147483648 end.
Definition rx_do (mem : Z → Z → list Z) (dev : Z) (e : rx_event) : SM (list Z) :=
  match e with
  | Arrive hw cs =>
      modify (put_hw hw);; rt_hw_serial_isr (S (length cs)) mem dev RT_SERIAL_EVENT_RX_IND;; mret []
  | Take size => r ← rt_serial_read dev size; mret r.2
  end.
Fixpoint rx_run (mem : Z → Z → list Z) (dev : Z) (es : list rx_event) : SM (list (list Z)) :=
  match es with
  | [] => mret []
  | e :: es => o ← rx_do mem dev e; os ← rx_run mem dev es; mret (o :: os)
  end.
(** The queue that keeps the newest [n - 1] characters. *)
Definition queue_do (n : Z) (e : rx_event) (q : list Z) : list Z * list Z :=
  match e with
  | Arrive _ cs => ([], lastn (Z.to_nat (n - 1)) (q ++ (u8 <$> cs)))
  | Take size => (take (Z.to_nat size) q, drop (Z.to_nat size) q)
  end.
Fixpoint queue_run (n : Z) (es : list rx_event) (q : list Z) : list (list Z) * list Z :=
  match es with
  | [] => ([], q)
  | e :: es => let x := queue_do n e q in let y := queue_run n es x.2 in (x.1 :: y.1, y.2)
  end.

Lemma wp_dev_has dev flag d s (Q : bool → sstate HW → Prop) :
  devices (s_kernel s) !! dev = Some d → Q (has_flag (dev_open_flag d) flag) s → wp (dev_has dev flag) Q s.
Proof.
  intros Hd HQ. unfold dev_has. wp_simpl. eapply wp_device_at; [done|]. simpl. wp_simpl. by destruct s.
Qed.
(** An interrupt with the characters [cs]; [P] is what the owner's function leaves behind. *)
Lemma arrive_wp dev n q d (P : kernel → Prop) mem hw cs hw' fuel s :
  buffered dev n q s → devices (s_kernel s) !! dev = Some d → drains dev hw cs hw' → (length cs < fuel)%nat →
  let q' := lastn (Z.to_nat (n - 1)) (q ++ (u8 <$> cs)) in
  (if is_fn (dev_rx_indicate d) && negb (bool_decide (q' = []))
   then ∀ len, wp (rx_indicate_fn (dev_rx_indicate d) dev len) (λ _ k', P k' ∧ devices k' !! dev = Some d) (s_kernel s)
   else P (s_kernel s)) →
  wp (modify (put_hw hw);; rt_hw_serial_isr fuel mem dev RT_SERIAL_EVENT_RX_IND)
     (λ _ s', buffered dev n q' s' ∧ P (s_kernel s') ∧ s_hw s' = hw' ∧ devices (s_kernel s') !! dev = Some d) s.
Proof.
  intros (x & a & f & d' & Hr & <- & H2 & <- & Hd') Hd Hdr Hf q' HP. simplify_eq. unfold rt_hw_serial_isr. wp_simpl.
  change (Z.land RT_SERIAL_EVENT_RX_IND 255) with 1. simpl. wp_simpl.
  assert (receiving dev x a f (put_hw hw s)) as Hr1 by by destruct Hr.
  eapply wp_rx_fifo; [apply Hr1..|]. wp_simpl. 
  eapply wp_mono; [by apply (isr_rx_loop_run fuel dev x a f cs hw')|]. intros [] s1 (f1 & (out & -> & Hr2) & Ec).
  assert (∀ k', devices k' !! dev = Some d' → buffered dev (bufsz (config x)) q'
    (put_kernel k' (with_fifo dev x a f1 out (put_hw hw' (put_hw hw s))))) as Hb.
  { intros k' Hk'. exists (set_rx (RxInt a f1) x), a, f1, d'. split_and!; try done. by destruct Hr2. }
  eapply isr_indicate_wp; [exact Hr2|done|]. simpl. rewrite Ec. fold q'. destruct (_ && _).
  - intros len. eapply wp_mono; [apply HP|]. intros r k' [Hp Hk']. split_and!; [by apply Hb|done..].
  - split_and!; [by apply (Hb (s_kernel s))|done..].
Qed.
Lemma arrive_run dev n q Inv `{!IndicateLaws dev Inv} mem hw cs hw' fuel s :
  buffered dev n q s → Inv (s_kernel s) → drains dev hw cs hw' → (length cs < fuel)%nat →
  wp (modify (put_hw hw);; rt_hw_serial_isr fuel mem dev RT_SERIAL_EVENT_RX_IND)
     (λ _ s', buffered dev n (lastn (Z.to_nat (n - 1)) (q ++ (u8 <$> cs))) s' ∧ Inv (s_kernel s') ∧
       s_hw s' = hw' ∧ devices (s_kernel s') !! dev = devices (s_kernel s) !! dev) s.
Proof.
  intros Hq Hk Hdr Hf. pose proof Hq as (x & a & f & d & _ & _ & _ & _ & Hd). rewrite Hd.
  eapply arrive_wp; [done..|]. destruct (_ && _); [|done]. intros len. rewrite <-Hd. by apply law_indicate.
Qed.
Lemma read_int_run dev n q size s :
  dev ≠ 0 → rx_open dev n q s → 0 ≤ size →
  wp (rt_serial_read dev size) (λ r s', r = (Z.of_nat (length (take (Z.to_nat size) q)), take (Z.to_nat size) q) ∧
    rx_open dev n (drop (Z.to_nat size) q) s' ∧ s_kernel s' = s_kernel s) s.
Proof.
  intros Hnz [(x & a & f & d & Hr & <- & H2 & <- & Hd) Hint] Hs. unfold rt_serial_read. wp_simpl.
  split; [by rewrite (proj2 (Z.eqb_neq _ _) Hnz)|].
  assert (has_flag (dev_open_flag d) RT_DEVICE_FLAG_INT_RX = true) as Hflag.
  { unfold dev_has in Hint. revert Hint. wp_simpl. unfold wp, device_at, deref. simpl. rewrite Hd. naive_solver. }
  destruct (Z.eqb_spec size 0) as [->|Hne].
  { wp_simpl. split_and!; [done| |done]. split; [|done]. exists x, a, f, d. done. }
  wp_simpl. eapply wp_dev_has; [done|]. wp_simpl. eapply wp_dev_has; [done|]. rewrite Hflag. wp_simpl.
  unfold _serial_int_rx. wp_simpl. eapply wp_rx_fifo; [apply Hr..|].
  eapply wp_mono; [by apply (int_rx_loop_run (Z.to_nat size) dev x a f [])|].
  intros r s1 (f1 & (out & -> & Hr1) & -> & Ec). wp_simpl. split_and!; [done| |done]. split.
  - exists (set_rx (RxInt a f1) x), a, f1, d. done.
  - eapply wp_dev_has; [done|]. done.
Qed.

(** C33. Whatever comes between, interrupts and reads of any sizes: reads give the characters that arrived,
    each once and in order, but for the oldest ones that the buffer of [n] bytes had no room
    for. *)
Theorem serial_rx_refines dev n Inv `{!IndicateLaws dev Inv} mem es q s :
  dev ≠ 0 → rx_open dev n q s → Inv (s_kernel s) → Forall (event_ok dev) es →
  wp (rx_run mem dev es) (λ outs s', outs = (queue_run n es q).1 ∧
    rx_open dev n (queue_run n es q).2 s' ∧ Inv (s_kernel s')) s.
Proof.
  intros Hnz Hq Hk Hes. revert q s Hq Hk. induction Hes as [|e es He Hes IH]; intros q s Hq Hk; simpl; [by wp_simpl|].
  assert (wp (rx_do mem dev e) (λ o s', o = (queue_do n e q).1 ∧ rx_open dev n (queue_do n e q).2 s' ∧ Inv (s_kernel s')) s)
    as Hdo.
  { destruct e as [hw cs|size].
    - destruct He as [hw' Hdr]. destruct Hq as [Hq Hint]. unfold rx_do. rewrite wp_bind, wp_modify, wp_bind.
      pose proof (arrive_run dev n q Inv mem hw cs hw' (S (length cs)) s Hq Hk Hdr ltac:(lia)) as Hw.
      rewrite wp_bind, wp_modify in Hw. eapply wp_mono; [exact Hw|].
      intros [] s1 (Hq1 & Hk1 & _ & Hd1). wp_simpl. split_and!; [done| |done]. split; [done|].
      destruct Hq1 as (x & a & f & d & _ & _ & _ & _ & Hd). rewrite Hd in Hd1.
      revert Hint. unfold dev_has. wp_simpl. unfold wp, device_at, deref. simpl. rewrite <-Hd1, Hd. simpl. intros [-> _].
      split; [done|]. by destruct s1.
    - unfold rx_do. wp_simpl. eapply wp_mono; [by apply read_int_run, He|].
      intros r s1 (-> & Hq1 & Ek). wp_simpl. simpl. by rewrite Ek. }
  wp_simpl. eapply wp_mono; [exact Hdo|]. intros o s1 (-> & Hq1 & Hk1). wp_simpl.
  eapply wp_mono; [by apply IH|]. intros os s2 (-> & Hq2 & Hk2). by wp_simpl.
Qed.

(** ** A second opening *)

Lemma has_flag_u16 (y m : Z) : Z.land 65535 m = m → has_flag (u16 y) m = has_flag y m.
Proof.
  intros Em. unfold has_flag, u16. change 65536 with (2 ^ 16). rewrite <-Z.land_ones by lia.
  change (Z.ones 16) with 65535. by rewrite <-Z.land_assoc, Em.
Qed.
Lemma has_flag_none (y m m' : Z) : Z.land y m' = 0 → Z.land m' m = m → has_flag y m = false.
Proof. intros E Em. unfold has_flag. by rewrite <-Em, Z.land_assoc, E, Z.land_0_l. Qed.
Lemma wp_upd_open_flag dev g d s (Q : unit → sstate HW → Prop) :
  devices (s_kernel s) !! dev = Some d →
  Q tt (put_kernel (set_devices (<[dev := set_dev_open_flag (u16 (g (dev_open_flag d))) d]> (devices (s_kernel s)))
    (s_kernel s)) s) → wp (upd_open_flag dev g) Q s.
Proof. intros Hd HQ. unfold upd_open_flag. wp_simpl. by eapply wp_upd_device. Qed.
(** The modes of an opening that asks for none: the receiver keeps its buffer, the device forgets that
    it is in use. *)
Lemma open_plain_run dev x a f d oflag s :
  dev ≠ 0 → receiving dev x a f s → devices (s_kernel s) !! dev = Some d → Z.land oflag 0xf00 = 0 →
  wp (rt_serial_open dev oflag) (λ r s', r = RT_EOK ∧ s_hw s' = s_hw s ∧ ∃ x' d', receiving dev x' a f s' ∧
    config x' = config x ∧
    s_kernel s' = set_devices (<[dev := d']> (devices (s_kernel s))) (s_kernel s) ∧
    has_flag (dev_open_flag d') RT_DEVICE_FLAG_INT_RX = false ∧
    has_flag (dev_open_flag d') RT_DEVICE_FLAG_DMA_RX = false) s.
Proof.
  intros Hnz Hr Hd Ho. 
  assert (∀ m, Z.land 0xf00 m = m → has_flag oflag m = false) as Hno by (intros m; by apply has_flag_none).
  unfold rt_serial_open. wp_simpl. split; [by rewrite (proj2 (Z.eqb_neq _ _) Hnz)|].
  eapply wp_device_at; [done|]. unfold mode_refused. simpl. rewrite !Hno by done. simpl. wp_simpl.
  eapply wp_upd_open_flag; [done|]. simpl. wp_simpl.
  pose proof Hr as [Hx E Hf Hi]. unfold open_rx. wp_simpl. eapply wp_serial_at; [done|]. rewrite E, !Hno by done. wp_simpl.
  unfold open_tx. wp_simpl. eapply wp_serial_at; [done|]. 
  set (stream := if _ || _ then _ else _).
  assert (∀ m, Z.land 65535 m = m → Z.land 0xf00 m = m →
    has_flag (u16 (Z.lor stream (u16 (Z.land oflag 255)))) m = false) as Hflag.
  { intros m E16 Em. rewrite has_flag_u16 by done. unfold has_flag. rewrite Z.land_lor_distr_l.
    assert (Z.land (u16 (Z.land oflag 255)) m = 0) as ->.
    { pose proof (has_flag_u16 (Z.land oflag 255) m E16) as H. unfold has_flag in H. 
      rewrite <-Z.land_assoc, <-Em, (Z.land_assoc 255) in H. change (Z.land 255 3840) with 0 in H.
      rewrite Z.land_0_l, Z.land_0_r in H. rewrite Em in H. apply negb_false_iff, Z.eqb_eq in H. done. }
    assert (Z.land stream m = 0) as ->; [|done]. rewrite <-Em, Z.land_assoc.
    assert (Z.land stream 3840 = 0) as ->; [|apply Z.land_0_l]. unfold stream. by case_match. }
  set (k1 := set_devices _ _).
  assert (∀ s1 x', receiving dev x' a f s1 → config x' = config x → s_kernel s1 = k1 → s_hw s1 = s_hw s →
    wp (upd_open_flag dev (Z.lor stream);; mret RT_EOK) (λ r s', r = RT_EOK ∧ s_hw s' = s_hw s ∧
      ∃ x' d', receiving dev x' a f s' ∧ config x' = config x ∧
        s_kernel s' = set_devices (<[dev := d']> (devices (s_kernel s))) (s_kernel s) ∧
        has_flag (dev_open_flag d') RT_DEVICE_FLAG_INT_RX = false ∧
        has_flag (dev_open_flag d') RT_DEVICE_FLAG_DMA_RX = false) s1) as Hlast.
  { intros s1 x' Hr1 Ec Ek Eh. wp_simpl. eapply wp_upd_open_flag; [rewrite Ek; apply lookup_insert_eq|]. wp_simpl. simpl.
    split_and!; [done..|]. exists x', (set_dev_open_flag (u16 (Z.lor stream (u16 (Z.land oflag 255)))) d).
    split_and!; [by destruct Hr1|done| |by apply Hflag..].
    rewrite Ek. unfold k1. destruct (s_kernel s). simpl. by rewrite insert_insert_eq. }
  setoid_rewrite wp_bind in Hlast.
  assert (receiving dev x a f (put_kernel k1 s)) as Hr1 by by destruct Hr.
  destruct (serial_tx x).
  - rewrite !Hno by done. unfold upd_serial. wp_simpl. eapply wp_serial_at; [done|]. wp_simpl.
    apply (Hlast _ (set_tx TxNull x)); [|done..]. destruct Hr. constructor; simpl; [apply lookup_insert_eq|done..].
  - rewrite !Hno by done. wp_simpl. by eapply Hlast.
  - rewrite !Hno by done. wp_simpl. by eapply Hlast.
Qed.

(** C35. After a second opening without RT_DEVICE_FLAG_INT_RX reads poll the hardware, which the interrupt
    has emptied already: the characters are in the buffer and no read finds them. *)
Theorem serial_second_open_deafens dev n q Inv `{!IndicateLaws dev Inv} mem oflag hw cs hw' hw2 size s :
  dev ≠ 0 → rx_open dev n q s → Inv (s_kernel s) → Z.land oflag 0xf00 = 0 →
  drains dev hw cs hw' → uart_getc dev hw' = (-1, hw2) →
  wp (r ← rt_serial_open dev oflag;
      modify (put_hw hw);; rt_hw_serial_isr (S (length cs)) mem dev RT_SERIAL_EVENT_RX_IND;;
      d ← rt_serial_read dev size;
      mret (r, d))
     (λ o s', o = (RT_EOK, (0, [])) ∧ buffered dev n (lastn (Z.to_nat (n - 1)) (q ++ (u8 <$> cs))) s') s.
Proof.
  intros Hnz [(x & a & f & d & Hr & En & H2 & Eq & Hd) _] Hk Ho Hdr Hend. rewrite wp_bind.
  eapply wp_mono; [by apply (open_plain_run dev x a f d)|].
  intros r s1 (-> & _ & x1 & d1 & Hr1 & Ec & Ek & Hint & Hdma).
  assert (buffered dev n q s1) as Hq1.
  { exists x1, a, f, d1. rewrite Ek. split_and!; try done; [by rewrite Ec|apply lookup_insert_eq]. }
  pose proof (arrive_run dev n q Inv mem hw cs hw' (S (length cs)) s1 Hq1 ltac:(rewrite Ek; by apply law_own) Hdr ltac:(lia)) as Hw.
  rewrite wp_bind in Hw. rewrite wp_bind. eapply wp_mono; [exact Hw|]. intros [] s2 Hw2. rewrite wp_bind.
  eapply wp_mono; [exact Hw2|]. intros [] s3 (Hq3 & _ & Eh & Hd3). rewrite Ek in Hd3. simpl in Hd3.
  rewrite lookup_insert_eq in Hd3. unfold rt_serial_read. wp_simpl.
  split; [by rewrite (proj2 (Z.eqb_neq _ _) Hnz)|]. destruct (Z.eqb_spec size 0) as [->|Hne]; [by wp_simpl|].
  wp_simpl. eapply wp_dev_has; [done|]. wp_simpl. eapply wp_dev_has; [done|]. rewrite Hint, Hdma. wp_simpl.
  unfold _serial_poll_rx. destruct (Z.to_nat size) as [|m]; simpl; wp_simpl; [done|].
  rewrite Eh, Hend. simpl. wp_simpl. split; [done|].
  destruct Hq3 as (x3 & a3 & f3 & d3 & [] & ?). exists x3, a3, f3, d3. done.
Qed.
End receive.
