(* ===== verification/SerialDma.v ===== *)
(** Reception by DMA: the channel fills the receive buffer of a serial device round and round and
    reports how far it came; the device is a queue of [bufsz] characters that drops
    the oldest ones. *)
From S2P Require Import Prelude Kservice Mem KState Sched Object Timer Thread DriverIpc DataQueue Completion Device Serial SerialRx.

(** What a channel in circular mode does to the memory, from the position [i] on. *)
Fixpoint dma_store (size i : Z) (data buffer : list Z) : list Z :=
  match data with
  | [] => buffer
  | c :: data => dma_store size ((i + 1) mod size) data (<[Z.to_nat i := c]> buffer)
  end.

Section store.
Implicit Types (data buffer : list Z).

Lemma length_dma_store size i data buffer : length (dma_store size i data buffer) = length buffer.
Proof. revert i buffer. induction data as [|c data IH]; intros i buffer; simpl; [done|]. by rewrite IH, length_insert. Qed.
Lemma dma_store_bytes size i data buffer :
  Forall (λ c, 0 ≤ c < 256) data → Forall (λ c, 0 ≤ c < 256) buffer → Forall (λ c, 0 ≤ c < 256) (dma_store size i data buffer).
Proof.
  intros Hd. revert i buffer. induction Hd as [|c data Hc Hd IH]; intros i buffer Hb; simpl; [done|].
  by apply IH, Forall_insert.
Qed.
(** Cells at a distance of [k] from the start. *)
Lemma dma_store_other size i data buffer k :
  0 ≤ i < size → Z.of_nat (length data) ≤ k < size →
  dma_store size i data buffer !! Z.to_nat ((i + k) mod size) = buffer !! Z.to_nat ((i + k) mod size).
Proof.
  revert i k buffer. induction data as [|c data IH]; intros i k buffer Hi Hk; [done|]. simpl in *.
  assert ((i + k) mod size = ((i + 1) mod size + (k - 1)) mod size) as E.
  { rewrite Z.add_mod_idemp_l by lia. f_equal. lia. }
  rewrite E, IH, <-E; [|apply Z.mod_pos_bound; lia|lia].
  apply list_lookup_insert_ne. intros E2. apply Z2Nat.inj in E2; [|lia|apply Z.mod_pos_bound; lia].
  destruct (decide (i + k < size)).
  - rewrite Z.mod_small in E2; lia.
  - rewrite <-(Z.mod_add _ (-1)), Z.mod_small in E2; lia.
Qed.
Lemma dma_store_data size i data buffer k :
  0 ≤ i < size → 0 ≤ k < Z.of_nat (length data) → Z.of_nat (length data) ≤ size → Z.of_nat (length buffer) = size →
  dma_store size i data buffer !! Z.to_nat ((i + k) mod size) = data !! Z.to_nat k.
Proof.
  revert i k buffer. induction data as [|c data IH]; intros i k buffer Hi Hk Hd Hb; [simpl in Hk; lia|]. simpl in *.
  destruct (decide (k = 0)) as [->|Hne].
  - rewrite Z.add_0_r. replace (i mod size) with (((i + 1) mod size + (size - 1)) mod size).
    2:{ rewrite Z.add_mod_idemp_l by lia. replace (i + 1 + (size - 1)) with (i + 1 * size) by lia. by rewrite Z.mod_add by lia. }
    rewrite dma_store_other; [|apply Z.mod_pos_bound; lia|lia].
    rewrite Z.add_mod_idemp_l by lia. replace (i + 1 + (size - 1)) with (i + 1 * size) by lia.
    rewrite Z.mod_add, Z.mod_small by lia. rewrite list_lookup_insert_eq; [done|lia].
  - replace ((i + k) mod size) with (((i + 1) mod size + (k - 1)) mod size).
    2:{ rewrite Z.add_mod_idemp_l by lia. f_equal. lia. }
    rewrite IH; [|apply Z.mod_pos_bound; lia|lia|lia|by rewrite length_insert].
    replace (Z.to_nat k) with (S (Z.to_nat (k - 1))) by lia. done.
Qed.
End store.

(** The buffer after a report of [len] characters, as rt_dma_recv_update_put_index leaves it. *)
Definition dma_put (f : rt_serial_rx_fifo) (size len : Z) : rt_serial_rx_fifo :=
  let put := (put_index f + len) mod size in
  let full := size <=? recved_len f size + len in
  RxFifo (rx_buffer f) put (if full then put else get_index f) full.
(** In DMA mode a buffer that is full has its indices together. *)
Definition dma_ok (f : rt_serial_rx_fifo) : Prop := is_full f = true → put_index f = get_index f.

Section ring.
Implicit Types f : rt_serial_rx_fifo.

Lemma contents_lookup size f i :
  fifo_ok size f → 0 ≤ i < recved_len f size →
  contents f size !! Z.to_nat i = rx_buffer f !! Z.to_nat ((get_index f + i) mod size).
Proof.
  intros Hf Hi. unfold contents. rewrite list_lookup_fmap, lookup_seqZ_lt by lia. simpl.
  rewrite Z2Nat.id, Z.add_0_l by lia. unfold slot.
  destruct (lookup_lt_is_Some_2 (rx_buffer f) (Z.to_nat ((get_index f + i) mod size))) as [c Hc].
  { by apply (slot_lt size f i). }
  by rewrite Hc.
Qed.
Lemma recved_dma_put size f len :
  fifo_ok size f → 0 ≤ len ≤ size → dma_ok f →
  fifo_ok size (dma_put f size len) ∧ dma_ok (dma_put f size len) ∧
  recved_len (dma_put f size len) size = Z.min size (recved_len f size + len).
Proof.
  intros Hf Hl Hd. pose proof Hf as [Hs Hb Hg Hp Hby]. pose proof (recved_len_range _ _ Hf) as Hr.
  assert (fifo_ok size (dma_put f size len)) as Hf'.
  { constructor; simpl; try done; [|apply Z.mod_pos_bound; lia]. case_match; [apply Z.mod_pos_bound; lia|done]. }
  split_and!; [done|unfold dma_ok; simpl; by intros ->|]. rewrite (recved_len_mod _ _ Hf'). simpl.
  destruct (Z.leb_spec size (recved_len f size + len)); [rewrite decide_True by done; lia|].
  pose proof (put_slot _ _ Hf ltac:(lia)) as Eput. rewrite Z.min_r by lia.
  rewrite <-Eput, Z.add_mod_idemp_l, Zminus_mod_idemp_l by lia.
  replace (get_index f + recved_len f size + len - get_index f) with (recved_len f size + len) by lia.
  rewrite (Z.mod_small (recved_len f size + len)) by lia. case_decide as E; [|done].
  destruct (decide (get_index f + recved_len f size + len < size)).
  - rewrite Z.mod_small in E; lia.
  - rewrite <-(Z.mod_add _ (-1)), Z.mod_small in E; lia.
Qed.
Lemma contents_dma_put size f data :
  fifo_ok size f → Z.of_nat (length data) ≤ size → dma_ok f → Forall (λ c, 0 ≤ c < 256) data →
  let f1 := RxFifo (dma_store size (put_index f) data (rx_buffer f)) (put_index f) (get_index f) (is_full f) in
  let f2 := dma_put f1 size (Z.of_nat (length data)) in
  fifo_ok size f2 ∧ dma_ok f2 ∧ contents f2 size = lastn (Z.to_nat size) (contents f size ++ data).
Proof.
  intros Hf Hl Hd Hdata f1 f2. pose proof Hf as [Hs Hb Hg Hp Hby]. pose proof (recved_len_range _ _ Hf) as Hr.
  pose proof (length_contents _ _ Hf) as Hlen.
  assert (fifo_ok size f1) as Hf1.
  { constructor; simpl; [done|by rewrite length_dma_store|done|done|by apply dma_store_bytes]. }
  destruct (recved_dma_put size f1 (Z.of_nat (length data)) Hf1 ltac:(lia) Hd) as (Hf2 & Hd2 & El). fold f2 in Hf2, Hd2, El.
  change (recved_len f1 size) with (recved_len f size) in El. split_and!; [done..|].
  set (L := recved_len f size) in *. set (n := Z.of_nat (length data)) in *.
  (* the position of the next character, also when the buffer is full *)
  assert ((get_index f + L) mod size = put_index f) as Eput.
  { destruct (decide (L < size)); [by apply put_slot|]. assert (L = size) as E by lia. rewrite E. pose proof E as E1.
    unfold L in E1. rewrite recved_len_mod in E1 by done. case_decide as E2.
    - rewrite E2, <-Z.add_mod_idemp_r, Z.mod_same, Z.add_0_r by lia. apply Z.mod_small. lia.
    - pose proof (Z.mod_pos_bound (put_index f - get_index f) size). lia. }
  apply list_eq_same_length with (n := Z.to_nat (Z.min size (L + n))).
  { unfold lastn. rewrite length_drop, length_app. lia. }
  { pose proof (length_contents _ _ Hf2). lia. }
  intros i c d Hi Hc Hd'. 
  assert (contents f2 size !! i = rx_buffer f1 !! Z.to_nat ((get_index f + (L + n - Z.min size (L + n) + Z.of_nat i)) mod size)) as E1.
  { rewrite <-(Nat2Z.id i) at 1. rewrite contents_lookup by (done || lia). f_equal. f_equal. unfold f2. simpl.
    change (recved_len f1 size) with L. fold n. destruct (Z.leb_spec size (L + n)).
    - rewrite Z.min_l, Z.add_mod_idemp_l by lia. rewrite <-Eput.
      rewrite <-(Z.add_assoc _ n), Z.add_mod_idemp_l by lia.
      replace (get_index f + (L + n - size + Z.of_nat i)) with (get_index f + L + (n + Z.of_nat i) + (-1) * size) by lia.
      by rewrite Z.mod_add by lia.
    - rewrite Z.min_r by lia. f_equal. lia. }
  rewrite E1 in Hc. unfold lastn in Hd'. rewrite lookup_drop, length_app in Hd'.
  set (j := L + n - Z.min size (L + n) + Z.of_nat i) in *. simpl in Hc.
  replace (length (contents f size) + length data - Z.to_nat size + i)%nat with (Z.to_nat j) in Hd' by lia.
  destruct (decide (j < L)).
  - rewrite lookup_app_l, contents_lookup in Hd' by (done || lia).
    assert ((get_index f + j) mod size = (put_index f + (j - L + size)) mod size) as E2.
    { rewrite <-Eput, Z.add_mod_idemp_l by lia. rewrite <-(Z.mod_add _ 1) by lia. f_equal. lia. }
    rewrite E2, dma_store_other, <-E2 in Hc by (fold n; lia). congruence.
  - rewrite lookup_app_r in Hd' by lia.
    assert ((get_index f + j) mod size = (put_index f + (j - L)) mod size) as E2.
    { rewrite <-Eput, Z.add_mod_idemp_l by lia. f_equal. lia. }
    rewrite E2, dma_store_data in Hc by (fold n; lia).
    replace (Z.to_nat (j - L)) with (Z.to_nat j - length (contents f size))%nat in Hc by lia. congruence.
Qed.
End ring.

(** * The device *)

Section dma.
Context `{CB : Callbacks} `{DC : DqCallbacks} `{SC : SerialCallbacks} {HW : Type} `{UO : !UartOps HW}.
Abbreviation SM := (M (sstate HW)).
Implicit Types (s : sstate HW) (x : rt_serial) (f : rt_serial_rx_fifo).
#[local] Hint Rewrite @wp_kcall @wp_ops : wp.

Record dma_receiving (dev : Z) (x : rt_serial) (a : Z) (f : rt_serial_rx_fifo) s : Prop := {
  dr_serial : s_serials s !! dev = Some x;
  dr_rx : serial_rx x = RxInt a f;
  dr_size : bufsz (config x) ≤ 32768;
  dr_fifo : fifo_ok (bufsz (config x)) f;
  dr_dma : dma_ok f
}.
Lemma with_fifo_dma dev x a f f' out s :
  dma_receiving dev x a f s → fifo_ok (bufsz (config x)) f' → dma_ok f' →
  dma_receiving dev (set_rx (RxInt a f') x) a f' (with_fifo dev x a f' out s).
Proof. intros [] ??. constructor; simpl; try done. by rewrite lookup_insert_eq. Qed.

Lemma wrap_index_mod i len size :
  0 ≤ i < size → 0 ≤ len ≤ size → size ≤ 32768 → wrap_index i len size = Some ((i + len) mod size).
Proof.
  intros Hi Hl Hs. unfold wrap_index. rewrite u16_small by lia. destruct (Z.leb_spec size (i + len)).
  - by rewrite (proj2 (Z.eqb_neq size 0)) by lia.
  - by rewrite Z.mod_small by lia.
Qed.
Lemma update_put_run dev x a f len s :
  dma_receiving dev x a f s → 0 ≤ len ≤ bufsz (config x) →
  wp (rt_dma_recv_update_put_index dev len)
     (λ _ s', ∃ out, s' = with_fifo dev x a (dma_put f (bufsz (config x)) len) out s) s.
Proof.
  intros [Hx E Hs Hf Hd] Hl. set (n := bufsz (config x)) in *. pose proof Hf as [Hn _ Hg Hp _].
  unfold rt_dma_recv_update_put_index. wp_simpl. eapply wp_rx_fifo; [done..|]. wp_simpl.
  eapply wp_get_bufsz; [done|]. fold n. rewrite wrap_index_mod by lia. wp_simpl. rewrite u16_small by lia.
  set (full := if _ <=? put_index f then _ else _).
  assert (full = (n <=? recved_len f n + len)) as ->.
  { unfold full. rewrite recved_len_mod by done. case_decide as Eq.
    - rewrite Eq, (proj2 (Z.leb_le _ _)) by lia. destruct (is_full f).
      + rewrite (proj2 (Z.leb_le n (n + len))) by lia. by case_match.
      + rewrite Z.add_0_l. destruct (Z.leb_spec n len).
        * assert (len = n) as -> by lia. rewrite (proj2 (Z.leb_le n _)) by lia. simpl.
          rewrite <-Z.add_mod_idemp_r, Z.mod_same, Z.add_0_r, Z.mod_small by lia. by rewrite Z.leb_refl.
        * destruct (Z.leb_spec n (get_index f + len)); [|done]. simpl.
          rewrite <-(Z.mod_add _ (-1)), Z.mod_small by lia. by rewrite (proj2 (Z.leb_gt _ _)) by lia.
    - assert (is_full f = false) as -> by (destruct (is_full f) eqn:Ef; [by destruct Eq; apply Hd|done]).
      destruct (Z.leb_spec (get_index f) (put_index f)).
      + rewrite (Z.mod_small (put_index f - get_index f)) by lia. destruct (Z.leb_spec n (put_index f + len)); simpl.
        * rewrite <-(Z.mod_add _ (-1)), Z.mod_small by lia.
          destruct (Z.leb_spec (get_index f) (put_index f + len + -1 * n)); symmetry; [apply Z.leb_le|apply Z.leb_gt]; lia.
        * symmetry. apply Z.leb_gt. lia.
      + rewrite <-(Z.mod_add (put_index f - get_index f) 1), (Z.mod_small (_ + _)) by lia.
        destruct (Z.leb_spec (get_index f) (put_index f + len)); symmetry; [apply Z.leb_le|apply Z.leb_gt]; lia. }
  destruct (Z.leb_spec n (recved_len f n + len)) as [Hfull|Hnot]; simpl; unfold _serial_check_buffer_size; wp_simpl.
  - eapply wp_set_fifo; [done..|]. exists true. unfold dma_put. by rewrite (proj2 (Z.leb_le _ _) Hfull).
  - eapply wp_set_fifo; [done..|]. exists (already_output s). unfold dma_put. by rewrite (proj2 (Z.leb_gt _ _) Hnot).
Qed.

(** The two parts of a read that goes round. *)
Lemma ring_read_contents size f k :
  fifo_ok size f → 0 ≤ k ≤ recved_len f size → ring_read f size k = Some (take (Z.to_nat k) (contents f size)).
Proof.
  intros Hf Hk. pose proof Hf as [Hs Hb Hg Hp _]. pose proof (recved_len_range _ _ Hf). pose proof (length_contents _ _ Hf).
  unfold ring_read. destruct (Z.ltb_spec (get_index f + k) size).
  - rewrite !(proj2 (Z.leb_le _ _)) by lia. simpl. f_equal.
    apply list_eq_same_length with (n := Z.to_nat k); [rewrite length_take; lia|rewrite length_lread; lia|].
    intros i c d Hi Hc Hd. rewrite lookup_lread, decide_True in Hc by done. rewrite lookup_take_lt in Hd by done.
    rewrite <-(Nat2Z.id i), contents_lookup in Hd by (done || lia). rewrite Z.mod_small in Hd by lia.
    replace (Z.to_nat (get_index f) + i)%nat with (Z.to_nat (get_index f + Z.of_nat i)) in Hc by lia. congruence.
  - rewrite !(proj2 (Z.leb_le _ _)) by lia. simpl. f_equal.
    apply list_eq_same_length with (n := Z.to_nat k); [rewrite length_take; lia|rewrite length_app, !length_lread; lia|].
    intros i c d Hi Hc Hd. rewrite lookup_take_lt in Hd by done.
    rewrite <-(Nat2Z.id i), contents_lookup in Hd by (done || lia).
    destruct (decide (Z.of_nat i < size - get_index f)).
    + rewrite lookup_app_l in Hc by (rewrite length_lread; lia). rewrite lookup_lread, decide_True in Hc by lia.
      rewrite Z.mod_small in Hd by lia.
      replace (Z.to_nat (get_index f) + i)%nat with (Z.to_nat (get_index f + Z.of_nat i)) in Hc by lia. congruence.
    + rewrite lookup_app_r in Hc by (rewrite length_lread; lia). rewrite length_lread in Hc by lia.
      rewrite lookup_lread, decide_True in Hc by lia. rewrite <-(Z.mod_add _ (-1)), Z.mod_small in Hd by lia.
      replace (Z.to_nat 0 + (i - Z.to_nat (size - get_index f)))%nat
        with (Z.to_nat (get_index f + Z.of_nat i + -1 * size)) in Hc by lia. congruence.
Qed.
(** What is read goes. *)
Lemma update_get_run dev x a f k s :
  dma_receiving dev x a f s → 0 ≤ k ≤ recved_len f (bufsz (config x)) →
  wp (rt_dma_recv_update_get_index dev k) (λ _ s', ∃ f', s' = with_fifo dev x a f' (already_output s) s ∧
    dma_receiving dev (set_rx (RxInt a f') x) a f' s' ∧
    contents f' (bufsz (config x)) = drop (Z.to_nat k) (contents f (bufsz (config x)))) s.
Proof.
  intros Hr Hk. pose proof Hr as [Hx E Hs Hf Hd]. set (n := bufsz (config x)) in *. pose proof Hf as [Hn Hb Hg Hp Hby].
  pose proof (recved_len_range _ _ Hf) as Hrange.
  unfold rt_dma_recv_update_get_index, rt_dma_calc_recved_len, _serial_fifo_calc_recved_len. wp_simpl.
  eapply wp_rx_fifo; [done..|]. wp_simpl. eapply wp_get_bufsz; [done|]. fold n. wp_simpl.
  eapply wp_rx_fifo; [done..|]. wp_simpl. eapply wp_get_bufsz; [done|]. fold n. wp_simpl.
  split; [apply Z.leb_le; lia|]. rewrite wrap_index_mod by lia. wp_simpl. eapply wp_set_fifo; [done..|].
  set (f' := RxFifo _ _ _ _).
  assert (fifo_ok n f') as Hf' by (constructor; simpl; try done; apply Z.mod_pos_bound; lia).
  assert (dma_ok f') as Hd'.
  { unfold dma_ok, f'. simpl. destruct (Z.eqb_spec k 0) as [->|]; simpl; [|done]. intros Hi%Hd.
    by rewrite Z.add_0_r, Z.mod_small by lia. }
  assert (recved_len f' n = recved_len f n - k) as El.
  { rewrite !recved_len_mod in * by done. simpl. destruct (Z.eqb_spec k 0) as [->|Hne]; simpl.
    - by rewrite Z.add_0_r, Z.sub_0_r, (Z.mod_small (get_index f)) by lia.
    - rewrite Zminus_mod_idemp_r. case_decide as E1.
      + destruct (is_full f); [|lia]. rewrite E1.
        replace (get_index f - (get_index f + k)) with (n - k + (-1) * n) by lia. rewrite Z.mod_add by lia.
        destruct (decide (k = n)) as [->|].
        * rewrite decide_True; [lia|]. rewrite <-Z.add_mod_idemp_r, Z.mod_same, Z.add_0_r, Z.mod_small by lia. done.
        * rewrite decide_False; [by rewrite Z.mod_small by lia|]. intros E2.
          destruct (decide (get_index f + k < n)); [rewrite Z.mod_small in E2; lia|].
          rewrite <-(Z.mod_add _ (-1)), Z.mod_small in E2; lia.
      + assert ((put_index f - (get_index f + k)) mod n = (put_index f - get_index f) mod n - k) as E3.
        { replace (put_index f - (get_index f + k)) with (put_index f - get_index f - k) by lia.
          rewrite <-(Z.mod_small ((put_index f - get_index f) mod n - k) n) by lia.
          by rewrite Zminus_mod_idemp_l. }
        case_decide as E2; [|done]. rewrite <-E3, E2, Zminus_mod_idemp_l, Z.sub_diag, Z.mod_0_l; lia. }
  exists f'. split_and!; [done| |].
  - by apply (with_fifo_dma dev x a f).
  - pose proof (length_contents _ _ Hf). pose proof (length_contents _ _ Hf').
    apply list_eq_same_length with (n := Z.to_nat (recved_len f n - k)); [rewrite length_drop; lia|lia|].
    intros i c d Hi Hc Hc'. rewrite lookup_drop in Hc'.
    replace (Z.to_nat k + i)%nat with (Z.to_nat (k + Z.of_nat i)) in Hc' by lia.
    rewrite <-(Nat2Z.id i), contents_lookup in Hc by (done || lia). rewrite contents_lookup in Hc' by (done || lia).
    simpl in Hc. rewrite Z.add_mod_idemp_l, <-Z.add_assoc in Hc by lia. congruence.
Qed.

(** ** The device as a queue *)

(** [dev] is open for reception by DMA with a buffer of [n] bytes, and [q] has arrived. *)
Definition dma_open (dev n : Z) (q : list Z) s : Prop :=
  ∃ x a f d, dma_receiving dev x a f s ∧ bufsz (config x) = n ∧ contents f n = q ∧
    devices (s_kernel s) !! dev = Some d ∧
    has_flag (dev_open_flag d) RT_DEVICE_FLAG_INT_RX = false ∧ has_flag (dev_open_flag d) RT_DEVICE_FLAG_DMA_RX = true.

(** The channel has stored [data] and interrupts; or a thread reads. *)
Inductive dma_event := Stored (data : list Z) | TakeDma (size : Z).
Definition dma_event_ok (n : Z) (e : dma_event) : Prop :=
  match e with
  | Stored data => Z.of_nat (length data) ≤ n ∧ Forall (λ c, 0 ≤ c < 256) data
  | TakeDma size => 0 ≤ size < 2147483648
  end.
(** The channel goes on where it stopped. *)
Definition channel_store (dev : Z) (data : list Z) : SM unit :=
  f ← rx_fifo dev; size ← get_bufsz dev;
  set_fifo dev (RxFifo (dma_store size (put_index f) data (rx_buffer f)) (put_index f) (get_index f) (is_full f)).
Definition dma_done (data : list Z) : Z := RT_SERIAL_EVENT_RX_DMADONE + 256 * Z.of_nat (length data).
Definition dma_do (mem : Z → Z → list Z) (dev : Z) (e : dma_event) : SM (list Z) :=
  match e with
  | Stored data => channel_store dev data;; rt_hw_serial_isr 0 mem dev (dma_done data);; mret []
  | TakeDma size => r ← rt_serial_read dev size; mret r.2
  end.
Fixpoint dma_run (mem : Z → Z → list Z) (dev : Z) (es : list dma_event) : SM (list (list Z)) :=
  match es with
  | [] => mret []
  | e :: es => o ← dma_do mem dev e; os ← dma_run mem dev es; mret (o :: os)
  end.
(** The queue that keeps the newest [n] characters. *)
Definition dma_queue_do (n : Z) (e : dma_event) (q : list Z) : list Z * list Z :=
  match e with
  | Stored data => ([], lastn (Z.to_nat n) (q ++ data))
  | TakeDma size => (take (Z.to_nat size) q, drop (Z.to_nat size) q)
  end.
Fixpoint dma_queue_run (n : Z) (es : list dma_event) (q : list Z) : list (list Z) * list Z :=
  match es with
  | [] => ([], q)
  | e :: es => let x := dma_queue_do n e q in let y := dma_queue_run n es x.2 in (x.1 :: y.1, y.2)
  end.

Lemma dma_done_event data :
  Z.land (dma_done data) 0xff = 3 ∧ Z.shiftr (Z.land (dma_done data) (Z.lnot 0xff)) 8 = Z.of_nat (length data).
Proof.
  unfold dma_done, RT_SERIAL_EVENT_RX_DMADONE. set (n := Z.of_nat _). change 255 with (Z.ones 8). split.
  - rewrite Z.land_ones by lia. replace (3 + 256 * n) with (3 + n * 2 ^ 8) by lia. by rewrite Z.mod_add by lia.
  - rewrite <-Z.ldiff_land, Z.shiftr_ldiff. change (Z.shiftr (Z.ones 8) 8) with 0.
    rewrite Z.ldiff_0_r, Z.shiftr_div_pow2 by lia.
    replace (3 + 256 * n) with (3 + n * 2 ^ 8) by lia. by rewrite Z.div_add by lia.
Qed.
Lemma stored_run dev n q Inv `{!IndicateLaws dev Inv} mem data s :
  dma_open dev n q s → Inv (s_kernel s) → dma_event_ok n (Stored data) →
  wp (dma_do mem dev (Stored data))
     (λ o s', o = [] ∧ dma_open dev n (lastn (Z.to_nat n) (q ++ data)) s' ∧ Inv (s_kernel s')) s.
Proof.
  intros (x & a & f & d & Hr & <- & <- & Hd & Hfi & Hfd) Hk [Hl Hby]. pose proof Hr as [Hx E Hs Hf Hdm].
  set (n := bufsz (config x)) in *. pose proof Hf as [Hn Hb Hg Hp Hbuf].
  destruct (contents_dma_put n f data Hf Hl Hdm Hby) as (Hf2 & Hdm2 & Ec).
  unfold dma_do, channel_store. wp_simpl. eapply wp_rx_fifo; [done..|]. wp_simpl. eapply wp_get_bufsz; [done|]. fold n.
  eapply wp_set_fifo; [done..|]. set (f1 := RxFifo _ _ _ _) in *. set (s1 := with_fifo _ _ _ _ _ _).
  assert (dma_receiving dev (set_rx (RxInt a f1) x) a f1 s1) as Hr1.
  { apply (with_fifo_dma dev x a f); [done| |done].
    constructor; simpl; [done|by rewrite length_dma_store|done|done|by apply dma_store_bytes]. }
  unfold rt_hw_serial_isr. destruct (dma_done_event data) as [-> ->]. simpl. unfold isr_rx_dmadone. wp_simpl.
  eapply wp_device_at; [done|]. wp_simpl. eapply wp_get_bufsz; [apply Hr1|]. simpl. fold n.
  rewrite (proj2 (Z.eqb_neq n 0)) by lia. wp_simpl.
  eapply wp_mono; [apply (update_put_run dev _ a f1 _ _ Hr1); simpl; fold n; lia|]. simpl. fold n.
  intros [] s2 [out ->]. set (f2 := dma_put f1 n _) in *.
  pose proof (with_fifo_dma _ _ _ _ f2 out _ Hr1 Hf2 Hdm2) as Hr2. set (s2 := with_fifo _ _ _ f2 _ _) in *. simpl in Hr2.
  wp_simpl. unfold rt_dma_calc_recved_len, _serial_fifo_calc_recved_len. wp_simpl.
  eapply wp_rx_fifo; [apply Hr2|done|]. wp_simpl. eapply wp_get_bufsz; [apply Hr2|]. wp_simpl.
  assert (∀ k', Inv k' → devices k' !! dev = Some d →
    [] = ([] : list Z) ∧ dma_open dev n (lastn (Z.to_nat n) (contents f n ++ data)) (put_kernel k' s2) ∧ Inv k') as Hend.
  { intros k' Hk' Hd'. split_and!; [done| |done].
    exists (set_rx (RxInt a f2) x), a, f2, d. split_and!; try done. by destruct Hr2. }
  destruct (is_fn _).
  - unfold rx_indicate. wp_simpl. eapply wp_device_at; [done|]. wp_simpl.
    eapply wp_mono; [by apply law_indicate|]. intros r k' [Hk' Hd']. wp_simpl. apply (Hend k'); [done|]. by rewrite Hd'.
  - wp_simpl. by apply (Hend (s_kernel s)).
Qed.
Lemma read_dma_run dev n q size s :
  dev ≠ 0 → dma_open dev n q s → 0 ≤ size →
  wp (rt_serial_read dev size) (λ r s', r = (Z.of_nat (length (take (Z.to_nat size) q)), take (Z.to_nat size) q) ∧
    dma_open dev n (drop (Z.to_nat size) q) s' ∧ s_kernel s' = s_kernel s) s.
Proof.
  intros Hnz (x & a & f & d & Hr & <- & <- & Hd & Hfi & Hfd) Hsz. pose proof Hr as [Hx E Hs Hf Hdm].
  set (n := bufsz (config x)) in *. pose proof (fo_size _ _ Hf) as Hn.
  pose proof (recved_len_range _ _ Hf) as Hrange. pose proof (length_contents _ _ Hf) as Hlen.
  unfold rt_serial_read. wp_simpl. split; [by rewrite (proj2 (Z.eqb_neq _ _) Hnz)|].
  destruct (Z.eqb_spec size 0) as [->|Hne].
  { wp_simpl. split_and!; [done| |done]. by exists x, a, f, d. }
  wp_simpl. eapply wp_dev_has; [done|]. wp_simpl. eapply wp_dev_has; [done|]. rewrite Hfi, Hfd. wp_simpl.
  unfold _serial_dma_rx, rt_dma_calc_recved_len, _serial_fifo_calc_recved_len. wp_simpl. eapply wp_get_bufsz; [done|].
  fold n. rewrite (proj2 (Z.eqb_neq n 0)) by lia. wp_simpl. eapply wp_rx_fifo; [done..|]. wp_simpl.
  eapply wp_rx_fifo; [done..|]. wp_simpl. eapply wp_get_bufsz; [done|]. fold n. wp_simpl.
  rewrite s32_small by lia. set (k := if size <? _ then _ else _).
  assert (k = Z.min size (recved_len f n)) as Ek by (unfold k; destruct (Z.ltb_spec size (recved_len f n)); lia).
  rewrite ring_read_contents by (done || lia). wp_simpl.
  eapply wp_mono; [by apply (update_get_run dev x a f); [|fold n; lia]|]. fold n.
  intros [] s1 (f1 & -> & Hr1 & Ec). wp_simpl.
  assert (take (Z.to_nat k) (contents f n) = take (Z.to_nat size) (contents f n) ∧
    drop (Z.to_nat k) (contents f n) = drop (Z.to_nat size) (contents f n)) as [Et Ed].
  { rewrite Ek. destruct (Z.min_spec size (recved_len f n)) as [[? ->]|[? ->]]; [done|].
    rewrite !take_ge, !drop_ge by lia. done. }
  split_and!; [|rewrite <-Ed, <-Ec; by exists (set_rx (RxInt a f1) x), a, f1, d|done].
  rewrite <-Et. f_equal. rewrite length_take. lia.
Qed.

(** C34. Whatever comes between, as long as the channel reports before it stores more than the buffer holds:
    reads give the characters that were stored, each once and in order, but for
    the oldest ones when more than [n] are unread. *)
Theorem serial_dma_refines dev n Inv `{!IndicateLaws dev Inv} mem es q s :
  dev ≠ 0 → dma_open dev n q s → Inv (s_kernel s) → Forall (dma_event_ok n) es →
  wp (dma_run mem dev es) (λ outs s', outs = (dma_queue_run n es q).1 ∧
    dma_open dev n (dma_queue_run n es q).2 s' ∧ Inv (s_kernel s')) s.
Proof.
  intros Hnz Hq Hk Hes. revert q s Hq Hk. induction Hes as [|e es He Hes IH]; intros q s Hq Hk; simpl; [by wp_simpl|].
  assert (wp (dma_do mem dev e) (λ o s', o = (dma_queue_do n e q).1 ∧ dma_open dev n (dma_queue_do n e q).2 s' ∧
    Inv (s_kernel s')) s) as Hdo.
  { destruct e as [data|size].
    - eapply wp_mono; [by apply (stored_run dev n q Inv)|]. done.
    - unfold dma_do. wp_simpl. eapply wp_mono; [by apply read_dma_run, He|].
      intros r s1 (-> & Hq1 & Ek). wp_simpl. simpl. by rewrite Ek. }
  wp_simpl. eapply wp_mono; [exact Hdo|]. intros o s1 (-> & Hq1 & Hk1). wp_simpl.
  eapply wp_mono; [by apply IH|]. intros os s2 (-> & Hq2 & Hk2). by wp_simpl.
Qed.
End dma.
