(* ===== verification/Console.v ===== *)
(** The console of os/kservice.c: the device that rt_kputs and rt_kprintf write to.
    _console_device, a static variable, is an argument; 0 is RT_NULL. *)
From S2P Require Import Prelude Kservice Mem KState Sched Object Timer Thread MemPool Device Printf.

Definition RT_DEVICE_FLAG_STREAM : Z := 64.
Definition RT_DEVICE_OFLAG_RDWR : Z := 3.

Section console.
Context `{CB : Callbacks}.

(** RT_WEAK, empty, and not defined by the board. *)
Definition rt_hw_console_output (str : list Z) : K unit := mret tt.
Definition rt_console_get_device (console : Z) : Z := console.
(** The new console and the result. *)
Definition rt_console_set_device (console : Z) (name : list Z) : K (Z * Z) :=
  found ← rt_device_find name;
  new_device ← match found with
               | None => mret 0
               | Some (Obj d) => mret d
               | Some _ => fail
               end;
  if new_device =? console then mret (console, 0) else
  if negb (new_device =? 0) then
    when (negb (console =? 0)) (rt_device_close console;; mret tt);;
    rt_device_open new_device (Z.lor RT_DEVICE_OFLAG_RDWR RT_DEVICE_FLAG_STREAM);;
    mret (new_device, console)
  else mret (console, console).
(** Both output functions set the stream flag around the write. *)
Definition console_write (console : Z) (bytes : list Z) : K unit :=
  d ← device_at console;
  let old_flag := dev_open_flag d in
  upd_device console (λ d, set_dev_open_flag (Z.lor (dev_open_flag d) RT_DEVICE_FLAG_STREAM) d);;
  rt_device_write console 0 bytes;;
  upd_device console (λ d,
    set_dev_open_flag (Z.lxor (dev_open_flag d) (Z.land (Z.lnot old_flag) RT_DEVICE_FLAG_STREAM)) d).
Definition rt_kputs (console : Z) (str : option (list Z)) : K unit :=
  match str with
  | None => mret tt
  | Some str =>
      if console =? 0 then rt_hw_console_output str else
      n ← lift (rt_strlen str);
      console_write console (take (Z.to_nat n) str)
  end.
(** rt_log_buf is at [log_buf] of the memory [mem]; the new memory. *)
Definition rt_kprintf (console : Z) (fmt : list Z) (args : list arg) (log_buf : Z) (mem : gmap Z Z)
    : K (gmap Z Z) :=
  '(bytes, mem) ← lift (kprintf_bytes fmt args log_buf mem);
  if console =? 0 then rt_hw_console_output bytes;; mret mem else
  console_write console bytes;; mret mem.

(** * What arrives at the device *)

Lemma stream_flag_restored x :
  Z.lxor (Z.lor x RT_DEVICE_FLAG_STREAM) (Z.land (Z.lnot x) RT_DEVICE_FLAG_STREAM) = x.
Proof.
  apply Z.bits_inj'. intros n Hn. rewrite Z.lxor_spec, Z.lor_spec, Z.land_spec, Z.lnot_spec by done.
  by destruct (Z.testbit x n), (Z.testbit RT_DEVICE_FLAG_STREAM n).
Qed.
(** The driver's write function is called once, on the device with its stream flag
    set; afterwards the flags are those it had before. *)
Lemma console_write_run k console d bytes (Q : kernel → Prop) :
  dev_ok console d k → dev_ref_count d ≠ 0 → is_fn (dev_write d) = true →
  wp (dev_write_fn (dev_write d) console 0 bytes)
    (λ _ k1, ∃ d1, devices k1 !! console = Some d1 ∧
       dev_open_flag d1 = Z.lor (dev_open_flag d) RT_DEVICE_FLAG_STREAM ∧
       Q (set_devices (<[console := set_dev_open_flag (dev_open_flag d) d1]> (devices k1)) k1))
    (set_devices (<[console := set_dev_open_flag (Z.lor (dev_open_flag d) RT_DEVICE_FLAG_STREAM) d]> (devices k)) k) →
  wp (console_write console bytes) (λ _ k', Q k') k.
Proof.
  intros Hd Hr Hf Hw. unfold console_write. wp_simpl. eapply wp_device_at; [apply Hd|]. wp_simpl.
  eapply wp_upd_device; [apply Hd|]. wp_simpl. unfold rt_device_write. wp_simpl.
  eapply assert_device_run; [eapply dev_ok_upd; [exact Hd|apply Hd]|]. wp_simpl.
  eapply wp_device_at; [apply lookup_insert_eq|]. simpl.
  rewrite (proj2 (Z.eqb_neq _ _) Hr), Hf. eapply wp_mono; [exact Hw|].
  intros r k1 (d1 & E1 & Ef & HQ). wp_simpl. eapply wp_upd_device; [done|].
  rewrite Ef, stream_flag_restored. exact HQ.
Qed.

(** C26. rt_kprintf hands the write function of the console device the text of its format
    when it has less than 127 characters; of a longer text it hands over the first 126
    and, as the 127th, the terminator of its buffer. The flags of the device are those
    it had before. *)
Theorem rt_kprintf_sends k console d fmt args text log_buf mem (Q : kernel → Prop) :
  dev_ok console d k → dev_ref_count d ≠ 0 → is_fn (dev_write d) = true →
  writes (format_loop (length fmt) fmt args) text tt →
  0 ≤ log_buf → log_buf + 128 < 4294967296 →
  log_buf + Z.of_nat (length text) < 4294967296 → Z.of_nat (length text) < 2147483648 →
  wp (dev_write_fn (dev_write d) console 0
        (if (length text <? 127)%nat then text else take 126 text ++ [0]))
    (λ _ k1, ∃ d1, devices k1 !! console = Some d1 ∧
       dev_open_flag d1 = Z.lor (dev_open_flag d) RT_DEVICE_FLAG_STREAM ∧
       Q (set_devices (<[console := set_dev_open_flag (dev_open_flag d) d1]> (devices k1)) k1))
    (set_devices (<[console := set_dev_open_flag (Z.lor (dev_open_flag d) RT_DEVICE_FLAG_STREAM) d]> (devices k)) k) →
  wp (rt_kprintf console fmt args log_buf mem) (λ _ k', Q k') k.
Proof.
  intros Hd Hr Hf Ht Hb Hl Hend Hint Hw. unfold rt_kprintf.
  destruct (kprintf_bytes_run fmt args text log_buf mem) as [mem' ->]; [done..|]. wp_simpl.
  rewrite (proj2 (Z.eqb_neq _ _) (do_nonzero _ _ _ Hd)). wp_simpl.
  eapply wp_mono; [by eapply console_write_run|]. intros u k' HQ. by apply wp_ret.
Qed.
End console.
