(* ===== verification/System.v ===== *)
(** The kernel as a transition system: the calls of the running thread and the
    tick interrupt as steps, an invariant of all reachable states, and what it
    promises: no step fails, and the running thread is always one of highest
    priority among the READY threads.

    Modelled are the steps that end with the scheduler: the tick, yielding,
    sleeping for a tick or more, making and starting a thread, making, taking
    and releasing semaphores. rt_thread_resume, rt_thread_suspend and a change of priority
    leave the call of rt_schedule to their caller. A call that waits ends with the switch to another thread; what
    it does when its thread is switched in again (rt_sem_take_resume) changes nothing but locals, and is
    no step of its own. *)
From stdpp Require Import relations.
From S2P Require Import Prelude Kservice Mem KState Sched Object Timer Thread ThreadInit Clock Ipc Sem.

Section system.
Context `{CB : Callbacks}.
(** The thread that never waits. *)
Context (idle : Z).

(** The arguments of rt_thread_init. *)
Record thread_args := ThreadArgs {
  ta_name : list Z; ta_entry : Z; ta_parameter : Z;
  ta_stack_start : Z; ta_stack_size : Z; ta_priority : Z; ta_tick : Z
}.
Record args_ok (a : thread_args) : Prop := {
  ao_name : readable 8 (ta_name a) ∧ is_bytes (ta_name a);
  ao_prio : 0 ≤ ta_priority a < RT_THREAD_PRIORITY_MAX;
  ao_stack : 0 < ta_stack_start a ∧ 76 ≤ ta_stack_size a ∧
    ta_stack_start a + ta_stack_size a < 4294967296
}.
Inductive syscall :=
  | Tick
  | Yield
  | Sleep (tick : Z)
  | Init (thread : Z) (a : thread_args)
  | Startup (thread : Z)
  | SemInit (sem : Z) (name : list Z) (value flag : Z)
  | SemTake (sem time : Z)
  | SemRelease (sem : Z).

(** The timers that are active bound the rounds of the timer check. *)
Definition exec (c : syscall) : K unit :=
  match c with
  | Tick => n ← gets (λ k, length (timer_list k)); SysTick_Handler (S n)
  | Yield => rt_thread_yield;; mret tt
  | Sleep tick => rt_thread_sleep tick;; mret tt
  | Init thread a =>
      rt_thread_init thread (ta_name a) (ta_entry a) (ta_parameter a) (ta_stack_start a)
        (ta_stack_size a) (ta_priority a) (ta_tick a);; mret tt
  | Startup thread => rt_thread_startup thread;; mret tt
  | SemInit sem name value flag => rt_sem_init sem name value flag;; mret tt
  | SemTake sem time => rt_sem_take sem time;; mret tt
  | SemRelease sem => rt_sem_release sem;; mret tt
  end.
(** When a call may be made: on objects that exist, and the idle thread does
    not wait. *)
Definition enabled (c : syscall) (k : kernel) : Prop :=
  match c with
  | Tick | Yield => True
  | Sleep tick => 1 ≤ tick < TICK_HALF ∧ current_thread k ≠ Some idle
  | Init thread a => fresh_thread thread k ∧ sems k !! thread = None ∧ args_ok a
  | Startup thread => ∃ th, threads k !! thread = Some th ∧ stat_of th = RT_THREAD_INIT
  | SemInit sem name value flag =>
      fresh_object sem k ∧ sems k !! sem = None ∧ readable 8 name ∧ is_bytes name ∧
      0 ≤ value < 65536 ∧ (flag = RT_IPC_FLAG_FIFO ∨ flag = RT_IPC_FLAG_PRIO)
  | SemTake sem time =>
      is_Some (sems k !! sem) ∧ time < TICK_HALF ∧ (time = 0 ∨ current_thread k ≠ Some idle)
  | SemRelease sem => is_Some (sems k !! sem)
  end.
Inductive step (k k' : kernel) : Prop :=
  | step_call c : enabled c k → exec c k = Some (tt, k') → step k k'.

Record sys_inv (k : kernel) : Prop := {
  sy_inv : kinv 1 k;
  sy_timers : thread_timers k;
  sy_lock : lock_nest k = 0;
  sy_nest : interrupt_nest k = 0;
  sy_idle : ∃ th, threads k !! idle = Some th ∧ stat_of th = RT_THREAD_READY;
  sy_first : runs_first k;
  sy_classes : is_Some (containers k !! RT_Object_Class_Thread) ∧
    is_Some (containers k !! RT_Object_Class_Timer) ∧
    is_Some (containers k !! RT_Object_Class_Semaphore);
  sy_sems : ∀ s v, sems k !! s = Some v → sem_ok s v k
}.

(** * Every step keeps the invariant *)

(** The running thread. *)
Lemma sys_running k : sys_inv k → ∃ t th, current_thread k = Some t ∧ threads k !! t = Some th ∧
  stat_of th = RT_THREAD_READY.
Proof.
  intros Hk. destruct (sy_first _ Hk (sy_lock _ Hk)) as (t & Ht & p & l & _ & El & _).
  destruct (si_fits _ _ (ki_sched _ _ (sy_inv _ Hk)) (LReady p) t) as (th & Hth & Hs & _);
    [rewrite El; by left|]. by exists t, th.
Qed.
Lemma sys_cur_ok k : sys_inv k → cur_ok k.
Proof.
  intros Hk. destruct (sys_running k Hk) as (t & th & ? & ? & Hs). exists t, th. by rewrite Hs.
Qed.
Lemma sys_other k t : sys_inv k → t ≠ idle → other_ready t k.
Proof. intros Hk Hne. destruct (sy_idle _ Hk) as (th & ? & ?). by exists idle, th. Qed.

(** Semaphores are left alone by what keeps their objects and adds no one to
    their lists. *)
Lemma sems_frame k k' :
  (∀ s v, sems k !! s = Some v → sem_ok s v k) → sems k' = sems k →
  (∀ a, is_Some (sems k !! a) → objects k' !! Obj a = objects k !! Obj a) →
  (∀ s t, t ∈ tl (LSuspend s) k' → 0 < default 0 (sems k !! s) → t ∈ tl (LSuspend s) k) →
  ∀ s v, sems k' !! s = Some v → sem_ok s v k'.
Proof.
  intros Hs Es Eo Htl s v Hv. rewrite Es in Hv. apply (sem_ok_move s v k); [auto|done|by apply Eo|].
  intros Hp. apply elem_of_nil_inv. intros t Ht. apply Htl in Ht; [|by rewrite Hv].
  rewrite (so_idle _ _ _ (Hs _ _ Hv) Hp) in Ht. by apply not_elem_of_nil in Ht.
Qed.
Lemma sems_value k k' s v v' :
  (∀ s v, sems k !! s = Some v → sem_ok s v k) → sems k !! s = Some v →
  k' = set_sems (<[s := v']> (sems k)) k → sem_ok s v' k' →
  ∀ s v, sems k' !! s = Some v → sem_ok s v k'.
Proof.
  intros Hs Hv -> Hs' s2 v2 Hv2. destruct (decide (s2 = s)) as [->|Hne].
  - simpl in Hv2. rewrite lookup_insert_eq in Hv2. by injection Hv2 as <-.
  - simpl in Hv2. rewrite lookup_insert_ne in Hv2 by done. destruct (Hs _ _ Hv2).
    constructor; try done. simpl. by rewrite lookup_insert_ne.
Qed.

(** A thread other than the idle one moved. *)
Lemma sys_inv_move k k' t th' :
  sys_inv k → kinv 1 k' → thread_timers k' → iframe k k' → same_objects k k' →
  threads k' = <[t := th']> (threads k) → t ≠ idle ∨ stat_of th' = RT_THREAD_READY →
  runs_first k' → sems k' = sems k →
  (∀ s u, u ∈ tl (LSuspend s) k' → 0 < default 0 (sems k !! s) → u ∈ tl (LSuspend s) k) →
  sys_inv k'.
Proof.
  intros Hk Hk' Htt Hf Ho Eth Ht Hr Es Htl. constructor; try done.
  - rewrite (if_lock _ _ Hf). apply Hk.
  - rewrite (if_nest _ _ Hf). apply Hk.
  - rewrite Eth. destruct (decide (t = idle)) as [->|Hne].
    + exists th'. rewrite lookup_insert_eq. naive_solver.
    + rewrite lookup_insert_ne by done. apply Hk.
  - rewrite (if_containers _ _ Hf). apply Hk.
  - apply (sems_frame k); [apply Hk|done|intros a _; apply Ho|done].
Qed.
(** A semaphore changed its value. *)
Lemma sys_inv_sems k s v v' :
  sys_inv k → sems k !! s = Some v → 0 ≤ v' ≤ RT_SEM_VALUE_MAX → (0 < v' → tl (LSuspend s) k = []) →
  sys_inv (set_sems (<[s := v']> (sems k)) k).
Proof.
  intros Hk Hv Hr Hp. pose proof Hk as []. constructor; try done; [by apply kinv_sems|].
  eapply (sems_value k); [done..|]. by apply (sem_ok_value s v); [auto|..].
Qed.
Lemma timers_subset k k' : thread_timers k → (∀ p, p ∈ timer_list k' → p ∈ timer_list k) → thread_timers k'.
Proof. unfold thread_timers. rewrite !Forall_forall. auto. Qed.
Lemma kinv_same_timers k k' :
  kinv 1 k → kinv 0 k' → rt_tick k' = rt_tick k → timers k' = timers k →
  (∀ p, p ∈ timer_list k' → p ∈ timer_list k) → kinv 1 k'.
Proof.
  intros Hk Hk' Et Ets Hl. eapply kinv_lo; [done|]. intros p d Hp Hd.
  rewrite (timer_dist_eq k k') in Hd by done.
  destruct (ti_dist _ _ (ki_timer _ _ Hk) p (Hl p Hp)) as (e & He & ?). simplify_eq. lia.
Qed.

Lemma exec_yield k : sys_inv k → wp (exec Yield) (λ _ k', sys_inv k') k.
Proof.
  intros Hk. destruct (sys_running k Hk) as (t & th & Hcur & Hth & Hst). unfold exec. wp_simpl.
  eapply wp_mono; [apply (rt_thread_yield_run 1 k t th); [apply Hk|done|done]|].
  intros r k' (_ & Hk' & Hsb & Hf & _ & Hy). apply wp_ret.
  assert ((∀ s, tl (LSuspend s) k' = tl (LSuspend s) k) ∧ runs_first k') as [Htl Hr].
  { case_bool_decide; [|subst k'; by split; [|apply Hk]]. destruct Hy as (_ & Hy & Hn).
    split; [intros s; by apply Hy|]. intros E. apply Hn. by rewrite <-(if_lock _ _ Hf). }
  apply (sys_inv_move k k' t th); try done.
  - unfold thread_timers. rewrite (sb_list _ _ Hsb). apply Hk.
  - apply same_objects_eq; apply Hsb.
  - rewrite (sb_threads _ _ Hsb). by rewrite insert_id.
  - by right.
  - apply Hf.
  - intros s u. by rewrite Htl.
Qed.

Lemma exec_sleep k tick : sys_inv k → enabled (Sleep tick) k → wp (exec (Sleep tick)) (λ _ k', sys_inv k') k.
Proof.
  intros Hk [Ht Hne]. destruct (sys_running k Hk) as (t & th & Hcur & Hth & Hst).
  assert (t ≠ idle) as Hi by congruence. unfold exec. wp_simpl.
  eapply wp_mono; [apply (rt_thread_sleep_run 0 k t th); try done; [apply kinv_1_0, Hk|by apply sys_other|lia]|].
  intros r k' (_ & Hk' & Eth & Htl & Ha & Hf & Ho & _ & k1 & Hs & _). apply wp_ret.
  destruct (armed_kinv k k' t tick) as (Hk1 & Htt & _); try done; [apply Hk|apply Hf|apply Hk|].
  eapply (sys_inv_move k k' t); try done; [by left|by eapply scheduled_runs_first|apply Hf|].
  intros s u. rewrite Htl, elem_of_lremove. by intros [? _].
Qed.

Lemma exec_init k t a : sys_inv k → enabled (Init t a) k → wp (exec (Init t a)) (λ _ k', sys_inv k') k.
Proof.
  intros Hk (Hfr & Hsem & [Hname Hprio (Hst & Hsz & Hend)]). destruct (sy_idle _ Hk) as (thi & Hthi & Hsti).
  assert (t ≠ idle) as Hti.
  { intros ->. by destruct (fr_detached _ _ Hfr _ (si_ready _ _ (ki_sched _ _ (sy_inv _ Hk)) _ _ Hthi ltac:(done) Hsti)). }
  destruct (sys_running k Hk) as (c & thc & Hcur & Hthc & _). destruct (sy_classes _ Hk) as (Hct & Hcm & Hcs').
  unfold exec. wp_simpl. pose proof (sy_lock _ Hk) as Hln.
  eapply wp_mono; [apply (rt_thread_init_run _ _ _ _ _ _ _ Hname Hprio Hst Hsz Hend 1 k t); try done; [apply Hk| |lia]|].
  { right. by exists idle, thi. }
  intros r k' (_ & Hk' & th & Hnb & c' & p & os & cs & ts & -> & _ & Hrun & Hos & _ & Hcs).
  apply wp_ret. pose proof Hk as []. constructor; try done.
  - exists thi. simpl. by rewrite lookup_insert_ne.
  - intros _. destruct (Hrun Hln) as (u & -> & Hu); [by rewrite Hcur|]. by exists u.
  - split_and!; by apply Hcs.
  - apply (sems_frame k); try done. intros s [v Hv]. apply Hos. intros ->. by rewrite Hsem in Hv.
Qed.

Lemma exec_startup k t : sys_inv k → enabled (Startup t) k → wp (exec (Startup t)) (λ _ k', sys_inv k') k.
Proof.
  intros Hk (th & Hth & Hst). destruct (sys_running k Hk) as (c & thc & Hcur & _).
  unfold exec. wp_simpl. assert (ThTimer t ∉ timer_list k) as Hnt.
  { intros Hin. destruct (ki_active _ _ (sy_inv _ Hk) t Hin) as (th' & ? & Hs). simplify_eq. by rewrite Hst in Hs. }
  eapply wp_mono; [apply (rt_thread_startup_run 1 k t th); [apply Hk|done|done| |done]|].
  { eapply detached_by_stat; [apply Hk|done|by rewrite Hst..]. }
  intros r k' (_ & k1 & [Hk1 Hf1 Eth1 Htl1 Ho1] & El1 & _ & Hk' & _ & Hs). apply wp_ret.
  assert (scheduled k1 k') as Hsch by (apply Hs; congruence).
  pose proof Hsch as ((q & p & E) & _).
  eapply (sys_inv_move k k' t); try done.
  - eapply timers_subset; [apply Hk|]. rewrite E. simpl. rewrite El1.
    intros x. rewrite elem_of_lremove. by intros [? _].
  - transitivity k1; [by apply kframe_iframe|]. apply switch_iframe. by eexists _, _.
  - transitivity k1; [done|]. by apply same_objects_eq; rewrite E.
  - by rewrite E.
  - right. by apply stat_of_with_stat.
  - by eapply scheduled_runs_first.
  - rewrite E. apply Hf1.
  - intros s u Hin _. rewrite E in Hin. change (u ∈ tl (LSuspend s) k1) in Hin. rewrite Htl1 in Hin.
    unfold tl_ready in Hin. rewrite decide_False in Hin by done. by apply elem_of_lremove in Hin as [? _].
Qed.

Lemma exec_sem_init k s name value flag :
  sys_inv k → enabled (SemInit s name value flag) k →
  wp (exec (SemInit s name value flag)) (λ _ k', sys_inv k') k.
Proof.
  intros Hk (Hfr & Hsem & Hrd & Hb & Hv & Hfl). destruct (sy_idle _ Hk) as (thi & Hthi & Hsti).
  destruct (sys_running k Hk) as (c & thc & Hcur & _). destruct (sy_classes _ Hk) as (Hct & Hcm & Hcl).
  unfold exec. wp_simpl. pose proof (sy_lock _ Hk) as Hln.
  eapply wp_mono; [apply (rt_sem_init_run 1 k s); try done; [apply Hk|right; by exists idle, thi|lia]|].
  intros r k' (_ & Hk' & Hs' & c' & p & os & cs & tls & Ek & Hrun & Hos & Htl & Hcs). apply wp_ret.
  pose proof Hk as []. constructor; try (subst k'; done).
  - intros _. destruct (Hrun Hln) as (u & -> & q & l & Hq & El & Hlow); [by rewrite Hcur|]. exists u.
    split; [by subst k'|]. exists q, l. rewrite Htl. split; [done|]. split; [done|].
    intros r' Hr'. rewrite Htl. by apply Hlow.
  - subst k'. split_and!; by apply Hcs.
  - intros s2 v2 Hv2. destruct (decide (s2 = s)) as [->|Hne].
    + pose proof (so_value _ _ _ Hs') as E. rewrite E in Hv2. by injection Hv2 as <-.
    + assert (sems k !! s2 = Some v2) as Hv2' by (subst k'; simpl in Hv2; by rewrite lookup_insert_ne in Hv2).
      destruct (sy_sems0 _ _ Hv2'). constructor; [done|done|by rewrite Htl|].
      subst k'. simpl. by rewrite Hos.
Qed.

Lemma exec_sem_take k s time :
  sys_inv k → enabled (SemTake s time) k → wp (exec (SemTake s time)) (λ _ k', sys_inv k') k.
Proof.
  intros Hk ([v Hv] & Ht & Hi). destruct (sys_running k Hk) as (t & th & Hcur & Hth & Hst).
  pose proof (sy_sems _ Hk _ _ Hv) as Hs. pose proof (so_range _ _ _ Hs).
  destruct (so_object _ _ _ Hs) as (o & Ho & Hc & _). unfold exec. wp_simpl.
  destruct (decide (0 < v ∨ time = 0)) as [Hn|Hn].
  - unfold rt_sem_take, sem_value, set_sem_value. wp_simpl. eapply assert_class_run; [done..|]. wp_simpl.
    eapply wp_deref; [done|]. destruct (Z.ltb_spec 0 v) as [Hp|Hp]; wp_simpl.
    + eapply (sys_inv_sems k s v (v - 1)); try done; [lia|]. intros _. by apply (so_idle _ _ _ Hs).
    + destruct Hn as [?| ->]; [lia|]. simpl. by apply wp_ret.
  - assert (v = 0) as -> by lia. assert (t ≠ idle) as Hne by naive_solver congruence.
    eapply wp_mono; [apply (rt_sem_take_block_run 0 k s t th); try done;
      [apply kinv_1_0, Hk|apply Hk|by apply sys_other|lia]|].
    intros r k' (_ & Hs' & Hk' & Eth & (l1 & l2 & E1 & E2 & _) & Htl & Hf & Hos & Htm & Hr). apply wp_ret.
    assert (kinv 1 k' ∧ thread_timers k') as [Hk1 Htt].
    { unfold timed in Htm. destruct (Z.ltb_spec 0 time).
      - destruct (armed_kinv k k' t time) as (? & ? & _); try done; [apply Hk|apply Hf|apply Hk|lia].
      - destruct Htm as [Ets El]. assert (∀ p, p ∈ timer_list k' → p ∈ timer_list k) as Hsub
          by (intros p; rewrite El, elem_of_lremove; by intros [? _]).
        split; [|by eapply timers_subset; [apply Hk|]].
        apply (kinv_same_timers k k'); try done; [apply Hk|apply Hf]. }
    eapply (sys_inv_move k k' t); try done; [by left| |apply Hf|].
    + intros E. destruct Hr as (u & _ & Hu & Hnx); [by rewrite <-(if_lock _ _ Hf)|]. by exists u.
    + intros s' u Hin Hpos. destruct (decide (s' = s)) as [->|Hns].
      * rewrite Hv in Hpos. simpl in Hpos. lia.
      * rewrite Htl in Hin by congruence. by apply elem_of_lremove in Hin as [? _].
Qed.

Lemma exec_sem_release k s :
  sys_inv k → enabled (SemRelease s) k → wp (exec (SemRelease s)) (λ _ k', sys_inv k') k.
Proof.
  intros Hk [v Hv]. pose proof (sy_sems _ Hk _ _ Hv) as Hs. pose proof (so_range _ _ _ Hs).
  destruct (so_object _ _ _ Hs) as (o & Ho & Hc & _). unfold exec. wp_simpl.
  destruct (tl (LSuspend s) k) as [|t l] eqn:El.
  - unfold rt_sem_release, sem_value, set_sem_value. wp_simpl. eapply assert_class_run; [done..|]. wp_simpl.
    rewrite El. simpl. wp_simpl. eapply wp_deref; [done|]. wp_simpl.
    destruct (Z.ltb_spec v RT_SEM_VALUE_MAX); wp_simpl; [|done].
    apply (sys_inv_sems k s v (v + 1)); [done|done|lia|done].
  - assert (v = 0) as ->.
    { destruct (Z_lt_le_dec 0 v) as [Hp|]; [|lia]. apply (so_idle _ _ _ Hs) in Hp. congruence. }
    destruct (rt_sem_release_wake_run 1 k s t l (sy_inv _ Hk) Hs El) as (th & Hth & Hst & Hwp).
    eapply wp_mono; [exact Hwp|].
    intros r k' (_ & Hs' & Hk' & El' & Eth & Htl & Hf & Hos & Elt & Hr). apply wp_ret.
    eapply (sys_inv_move k k' t); try done.
    + eapply timers_subset; [apply Hk|]. rewrite Elt. intros x. rewrite elem_of_lremove. by intros [? _].
    + right. by apply stat_of_with_stat.
    + intros E. apply Hr. by rewrite <-(if_lock _ _ Hf).
    + apply Hf.
    + intros s' u Hin _. rewrite Htl in Hin. unfold tl_ready in Hin. rewrite decide_False in Hin by done.
      by apply elem_of_lremove in Hin as [? _].
Qed.

Lemma exec_tick k : sys_inv k → wp (exec Tick) (λ _ k', sys_inv k') k.
Proof.
  intros Hk. destruct (sys_running k Hk) as (t & th & Hcur & Hth & Hst).
  unfold exec, SysTick_Handler, rt_interrupt_enter, rt_interrupt_leave. wp_simpl.
  set (k1 := set_interrupt_nest _ k).
  assert (kinv 1 k1) as Hk1 by (apply (kinv_same 1 k); [apply Hk|by constructor|done|done]).
  eapply wp_mono; [apply (rt_tick_increase_run k1 t th); try done; [apply Hk|by rewrite Hst|simpl; lia]|].
  intros [] k2 (Hk2 & _ & Et & Eln & Ein & _ & Ets & [] & Hr & _ & Hsub & Hth2). wp_simpl.
  set (k3 := set_interrupt_nest _ k2). constructor.
  - apply (kinv_same 1 k2); [done|by constructor|done|done].
  - eapply timers_subset; [apply Hk|]. intros p Hp. by apply Hsub.
  - change (lock_nest k2 = 0). rewrite Eln. apply Hk.
  - simpl. rewrite Ein. unfold k1. simpl. by rewrite (sy_nest _ Hk).
  - destruct (sy_idle _ Hk) as (thi & Hthi & Hsti). specialize (Hth2 _ _ Hthi). cbn zeta in Hth2.
    rewrite bool_decide_eq_false_2 in Hth2.
    + eexists. split; [exact Hth2|]. by case_decide.
    + intros [Hin _]. destruct (ki_active _ _ Hk1 _ Hin) as (th' & Hth' & Hs). simpl in Hth'. simplify_eq.
      by rewrite Hsti in Hs.
  - intros E. destruct Hr as (u & Hu & Hnx); [exact (sy_first _ Hk)|exact E|]. by exists u.
  - simpl. rewrite tf_containers. apply Hk.
  - apply (sems_frame k); try done; [apply Hk|]. intros s u Hin _. by apply tf_waiting in Hin.
Qed.

Lemma exec_inv c k : sys_inv k → enabled c k → wp (exec c) (λ _ k', sys_inv k') k.
Proof.
  destruct c; intros Hk He.
  - by apply exec_tick.
  - by apply exec_yield.
  - by apply exec_sleep.
  - by apply exec_init.
  - by apply exec_startup.
  - by apply exec_sem_init.
  - by apply exec_sem_take.
  - by apply exec_sem_release.
Qed.
Lemma steps_inv k k' : sys_inv k → rtc step k k' → sys_inv k'.
Proof.
  intros Hk. induction 1 as [|k1 k2 k3 [c He Hx] _ IH]; [done|]. apply IH.
  pose proof (exec_inv c k1 Hk He) as Hw. unfold wp in Hw. by rewrite Hx in Hw.
Qed.

(** What the invariant means for the running thread. *)
Lemma sys_runs_highest k : sys_inv k →
  ∃ t th, current_thread k = Some t ∧ threads k !! t = Some th ∧ stat_of th = RT_THREAD_READY ∧
    head (tl (LReady (th_current_priority th)) k) = Some t ∧
    ∀ u thu, threads k !! u = Some thu → stat_of thu = RT_THREAD_READY →
      th_current_priority th ≤ th_current_priority thu.
Proof.
  intros Hk. destruct (sy_first _ Hk (sy_lock _ Hk)) as (t & Ht & p & l & Hp & El & Hlow).
  pose proof (ki_sched _ _ (sy_inv _ Hk)) as Hi.
  destruct (si_fits _ _ Hi (LReady p) t) as (th & Hth & Hs & Epr); [rewrite El; by left|].
  exists t, th. do 3 (split; [done|]). rewrite Epr, El. split; [done|]. intros u thu Hu Hsu.
  pose proof (si_ready _ _ Hi u thu Hu ltac:(done) Hsu) as Hin.
  destruct (Z_lt_le_dec (th_current_priority thu) p) as [Hlt|]; [|done].
  rewrite Hlow in Hin; [by apply not_elem_of_nil in Hin|].
  pose proof (to_prio _ (si_thread _ _ Hi _ _ Hu)). lia.
Qed.
Lemma sys_calls_return k c : sys_inv k → enabled c k → ∃ k', exec c k = Some (tt, k') ∧ step k k'.
Proof.
  intros Hk He. pose proof (exec_inv c k Hk He) as Hw. unfold wp in Hw.
  destruct (exec c k) as [[[] k']|] eqn:E; [|done]. exists k'. split; [done|]. by exists c.
Qed.

(** C2. In every state the system reaches from one that satisfies the
    invariant, by any sequence of ticks and calls: the running thread is READY,
    heads the ready list of its priority, and no READY thread has a higher
    priority; a semaphore with a positive value has no waiting thread. *)
Theorem reachable_runs_highest k0 k :
  sys_inv k0 → rtc step k0 k →
  (∃ t th, current_thread k = Some t ∧ threads k !! t = Some th ∧ stat_of th = RT_THREAD_READY ∧
     head (tl (LReady (th_current_priority th)) k) = Some t ∧
     ∀ u thu, threads k !! u = Some thu → stat_of thu = RT_THREAD_READY →
       th_current_priority th ≤ th_current_priority thu) ∧
  (∀ s v, sems k !! s = Some v → 0 ≤ v ≤ RT_SEM_VALUE_MAX ∧ (0 < v → tl (LSuspend s) k = [])).
Proof.
  intros Hk0 Hr. pose proof (steps_inv _ _ Hk0 Hr) as Hk. split; [by apply sys_runs_highest|].
  intros s v Hv. destruct (sy_sems _ Hk _ _ Hv). done.
Qed.

(** C3. Progress: in every such state each enabled call returns, with no
    assertion failed and no loop without an end. *)
Theorem reachable_calls_return k0 k c :
  sys_inv k0 → rtc step k0 k → enabled c k → ∃ k', exec c k = Some (tt, k') ∧ step k k'.
Proof.
  intros Hk0 Hr He. apply sys_calls_return; [by eapply steps_inv|done].
Qed.
End system.
