(* ===== verification/Interact.v ===== *)
(** Code that talks to its surroundings (lwIP, the hardware, the user): a call that leaves
    the model is a request, the rest of the computation waits for its answer. The state
    of a component says, as an instance of [Interactive], where the answers to come and the
    record of the requests are. *)
From S2P Require Import Prelude.

(** [S] keeps a record of requests and a supply of answers. *)
Class Interactive (S Req Ans : Type) := {
  log_request : Req → S → S;
  next_answer : S → option (Ans * S)
}.

(** A computation comes to its end, or waits for the answer to its last
    request, or fails. *)
Inductive outcome (S T : Type) :=
  | Done (x : T) (s : S)
  | Waits (s : S)
  | Fails.
Arguments Done {S T}. Arguments Waits {S T}. Arguments Fails {S T}.
Definition Act (S T : Type) : Type := S → outcome S T.
#[global] Instance Act_ret {S} : MRet (Act S) := λ T x s, Done x s.
#[global] Instance Act_bind {S} : MBind (Act S) := λ T U f m s,
  match m s with Done x s' => f x s' | Waits s' => Waits s' | Fails => Fails end.

Section commands.
Context {S : Type}.
Definition igets {T} (f : S → T) : Act S T := λ s, Done (f s) s.
Definition imodify (f : S → S) : Act S unit := λ s, Done tt (f s).
Definition ilift {T} (o : option T) : Act S T := λ s,
  match o with Some x => Done x s | None => Fails end.
Definition iwhen (b : bool) (m : Act S unit) : Act S unit := if b then m else mret tt.
Context `{IA : Interactive S Req Ans}.
(** A call whose result is not looked at, and one that waits for its result. *)
Definition tell (r : Req) : Act S unit := imodify (log_request r).
Definition wait_answer : Act S Ans := λ s,
  match next_answer s with Some (a, s') => Done a s' | None => Waits s end.
Definition ask (r : Req) : Act S Ans := tell r;; wait_answer.
(** A loop with the locals [X]; the body ends it with [inr]. *)
Fixpoint loop {X Y} (fuel : nat) (body : X → Act S (X + Y)) (x : X) : Act S Y :=
  match fuel with
  | O => λ _, Fails
  | Datatypes.S fuel =>
      r ← body x;
      match r with inl x' => loop fuel body x' | inr y => mret y end
  end.
End commands.

(** * Proof rules *)

Definition iwp {S T} (m : Act S T) (Q : T → S → Prop) (W : S → Prop) (s : S) : Prop :=
  match m s with Done x s' => Q x s' | Waits s' => W s' | Fails => False end.

Section rules.
Context {S : Type}.
Implicit Types s : S.
Lemma iwp_ret {T} (x : T) Q W s : iwp (mret x) Q W s ↔ Q x s.
Proof. done. Qed.
Lemma iwp_bind {T U} (m : Act S T) (f : T → Act S U) Q W s :
  iwp (m ≫= f) Q W s ↔ iwp m (λ x s', iwp (f x) Q W s') W s.
Proof. unfold iwp, mbind, Act_bind. by destruct (m s). Qed.
Lemma iwp_mono {T} (m : Act S T) (Q Q' : T → S → Prop) (W W' : S → Prop) s :
  iwp m Q W s → (∀ x s', Q x s' → Q' x s') → (∀ s', W s' → W' s') → iwp m Q' W' s.
Proof. unfold iwp. destruct (m s); eauto. Qed.
Lemma iwp_gets {T} (f : S → T) Q W s : iwp (igets f) Q W s ↔ Q (f s) s.
Proof. done. Qed.
Lemma iwp_modify f Q W s : iwp (imodify f) Q W s ↔ Q tt (f s).
Proof. done. Qed.
Lemma iwp_lift {T} (o : option T) x Q W s : o = Some x → Q x s → iwp (ilift o) Q W s.
Proof. by intros ->. Qed.
Lemma iwp_when (b : bool) m Q W s : iwp (iwhen b m) Q W s ↔ if b then iwp m Q W s else Q tt s.
Proof. by destruct b. Qed.

Context `{IA : Interactive S Req Ans}.
Lemma iwp_tell r Q W s : iwp (tell r) Q W s ↔ Q tt (log_request r s).
Proof. done. Qed.
Lemma iwp_ask r Q W s :
  W (log_request r s) → (∀ a s', next_answer (log_request r s) = Some (a, s') → Q a s') →
  iwp (ask r) Q W s.
Proof.
  intros Hw Hq. unfold ask, iwp, mbind, Act_bind, tell, imodify, wait_answer. destruct (next_answer _) as [[]|] eqn:E; auto.
Qed.
(** A loop with an invariant and a measure that each round makes smaller. *)
Lemma iwp_loop {X Y} (body : X → Act S (X + Y)) (Inv : X → S → Prop) (measure : S → nat) Q W :
  (∀ x s, Inv x s → iwp (body x) (λ r s', match r with
     | inl x' => Inv x' s' ∧ (measure s' < measure s)%nat
     | inr y => Q y s'
     end) W s) →
  ∀ fuel x s, Inv x s → (measure s < fuel)%nat → iwp (loop fuel body x) Q W s.
Proof.
  intros Hb. induction fuel as [|fuel IH]; intros x s Hx Hf; [lia|]. cbn [loop].
  apply iwp_bind. eapply iwp_mono; [by apply Hb| |done]. intros [x'|y] s' H; [|done].
  destruct H. apply IH; [done|lia].
Qed.
End rules.
Create Rewrite HintDb iwp.
#[global] Hint Rewrite @iwp_ret @iwp_bind @iwp_gets @iwp_modify @iwp_tell @iwp_when : iwp.
Ltac iwp_simpl := cbn beta; autorewrite with iwp; cbn beta.
