(* ===== verification/Camera.v ===== *)
(** The camera server of applications/eth_camera.c: the "cam_srv" thread, its
    frame check, and the "lvgl" thread (board/lvgl/lv_port.c) that it means to
    pause while a frame is captured.

    lwIP, the sensor and the DMA are outside: a call of them is a [request] with
    an [answer], which also says in which state the kernel is when the call comes
    back, since the other threads run meanwhile. RECV_TIMEOUT is no call but the
    field of the listening connection that the server sets. One round of the thread's loops is
    [round]; [server_step] is the thread as a transition system. *)
From stdpp Require Import relations.
From S2P Require Import Prelude Kservice Mem KState Sched Object Timer Thread ThreadInit Clock Ipc Sem System Interact.

(** eth_camera.h, and lwIP's err.h *)
Definition ETH_PORT : Z := 8001.
Definition JPEG_BUF_SIZE : Z := 32768.
Definition ATK_MC2640_EOK : Z := 0.
Definition ATK_MC2640_EEMPTY : Z := 4.
Definition ERR_OK : Z := 0.
Definition ERR_RST : Z := -14.
Definition ERR_CLSD : Z := -15.
(** "lvgl" *)
Definition LVGL_NAME : list Z := [108; 118; 103; 108; 0].

(** * The end of a frame *)

Definition zero_buf : list Z := replicate (Z.to_nat JPEG_BUF_SIZE) 0.
Lemma zero_buf_length : length zero_buf = Z.to_nat JPEG_BUF_SIZE.
Proof. apply length_replicate. Qed.
#[global] Opaque zero_buf.

(** The loop from index [i] on. *)
Fixpoint jpeg_scan (fuel : nat) (buf : list Z) (i max_len : Z) : option Z :=
  match fuel with
  | O => None
  | S fuel =>
      if u32 (i + 1) <? max_len then
        a ← buf !! Z.to_nat i;
        found ← (if a =? 255 then b ← buf !! Z.to_nat (i + 1); Some (b =? 217) else Some false);
        if found : bool then Some (u32 (i + 2)) else jpeg_scan fuel buf (u32 (i + 1)) max_len
      else Some 0
  end.
Definition jpeg_frame_length (buf : list Z) (max_len : Z) : option Z :=
  jpeg_scan (S (Z.to_nat max_len)) buf 0 max_len.
(** The number of words that atk_mc2640_get_frame_sized lets the DMA transfer. *)
Definition frame_words (width height buf_bytes : Z) : Z :=
  let len := u32 (width * height) / 4 in
  if 4 <=? buf_bytes then
    let max_words := buf_bytes / 4 in
    if max_words <? len then max_words else len
  else len.

(** * The thread and its surroundings *)

Inductive request :=
  | NETIF_DEFAULT
  | MDELAY (ms : Z)
  | NETCONN_NEW
  | NETCONN_BIND (conn port : Z)
  | NETCONN_LISTEN (conn : Z)
  | NETCONN_ACCEPT (conn : Z)
  | NETCONN_GETADDR (client : Z)
  | NETCONN_WRITE (client : Z) (data : list Z)
  | NETCONN_CLOSE (conn : Z)
  | NETCONN_DELETE (conn : Z)
  | RECV_TIMEOUT (conn ms : Z)
  | CAMERA_INIT
  | DCMI_START (words : Z).
(** The result of a call, the client of an accept, the size of the sensor's
    picture or the bytes of the DMA, and the kernel afterwards. *)
Record answer := Answer { a_value : Z; a_client : Z; a_width : Z; a_height : Z; a_bytes : list Z; a_kernel : kernel }.

(** The statics of the file, and the kernel; the answers to come and the
    requests made. *)
Record server := Server {
  sv_kernel : kernel;
  g_newconn : Z;
  camera_inited : bool;
  s_lvgl_tid : Z;
  jpeg_buf : list Z;
  output_size : Z * Z;
  sv_answers : list answer;
  sv_log : list request
}.
Definition set_kernel k s := Server k (g_newconn s) (camera_inited s) (s_lvgl_tid s) (jpeg_buf s) (output_size s) (sv_answers s) (sv_log s).
Definition set_newconn c s := Server (sv_kernel s) c (camera_inited s) (s_lvgl_tid s) (jpeg_buf s) (output_size s) (sv_answers s) (sv_log s).
Definition set_inited b s := Server (sv_kernel s) (g_newconn s) b (s_lvgl_tid s) (jpeg_buf s) (output_size s) (sv_answers s) (sv_log s).
Definition set_lvgl_tid t s := Server (sv_kernel s) (g_newconn s) (camera_inited s) t (jpeg_buf s) (output_size s) (sv_answers s) (sv_log s).
Definition set_jpeg_buf b s := Server (sv_kernel s) (g_newconn s) (camera_inited s) (s_lvgl_tid s) b (output_size s) (sv_answers s) (sv_log s).
Definition set_output wh s := Server (sv_kernel s) (g_newconn s) (camera_inited s) (s_lvgl_tid s) (jpeg_buf s) wh (sv_answers s) (sv_log s).

#[global] Instance server_interactive : Interactive server request answer := {
  log_request r s := Server (sv_kernel s) (g_newconn s) (camera_inited s) (s_lvgl_tid s) (jpeg_buf s) (output_size s)
    (sv_answers s) (sv_log s ++ [r]);
  next_answer s :=
    match sv_answers s with
    | [] => None
    | a :: answers =>
        Some (a, Server (a_kernel a) (g_newconn s) (camera_inited s) (s_lvgl_tid s) (jpeg_buf s) (output_size s)
          answers (sv_log s))
    end
}.
Abbreviation A := (Act server).
Definition in_kernel {T} (m : K T) : A T := λ s,
  match m (sv_kernel s) with Some (x, k) => Done x (set_kernel k s) | None => Fails end.

Section camera.
Context `{CB : Callbacks}.

(** * Pausing the display *)

(** [tid] is the static s_lvgl_tid; its new value. *)
Definition pause_lvgl (tid : Z) : K Z :=
  tid ← (if tid =? 0 then
           found ← rt_thread_find (Some LVGL_NAME);
           match found with
           | None => mret 0
           | Some (Obj t) => mret t
           | Some _ => fail
           end
         else mret tid);
  when (negb (tid =? 0)) (rt_thread_suspend tid;; mret tt);;
  mret tid.
Definition resume_lvgl (tid : Z) : K unit :=
  when (negb (tid =? 0)) (rt_thread_resume tid;; mret tt).
Definition eth_camera_pause_lvgl : A unit :=
  tid ← igets s_lvgl_tid;
  tid ← in_kernel (pause_lvgl tid);
  imodify (set_lvgl_tid tid).
Definition eth_camera_resume_lvgl : A unit :=
  tid ← igets s_lvgl_tid;
  in_kernel (resume_lvgl tid).

(** lv_port_init; [entry] is lvgl_thread_entry. *)
Definition LV_THREAD_STACK_SIZE : Z := 4096.
Definition LV_THREAD_PRIORITY : Z := 11.
Definition lv_port_init (entry : Z) : K unit :=
  tid ← rt_thread_create LVGL_NAME entry 0 LV_THREAD_STACK_SIZE LV_THREAD_PRIORITY 10;
  when (negb (tid =? 0)) (rt_thread_startup tid;; mret tt).
(** eth_camera_capture; the addresses of dcmi_sem, cam_srv_thread and its stack. *)
Definition CAM_SRV_STACK_SIZE : Z := 3072.
Definition CAM_SRV_PRIORITY : Z := 15.
(** "dcmi_sem" fills the 8 bytes of a name. *)
Definition DCMI_SEM_NAME : list Z := [100; 99; 109; 105; 95; 115; 101; 109; 0].
Definition CAM_SRV_NAME : list Z := [99; 97; 109; 95; 115; 114; 118; 0].
Definition eth_camera_capture (dcmi_sem cam_srv_thread cam_srv_stack entry : Z) : K unit :=
  rt_sem_init dcmi_sem DCMI_SEM_NAME 0 RT_IPC_FLAG_PRIO;;
  ret ← rt_thread_init cam_srv_thread CAM_SRV_NAME entry 0 cam_srv_stack CAM_SRV_STACK_SIZE CAM_SRV_PRIORITY 10;
  when (ret =? RT_EOK) (rt_thread_startup cam_srv_thread;; mret tt).

Definition eth_camera_is_streaming : A bool :=
  c ← igets g_newconn; mret (negb (c =? 0)).

(** * The server *)

Definition eth_camera_init : A unit :=
  a ← ask CAMERA_INIT; imodify (set_output (a_width a, a_height a)).
(** 0 for NULL *)
Definition eth_camera_listen_create : A Z :=
  a ← ask NETCONN_NEW;
  let conn := a_value a in
  if conn =? 0 then mret 0 else
  a ← ask (NETCONN_BIND conn ETH_PORT);
  if negb (a_value a =? ERR_OK) then ask (NETCONN_DELETE conn);; mret 0 else
  a ← ask (NETCONN_LISTEN conn);
  if negb (a_value a =? ERR_OK) then ask (NETCONN_DELETE conn);; mret 0 else
  tell (RECV_TIMEOUT conn 50);;
  mret conn.
(** The DMA overwrites at most [words] words at the start of the buffer, whether
    the capture succeeds or not. *)
Definition atk_mc2640_get_frame_sized (buf_bytes : Z) : A Z :=
  '(w, h) ← igets output_size;
  let len := frame_words w h buf_bytes in
  a ← ask (DCMI_START len);
  let bytes := take (Z.to_nat (4 * len)) (a_bytes a) in
  imodify (λ s, set_jpeg_buf (bytes ++ drop (length bytes) (jpeg_buf s)) s);;
  mret (if negb (a_value a =? 0) then ATK_MC2640_EEMPTY else ATK_MC2640_EOK).

(** Where the thread is between two rounds. *)
Inductive pc :=
  | PBoot
  | PInit (conn : Z)
  | PAccept (conn : Z)
  | PStream (conn client : Z).

Definition boot_round : A pc :=
  a ← ask NETIF_DEFAULT;
  if a_value a =? 0 then ask (MDELAY 200);; mret PBoot else
  conn ← eth_camera_listen_create;
  if negb (conn =? 0) then mret (PInit conn) else
  ask (MDELAY 1000);; mret PBoot.
Definition init_round (conn : Z) : A pc :=
  inited ← igets camera_inited;
  iwhen (negb inited)
    (eth_camera_init;; imodify (set_inited true);; ask (MDELAY 500);; mret tt);;
  mret (PAccept conn).
Definition accept_round (conn : Z) : A pc :=
  a ← ask (NETCONN_ACCEPT conn);
  if negb (a_value a =? ERR_OK) then mret (PAccept conn) else
  let client := a_client a in
  imodify (set_newconn client);;
  ask (NETCONN_GETADDR client);;
  ask (MDELAY 200);;
  mret (PStream conn client).
Definition capture : A Z :=
  imodify (set_jpeg_buf zero_buf);;
  eth_camera_pause_lvgl;;
  ret ← atk_mc2640_get_frame_sized JPEG_BUF_SIZE;
  eth_camera_resume_lvgl;;
  mret ret.
(** jpeg_len is that of a whole frame: long enough and with an SOI in front. *)
Definition frame_ok (jpeg_len : Z) (buf : list Z) : option bool :=
  if jpeg_len <? 100 then Some false else
  b0 ← buf !! 0%nat;
  if negb (b0 =? 255) then Some false else
  b1 ← buf !! 1%nat;
  Some (b1 =? 216).
Definition stream_round (conn client : Z) : A pc :=
  ret ← capture;
  if negb (ret =? ATK_MC2640_EOK) then ask (MDELAY 5);; mret (PStream conn client) else
  buf ← igets jpeg_buf;
  jpeg_len ← ilift (jpeg_frame_length buf JPEG_BUF_SIZE);
  ok ← ilift (frame_ok jpeg_len buf);
  if negb ok then ask (MDELAY 2);; mret (PStream conn client) else
  a ← ask (NETCONN_WRITE client (take (Z.to_nat jpeg_len) buf));
  let err := a_value a in
  if (err =? ERR_CLSD) || (err =? ERR_RST) then
    ask (NETCONN_CLOSE client);;
    ask (NETCONN_DELETE client);;
    imodify (set_newconn 0);;
    mret (PAccept conn)
  else ask (MDELAY 2);; mret (PStream conn client).
Definition round (p : pc) : A pc :=
  match p with
  | PBoot => boot_round
  | PInit conn => init_round conn
  | PAccept conn => accept_round conn
  | PStream conn client => stream_round conn client
  end.
Inductive server_step : pc * server → pc * server → Prop :=
  | server_round p s p' s' : round p s = Done p' s' → server_step (p, s) (p', s').
(** After eth_camera_capture: nothing is set up. *)
Definition server_start (k : kernel) (answers : list answer) : server :=
  Server k 0 false 0 zero_buf (0, 0) answers [].
End camera.

Lemma iwp_kernel {T} (m : K T) Q W s :
  wp m (λ x k, Q x (set_kernel k s)) (sv_kernel s) → iwp (in_kernel m) Q W s.
Proof. unfold wp, iwp, in_kernel. by destruct (m (sv_kernel s)) as [[??]|]. Qed.

(** * The frame check *)

(** An EOI marker, FF D9, at index [j]. *)
Definition eoi (buf : list Z) (j : Z) : Prop :=
  buf !! Z.to_nat j = Some 255 ∧ buf !! Z.to_nat (j + 1) = Some 217.
Lemma jpeg_scan_run buf max_len : 0 ≤ max_len ≤ Z.of_nat (length buf) → max_len < 4294967296 →
  ∀ fuel i, 0 ≤ i → i < max_len ∨ i = 0 → max_len - i < Z.of_nat fuel →
  ∃ n, jpeg_scan fuel buf i max_len = Some n ∧
    (n = 0 ∧ (∀ j, i ≤ j → j + 1 < max_len → ¬ eoi buf j) ∨
     i + 2 ≤ n ≤ max_len ∧ eoi buf (n - 2) ∧ ∀ j, i ≤ j < n - 2 → ¬ eoi buf j).
Proof.
  intros Hlen Hmax. induction fuel as [|fuel IH]; intros i Hi Hlt Hf; [lia|cbn [jpeg_scan]].
  rewrite u32_small by lia. destruct (Z.ltb_spec (i + 1) max_len); [|exists 0; split; [done|left; split; [done|lia]]].
  destruct (lookup_lt_is_Some_2 buf (Z.to_nat i)) as [a Ha]; [lia|].
  destruct (lookup_lt_is_Some_2 buf (Z.to_nat (i + 1))) as [b Hb]; [lia|]. rewrite Ha, Hb. simpl.
  assert ((if a =? 255 then Some (b =? 217) else Some false) = Some (bool_decide (eoi buf i))) as ->.
  { unfold eoi. rewrite Ha, Hb. destruct (Z.eqb_spec a 255) as [->|].
    - f_equal. apply eq_bool_prop_intro. rewrite Is_true_true, bool_decide_spec, Z.eqb_eq. naive_solver.
    - rewrite bool_decide_eq_false_2 by naive_solver. done. }
  case_bool_decide as He.
  - exists (i + 2). rewrite u32_small by lia. split; [done|]. right.
    replace (i + 2 - 2) with i by lia. split; [lia|]. split; [done|lia].
  - destruct (IH (i + 1)) as (n & E & Hn); [lia..|]. exists n. split; [done|].
    destruct Hn as [[-> Hn]|(Hr & Hn & Hno)]; [left|right]; (split; [lia || done|]).
    + intros j Hj1 Hj2. destruct (decide (j = i)) as [->|]; [done|]. apply Hn; lia.
    + split; [done|]. intros j Hj. destruct (decide (j = i)) as [->|]; [done|]. apply Hno. lia.
Qed.
Lemma jpeg_frame_length_run buf max_len :
  0 ≤ max_len ≤ Z.of_nat (length buf) → max_len < 4294967296 →
  ∃ n, jpeg_frame_length buf max_len = Some n ∧
    (n = 0 ∧ (∀ j, 0 ≤ j → j + 1 < max_len → ¬ eoi buf j) ∨
     2 ≤ n ≤ max_len ∧ eoi buf (n - 2) ∧ ∀ j, 0 ≤ j < n - 2 → ¬ eoi buf j).
Proof. intros ??. unfold jpeg_frame_length. apply jpeg_scan_run; [done|done|lia|by right|lia]. Qed.

(** A frame of the protocol: SOI in front, the first EOI at the end. *)
Record whole_frame (data : list Z) : Prop := {
  wf_size : 100 ≤ Z.of_nat (length data) ≤ JPEG_BUF_SIZE;
  wf_soi : data !! 0%nat = Some 255 ∧ data !! 1%nat = Some 216;
  wf_eoi : eoi data (Z.of_nat (length data) - 2);
  wf_first : ∀ j, 0 ≤ j < Z.of_nat (length data) - 2 → ¬ eoi data j
}.
Lemma eoi_take buf n j : 0 ≤ j → j + 2 ≤ n → eoi (take (Z.to_nat n) buf) j ↔ eoi buf j.
Proof. intros ??. unfold eoi. by rewrite !lookup_take_lt by lia. Qed.
(** The server's check accepts whole frames only. *)
Lemma frame_check_run buf :
  length buf = Z.to_nat JPEG_BUF_SIZE →
  ∃ n ok, jpeg_frame_length buf JPEG_BUF_SIZE = Some n ∧ frame_ok n buf = Some ok ∧
    (ok = true → whole_frame (take (Z.to_nat n) buf)).
Proof.
  intros Hlen. assert (Z.of_nat (length buf) = JPEG_BUF_SIZE) as Hz by (rewrite Hlen; done).
  destruct (jpeg_frame_length_run buf JPEG_BUF_SIZE) as (n & E & Hn); [by rewrite Hz|done|].
  exists n. unfold frame_ok. destruct (Z.ltb_spec n 100); [by exists false|].
  destruct Hn as [[-> _]|(Hr & He & Hno)]; [lia|].
  destruct (lookup_lt_is_Some_2 buf 0) as [b0 H0]; [lia|].
  destruct (lookup_lt_is_Some_2 buf 1) as [b1 H1]; [lia|]. rewrite H0, H1. simpl.
  assert (length (take (Z.to_nat n) buf) = Z.to_nat n) as Hl by (rewrite length_take; lia).
  destruct (Z.eqb_spec b0 255) as [->|]; simpl; [|by exists false].
  exists (b1 =? 216). split; [done|]. split; [done|]. intros ->%Z.eqb_eq.
  constructor; rewrite ?Hl, ?Z2Nat.id by lia.
  - lia.
  - by rewrite !lookup_take_lt by lia.
  - by apply eoi_take; [lia..|].
  - intros j Hj. rewrite eoi_take by lia. by apply Hno.
Qed.

(** * The kernel under the server *)

Section server.
Context `{CB : Callbacks}.
(** The idle thread, the server's and the one that draws the display. *)
Context (idle cam lvgl : Z).
Implicit Types (k : kernel) (s : server).

(** The states in which the server runs: those of the system invariant, with the
    server running, and the display's thread of a higher priority, found by its
    name. *)
Record camera_ok (k : kernel) : Prop := {
  co_sys : sys_inv idle k;
  co_runs : current_thread k = Some cam;
  co_above : ∃ thc thl, threads k !! cam = Some thc ∧ threads k !! lvgl = Some thl ∧
    stat_of thl ≠ RT_THREAD_CLOSE ∧ th_current_priority thl < th_current_priority thc;
  co_name : ∀ l p, containers k !! RT_Object_Class_Thread = Some l → p ∈ l →
    same_name k p LVGL_NAME → p = Obj lvgl
}.

Lemma lvgl_waits k : camera_ok k →
  ∃ thl, threads k !! lvgl = Some thl ∧ stat_of thl ≠ RT_THREAD_CLOSE ∧ stat_of thl ≠ RT_THREAD_READY ∧ lvgl ≠ 0.
Proof.
  intros [Hk Hrun (thc & thl & Hc & Hl & Hcl & Hlt) _]. exists thl. split_and!; try done.
  - intros Hst. destruct (sys_runs_highest idle k Hk) as (t & th & Ht & Hth & _ & _ & Hhigh).
    rewrite Hrun in Ht. injection Ht as <-. rewrite Hc in Hth. injection Hth as <-.
    specialize (Hhigh _ _ Hl Hst). lia.
  - apply (ki_thread _ _ (sy_inv _ _ Hk) _ _ Hl Hcl).
Qed.
Lemma lvgl_suspend_err k k' : camera_ok k → switch_frame k k' →
  rt_thread_suspend lvgl k' = Some (- RT_ERROR, k').
Proof.
  intros Hk Hs. destruct (lvgl_waits k Hk) as (thl & Hl & Hc & Hr & _).
  apply (rt_thread_suspend_err 1 k' lvgl thl); try done.
  - apply (kinv_switch 1 k); [done|apply (sy_inv _ _ (co_sys _ Hk))].
  - destruct Hs as (c & p & ->). done.
Qed.
Lemma find_lvgl_run k : camera_ok k →
  wp (rt_thread_find (Some LVGL_NAME)) (λ r k', (r = None ∨ r = Some (Obj lvgl)) ∧ switch_frame k k' ∧
    current_thread k' = current_thread k) k.
Proof.
  intros Hk. pose proof (co_sys _ Hk) as Hs. pose proof (sy_inv _ _ Hs) as Hki.
  destruct (sy_classes _ _ Hs) as ([l Hl] & _). destruct (sy_idle _ _ Hs) as (thi & Hi & Hsti).
  unfold rt_thread_find. eapply wp_mono; [apply (rt_object_find_run k LVGL_NAME RT_Object_Class_Thread l)|].
  - apply Hki.
  - apply Hki.
  - right. by exists idle, thi.
  - rewrite (sy_lock _ _ Hs). lia.
  - apply Hs.
  - done.
  - apply (bool_decide_unpack _). by vm_compute.
  - apply (bool_decide_unpack _). by vm_compute.
  - intros r k' (_ & (c & p & -> & _ & Hc) & Hr). split.
    + destruct r as [q|]; [right|by left]. destruct Hr as (l1 & l2 & -> & Hn & _). f_equal.
      apply (co_name _ Hk _ _ Hl); [|done]. apply elem_of_app. right. by left.
    + split; [by exists c, p|]. simpl. destruct Hc as (u & -> & Hu).
      { apply Hs. } { by rewrite (co_runs _ Hk). }
      destruct (sy_first _ _ Hs (sy_lock _ _ Hs)) as (v & Hv & Hnv).
      rewrite Hv. f_equal. by eapply next_to_run_unique.
Qed.
Lemma pause_lvgl_run k tid : camera_ok k → tid = 0 ∨ tid = lvgl →
  wp (pause_lvgl tid) (λ tid' k', (tid' = 0 ∨ tid' = lvgl) ∧ switch_frame k k' ∧
    current_thread k' = current_thread k) k.
Proof.
  intros Hk Htid. destruct (lvgl_waits k Hk) as (thl & Hl & _ & _ & Hnz).
  assert (∀ k', switch_frame k k' → current_thread k' = current_thread k → ∀ t, t = 0 ∨ t = lvgl →
    wp (when (negb (t =? 0)) (rt_thread_suspend t;; mret tt);; mret t) (λ tid' k', (tid' = 0 ∨ tid' = lvgl) ∧
      switch_frame k k' ∧ current_thread k' = current_thread k) k') as Hsusp.
  { intros k' Hs Hc t [->| ->]; wp_simpl; [by split; [left|]|].
    rewrite (proj2 (Z.eqb_neq _ _) Hnz). simpl. wp_simpl.
    rewrite (wp_run _ _ _ _ _ (lvgl_suspend_err k k' Hk Hs)). by split; [right|]. }
  unfold pause_lvgl. wp_simpl. destruct (Z.eqb_spec tid 0) as [->|Hne].
  - wp_simpl. eapply wp_mono; [by apply find_lvgl_run|]. intros r k' ([->| ->] & Hs & Hc).
    + apply (Hsusp k' Hs Hc 0). by left.
    + apply (Hsusp k' Hs Hc lvgl). by right.
  - apply (Hsusp k); [|done|done]. exists (current_thread k), (current_priority k). by destruct k.
Qed.
Lemma resume_lvgl_run k tid : camera_ok k → tid = 0 ∨ tid = lvgl → wp (resume_lvgl tid) (λ _ _, True) k.
Proof.
  intros Hk [->| ->]; [done|]. destruct (lvgl_waits k Hk) as (thl & Hl & Hc & Hr & Hnz).
  unfold resume_lvgl. wp_simpl. rewrite (proj2 (Z.eqb_neq _ _) Hnz). simpl. wp_simpl.
  pose proof (sy_inv _ _ (co_sys _ Hk)) as Hki.
  destruct (decide (stat_of thl = RT_THREAD_SUSPEND)).
  - eapply wp_mono; [by apply (rt_thread_resume_run 1 k lvgl thl)|]. done.
  - by rewrite (wp_run _ _ _ _ _ (rt_thread_resume_err 1 k lvgl thl Hki Hl Hc n)).
Qed.

(** The display is never paused, but its waits are cut short. Whenever the server
    (priority 15) runs, the display's thread (priority 11) is not READY, so
    eth_camera_pause_lvgl leaves every thread, list and timer as it is; and when
    the display's thread sleeps or waits at the end of a capture,
    eth_camera_resume_lvgl makes it READY at once and stops its timer. *)
Theorem eth_camera_pause_lvgl_noop k tid :
  camera_ok k → tid = 0 ∨ tid = lvgl →
  wp (pause_lvgl tid) (λ tid' k', (tid' = 0 ∨ tid' = lvgl) ∧ threads k' = threads k ∧
    tlists k' = tlists k ∧ timer_list k' = timer_list k ∧ timers k' = timers k ∧
    current_thread k' = current_thread k) k ∧
  ∀ thl, threads k !! lvgl = Some thl → stat_of thl = RT_THREAD_SUSPEND →
    wp (resume_lvgl lvgl) (λ _ k',
      (∃ th', threads k' !! lvgl = Some th' ∧ stat_of th' = RT_THREAD_READY) ∧
      (∃ l, tl (LReady (th_current_priority thl)) k' = l ++ [lvgl]) ∧
      ThTimer lvgl ∉ timer_list k') k.
Proof.
  intros Hk Htid. split.
  { eapply wp_mono; [by apply pause_lvgl_run|]. by intros t' k' (? & (c & p & ->) & ?). }
  intros thl Hl Hst. destruct (lvgl_waits k Hk) as (thl' & Hl' & _ & _ & Hnz).
  unfold resume_lvgl. wp_simpl. rewrite (proj2 (Z.eqb_neq _ _) Hnz). simpl. wp_simpl.
  eapply wp_mono; [apply (rt_thread_resume_run 1 k lvgl thl); [apply (sy_inv _ _ (co_sys _ Hk))|done..]|].
  intros r k' (_ & [_ _ Eth Htl _] & El & _). apply wp_ret. rewrite Eth, lookup_insert_eq, Htl, El. split_and!.
  - eexists. split; [done|]. by apply stat_of_with_stat.
  - exists (tl (LReady (th_current_priority thl)) k). unfold tl_ready. by rewrite decide_True.
  - rewrite elem_of_lremove. by intros [_ ?].
Qed.

(** * What the server sends *)

Definition only_frames (log : list request) : Prop :=
  ∀ client data, NETCONN_WRITE client data ∈ log → whole_frame data.
(** All answers come back in states in which the server runs. *)
Record good (s : server) : Prop := {
  gd_buf : length (jpeg_buf s) = Z.to_nat JPEG_BUF_SIZE;
  gd_tid : s_lvgl_tid s = 0 ∨ s_lvgl_tid s = lvgl;
  gd_answers : Forall (λ a, camera_ok (a_kernel a)) (sv_answers s);
  gd_log : only_frames (sv_log s)
}.
(** The connection of [eth_camera_is_streaming]. *)
Definition client_of (p : pc) : Z := match p with PStream _ client => client | _ => 0 end.
Record round_inv (p : pc) (s : server) : Prop := {
  ri_good : good s;
  ri_kernel : camera_ok (sv_kernel s);
  ri_client : g_newconn s = client_of p
}.
(** From [s] to [s'] nothing was accepted, and answers were taken in their order. *)
Definition no_accept (r : request) : Prop := ∀ conn, r ≠ NETCONN_ACCEPT conn.
Definition stays s s' : Prop :=
  (∃ rs, sv_log s' = sv_log s ++ rs ∧ Forall no_accept rs) ∧ sv_answers s' `suffix_of` sv_answers s.
#[global] Instance stays_preorder : PreOrder stays.
Proof.
  split; [intros s; split; [exists []; by rewrite app_nil_r|done]|].
  intros s1 s2 s3 [(r1 & E1 & F1) S1] [(r2 & E2 & F2) S2]. split; [|by etrans].
  exists (r1 ++ r2). rewrite E2, E1, app_assoc. split; [done|]. by apply Forall_app.
Qed.

Lemma only_frames_snoc log r : only_frames log → (∀ c d, r = NETCONN_WRITE c d → whole_frame d) →
  only_frames (log ++ [r]).
Proof.
  intros Hl Hr c d. rewrite elem_of_app, list_elem_of_singleton. intros [?|E]; [by eapply Hl|]. by eapply Hr.
Qed.
Lemma good_log s r : good s → (∀ c d, r = NETCONN_WRITE c d → whole_frame d) → good (log_request r s).
Proof. intros [] Hr. constructor; try done. by apply only_frames_snoc. Qed.
(** A call of lwIP or the hardware. *)
Lemma ask_run r (Q : answer → server → Prop) s :
  good s → (∀ c d, r = NETCONN_WRITE c d → whole_frame d) →
  (∀ a s', good s' → camera_ok (sv_kernel s') → g_newconn s' = g_newconn s → jpeg_buf s' = jpeg_buf s →
     a ∈ sv_answers s → (no_accept r → stays s s') → Q a s') →
  iwp (ask r) Q good s.
Proof.
  intros Hg Hr HQ. apply iwp_ask; [by apply good_log|]. intros a s' E.
  cbn in E. pose proof (gd_answers _ Hg) as Ha. destruct (sv_answers s) as [|a0 answers] eqn:Ea; [done|]. injection E as <- <-. apply Forall_cons in Ha as [Ha Hrest].
  apply HQ; try done.
  - pose proof (good_log s r Hg Hr) as []. by constructor.
  - by left.
  - intros Hn. split; [|rewrite Ea; by exists [a0]]. exists [r]. split; [done|]. by constructor.
Qed.

Lemma frame_words_range w h : 0 ≤ frame_words w h JPEG_BUF_SIZE ≤ 8192.
Proof.
  unfold frame_words. change (JPEG_BUF_SIZE / 4) with 8192. change (4 <=? JPEG_BUF_SIZE) with true.
  cbv zeta. cbv iota. pose proof (u32_range (w * h)). pose proof (Z.div_pos (u32 (w * h)) 4).
  destruct (Z.ltb_spec 8192 (u32 (w * h) / 4)); lia.
Qed.
(** One capture: the buffer keeps its size, whatever the DMA writes. *)
Lemma capture_run (Q : Z → server → Prop) s :
  good s → camera_ok (sv_kernel s) →
  (∀ ret s', good s' → g_newconn s' = g_newconn s → stays s s' → Q ret s') →
  iwp capture Q good s.
Proof.
  intros Hg Hk HQ. unfold capture, eth_camera_pause_lvgl, eth_camera_resume_lvgl, atk_mc2640_get_frame_sized.
  iwp_simpl. apply iwp_kernel. eapply wp_mono; [apply pause_lvgl_run; [done|apply Hg]|].
  intros tid k1 (Htid & _). iwp_simpl. simpl. destruct (output_size s) as [w h].
  pose proof (frame_words_range w h) as Hw. iwp_simpl.
  apply ask_run; [|done|].
  { destruct Hg. by constructor. }
  intros a s2 [Hb2 Ht2 Ha2 Hl2] Hk2 Ec Ej _ Hst. iwp_simpl. apply iwp_kernel. simpl.
  eapply wp_mono; [apply (resume_lvgl_run _ _ Hk2 Ht2)|]. intros [] k3 _. iwp_simpl.
  apply HQ.
  - constructor; try done. simpl. rewrite length_app, length_drop, length_take, Hb2.
    unfold JPEG_BUF_SIZE in *. lia.
  - done.
  - destruct Hst as [(rs & E & Hf) Hsuf]; [by intros ?|]. split; [|done]. by exists rs.
Qed.
Lemma stays_refl s : stays s s.
Proof. done. Qed.

(** A round of the stream goes on with the same client, unless lwIP answers that the
    connection is closed or reset. *)
Lemma stream_round_run conn client s :
  round_inv (PStream conn client) s →
  iwp (stream_round conn client) (λ p' s', round_inv p' s' ∧ stays s s' ∧
    (p' = PStream conn client ∨ ∃ a, a ∈ sv_answers s ∧ (a_value a = ERR_CLSD ∨ a_value a = ERR_RST))) good s.
Proof.
  intros [Hg Hk Hc]. simpl in Hc. unfold stream_round. iwp_simpl. apply capture_run; [done..|].
  intros ret s1 Hg1 Ec1 Hs1. assert (g_newconn s1 = client) as Hc1 by congruence.
  assert (∀ ms s2, good s2 → g_newconn s2 = client → stays s s2 →
    iwp (ask (MDELAY ms);; mret (PStream conn client)) (λ p' s', round_inv p' s' ∧ stays s s' ∧
      (p' = PStream conn client ∨ ∃ a, a ∈ sv_answers s ∧ (a_value a = ERR_CLSD ∨ a_value a = ERR_RST)))
      good s2) as Hwait.
  { intros ms s2 Hg2 Hc2 Hs2. iwp_simpl. apply ask_run; [done..|].
    intros a s3 Hg3 Hk3 Hc3 _ _ Hs3. iwp_simpl. split; [constructor; [done..|simpl; congruence]|].
    split; [etrans; [done|by apply Hs3]|by left]. }
  destruct (negb (ret =? ATK_MC2640_EOK)); [by apply Hwait|]. iwp_simpl.
  destruct (frame_check_run (jpeg_buf s1)) as (n & ok & En & Eok & Hok); [apply Hg1|].
  eapply iwp_lift; [exact En|]. iwp_simpl. eapply iwp_lift; [exact Eok|].
  destruct ok; simpl; [|by apply Hwait]. iwp_simpl.
  apply ask_run; [done|intros c d [= _ <-]; by apply Hok|].
  intros a s2 Hg2 Hk2 Ec2 _ Ha Hs2. assert (stays s s2) as Hs2' by (etrans; [done|by apply Hs2]).
  assert (a ∈ sv_answers s) as Ha'.
  { destruct Hs1 as [_ [l El]]. rewrite El. apply elem_of_app. by right. }
  destruct ((a_value a =? ERR_CLSD) || (a_value a =? ERR_RST)) eqn:Eerr.
  - apply orb_true_iff in Eerr. rewrite !Z.eqb_eq in Eerr. iwp_simpl.
    apply ask_run; [done..|]. intros a3 s3 Hg3 Hk3 Ec3 _ _ Hs3. iwp_simpl.
    apply ask_run; [done..|]. intros a4 s4 Hg4 Hk4 Ec4 _ _ Hs4. iwp_simpl. split.
    { constructor; [|done|done]. destruct Hg4. by constructor. }
    split; [|right; by exists a]. etrans; [done|]. etrans; [by apply Hs3|]. by apply Hs4.
  - apply Hwait; [done|congruence|done].
Qed.

Lemma listen_create_run (Q : Z → server → Prop) s :
  good s → camera_ok (sv_kernel s) →
  (∀ conn s', good s' → camera_ok (sv_kernel s') → g_newconn s' = g_newconn s → Q conn s') →
  iwp eth_camera_listen_create Q good s.
Proof.
  intros Hg Hk HQ. unfold eth_camera_listen_create. iwp_simpl.
  apply ask_run; [done..|]. intros a1 s1 Hg1 Hk1 E1 _ _ _. destruct (a_value a1 =? 0); [by apply HQ|]. iwp_simpl.
  apply ask_run; [done..|]. intros a2 s2 Hg2 Hk2 E2 _ _ _.
  destruct (negb (a_value a2 =? ERR_OK)); iwp_simpl.
  { apply ask_run; [done..|]. intros a3 s3 Hg3 Hk3 E3 _ _ _. apply HQ; congruence. }
  apply ask_run; [done..|]. intros a3 s3 Hg3 Hk3 E3 _ _ _.
  destruct (negb (a_value a3 =? ERR_OK)); iwp_simpl.
  { apply ask_run; [done..|]. intros a4 s4 Hg4 Hk4 E4 _ _ _. apply HQ; congruence. }
  apply HQ; [by apply good_log|done|simpl; congruence].
Qed.
Lemma round_run p s : round_inv p s → iwp (round p) round_inv good s.
Proof.
  intros Hi. pose proof Hi as [Hg Hk Hc]. destruct p as [|conn|conn|conn client]; simpl in Hc; cbn [round].
  - unfold boot_round. iwp_simpl. apply ask_run; [done..|]. intros a1 s1 Hg1 Hk1 E1 _ _ _.
    destruct (a_value a1 =? 0); iwp_simpl.
    { apply ask_run; [done..|]. intros a2 s2 Hg2 Hk2 E2 _ _ _. iwp_simpl. constructor; simpl; congruence. }
    apply listen_create_run; [done..|]. intros conn s2 Hg2 Hk2 E2.
    destruct (negb (conn =? 0)); iwp_simpl; [constructor; simpl; congruence|].
    apply ask_run; [done..|]. intros a3 s3 Hg3 Hk3 E3 _ _ _. iwp_simpl. constructor; simpl; congruence.
  - unfold init_round, eth_camera_init. iwp_simpl. destruct (negb (camera_inited s)); iwp_simpl; [|by constructor].
    apply ask_run; [done..|]. intros a1 s1 Hg1 Hk1 E1 _ _ _. iwp_simpl.
    apply ask_run; [destruct Hg1; by constructor|done|]. intros a2 s2 Hg2 Hk2 E2 _ _ _. iwp_simpl.
    constructor; [done|done|]. rewrite E2. simpl. congruence.
  - unfold accept_round. iwp_simpl. apply ask_run; [done..|]. intros a1 s1 Hg1 Hk1 E1 _ _ _.
    destruct (negb (a_value a1 =? ERR_OK)); iwp_simpl; [constructor; simpl; congruence|].
    apply ask_run; [destruct Hg1; by constructor|done|]. intros a2 s2 Hg2 Hk2 E2 _ _ _. iwp_simpl.
    apply ask_run; [done..|]. intros a3 s3 Hg3 Hk3 E3 _ _ _. iwp_simpl.
    constructor; [done|done|]. rewrite E3, E2. done.
  - eapply iwp_mono; [by apply stream_round_run|by intros p' s' [? _]|done].
Qed.
Lemma server_steps_inv x y : round_inv x.1 x.2 → rtc server_step x y → round_inv y.1 y.2.
Proof.
  intros Hx. induction 1 as [|x y z [p s p' s' E] _ IH]; [done|]. apply IH.
  pose proof (round_run p s Hx) as Hw. unfold iwp in Hw. by rewrite E in Hw.
Qed.
Lemma start_inv k answers :
  camera_ok k → Forall (λ a, camera_ok (a_kernel a)) answers → round_inv PBoot (server_start k answers).
Proof.
  intros Hk Ha. constructor; [|done|done]. constructor; [apply zero_buf_length|by left|done|].
  intros c d H. by apply not_elem_of_nil in H.
Qed.

(** C4. Whatever lwIP, the camera and the DMA answer: the server never fails; every
    buffer it hands to netconn_write is a whole JPEG frame of 100 bytes to 32 KB,
    with the SOI in front and its first EOI at the end; and eth_camera_is_streaming
    tells whether the thread is in its streaming loop, with which client. *)
Theorem server_sends_frames k answers p s :
  camera_ok k → Forall (λ a, camera_ok (a_kernel a)) answers →
  rtc server_step (PBoot, server_start k answers) (p, s) →
  only_frames (sv_log s) ∧ g_newconn s = client_of p ∧
  match round p s with
  | Done p' s' => server_step (p, s) (p', s')
  | Waits s' => only_frames (sv_log s')
  | Fails => False
  end.
Proof.
  intros Hk Ha Hr. pose proof (server_steps_inv (_, _) (_, _) (start_inv _ _ Hk Ha) Hr) as Hi. simpl in Hi.
  split; [apply Hi|]. split; [apply Hi|]. pose proof (round_run p s Hi) as Hw. unfold iwp in Hw.
  destruct (round p s) as [p' s'|s'|] eqn:E; [by constructor|apply Hw|done].
Qed.

(** Only ERR_CLSD and ERR_RST end the streaming loop: as long as lwIP answers with
    other values, errors such as ERR_ABRT or ERR_CONN of a dead connection included,
    the server goes on capturing for this client and accepts no other one. *)
Theorem server_keeps_dead_client conn client s p' s' :
  round_inv (PStream conn client) s →
  Forall (λ a, a_value a ≠ ERR_CLSD ∧ a_value a ≠ ERR_RST) (sv_answers s) →
  rtc server_step (PStream conn client, s) (p', s') →
  p' = PStream conn client ∧ g_newconn s' = client ∧
  ∃ rs, sv_log s' = sv_log s ++ rs ∧ Forall no_accept rs.
Proof.
  intros Hi Hans Hr.
  assert (p' = PStream conn client ∧ round_inv p' s' ∧ stays s s') as (-> & Hi' & [Hrs _]).
  { remember (PStream conn client, s) as x eqn:Ex. remember (p', s') as y eqn:Ey.
    revert s Hi Hans Ex. induction Hr as [x|x z y [p s1 p2 s2 E] _ IH]; intros s Hi Hans Ex.
    { rewrite Ex in Ey. by simplify_eq. }
    injection Ex as -> ->. pose proof (stream_round_run conn client s Hi) as Hw. unfold iwp in Hw.
    cbn [round] in E. rewrite E in Hw. destruct Hw as (Hi2 & Hst & [->|(a & Ha & Herr)]).
    - destruct Hst as [Hrs [l El]]. rewrite El in Hans. apply Forall_app in Hans as [_ Hans].
      destruct (IH Ey s2 Hi2 Hans eq_refl) as (? & ? & Hst2). split; [done|]. split; [done|].
      etrans; [split; [exact Hrs|by exists l]|done].
    - rewrite Forall_forall in Hans. specialize (Hans a Ha). naive_solver. }
  split; [done|]. split; [apply Hi'|done].
Qed.
End server.
