(* ===== verification/Sccb.v ===== *)
(** The bit-banged bus of the camera's sensor: board/ATK_MC2640/atk_mc2640_sccb.c. The state is that of the
    two pins, and every level that the lines have had. The sensor at the other end is the class [Peer]: any
    function of what was on the lines. The delays of 5 us between the edges are left out.

    The specification is the protocol: [decode] reads start and stop conditions and bits off the lines. *)
From S2P Require Import Prelude.

(** * The two lines *)

(** The output registers of SCL and SDA, the mode of SDA, and the levels (SCL, SDA), the newest first. *)
Record pins := Pins { scl : bool; sda : bool; sda_in : bool; lines : list (bool * bool) }.
(** The level that the sensor and the pull-up leave on SDA while the pin is an input. *)
Class Peer := { peer_sda : list (bool * bool) → bool }.

Abbreviation B := (M pins).

Section sccb.
Context `{PE : Peer}.

(** A driven line has the level of its output register. *)
Definition settle (s : pins) : pins :=
  Pins (scl s) (sda s) (sda_in s) ((scl s, if sda_in s then peer_sda (lines s) else sda s) :: lines s).
Definition set_scl (x : bool) (s : pins) : pins := settle (Pins x (sda s) (sda_in s) (lines s)).
Definition set_sda (x : bool) (s : pins) : pins := settle (Pins (scl s) x (sda_in s) (lines s)).
Definition set_sda_in (x : bool) (s : pins) : pins := settle (Pins (scl s) (sda s) x (lines s)).
Definition sda_level (s : pins) : bool := match lines s with (_, d) :: _ => d | [] => true end.
Definition ATK_MC2640_SCCB_SCL (x : bool) : B unit := modify (set_scl x).
Definition ATK_MC2640_SCCB_SDA (x : bool) : B unit := modify (set_sda x).
Definition ATK_MC2640_SCCB_READ_SDA : B bool := gets sda_level.
Definition atk_mc2640_sccb_set_sda_output : B unit := modify (set_sda_in false).
Definition atk_mc2640_sccb_set_sda_input : B unit := modify (set_sda_in true).

Definition ATK_MC2640_SCCB_WRITE : Z := 0x00.
Definition ATK_MC2640_SCCB_READ : Z := 0x01.

Definition atk_mc2640_sccb_start : B unit :=
  ATK_MC2640_SCCB_SDA true;;
  ATK_MC2640_SCCB_SCL true;;
  ATK_MC2640_SCCB_SDA false;;
  ATK_MC2640_SCCB_SCL false.
Definition atk_mc2640_sccb_stop : B unit :=
  ATK_MC2640_SCCB_SDA false;;
  ATK_MC2640_SCCB_SCL true;;
  ATK_MC2640_SCCB_SDA true.

(** The rounds with dat_index < n. *)
Fixpoint write_bits (n : nat) (dat : Z) : B unit :=
  match n with
  | O => mret tt
  | S dat_index =>
      let dat_bit := Z.land (Z.shiftr dat (Z.of_nat dat_index)) 0x01 in
      ATK_MC2640_SCCB_SDA (negb (dat_bit =? 0));;
      ATK_MC2640_SCCB_SCL true;;
      ATK_MC2640_SCCB_SCL false;;
      write_bits dat_index dat
  end.
Definition atk_mc2640_sccb_write_byte (dat : Z) : B unit :=
  write_bits 8 dat;;
  ATK_MC2640_SCCB_SDA true;;
  ATK_MC2640_SCCB_SCL true;;
  ATK_MC2640_SCCB_SCL false.
Fixpoint read_bits (n : nat) (dat : Z) : B Z :=
  match n with
  | O => mret dat
  | S dat_index =>
      ATK_MC2640_SCCB_SCL true;;
      dat_bit ← ATK_MC2640_SCCB_READ_SDA;
      let dat := u8 (Z.lor dat (Z.shiftl (Z.b2z dat_bit) (Z.of_nat dat_index))) in
      ATK_MC2640_SCCB_SCL false;;
      read_bits dat_index dat
  end.
Definition atk_mc2640_sccb_read_byte : B Z :=
  atk_mc2640_sccb_set_sda_input;;
  dat ← read_bits 8 0;
  ATK_MC2640_SCCB_SCL true;;
  ATK_MC2640_SCCB_SCL false;;
  ATK_MC2640_SCCB_SDA false;;
  atk_mc2640_sccb_set_sda_output;;
  mret dat.

(** Both pins become outputs with the level of their registers. *)
Definition atk_mc2640_sccb_init : B unit :=
  modify (set_sda_in false);;
  atk_mc2640_sccb_stop.
Definition atk_mc2640_sccb_3_phase_write (id_addr sub_addr dat : Z) : B unit :=
  atk_mc2640_sccb_start;;
  atk_mc2640_sccb_write_byte (u8 (Z.lor (Z.shiftl id_addr 1) ATK_MC2640_SCCB_WRITE));;
  atk_mc2640_sccb_write_byte sub_addr;;
  atk_mc2640_sccb_write_byte dat;;
  atk_mc2640_sccb_stop.
Definition atk_mc2640_sccb_2_phase_write (id_addr sub_addr : Z) : B unit :=
  atk_mc2640_sccb_start;;
  atk_mc2640_sccb_write_byte (u8 (Z.lor (Z.shiftl id_addr 1) ATK_MC2640_SCCB_WRITE));;
  atk_mc2640_sccb_write_byte sub_addr;;
  atk_mc2640_sccb_stop.
Definition atk_mc2640_sccb_2_phase_read (id_addr : Z) : B Z :=
  atk_mc2640_sccb_start;;
  atk_mc2640_sccb_write_byte (u8 (Z.lor (Z.shiftl id_addr 1) ATK_MC2640_SCCB_READ));;
  dat ← atk_mc2640_sccb_read_byte;
  atk_mc2640_sccb_stop;;
  mret dat.
End sccb.

(** * The protocol *)

Inductive wire := Start | Stop | Bit (b : bool).
#[export] Instance wire_eq_dec : EqDecision wire.
Proof. solve_decision. Defined.
(** The last levels, whether SDA has kept its level since SCL rose, and what was seen, the newest first. *)
Record rx := Rx { rx_scl : bool; rx_sda : bool; rx_clean : bool; rx_wires : list wire }.
(** SDA that changes while SCL is high is a condition; a bit counts when SCL falls. *)
Definition rx_step (l : bool * bool) (r : rx) : rx :=
  let '(c, d) := l in
  match rx_scl r, c with
  | true, true => if Bool.eqb d (rx_sda r) then r else Rx c d false ((if d then Stop else Start) :: rx_wires r)
  | false, true => Rx c d true (rx_wires r)
  | true, false => Rx c d false (if rx_clean r then Bit (rx_sda r) :: rx_wires r else rx_wires r)
  | false, false => Rx c d (rx_clean r) (rx_wires r)
  end.
(** The lines rest high. *)
Definition decode (h : list (bool * bool)) : rx := foldr rx_step (Rx true true false []) h.
Definition wires (h : list (bool * bool)) : list wire := rev (rx_wires (decode h)).

(** A byte goes over the bus with its highest bit first, and a ninth bit. *)
Fixpoint wbits (n : nat) (b : Z) : list wire :=
  match n with O => [] | S n => Bit (Z.testbit b (Z.of_nat n)) :: wbits n b end.
Definition wbyte (b : Z) (ninth : bool) : list wire := wbits 8 b ++ [Bit ninth].
Definition wpacket (bytes : list Z) : list wire := Start :: flat_map (λ b, wbyte b true) bytes ++ [Stop].

(** * The driver speaks the protocol *)

Section proofs.
Context `{PE : Peer}.
Implicit Types (s : pins) (ws : list wire).

(** SCL and SDA are driven to [c] and [d], and [ws] has been on the bus. *)
Definition bus_at (c d : bool) ws s : Prop :=
  scl s = c ∧ sda s = d ∧ sda_in s = false ∧ ∃ cl, decode (lines s) = Rx c d cl (rev ws).
(** SCL is low and the sensor has SDA. *)
Definition bus_in ws s : Prop := scl s = false ∧ sda_in s = true ∧ ∃ d cl, decode (lines s) = Rx false d cl (rev ws).

Lemma bus_at_wires c d ws s : bus_at c d ws s → wires (lines s) = ws.
Proof. intros (_ & _ & _ & cl & E). unfold wires. rewrite E. apply rev_involutive. Qed.

(** What one operation does to the lines, when the bus is as [bus_at] or [bus_in] says. *)
Ltac bus_at_solve := intros; unfold bus_at, bus_in, decode in *;
  repeat match goal with H : _ ∧ _ |- _ => destruct H | H : ∃ _, _ |- _ => destruct H end; cbn;
  repeat match goal with E : sda_in _ = _ |- _ => rewrite E | E : scl _ = _ |- _ => rewrite E
  | E : foldr _ _ _ = _ |- _ => rewrite E end; cbn;
  split_and!; try done; repeat eexists; by rewrite ?rev_app_distr.
Lemma start_at ws s :
  bus_at true true ws s → bus_at false false (ws ++ [Start]) (set_scl false (set_sda false (set_scl true (set_sda true s)))).
Proof. bus_at_solve. Qed.
Lemma stop_at d ws s :
  bus_at false d ws s → bus_at true true (ws ++ [Stop]) (set_sda true (set_scl true (set_sda false s))).
Proof. bus_at_solve. Qed.
Lemma bit_at b d ws s :
  bus_at false d ws s → bus_at false b (ws ++ [Bit b]) (set_scl false (set_scl true (set_sda b s))).
Proof. bus_at_solve. Qed.
Lemma bit_in ws s :
  bus_in ws s → bus_in (ws ++ [Bit (sda_level (set_scl true s))]) (set_scl false (set_scl true s)).
Proof. bus_at_solve. Qed.
Lemma input_at d ws s : bus_at false d ws s → bus_in ws (set_sda_in true s).
Proof. bus_at_solve. Qed.
Lemma output_at ws s : bus_in ws s → bus_at false false ws (set_sda_in false (set_sda false s)).
Proof. bus_at_solve. Qed.

Lemma wp_SCL x (Q : unit → pins → Prop) s : wp (ATK_MC2640_SCCB_SCL x) Q s ↔ Q tt (set_scl x s).
Proof. done. Qed.
Lemma wp_SDA x (Q : unit → pins → Prop) s : wp (ATK_MC2640_SCCB_SDA x) Q s ↔ Q tt (set_sda x s).
Proof. done. Qed.
Lemma wp_READ_SDA (Q : bool → pins → Prop) s : wp ATK_MC2640_SCCB_READ_SDA Q s ↔ Q (sda_level s) s.
Proof. done. Qed.
Lemma wp_sda_input (Q : unit → pins → Prop) s : wp atk_mc2640_sccb_set_sda_input Q s ↔ Q tt (set_sda_in true s).
Proof. done. Qed.
Lemma wp_sda_output (Q : unit → pins → Prop) s : wp atk_mc2640_sccb_set_sda_output Q s ↔ Q tt (set_sda_in false s).
Proof. done. Qed.
#[local] Hint Rewrite @wp_SCL @wp_SDA @wp_READ_SDA @wp_sda_input @wp_sda_output : wp.
Lemma dat_bit_testbit dat i : 0 ≤ i → negb (Z.land (Z.shiftr dat i) 1 =? 0) = Z.testbit dat i.
Proof.
  intros Hi. change 1 with (Z.ones 1). rewrite Z.land_ones by lia. change (2 ^ 1) with 2.
  rewrite <-Z.bit0_mod, Z.shiftr_spec by lia. rewrite Z.add_0_l. by destruct (Z.testbit dat i).
Qed.
Lemma write_bits_run n dat : ∀ d ws s,
  bus_at false d ws s → wp (write_bits n dat) (λ _ s', ∃ d', bus_at false d' (ws ++ wbits n dat) s') s.
Proof.
  induction n as [|n IH]; intros d ws s Hs; cbn [write_bits wbits]; wp_simpl; [exists d; by rewrite app_nil_r|].
  rewrite dat_bit_testbit by lia. eapply wp_mono; [by eapply IH, bit_at|].
  intros [] s' (d' & H). exists d'. by rewrite <-app_assoc in H.
Qed.
Lemma write_byte_run dat d ws s :
  bus_at false d ws s → wp (atk_mc2640_sccb_write_byte dat) (λ _ s', bus_at false true (ws ++ wbyte dat true) s') s.
Proof.
  intros Hs. unfold atk_mc2640_sccb_write_byte. wp_simpl. eapply wp_mono; [by eapply write_bits_run|].
  intros [] s1 (d' & H1). wp_simpl. unfold wbyte. rewrite app_assoc. by eapply bit_at.
Qed.

(** The bits of a number below 2^n, and those of what [read_bits] puts together. *)
Lemma or_bit_small v b n : 0 ≤ v < 2 ^ 8 → 0 ≤ n < 8 → 0 ≤ Z.lor v (Z.shiftl (Z.b2z b) n) < 2 ^ 8.
Proof.
  intros Hv Hn. assert (0 ≤ Z.shiftl (Z.b2z b) n) by (apply Z.shiftl_nonneg; by destruct b).
  assert (Z.shiftl (Z.b2z b) n < 2 ^ 8).
  { rewrite Z.shiftl_mul_pow2 by lia. pose proof (Z.pow_le_mono_r 2 n 7 ltac:(lia) ltac:(lia)). change (2 ^ 7) with 128 in *.
    destruct b; simpl Z.b2z; lia. }
  assert (0 ≤ Z.lor v (Z.shiftl (Z.b2z b) n)) by (apply Z.lor_nonneg; lia).
  split; [done|]. destruct (decide (Z.lor v (Z.shiftl (Z.b2z b) n) = 0)); [lia|].
  assert (∀ x, 0 ≤ x < 2 ^ 8 → Z.log2 x < 8) as Hlog.
  { intros x Hx. destruct (decide (x = 0)) as [->|]; [done|]. apply (Z.log2_lt_pow2 x 8); lia. }
  apply (Z.log2_lt_pow2 _ 8); [lia|]. rewrite Z.log2_lor by lia. apply Z.max_lub_lt; by apply Hlog.
Qed.
Lemma or_bit_testbit v b n i : 0 ≤ n → 0 ≤ i →
  Z.testbit (Z.lor v (Z.shiftl (Z.b2z b) n)) i = Z.testbit v i || (b && (i =? n)).
Proof.
  intros Hn Hi. rewrite Z.lor_spec. f_equal. rewrite Z.shiftl_spec by lia.
  destruct (Z.eqb_spec i n) as [->|Hne].
  - rewrite Z.sub_diag, Z.b2z_bit0. by destruct b.
  - rewrite andb_false_r. destruct (decide (i < n)); [apply Z.testbit_neg_r; lia|].
    destruct b; [|apply Z.bits_0]. change (Z.b2z true) with (2 ^ 0). apply Z.pow2_bits_false. lia.
Qed.
Lemma wbits_ext n x y : (∀ i, 0 ≤ i < Z.of_nat n → Z.testbit x i = Z.testbit y i) → wbits n x = wbits n y.
Proof.
  induction n as [|n IH]; intros H; simpl; [done|]. rewrite H by lia. f_equal. apply IH. intros i Hi. apply H. lia.
Qed.
(** Each of the [n] bits is the level that the sensor left on SDA when the bits before it had been on the bus. *)
Definition sampled (n : nat) (v : Z) ws : Prop := ∀ i, (i < n)%nat →
  ∃ h, wires h = ws ++ take (n - S i) (wbits n v) ∧ peer_sda h = Z.testbit v (Z.of_nat i).
Lemma read_bits_run n : ∀ v ws s,
  bus_in ws s → 0 ≤ v < 2 ^ 8 → (∀ i, 0 ≤ i < Z.of_nat n → Z.testbit v i = false) → (n ≤ 8)%nat →
  wp (read_bits n v) (λ v' s', 0 ≤ v' < 2 ^ 8 ∧ (∀ i, Z.of_nat n ≤ i → Z.testbit v' i = Z.testbit v i) ∧
    sampled n v' ws ∧ bus_in (ws ++ wbits n v') s') s.
Proof.
  induction n as [|n IH]; intros v ws s Hs Hv Hz Hn; cbn [read_bits wbits]; wp_simpl.
  { rewrite app_nil_r. split; [done|]. split; [done|]. split; [|done]. intros i Hi. lia. }
  set (b := sda_level (set_scl true s)). pose proof (or_bit_small v b (Z.of_nat n) Hv ltac:(lia)) as Hx.
  rewrite u8_small by done. set (x := Z.lor v _) in *.
  eapply wp_mono; [apply (IH x); [by apply bit_in|done| |lia]|].
  { intros i Hi. unfold x. rewrite or_bit_testbit, Hz by lia. rewrite (proj2 (Z.eqb_neq i _)) by lia. by destruct b. }
  intros v' s' (Hr & Ht & Hsm & H). split; [done|].
  assert (Z.testbit v' (Z.of_nat n) = b) as Hb.
  { rewrite Ht by lia. unfold x. by rewrite or_bit_testbit, Hz, Z.eqb_refl, andb_true_r by lia. }
  split_and!.
  - intros i Hi. rewrite Ht by lia. unfold x. rewrite or_bit_testbit by lia.
    rewrite (proj2 (Z.eqb_neq i _)), andb_false_r, orb_false_r by lia. done.
  - intros i Hi. destruct (decide (i = n)) as [->|].
    + exists (lines s). rewrite Nat.sub_diag, app_nil_r. destruct Hs as (_ & Hin & d & cl & E). split.
      * unfold wires. rewrite E. apply rev_involutive.
      * rewrite Hb. unfold b, set_scl, settle. cbn. by rewrite Hin.
    + destruct (Hsm i) as (h & E1 & E2); [lia|]. exists h. split; [|done]. 
      replace (S n - S i)%nat with (S (n - S i)) by lia. cbn [wbits take]. by rewrite E1, <-app_assoc, Hb.
  - rewrite <-app_assoc in H. by rewrite Hb.
Qed.
(** Nine clocks: a byte and the level of SDA in the ninth. *)
Lemma read_byte_run d ws s :
  bus_at false d ws s → wp atk_mc2640_sccb_read_byte
    (λ v s', 0 ≤ v < 256 ∧ sampled 8 v ws ∧ ∃ ninth, bus_at false false (ws ++ wbyte v ninth) s') s.
Proof.
  intros Hs. unfold atk_mc2640_sccb_read_byte. wp_simpl.
  eapply wp_mono; [apply (read_bits_run 8 0); [by eapply input_at|done|intros; apply Z.bits_0|lia]|].
  intros v s1 (Hv & _ & Hsm & H1). wp_simpl. split; [done|]. split; [done|]. eexists. unfold wbyte. rewrite app_assoc.
  by apply output_at, bit_in.
Qed.

Lemma start_run ws s :
  bus_at true true ws s → wp atk_mc2640_sccb_start (λ _ s', bus_at false false (ws ++ [Start]) s') s.
Proof. intros Hs. unfold atk_mc2640_sccb_start. wp_simpl. by apply start_at. Qed.
Lemma stop_run d ws s :
  bus_at false d ws s → wp atk_mc2640_sccb_stop (λ _ s', bus_at true true (ws ++ [Stop]) s') s.
Proof. intros Hs. unfold atk_mc2640_sccb_stop. wp_simpl. by eapply stop_at. Qed.
(** The next byte of a packet, after [H]. *)
Ltac next_byte H := rewrite wp_bind; eapply wp_mono; [apply (write_byte_run _ _ _ _ H)|]; clear H; intros [] ? H.
Lemma shift_or_0 id : Z.lor (Z.shiftl id 1) ATK_MC2640_SCCB_WRITE = 2 * id.
Proof. unfold ATK_MC2640_SCCB_WRITE. rewrite Z.lor_0_r, Z.shiftl_mul_pow2; lia. Qed.
Lemma sccb_3_phase_write_run id sub dat ws s :
  bus_at true true ws s →
  wp (atk_mc2640_sccb_3_phase_write id sub dat) (λ _ s', bus_at true true (ws ++ wpacket [u8 (2 * id); sub; dat]) s') s.
Proof.
  intros Hs. unfold atk_mc2640_sccb_3_phase_write. rewrite shift_or_0, wp_bind.
  eapply wp_mono; [by apply start_run|]. intros [] s1 H. do 3 next_byte H.
  eapply wp_mono; [by eapply stop_run|]. intros [] s2 H2. by rewrite <-!app_assoc in H2.
Qed.
Lemma sccb_2_phase_write_run id sub ws s :
  bus_at true true ws s →
  wp (atk_mc2640_sccb_2_phase_write id sub) (λ _ s', bus_at true true (ws ++ wpacket [u8 (2 * id); sub]) s') s.
Proof.
  intros Hs. unfold atk_mc2640_sccb_2_phase_write. rewrite shift_or_0, wp_bind.
  eapply wp_mono; [by apply start_run|]. intros [] s1 H. do 2 next_byte H.
  eapply wp_mono; [by eapply stop_run|]. intros [] s2 H2. by rewrite <-!app_assoc in H2.
Qed.
Lemma shift_or_1 id : Z.lor (Z.shiftl id 1) ATK_MC2640_SCCB_READ = 2 * id + 1.
Proof.
  unfold ATK_MC2640_SCCB_READ. rewrite Z.shiftl_mul_pow2, Z.pow_1_r by lia. rewrite <-Z.add_nocarry_lor; [lia|].
  change 1 with (Z.ones 1). rewrite Z.land_ones by lia. by apply Z_mod_mult.
Qed.
Lemma sccb_2_phase_read_run id ws s :
  bus_at true true ws s →
  wp (atk_mc2640_sccb_2_phase_read id) (λ v s', 0 ≤ v < 256 ∧ sampled 8 v (ws ++ Start :: wbyte (u8 (2 * id + 1)) true) ∧ ∃ ninth,
    bus_at true true (ws ++ Start :: wbyte (u8 (2 * id + 1)) true ++ wbyte v ninth ++ [Stop]) s') s.
Proof.
  intros Hs. unfold atk_mc2640_sccb_2_phase_read. rewrite shift_or_1.
  rewrite wp_bind. eapply wp_mono; [by apply start_run|]. intros [] s1 H. next_byte H. rewrite wp_bind.
  eapply wp_mono; [apply (read_byte_run true _ _ H)|]. intros v s2 (Hv & Hsm & ninth & H2). rewrite wp_bind.
  eapply wp_mono; [by eapply stop_run|]. intros [] s3 H3. apply wp_ret.
  rewrite <-!app_assoc in H3. rewrite <-app_assoc in Hsm. split; [done|]. split; [done|]. by exists ninth.
Qed.
Lemma sccb_init_run s : lines s = [] → scl s = false → sda s = false →
  wp atk_mc2640_sccb_init (λ _ s', bus_at true true [Stop] s') s.
Proof.
  intros El Ec Ed. unfold atk_mc2640_sccb_init, atk_mc2640_sccb_stop. wp_simpl.
  apply (stop_at false []). destruct s; simpl in *; subst. split_and!; try done. by exists false.
Qed.
End proofs.

(** * A device of registers behind the bus *)

(** What a device with registers makes of accesses to them. *)
Class Registers (D : Type) := {
  reg_write : Z → Z → D → D;
  reg_read : Z → D → Z
}.
Class RegistersLaws D `{Registers D} := { reg_read_range : ∀ r d, 0 ≤ reg_read r d < 256 }.

Section device.
Context {D : Type} `{RD : Registers D} (id : Z) (d0 : D).

(** Between a start and a stop: the whole bytes, and the bits of the next one, [sl_n] of them. *)
Record slave := Slave { sl_bytes : list Z; sl_n : nat; sl_acc : Z; sl_ptr : Z; sl_dev : D }.
(** Three bytes write a register; two bytes choose the one that is read. *)
Definition slave_commit (s : slave) : slave :=
  match sl_bytes s with
  | [i; r; v] => if i =? 2 * id then Slave [] 0 0 r (reg_write r v (sl_dev s)) else Slave [] 0 0 (sl_ptr s) (sl_dev s)
  | [i; r] => if i =? 2 * id then Slave [] 0 0 r (sl_dev s) else Slave [] 0 0 (sl_ptr s) (sl_dev s)
  | _ => Slave [] 0 0 (sl_ptr s) (sl_dev s)
  end.
Definition slave_step (s : slave) (w : wire) : slave :=
  match w with
  | Start => Slave [] 0 0 (sl_ptr s) (sl_dev s)
  | Stop => slave_commit s
  | Bit b => if (sl_n s <? 8)%nat then Slave (sl_bytes s) (S (sl_n s)) (2 * sl_acc s + Z.b2z b) (sl_ptr s) (sl_dev s)
             else Slave (sl_bytes s ++ [sl_acc s]) 0 0 (sl_ptr s) (sl_dev s)
  end.
Definition slave_of (ws : list wire) : slave := foldl slave_step (Slave [] 0 0 0 d0) ws.
(** After its address for reading it sends the register, and leaves SDA alone otherwise. *)
Definition slave_sda (s : slave) : bool :=
  match sl_bytes s with
  | [i] => if (i =? 2 * id + 1) && (sl_n s <? 8)%nat
           then Z.testbit (reg_read (sl_ptr s) (sl_dev s)) (7 - Z.of_nat (sl_n s)) else true
  | _ => true
  end.
(** The peer is such a device. *)
Definition peer_is_device `{Peer} : Prop := ∀ h, peer_sda h = slave_sda (slave_of (wires h)).

Lemma slave_bits k b bytes n acc ptr d :
  (n + k ≤ 8)%nat → foldl slave_step (Slave bytes n acc ptr d) (wbits k b) =
    Slave bytes (n + k) (acc * 2 ^ Z.of_nat k + b `mod` 2 ^ Z.of_nat k) ptr d.
Proof.
  revert n acc. induction k as [|k IH]; intros n acc Hn; cbn [wbits foldl slave_step].
  - rewrite Z.mod_1_r. f_equal; [lia|]. change (2 ^ Z.of_nat 0) with 1. lia.
  - cbn [sl_n sl_bytes sl_acc sl_ptr sl_dev]. rewrite (proj2 (Nat.ltb_lt n 8)) by lia. rewrite IH by lia.
    f_equal; [lia|]. rewrite Nat2Z.inj_succ, Z.pow_succ_r by lia.
    pose proof (Z.pow_pos_nonneg 2 (Z.of_nat k) ltac:(lia) ltac:(lia)) as Hp.
    rewrite (Z.mul_comm 2 (2 ^ Z.of_nat k)), Z.rem_mul_r by lia.
    pose proof (Z.testbit_spec' b (Z.of_nat k) ltac:(lia)) as Hb. rewrite Hb. lia.
Qed.
Lemma slave_byte b ninth bytes ptr d :
  0 ≤ b < 256 → foldl slave_step (Slave bytes 0 0 ptr d) (wbyte b ninth) = Slave (bytes ++ [b]) 0 0 ptr d.
Proof.
  intros Hb. unfold wbyte. rewrite foldl_app, slave_bits by lia. cbn. by rewrite Z.mod_small by lia.
Qed.
Lemma slave_bytes (l : list Z) ptr d : ∀ bytes, Forall (λ b, 0 ≤ b < 256) l →
  foldl slave_step (Slave bytes 0 0 ptr d) (flat_map (λ b, wbyte b true) l) = Slave (bytes ++ l) 0 0 ptr d.
Proof.
  induction l as [|b l IH]; intros bytes Hl; cbn [flat_map]; [by rewrite app_nil_r|].
  apply Forall_cons in Hl as [Hb Hl]. by rewrite foldl_app, slave_byte, IH, <-app_assoc.
Qed.

Context `{PE : Peer} `{!RegistersLaws D} (Hid : 0 ≤ id < 128) (Hpeer : peer_is_device).
Implicit Types (s : pins) (d : D).

(** The bus rests, and the device has come to [d] with the register [ptr] chosen. *)
Definition device_at (ptr : Z) (d : D) s : Prop :=
  ∃ ws, bus_at true true ws s ∧ ∃ bytes n acc, slave_of ws = Slave bytes n acc ptr d.

Lemma slave_packet l ws ptr d :
  Forall (λ b, 0 ≤ b < 256) l → (∃ bytes n acc, slave_of ws = Slave bytes n acc ptr d) →
  slave_of (ws ++ wpacket l) = slave_commit (Slave l 0 0 ptr d).
Proof.
  intros Hl (bytes & n & acc & E). unfold slave_of in *. rewrite foldl_app, E. unfold wpacket. cbn [foldl slave_step].
  by rewrite foldl_app, slave_bytes.
Qed.
Lemma write_register_run r v ptr d s :
  device_at ptr d s → 0 ≤ r < 256 → 0 ≤ v < 256 →
  wp (atk_mc2640_sccb_3_phase_write id r v) (λ _ s', device_at r (reg_write r v d) s') s.
Proof using Hid.
  intros (ws & Hs & Hd) Hr Hv. eapply wp_mono; [by apply sccb_3_phase_write_run|]. intros [] s' Hs'.
  eexists. split; [done|]. rewrite u8_small, (slave_packet _ _ ptr d) by (repeat constructor; lia || done).
  unfold slave_commit. cbn. rewrite Z.eqb_refl. by eexists _, _, _.
Qed.
Lemma choose_register_run r ptr d s :
  device_at ptr d s → 0 ≤ r < 256 →
  wp (atk_mc2640_sccb_2_phase_write id r) (λ _ s', device_at r d s') s.
Proof using Hid.
  intros (ws & Hs & Hd) Hr. eapply wp_mono; [by apply sccb_2_phase_write_run|]. intros [] s' Hs'.
  eexists. split; [done|]. rewrite u8_small, (slave_packet _ _ ptr d) by (repeat constructor; lia || done).
  unfold slave_commit. cbn. rewrite Z.eqb_refl. by eexists _, _, _.
Qed.
Lemma wbits_lookup n v j : (j < n)%nat → wbits n v !! j = Some (Bit (Z.testbit v (Z.of_nat n - 1 - Z.of_nat j))).
Proof.
  revert j. induction n as [|n IH]; intros j Hj; [lia|]. cbn [wbits]. destruct j as [|j]; cbn [lookup list_lookup].
  - do 3 f_equal. lia.
  - rewrite IH by lia. do 3 f_equal. lia.
Qed.
Lemma wbits_length n v : length (wbits n v) = n.
Proof. induction n; simpl; lia. Qed.
Lemma slave_some_bits k v j bytes ptr d : (j ≤ k ≤ 8)%nat →
  ∃ acc, foldl slave_step (Slave bytes 0 0 ptr d) (take j (wbits k v)) = Slave bytes j acc ptr d.
Proof.
  intros Hk. induction j as [|j IH]; [by exists 0|]. destruct IH as [acc IH]; [lia|].
  erewrite take_S_r by (apply wbits_lookup; lia). rewrite foldl_app, IH. cbn.
  destruct (Nat.leb_spec j 7); [by eexists|lia].
Qed.
(** The bits that are sampled are those of the register. *)
Lemma sampled_register v ptr d ws :
  slave_of ws = Slave [2 * id + 1] 0 0 ptr d → 0 ≤ v < 256 → sampled 8 v ws → v = reg_read ptr d.
Proof using All.
  intros Hws Hv Hsm. pose proof (reg_read_range ptr d) as Hx. set (x := reg_read ptr d) in *.
  assert (∀ j, (j ≤ 8)%nat → take j (wbits 8 v) = take j (wbits 8 x)) as H.
  { induction j as [|j IH]; intros Hj; [done|].
    destruct (Hsm (7 - j)%nat ltac:(lia)) as (h & E & Eb). replace (8 - S (7 - j))%nat with j in E by lia.
    rewrite Hpeer, E in Eb. unfold slave_of in Eb. rewrite foldl_app in Eb. fold (slave_of ws) in Eb.
    destruct (slave_some_bits 8 v j [2 * id + 1] ptr d) as [acc Ea]; try lia. rewrite Hws, Ea in Eb.
    unfold slave_sda in Eb. cbn [sl_bytes sl_n sl_ptr sl_dev] in Eb.
    rewrite Z.eqb_refl, (proj2 (Nat.ltb_lt j 8)) in Eb by lia. cbn [andb] in Eb. fold x in Eb.
    erewrite !take_S_r by (apply wbits_lookup; lia). rewrite IH by lia. do 3 f_equal.
    transitivity (Z.testbit v (Z.of_nat (7 - j))); [f_equal; lia|]. rewrite <-Eb. f_equal; lia. }
  specialize (H 8%nat ltac:(lia)). rewrite !take_ge in H by by rewrite wbits_length.
  pose proof (slave_bits 8 v [] 0 0 0 d ltac:(lia)) as Ev. rewrite H, slave_bits in Ev by lia.
  injection Ev as Ev. rewrite !Z.mod_small in Ev by lia. lia.
Qed.
Lemma read_register_run ptr d s :
  device_at ptr d s → wp (atk_mc2640_sccb_2_phase_read id) (λ v s', v = reg_read ptr d ∧ device_at ptr d s') s.
Proof using All.
  intros (ws & Hs & bytes & n & acc & Hd). eapply wp_mono; [by apply sccb_2_phase_read_run|].
  intros v s' (Hv & Hsm & ninth & Hs'). rewrite u8_small in * by lia.
  assert (slave_of (ws ++ Start :: wbyte (2 * id + 1) true) = Slave [2 * id + 1] 0 0 ptr d) as Hstart.
  { unfold slave_of in *. rewrite foldl_app, Hd. cbn [foldl slave_step]. by rewrite slave_byte by lia. }
  split; [by eapply sampled_register|]. eexists. split; [done|].
  replace (ws ++ Start :: wbyte (2 * id + 1) true ++ wbyte v ninth ++ [Stop])
    with ((ws ++ Start :: wbyte (2 * id + 1) true) ++ wbyte v ninth ++ [Stop]) by by rewrite <-app_assoc.
  unfold slave_of in *. rewrite foldl_app, Hstart, foldl_app, slave_byte by done. cbn.
  unfold slave_commit. cbn. rewrite (proj2 (Z.eqb_neq _ _)) by lia. by eexists _, _, _.
Qed.
End device.
