(* ===== verification/Sensor.v ===== *)
(** The driver of the camera's sensor: board/ATK_MC2640/atk_mc2640.c and the tables of atk_mc2640_cfg.h, with
    DCMI in use. Every access to a register goes over the bus of [Sccb]. The enumerations are their numbers.
    The delays and the clocks of the pins are left out; the transfer of a frame is [Dcmi]'s. *)
From S2P Require Import Prelude Sccb.

Definition ATK_MC2640_EOK : Z := 0.
Definition ATK_MC2640_ERROR : Z := 1.
Definition ATK_MC2640_EINVAL : Z := 2.
Definition ATK_MC2640_SCCB_ADDR : Z := 0x30.
Definition ATK_MC2640_MID : Z := 0x7FA2.
Definition ATK_MC2640_PID : Z := 0x2642.

(** * Registers *)

Definition ATK_MC2640_REG_BANK_SEL : Z := 0xFF.
Definition ATK_MC2640_REG_DSP_HSIZE : Z := 0x51.
Definition ATK_MC2640_REG_DSP_VSIZE : Z := 0x52.
Definition ATK_MC2640_REG_DSP_XOFFL : Z := 0x53.
Definition ATK_MC2640_REG_DSP_YOFFL : Z := 0x54.
Definition ATK_MC2640_REG_DSP_VHYX : Z := 0x55.
Definition ATK_MC2640_REG_DSP_TEST : Z := 0x57.
Definition ATK_MC2640_REG_DSP_ZMOW : Z := 0x5A.
Definition ATK_MC2640_REG_DSP_ZMOH : Z := 0x5B.
Definition ATK_MC2640_REG_DSP_ZMHH : Z := 0x5C.
Definition ATK_MC2640_REG_DSP_SIZEL : Z := 0x8C.
Definition ATK_MC2640_REG_DSP_HSIZE8 : Z := 0xC0.
Definition ATK_MC2640_REG_DSP_VSIZE8 : Z := 0xC1.
Definition ATK_MC2640_REG_DSP_R_DVP_SP : Z := 0xD3.
Definition ATK_MC2640_REG_DSP_RESET : Z := 0xE0.
Definition ATK_MC2640_REG_SENSOR_COM1 : Z := 0x03.
Definition ATK_MC2640_REG_SENSOR_PIDH : Z := 0x0A.
Definition ATK_MC2640_REG_SENSOR_PIDL : Z := 0x0B.
Definition ATK_MC2640_REG_SENSOR_CLKRC : Z := 0x11.
Definition ATK_MC2640_REG_SENSOR_COM7 : Z := 0x12.
Definition ATK_MC2640_REG_SENSOR_HREFST : Z := 0x17.
Definition ATK_MC2640_REG_SENSOR_HREFEND : Z := 0x18.
Definition ATK_MC2640_REG_SENSOR_VSTRT : Z := 0x19.
Definition ATK_MC2640_REG_SENSOR_VEND : Z := 0x1A.
Definition ATK_MC2640_REG_SENSOR_MIDH : Z := 0x1C.
Definition ATK_MC2640_REG_SENSOR_MIDL : Z := 0x1D.
Definition ATK_MC2640_REG_SENSOR_REG32 : Z := 0x32.
Definition ATK_MC2640_REG_SENSOR_COM22 : Z := 0x4B.
Definition atk_mc2640_init_uxga_cfg : list (Z * Z) :=
  [(0xFF, 0x00); (0x2C, 0xFF); (0x2E, 0xDF); (0xFF, 0x01); (0x3C, 0x32); (0x11, 0x00); (0x09, 0x02); (0x04, 0xA8);
   (0x13, 0xE5); (0x14, 0x48); (0x2C, 0x0C); (0x33, 0x78); (0x3A, 0x33); (0x3B, 0xFB); (0x3E, 0x00); (0x43, 0x11);
   (0x16, 0x10); (0x39, 0x92); (0x35, 0xDA); (0x22, 0x1A); (0x37, 0xC3); (0x23, 0x00); (0x34, 0xC0); (0x36, 0x1A);
   (0x06, 0x88); (0x07, 0xC0); (0x0D, 0x87); (0x0E, 0x41); (0x4C, 0x00); (0x48, 0x00); (0x5B, 0x00); (0x42, 0x03);
   (0x4A, 0x81); (0x21, 0x99); (0x24, 0x40); (0x25, 0x38); (0x26, 0x82); (0x5C, 0x00); (0x63, 0x00); (0x46, 0x00);
   (0x0C, 0x3C); (0x61, 0x70); (0x62, 0x80); (0x7C, 0x05); (0x20, 0x80); (0x28, 0x30); (0x6C, 0x00); (0x6D, 0x80);
   (0x6E, 0x00); (0x70, 0x02); (0x71, 0x94); (0x73, 0xC1); (0x3D, 0x34); (0x5A, 0x57); (0x12, 0x00); (0x17, 0x11);
   (0x18, 0x75); (0x19, 0x01); (0x1A, 0x97); (0x32, 0x36); (0x03, 0x0F); (0x37, 0x40); (0x4F, 0xCA); (0x50, 0xA8);
   (0x5A, 0x23); (0x6D, 0x00); (0x6D, 0x38); (0xFF, 0x00); (0xE5, 0x7F); (0xF9, 0xC0); (0x41, 0x24); (0xE0, 0x14);
   (0x76, 0xFF); (0x33, 0xA0); (0x42, 0x20); (0x43, 0x18); (0x4C, 0x00); (0x87, 0xD5); (0x88, 0x3F); (0xD7, 0x03);
   (0xD9, 0x10); (0xD3, 0x82); (0xC8, 0x08); (0xC9, 0x80); (0x7C, 0x00); (0x7D, 0x00); (0x7C, 0x03); (0x7D, 0x48);
   (0x7D, 0x48); (0x7C, 0x08); (0x7D, 0x20); (0x7D, 0x10); (0x7D, 0x0E); (0x90, 0x00); (0x91, 0x0E); (0x91, 0x1A);
   (0x91, 0x31); (0x91, 0x5A); (0x91, 0x69); (0x91, 0x75); (0x91, 0x7E); (0x91, 0x88); (0x91, 0x8F); (0x91, 0x96);
   (0x91, 0xA3); (0x91, 0xAF); (0x91, 0xC4); (0x91, 0xD7); (0x91, 0xE8); (0x91, 0x20); (0x92, 0x00); (0x93, 0x06);
   (0x93, 0xE3); (0x93, 0x05); (0x93, 0x05); (0x93, 0x00); (0x93, 0x04); (0x93, 0x00); (0x93, 0x00); (0x93, 0x00);
   (0x93, 0x00); (0x93, 0x00); (0x93, 0x00); (0x93, 0x00); (0x96, 0x00); (0x97, 0x08); (0x97, 0x19); (0x97, 0x02);
   (0x97, 0x0C); (0x97, 0x24); (0x97, 0x30); (0x97, 0x28); (0x97, 0x26); (0x97, 0x02); (0x97, 0x98); (0x97, 0x80);
   (0x97, 0x00); (0x97, 0x00); (0xC3, 0xEF); (0xA4, 0x00); (0xA8, 0x00); (0xC5, 0x11); (0xC6, 0x51); (0xBF, 0x80);
   (0xC7, 0x10); (0xB6, 0x66); (0xB8, 0xA5); (0xB7, 0x64); (0xB9, 0x7C); (0xB3, 0xAF); (0xB4, 0x97); (0xB5, 0xFF);
   (0xB0, 0xC5); (0xB1, 0x94); (0xB2, 0x0F); (0xC4, 0x5C); (0xC0, 0xC8); (0xC1, 0x96); (0x8C, 0x00); (0x86, 0x3D);
   (0x50, 0x00); (0x51, 0x90); (0x52, 0x2C); (0x53, 0x00); (0x54, 0x00); (0x55, 0x88); (0x5A, 0x90); (0x5B, 0x2C);
   (0x5C, 0x05); (0xD3, 0x02); (0xC3, 0xED); (0x7F, 0x00); (0xDA, 0x09); (0xE5, 0x1F); (0xE1, 0x67); (0xE0, 0x00);
   (0xDD, 0x7F); (0x05, 0x00)].
Definition atk_mc2640_set_yuv422_cfg : list (Z * Z) :=
  [(0xFF, 0x00); (0xDA, 0x10); (0xD7, 0x03); (0xDF, 0x00); (0x33, 0x80); (0x3C, 0x40); (0xE1, 0x77); (0x00, 0x00)].
Definition atk_mc2640_set_jpeg_cfg : list (Z * Z) :=
  [(0xFF, 0x01); (0xE0, 0x14); (0xE1, 0x77); (0xE5, 0x1F); (0xD7, 0x03); (0xDA, 0x10); (0xE0, 0x00)].
Definition atk_mc2640_set_rgb565_cfg : list (Z * Z) :=
  [(0xFF, 0x00); (0xDA, 0x09); (0xD7, 0x03); (0xDF, 0x02); (0x33, 0xA0); (0x3C, 0x00); (0xE1, 0x67); (0xFF, 0x01);
   (0xE0, 0x00); (0xE1, 0x00); (0xE5, 0x00); (0xD7, 0x00); (0xDA, 0x00); (0xE0, 0x00)].

(** * State *)

(** The bus, the pins RST and PWDN, the size of the picture, and whether DCMI was set up. *)
Record camera := Camera { cam_bus : pins; cam_rst : bool; cam_pwdn : bool; output_width : Z; output_height : Z; cam_dcmi : bool }.
Definition set_cam_bus (b : pins) (s : camera) : camera := Camera b (cam_rst s) (cam_pwdn s) (output_width s) (output_height s) (cam_dcmi s).
Definition set_cam_rst (x : bool) (s : camera) : camera := Camera (cam_bus s) x (cam_pwdn s) (output_width s) (output_height s) (cam_dcmi s).
Definition set_cam_pwdn (x : bool) (s : camera) : camera := Camera (cam_bus s) (cam_rst s) x (output_width s) (output_height s) (cam_dcmi s).
Definition set_output (w h : Z) (s : camera) : camera := Camera (cam_bus s) (cam_rst s) (cam_pwdn s) w h (cam_dcmi s).
Definition set_cam_dcmi (x : bool) (s : camera) : camera := Camera (cam_bus s) (cam_rst s) (cam_pwdn s) (output_width s) (output_height s) x.

Abbreviation C := (M camera).

Section sensor.
Context `{PE : Peer}.

Definition in_bus {A} (m : B A) : C A := λ s,
  match m (cam_bus s) with Some (x, b) => Some (x, set_cam_bus b s) | None => None end.

(** * Access to registers *)

Definition atk_mc2640_write_reg (reg dat : Z) : C unit := in_bus (atk_mc2640_sccb_3_phase_write ATK_MC2640_SCCB_ADDR reg dat).
Definition atk_mc2640_read_reg (reg : Z) : C Z :=
  in_bus (atk_mc2640_sccb_2_phase_write ATK_MC2640_SCCB_ADDR reg);;
  in_bus (atk_mc2640_sccb_2_phase_read ATK_MC2640_SCCB_ADDR).
Definition ATK_MC2640_REG_BANK_DSP : Z := 0x00.
Definition ATK_MC2640_REG_BANK_SENSOR : Z := 0x01.
Definition atk_mc2640_reg_bank_select (bank : Z) : C Z :=
  match bank with
  | 0 => atk_mc2640_write_reg ATK_MC2640_REG_BANK_SEL 0x00;; mret ATK_MC2640_EOK
  | 1 => atk_mc2640_write_reg ATK_MC2640_REG_BANK_SEL 0x01;; mret ATK_MC2640_EOK
  | _ => mret ATK_MC2640_EINVAL
  end.
Definition write_table (cfg : list (Z * Z)) : C unit := for_each (λ '(reg, dat), atk_mc2640_write_reg reg dat) cfg.

(** * Start *)

Definition ATK_MC2640_RST (x : bool) : C unit := modify (set_cam_rst x).
Definition ATK_MC2640_PWDN (x : bool) : C unit := modify (set_cam_pwdn x).
Definition atk_mc2640_hw_init : C unit := ATK_MC2640_RST true;; ATK_MC2640_PWDN true.
Definition atk_mc2640_exit_power_down : C unit := ATK_MC2640_PWDN false.
Definition atk_mc2640_hw_reset : C unit := ATK_MC2640_RST false;; ATK_MC2640_RST true.
Definition atk_mc2640_sw_reset : C unit :=
  atk_mc2640_reg_bank_select ATK_MC2640_REG_BANK_SENSOR;;
  atk_mc2640_write_reg ATK_MC2640_REG_SENSOR_COM7 0x80.
Definition atk_mc2640_get_mid : C Z :=
  atk_mc2640_reg_bank_select ATK_MC2640_REG_BANK_SENSOR;;
  h ← atk_mc2640_read_reg ATK_MC2640_REG_SENSOR_MIDH;
  l ← atk_mc2640_read_reg ATK_MC2640_REG_SENSOR_MIDL;
  mret (u16 (Z.lor (u16 (Z.shiftl h 8)) l)).
Definition atk_mc2640_get_pid : C Z :=
  atk_mc2640_reg_bank_select ATK_MC2640_REG_BANK_SENSOR;;
  h ← atk_mc2640_read_reg ATK_MC2640_REG_SENSOR_PIDH;
  l ← atk_mc2640_read_reg ATK_MC2640_REG_SENSOR_PIDL;
  mret (u16 (Z.lor (u16 (Z.shiftl h 8)) l)).
(** The size of the picture as the registers have it. *)
Definition read_size : C (Z * Z) :=
  zmow ← atk_mc2640_read_reg ATK_MC2640_REG_DSP_ZMOW;
  zmoh ← atk_mc2640_read_reg ATK_MC2640_REG_DSP_ZMOH;
  zmhh ← atk_mc2640_read_reg ATK_MC2640_REG_DSP_ZMHH;
  mret (u16 (Z.shiftl (Z.lor zmow (Z.shiftl (Z.land zmhh 0x03) 8)) 2),
        u16 (Z.shiftl (Z.lor zmoh (Z.shiftl (Z.land zmhh 0x04) 6)) 2)).
Definition atk_mc2640_init_reg : C unit :=
  write_table atk_mc2640_init_uxga_cfg;;
  atk_mc2640_reg_bank_select ATK_MC2640_REG_BANK_DSP;;
  '(w, h) ← read_size;
  modify (set_output w h).
Definition atk_mc2640_dcmi_init : C unit := modify (set_cam_dcmi true).
Definition atk_mc2640_init : C Z :=
  atk_mc2640_hw_init;;
  atk_mc2640_exit_power_down;;
  atk_mc2640_hw_reset;;
  in_bus atk_mc2640_sccb_init;;
  atk_mc2640_sw_reset;;
  mid ← atk_mc2640_get_mid;
  if negb (mid =? ATK_MC2640_MID) then mret ATK_MC2640_ERROR else
  pid ← atk_mc2640_get_pid;
  if negb (pid =? ATK_MC2640_PID) then mret ATK_MC2640_ERROR else
  atk_mc2640_init_reg;;
  atk_mc2640_dcmi_init;;
  mret ATK_MC2640_EOK.

(** * Settings *)

Definition atk_mc2640_led_enable : C unit :=
  atk_mc2640_reg_bank_select ATK_MC2640_REG_BANK_SENSOR;;
  atk_mc2640_write_reg ATK_MC2640_REG_SENSOR_COM22 0x81;;
  atk_mc2640_write_reg ATK_MC2640_REG_SENSOR_COM22 0x01.
Definition atk_mc2640_set_light_mode (mode : Z) : C Z :=
  match mode with
  | 0 => atk_mc2640_reg_bank_select ATK_MC2640_REG_BANK_DSP;; atk_mc2640_write_reg 0xC7 0x00;; mret ATK_MC2640_EOK
  | 1 => atk_mc2640_reg_bank_select ATK_MC2640_REG_BANK_DSP;; atk_mc2640_write_reg 0xC7 0x40;;
      atk_mc2640_write_reg 0xCC 0x5E;; atk_mc2640_write_reg 0xCD 0x41;; atk_mc2640_write_reg 0xCE 0x54;;
      mret ATK_MC2640_EOK
  | 2 => atk_mc2640_reg_bank_select ATK_MC2640_REG_BANK_DSP;; atk_mc2640_write_reg 0xC7 0x40;;
      atk_mc2640_write_reg 0xCC 0x65;; atk_mc2640_write_reg 0xCD 0x41;; atk_mc2640_write_reg 0xCE 0x4F;;
      mret ATK_MC2640_EOK
  | 3 => atk_mc2640_reg_bank_select ATK_MC2640_REG_BANK_DSP;; atk_mc2640_write_reg 0xC7 0x40;;
      atk_mc2640_write_reg 0xCC 0x52;; atk_mc2640_write_reg 0xCD 0x41;; atk_mc2640_write_reg 0xCE 0x66;;
      mret ATK_MC2640_EOK
  | 4 => atk_mc2640_reg_bank_select ATK_MC2640_REG_BANK_DSP;; atk_mc2640_write_reg 0xC7 0x40;;
      atk_mc2640_write_reg 0xCC 0x42;; atk_mc2640_write_reg 0xCD 0x3F;; atk_mc2640_write_reg 0xCE 0x71;;
      mret ATK_MC2640_EOK
  | _ => mret ATK_MC2640_EINVAL
  end.
Definition atk_mc2640_set_color_saturation (saturation : Z) : C Z :=
  match saturation with
  | 0 => atk_mc2640_reg_bank_select ATK_MC2640_REG_BANK_DSP;; atk_mc2640_write_reg 0x7C 0x00;;
      atk_mc2640_write_reg 0x7D 0x02;; atk_mc2640_write_reg 0x7C 0x03;; atk_mc2640_write_reg 0x7D 0x68;;
      atk_mc2640_write_reg 0x7D 0x68;; mret ATK_MC2640_EOK
  | 1 => atk_mc2640_reg_bank_select ATK_MC2640_REG_BANK_DSP;; atk_mc2640_write_reg 0x7C 0x00;;
      atk_mc2640_write_reg 0x7D 0x02;; atk_mc2640_write_reg 0x7C 0x03;; atk_mc2640_write_reg 0x7D 0x58;;
      atk_mc2640_write_reg 0x7D 0x58;; mret ATK_MC2640_EOK
  | 2 => atk_mc2640_reg_bank_select ATK_MC2640_REG_BANK_DSP;; atk_mc2640_write_reg 0x7C 0x00;;
      atk_mc2640_write_reg 0x7D 0x02;; atk_mc2640_write_reg 0x7C 0x03;; atk_mc2640_write_reg 0x7D 0x48;;
      atk_mc2640_write_reg 0x7D 0x48;; mret ATK_MC2640_EOK
  | 3 => atk_mc2640_reg_bank_select ATK_MC2640_REG_BANK_DSP;; atk_mc2640_write_reg 0x7C 0x00;;
      atk_mc2640_write_reg 0x7D 0x02;; atk_mc2640_write_reg 0x7C 0x03;; atk_mc2640_write_reg 0x7D 0x38;;
      atk_mc2640_write_reg 0x7D 0x38;; mret ATK_MC2640_EOK
  | 4 => atk_mc2640_reg_bank_select ATK_MC2640_REG_BANK_DSP;; atk_mc2640_write_reg 0x7C 0x00;;
      atk_mc2640_write_reg 0x7D 0x02;; atk_mc2640_write_reg 0x7C 0x03;; atk_mc2640_write_reg 0x7D 0x28;;
      atk_mc2640_write_reg 0x7D 0x28;; mret ATK_MC2640_EOK
  | _ => mret ATK_MC2640_EINVAL
  end.
Definition atk_mc2640_set_brightness (brightness : Z) : C Z :=
  match brightness with
  | 0 => atk_mc2640_reg_bank_select ATK_MC2640_REG_BANK_DSP;; atk_mc2640_write_reg 0x7C 0x00;;
      atk_mc2640_write_reg 0x7D 0x04;; atk_mc2640_write_reg 0x7C 0x09;; atk_mc2640_write_reg 0x7D 0x40;;
      atk_mc2640_write_reg 0x7D 0x00;; mret ATK_MC2640_EOK
  | 1 => atk_mc2640_reg_bank_select ATK_MC2640_REG_BANK_DSP;; atk_mc2640_write_reg 0x7C 0x00;;
      atk_mc2640_write_reg 0x7D 0x04;; atk_mc2640_write_reg 0x7C 0x09;; atk_mc2640_write_reg 0x7D 0x30;;
      atk_mc2640_write_reg 0x7D 0x00;; mret ATK_MC2640_EOK
  | 2 => atk_mc2640_reg_bank_select ATK_MC2640_REG_BANK_DSP;; atk_mc2640_write_reg 0x7C 0x00;;
      atk_mc2640_write_reg 0x7D 0x04;; atk_mc2640_write_reg 0x7C 0x09;; atk_mc2640_write_reg 0x7D 0x20;;
      atk_mc2640_write_reg 0x7D 0x00;; mret ATK_MC2640_EOK
  | 3 => atk_mc2640_reg_bank_select ATK_MC2640_REG_BANK_DSP;; atk_mc2640_write_reg 0x7C 0x00;;
      atk_mc2640_write_reg 0x7D 0x04;; atk_mc2640_write_reg 0x7C 0x09;; atk_mc2640_write_reg 0x7D 0x10;;
      atk_mc2640_write_reg 0x7D 0x00;; mret ATK_MC2640_EOK
  | 4 => atk_mc2640_reg_bank_select ATK_MC2640_REG_BANK_DSP;; atk_mc2640_write_reg 0x7C 0x00;;
      atk_mc2640_write_reg 0x7D 0x04;; atk_mc2640_write_reg 0x7C 0x09;; atk_mc2640_write_reg 0x7D 0x00;;
      atk_mc2640_write_reg 0x7D 0x00;; mret ATK_MC2640_EOK
  | _ => mret ATK_MC2640_EINVAL
  end.
Definition atk_mc2640_set_contrast (contrast : Z) : C Z :=
  match contrast with
  | 0 => atk_mc2640_reg_bank_select ATK_MC2640_REG_BANK_DSP;; atk_mc2640_write_reg 0x7C 0x00;;
      atk_mc2640_write_reg 0x7D 0x04;; atk_mc2640_write_reg 0x7C 0x07;; atk_mc2640_write_reg 0x7D 0x20;;
      atk_mc2640_write_reg 0x7D 0x28;; atk_mc2640_write_reg 0x7D 0x0C;; atk_mc2640_write_reg 0x7D 0x06;;
      mret ATK_MC2640_EOK
  | 1 => atk_mc2640_reg_bank_select ATK_MC2640_REG_BANK_DSP;; atk_mc2640_write_reg 0x7C 0x00;;
      atk_mc2640_write_reg 0x7D 0x04;; atk_mc2640_write_reg 0x7C 0x07;; atk_mc2640_write_reg 0x7D 0x20;;
      atk_mc2640_write_reg 0x7D 0x24;; atk_mc2640_write_reg 0x7D 0x16;; atk_mc2640_write_reg 0x7D 0x06;;
      mret ATK_MC2640_EOK
  | 2 => atk_mc2640_reg_bank_select ATK_MC2640_REG_BANK_DSP;; atk_mc2640_write_reg 0x7C 0x00;;
      atk_mc2640_write_reg 0x7D 0x04;; atk_mc2640_write_reg 0x7C 0x07;; atk_mc2640_write_reg 0x7D 0x20;;
      atk_mc2640_write_reg 0x7D 0x20;; atk_mc2640_write_reg 0x7D 0x20;; atk_mc2640_write_reg 0x7D 0x06;;
      mret ATK_MC2640_EOK
  | 3 => atk_mc2640_reg_bank_select ATK_MC2640_REG_BANK_DSP;; atk_mc2640_write_reg 0x7C 0x00;;
      atk_mc2640_write_reg 0x7D 0x04;; atk_mc2640_write_reg 0x7C 0x07;; atk_mc2640_write_reg 0x7D 0x20;;
      atk_mc2640_write_reg 0x7D 0x1C;; atk_mc2640_write_reg 0x7D 0x2A;; atk_mc2640_write_reg 0x7D 0x06;;
      mret ATK_MC2640_EOK
  | 4 => atk_mc2640_reg_bank_select ATK_MC2640_REG_BANK_DSP;; atk_mc2640_write_reg 0x7C 0x00;;
      atk_mc2640_write_reg 0x7D 0x04;; atk_mc2640_write_reg 0x7C 0x07;; atk_mc2640_write_reg 0x7D 0x20;;
      atk_mc2640_write_reg 0x7D 0x18;; atk_mc2640_write_reg 0x7D 0x34;; atk_mc2640_write_reg 0x7D 0x06;;
      mret ATK_MC2640_EOK
  | _ => mret ATK_MC2640_EINVAL
  end.
Definition atk_mc2640_set_special_effect (effect : Z) : C Z :=
  match effect with
  | 0 => atk_mc2640_reg_bank_select ATK_MC2640_REG_BANK_DSP;; atk_mc2640_write_reg 0x7C 0x00;;
      atk_mc2640_write_reg 0x7D 0x18;; atk_mc2640_write_reg 0x7C 0x05;; atk_mc2640_write_reg 0x7D 0x40;;
      atk_mc2640_write_reg 0x7D 0xA6;; mret ATK_MC2640_EOK
  | 1 => atk_mc2640_reg_bank_select ATK_MC2640_REG_BANK_DSP;; atk_mc2640_write_reg 0x7C 0x00;;
      atk_mc2640_write_reg 0x7D 0x18;; atk_mc2640_write_reg 0x7C 0x05;; atk_mc2640_write_reg 0x7D 0xA0;;
      atk_mc2640_write_reg 0x7D 0x40;; mret ATK_MC2640_EOK
  | 2 => atk_mc2640_reg_bank_select ATK_MC2640_REG_BANK_DSP;; atk_mc2640_write_reg 0x7C 0x00;;
      atk_mc2640_write_reg 0x7D 0x18;; atk_mc2640_write_reg 0x7C 0x05;; atk_mc2640_write_reg 0x7D 0x40;;
      atk_mc2640_write_reg 0x7D 0x40;; mret ATK_MC2640_EOK
  | 3 => atk_mc2640_reg_bank_select ATK_MC2640_REG_BANK_DSP;; atk_mc2640_write_reg 0x7C 0x00;;
      atk_mc2640_write_reg 0x7D 0x18;; atk_mc2640_write_reg 0x7C 0x05;; atk_mc2640_write_reg 0x7D 0x40;;
      atk_mc2640_write_reg 0x7D 0xC0;; mret ATK_MC2640_EOK
  | 4 => atk_mc2640_reg_bank_select ATK_MC2640_REG_BANK_DSP;; atk_mc2640_write_reg 0x7C 0x00;;
      atk_mc2640_write_reg 0x7D 0x18;; atk_mc2640_write_reg 0x7C 0x05;; atk_mc2640_write_reg 0x7D 0x80;;
      atk_mc2640_write_reg 0x7D 0x80;; mret ATK_MC2640_EOK
  | 5 => atk_mc2640_reg_bank_select ATK_MC2640_REG_BANK_DSP;; atk_mc2640_write_reg 0x7C 0x00;;
      atk_mc2640_write_reg 0x7D 0x40;; atk_mc2640_write_reg 0x7C 0x05;; atk_mc2640_write_reg 0x7D 0x80;;
      atk_mc2640_write_reg 0x7D 0x80;; mret ATK_MC2640_EOK
  | 6 => atk_mc2640_reg_bank_select ATK_MC2640_REG_BANK_DSP;; atk_mc2640_write_reg 0x7C 0x00;;
      atk_mc2640_write_reg 0x7D 0x58;; atk_mc2640_write_reg 0x7C 0x05;; atk_mc2640_write_reg 0x7D 0x80;;
      atk_mc2640_write_reg 0x7D 0x80;; mret ATK_MC2640_EOK
  | 7 => atk_mc2640_reg_bank_select ATK_MC2640_REG_BANK_DSP;; atk_mc2640_write_reg 0x7C 0x00;;
      atk_mc2640_write_reg 0x7D 0x00;; atk_mc2640_write_reg 0x7C 0x05;; atk_mc2640_write_reg 0x7D 0x80;;
      atk_mc2640_write_reg 0x7D 0x80;; mret ATK_MC2640_EOK
  | _ => mret ATK_MC2640_EINVAL
  end.
Definition atk_mc2640_set_output_format (format : Z) : C Z :=
  match format with
  | 0 => write_table atk_mc2640_set_rgb565_cfg;; mret ATK_MC2640_EOK
  | 1 => write_table atk_mc2640_set_yuv422_cfg;; write_table atk_mc2640_set_jpeg_cfg;; mret ATK_MC2640_EOK
  | _ => mret ATK_MC2640_EINVAL
  end.
Definition not_multiple_of_4 (x : Z) : bool := negb (Z.land x (4 - 1) =? 0).
Definition atk_mc2640_set_output_size (width height : Z) : C Z :=
  if not_multiple_of_4 width || not_multiple_of_4 height then mret ATK_MC2640_EINVAL else
  modify (set_output width height);;
  let output_width := Z.shiftr width 2 in
  let output_height := Z.shiftr height 2 in
  atk_mc2640_reg_bank_select ATK_MC2640_REG_BANK_DSP;;
  atk_mc2640_write_reg ATK_MC2640_REG_DSP_RESET 0x04;;
  atk_mc2640_write_reg ATK_MC2640_REG_DSP_ZMOW (u8 (Z.land output_width 0x00FF));;
  atk_mc2640_write_reg ATK_MC2640_REG_DSP_ZMOH (u8 (Z.land output_height 0x00FF));;
  atk_mc2640_write_reg ATK_MC2640_REG_DSP_ZMHH
    (Z.lor (Z.land (u8 (Z.shiftr output_width 8)) 0x03) (Z.land (u8 (Z.shiftr output_height 6)) 0x04));;
  atk_mc2640_write_reg ATK_MC2640_REG_DSP_RESET 0x00;;
  mret ATK_MC2640_EOK.
Definition atk_mc2640_set_sensor_window (start_x start_y width height : Z) : C unit :=
  let end_x := u16 (start_x + Z.shiftr width 1) in
  let end_y := u16 (start_y + Z.shiftr height 1) in
  atk_mc2640_reg_bank_select ATK_MC2640_REG_BANK_SENSOR;;
  raw_com1 ← atk_mc2640_read_reg ATK_MC2640_REG_SENSOR_COM1;
  let com1 := Z.lor (Z.land raw_com1 0xF0) (Z.lor (Z.shiftl (Z.land end_y 0x03) 2) (Z.land start_y 0x03)) in
  atk_mc2640_write_reg ATK_MC2640_REG_SENSOR_COM1 (u8 com1);;
  atk_mc2640_write_reg ATK_MC2640_REG_SENSOR_VSTRT (u8 (Z.shiftr start_y 2));;
  atk_mc2640_write_reg ATK_MC2640_REG_SENSOR_VEND (u8 (Z.shiftr end_y 2));;
  raw_reg32 ← atk_mc2640_read_reg ATK_MC2640_REG_SENSOR_REG32;
  let reg32 := Z.lor (Z.land raw_reg32 0xC0) (Z.lor (Z.shiftl (Z.land end_x 0x07) 3) (Z.land start_x 0x07)) in
  atk_mc2640_write_reg ATK_MC2640_REG_SENSOR_REG32 (u8 reg32);;
  atk_mc2640_write_reg ATK_MC2640_REG_SENSOR_HREFST (u8 (Z.shiftr start_x 3));;
  atk_mc2640_write_reg ATK_MC2640_REG_SENSOR_HREFEND (u8 (Z.shiftr end_x 3)).
Definition atk_mc2640_set_image_window (off_x off_y width height : Z) : C Z :=
  if not_multiple_of_4 width || not_multiple_of_4 height then mret ATK_MC2640_EINVAL else
  let hsize := Z.shiftr width 2 in
  let vsize := Z.shiftr height 2 in
  let vhyx := u8 (Z.lor (Z.lor (Z.lor (Z.land (Z.shiftr vsize 1) 0x80) (Z.land (Z.shiftr off_y 4) 0x70))
    (Z.land (Z.shiftr hsize 5) 0x08)) (Z.land (Z.shiftr off_x 8) 0x07)) in
  atk_mc2640_reg_bank_select ATK_MC2640_REG_BANK_DSP;;
  atk_mc2640_write_reg ATK_MC2640_REG_DSP_RESET 0x04;;
  atk_mc2640_write_reg ATK_MC2640_REG_DSP_HSIZE (u8 (Z.land hsize 0x00FF));;
  atk_mc2640_write_reg ATK_MC2640_REG_DSP_VSIZE (u8 (Z.land vsize 0x00FF));;
  atk_mc2640_write_reg ATK_MC2640_REG_DSP_XOFFL (u8 (Z.land off_x 0x00FF));;
  atk_mc2640_write_reg ATK_MC2640_REG_DSP_YOFFL (u8 (Z.land off_y 0x00FF));;
  atk_mc2640_write_reg ATK_MC2640_REG_DSP_VHYX vhyx;;
  atk_mc2640_write_reg ATK_MC2640_REG_DSP_TEST (u8 (Z.land (Z.shiftr hsize 2) 0x80));;
  atk_mc2640_write_reg ATK_MC2640_REG_DSP_RESET 0x00;;
  mret ATK_MC2640_EOK.
Definition atk_mc2640_set_image_size (width height : Z) : C unit :=
  let sizel := u8 (Z.lor (Z.lor (Z.shiftl (Z.land width 0x07) 3) (Z.land height 0x07)) (Z.land (Z.shiftr width 4) 0x80)) in
  atk_mc2640_reg_bank_select ATK_MC2640_REG_BANK_DSP;;
  atk_mc2640_write_reg ATK_MC2640_REG_DSP_RESET 0x04;;
  atk_mc2640_write_reg ATK_MC2640_REG_DSP_HSIZE8 (u8 (Z.land (Z.shiftr width 3) 0x00FF));;
  atk_mc2640_write_reg ATK_MC2640_REG_DSP_VSIZE8 (u8 (Z.land (Z.shiftr height 3) 0x00FF));;
  atk_mc2640_write_reg ATK_MC2640_REG_DSP_SIZEL sizel;;
  atk_mc2640_write_reg ATK_MC2640_REG_DSP_RESET 0x00.
Definition atk_mc2640_set_output_speed (clk_dev pclk_dev : Z) : C Z :=
  if 63 <? clk_dev then mret ATK_MC2640_EINVAL else
  if (pclk_dev =? 0) || (127 <? pclk_dev) then mret ATK_MC2640_EINVAL else
  atk_mc2640_reg_bank_select ATK_MC2640_REG_BANK_DSP;;
  atk_mc2640_write_reg ATK_MC2640_REG_DSP_R_DVP_SP pclk_dev;;
  atk_mc2640_reg_bank_select ATK_MC2640_REG_BANK_SENSOR;;
  atk_mc2640_write_reg ATK_MC2640_REG_SENSOR_CLKRC clk_dev;;
  mret ATK_MC2640_EOK.
Definition atk_mc2640_colorbar_enable : C unit :=
  atk_mc2640_reg_bank_select ATK_MC2640_REG_BANK_SENSOR;;
  com7 ← atk_mc2640_read_reg ATK_MC2640_REG_SENSOR_COM7;
  atk_mc2640_write_reg ATK_MC2640_REG_SENSOR_COM7 (u8 (Z.lor com7 (u8 (Z.shiftl 1 1)))).
Definition atk_mc2640_colorbar_disable : C unit :=
  atk_mc2640_reg_bank_select ATK_MC2640_REG_BANK_SENSOR;;
  com7 ← atk_mc2640_read_reg ATK_MC2640_REG_SENSOR_COM7;
  atk_mc2640_write_reg ATK_MC2640_REG_SENSOR_COM7 (u8 (Z.land com7 (Z.lnot (u8 (Z.shiftl 1 1))))).

(** eth_camera_init of applications/eth_camera.c *)
Definition JPEG_WIDTH_320 : Z := 320.
Definition JPEG_HEIGHT_240 : Z := 240.
Definition eth_camera_init : C unit :=
  atk_mc2640_init;;
  atk_mc2640_set_output_format 1;;
  atk_mc2640_set_output_size JPEG_WIDTH_320 JPEG_HEIGHT_240;;
  atk_mc2640_set_light_mode 1;;
  atk_mc2640_set_color_saturation 1;;
  atk_mc2640_set_brightness 1;;
  atk_mc2640_set_contrast 2;;
  atk_mc2640_set_special_effect 7;;
  mret tt.
End sensor.

(** * The registers of the sensor *)

Inductive access := RegWrite (reg dat : Z) | RegRead (reg : Z).
Definition access_ok (a : access) : Prop :=
  match a with RegWrite reg dat => 0 ≤ reg < 256 ∧ 0 ≤ dat < 256 | RegRead reg => 0 ≤ reg < 256 end.
Definition writes {D} `{Registers D} (l : list (Z * Z)) (d : D) : D := foldl (λ d '(r, v), reg_write r v d) d l.
(** What the device has at the end, and what it answered. *)
Fixpoint accesses {D} `{Registers D} (l : list access) (d : D) : list Z * D :=
  match l with
  | [] => ([], d)
  | RegWrite reg dat :: l => accesses l (reg_write reg dat d)
  | RegRead reg :: l => let x := accesses l d in (reg_read reg d :: x.1, x.2)
  end.

Section proofs.
Context `{PE : Peer} {D : Type} `{RD : Registers D} `{RL : !RegistersLaws D} (d0 : D)
  (Hpeer : peer_is_device ATK_MC2640_SCCB_ADDR d0).
Implicit Types (s : camera) (d : D).

Fixpoint access_all (l : list access) : C (list Z) :=
  match l with
  | [] => mret []
  | RegWrite reg dat :: l => atk_mc2640_write_reg reg dat;; access_all l
  | RegRead reg :: l => v ← atk_mc2640_read_reg reg; vs ← access_all l; mret (v :: vs)
  end.

Lemma wp_in_bus {A} (m : B A) (Q : A → camera → Prop) s :
  wp (in_bus m) Q s ↔ wp m (λ r b, Q r (set_cam_bus b s)) (cam_bus s).
Proof. unfold wp, in_bus. by destruct (m (cam_bus s)) as [[??]|]. Qed.
(** The bus rests, and the sensor has come to [d]. *)
Definition sensor_at d s : Prop := ∃ ptr, device_at ATK_MC2640_SCCB_ADDR d0 ptr d (cam_bus s).

Lemma write_reg_run reg dat d s (Q : unit → camera → Prop) :
  sensor_at d s → 0 ≤ reg < 256 → 0 ≤ dat < 256 →
  (∀ b, sensor_at (reg_write reg dat d) (set_cam_bus b s) → Q tt (set_cam_bus b s)) → wp (atk_mc2640_write_reg reg dat) Q s.
Proof.
  intros [ptr Hs] Hr Hv HQ. unfold atk_mc2640_write_reg. rewrite wp_in_bus.
  eapply wp_mono; [by eapply write_register_run|]. intros [] b Hb. apply HQ. by exists reg.
Qed.
Lemma read_reg_run reg d s (Q : Z → camera → Prop) :
  sensor_at d s → 0 ≤ reg < 256 →
  (∀ b, sensor_at d (set_cam_bus b s) → Q (reg_read reg d) (set_cam_bus b s)) → wp (atk_mc2640_read_reg reg) Q s.
Proof using All.
  intros [ptr Hs] Hr HQ. unfold atk_mc2640_read_reg. rewrite wp_bind, wp_in_bus.
  eapply wp_mono; [by eapply choose_register_run|]. intros [] b Hb. rewrite wp_in_bus.
  eapply wp_mono; [by eapply read_register_run|]. intros v b' [-> Hb']. apply (HQ b'). by exists reg.
Qed.
Lemma access_all_run l : ∀ d s, sensor_at d s → Forall access_ok l →
  wp (access_all l) (λ vs s', vs = (accesses l d).1 ∧ sensor_at (accesses l d).2 s' ∧ ∃ b, s' = set_cam_bus b s) s.
Proof using All.
  induction l as [|[reg dat|reg] l IH]; intros d s Hs Hl; cbn [access_all accesses].
  - apply wp_ret. split; [done|]. split; [done|]. exists (cam_bus s). by destruct s.
  - apply Forall_cons in Hl as [[? ?] Hl]. rewrite wp_bind. eapply write_reg_run; [done..|]. intros b Hb.
    eapply wp_mono; [by apply IH|]. intros vs s' (? & ? & b' & ->). eauto.
  - apply Forall_cons in Hl as [? Hl]. rewrite wp_bind. eapply read_reg_run; [done..|]. intros b Hb. rewrite wp_bind.
    eapply wp_mono; [by apply IH|]. intros vs s' (-> & ? & b' & ->). apply wp_ret. eauto.
Qed.
(** C20. Whatever device of registers answers on the bus: any sequence of writes and reads of its registers through
    the two pins returns what the device would return to direct accesses and leaves it where these
    would; nothing else of the driver changes. *)
Theorem registers_refine l d s :
  sensor_at d s → Forall access_ok l →
  wp (access_all l) (λ vs s', vs = (accesses l d).1 ∧ sensor_at (accesses l d).2 s' ∧ ∃ b, s' = set_cam_bus b s) s.
Proof using All. apply access_all_run. Qed.

Lemma bank_select_run bank d s (Q : Z → camera → Prop) :
  sensor_at d s → bank = 0 ∨ bank = 1 →
  (∀ b, sensor_at (reg_write ATK_MC2640_REG_BANK_SEL bank d) (set_cam_bus b s) → Q ATK_MC2640_EOK (set_cam_bus b s)) →
  wp (atk_mc2640_reg_bank_select bank) Q s.
Proof.
  intros Hs Hb HQ. unfold atk_mc2640_reg_bank_select.
  destruct Hb as [-> | ->]; rewrite wp_bind; (eapply write_reg_run; [done..|]; intros b Hb; by apply wp_ret, HQ).
Qed.
Lemma write_table_run l d s (Q : unit → camera → Prop) :
  sensor_at d s → Forall (λ '(r, v), 0 ≤ r < 256 ∧ 0 ≤ v < 256) l →
  (∀ b, sensor_at (writes l d) (set_cam_bus b s) → Q tt (set_cam_bus b s)) → wp (write_table l) Q s.
Proof.
  revert d s Q. induction l as [|[r v] l IH]; intros d s Q Hs Hl HQ; unfold write_table; cbn [for_each].
  - apply wp_ret. destruct s as [b ?????]. by apply (HQ b).
  - apply Forall_cons in Hl as [[? ?] Hl]. rewrite wp_bind. eapply write_reg_run; [done..|]. intros b Hb.
    eapply (IH _ _ Q); [done..|]. intros b' Hb'. by apply HQ.
Qed.

End proofs.

(** A byte that a driver computes. *)
Ltac byte := first [done | apply u8_range | lia].
(** Steps through accesses to registers; [Hs] is where the sensor is. *)
Ltac reg_step Hs :=
  lazymatch goal with
  | |- wp (_ ≫= _) _ _ => rewrite wp_bind; reg_step Hs
  | |- wp (atk_mc2640_write_reg _ _) _ _ => eapply write_reg_run; [exact Hs|byte|byte|]; clear Hs; intros ? Hs; cbn beta
  | |- wp (atk_mc2640_read_reg _) _ _ => eapply read_reg_run; [eassumption|exact Hs|byte|]; clear Hs; intros ? Hs; cbn beta
  | |- wp (atk_mc2640_reg_bank_select _) _ _ => eapply bank_select_run; [exact Hs|by auto|]; clear Hs; intros ? Hs; cbn beta
  end.

(** ** Fields of bits *)

Lemma high_low n k x : 0 < n → 0 < k → k * ((x / k) `mod` n) + x `mod` k = x `mod` (k * n).
Proof. intros Hn Hk. rewrite Z.rem_mul_r by lia. lia. Qed.
Lemma land_middle x i j n : 0 ≤ i → 0 ≤ j → 0 ≤ n →
  Z.land (Z.shiftr x i) (Z.shiftl (Z.ones n) j) = Z.shiftl ((x / 2 ^ (i + j)) `mod` 2 ^ n) j.
Proof.
  intros Hi Hj Hn. rewrite <-Z.shiftr_div_pow2, <-Z.land_ones by lia. apply Z.bits_inj'. intros k Hk.
  rewrite Z.land_spec, Z.shiftr_spec, !Z.shiftl_spec by lia. destruct (decide (k < j)).
  - rewrite !(Z.testbit_neg_r _ (k - j)) by lia. apply andb_false_r.
  - rewrite Z.land_spec, Z.shiftr_spec by lia. do 2 f_equal. lia.
Qed.
Lemma land_3 x : Z.land x 3 = x `mod` 4.
Proof. by apply (Z.land_ones x 2). Qed.
Lemma land_7 x : Z.land x 7 = x `mod` 8.
Proof. by apply (Z.land_ones x 3). Qed.
Lemma land_4 x : Z.land x 4 = Z.shiftl ((x / 4) `mod` 2) 2.
Proof. pose proof (land_middle x 0 2 1 ltac:(lia) ltac:(lia) ltac:(lia)) as H. by rewrite Z.shiftr_0_r in H. Qed.
Lemma low_byte x : u8 (Z.land x 0x00FF) = x `mod` 256.
Proof. change 0x00FF with (Z.ones 8). rewrite Z.land_ones by lia. apply u8_small, Z.mod_pos_bound. lia. Qed.
Lemma lor_shiftl a b n : 0 ≤ n → 0 ≤ a < 2 ^ n → Z.lor a (Z.shiftl b n) = a + b * 2 ^ n.
Proof.
  intros Hn Ha. rewrite <-Z.shiftl_mul_pow2 by done. symmetry. apply Z.add_nocarry_lor, Z.bits_inj'. intros k Hk.
  rewrite Z.land_spec, Z.bits_0. destruct (decide (k < n)).
  - rewrite Z.shiftl_spec, (Z.testbit_neg_r b) by lia. apply andb_false_r.
  - rewrite <-(Z.mod_small a (2 ^ n)) by done. by rewrite Z.mod_pow2_bits_high by lia.
Qed.
Lemma u8_mod x m : 0 < m → (m | 256) → u8 x `mod` m = x `mod` m.
Proof. intros Hm Hd. unfold u8. by apply Z.mod_mod_divide. Qed.
Lemma id_bytes a b : 0 ≤ a < 256 → 0 ≤ b < 256 → u16 (Z.lor (u16 (Z.shiftl a 8)) b) = 256 * a + b.
Proof.
  intros Ha Hb. rewrite (u16_small (Z.shiftl a 8)) by (rewrite Z.shiftl_mul_pow2; lia).
  rewrite Z.lor_comm, lor_shiftl by lia. rewrite u16_small; lia.
Qed.
Lemma zmhh_value a b : Z.lor (Z.land a 3) (Z.land b 4) = a `mod` 4 + 4 * ((b / 4) `mod` 2).
Proof. rewrite land_3, land_4, lor_shiftl by (done || (apply Z.mod_pos_bound; lia)). lia. Qed.
Lemma zmhh_range a b : 0 ≤ Z.lor (Z.land a 3) (Z.land b 4) < 256.
Proof.
  rewrite zmhh_value. pose proof (Z.mod_pos_bound a 4 ltac:(lia)). pose proof (Z.mod_pos_bound (b / 4) 2 ltac:(lia)). lia.
Qed.
Lemma land_lor_parts a b : Z.land (Z.lor (Z.land a 3) (Z.land b 4)) 3 = Z.land a 3 ∧ Z.land (Z.lor (Z.land a 3) (Z.land b 4)) 4 = Z.land b 4.
Proof. rewrite !Z.land_lor_distr_l, <-!Z.land_assoc. cbn. by rewrite Z.land_0_r, Z.lor_0_r, Z.land_0_r, Z.lor_0_l. Qed.
(** A side of the picture behind its way through the registers. *)
Lemma size_bits x n : 0 ≤ x < 65536 → x `mod` 4 = 0 → 0 < n → 4 * (256 * n) ≤ 65536 →
  u16 (Z.shiftl (Z.lor (u8 (Z.land (Z.shiftr x 2) 0x00FF)) (Z.shiftl ((x / 1024) `mod` n) 8)) 2) = x `mod` (4 * (256 * n)).
Proof.
  intros Hx Hm Hn Hn'. rewrite low_byte, lor_shiftl, Z.shiftr_div_pow2, Z.shiftl_mul_pow2 by (done || (apply Z.mod_pos_bound; lia)).
  change (2 ^ 2) with 4. change (2 ^ 8) with 256. pose proof (high_low n 256 (x / 4) Hn ltac:(lia)) as H.
  rewrite Z.div_div in H by lia. change (4 * 256) with 1024 in H.
  pose proof (proj2 (Z.div_exact x 4 ltac:(lia)) Hm) as Ex. pose proof (Z.mod_pos_bound (x / 4) (256 * n) ltac:(lia)).
  rewrite u16_small by lia. rewrite Ex at 3. rewrite Z.mul_mod_distr_l by lia. lia.
Qed.
Lemma size_bits_w w : 0 ≤ w < 65536 → w `mod` 4 = 0 →
  u16 (Z.shiftl (Z.lor (u8 (Z.land (Z.shiftr w 2) 0x00FF)) (Z.shiftl (Z.land (u8 (Z.shiftr (Z.shiftr w 2) 8)) 0x03) 8)) 2) = w `mod` 4096.
Proof.
  intros Hw Hm. rewrite land_3, u8_mod by (lia || by exists 64).
  assert (Z.shiftr (Z.shiftr w 2) 8 = w / 1024) as ->; [|by apply (size_bits w 4)].
  rewrite !Z.shiftr_div_pow2, Z.div_div by lia. done.
Qed.
Lemma size_bits_h h : 0 ≤ h < 65536 → h `mod` 4 = 0 →
  u16 (Z.shiftl (Z.lor (u8 (Z.land (Z.shiftr h 2) 0x00FF)) (Z.shiftl (Z.land (u8 (Z.shiftr (Z.shiftr h 2) 6)) 0x04) 6)) 2) = h `mod` 2048.
Proof.
  intros Hw Hm. rewrite land_4, Z.shiftl_shiftl by lia. change (2 + 6) with 8.
  assert ((u8 (Z.shiftr (Z.shiftr h 2) 6) / 4) `mod` 2 = (h / 1024) `mod` 2) as ->; [|by apply (size_bits h 2)].
  rewrite !Z.shiftr_div_pow2, Z.div_div by lia. change (2 ^ 2 * 2 ^ 6) with 256. rewrite u8_small.
  - rewrite Z.div_div by lia. done.
  - split; [apply Z.div_pos|apply Z.div_lt_upper_bound]; lia.
Qed.
(** The parts of COM1, REG32 and VHYX. *)
Lemma byte_parts k old e y : k = 4 ∨ k = 8 → 0 ≤ old < 256 → 0 ≤ e < k → 0 ≤ y < k →
  let v := y + k * e + k * k * old in v < 256 → u8 v `mod` k = y ∧ (u8 v / k) `mod` k = e ∧ u8 v / (k * k) = old.
Proof.
  intros Hk Ho He Hy v Hv. rewrite u8_small by nia. unfold v.
  assert ((y + k * e + k * k * old) `mod` k = y) as ->.
  { replace (y + k * e + k * k * old) with (y + (e + k * old) * k) by lia. rewrite Z.mod_add by lia. by apply Z.mod_small. }
  assert ((y + k * e + k * k * old) / k = e + k * old) as ->.
  { replace (y + k * e + k * k * old) with (y + (e + k * old) * k) by lia. rewrite Z.div_add, Z.div_small by lia. lia. }
  split; [done|]. split.
  - replace (e + k * old) with (e + old * k) by lia. rewrite Z.mod_add by lia. by apply Z.mod_small.
  - replace (y + k * e + k * k * old) with ((y + k * e) + old * (k * k)) by lia. rewrite Z.div_add, Z.div_small by nia. lia.
Qed.
Lemma com1_parts old e y : 0 ≤ old < 256 → 0 ≤ e < 4 → 0 ≤ y < 4 →
  let v := u8 (Z.lor (Z.land old 0xF0) (Z.lor (Z.shiftl e 2) y)) in v `mod` 4 = y ∧ (v / 4) `mod` 4 = e ∧ v / 16 = old / 16.
Proof.
  intros Ho He Hy. pose proof (land_middle old 0 4 4 ltac:(lia) ltac:(lia) ltac:(lia)) as H. rewrite Z.shiftr_0_r in H.
  change (Z.shiftl (Z.ones 4) 4) with 0xF0 in H. change (2 ^ (0 + 4)) with 16 in H. change (2 ^ 4) with 16 in H.
  assert (0 ≤ old / 16 < 16) as Hq by (split; [apply Z.div_pos|apply Z.div_lt_upper_bound]; lia).
  rewrite H, (Z.mod_small (old / 16)) by done. rewrite (Z.lor_comm (Z.shiftl e 2)), lor_shiftl by lia.
  rewrite Z.lor_comm, lor_shiftl by lia. change (2 ^ 2) with 4. change (2 ^ 4) with 16.
  replace (y + e * 4 + old / 16 * 16) with (y + 4 * e + 4 * 4 * (old / 16)) by lia.
  apply (byte_parts 4); (by left) || lia.
Qed.
Lemma reg32_parts old e x : 0 ≤ old < 256 → 0 ≤ e < 8 → 0 ≤ x < 8 →
  let v := u8 (Z.lor (Z.land old 0xC0) (Z.lor (Z.shiftl e 3) x)) in v `mod` 8 = x ∧ (v / 8) `mod` 8 = e ∧ v / 64 = old / 64.
Proof.
  intros Ho He Hx. pose proof (land_middle old 0 6 2 ltac:(lia) ltac:(lia) ltac:(lia)) as H. rewrite Z.shiftr_0_r in H.
  change (Z.shiftl (Z.ones 2) 6) with 0xC0 in H. change (2 ^ (0 + 6)) with 64 in H. change (2 ^ 2) with 4 in H.
  assert (0 ≤ old / 64 < 4) as Hq by (split; [apply Z.div_pos|apply Z.div_lt_upper_bound]; lia).
  rewrite H, (Z.mod_small (old / 64)) by done. rewrite (Z.lor_comm (Z.shiftl e 3)), lor_shiftl by lia.
  rewrite Z.lor_comm, lor_shiftl by lia. change (2 ^ 3) with 8. change (2 ^ 6) with 64.
  replace (x + e * 8 + old / 64 * 64) with (x + 8 * e + 8 * 8 * (old / 64)) by lia.
  apply (byte_parts 8); (by right) || lia.
Qed.
Lemma vhyx_parts a b c e : 0 ≤ a < 2 → 0 ≤ b < 8 → 0 ≤ c < 2 → 0 ≤ e < 8 →
  let v := u8 (Z.lor (Z.lor (Z.lor (Z.shiftl a 7) (Z.shiftl b 4)) (Z.shiftl c 3)) e) in
  v / 128 = a ∧ (v / 16) `mod` 8 = b ∧ (v / 8) `mod` 2 = c ∧ v `mod` 8 = e.
Proof.
  intros Ha Hb Hc He. rewrite (Z.lor_comm _ e), (Z.lor_comm (Z.lor _ _) (Z.shiftl c 3)), (Z.lor_comm (Z.shiftl a 7)), !Z.lor_assoc.
  rewrite (lor_shiftl e c 3) by lia. rewrite (lor_shiftl _ b 4) by lia. rewrite (lor_shiftl _ a 7) by lia.
  change (2 ^ 3) with 8. change (2 ^ 4) with 16. change (2 ^ 7) with 128. rewrite u8_small by lia. split_and!.
  - rewrite Z.div_add, Z.div_small by lia. lia.
  - replace (e + c * 8 + b * 16 + a * 128) with (e + c * 8 + (b + a * 8) * 16) by lia.
    rewrite Z.div_add, Z.div_small, Z.add_0_l, Z.mod_add by lia. by apply Z.mod_small.
  - replace (e + c * 8 + b * 16 + a * 128) with (e + (c + (b + a * 8) * 2) * 8) by lia.
    rewrite Z.div_add, Z.div_small, Z.add_0_l, Z.mod_add by lia. by apply Z.mod_small.
  - replace (e + c * 8 + b * 16 + a * 128) with (e + (c + (b + a * 8) * 2) * 8) by lia.
    rewrite Z.mod_add by lia. by apply Z.mod_small.
Qed.

(** ** Start *)

Section start.
Context `{PE : Peer} {D : Type} `{RD : Registers D} `{RL : !RegistersLaws D} (d0 : D)
  (Hpeer : peer_is_device ATK_MC2640_SCCB_ADDR d0).
Implicit Types (s : camera) (d : D).

(** The two bytes of an identifier. *)
Definition device_id (h l : Z) d : Z := 256 * reg_read h d + reg_read l d.
Lemma get_mid_run d s (Q : Z → camera → Prop) :
  sensor_at d0 d s →
  (∀ b, let d1 := reg_write ATK_MC2640_REG_BANK_SEL 1 d in sensor_at d0 d1 (set_cam_bus b s) →
    Q (device_id ATK_MC2640_REG_SENSOR_MIDH ATK_MC2640_REG_SENSOR_MIDL d1) (set_cam_bus b s)) → wp atk_mc2640_get_mid Q s.
Proof using All.
  intros Hs HQ. unfold atk_mc2640_get_mid. do 3 reg_step Hs. apply wp_ret.
  rewrite id_bytes by apply reg_read_range. by apply HQ.
Qed.
Lemma get_pid_run d s (Q : Z → camera → Prop) :
  sensor_at d0 d s →
  (∀ b, let d1 := reg_write ATK_MC2640_REG_BANK_SEL 1 d in sensor_at d0 d1 (set_cam_bus b s) →
    Q (device_id ATK_MC2640_REG_SENSOR_PIDH ATK_MC2640_REG_SENSOR_PIDL d1) (set_cam_bus b s)) → wp atk_mc2640_get_pid Q s.
Proof using All.
  intros Hs HQ. unfold atk_mc2640_get_pid. do 3 reg_step Hs. apply wp_ret.
  rewrite id_bytes by apply reg_read_range. by apply HQ.
Qed.
Lemma read_size_run d s (Q : Z * Z → camera → Prop) :
  sensor_at d0 d s →
  (∀ b wh, sensor_at d0 d (set_cam_bus b s) →
    wh = (u16 (Z.shiftl (Z.lor (reg_read ATK_MC2640_REG_DSP_ZMOW d) (Z.shiftl (Z.land (reg_read ATK_MC2640_REG_DSP_ZMHH d) 0x03) 8)) 2),
          u16 (Z.shiftl (Z.lor (reg_read ATK_MC2640_REG_DSP_ZMOH d) (Z.shiftl (Z.land (reg_read ATK_MC2640_REG_DSP_ZMHH d) 0x04) 6)) 2)) →
    Q wh (set_cam_bus b s)) → wp read_size Q s.
Proof using All. intros Hs HQ. unfold read_size. do 3 reg_step Hs. apply wp_ret. by apply HQ. Qed.

(** The pins as they are out of reset, and the device in a state of its choice. *)
Definition bus_fresh (b : pins) : Prop := lines b = [] ∧ scl b = false ∧ sda b = false.
Lemma init_bus_run s (Q : unit → camera → Prop) :
  bus_fresh (cam_bus s) → (∀ b, sensor_at d0 d0 (set_cam_bus b s) → Q tt (set_cam_bus b s)) → wp (in_bus atk_mc2640_sccb_init) Q s.
Proof.
  intros (El & Ec & Ed) HQ. rewrite wp_in_bus. eapply wp_mono; [by apply sccb_init_run|]. intros [] b Hb. apply HQ.
  exists 0, [Stop]. split; [done|]. by exists [], 0%nat, 0.
Qed.
(** Where the sensor is when its identifiers are read. *)
Definition after_reset : D := writes [(0xFF, 0x01); (0x12, 0x80); (0xFF, 0x01)] d0.
Definition mid_ok : bool := device_id ATK_MC2640_REG_SENSOR_MIDH ATK_MC2640_REG_SENSOR_MIDL after_reset =? ATK_MC2640_MID.
Definition pid_ok : bool :=
  device_id ATK_MC2640_REG_SENSOR_PIDH ATK_MC2640_REG_SENSOR_PIDL (reg_write 0xFF 0x01 after_reset) =? ATK_MC2640_PID.
Definition powered (s : camera) : camera := set_cam_rst true (set_cam_rst false (set_cam_pwdn false (set_cam_pwdn true (set_cam_rst true s)))).
Lemma power_up_run {A} (f : unit → C A) (Q : A → camera → Prop) s :
  wp (f tt) Q (powered s) → wp (atk_mc2640_hw_init;; atk_mc2640_exit_power_down;; (atk_mc2640_hw_reset ≫= f)) Q s.
Proof. done. Qed.
Lemma init_run s :
  bus_fresh (cam_bus s) →
  wp atk_mc2640_init (λ r s', cam_rst s' = true ∧ cam_pwdn s' = false ∧
    if mid_ok && pid_ok
    then r = ATK_MC2640_EOK ∧ cam_dcmi s' = true ∧
         sensor_at d0 (writes (atk_mc2640_init_uxga_cfg ++ [(0xFF, 0x00)]) (reg_write 0xFF 0x01 after_reset)) s'
    else r = ATK_MC2640_ERROR ∧ cam_dcmi s' = cam_dcmi s ∧ (output_width s', output_height s') = (output_width s, output_height s) ∧
         sensor_at d0 (if mid_ok then reg_write 0xFF 0x01 after_reset else after_reset) s') s.
Proof using All.
  intros Hb. unfold atk_mc2640_init. apply power_up_run. set (s1 := powered s). rewrite wp_bind.
  apply init_bus_run; [done|]. intros b0 Hs. rewrite wp_bind. unfold atk_mc2640_sw_reset.
  do 2 reg_step Hs. rewrite wp_bind. eapply get_mid_run; [exact Hs|]. clear Hs. intros b3 d1 Hs.
  change d1 with after_reset in *. fold mid_ok. destruct mid_ok; cbn [negb andb].
  2:{ apply wp_ret. by repeat split. }
  rewrite wp_bind. eapply get_pid_run; [exact Hs|]. clear Hs. intros b4 d2 Hs.
  change d2 with (reg_write 0xFF 0x01 after_reset) in *. fold pid_ok. destruct pid_ok; cbn [negb].
  2:{ apply wp_ret. by repeat split. }
  rewrite wp_bind. unfold atk_mc2640_init_reg. rewrite wp_bind.
  eapply write_table_run; [exact Hs|by apply (bool_decide_unpack _)|]. clear Hs. intros b5 Hs.
  reg_step Hs. rewrite wp_bind. eapply read_size_run; [exact Hs|]. clear Hs. intros b6 wh Hs _. destruct wh as [w h].
  rewrite wp_modify, wp_bind. unfold atk_mc2640_dcmi_init. rewrite wp_modify. apply wp_ret.
  split; [done|]. split; [done|]. split; [done|]. split; [done|]. unfold writes in *. rewrite foldl_app. exact Hs.
Qed.
(** Out of reset, with whatever device of registers on the bus: the driver releases the sensor from reset and power down,
    resets it, and accepts it exactly if it then answers the manufacturer and product identifiers of an
    OV2640. Only then it writes the table of registers and sets DCMI up; otherwise it reports an
    error and has changed neither the size of the picture nor anything else in the sensor. *)
Theorem atk_mc2640_init_checks s :
  bus_fresh (cam_bus s) →
  wp atk_mc2640_init (λ r s', cam_rst s' = true ∧ cam_pwdn s' = false ∧
    if mid_ok && pid_ok
    then r = ATK_MC2640_EOK ∧ cam_dcmi s' = true ∧
         sensor_at d0 (writes (atk_mc2640_init_uxga_cfg ++ [(0xFF, 0x00)]) (reg_write 0xFF 0x01 after_reset)) s'
    else r = ATK_MC2640_ERROR ∧ cam_dcmi s' = cam_dcmi s ∧ (output_width s', output_height s') = (output_width s, output_height s) ∧
         sensor_at d0 (if mid_ok then reg_write 0xFF 0x01 after_reset else after_reset) s') s.
Proof using All. apply init_run. Qed.
End start.

(** * The geometry of the picture *)

(** The registers of an OV2640 in two banks, of which register 0xFF selects one. *)
Class Banked (D : Type) := { bank : D → Z; reg_at : Z → Z → D → Z }.
(** The registers below keep what is written to them. *)
Definition plain (b r : Z) : bool :=
  match b with
  | 0 => bool_decide (r ∈ [0x51; 0x52; 0x53; 0x54; 0x55; 0x57; 0x5A; 0x5B; 0x5C; 0x8C; 0xC0; 0xC1; 0xE0])
  | 1 => bool_decide (r ∈ [0x03; 0x17; 0x18; 0x19; 0x1A; 0x32])
  | _ => false
  end.
Class Ov2640 (D : Type) `{Registers D} `{Banked D} := {
  ov_read r d : reg_read r d = reg_at (bank d) r d;
  ov_select b d : b = 0 ∨ b = 1 → bank (reg_write 0xFF b d) = b;
  ov_select_keeps b d b' r : plain b' r = true → reg_at b' r (reg_write 0xFF b d) = reg_at b' r d;
  ov_bank r v d : plain (bank d) r = true → bank (reg_write r v d) = bank d;
  ov_write r v d : plain (bank d) r = true → 0 ≤ v < 256 → reg_at (bank d) r (reg_write r v d) = v;
  ov_keeps r v d r' : plain (bank d) r = true → plain (bank d) r' = true → r ≠ r' →
    reg_at (bank d) r' (reg_write r v d) = reg_at (bank d) r' d
}.

(** The values of a list of writes are bytes. *)
Ltac bytes := try match goal with l := _ |- Forall _ ?l' => constr_eq l l'; unfold l end; repeat (apply List.Forall_cons; [cbn [snd]; byte|]); apply List.Forall_nil.

Section geometry.
Context `{PE : Peer} {D : Type} `{RD : Registers D} `{RL : !RegistersLaws D} `{BK : Banked D} `{OV : !Ov2640 D} (d0 : D)
  (Hpeer : peer_is_device ATK_MC2640_SCCB_ADDR d0).
Implicit Types (s : camera) (d : D).

Lemma writes_plain b l d r :
  bank d = b → forallb (λ x, plain b x.1) l = true → Forall (λ x, 0 ≤ x.2 < 256) l → plain b r = true →
  bank (writes l d) = b ∧ reg_at b r (writes l d) = foldl (λ v x, if x.1 =? r then x.2 else v) (reg_at b r d) l.
Proof using OV.
  revert d. induction l as [|[r' v] l IH]; intros d Hb Hl Hv Hr; cbn in *; [done|].
  apply andb_prop in Hl as [H' Hl]. apply Forall_cons in Hv as [Hv Hvl]. rewrite <-Hb in H', Hr.
  destruct (IH (reg_write r' v d)) as [E1 E2]; [by rewrite ov_bank|done|done|by rewrite <-Hb|].
  split; [done|]. unfold writes in E2 |- *. cbn. rewrite E2. f_equal. subst b.
  destruct (Z.eqb_spec r' r) as [->|]; [by apply ov_write|by apply ov_keeps].
Qed.

Lemma not_multiple_spec x : not_multiple_of_4 x = negb (x `mod` 4 =? 0).
Proof. unfold not_multiple_of_4. change (4 - 1) with (Z.ones 2). by rewrite Z.land_ones by lia. Qed.

(** A read of a plain register behind writes to plain ones. *)
Lemma read_writes b r l d :
  forallb (λ x, plain b x.1) l = true → Forall (λ x, 0 ≤ x.2 < 256) l → plain b r = true → b = 0 ∨ b = 1 →
  reg_read r (writes l (reg_write 0xFF b d)) = foldl (λ v x, if x.1 =? r then x.2 else v) (reg_at b r d) l.
Proof using OV.
  intros Hl Hv Hr Hb. pose proof (ov_select b d Hb) as E. destruct (writes_plain b l _ r E Hl Hv Hr) as [E1 E2].
  by rewrite ov_read, E1, E2, ov_select_keeps.
Qed.
Lemma set_output_size_run w h d s (Q : Z → camera → Prop) :
  sensor_at d0 d s → w `mod` 4 = 0 → h `mod` 4 = 0 →
  (let ow := Z.shiftr w 2 in let oh := Z.shiftr h 2 in
   ∀ b, sensor_at d0 (writes [(0xE0, 0x04); (0x5A, u8 (Z.land ow 0xFF)); (0x5B, u8 (Z.land oh 0xFF));
     (0x5C, Z.lor (Z.land (u8 (Z.shiftr ow 8)) 3) (Z.land (u8 (Z.shiftr oh 6)) 4)); (0xE0, 0x00)] (reg_write 0xFF 0 d))
     (set_cam_bus b (set_output w h s)) → Q ATK_MC2640_EOK (set_cam_bus b (set_output w h s))) →
  wp (atk_mc2640_set_output_size w h) Q s.
Proof.
  intros Hs Hw Hh HQ. unfold atk_mc2640_set_output_size. rewrite !not_multiple_spec, Hw, Hh. cbn [negb orb Z.eqb].
  rewrite wp_bind, wp_modify. set (s1 := set_output w h s) in *. assert (sensor_at d0 d s1) as H by exact Hs. clear Hs.
  pose proof (zmhh_range (u8 (Z.shiftr (Z.shiftr w 2) 8)) (u8 (Z.shiftr (Z.shiftr h 2) 6))).
  do 6 reg_step H. apply wp_ret, HQ. exact H.
Qed.
(** C21. A size of the picture with both sides multiples of four: the driver stores it, and the size it reads back from the
    registers, the way it does at its start, is the same below 4096 columns and 2048 rows; beyond,
    the registers keep the sides modulo these numbers while the driver's transfers go by what it stored. *)
Theorem output_size_roundtrip w h d s :
  sensor_at d0 d s → 0 ≤ w < 65536 → 0 ≤ h < 65536 → w `mod` 4 = 0 → h `mod` 4 = 0 →
  wp (r ← atk_mc2640_set_output_size w h; wh ← read_size; mret (r, wh))
    (λ '(r, wh) s', r = ATK_MC2640_EOK ∧ (output_width s', output_height s') = (w, h) ∧ wh = (w `mod` 4096, h `mod` 2048)) s.
Proof using All.
  intros Hs Hw Hh Hw4 Hh4. rewrite wp_bind. eapply set_output_size_run; [done..|]. intros ow oh b Hb.
  rewrite wp_bind. eapply read_size_run; [done|exact Hb|]. intros b' wh Hb' ->. apply wp_ret. split; [done|]. split; [done|].
  pose proof (zmhh_range (u8 (Z.shiftr ow 8)) (u8 (Z.shiftr oh 6))).
  rewrite !(read_writes 0) by first [done | by left | bytes]. unfold ATK_MC2640_REG_DSP_ZMOW, ATK_MC2640_REG_DSP_ZMOH, ATK_MC2640_REG_DSP_ZMHH.
  cbn [foldl fst snd Z.eqb Pos.eqb].
  destruct (land_lor_parts (u8 (Z.shiftr ow 8)) (u8 (Z.shiftr oh 6))) as [-> ->].
  unfold ow, oh. by rewrite size_bits_w, size_bits_h.
Qed.

(** The registers of a bank behind writes to it. *)
Lemma reg_writes b r l d :
  forallb (λ x, plain b x.1) l = true → Forall (λ x, 0 ≤ x.2 < 256) l → plain b r = true → b = 0 ∨ b = 1 →
  reg_at b r (writes l (reg_write 0xFF b d)) = foldl (λ v x, if x.1 =? r then x.2 else v) (reg_at b r d) l.
Proof using OV.
  intros Hl Hv Hr Hb. destruct (writes_plain b l _ r (ov_select b d Hb) Hl Hv Hr) as [E1 E2].
  by rewrite E2, ov_select_keeps.
Qed.
Lemma split_2 x : 4 * u8 (Z.shiftr x 2) + Z.land x 3 = x `mod` 1024.
Proof.
  change 3 with (Z.ones 2). rewrite Z.land_ones, Z.shiftr_div_pow2 by lia. by apply (high_low 256 4).
Qed.
Lemma split_3 x : 8 * u8 (Z.shiftr x 3) + Z.land x 7 = x `mod` 2048.
Proof.
  change 7 with (Z.ones 3). rewrite Z.land_ones, Z.shiftr_div_pow2 by lia. by apply (high_low 256 8).
Qed.
(** The window of the sensor: the four edges come to the registers split as the sensor wants them, starts and
    ends modulo 1024 rows and 2048 columns, the end half the size from the start; the high bits of
    COM1 and REG32, which have other meanings, stay. *)
Theorem sensor_window_set sx sy w h d s :
  sensor_at d0 d s → 0 ≤ sx → 0 ≤ sy → 0 ≤ w → 0 ≤ h →
  wp (atk_mc2640_set_sensor_window sx sy w h) (λ _ s', ∃ d', sensor_at d0 d' s' ∧ bank d' = 1 ∧
    let ex := u16 (sx + Z.shiftr w 1) in let ey := u16 (sy + Z.shiftr h 1) in
    let com1 := reg_at 1 ATK_MC2640_REG_SENSOR_COM1 in let reg32 := reg_at 1 ATK_MC2640_REG_SENSOR_REG32 in
    4 * reg_at 1 ATK_MC2640_REG_SENSOR_VSTRT d' + com1 d' `mod` 4 = sy `mod` 1024 ∧
    4 * reg_at 1 ATK_MC2640_REG_SENSOR_VEND d' + (com1 d' / 4) `mod` 4 = ey `mod` 1024 ∧
    8 * reg_at 1 ATK_MC2640_REG_SENSOR_HREFST d' + reg32 d' `mod` 8 = sx `mod` 2048 ∧
    8 * reg_at 1 ATK_MC2640_REG_SENSOR_HREFEND d' + (reg32 d' / 8) `mod` 8 = ex `mod` 2048 ∧
    com1 d' / 16 = com1 d / 16 ∧ reg32 d' / 64 = reg32 d / 64) s.
Proof using All.
  intros H Hsx Hsy Hw Hh. unfold atk_mc2640_set_sensor_window. set (ex := u16 _). set (ey := u16 _).
  set (c1 := reg_at 1 0x03 d). set (c32 := reg_at 1 0x32 d).
  assert (reg_read ATK_MC2640_REG_SENSOR_COM1 (reg_write ATK_MC2640_REG_BANK_SEL ATK_MC2640_REG_BANK_SENSOR d) = c1) as E1
    by exact (read_writes 1 0x03 [] d eq_refl (List.Forall_nil _) eq_refl (or_intror eq_refl)).
  do 2 reg_step H. rewrite E1. set (com1 := u8 (Z.lor (Z.land c1 0xF0) _)).
  do 4 reg_step H.
  match goal with |- context [reg_read _ ?dev] => set (d1 := dev) in * end.
  assert (reg_read ATK_MC2640_REG_SENSOR_REG32 d1 = c32) as E2.
  { apply (read_writes 1 0x32 [(0x03, com1); (0x19, _); (0x1A, _)] d); [done|bytes|done|by right]. }
  rewrite E2. set (reg32 := u8 (Z.lor (Z.land c32 0xC0) _)). do 3 reg_step H.
  set (l := [(0x03, com1); (0x19, u8 (Z.shiftr sy 2)); (0x1A, u8 (Z.shiftr ey 2)); (0x32, reg32);
    (0x17, u8 (Z.shiftr sx 3)); (0x18, u8 (Z.shiftr ex 3))]).
  exists (writes l (reg_write 0xFF 1 d)). split; [exact H|].
  assert (bank (writes l (reg_write 0xFF 1 d)) = 1) as Eb.
  { apply (writes_plain 1 l _ 0x03 (ov_select 1 d (or_intror eq_refl))); [done|bytes|done]. }
  split; [exact Eb|]. cbv zeta.
  rewrite !(reg_writes 1) by first [done | by right | bytes]. cbn -[Z.modulo Z.div Z.mul Z.add Z.shiftr].
  assert (0 ≤ c1 < 256 ∧ 0 ≤ c32 < 256) as [Hc1 Hc32] by (rewrite <-E1, <-E2; split; apply reg_read_range).
  destruct (com1_parts c1 (Z.land ey 3) (Z.land sy 3)) as (P1 & P2 & P3); [done|rewrite land_3; apply Z.mod_pos_bound; lia..|].
  destruct (reg32_parts c32 (Z.land ex 7) (Z.land sx 7)) as (P4 & P5 & P6); [done|rewrite land_7; apply Z.mod_pos_bound; lia..|].
  fold com1 in P1, P2, P3. fold reg32 in P4, P5, P6. rewrite P1, P2, P3, P4, P5, P6.
  by rewrite !split_2, !split_3.
Qed.

(** The window of the picture: width and height in units of four and the offsets come to the registers split over
    HSIZE, VSIZE, XOFFL, YOFFL, VHYX and TEST, modulo 1024, 512 and 2048; with a side that is no multiple of four
    the call is refused and the sensor not accessed. *)
Theorem image_window_set x y w h d s :
  sensor_at d0 d s →
  if negb (w `mod` 4 =? 0) || negb (h `mod` 4 =? 0)
  then atk_mc2640_set_image_window x y w h s = Some (ATK_MC2640_EINVAL, s)
  else wp (atk_mc2640_set_image_window x y w h) (λ r s', r = ATK_MC2640_EOK ∧ ∃ d', sensor_at d0 d' s' ∧ bank d' = 0 ∧
    let r := λ n, reg_at 0 n d' in
    r ATK_MC2640_REG_DSP_HSIZE + 256 * ((r ATK_MC2640_REG_DSP_VHYX / 8) `mod` 2) + 512 * (r ATK_MC2640_REG_DSP_TEST / 128) = (w / 4) `mod` 1024 ∧
    r ATK_MC2640_REG_DSP_VSIZE + 256 * (r ATK_MC2640_REG_DSP_VHYX / 128) = (h / 4) `mod` 512 ∧
    r ATK_MC2640_REG_DSP_XOFFL + 256 * (r ATK_MC2640_REG_DSP_VHYX `mod` 8) = x `mod` 2048 ∧
    r ATK_MC2640_REG_DSP_YOFFL + 256 * ((r ATK_MC2640_REG_DSP_VHYX / 16) `mod` 8) = y `mod` 2048) s.
Proof using All.
  intros H. unfold atk_mc2640_set_image_window. rewrite !not_multiple_spec. destruct (_ || _); [done|].
  set (hsize := Z.shiftr w 2). set (vsize := Z.shiftr h 2). set (vhyx := u8 (Z.lor _ _)).
  assert (0 ≤ vhyx < 256) as Hv by apply u8_range. do 9 reg_step H. apply wp_ret. split; [done|].
  set (l := [(0xE0, 0x04); (0x51, u8 (Z.land hsize 0x00FF)); (0x52, u8 (Z.land vsize 0x00FF)); (0x53, u8 (Z.land x 0x00FF));
    (0x54, u8 (Z.land y 0x00FF)); (0x55, vhyx); (0x57, u8 (Z.land (Z.shiftr hsize 2) 0x80)); (0xE0, 0x00)]).
  exists (writes l (reg_write 0xFF 0 d)). split; [exact H|].
  split; [apply (writes_plain 0 l _ 0xE0 (ov_select 0 d (or_introl eq_refl))); [done|bytes|done]|]. cbv beta zeta.
  rewrite !(reg_writes 0) by first [done | by left | bytes]. cbn -[Z.modulo Z.div Z.mul Z.add Z.shiftr Z.land u8].
  rewrite !low_byte. unfold vhyx.
  assert (Z.land (Z.shiftr vsize 1) 0x80 = Z.shiftl ((vsize / 256) `mod` 2) 7) as -> by exact (land_middle vsize 1 7 1 ltac:(lia) ltac:(lia) ltac:(lia)).
  assert (Z.land (Z.shiftr y 4) 0x70 = Z.shiftl ((y / 256) `mod` 8) 4) as -> by exact (land_middle y 4 4 3 ltac:(lia) ltac:(lia) ltac:(lia)).
  assert (Z.land (Z.shiftr hsize 5) 0x08 = Z.shiftl ((hsize / 256) `mod` 2) 3) as -> by exact (land_middle hsize 5 3 1 ltac:(lia) ltac:(lia) ltac:(lia)).
  assert (Z.land (Z.shiftr x 8) 0x07 = (x / 256) `mod` 8) as -> by exact (land_middle x 8 0 3 ltac:(lia) ltac:(lia) ltac:(lia)).
  assert (Z.land (Z.shiftr hsize 2) 0x80 = Z.shiftl ((hsize / 512) `mod` 2) 7) as -> by exact (land_middle hsize 2 7 1 ltac:(lia) ltac:(lia) ltac:(lia)).
  destruct (vhyx_parts ((vsize / 256) `mod` 2) ((y / 256) `mod` 8) ((hsize / 256) `mod` 2) ((x / 256) `mod` 8)) as (-> & -> & -> & ->);
    [apply Z.mod_pos_bound; lia..|].
  assert (u8 (Z.shiftl ((hsize / 512) `mod` 2) 7) / 128 = (hsize / 512) `mod` 2) as ->.
  { pose proof (Z.mod_pos_bound (hsize / 512) 2 ltac:(lia)). by assert ((hsize / 512) `mod` 2 = 0 ∨ (hsize / 512) `mod` 2 = 1) as [-> | ->] by lia. }
  pose proof (high_low 2 256 hsize ltac:(lia) ltac:(lia)). pose proof (high_low 2 512 hsize ltac:(lia) ltac:(lia)).
  pose proof (high_low 2 256 vsize ltac:(lia) ltac:(lia)). pose proof (high_low 8 256 x ltac:(lia) ltac:(lia)).
  pose proof (high_low 8 256 y ltac:(lia) ltac:(lia)). unfold hsize, vsize in *. rewrite !Z.shiftr_div_pow2 in * by lia.
  change (2 ^ 2) with 4 in *. change (256 * 2) with 512 in *. change (512 * 2) with 1024 in *. change (256 * 8) with 2048 in *.
  split_and!; lia.
Qed.

(** ** The start of the camera *)

(** Runs one of the settings. *)
Ltac setting H := cbn beta iota; repeat reg_step H; apply (proj2 (wp_ret _ _ _)); cbn beta.
Lemma tables_bytes : Forall (λ '(r, v), 0 ≤ r < 256 ∧ 0 ≤ v < 256) (atk_mc2640_set_yuv422_cfg ++ atk_mc2640_set_jpeg_cfg).
Proof. by apply (bool_decide_unpack _). Qed.
(** The settings behind the start, whether the sensor was accepted or not. *)
Lemma settings_run d s :
  sensor_at d0 d s →
  wp (atk_mc2640_set_output_format 1;; atk_mc2640_set_output_size JPEG_WIDTH_320 JPEG_HEIGHT_240;; atk_mc2640_set_light_mode 1;;
      atk_mc2640_set_color_saturation 1;; atk_mc2640_set_brightness 1;; atk_mc2640_set_contrast 2;; atk_mc2640_set_special_effect 7;; mret tt)
    (λ _ s', (output_width s', output_height s') = (JPEG_WIDTH_320, JPEG_HEIGHT_240) ∧ cam_dcmi s' = cam_dcmi s ∧ ∃ d', sensor_at d0 d' s') s.
Proof.
  intros H. pose proof tables_bytes as [Hy Hj]%Forall_app. rewrite wp_bind. unfold atk_mc2640_set_output_format. rewrite wp_bind.
  eapply write_table_run; [exact H|exact Hy|]. clear H. intros b H. rewrite wp_bind.
  eapply write_table_run; [exact H|exact Hj|]. clear H. intros b1 H. cbn beta. apply (proj2 (wp_ret _ _ _)). cbn beta. rewrite wp_bind.
  eapply set_output_size_run; [exact H|done|done|]. clear H. intros ow oh b2 H. clearbody ow oh.
  rewrite wp_bind. unfold atk_mc2640_set_light_mode. setting H. rewrite wp_bind. unfold atk_mc2640_set_color_saturation. setting H. rewrite wp_bind. unfold atk_mc2640_set_brightness. setting H.
  rewrite wp_bind. unfold atk_mc2640_set_contrast. setting H. rewrite wp_bind. unfold atk_mc2640_set_special_effect. setting H.
  apply (proj2 (wp_ret _ _ _)). split; [done|]. split; [done|]. eexists. exact H.
Qed.
(** The result of [atk_mc2640_init] is not looked at: whatever answers on the bus, the start of the camera
    goes on to set 320 by 240, and returns with DCMI set up only if the identifiers were right. *)
Lemma eth_camera_init_run s :
  bus_fresh (cam_bus s) → cam_dcmi s = false →
  wp eth_camera_init (λ _ s', (output_width s', output_height s') = (JPEG_WIDTH_320, JPEG_HEIGHT_240) ∧
    cam_dcmi s' = mid_ok d0 && pid_ok d0 ∧ ∃ d', sensor_at d0 d' s') s.
Proof using RL Hpeer.
  intros Hb Hd. unfold eth_camera_init. rewrite wp_bind. eapply wp_mono; [by eapply init_run|].
  intros r s1 (_ & _ & H). assert (cam_dcmi s1 = mid_ok d0 && pid_ok d0 ∧ ∃ d, sensor_at d0 d s1) as (E & d & Hd1).
  { destruct (mid_ok d0 && pid_ok d0); destruct H as (_ & -> & H); [by eauto|]. destruct H as [_ H]. by eauto. }
  eapply wp_mono; [by eapply settings_run|]. intros [] s2 (? & -> & ?). done.
Qed.
End geometry.
