(* ===== verification/Dcmi.v ===== *)
(** The transfer of a frame: board/ATK_MC2640/atk_mc2640_dcmi.c and the end of atk_mc2640.c, on the kernel's semaphore
    dcmi_sem. The HAL is vendor code: what HAL_DCMI_Start_DMA answers is the class [Hal]; the handle of the DMA is
    there once [atk_mc2640_dcmi_init] has run. The configuration of pins, interrupt masks and
    priorities is left out. *)
From S2P Require Import Prelude Sccb Sensor Kservice Mem KState Sched Object Timer Thread ThreadInit Ipc Sem.

(** stm32f4xx_hal_dma.h *)
Definition DMA_MINC_DISABLE : Z := 0.
Definition DMA_MINC_ENABLE : Z := 0x400.
Definition DMA_MDATAALIGN_BYTE : Z := 0.
Definition DMA_MDATAALIGN_HALFWORD : Z := 0x2000.
Definition DMA_MDATAALIGN_WORD : Z := 0x4000.
Definition DMA_FIFO_THRESHOLD_HALFFULL : Z := 1.
Definition DMA_FIFO_THRESHOLD_FULL : Z := 3.
Definition DMA_MBURST_SINGLE : Z := 0.
Definition DMA_MBURST_INC4 : Z := 0x800000.
Definition DMA_PRIORITY_HIGH : Z := 0x20000.
Definition DMA_PRIORITY_VERY_HIGH : Z := 0x30000.
Definition ATK_MC2640_DCMI_EOK : Z := 0.
Definition ATK_MC2640_DCMI_ERROR : Z := 1.
Definition ATK_MC2640_EEMPTY : Z := 4.

(** The part of DMA_InitTypeDef that changes. *)
Record dma_init := DmaInit { MemInc : Z; MemDataAlignment : Z; FIFOThreshold : Z; MemBurst : Z; Priority : Z }.
(** The sensor's driver and the kernel; the configuration of the DMA; the destination and the number of
    words while a transfer runs; frame_sem. *)
Record dcmi := Dcmi { dc_camera : camera; dc_kernel : kernel; dc_dma : dma_init; dc_running : option (Z * Z); frame_sem : Z }.
Definition set_dc_camera c s := Dcmi c (dc_kernel s) (dc_dma s) (dc_running s) (frame_sem s).
Definition set_dc_kernel k s := Dcmi (dc_camera s) k (dc_dma s) (dc_running s) (frame_sem s).
Definition set_dc_dma d s := Dcmi (dc_camera s) (dc_kernel s) d (dc_running s) (frame_sem s).
Definition set_dc_running r s := Dcmi (dc_camera s) (dc_kernel s) (dc_dma s) r (frame_sem s).
Definition set_frame_sem v s := Dcmi (dc_camera s) (dc_kernel s) (dc_dma s) (dc_running s) v.

Class Hal := {
  (** HAL_DCMI_Start_DMA, for a destination and a number of words. *)
  start_dma : Z → Z → Z;
  dcmi_sem : Z
}.
Abbreviation DM := (M dcmi).

Section dcmi.
Context `{CB : Callbacks} `{PE : Peer} `{HL : Hal}.

Definition in_k {A} (m : K A) : DM A := λ s,
  match m (dc_kernel s) with Some (x, k) => Some (x, set_dc_kernel k s) | None => None end.
Definition in_camera {A} (m : C A) : DM A := λ s,
  match m (dc_camera s) with Some (x, c) => Some (x, set_dc_camera c s) | None => None end.

(** DMA_Handle is RT_NULL before HAL_DCMI_Init. *)
Definition atk_mc2640_dcmi_dma_apply (dts_addr meminc memdataalignment : Z) : DM unit :=
  linked ← gets (λ s, cam_dcmi (dc_camera s));
  if negb linked then fail else
  if 0x60000000 <=? dts_addr then
    modify (set_dc_dma (DmaInit meminc DMA_MDATAALIGN_WORD DMA_FIFO_THRESHOLD_FULL DMA_MBURST_INC4 DMA_PRIORITY_VERY_HIGH))
  else
    modify (set_dc_dma (DmaInit meminc memdataalignment DMA_FIFO_THRESHOLD_HALFFULL DMA_MBURST_SINGLE DMA_PRIORITY_HIGH)).
(** The interrupt at the end of a frame. *)
Definition HAL_DCMI_FrameEventCallback : DM unit :=
  modify (set_frame_sem 1);;
  in_k (rt_sem_release dcmi_sem);;
  mret tt.
Definition HAL_DCMI_Stop : DM unit := modify (set_dc_running None).

(** What follows rt_sem_take. *)
Definition dcmi_finish (r : Z) : DM Z :=
  HAL_DCMI_Stop;;
  mret (if negb (r =? RT_EOK) then ATK_MC2640_DCMI_ERROR else ATK_MC2640_DCMI_EOK).
Definition atk_mc2640_dcmi_start (dts_addr meminc memdataalignment len : Z) : DM (call Z Z) :=
  atk_mc2640_dcmi_dma_apply dts_addr meminc memdataalignment;;
  modify (set_frame_sem 0);;
  if negb (start_dma dts_addr len =? 0) then mret (Ret ATK_MC2640_DCMI_ERROR) else
  modify (set_dc_running (Some (dts_addr, len)));;
  r ← in_k (rt_sem_take dcmi_sem (rt_tick_from_millisecond 3000));
  match r with
  | Wait t => mret (Wait t)
  | Ret r => r ← dcmi_finish r; mret (Ret r)
  end.
Definition atk_mc2640_dcmi_start_resume (thread : Z) : DM Z :=
  r ← in_k (rt_sem_take_resume thread); dcmi_finish r.

(** The step of the address, the width of an access, and its bytes. *)
Definition get_type (type : Z) : option (Z * Z * Z) :=
  match type with
  | 0 => Some (DMA_MINC_DISABLE, DMA_MDATAALIGN_BYTE, 1)
  | 1 => Some (DMA_MINC_ENABLE, DMA_MDATAALIGN_BYTE, 1)
  | 2 => Some (DMA_MINC_DISABLE, DMA_MDATAALIGN_HALFWORD, 2)
  | 3 => Some (DMA_MINC_ENABLE, DMA_MDATAALIGN_HALFWORD, 2)
  | 4 => Some (DMA_MINC_DISABLE, DMA_MDATAALIGN_WORD, 4)
  | 5 => Some (DMA_MINC_ENABLE, DMA_MDATAALIGN_WORD, 4)
  | _ => None
  end.
Definition frame_result (r : Z) : Z := if negb (r =? 0) then ATK_MC2640_EEMPTY else ATK_MC2640_EOK.
Definition atk_mc2640_get_frame_sized (dts_addr type : Z) (before_transfer : option (DM unit)) (buf_bytes : Z) : DM (call Z Z) :=
  match get_type type with
  | None => mret (Ret ATK_MC2640_EINVAL)
  | Some (meminc, memdataalignment, size) =>
      w ← gets (λ s, output_width (dc_camera s));
      h ← gets (λ s, output_height (dc_camera s));
      let len := u32 (w * h) / size in
      match before_transfer with Some f => f | None => mret tt end;;
      let len := if 4 <=? buf_bytes then
                   let max_words := buf_bytes / 4 in if max_words <? len then max_words else len
                 else len in
      r ← atk_mc2640_dcmi_start dts_addr meminc memdataalignment len;
      match r with
      | Wait t => mret (Wait t)
      | Ret r => mret (Ret (frame_result r))
      end
  end.
Definition atk_mc2640_get_frame_sized_resume (thread : Z) : DM Z :=
  r ← atk_mc2640_dcmi_start_resume thread; mret (frame_result r).
Definition atk_mc2640_get_frame (dts_addr type : Z) (before_transfer : option (DM unit)) : DM (call Z Z) :=
  atk_mc2640_get_frame_sized dts_addr type before_transfer 0.
End dcmi.

(** * Properties *)

Section proofs.
Context `{CB : Callbacks} `{PE : Peer} `{HL : Hal}.
Implicit Types (s : dcmi) (k : kernel).

Lemma wp_in_dcmi_kernel {A} (m : K A) (Q : A → dcmi → Prop) s :
  wp (in_k m) Q s ↔ wp m (λ r k, Q r (set_dc_kernel k s)) (dc_kernel s).
Proof. unfold wp, in_k. by destruct (m (dc_kernel s)) as [[??]|]. Qed.
Lemma wp_in_camera {A} (m : C A) (Q : A → dcmi → Prop) s :
  wp (in_camera m) Q s ↔ wp m (λ r c, Q r (set_dc_camera c s)) (dc_camera s).
Proof. unfold wp, in_camera. by destruct (m (dc_camera s)) as [[??]|]. Qed.

(** The thread [t] runs and may wait, DCMI was set up, and no frame event is counted. *)
Record capture_ok (t : Z) s : Prop := {
  co_linked : cam_dcmi (dc_camera s) = true;
  co_inv : kinv 0 (dc_kernel s);
  co_sem : sem_ok dcmi_sem 0 (dc_kernel s);
  co_free : tl (LSuspend dcmi_sem) (dc_kernel s) = [];
  co_running : ∃ th, running t th (dc_kernel s);
  co_other : other_ready t (dc_kernel s)
}.
(** [t] waits for the end of the frame. *)
Record capturing (t addr len : Z) s : Prop := {
  cg_linked : cam_dcmi (dc_camera s) = true;
  cg_inv : kinv 0 (dc_kernel s);
  cg_sem : sem_ok dcmi_sem 0 (dc_kernel s);
  cg_waiting : tl (LSuspend dcmi_sem) (dc_kernel s) = [t];
  cg_thread : ∃ th, threads (dc_kernel s) !! t = Some th ∧ stat_of th = RT_THREAD_SUSPEND ∧ th_error th = RT_EOK;
  cg_transfer : dc_running s = Some (addr, len);
  cg_frame : frame_sem s = 0
}.
Lemma dma_apply_run s addr meminc align (Q : unit → dcmi → Prop) :
  cam_dcmi (dc_camera s) = true → (∀ d, Q tt (set_dc_dma d s)) → wp (atk_mc2640_dcmi_dma_apply addr meminc align) Q s.
Proof.
  intros E HQ. unfold atk_mc2640_dcmi_dma_apply. rewrite wp_bind, wp_gets, E. cbn [negb].
  destruct (_ <=? _); rewrite wp_modify; apply HQ.
Qed.
Definition capture_ticks : Z := rt_tick_from_millisecond 3000.
Lemma dcmi_start_run t addr meminc align len s :
  capture_ok t s → start_dma addr len = 0 →
  wp (atk_mc2640_dcmi_start addr meminc align len) (λ r s', r = Wait t ∧ capturing t addr len s') s.
Proof.
  intros [El Hk Hs Hf (th & [Hn Hcur Hth Hst]) Ho] Hdma. unfold atk_mc2640_dcmi_start. rewrite wp_bind.
  apply dma_apply_run; [done|]. intros d. rewrite wp_bind, wp_modify, Hdma. cbn [negb Z.eqb].
  rewrite wp_bind, wp_modify, wp_bind, wp_in_dcmi_kernel. cbn [dc_kernel set_dc_running set_frame_sem set_dc_dma].
  eapply wp_mono; [apply (rt_sem_take_block_run 0 _ dcmi_sem t th); try done; lia|].
  intros r k (-> & Hs1 & Hk1 & Eth & (l1 & l2 & E1 & E2 & _) & _). apply (proj2 (wp_ret _ _ _)). split; [done|].
  rewrite Hf in E1. destruct l1, l2; try done. simpl in E2.
  constructor; cbn; try done. eexists. split; [by rewrite Eth, lookup_insert_eq|]. split; [by apply stat_of_with_stat|done].
Qed.
Lemma frame_event_run t addr len s :
  capturing t addr len s →
  wp HAL_DCMI_FrameEventCallback (λ _ s', frame_sem s' = 1 ∧ dc_camera s' = dc_camera s ∧ dc_running s' = dc_running s ∧
    kinv 0 (dc_kernel s') ∧ sem_ok dcmi_sem 0 (dc_kernel s') ∧ tl (LSuspend dcmi_sem) (dc_kernel s') = [] ∧
    ∃ th, threads (dc_kernel s') !! t = Some th ∧ stat_of th = RT_THREAD_READY ∧ th_error th = RT_EOK) s.
Proof.
  intros [El Hk Hs Hw (th & Hth & Hst & He) _ _]. unfold HAL_DCMI_FrameEventCallback. rewrite wp_bind, wp_modify, wp_bind, wp_in_dcmi_kernel.
  destruct (rt_sem_release_wake_run 0 (dc_kernel s) dcmi_sem t [] Hk Hs Hw) as (th' & Hth' & _ & Hwp). simplify_eq.
  eapply wp_mono; [exact Hwp|]. intros r k (_ & Hs' & Hk' & El' & Eth & _). apply (proj2 (wp_ret _ _ _)).
  split_and!; try done. eexists. cbn. split; [by rewrite Eth, lookup_insert_eq|]. split; [by apply stat_of_with_stat|done].
Qed.
Lemma dcmi_resume_run t th s :
  threads (dc_kernel s) !! t = Some th →
  wp (atk_mc2640_dcmi_start_resume t)
    (λ r s', r = (if negb (th_error th =? RT_EOK) then ATK_MC2640_DCMI_ERROR else ATK_MC2640_DCMI_EOK) ∧ s' = set_dc_running None s) s.
Proof.
  intros Hth. unfold atk_mc2640_dcmi_start_resume, rt_sem_take_resume, dcmi_finish, HAL_DCMI_Stop.
  rewrite wp_bind, wp_in_dcmi_kernel, wp_bind. eapply wp_thread_at; [done|].
  destruct (th_error th =? RT_EOK) eqn:E; cbn [negb]; apply (proj2 (wp_ret _ _ _)); rewrite wp_bind, wp_modify;
    apply (proj2 (wp_ret _ _ _)); rewrite ?E; by destruct s.
Qed.

(** The number of words that the DMA may write. *)
Lemma get_frame_32_run t addr buf s :
  capture_ok t s → (∀ len, start_dma addr len = 0) → 4 ≤ buf →
  wp (atk_mc2640_get_frame_sized addr 5 None buf) (λ r s', r = Wait t ∧ ∃ len, 4 * len ≤ buf ∧ capturing t addr len s') s.
Proof.
  intros Hs Hdma Hbuf. unfold atk_mc2640_get_frame_sized. cbn [get_type]. rewrite wp_bind, wp_gets, wp_bind, wp_gets, wp_bind.
  apply (proj2 (wp_ret _ _ _)). rewrite (proj2 (Z.leb_le 4 buf)) by done. rewrite wp_bind.
  set (len := if _ <? _ then _ else _). assert (4 * len ≤ buf) as Hlen.
  { pose proof (Z.mul_div_le buf 4 ltac:(lia)). unfold len. destruct (Z.ltb_spec (buf / 4) (u32 (output_width (dc_camera s) * output_height (dc_camera s)) / 4)); lia. }
  clearbody len. eapply wp_mono; [by apply dcmi_start_run|]. intros r s' [-> H]. apply (proj2 (wp_ret _ _ _)). eauto.
Qed.
(** A capture on a sensor that was accepted: the transfer covers no more than the caller's buffer, the caller sleeps until the
    interrupt at the end of the frame wakes it, then DCMI is stopped, the capture succeeds, and the
    semaphore is as it was. *)
Theorem capture_handover t addr buf s :
  capture_ok t s → (∀ len, start_dma addr len = 0) → 4 ≤ buf →
  wp (r1 ← atk_mc2640_get_frame_sized addr 5 None buf; transfer ← gets dc_running;
      HAL_DCMI_FrameEventCallback;; r2 ← atk_mc2640_get_frame_sized_resume t; mret (r1, transfer, r2))
    (λ '(r1, transfer, r2) s', r1 = Wait t ∧ (∃ len, transfer = Some (addr, len) ∧ 4 * len ≤ buf) ∧ r2 = ATK_MC2640_EOK ∧
      dc_running s' = None ∧ frame_sem s' = 1 ∧ sem_ok dcmi_sem 0 (dc_kernel s') ∧ tl (LSuspend dcmi_sem) (dc_kernel s') = []) s.
Proof.
  intros Hs Hdma Hbuf. rewrite wp_bind. eapply wp_mono; [by apply get_frame_32_run|].
  intros r1 s1 (-> & len & Hlen & H1). rewrite wp_bind, wp_gets, wp_bind.
  eapply wp_mono; [by eapply frame_event_run|]. intros [] s2 (Ef & _ & _ & _ & Hsem & Hl & th & Hth & _ & He).
  rewrite wp_bind. unfold atk_mc2640_get_frame_sized_resume. rewrite wp_bind.
  eapply wp_mono; [by eapply dcmi_resume_run|]. intros r2 s3 [-> ->]. rewrite He. cbn [Z.eqb negb].
  apply (proj2 (wp_ret _ _ _)), (proj2 (wp_ret _ _ _)). split; [done|]. split; [|done].
  exists len. by rewrite (cg_transfer _ _ _ _ H1).
Qed.

(** The timeout of the waiting thread. *)
Lemma capture_timeout_run t addr len s :
  capturing t addr len s →
  wp (in_k (rt_timer_stop (ThTimer t);; rt_thread_timeout t)) (λ _ s', dc_camera s' = dc_camera s ∧
    kinv 0 (dc_kernel s') ∧ sem_ok dcmi_sem 0 (dc_kernel s') ∧ tl (LSuspend dcmi_sem) (dc_kernel s') = [] ∧
    ∃ th, threads (dc_kernel s') !! t = Some th ∧ th_error th = - RT_ETIMEOUT) s.
Proof.
  intros [El Hk Hs Hw (th & Hth & Hst & He) _ _]. rewrite wp_in_dcmi_kernel.
  eapply wp_mono; [by apply (timeout_wake_run (dc_kernel s) t th)|]. intros [] k (Hk' & Hf & Ho & Eth & Htl).
  split; [done|]. cbn. split; [done|]. split; [|split].
  - apply (sem_ok_move dcmi_sem 0 (dc_kernel s)); [done|apply Hf|apply Ho|lia].
  - rewrite Htl, Hw by done. by rewrite lremove_cons_eq.
  - eexists. split; [by rewrite Eth, lookup_insert_eq|done].
Qed.
Lemma late_event_run s :
  kinv 0 (dc_kernel s) → sem_ok dcmi_sem 0 (dc_kernel s) → tl (LSuspend dcmi_sem) (dc_kernel s) = [] →
  wp HAL_DCMI_FrameEventCallback (λ _ s', dc_camera s' = dc_camera s ∧ threads (dc_kernel s') = threads (dc_kernel s) ∧
    kinv 0 (dc_kernel s') ∧ sem_ok dcmi_sem 1 (dc_kernel s')) s.
Proof.
  intros Hk Hs El. unfold HAL_DCMI_FrameEventCallback. rewrite wp_bind, wp_modify, wp_bind, wp_in_dcmi_kernel. cbn [dc_kernel set_frame_sem].
  destruct (so_object _ _ _ Hs) as (o & Ho & Hc & _). unfold rt_sem_release, sem_value, set_sem_value. wp_simpl.
  eapply assert_class_run; [done..|]. wp_simpl. rewrite El. cbn. wp_simpl. eapply wp_deref; [apply Hs|]. cbn. wp_simpl.
  apply (proj2 (wp_ret _ _ _)). split_and!; try done; cbn; [by apply kinv_sems|by apply (sem_ok_value _ 0)].
Qed.
(** C22. The end of a frame between the timeout of a capture and its return is counted by the semaphore: the capture fails, and
    the next one succeeds at once, before any word of its own frame has arrived. *)
Theorem capture_stale_event t addr meminc align len len' s :
  capture_ok t s → start_dma addr len = 0 → start_dma addr len' = 0 →
  wp (r1 ← atk_mc2640_dcmi_start addr meminc align len; in_k (rt_timer_stop (ThTimer t);; rt_thread_timeout t);;
      HAL_DCMI_FrameEventCallback;; r2 ← atk_mc2640_dcmi_start_resume t;
      r3 ← atk_mc2640_dcmi_start addr meminc align len'; mret (r1, r2, r3))
    (λ '(r1, r2, r3) s', r1 = Wait t ∧ r2 = ATK_MC2640_DCMI_ERROR ∧ r3 = Ret ATK_MC2640_DCMI_EOK ∧ frame_sem s' = 0) s.
Proof.
  intros Hs Hd Hd'. rewrite wp_bind. eapply wp_mono; [by apply dcmi_start_run|]. intros r1 s1 (-> & H1).
  rewrite wp_bind. eapply wp_mono; [by eapply capture_timeout_run|]. intros [] s2 (Ec & Hk & Hsem & El & th & Hth & He).
  rewrite wp_bind. eapply wp_mono; [by apply late_event_run|]. intros [] s3 (Ec3 & Et & Hk3 & Hsem3).
  rewrite wp_bind. eapply wp_mono; [apply (dcmi_resume_run t th); by rewrite Et|]. intros r2 s4 [-> ->]. rewrite He. cbn [Z.eqb Z.opp negb].
  rewrite wp_bind. unfold atk_mc2640_dcmi_start. rewrite wp_bind.
  apply dma_apply_run; [cbn; rewrite Ec3, Ec; apply H1|]. intros d. rewrite wp_bind, wp_modify, Hd'. cbn [negb Z.eqb].
  rewrite wp_bind, wp_modify, wp_bind, wp_in_dcmi_kernel. cbn [dc_kernel set_dc_running set_frame_sem set_dc_dma].
  eapply wp_mono; [apply (rt_sem_take_nowait _ dcmi_sem 1); [done|done|by left]|]. cbn [Z.ltb Z.compare]. intros r3 k (-> & -> & _).
  by apply (proj2 (wp_ret _ _ _)).
Qed.
End proofs.

(** * A sensor that was not accepted *)

Section rejected.
Context `{CB : Callbacks} `{PE : Peer} `{HL : Hal} {D : Type} `{RD : Registers D} `{RL : !RegistersLaws D} (d0 : D)
  (Hpeer : peer_is_device ATK_MC2640_SCCB_ADDR d0).

(** C23. When what answers on the bus has not the identifiers of an OV2640, the start of the camera does not tell: it sets the
    size of the picture all the same, and the first capture writes through a handle of the DMA that
    is RT_NULL, whatever the destination, the width of an access and the size of the buffer. *)
Theorem capture_after_rejection s :
  bus_fresh (cam_bus (dc_camera s)) → cam_dcmi (dc_camera s) = false → mid_ok d0 && pid_ok d0 = false →
  wp (in_camera eth_camera_init) (λ _ s', (output_width (dc_camera s'), output_height (dc_camera s')) = (JPEG_WIDTH_320, JPEG_HEIGHT_240) ∧
    ∀ addr type buf, 0 ≤ type < 6 → atk_mc2640_get_frame_sized addr type None buf s' = None) s.
Proof using RL Hpeer.
  intros Hb Hd Hid. rewrite wp_in_camera. eapply wp_mono; [by eapply eth_camera_init_run|].
  intros [] c (Esize & Ed & _). split; [done|]. rewrite Hid in Ed. intros addr type buf Htype.
  assert (type = 0 ∨ type = 1 ∨ type = 2 ∨ type = 3 ∨ type = 4 ∨ type = 5) as Ht by lia.
  unfold atk_mc2640_get_frame_sized, atk_mc2640_dcmi_start, atk_mc2640_dcmi_dma_apply, mbind, M_bind, gets. cbn [dc_camera set_dc_camera].
  by destruct Ht as [->|[->|[->|[->|[->| ->]]]]]; cbn; rewrite Ed.
Qed.
End rejected.
