(* ===== verification/NetPerf.v ===== *)
(** The throughput test of applications/net_throughput.c, the shell command "netperf".
    lwIP, the clock and the log are outside: a call is a [np_request], time is
    the answer to TICK, and of the log's lines only the measurements are
    kept. *)
From S2P Require Import Prelude Kservice Mem KState Timer Interact.

Definition NETPERF_PORT_DEFAULT : Z := 5002.
Definition NETPERF_DURATION_SEC : Z := 10.
Definition NETPERF_ACCEPT_TIMEOUT_SEC : Z := 60.
Definition NETPERF_REPORT_MS : Z := 1000.
Definition CCM_NETPERF_BUF_SIZE : Z := 4096.
Definition INADDR_ANY : Z := 0.
Definition INT_MAX : Z := 2147483647.

(** "RX interval", "RX final", "TX interval", "TX final" *)
Inductive rate_tag := RX_interval | RX_final | TX_interval | TX_final.
Inductive np_request :=
  | NETIF_DEFAULT
  | TICK
  | MDELAY (ms : Z)
  | SOCKET
  | BIND (fd port addr : Z)
  | LISTEN (fd backlog : Z)
  | SELECT (fd : Z)
  | ACCEPT (fd : Z)
  | RECV (fd len : Z)
  | SEND (fd : Z) (data : list Z)
  | CLOSESOCKET (fd : Z)
  | GETHOSTBYNAME (host : list Z)
  | CONNECT (fd port addr : Z)
  | RATE (tag : rate_tag) (bytes ms mbps_x100 : Z)
  | TOTAL (bytes ms : Z).
(** The result of a call and the bytes it wrote to the buffer. *)
Record np_answer := NpAnswer { na_value : Z; na_bytes : list Z }.

(** ccm_netperf_buf; the answers to come; what was asked and answered, the newest in
    front. *)
Record np := Np {
  ccm_netperf_buf : list Z;
  np_answers : list np_answer;
  np_log : list (np_request * option Z)
}.
#[global] Instance np_interactive : Interactive np np_request np_answer := {
  log_request r s := Np (ccm_netperf_buf s) (np_answers s) ((r, None) :: np_log s);
  next_answer s :=
    match np_answers s, np_log s with
    | a :: answers, (r, _) :: log => Some (a, Np (ccm_netperf_buf s) answers ((r, Some (na_value a)) :: log))
    | _, _ => None
    end
}.
Abbreviation N := (Act np).
Definition ask_value (r : np_request) : N Z := a ← ask r; mret (na_value a).
(** Every round of the loops asks something. *)
Definition np_loop {X Y} (body : X → N (X + Y)) (x : X) : N Y :=
  fuel ← igets (λ s, S (length (np_answers s))); loop fuel body x.

Definition netperf_pattern : list Z := (λ i, Z.land i 255) <$> seqZ 0 CCM_NETPERF_BUF_SIZE.
Definition netperf_fill_buf : N unit :=
  imodify (λ s, Np netperf_pattern (np_answers s) (np_log s)).
(** A product of ints; overflow is undefined. *)
Definition int_mul (a b : Z) : option Z :=
  if bool_decide (- INT_MAX - 1 ≤ a * b ≤ INT_MAX) then Some (a * b) else None.

Definition u64 (x : Z) : Z := x mod 18446744073709551616.
Definition rate_x100 (total_bytes elapsed_ms : Z) : Z :=
  u32 (u64 (total_bytes * 80) / elapsed_ms / 100).
Definition netperf_print_rate (tag : rate_tag) (total_bytes elapsed_ms : Z) : N unit :=
  let elapsed_ms := if elapsed_ms =? 0 then 1 else elapsed_ms in
  tell (RATE tag total_bytes elapsed_ms (rate_x100 total_bytes elapsed_ms)).
(** (rt_tick_get() - start_tick) * 1000 / RT_TICK_PER_SECOND *)
Definition elapsed (now start_tick : Z) : Z := u32 (u32 (now - start_tick) * 1000) / RT_TICK_PER_SECOND.

Definition netperf_wait_link : N Z :=
  start ← ask_value TICK;
  np_loop (λ _ : unit,
    netif ← ask_value NETIF_DEFAULT;
    if negb (netif =? 0) then mret (inr 0) else
    now ← ask_value TICK;
    if rt_tick_from_millisecond 10000 <? u32 (now - start) then mret (inr (-1)) else
    ask_value (MDELAY 200);; mret (inl tt)) tt.

(** One round of the loops that receive and send; [io] is the call of recv or send.
    The locals are total_bytes, interval_bytes and last_report_tick. *)
Definition transfer_round (io : N Z) (tag : rate_tag) (start_tick duration_ms : Z) (x : Z * Z * Z) : N (Z * Z * Z + Z) :=
  let '(total_bytes, interval_bytes, last_report_tick) := x in
  now ← ask_value TICK;
  if negb (elapsed now start_tick <? duration_ms) then mret (inr total_bytes) else
  len ← io;
  if len <=? 0 then mret (inr total_bytes) else
  let total_bytes := u32 (total_bytes + u32 len) in
  let interval_bytes := u32 (interval_bytes + u32 len) in
  now ← ask_value TICK;
  if rt_tick_from_millisecond NETPERF_REPORT_MS <=? u32 (now - last_report_tick) then
    now ← ask_value TICK;
    netperf_print_rate tag interval_bytes NETPERF_REPORT_MS;;
    tell (TOTAL total_bytes (elapsed now start_tick));;
    last_report_tick ← ask_value TICK;
    mret (inl (total_bytes, 0, last_report_tick))
  else mret (inl (total_bytes, interval_bytes, last_report_tick)).
(** From "client connected", or "connected", on. *)
Definition transfer (io : N Z) (interval final : rate_tag) (fd duration_ms : Z) : N Z :=
  start_tick ← ask_value TICK;
  total_bytes ← np_loop (transfer_round io interval start_tick duration_ms) (0, 0, start_tick);
  now ← ask_value TICK;
  netperf_print_rate final total_bytes (elapsed now start_tick);;
  tell (CLOSESOCKET fd);;
  mret 0.
(** lwIP writes the bytes to the front of the buffer. *)
Definition recv (fd : Z) : N Z :=
  a ← ask (RECV fd CCM_NETPERF_BUF_SIZE);
  imodify (λ s, let bytes := take (Z.to_nat CCM_NETPERF_BUF_SIZE) (na_bytes a) in
    Np (bytes ++ drop (length bytes) (ccm_netperf_buf s)) (np_answers s) (np_log s));;
  mret (na_value a).
Definition send (fd : Z) : N Z :=
  buf ← igets ccm_netperf_buf; ask_value (SEND fd buf).

(** The loop around select: the result of accept, or nothing when the time is over. *)
Definition netperf_accept (listen_fd : Z) : N (option Z) :=
  wait_start ← ask_value TICK;
  np_loop (λ _ : unit,
    sel ← ask_value (SELECT listen_fd);
    if 0 <? sel then client_fd ← ask_value (ACCEPT listen_fd); mret (inr (Some client_fd)) else
    now ← ask_value TICK;
    if rt_tick_from_millisecond (NETPERF_ACCEPT_TIMEOUT_SEC * 1000) <=? u32 (now - wait_start)
    then mret (inr None) else mret (inl tt)) tt.

Definition netperf_tcp_server (port duration_sec : Z) : N Z :=
  let port := if port <=? 0 then NETPERF_PORT_DEFAULT else port in
  let duration_sec := if duration_sec <=? 0 then NETPERF_DURATION_SEC else duration_sec in
  link ← netperf_wait_link;
  if negb (link =? 0) then mret (-1) else
  duration_ms ← ilift (int_mul duration_sec 1000);
  netperf_fill_buf;;
  listen_fd ← ask_value SOCKET;
  if listen_fd <? 0 then mret (-1) else
  r ← ask_value (BIND listen_fd (u16 port) INADDR_ANY);
  if r <? 0 then tell (CLOSESOCKET listen_fd);; mret (-1) else
  r ← ask_value (LISTEN listen_fd 1);
  if r <? 0 then tell (CLOSESOCKET listen_fd);; mret (-1) else
  client ← netperf_accept listen_fd;
  tell (CLOSESOCKET listen_fd);;
  match client with
  | None => mret (-1)
  | Some client_fd =>
      if client_fd <? 0 then mret (-1) else
      transfer (recv client_fd) RX_interval RX_final client_fd duration_ms
  end.

(** [host] is NULL or a string with its terminator. *)
Definition netperf_tcp_client (host : option (list Z)) (port duration_sec : Z) : N Z :=
  empty ← match host with
          | None => mret true
          | Some h => c ← ilift (h !! 0%nat); mret (c =? 0)
          end;
  if empty : bool then mret (-1) else
  let port := if port <=? 0 then NETPERF_PORT_DEFAULT else port in
  let duration_sec := if duration_sec <=? 0 then NETPERF_DURATION_SEC else duration_sec in
  link ← netperf_wait_link;
  if negb (link =? 0) then mret (-1) else
  duration_ms ← ilift (int_mul duration_sec 1000);
  netperf_fill_buf;;
  he ← ask_value (GETHOSTBYNAME (default [] host));
  if he =? 0 then mret (-1) else
  sock_fd ← ask_value SOCKET;
  if sock_fd <? 0 then mret (-1) else
  r ← ask_value (CONNECT sock_fd (u16 port) he);
  if r <? 0 then tell (CLOSESOCKET sock_fd);; mret (-1) else
  transfer (send sock_fd) TX_interval TX_final sock_fd duration_ms.

(** The standard library's atoi: white space, a sign, digits. A value outside of int is
    undefined, and so is a string without an end. *)
Definition is_space (c : Z) : bool := (c =? 32) || ((9 <=? c) && (c <=? 13)).
Definition is_digit (c : Z) : bool := (48 <=? c) && (c <=? 57).
Fixpoint atoi_digits (s : list Z) (v : Z) : option Z :=
  match s with
  | [] => None
  | c :: s => if is_digit c then atoi_digits s (10 * v + (c - 48)) else Some v
  end.
Definition int_value (v : Z) : option Z := if bool_decide (- INT_MAX - 1 ≤ v ≤ INT_MAX) then Some v else None.
Fixpoint atoi (s : list Z) : option Z :=
  match s with
  | [] => None
  | c :: s' =>
      if is_space c then atoi s'
      else if c =? 45 then v ← atoi_digits s' 0; int_value (- v)
      else if c =? 43 then v ← atoi_digits s' 0; int_value v
      else v ← atoi_digits s 0; int_value v
  end.
(** argv[1][0] == c && argv[1][1] == 0 *)
Definition is_mode (s : list Z) (c : Z) : option bool :=
  c0 ← s !! 0%nat; if negb (c0 =? c) then Some false else c1 ← s !! 1%nat; Some (c1 =? 0).
(** if (argc >= i + 1) x = atoi(argv[i]) *)
Definition arg_int (argv : list (list Z)) (i : nat) (x : Z) : option Z :=
  match argv !! i with Some s => atoi s | None => Some x end.
Definition netperf (argv : list (list Z)) : N Z :=
  match argv !! 1%nat with
  | None => mret 0
  | Some mode =>
      s ← ilift (is_mode mode 115);
      if s : bool then
        port ← ilift (arg_int argv 2 NETPERF_PORT_DEFAULT);
        duration ← ilift (arg_int argv 3 NETPERF_DURATION_SEC);
        netperf_tcp_server port duration
      else
      c ← ilift (is_mode mode 99);
      if c : bool then
        match argv !! 2%nat with
        | None => mret (-1)
        | Some host =>
            port ← ilift (arg_int argv 3 NETPERF_PORT_DEFAULT);
            duration ← ilift (arg_int argv 4 NETPERF_DURATION_SEC);
            netperf_tcp_client (Some host) port duration
        end
      else mret (-1)
  end.

(** * Sockets that are open, bytes that were moved *)

(** One entry of the log: the open sockets afterwards, when all it uses is open. *)
Definition opened (v : option Z) (l : list Z) : list Z :=
  match v with Some fd => if fd <? 0 then l else fd :: l | None => l end.
Fixpoint remove_one (x : Z) (l : list Z) : option (list Z) :=
  match l with
  | [] => None
  | y :: l => if y =? x then Some l else l' ← remove_one x l; Some (y :: l')
  end.
Definition np_step (e : np_request * option Z) (l : list Z) : option (list Z) :=
  match e.1 with
  | SOCKET => Some (opened e.2 l)
  | ACCEPT fd => guard (fd ∈ l);; Some (opened e.2 l)
  | BIND fd _ _ | LISTEN fd _ | SELECT fd | RECV fd _ | SEND fd _ | CONNECT fd _ _ => guard (fd ∈ l);; Some l
  | CLOSESOCKET fd => remove_one fd l
  | _ => Some l
  end.
Fixpoint open_fds (log : list (np_request * option Z)) : option (list Z) :=
  match log with [] => Some [] | e :: log => l ← open_fds log; np_step e l end.
Definition moved_bytes (e : np_request * option Z) : Z :=
  match e with
  | (RECV _ _, Some n) | (SEND _ _, Some n) => Z.max 0 n
  | _ => 0
  end.
Definition bytes_moved (log : list (np_request * option Z)) : Z := foldr (λ e m, moved_bytes e + m) 0 log.
Definition sends_pattern (e : np_request * option Z) : Prop :=
  match e.1 with SEND _ data => data = netperf_pattern | _ => True end.

(** The sockets [l] are open, [m] bytes were moved. *)
Record np_inv (l : list Z) (m : Z) (s : np) : Prop := {
  ni_fds : open_fds (np_log s) = Some l;
  ni_moved : bytes_moved (np_log s) = m;
  ni_sends : Forall sends_pattern (np_log s)
}.
(** While a call waits at most one socket is open. *)
Definition np_waits (s : np) : Prop := ∃ l m, np_inv l m s ∧ (length l ≤ 1)%nat.

Lemma ask_answer_run r l l0 m (Q : np_answer → np → Prop) s :
  np_inv l m s → (length l ≤ 1)%nat → np_step (r, None) l = Some l → sends_pattern (r, None) →
  (∀ v, np_step (r, Some v) l = Some (l0 v)) →
  (∀ a s', np_inv (l0 (na_value a)) (m + moved_bytes (r, Some (na_value a))) s' →
     ccm_netperf_buf s' = ccm_netperf_buf s →
     (length (np_answers s') < length (np_answers s))%nat → Q a s') →
  iwp (ask r) Q np_waits s.
Proof.
  intros [Hf Hm Hs] Hl Hr Hp Hv HQ. apply iwp_ask.
  - exists l, m. split; [|done]. constructor; simpl; [by rewrite Hf|by destruct r|by constructor].
  - intros a s' E. simpl in E. destruct (np_answers s) as [|a0 answers] eqn:Ea; [done|].
    injection E as <- <-. apply HQ; [|done|by simpl; lia].
    constructor; simpl; [by rewrite Hf; simpl; apply Hv|lia|by constructor].
Qed.
Lemma ask_value_run r l l0 m (Q : Z → np → Prop) s :
  np_inv l m s → (length l ≤ 1)%nat → np_step (r, None) l = Some l → sends_pattern (r, None) →
  (∀ v, np_step (r, Some v) l = Some (l0 v)) →
  (∀ v s', np_inv (l0 v) (m + moved_bytes (r, Some v)) s' → ccm_netperf_buf s' = ccm_netperf_buf s →
     (length (np_answers s') < length (np_answers s))%nat → Q v s') →
  iwp (ask_value r) Q np_waits s.
Proof. intros ? ? ? ? ? HQ. unfold ask_value. iwp_simpl. apply (ask_answer_run r l l0 m); [done..|]. intros a s' **. iwp_simpl. by apply HQ. Qed.
(** Requests that open nothing and move nothing; requests on the open socket. *)
Definition idle_request (r : np_request) (l : list Z) : Prop :=
  match r with
  | NETIF_DEFAULT | TICK | MDELAY _ | GETHOSTBYNAME _ => True
  | BIND fd _ _ | LISTEN fd _ | SELECT fd | CONNECT fd _ _ => fd ∈ l
  | _ => False
  end.
Lemma ask_idle_run r l m (Q : Z → np → Prop) s :
  np_inv l m s → (length l ≤ 1)%nat → idle_request r l →
  (∀ v s', np_inv l m s' → ccm_netperf_buf s' = ccm_netperf_buf s →
     (length (np_answers s') < length (np_answers s))%nat → Q v s') →
  iwp (ask_value r) Q np_waits s.
Proof.
  intros Hi Hl Hr HQ. apply (ask_value_run r l (λ _, l) m); try done;
    [destruct r; simpl in Hr |- *; unfold np_step; simpl; try done; by rewrite ?option_guard_True..|
     destruct r; simpl in Hr |- *; intros; unfold np_step; simpl; try done; by rewrite ?option_guard_True| ].
  - intros v s' Hs'. apply HQ. replace m with (m + moved_bytes (r, Some v)); [done|]. destruct r; simpl; try done; lia.
Qed.

Lemma np_inv_tell r l l' m s : np_inv l m s → np_step (r, None) l = Some l' → sends_pattern (r, None) →
  np_inv l' m (log_request r s).
Proof. intros [Hf Hm Hs] Hr Hp. constructor; simpl; [by rewrite Hf|by destruct r|by constructor]. Qed.

(** The loops end, since each round takes an answer. *)
Lemma np_loop_run {X Y} (body : X → Act np (X + Y)) (Inv : X → np → Prop) (Q : Y → np → Prop) W x s :
  Inv x s →
  (∀ x s, Inv x s → iwp (body x) (λ r s', match r with
     | inl x' => Inv x' s' ∧ (length (np_answers s') < length (np_answers s))%nat
     | inr y => Q y s'
     end) W s) →
  iwp (np_loop body x) Q W s.
Proof.
  intros Hx Hb. unfold np_loop. iwp_simpl.
  apply (iwp_loop body Inv (λ s, length (np_answers s)) Q W Hb); [done|lia].
Qed.

Ltac ask_idle := apply iwp_bind; eapply ask_idle_run; [eassumption|simpl; lia|simpl; first [done|by left]|].

Lemma netperf_wait_link_run s :
  np_inv [] 0 s → iwp netperf_wait_link (λ r s', (r = 0 ∨ r = -1) ∧ np_inv [] 0 s') np_waits s.
Proof.
  intros Hs. unfold netperf_wait_link. ask_idle. intros start s1 Hs1 _ _.
  apply (np_loop_run _ (λ _, np_inv [] 0)); [done|]. intros _ s2 Hs2.
  ask_idle. intros v s3 Hs3 _ Hl3. destruct (v =? 0); simpl; [|by iwp_simpl; auto].
  ask_idle. intros now s4 Hs4 _ Hl4. destruct (_ <? _); [by iwp_simpl; auto|].
  ask_idle. intros z s5 Hs5 _ Hl5. iwp_simpl. split; [done|lia].
Qed.
Lemma netperf_accept_run fd s :
  np_inv [fd] 0 s →
  iwp (netperf_accept fd) (λ r s', np_inv (opened r [fd]) 0 s' ∧ ccm_netperf_buf s' = ccm_netperf_buf s) np_waits s.
Proof.
  intros Hs. unfold netperf_accept. ask_idle. intros start s1 Hs1 Hb1 _.
  apply (np_loop_run _ (λ _ s', np_inv [fd] 0 s' ∧ ccm_netperf_buf s' = ccm_netperf_buf s)); [done|].
  intros _ s2 [Hs2 Hb2]. ask_idle. intros sel s3 Hs3 Hb3 Hl3. destruct (0 <? sel).
  - iwp_simpl. apply (ask_value_run _ [fd] (λ v, opened (Some v) [fd]) 0); try done.
    + unfold np_step. simpl. by rewrite option_guard_True by set_solver.
    + intros v. unfold np_step. simpl. by rewrite option_guard_True by set_solver.
    + intros v s4 Hs4 Hb4 _. iwp_simpl. split; [done|congruence].
  - ask_idle. intros now s4 Hs4 Hb4 Hl4. destruct (_ <=? _); iwp_simpl.
    + split; [done|congruence].
    + split; [|lia]. split; [done|congruence].
Qed.

(** recv and send on the open socket; send finds the pattern in the buffer. *)
Definition io_ok (io : Act np Z) (fd : Z) (Buf : list Z → Prop) : Prop := ∀ m (Q : Z → np → Prop) s,
  np_inv [fd] m s → Buf (ccm_netperf_buf s) →
  (∀ v s', np_inv [fd] (m + Z.max 0 v) s' → Buf (ccm_netperf_buf s') →
     (length (np_answers s') < length (np_answers s))%nat → Q v s') →
  iwp io Q np_waits s.
Lemma recv_ok fd : io_ok (recv fd) fd (λ _, True).
Proof.
  intros m Q s Hs _ HQ. unfold recv. iwp_simpl.
  apply (ask_answer_run _ [fd] (λ _, [fd]) m); try done; [by unfold np_step; simpl; rewrite option_guard_True by set_solver..|].
  intros a s' [] _ Hl. iwp_simpl. by apply HQ.
Qed.
Lemma send_ok fd : io_ok (send fd) fd (λ buf, buf = netperf_pattern).
Proof.
  intros m Q s Hs Hb HQ. unfold send. iwp_simpl. rewrite Hb.
  apply (ask_value_run _ [fd] (λ _, [fd]) m); try done; [by unfold np_step; simpl; rewrite option_guard_True by set_solver..|].
  intros v s' Hs' Hb' Hl. apply HQ; [done|congruence|done].
Qed.

(** * The measurement *)

Lemma rate_x100_run bytes ms : 0 ≤ bytes < 4294967296 → 0 < ms → rate_x100 bytes ms = bytes * 80 / ms / 100.
Proof.
  intros Hb Hms. unfold rate_x100, u64. rewrite Z.mod_small by lia. apply u32_small.
  assert (0 ≤ bytes * 80 / ms ≤ bytes * 80) by (split; [apply Z.div_pos; lia|apply Z.div_le_upper_bound; nia]).
  split; [apply Z.div_pos; lia|]. apply Z.div_lt_upper_bound; lia.
Qed.
(** The end of a test: the bytes moved, modulo 2^32, in [ms] milliseconds, at a rate of
    bytes * 80 / ms / 100 hundredths of a Mbit/s; then the socket is closed. *)
Definition measured (final : rate_tag) (s : np) : Prop :=
  ∃ fd bytes ms log, np_log s = (CLOSESOCKET fd, None) :: (RATE final bytes ms (bytes * 80 / ms / 100), None) :: log ∧
    bytes = u32 (bytes_moved log) ∧ 0 < ms ∧ Forall sends_pattern log ∧ open_fds (np_log s) = Some [].

Section transfer.
Context (io : Act np Z) (fd : Z) (Buf : list Z → Prop) (Hio : io_ok io fd Buf).

Lemma transfer_round_run tag start duration_ms total interval last m s :
  np_inv [fd] m s → Buf (ccm_netperf_buf s) → total = u32 m →
  iwp (transfer_round io tag start duration_ms (total, interval, last)) (λ r s', match r with
    | inl (total', _, _) => (∃ m', np_inv [fd] m' s' ∧ Buf (ccm_netperf_buf s') ∧ total' = u32 m') ∧
        (length (np_answers s') < length (np_answers s))%nat
    | inr total' => ∃ m', np_inv [fd] m' s' ∧ total' = u32 m'
    end) np_waits s.
Proof using Hio.
  intros Hs Hb ->. unfold transfer_round. ask_idle. intros now s1 Hs1 Hb1 Hl1. rewrite <-Hb1 in Hb.
  destruct (_ <? _); simpl; [|iwp_simpl; by exists m]. iwp_simpl.
  eapply Hio; [done|done|]. intros len s2 Hs2 Hb2 Hl2. destruct (Z.leb_spec len 0) as [|Hp].
  { iwp_simpl. eexists. split; [done|]. f_equal. lia. }
  assert (u32 (u32 m + u32 len) = u32 (m + Z.max 0 len)) as ->.
  { rewrite Z.max_r by lia. unfold u32. by rewrite <-Zplus_mod. }
  ask_idle. intros now2 s3 Hs3 Hb3 Hl3. rewrite <-Hb3 in Hb2. destruct (_ <=? _).
  - ask_idle. intros now3 s4 Hs4 Hb4 Hl4. rewrite <-Hb4 in Hb2. unfold netperf_print_rate. iwp_simpl.
    eapply (ask_idle_run _ [fd]); [by apply (np_inv_tell _ [fd]); [apply (np_inv_tell _ [fd])|..]|done|done|].
    intros last' s5 Hs5 Hb5 Hl5. iwp_simpl. simpl in Hb5, Hl5. split; [|lia]. eexists. split; [done|]. by rewrite Hb5.
  - iwp_simpl. split; [|lia]. by eexists.
Qed.
Lemma transfer_run interval final duration_ms s :
  np_inv [fd] 0 s → Buf (ccm_netperf_buf s) →
  iwp (transfer io interval final fd duration_ms) (λ r s', r = 0 ∧ measured final s') np_waits s.
Proof using Hio.
  intros Hs Hb. unfold transfer. ask_idle. intros start s1 Hs1 Hb1 _. apply iwp_bind.
  eapply (np_loop_run _ (λ x s, ∃ m, np_inv [fd] m s ∧ Buf (ccm_netperf_buf s) ∧ x.1.1 = u32 m)).
  { exists 0. by rewrite Hb1. }
  intros [[total i] last] s2 (m & Hs2 & Hb2 & E).
  eapply iwp_mono; [by eapply (transfer_round_run interval start duration_ms total i last m)| |done].
  intros [[[t' i'] last']|t'] s3 H; [done|]. destruct H as (m' & Hs3 & ->).
  ask_idle. intros now s4 Hs4 _ _. unfold netperf_print_rate. iwp_simpl. split; [done|].
  pose proof (u32_range m'). set (ms := if _ =? 0 then _ else _).
  assert (0 < ms) as Hms.
  { unfold ms. destruct (Z.eqb_spec (elapsed now start) 0); [done|]. pose proof (u32_range (u32 (now - start) * 1000)).
    assert (0 ≤ elapsed now start) by (apply Z.div_pos; [lia|done]). lia. }
  destruct Hs4 as [Hf Hm Hp]. exists fd, (u32 m'), ms, (np_log s4). simpl. rewrite rate_x100_run by done.
  split_and!; try done; [by rewrite Hm|]. rewrite Hf. unfold np_step. simpl. by rewrite Z.eqb_refl.
Qed.
End transfer.

(** * The command *)

Lemma int_mul_1000 d : 0 < d → d ≤ 2147483 → int_mul d 1000 = Some (d * 1000).
Proof. intros. unfold int_mul, INT_MAX. by rewrite bool_decide_eq_true_2 by lia. Qed.
Definition tested (final : rate_tag) (r : Z) (s : np) : Prop :=
  r = 0 ∧ measured final s ∨ r = -1 ∧ np_inv [] 0 s.
Lemma np_inv_buf l m buf s : np_inv l m s → np_inv l m (Np buf (np_answers s) (np_log s)).
Proof. intros []. by constructor. Qed.
(** SOCKET: a failure, or one socket is open. *)
Lemma ask_socket_run (Q : Z → np → Prop) s :
  np_inv [] 0 s →
  (∀ v s', np_inv (if v <? 0 then [] else [v]) 0 s' → ccm_netperf_buf s' = ccm_netperf_buf s → Q v s') →
  iwp (ask_value SOCKET) Q np_waits s.
Proof.
  intros Hs HQ. apply (ask_value_run _ [] (λ v, opened (Some v) []) 0); try done; [simpl; lia|].
  intros v s' Hs' Hb _. by apply HQ.
Qed.
Lemma close_run fd l m s : np_inv (fd :: l) m s → np_inv l m (log_request (CLOSESOCKET fd) s).
Proof. intros Hs. apply (np_inv_tell _ (fd :: l)); [done| |done]. unfold np_step. simpl. by rewrite Z.eqb_refl. Qed.

Lemma netperf_tcp_server_run port duration_sec s :
  np_inv [] 0 s → duration_sec ≤ 2147483 →
  iwp (netperf_tcp_server port duration_sec) (tested RX_final) np_waits s.
Proof.
  intros Hs Hd. unfold netperf_tcp_server. set (dur := if duration_sec <=? 0 then _ else _).
  assert (0 < dur ≤ 2147483) as Hdur.
  { unfold dur, NETPERF_DURATION_SEC. destruct (Z.leb_spec duration_sec 0); lia. }
  iwp_simpl. eapply iwp_mono; [by apply netperf_wait_link_run| |done]. intros link s1 [Hlink Hs1].
  destruct (link =? 0); simpl; [|iwp_simpl; by right]. rewrite int_mul_1000 by lia.
  iwp_simpl. eapply iwp_lift; [done|]. unfold netperf_fill_buf. iwp_simpl.
  apply ask_socket_run; [by apply (np_inv_buf _ _ _ s1)|]. intros fd s2 Hs2 _.
  destruct (fd <? 0); [iwp_simpl; by right|].
  ask_idle. intros r s3 Hs3 _ _. destruct (r <? 0); [iwp_simpl; right; by split; [|by apply close_run]|].
  ask_idle. intros r' s4 Hs4 _ _. destruct (r' <? 0); [iwp_simpl; right; by split; [|by apply close_run]|].
  iwp_simpl. eapply iwp_mono; [by apply netperf_accept_run| |done]. intros client s5 [Hs5 _].
  destruct client as [c|]; simpl in Hs5; [|iwp_simpl; right; by split; [|by apply close_run]].
  destruct (c <? 0) eqn:Hc; [iwp_simpl; right; by split; [|by apply close_run]|].
  assert (np_inv [c] 0 (log_request (CLOSESOCKET fd) s5)) as Hs6.
  { apply (np_inv_tell _ [c; fd]); [done| |done]. unfold np_step. simpl. rewrite Z.eqb_refl.
    by destruct (Z.eqb_spec c fd) as [->|]. }
  eapply iwp_mono; [by apply (transfer_run _ c (λ _, True) (recv_ok c))| |done]. intros r0 s7 H. by left.
Qed.
Lemma netperf_tcp_client_run host port duration_sec s :
  np_inv [] 0 s → duration_sec ≤ 2147483 → host ≠ [] →
  iwp (netperf_tcp_client (Some host) port duration_sec) (tested TX_final) np_waits s.
Proof.
  intros Hs Hd Hh. unfold netperf_tcp_client. set (dur := if duration_sec <=? 0 then _ else _).
  assert (0 < dur ≤ 2147483) as Hdur.
  { unfold dur, NETPERF_DURATION_SEC. destruct (Z.leb_spec duration_sec 0); lia. }
  iwp_simpl. destruct host as [|c h]; [done|]. eapply iwp_lift; [done|]. iwp_simpl.
  destruct (c =? 0); [iwp_simpl; by right|].
  iwp_simpl. eapply iwp_mono; [by apply netperf_wait_link_run| |done]. intros link s1 [Hlink Hs1].
  destruct (link =? 0); simpl; [|iwp_simpl; by right]. rewrite int_mul_1000 by lia.
  iwp_simpl. eapply iwp_lift; [done|]. unfold netperf_fill_buf. iwp_simpl.
  eapply (ask_idle_run _ [] 0); [by apply (np_inv_buf _ _ _ s1)|simpl; lia|done|]. intros he s2 Hs2 Hb2 _. simpl in Hb2.
  destruct (he =? 0); [iwp_simpl; by right|]. iwp_simpl.
  apply ask_socket_run; [done|]. intros fd s3 Hs3 Hb3. destruct (fd <? 0); [iwp_simpl; by right|].
  ask_idle. intros r s4 Hs4 Hb4 _. destruct (r <? 0); [iwp_simpl; right; by split; [|by apply close_run]|].
  eapply iwp_mono; [apply (transfer_run _ fd _ (send_ok fd)); [done|congruence]| |done]. intros r0 s7 H. by left.
Qed.

Definition arguments_ok (argv : list (list Z)) : Prop :=
  Forall (λ s, 0 ∈ s) argv ∧ ∀ i s, (2 ≤ i)%nat → argv !! i = Some s → ∃ v, atoi s = Some v ∧ v ≤ 2147483.
Lemma is_mode_run s c : 0 ∈ s → c ≠ 0 → is_Some (is_mode s c).
Proof.
  intros H Hc. unfold is_mode. destruct s as [|c0 s]; [by apply not_elem_of_nil in H|]. simpl.
  destruct (Z.eqb_spec c0 c) as [->|]; simpl; [|done].
  apply elem_of_cons in H as [?|H]; [congruence|]. destruct s; [by apply not_elem_of_nil in H|done].
Qed.
Lemma arg_int_run argv i x : arguments_ok argv → (2 ≤ i)%nat → x ≤ 2147483 →
  ∃ v, arg_int argv i x = Some v ∧ v ≤ 2147483.
Proof. intros [_ Ha] Hi Hx. unfold arg_int. destruct (argv !! i) eqn:E; [by eapply Ha|by exists x]. Qed.

(** C31. The command, whatever lwIP and the clock answer: it always comes to an end or waits for
    a call of its surroundings. It uses open sockets only, has at most one open while it
    waits and none when it returns. When it returns 0 after a test, the last line
    gives the number of the bytes received or sent, modulo 2^32, and their rate without
    rounding beyond the division; only the test pattern is sent. It returns -1 only
    when nothing was moved. *)
Theorem netperf_contract argv buf answers :
  arguments_ok argv →
  iwp (netperf argv) (λ r s', (r = 0 ∨ r = -1) ∧ open_fds (np_log s') = Some [] ∧
    (r = -1 → bytes_moved (np_log s') = 0) ∧
    (r = 0 → np_log s' = [] ∨ measured RX_final s' ∨ measured TX_final s')) np_waits (Np buf answers []).
Proof.
  intros Hargs. pose proof Hargs as [Hz _]. rewrite Forall_lookup in Hz. unfold netperf.
  assert (np_inv [] 0 (Np buf answers [])) as Hs by by constructor.
  assert (∀ final r s', tested final r s' → (final = RX_final ∨ final = TX_final) →
    (r = 0 ∨ r = -1) ∧ open_fds (np_log s') = Some [] ∧ (r = -1 → bytes_moved (np_log s') = 0) ∧
    (r = 0 → np_log s' = [] ∨ measured RX_final s' ∨ measured TX_final s')) as Hend.
  { intros final r s' [[-> Hm]|[-> [Hf Hm _]]] Hfin; [|by split_and!; auto].
    split; [by left|]. split; [|split; [done|by destruct Hfin as [-> | ->]; auto]].
    by destruct Hm as (? & ? & ? & ? & _ & _ & _ & _ & ?). }
  destruct (argv !! 1%nat) as [mode|] eqn:Em; [|iwp_simpl; by split_and!; auto].
  destruct (is_mode_run mode 115) as [b Hb]; [by eapply Hz|done|].
  destruct (is_mode_run mode 99) as [b' Hb']; [by eapply Hz|done|].
  iwp_simpl. eapply iwp_lift; [done|]. destruct b.
  - destruct (arg_int_run argv 2 NETPERF_PORT_DEFAULT) as (p & Ep & _); [done|lia|done|].
    destruct (arg_int_run argv 3 NETPERF_DURATION_SEC) as (d & Ed & Hd); [done|lia|done|].
    iwp_simpl. eapply iwp_lift; [done|]. iwp_simpl. eapply iwp_lift; [done|].
    eapply iwp_mono; [by apply netperf_tcp_server_run| |done]. intros r s' H. apply (Hend RX_final); [done|by left].
  - iwp_simpl. eapply iwp_lift; [done|]. destruct b'; [|iwp_simpl; by split_and!; auto].
    destruct (argv !! 2%nat) as [host|] eqn:Eh; [|iwp_simpl; by split_and!; auto].
    destruct (arg_int_run argv 3 NETPERF_PORT_DEFAULT) as (p & Ep & _); [done|lia|done|].
    destruct (arg_int_run argv 4 NETPERF_DURATION_SEC) as (d & Ed & Hd); [done|lia|done|].
    iwp_simpl. eapply iwp_lift; [done|]. iwp_simpl. eapply iwp_lift; [done|].
    eapply iwp_mono; [apply netperf_tcp_client_run; [done|done|]| |done].
    { pose proof (Hz 2%nat host Eh) as H0. intros ->. by apply not_elem_of_nil in H0. }
    intros r s' H. apply (Hend TX_final); [done|by right].
Qed.

(** * Long tests *)

Definition all_positive (s : np) : Prop := Forall (λ a, 0 < na_value a) (np_answers s).
Lemma ask_positive_run r (Q : Z → np → Prop) (W : np → Prop) s :
  all_positive s → (∀ s', W s') →
  (∀ v s', 0 < v → all_positive s' → (length (np_answers s') < length (np_answers s))%nat → Q v s') →
  iwp (ask_value r) Q W s.
Proof.
  intros Hs HW HQ. unfold ask_value. iwp_simpl. apply iwp_ask; [done|]. intros a s' E. iwp_simpl.
  unfold all_positive in *. simpl in E. destruct (np_answers s) as [|a0 answers]; [done|]. injection E as <- <-.
  apply Forall_cons in Hs as [? ?]. apply HQ; [done|done|]. simpl. lia.
Qed.
Ltac ask_positive := iwp_simpl; apply ask_positive_run; [eassumption|done|].
Lemma elapsed_bound now start : elapsed now start ≤ 4294967.
Proof.
  unfold elapsed. pose proof (u32_range (u32 (now - start) * 1000)).
  assert (u32 (u32 (now - start) * 1000) / RT_TICK_PER_SECOND < 4294968); [|lia].
  apply Z.div_lt_upper_bound; [done|]. unfold RT_TICK_PER_SECOND. lia.
Qed.

Lemma long_transfer_run fd duration_ms s :
  4294967 < duration_ms → all_positive s →
  iwp (transfer (recv fd) RX_interval RX_final fd duration_ms) (λ _ _, False) (λ _, True) s.
Proof.
  intros Hd Hs. unfold transfer. ask_positive. intros start s1 _ Hs1 _.
  iwp_simpl. apply (np_loop_run _ (λ _, all_positive)); [done|]. intros [[total i] last] s2 Hs2.
  unfold transfer_round, recv. ask_positive. intros now s3 _ Hs3 Hl3.
  rewrite (proj2 (Z.ltb_lt _ _)) by (pose proof (elapsed_bound now start); lia). simpl. iwp_simpl.
  apply iwp_ask; [done|]. intros a s4 E. simpl in E. unfold all_positive in Hs3.
  destruct (np_answers s3) as [|a0 answers]; [done|]. injection E as <- <-. apply Forall_cons in Hs3 as [Ha Hs4].
  iwp_simpl. rewrite (proj2 (Z.leb_gt _ _)) by lia. set (s4 := Np _ _ _).
  assert (all_positive s4) as Hs4' by done. simpl in Hl3.
  assert (length (np_answers s4) < length (np_answers s2))%nat as Hl4 by (simpl; lia). clearbody s4.
  ask_positive. intros now2 s5 _ Hs5 Hl5. destruct (_ <=? _).
  - ask_positive. intros now3 s6 _ Hs6 Hl6. unfold netperf_print_rate. iwp_simpl.
    apply ask_positive_run; [done|done|]. simpl. intros last' s7 _ Hs7 Hl7. iwp_simpl. split; [done|lia].
  - iwp_simpl. split; [done|lia].
Qed.

(** A test of more than 4294 s has no end: the time that the loops compute from
    the ticks is less than 2^32 / 1000 ms, so that, while the peer keeps sending and all calls
    succeed, the server never returns. *)
Theorem netperf_long_never_returns port duration_sec s :
  4294 < duration_sec ≤ 2147483 → all_positive s →
  iwp (netperf_tcp_server port duration_sec) (λ _ _, False) (λ _, True) s.
Proof.
  intros Hd Hs. unfold netperf_tcp_server, netperf_wait_link, netperf_accept, netperf_fill_buf.
  rewrite (proj2 (Z.leb_gt duration_sec 0)) by lia. ask_positive. intros start s1 _ Hs1 _. iwp_simpl.
  apply (np_loop_run _ (λ _, all_positive)); [done|]. intros _ s2 Hs2.
  ask_positive. intros netif s3 Hp3 Hs3 Hl3. rewrite (proj2 (Z.eqb_neq _ _)) by lia. simpl. iwp_simpl.
  rewrite int_mul_1000 by lia. simpl. iwp_simpl. eapply iwp_lift; [done|]. iwp_simpl. set (s4 := Np _ _ _).
  assert (all_positive s4) as Hs4 by done. clearbody s4.
  ask_positive. intros fd s5 Hp5 Hs5 _. rewrite (proj2 (Z.ltb_ge _ _)) by lia.
  ask_positive. intros r s6 Hp6 Hs6 _. rewrite (proj2 (Z.ltb_ge _ _)) by lia.
  ask_positive. intros r' s7 Hp7 Hs7 _. rewrite (proj2 (Z.ltb_ge _ _)) by lia.
  ask_positive. intros wait s8 Hp8 Hs8 _. iwp_simpl.
  apply (np_loop_run _ (λ _, all_positive)); [done|]. intros _ s9 Hs9.
  ask_positive. intros sel s10 Hp10 Hs10 _. rewrite (proj2 (Z.ltb_lt _ _)) by lia.
  ask_positive. intros c s11 Hp11 Hs11 _. iwp_simpl. rewrite (proj2 (Z.ltb_ge _ _)) by lia.
  apply long_transfer_run; [lia|done].
Qed.
