(* ===== verification/Msh.v ===== *)
(** The command interpreter of components/finsh/msh.c: splitting of a command line in place,
    look-up and call of a command, completion of a prefix. A command line is the memory
    from its first byte on; an access behind the end of that memory is undefined
    ([None]). What is printed is left out. *)
From S2P Require Import Prelude Kservice.

Definition FINSH_ARG_MAX : Z := 10.
(** "__cmd_" *)
Definition CMD_PREFIX : list Z := [95; 95; 99; 109; 100; 95].
Definition is_blank (c : Z) : bool := (c =? 32) || (c =? 9).
Definition QUOTE : Z := 34.
Definition BACKSLASH : Z := 92.

(** The table of the linker: the names, with their terminators, and the functions. *)
Record finsh_syscall := Syscall { sc_name : list Z; sc_func : Z }.

(** The standard library's strncmp, compared with 0; strlen is the function of [Kservice]. *)
Fixpoint strncmp_eq (s1 s2 : list Z) (n : nat) : option bool :=
  match n with
  | O => Some true
  | S n =>
      match s1, s2 with
      | c1 :: s1, c2 :: s2 =>
          if negb (c1 =? c2) then Some false else if c1 =? 0 then Some true else strncmp_eq s1 s2 n
      | _, _ => None
      end
  end.

(** * Splitting *)

(** The loop over blanks, from index [i] on. *)
Fixpoint strip_blanks (fuel : nat) (cmd : list Z) (i : nat) (length : Z) : option (list Z * nat) :=
  match fuel with
  | O => None
  | S fuel =>
      c ← cmd !! i;
      if is_blank c && (Z.of_nat i <? length) then strip_blanks fuel (<[i := 0]> cmd) (S i) length
      else Some (cmd, i)
  end.
(** The loop behind an opening quote. *)
Fixpoint skip_string (fuel : nat) (cmd : list Z) (i : nat) (length : Z) : option nat :=
  match fuel with
  | O => None
  | S fuel =>
      c ← cmd !! i;
      if negb (c =? QUOTE) && (Z.of_nat i <? length) then
        i ← (if c =? BACKSLASH then
               d ← cmd !! S i; Some (if d =? QUOTE then S i else i)
             else Some i);
        skip_string fuel cmd (S i) length
      else Some i
  end.
(** The loop over a word. *)
Fixpoint skip_word (fuel : nat) (cmd : list Z) (i : nat) (length : Z) : option nat :=
  match fuel with
  | O => None
  | S fuel =>
      c ← cmd !! i;
      if negb (is_blank c) && (Z.of_nat i <? length) then skip_word fuel cmd (S i) length else Some i
  end.
(** One argument, a string or a word: where it begins, the next index, whether the loop ends. *)
Definition split_argument (cmd : list Z) (i : nat) (len : Z) : option (list Z * nat * nat * bool) :=
  c ← cmd !! i;
  if c =? QUOTE then
    i' ← skip_string (S (length cmd)) cmd (S i) len;
    if len <=? Z.of_nat i' then Some (cmd, S i, i', true) else Some (<[i' := 0]> cmd, S i, S i', false)
  else
    i' ← skip_word (S (length cmd)) cmd i len;
    Some (cmd, i, i', len <=? Z.of_nat i').
(** The outer loop; [argv] are indices of [cmd]. *)
Fixpoint split_loop (fuel : nat) (cmd : list Z) (i : nat) (len : Z) (argv : list nat) : option (list Z * list nat) :=
  match fuel with
  | O => None
  | S fuel =>
      if negb (Z.of_nat i <? len) then Some (cmd, argv) else
      '(cmd, i) ← strip_blanks (S (length cmd)) cmd i len;
      if FINSH_ARG_MAX <=? Z.of_nat (length argv) then Some (cmd, argv) else
      if len <=? Z.of_nat i then Some (cmd, argv) else
      '(cmd, j, i, stop) ← split_argument cmd i len;
      if stop : bool then Some (cmd, argv ++ [j]) else split_loop fuel cmd i len (argv ++ [j])
  end.
Definition msh_split (cmd : list Z) (len : Z) : option (list Z * list nat) :=
  split_loop (S (length cmd)) cmd 0 len [].

(** * Commands *)

Fixpoint msh_get_cmd (table : list finsh_syscall) (cmd : list Z) (size : nat) : option Z :=
  match table with
  | [] => Some 0
  | sc :: table =>
      builtin ← strncmp_eq (sc_name sc) CMD_PREFIX 6;
      if negb builtin then msh_get_cmd table cmd size else
      same ← strncmp_eq (drop 6 (sc_name sc)) cmd size;
      found ← (if same : bool then c ← sc_name sc !! (6 + size)%nat; Some (c =? 0) else Some false);
      if found : bool then Some (sc_func sc) else msh_get_cmd table cmd size
  end.
(** The text of a C string. *)
Fixpoint cstr (s : list Z) : list Z :=
  match s with [] => [] | c :: s => if c =? 0 then [] else c :: cstr s end.
(** The call of a command, with its arguments. *)
Record call_of := CallOf { co_func : Z; co_argv : list (list Z) }.
(** The memory afterwards, and the call when there is one (0 is returned). *)
Definition _msh_exec_cmd (table : list finsh_syscall) (cmd : list Z) (length : Z) : option (list Z * option call_of) :=
  cmd0_size ← skip_word (S (List.length cmd)) cmd 0 length;
  if (cmd0_size =? 0)%nat then Some (cmd, None) else
  cmd_func ← msh_get_cmd table cmd cmd0_size;
  if cmd_func =? 0 then Some (cmd, None) else
  '(cmd, argv) ← msh_split cmd length;
  if (List.length argv =? 0)%nat then Some (cmd, None) else
  Some (cmd, Some (CallOf cmd_func ((λ j, cstr (drop j cmd)) <$> argv))).
(** *tcmd = 0 at the first space. *)
Fixpoint truncate (tcmd : list Z) : option (list Z) :=
  match tcmd with
  | [] => None
  | c :: s => if (c =? 32) || (c =? 0) then Some (0 :: s) else s ← truncate s; Some (c :: s)
  end.
(** [length] is an rt_size_t; it is decremented for each blank in front, whether the blank belongs
    to the line or not. *)
Fixpoint msh_exec (table : list finsh_syscall) (cmd : list Z) (length : Z) : option (list Z * option call_of) :=
  match cmd with
  | [] => None
  | c :: cmd' =>
      if is_blank c then
        '(cmd', r) ← msh_exec table cmd' (u32 (length - 1)); Some (c :: cmd', r)
      else if length =? 0 then Some (cmd, None) else
      '(cmd, r) ← _msh_exec_cmd table cmd length;
      match r with
      | Some _ => Some (cmd, r)
      | None => cmd ← truncate cmd; Some (cmd, None)
      end
  end.

(** * Completion *)

Fixpoint str_common (str1 str2 : list Z) : option Z :=
  match str1, str2 with
  | c1 :: str1, c2 :: str2 =>
      if negb (c1 =? 0) && negb (c2 =? 0) && (c1 =? c2) then n ← str_common str1 str2; Some (n + 1) else Some 0
  | _, _ => None
  end.
(** The loop over the table; [name_ptr] is the first command that fits. *)
Fixpoint complete_loop (table : list finsh_syscall) (prefix : list Z) (prefix_len : nat)
    (name_ptr : option (list Z)) (min_length : Z) : option (option (list Z) * Z) :=
  match table with
  | [] => Some (name_ptr, min_length)
  | sc :: table =>
      builtin ← strncmp_eq (sc_name sc) CMD_PREFIX 6;
      if negb builtin then complete_loop table prefix prefix_len name_ptr min_length else
      let cmd_name := drop 6 (sc_name sc) in
      fits ← strncmp_eq prefix cmd_name prefix_len;
      if negb fits then complete_loop table prefix prefix_len name_ptr min_length else
      '(name, min_length) ← (if min_length =? 0 then n ← rt_strlen cmd_name; Some (cmd_name, n)
                             else name ← name_ptr; Some (name, min_length));
      length ← str_common name cmd_name;
      complete_loop table prefix prefix_len (Some name) (if length <? min_length then length else min_length)
  end.
Definition msh_auto_complete (table : list finsh_syscall) (prefix : list Z) : option (list Z) :=
  c ← head prefix;
  if c =? 0 then Some prefix else
  prefix_len ← rt_strlen prefix;
  '(name_ptr, min_length) ← complete_loop table prefix (Z.to_nat prefix_len) None 0;
  match name_ptr with
  | Some name =>
      if Z.of_nat (length prefix) <? min_length then None else rt_strncpy prefix name (Z.to_nat min_length)
  | None => Some prefix
  end.

(** * What a line means *)

Inductive tok_state := TBlank | TWord (acc : list Z) | TString (acc : list Z).
(** The arguments of a line: words between blanks, and strings between quotes, in which a
    quote behind a backslash does not count; what is in them is taken as it is. *)
Fixpoint tokens (st : tok_state) (s : list Z) : list (list Z) :=
  match s with
  | [] => match st with TBlank => [] | TWord acc | TString acc => [acc] end
  | c :: s =>
      match st with
      | TBlank => if is_blank c then tokens TBlank s else if c =? QUOTE then tokens (TString []) s else tokens (TWord [c]) s
      | TWord acc => if is_blank c then acc :: tokens TBlank s else tokens (TWord (acc ++ [c])) s
      | TString acc =>
          if c =? QUOTE then acc :: tokens TBlank s
          else if c =? BACKSLASH then
            match s with
            | d :: s' => if d =? QUOTE then tokens (TString (acc ++ [c; d])) s' else tokens (TString (acc ++ [c])) s
            | [] => tokens (TString (acc ++ [c])) s
            end
          else tokens (TString (acc ++ [c])) s
      end
  end.
Definition nonzero (s : list Z) : Prop := Forall (λ c, c ≠ 0) s.
(** [s] is empty or goes on with a [p]. *)
Definition starts (p : Z → bool) (s : list Z) : Prop := match s with [] => True | c :: _ => p c = true end.

Lemma split_at (p : Z → bool) s : ∃ a b, s = a ++ b ∧ Forall (λ c, p c = true) a ∧ starts (λ c, negb (p c)) b.
Proof.
  induction s as [|c s (a & b & -> & Ha & Hb)]; [by exists [], []|]. destruct (p c) eqn:E.
  - exists (c :: a), b. split; [done|]. split; [by constructor|done].
  - exists [], (c :: a ++ b). split; [done|]. split; [done|]. simpl. by rewrite E.
Qed.
Lemma tokens_blanks a s : Forall (λ c, is_blank c = true) a → tokens TBlank (a ++ s) = tokens TBlank s.
Proof. induction 1 as [|c a E]; [done|]. simpl. by rewrite E. Qed.
Lemma tokens_word a s acc : Forall (λ c, negb (is_blank c) = true) a → starts is_blank s →
  tokens (TWord acc) (a ++ s) = (acc ++ a) :: tokens TBlank s.
Proof.
  intros Ha Hs. revert acc. induction Ha as [|c a E _ IH]; intros acc; simpl.
  - destruct s as [|c s]; simpl in *; rewrite ?Hs, app_nil_r; done.
  - apply negb_true_iff in E. rewrite E, IH. by rewrite <-app_assoc.
Qed.

(** * The loops *)

Lemma lookup_drop_0 (l : list Z) i c t : drop i l = c :: t → l !! i = Some c.
Proof. intros E. rewrite <-(Nat.add_0_r i), <-lookup_drop. by rewrite E. Qed.
Lemma drop_S_tail (l : list Z) i c t : drop i l = c :: t → drop (S i) l = t.
Proof. intros E. rewrite <-Nat.add_1_r, <-drop_drop. by rewrite E. Qed.

Lemma skip_word_run cmd len rest w s fuel i :
  drop i cmd = w ++ s ++ 0 :: rest → len = Z.of_nat (i + length w + length s) →
  Forall (λ c, negb (is_blank c) = true) w → starts is_blank s → (length w < fuel)%nat →
  skip_word fuel cmd i len = Some (i + length w)%nat.
Proof.
  intros Hd -> Hw Hs Hf. revert i fuel Hd Hf. induction Hw as [|c w Hc Hw IH]; intros i fuel Hd Hf;
    (destruct fuel as [|fuel]; [simpl in Hf; lia|]); cbn [skip_word].
  - destruct s as [|c s]; simpl in Hd; rewrite (lookup_drop_0 _ _ _ _ Hd); simpl.
    + rewrite (proj2 (Z.ltb_ge _ _)) by lia. by rewrite Nat.add_0_r.
    + simpl in Hs. rewrite Hs. simpl. by rewrite Nat.add_0_r.
  - simpl in Hd, Hf. rewrite (lookup_drop_0 _ _ _ _ Hd). simpl. rewrite Hc.
    rewrite (proj2 (Z.ltb_lt _ _)) by lia. simpl.
    replace (i + S (length w) + length s)%nat with (S i + length w + length s)%nat by lia.
    rewrite IH; [f_equal; lia|by eapply drop_S_tail|lia].
Qed.

Lemma skip_string_run cmd len rest : ∀ n s fuel i,
  (length s ≤ n)%nat → drop i cmd = s ++ 0 :: rest → len = Z.of_nat (i + length s) → (length s < fuel)%nat →
  ∃ w s', s = w ++ s' ∧ skip_string fuel cmd i len = Some (i + length w)%nat ∧ starts (λ c, c =? QUOTE) s' ∧
    ∀ acc, tokens (TString acc) s = (acc ++ w) :: tokens TBlank (tail s').
Proof.
  induction n as [|n IH]; intros s fuel i Hn Hd -> Hf; (destruct fuel as [|fuel]; [lia|]); cbn [skip_string].
  { destruct s; [|simpl in Hn; lia]. rewrite (lookup_drop_0 _ _ _ _ Hd). simpl. rewrite (proj2 (Z.ltb_ge _ _)) by lia.
    exists [], []. rewrite Nat.add_0_r. split_and!; try done. intros acc. by rewrite app_nil_r. }
  destruct s as [|c s].
  { rewrite (lookup_drop_0 _ _ _ _ Hd). simpl. rewrite (proj2 (Z.ltb_ge _ _)) by lia.
    exists [], []. rewrite Nat.add_0_r. split_and!; try done. intros acc. by rewrite app_nil_r. }
  simpl in Hn, Hd, Hf. rewrite (lookup_drop_0 _ _ _ _ Hd). pose proof (drop_S_tail _ _ _ _ Hd) as Hd1. cbn [mbind option_bind].
  rewrite (proj2 (Z.ltb_lt _ _)) by (simpl; lia). destruct (Z.eqb_spec c QUOTE) as [->|Hq]; cbn [negb andb].
  { exists [], (QUOTE :: s). rewrite Nat.add_0_r. split_and!; try done. intros acc. by rewrite app_nil_r. }
  (* one character, or a backslash and a quote *)
  assert (∀ u s1, c :: s = u ++ s1 → (u = [c] ∨ u = [c; QUOTE]) →
    (∀ acc, tokens (TString acc) (c :: s) = tokens (TString (acc ++ u)) s1) →
    ∃ w s', c :: s = w ++ s' ∧ skip_string fuel cmd (i + length u) (Z.of_nat (i + S (length s))) = Some (i + length w)%nat ∧
      starts (λ c, c =? QUOTE) s' ∧ ∀ acc, tokens (TString acc) (c :: s) = (acc ++ w) :: tokens TBlank (tail s')) as Hnext.
  { intros u s1 E Hu Ht. assert (length (c :: s) = (length u + length s1)%nat) as El by (by rewrite E, length_app).
    simpl in El. assert (0 < length u)%nat by (destruct Hu as [-> | ->]; simpl; lia).
    destruct (IH s1 fuel (i + length u)%nat) as (w & s' & -> & Es & Hs' & Hw); [lia| |simpl; lia|lia|].
    { rewrite <-drop_drop, Hd. change (c :: s ++ 0 :: rest) with ((c :: s) ++ 0 :: rest).
      rewrite E, <-app_assoc. apply drop_app_length. }
    exists (u ++ w), s'. split; [by rewrite E, app_assoc|].
    split.
    - change (S (length s)) with (length (c :: s)). rewrite Es, length_app. f_equal. lia.
    - split; [done|]. intros acc. by rewrite Ht, Hw, <-app_assoc. }
  assert (∀ s1, s = s1 → c ≠ BACKSLASH ∨ starts (λ d, negb (d =? QUOTE)) s →
    ∀ acc, tokens (TString acc) (c :: s) = tokens (TString (acc ++ [c])) s) as Hone.
  { intros _ _ Hc acc. cbn [tokens]. rewrite (proj2 (Z.eqb_neq _ _) Hq).
    destruct (Z.eqb_spec c BACKSLASH) as [->|]; [|done]. destruct s as [|d s]; [done|].
    destruct Hc as [|Hd2]; [done|]. simpl in Hd2. apply negb_true_iff in Hd2. by rewrite Hd2. }
  destruct (Z.eqb_spec c BACKSLASH) as [->|Hb]; cbn [mbind option_bind].
  - destruct s as [|d s].
    + rewrite (lookup_drop_0 _ _ _ _ Hd1). cbn [mbind option_bind]. change (0 =? QUOTE) with false. cbv iota. replace (S i) with (i + 1)%nat by lia.
      apply (Hnext [BACKSLASH] []); [done|by left|]. apply (Hone []); [done|by right].
    + rewrite (lookup_drop_0 _ _ _ _ Hd1). cbn [mbind option_bind]. destruct (Z.eqb_spec d QUOTE) as [->|Hdq].
      * replace (S (S i)) with (i + 2)%nat by lia. apply (Hnext [BACKSLASH; QUOTE] s); [done|by right|done].
      * replace (S i) with (i + 1)%nat by lia. apply (Hnext [BACKSLASH] (d :: s)); [done|by left|].
        apply (Hone (d :: s)); [done|]. right. simpl. by rewrite (proj2 (Z.eqb_neq _ _) Hdq).
  - replace (S i) with (i + 1)%nat by lia. apply (Hnext [c] s); [done|by left|]. apply (Hone s); [done|by left].
Qed.

(** * Splitting a line *)

(** At index [j] the memory holds the string [t]. *)
Definition string_at (cmd : list Z) (j : nat) (t : list Z) : Prop := nonzero t ∧ ∃ r, drop j cmd = t ++ 0 :: r.
Lemma cstr_app t r : nonzero t → cstr (t ++ 0 :: r) = t.
Proof. induction 1 as [|c t Hc _ IH]; [done|]. simpl. by rewrite (proj2 (Z.eqb_neq _ _) Hc), IH. Qed.
Lemma string_at_cstr cmd j t : string_at cmd j t → cstr (drop j cmd) = t.
Proof. intros [Ht (r & ->)]. by apply cstr_app. Qed.
(** A zero behind a string leaves it as it is. *)
Lemma string_at_insert cmd j t k : string_at cmd j t → (j + length t ≤ k)%nat → string_at (<[k := 0]> cmd) j t.
Proof.
  intros [Ht (r & E)] Hk. split; [done|]. rewrite drop_insert_ge, E by lia.
  rewrite insert_app_r_alt by lia. destruct (k - j - length t)%nat; simpl; eauto.
Qed.
Lemma string_at_close cmd j t r c : drop j cmd = t ++ c :: r → nonzero t → string_at (<[(j + length t)%nat := 0]> cmd) j t.
Proof.
  intros E Ht. split; [done|]. exists r. rewrite drop_insert_ge by lia.
  replace (j + length t - j)%nat with (length t + 0)%nat by lia. by rewrite E, insert_app_r.
Qed.

Lemma strip_blanks_run len rest b : Forall (λ c, is_blank c = true) b → ∀ cmd s fuel i,
  drop i cmd = b ++ s ++ 0 :: rest → len = Z.of_nat (i + length b + length s) →
  starts (λ c, negb (is_blank c)) s → (length b < fuel)%nat →
  ∃ cmd', strip_blanks fuel cmd i len = Some (cmd', (i + length b)%nat) ∧
    drop (i + length b) cmd' = s ++ 0 :: rest ∧ length cmd' = length cmd ∧
    (∀ j t, string_at cmd j t → (j + length t ≤ i)%nat → string_at cmd' j t) ∧
    (b ≠ [] → ∀ j t, string_at (<[i := 0]> cmd) j t → (j + length t ≤ i)%nat → string_at cmd' j t).
Proof.
  induction 1 as [|c b Hc _ IH]; intros cmd s fuel i Hd -> Hs Hf;
    (destruct fuel as [|fuel]; [simpl in Hf; lia|]); cbn [strip_blanks].
  - exists cmd. rewrite Nat.add_0_r. simpl in Hd. split; [|done].
    destruct s as [|c s]; simpl in Hd; rewrite (lookup_drop_0 _ _ _ _ Hd); cbn [mbind option_bind]; [done|].
    simpl in Hs. apply negb_true_iff in Hs. by rewrite Hs.
  - simpl in Hd, Hf. rewrite (lookup_drop_0 _ _ _ _ Hd). cbn [mbind option_bind]. rewrite Hc.
    rewrite (proj2 (Z.ltb_lt _ _)) by (simpl; lia). cbn [andb].
    destruct (IH (<[i := 0]> cmd) s fuel (S i)) as (cmd' & Es & Hd' & Hl & Hk & Hk'); [|simpl; lia|done|lia|].
    { rewrite drop_insert_lt by lia. by eapply drop_S_tail. }
    exists cmd'. simpl in *. rewrite Es. replace (i + S (length b))%nat with (S (i + length b)) by lia. split; [done|]. split; [done|]. split; [by rewrite Hl, length_insert|].
    split; intros; apply Hk; try lia; [by apply string_at_insert|done].
Qed.

(** The arguments so far: strings in front of [i]. *)
Definition args_at (cmd : list Z) (i : nat) (argv : list nat) (toks : list (list Z)) : Prop :=
  Forall2 (λ j t, (j + length t ≤ i)%nat ∧ string_at cmd j t) argv toks.
Lemma args_at_mono cmd i i' argv toks : args_at cmd i argv toks → (i ≤ i')%nat → args_at cmd i' argv toks.
Proof. intros H Hi. eapply Forall2_impl; [exact H|]. intros j t [??]. split; [lia|done]. Qed.
Lemma args_at_insert cmd i k argv toks : args_at cmd i argv toks → (i ≤ k)%nat → args_at (<[k := 0]> cmd) i argv toks.
Proof.
  intros H Hi. eapply Forall2_impl; [exact H|]. intros j t [??]. split; [done|]. apply string_at_insert; [done|lia].
Qed.
Lemma args_at_snoc cmd i argv toks j t : args_at cmd i argv toks → (j + length t ≤ i)%nat → string_at cmd j t →
  args_at cmd i (argv ++ [j]) (toks ++ [t]).
Proof. intros. apply Forall2_app; [done|]. by constructor. Qed.
(** Between two arguments: the last one may still lack its terminator at [i]; then a blank or the
    end follows. *)
Definition args_open (cmd : list Z) (i : nat) (s : list Z) (argv : list nat) (toks : list (list Z)) : Prop :=
  args_at (<[i := 0]> cmd) i argv toks ∧ (starts is_blank s ∨ args_at cmd i argv toks).

Lemma strip_args_run cmd i b s rest argv toks :
  drop i cmd = b ++ s ++ 0 :: rest → Forall (λ c, is_blank c = true) b → starts (λ c, negb (is_blank c)) s →
  args_open cmd i (b ++ s) argv toks →
  ∃ cmd', strip_blanks (S (length cmd)) cmd i (Z.of_nat (i + length (b ++ s))) = Some (cmd', (i + length b)%nat) ∧
    drop (i + length b) cmd' = s ++ 0 :: rest ∧ length cmd' = length cmd ∧ args_at cmd' (i + length b) argv toks.
Proof.
  intros Hd Hb Hs [Ha Ho].
  destruct (strip_blanks_run (Z.of_nat (i + length (b ++ s))) rest b Hb cmd s (S (length cmd)) i)
    as (cmd1 & Es & Hd1 & Hl1 & Hk1 & Hk1'); [done|rewrite length_app; lia|done| |].
  { pose proof (f_equal length Hd) as E. rewrite length_drop, !length_app in E. lia. }
  exists cmd1. split; [done|]. split; [done|]. split; [done|]. apply (args_at_mono _ i); [|lia].
  destruct b as [|c b].
  - assert (args_at cmd i argv toks) as Ha'.
    { destruct Ho as [Ho|]; [|done]. destruct s as [|c s]; simpl in Hs, Ho; [|by rewrite Ho in Hs].
      rewrite list_insert_id in Ha; [done|]. by eapply lookup_drop_0. }
    eapply Forall2_impl; [exact Ha'|]. intros j t [? ?]. split; [done|]. by apply Hk1.
  - eapply Forall2_impl; [exact Ha|]. intros j t [? ?]. split; [done|]. by apply Hk1'.
Qed.
Lemma drop_cons_length (cmd : list Z) i c s : drop i cmd = c :: s → (i + S (length s) = length cmd)%nat.
Proof. intros E. apply (f_equal length) in E. rewrite length_drop in E. simpl in E. lia. Qed.

(** One argument, from its first character [c] on. *)
Record argument (c : Z) (s rest : list Z) (i : nat) argv toks (cmd cmd' : list Z) (j k : nat) (stop : bool)
    (t s' : list Z) : Prop := {
  ar_token : tokens TBlank (c :: s) = t :: tokens TBlank s';
  ar_rest : (length s' ≤ length s)%nat ∧ nonzero s';
  ar_length : length cmd' = length cmd;
  ar_end : if stop then s' = [] ∧ args_at cmd' k (argv ++ [j]) (toks ++ [t])
           else (k + length s' = i + length (c :: s))%nat ∧ drop k cmd' = s' ++ 0 :: rest ∧
             args_open cmd' k s' (argv ++ [j]) (toks ++ [t])
}.
Lemma string_argument_run cmd i s rest argv toks :
  drop i cmd = (QUOTE :: s) ++ 0 :: rest → nonzero s → args_at cmd i argv toks →
  ∃ cmd' j k stop t s', split_argument cmd i (Z.of_nat (i + length (QUOTE :: s))) = Some (cmd', j, k, stop) ∧
    argument QUOTE s rest i argv toks cmd cmd' j k stop t s'.
Proof.
  intros Hd Hz Ha. unfold split_argument. rewrite (lookup_drop_0 _ _ _ _ Hd). cbn [mbind option_bind].
  rewrite Z.eqb_refl. assert (drop (S i) cmd = s ++ 0 :: rest) as Hd1 by by eapply drop_S_tail.
  pose proof (drop_cons_length _ _ _ _ Hd) as Hlen. rewrite length_app in Hlen. simpl in Hlen.
  destruct (skip_string_run cmd (Z.of_nat (i + length (QUOTE :: s))) rest (length s) s (S (length cmd)) (S i))
    as (w & s' & -> & Es & Hs' & Hw); [done|done|simpl; lia|lia|].
  specialize (Hw []). change ([] ++ w) with w in Hw.
  rewrite Es. cbn [mbind option_bind]. apply Forall_app in Hz as [Hzw Hz']. rewrite <-app_assoc in Hd1.
  destruct s' as [|q s'].
  - rewrite (proj2 (Z.leb_le _ _)) by (simpl; rewrite app_nil_r; lia). do 6 eexists. split; [done|].
    constructor; [exact Hw|split; [simpl; lia|done]|done|]. split; [done|].
    apply args_at_snoc; [apply (args_at_mono _ i); [done|lia]|lia|]. split; [done|by exists rest].
  - rewrite (proj2 (Z.leb_gt _ _)) by (simpl; rewrite length_app; simpl; lia). do 6 eexists. split; [done|].
    apply Forall_cons in Hz' as [_ Hz'].
    constructor; [exact Hw|split; [simpl; rewrite length_app; simpl; lia|done]|apply length_insert|].
    split; [simpl; rewrite length_app; simpl; lia|]. split.
    { rewrite drop_insert_lt by lia. replace (S (S i + length w)) with (S i + S (length w))%nat by lia.
      rewrite <-drop_drop, Hd1. simpl. rewrite drop_app_ge by lia. by replace (S (length w) - length w)%nat with 1%nat by lia. }
    assert (args_at (<[(S i + length w)%nat := 0]> cmd) (S (S i + length w)) (argv ++ [S i]) (toks ++ [w])) as H.
    { apply args_at_snoc; [apply (args_at_mono _ i); [apply args_at_insert; [done|lia]|lia]|lia|].
      by eapply string_at_close. }
    split; [by apply args_at_insert|by right].
Qed.
Lemma word_argument_run cmd i c s rest argv toks :
  drop i cmd = (c :: s) ++ 0 :: rest → nonzero (c :: s) → is_blank c = false → c ≠ QUOTE → args_at cmd i argv toks →
  ∃ cmd' j k stop t s', split_argument cmd i (Z.of_nat (i + length (c :: s))) = Some (cmd', j, k, stop) ∧
    argument c s rest i argv toks cmd cmd' j k stop t s'.
Proof.
  intros Hd Hz Hb Hq Ha. unfold split_argument. rewrite (lookup_drop_0 _ _ _ _ Hd). cbn [mbind option_bind].
  rewrite (proj2 (Z.eqb_neq _ _) Hq). pose proof (drop_cons_length _ _ _ _ Hd) as Hlen. rewrite length_app in Hlen. simpl in Hlen.
  destruct (split_at (λ c, negb (is_blank c)) s) as (w & s' & -> & Hw & Hs'). rewrite length_app in Hlen.
  assert (starts is_blank s') as Hsb by (destruct s'; [done|]; simpl in *; by rewrite negb_involutive in Hs').
  assert (drop i cmd = (c :: w) ++ s' ++ 0 :: rest) as Hd1 by (rewrite Hd; simpl; by rewrite <-app_assoc).
  assert (length (c :: w ++ s') = length (c :: w) + length s')%nat as El by (simpl; by rewrite length_app).
  assert (tokens TBlank (c :: w ++ s') = (c :: w) :: tokens TBlank s') as Et.
  { cbn [tokens]. rewrite Hb, (proj2 (Z.eqb_neq _ _) Hq). by rewrite tokens_word. }
  apply Forall_cons in Hz as [Hc Hz]. apply Forall_app in Hz as [Hzw Hz'].
  assert (nonzero (c :: w)) as Hzc by by constructor.
  rewrite (skip_word_run cmd _ rest (c :: w) s'); [|done|rewrite El; lia|constructor; [by rewrite Hb|done]|done|simpl; lia].
  cbn [mbind option_bind]. do 6 eexists. split; [done|].
  constructor; [exact Et|split; [rewrite length_app; lia|done]|done|]. destruct s' as [|q s'].
  - rewrite (proj2 (Z.leb_le _ _)) by (rewrite El; simpl; lia). split; [done|].
    apply args_at_snoc; [apply (args_at_mono _ i); [done|lia]|lia|]. split; [done|by exists rest].
  - rewrite (proj2 (Z.leb_gt _ _)) by (rewrite El; simpl; lia). split; [rewrite El; lia|].
    split; [by rewrite <-drop_drop, Hd1, drop_app_length|]. split; [|by left].
    apply args_at_snoc; [apply (args_at_mono _ i); [apply args_at_insert; [done|lia]|lia]|lia|].
    by eapply string_at_close.
Qed.

Lemma split_loop_run rest : ∀ n s fuel cmd i argv toks,
  (length s < n)%nat → nonzero s → drop i cmd = s ++ 0 :: rest → (length s < fuel)%nat →
  args_open cmd i s argv toks → (length argv ≤ 10)%nat →
  ∃ cmd' argv', split_loop fuel cmd i (Z.of_nat (i + length s)) argv = Some (cmd', argv') ∧
    length cmd' = length cmd ∧ Forall2 (string_at cmd') argv' (take 10 (toks ++ tokens TBlank s)).
Proof.
  induction n as [|n IH]; intros s fuel cmd i argv toks Hn Hz Hd Hf Hargs Hlen; [lia|].
  assert (length argv = length toks) as Hl2 by apply (Forall2_length _ _ _ (proj1 Hargs)).
  assert (∀ cmd' i' argv' toks', args_at cmd' i' argv' toks' → Forall2 (string_at cmd') argv' toks') as Hstr.
  { intros cmd' i' argv' toks' H. eapply Forall2_impl; [exact H|]. by intros j t []. }
  destruct fuel as [|fuel]; [lia|]. cbn [split_loop]. destruct (decide (s = [])) as [->|Hne].
  { rewrite (proj2 (Z.ltb_ge _ _)) by (simpl; lia). exists cmd, argv. rewrite app_nil_r, take_ge by lia.
    split; [done|]. split; [done|]. destruct Hargs as [Ha _].
    rewrite list_insert_id in Ha by (by eapply lookup_drop_0). by eapply Hstr. }
  rewrite (proj2 (Z.ltb_lt _ _)) by (destruct s; simpl; [done|lia]). cbn [negb].
  destruct (split_at is_blank s) as (b & s1 & -> & Hb & Hs1).
  rewrite tokens_blanks by done. rewrite <-app_assoc in Hd. apply Forall_app in Hz as [_ Hz1].
  destruct (strip_args_run cmd i b s1 rest argv toks) as (cmd1 & Es & Hd1 & Hl1 & Ha); [done..|].
  rewrite Es. cbn [mbind option_bind]. clear Hargs Es. rewrite <-Hl1. rewrite length_app in *.
  destruct (Z.leb_spec FINSH_ARG_MAX (Z.of_nat (length argv))) as [H10|H10]; unfold FINSH_ARG_MAX in H10.
  { exists cmd1, argv. split; [done|]. split; [done|]. rewrite take_app_le, take_ge by lia. by eapply Hstr. }
  destruct s1 as [|c s1].
  { rewrite (proj2 (Z.leb_le _ _)) by (simpl; lia). exists cmd1, argv. split; [done|]. split; [done|].
    rewrite app_nil_r, take_ge by lia. by eapply Hstr. }
  rewrite (proj2 (Z.leb_gt _ _)) by (simpl; lia). simpl in Hs1. apply negb_true_iff in Hs1.
  assert (∃ cmd' j k stop t s', split_argument cmd1 (i + length b) (Z.of_nat (i + length b + length (c :: s1))) =
    Some (cmd', j, k, stop) ∧ argument c s1 rest (i + length b) argv toks cmd1 cmd' j k stop t s')
    as (cmd' & j & k & stop & t & s' & E & [Et [Hls Hzs] El Hend]).
  { destruct (decide (c = QUOTE)) as [->|]; [|by apply word_argument_run].
    apply string_argument_run; [done|by apply Forall_cons in Hz1 as []|done]. }
  rewrite Nat.add_assoc, E, Et. cbn [mbind option_bind]. destruct stop.
  - destruct Hend as [-> Ha']. exists cmd', (argv ++ [j]). split; [done|]. split; [done|].
    rewrite take_ge by (rewrite length_app; simpl; lia). by eapply Hstr.
  - destruct Hend as (Ek & Hd' & Ho'). rewrite <-Ek, <-El.
    replace (toks ++ t :: tokens TBlank s') with ((toks ++ [t]) ++ tokens TBlank s') by by rewrite <-app_assoc.
    simpl in Hn, Hf.
    apply IH; [lia|done|done|lia|done|rewrite length_app; simpl; lia].
Qed.

Lemma strings_cstr cmd argv toks : Forall2 (string_at cmd) argv toks → (λ j, cstr (drop j cmd)) <$> argv = toks.
Proof. induction 1 as [|j t argv toks Hj _ IH]; [done|]. by rewrite fmap_cons, (string_at_cstr _ _ _ Hj), IH. Qed.
Lemma msh_split_run s rest : nonzero s →
  ∃ cmd' argv, msh_split (s ++ 0 :: rest) (Z.of_nat (length s)) = Some (cmd', argv) ∧
    length cmd' = length (s ++ 0 :: rest) ∧ Forall2 (string_at cmd') argv (take 10 (tokens TBlank s)).
Proof.
  intros Hz. apply (split_loop_run rest (S (length s)) s (S (length (s ++ 0 :: rest))) (s ++ 0 :: rest) 0 [] []);
    [lia|done|done|rewrite length_app; lia|split; [by constructor|right; by constructor]|simpl; lia].
Qed.

(** C29. msh_split on a line that ends with its terminator: it returns, and the pointers that it
    stores lead to strings in the changed line, which are the first ten arguments of the line. *)
Theorem msh_split_tokens cmd s rest :
  cmd = s ++ 0 :: rest → nonzero s →
  ∃ cmd' argv, msh_split cmd (Z.of_nat (length s)) = Some (cmd', argv) ∧ length cmd' = length cmd ∧
    (λ j, cstr (drop j cmd')) <$> argv = take 10 (tokens TBlank s).
Proof.
  intros -> Hz. destruct (msh_split_run s rest Hz) as (cmd' & argv & E & El & Hr).
  exists cmd', argv. split; [done|]. split; [done|]. by apply strings_cstr.
Qed.

(** * Running a line *)

Fixpoint first_word (s : list Z) : list Z :=
  match s with [] => [] | c :: s => if is_blank c then [] else c :: first_word s end.
Fixpoint trim (s : list Z) : list Z :=
  match s with [] => [] | c :: s' => if is_blank c then trim s' else s end.
(** The function of a command, 0 when there is none of that name. *)
Definition find_cmd (table : list finsh_syscall) (name : list Z) : Z :=
  match find (λ sc, bool_decide (sc_name sc = CMD_PREFIX ++ name ++ [0])) table with
  | Some sc => sc_func sc
  | None => 0
  end.
Definition run_line (table : list finsh_syscall) (text : list Z) : option call_of :=
  let s := trim text in
  if find_cmd table (first_word s) =? 0 then None
  else match s with [] => None | _ => Some (CallOf (find_cmd table (first_word s)) (take 10 (tokens TBlank s))) end.
(** Names are strings. *)
Definition table_ok (table : list finsh_syscall) : Prop :=
  Forall (λ sc, ∃ n, sc_name sc = n ++ [0] ∧ nonzero n) table.

(** strncmp of a string with [n] characters that are not 0. *)
Lemma strncmp_eq_run x r : nonzero x → ∀ y n, nonzero (take n y) → (n ≤ length y)%nat →
  strncmp_eq (x ++ 0 :: r) y n = Some (bool_decide (take n (x ++ 0 :: r) = take n y)).
Proof.
  induction 1 as [|c x Hc _ IH]; intros y [|n] Hy Hn; cbn [app strncmp_eq take]; try done;
    (destruct y as [|d y]; simpl in Hn; [lia|]); cbn [take] in Hy |- *; apply Forall_cons in Hy as [Hd Hy].
  - rewrite (proj2 (Z.eqb_neq 0 d)) by congruence. by rewrite bool_decide_eq_false_2 by congruence.
  - destruct (Z.eqb_spec c d) as [->|]; cbn [negb]; [|by rewrite bool_decide_eq_false_2 by congruence].
    rewrite (proj2 (Z.eqb_neq _ _) Hd). rewrite IH; [|done|lia]. f_equal. apply bool_decide_ext.
    split; [by intros ->|by intros [= ?]].
Qed.
Lemma prefix_of_string w r : nonzero w → ∀ m, take (length w) (m ++ 0 :: r) = w → ∃ u, m = w ++ u.
Proof.
  induction 1 as [|c w Hc _ IH]; intros m E; [by exists m|]. destruct m as [|d m]; simpl in E; [congruence|].
  injection E as -> E. destruct (IH _ E) as [u ->]. by exists u.
Qed.
Lemma msh_get_cmd_run table w rest : table_ok table → nonzero w →
  msh_get_cmd table (w ++ rest) (length w) = Some (find_cmd table w).
Proof.
  intros Ht Hw. unfold find_cmd. induction Ht as [|sc table (n & En & Hn) _ IH]; [done|]. cbn [msh_get_cmd find].
  rewrite En, (strncmp_eq_run n []) by (done || (simpl; lia) || by repeat constructor). cbn [mbind option_bind].
  assert (take 6 CMD_PREFIX = CMD_PREFIX) as -> by done.
  case_bool_decide as Hp; cbn [negb].
  2:{ rewrite bool_decide_eq_false_2; [done|]. intros E. apply Hp. by rewrite E. }
  assert (∃ m, n = CMD_PREFIX ++ m) as [m ->].
  { apply (prefix_of_string CMD_PREFIX []); [by repeat constructor|done]. }
  apply Forall_app in Hn as [_ Hm]. change (drop 6 ((CMD_PREFIX ++ m) ++ [0])) with (m ++ [0]).
  rewrite (strncmp_eq_run m [] Hm (w ++ rest) (length w)); [|by rewrite take_app_length|rewrite length_app; lia].
  cbn [mbind option_bind]. rewrite take_app_length. change (6 + length w)%nat with (length CMD_PREFIX + length w)%nat.
  rewrite <-app_assoc, lookup_app_r by lia. replace (length CMD_PREFIX + length w - length CMD_PREFIX)%nat with (length w) by lia.
  case_bool_decide as Hs; cbn [mbind option_bind].
  2:{ rewrite bool_decide_eq_false_2; [done|]. intros E%app_inv_head. apply Hs. by rewrite E, take_app_length. }
  assert (∃ u, m = w ++ u) as [u ->].
  { apply (prefix_of_string w []); [done|]. done. }
  rewrite <-app_assoc, lookup_app_r, Nat.sub_diag by lia. destruct u as [|c u]; simpl.
  - by rewrite bool_decide_eq_true_2.
  - apply Forall_app in Hm as [_ Hm]. apply Forall_cons in Hm as [Hc _]. rewrite (proj2 (Z.eqb_neq _ _) Hc).
    rewrite bool_decide_eq_false_2; [done|]. intros E.
    change (CMD_PREFIX ++ (w ++ c :: u ++ [0]) = CMD_PREFIX ++ (w ++ [0])) in E. do 2 apply app_inv_head in E. by injection E.
Qed.

Lemma first_word_split s : ∃ r, s = first_word s ++ r ∧ starts is_blank r ∧ Forall (λ c, negb (is_blank c) = true) (first_word s).
Proof.
  induction s as [|c s (r & E & Hr & Hw)]; [by exists []|]. simpl. destruct (is_blank c) eqn:Hc.
  - exists (c :: s). by split_and!.
  - exists r. split; [simpl; by rewrite <-E|]. split; [done|]. constructor; [by rewrite Hc|done].
Qed.
Lemma tokens_cons c s : is_blank c = false → tokens TBlank (c :: s) ≠ [].
Proof.
  intros Hc. cbn [tokens]. rewrite Hc. destruct (c =? QUOTE).
  - assert (∀ n acc s, (length s ≤ n)%nat → tokens (TString acc) s ≠ []) as H; [|by apply (H (length s))].
    induction n as [|n IH]; intros acc [|d s'] Hn; simpl in Hn |- *; try done; [lia|].
    destruct (d =? QUOTE); [done|]. destruct (d =? BACKSLASH); [|apply IH; lia].
    destruct s' as [|e s']; [done|]. destruct (e =? QUOTE); apply IH; simpl in *; lia.
  - generalize [c]. induction s as [|d s IH]; intros acc; [done|]. simpl. destruct (is_blank d); [done|]. apply IH.
Qed.
Lemma truncate_run s rest : nonzero s → ∃ cmd', truncate (s ++ 0 :: rest) = Some cmd' ∧ length cmd' = length (s ++ 0 :: rest).
Proof.
  induction 1 as [|c s Hc _ (cmd' & E & El)]; [by eexists|]. simpl. rewrite (proj2 (Z.eqb_neq _ _) Hc), orb_false_r.
  destruct (c =? 32); [by eexists|]. rewrite E. simpl. eexists. split; [done|]. simpl. by rewrite El.
Qed.

(** A line without blanks in front. *)
Lemma _msh_exec_cmd_run table c s rest : table_ok table → nonzero (c :: s) → is_blank c = false →
  ∃ cmd' r, _msh_exec_cmd table ((c :: s) ++ 0 :: rest) (Z.of_nat (length (c :: s))) = Some (cmd', r) ∧
    length cmd' = length ((c :: s) ++ 0 :: rest) ∧ r = run_line table (c :: s) ∧
    (r = None → cmd' = (c :: s) ++ 0 :: rest).
Proof.
  intros Ht Hz Hc. unfold _msh_exec_cmd, run_line. cbn [trim]. rewrite Hc.
  destruct (first_word_split (c :: s)) as (r & E & Hr & Hw). set (w := first_word (c :: s)) in *.
  assert (0 < length w)%nat as Hlw by (unfold w; simpl; rewrite Hc; simpl; lia).
  assert (nonzero w) as Hzw by (rewrite E in Hz; by apply Forall_app in Hz as []).
  rewrite (skip_word_run _ _ rest w r); [|by rewrite E, <-app_assoc|by rewrite E, length_app; lia|done|done|rewrite E, !length_app; lia].
  cbn [mbind option_bind Nat.add]. rewrite (proj2 (Nat.eqb_neq _ _)) by lia.
  assert (msh_get_cmd table ((c :: s) ++ 0 :: rest) (length w) = Some (find_cmd table w)) as ->.
  { rewrite E, <-app_assoc. by apply msh_get_cmd_run. }
  cbn [mbind option_bind].
  destruct (find_cmd table w =? 0); [by do 2 eexists|].
  destruct (msh_split_run (c :: s) rest Hz) as (cmd' & argv & Es & El & Ha). rewrite Es. cbn [mbind option_bind].
  assert (argv ≠ []) as Hne.
  { intros ->. pose proof (tokens_cons c s Hc). destruct (tokens TBlank (c :: s)); [done|]. by inversion Ha. }
  destruct argv as [|j argv]; [done|]. cbn [length Nat.eqb]. eexists cmd', _. split; [done|]. split; [done|].
  split; [|done]. f_equal. f_equal. by apply strings_cstr.
Qed.
Lemma msh_exec_run table s rest : table_ok table → nonzero s → Z.of_nat (length s) < 4294967296 →
  ∃ cmd', msh_exec table (s ++ 0 :: rest) (Z.of_nat (length s)) = Some (cmd', run_line table s) ∧
    length cmd' = length (s ++ 0 :: rest).
Proof.
  intros Ht. induction s as [|c s IH]; intros Hz Hlen; cbn [app msh_exec].
  { change (is_blank 0) with false. cbv iota. change (Z.of_nat (length []) =? 0) with true. cbv iota.
    unfold run_line. simpl. exists (0 :: rest). split; [|done]. by destruct (_ =? 0). }
  pose proof Hz as [Hc Hz']%Forall_cons. destruct (is_blank c) eqn:Hb.
  - replace (u32 (Z.of_nat (length (c :: s)) - 1)) with (Z.of_nat (length s)) by (simpl length in *; rewrite u32_small; lia).
    destruct IH as (cmd' & E & El); [done|simpl length in *; lia|]. rewrite E. cbn [mbind option_bind].
    exists (c :: cmd'). split; [|simpl; by rewrite El]. unfold run_line. cbn [trim]. by rewrite Hb.
  - rewrite (proj2 (Z.eqb_neq _ _)) by (simpl; lia).
    destruct (_msh_exec_cmd_run table c s rest) as (cmd' & r & E & El & -> & Hr); [done..|].
    change (c :: s ++ 0 :: rest) with ((c :: s) ++ 0 :: rest). rewrite E. cbn [mbind option_bind].
    destruct (run_line table (c :: s)) as [r|]; [by exists cmd'|]. rewrite Hr by done.
    destruct (truncate_run (c :: s) rest Hz) as (cmd2 & -> & El2). cbn [mbind option_bind]. by exists cmd2.
Qed.

(** * Completion *)

Fixpoint lcp (a b : list Z) : list Z :=
  match a, b with c :: a, d :: b => if c =? d then c :: lcp a b else [] | _, _ => [] end.
(** The name of a command that begins with [text]. *)
Definition candidate (text : list Z) (sc : finsh_syscall) : option (list Z) :=
  if bool_decide (take 6 (sc_name sc) = CMD_PREFIX) && bool_decide (take (length text) (drop 6 (sc_name sc)) = text)
  then Some (cstr (drop 6 (sc_name sc))) else None.
(** What all those names have in common. *)
Definition complete (table : list finsh_syscall) (text : list Z) : list Z :=
  match omap (candidate text) table with [] => text | n :: ns => foldl lcp n ns end.

Lemma strncmp_eq_comm n : ∀ a b, strncmp_eq a b n = strncmp_eq b a n.
Proof.
  induction n as [|n IH]; intros [|c a] [|d b]; simpl; try done.
  destruct (Z.eqb_spec c d) as [->|]; [rewrite Z.eqb_refl; simpl; by rewrite IH|].
  by rewrite (proj2 (Z.eqb_neq d c)) by congruence.
Qed.
Lemma str_common_run a r b r' : nonzero a → nonzero b →
  str_common (a ++ 0 :: r) (b ++ 0 :: r') = Some (Z.of_nat (length (lcp a b))).
Proof.
  intros Ha. revert b. induction Ha as [|c a Hc _ IH]; intros b Hb; [by destruct b|].
  destruct Hb as [|d b Hd Hb]; simpl; rewrite (proj2 (Z.eqb_neq c 0) Hc); simpl; [done|].
  rewrite (proj2 (Z.eqb_neq d 0) Hd). simpl. destruct (c =? d); [|done]. rewrite IH by done. simpl. f_equal. lia.
Qed.
Lemma lcp_take m a b : lcp (take m a) b = take (min m (length (lcp a b))) a.
Proof.
  revert a b. induction m as [|m IH]; intros [|c a] b; simpl; [done..|].
  destruct b as [|d b]; [done|]. destruct (c =? d); [|done]. simpl. by rewrite IH.
Qed.
Lemma lcp_prefix p a b : p `prefix_of` a → p `prefix_of` b → p `prefix_of` lcp a b.
Proof.
  intros [u ->] [v ->]. induction p as [|c p IH]; simpl; [apply prefix_nil|]. rewrite Z.eqb_refl. by apply prefix_cons.
Qed.

Section complete.
Context (text rest : list Z) (Htext : nonzero text) (Hne : text ≠ []).
(** The tests of the loop on one entry. *)
Lemma candidate_run sc : (∃ n, sc_name sc = n ++ [0] ∧ nonzero n) →
  ∃ builtin, strncmp_eq (sc_name sc) CMD_PREFIX 6 = Some builtin ∧
    match candidate text sc with
    | None => builtin = true → strncmp_eq (text ++ 0 :: rest) (drop 6 (sc_name sc)) (length text) = Some false
    | Some n => builtin = true ∧ strncmp_eq (text ++ 0 :: rest) (drop 6 (sc_name sc)) (length text) = Some true ∧
        drop 6 (sc_name sc) = n ++ [0] ∧ nonzero n ∧ text `prefix_of` n
    end.
Proof using Htext Hne.
  intros (n & En & Hn). unfold candidate. rewrite En.
  rewrite (strncmp_eq_run n [] Hn CMD_PREFIX 6); [|by repeat constructor|simpl; lia]. eexists. split; [done|].
  change (take 6 CMD_PREFIX) with CMD_PREFIX. case_bool_decide as Hp; cbn [andb]; [|done].
  destruct (prefix_of_string CMD_PREFIX []) with n as [m ->]; [by repeat constructor|done|].
  apply Forall_app in Hn as [_ Hm]. change (drop 6 ((CMD_PREFIX ++ m) ++ [0])) with (m ++ [0]).
  rewrite strncmp_eq_comm, (strncmp_eq_run m [] Hm (text ++ 0 :: rest)); [|by rewrite take_app_length|rewrite length_app; lia].
  rewrite take_app_length. case_bool_decide as Ht; cbn [andb]; [|done].
  rewrite (cstr_app m []) by done. split_and!; try done.
  destruct (prefix_of_string text [] Htext m Ht) as [u ->]. by exists u.
Qed.
Lemma complete_loop_run n0 : nonzero n0 → text `prefix_of` n0 → ∀ table, table_ok table → ∀ k,
  text `prefix_of` take k n0 → (k ≤ length n0)%nat →
  ∃ k', complete_loop table (text ++ 0 :: rest) (length text) (Some (n0 ++ [0])) (Z.of_nat k) =
    Some (Some (n0 ++ [0]), Z.of_nat k') ∧ take k' n0 = foldl lcp (take k n0) (omap (candidate text) table) ∧
    (k' ≤ k)%nat ∧ text `prefix_of` take k' n0.
Proof using Htext Hne.
  intros Hn0 Hp0. induction 1 as [|sc table Hsc _ IH]; intros k Hk Hkl; [by exists k|]. cbn [complete_loop omap list_omap].
  destruct (candidate_run sc Hsc) as (builtin & -> & Hc). cbn [mbind option_bind].
  destruct (candidate text sc) as [n|].
  - destruct Hc as (-> & -> & En & Hn & Hp). cbn [negb mbind option_bind]. rewrite En.
    assert (0 < k)%nat.
    { destruct k; [|lia]. rewrite take_0 in Hk. by apply prefix_nil_inv in Hk. }
    rewrite (proj2 (Z.eqb_neq (Z.of_nat k) 0)) by lia. cbn [mbind option_bind].
    rewrite (str_common_run n0 [] n []) by done. cbn [mbind option_bind foldl]. set (l := length (lcp n0 n)).
    replace (if Z.of_nat l <? Z.of_nat k then Z.of_nat l else Z.of_nat k) with (Z.of_nat (min k l))
      by (destruct (Z.ltb_spec (Z.of_nat l) (Z.of_nat k)); lia).
    rewrite lcp_take. fold l. destruct (IH (min k l)) as (k' & E & Ef & Hk' & Hp'); [|lia|].
    { unfold l. rewrite <-lcp_take. by apply lcp_prefix. }
    exists k'. split; [done|]. split; [done|]. split; [lia|done].
  - destruct builtin; cbn [negb]; [rewrite Hc by done; cbn [negb mbind option_bind]|]; by apply IH.
Qed.
Lemma complete_first_run table : table_ok table →
  match omap (candidate text) table with
  | [] => complete_loop table (text ++ 0 :: rest) (length text) None 0 = Some (None, 0)
  | n :: ns => nonzero n ∧ ∃ k, complete_loop table (text ++ 0 :: rest) (length text) None 0 = Some (Some (n ++ [0]), Z.of_nat k) ∧
      take k n = foldl lcp n ns ∧ (k ≤ length n)%nat ∧ text `prefix_of` take k n
  end.
Proof using Htext Hne.
  induction 1 as [|sc table Hsc Ht IH]; [done|]. cbn [complete_loop omap list_omap].
  destruct (candidate_run sc Hsc) as (builtin & -> & Hc). cbn [mbind option_bind].
  destruct (candidate text sc) as [n|].
  - destruct Hc as (-> & -> & En & Hn & Hp). cbn [negb mbind option_bind]. rewrite En. split; [done|].
    rewrite Z.eqb_refl, (rt_strlen_run n []) by done. cbn [mbind option_bind].
    rewrite (str_common_run n [] n []) by done. cbn [mbind option_bind].
    assert (lcp n n = n) as -> by (clear; induction n as [|c n IH]; [done|]; simpl; by rewrite Z.eqb_refl, IH).
    rewrite Z.ltb_irrefl. destruct (complete_loop_run n Hn Hp table Ht (length n)) as (k & E & Ef & Hk & Hp');
      [by rewrite firstn_all|done|]. rewrite firstn_all in Ef. by exists k.
  - destruct builtin; cbn [negb]; [rewrite Hc by done; cbn [negb mbind option_bind]|]; exact IH.
Qed.
(** The completed text takes the place of the prefix; nothing else changes. *)
Lemma msh_auto_complete_run table : table_ok table →
  (length (complete table text) ≤ length (text ++ 0%Z :: rest))%nat →
  msh_auto_complete table (text ++ 0 :: rest) = Some (lwrite 0 (complete table text) (text ++ 0 :: rest)) ∧
  text `prefix_of` complete table text ∧ nonzero (complete table text).
Proof using Htext Hne.
  intros Ht Hlen. unfold msh_auto_complete. pose proof (complete_first_run table Ht) as H. unfold complete in *.
  assert (∃ c, head (text ++ 0 :: rest) = Some c ∧ c ≠ 0) as (c & Eh & Hc).
  { clear -Htext Hne. destruct Htext as [|c t Hc]; [done|]. by exists c. }
  rewrite Eh. cbn [mbind option_bind]. rewrite (proj2 (Z.eqb_neq _ _) Hc), rt_strlen_run by done. cbn [mbind option_bind].
  rewrite Nat2Z.id. destruct (omap (candidate text) table) as [|n ns].
  - rewrite H. cbn [mbind option_bind]. split; [|done]. f_equal. unfold lwrite. simpl. by rewrite drop_app_length.
  - destruct H as (Hn & k & -> & Ek & Hk & Hp). cbn [mbind option_bind]. rewrite <-Ek in *. rewrite length_take in Hlen.
    rewrite (proj2 (Z.ltb_ge _ _)) by lia. rewrite Nat2Z.id.
    split; [|split; [done|by apply Forall_take]]. unfold rt_strncpy.
    assert (strncpy_bytes (n ++ [0]) k = Some (take k n)) as ->; [|done].
    clear -Hn Hk. revert k Hk. induction Hn as [|d n Hd _ IH]; intros [|k] Hk; simpl in Hk |- *; try done; [lia|].
    by rewrite (proj2 (Z.eqb_neq _ _) Hd), IH by lia.
Qed.
End complete.
