(* ===== verification/Shell.v ===== *)
(** The line editor of components/finsh/shell.c, finsh_thread_entry behind finsh_getchar: keys
    change a line of 80 characters, its cursor and a history of five lines; the end of a
    line runs it. Echo and prompt are left out. *)
From S2P Require Import Prelude Kservice Msh.

Definition FINSH_CMD_SIZE : Z := 80.
Definition FINSH_HISTORY_LINES : Z := 5.
Inductive input_stat := WAIT_NORMAL | WAIT_SPEC_KEY | WAIT_FUNC_KEY.
(** Counters and positions are of 16 bits. [sh_calls] are the commands called so far. *)
Record finsh_shell := Shell {
  stat : input_stat;
  current_history : Z;
  history_count : Z;
  cmd_history : list (list Z);
  line : list Z;
  line_position : Z;
  line_curpos : Z;
  sh_calls : list call_of
}.
Abbreviation Sh := (M finsh_shell).
Definition set_stat x : Sh unit := modify (λ s, Shell x (current_history s) (history_count s) (cmd_history s) (line s) (line_position s) (line_curpos s) (sh_calls s)).
Definition set_current x : Sh unit := modify (λ s, Shell (stat s) x (history_count s) (cmd_history s) (line s) (line_position s) (line_curpos s) (sh_calls s)).
Definition set_history n h : Sh unit := modify (λ s, Shell (stat s) (current_history s) n h (line s) (line_position s) (line_curpos s) (sh_calls s)).
Definition set_line l : Sh unit := modify (λ s, Shell (stat s) (current_history s) (history_count s) (cmd_history s) l (line_position s) (line_curpos s) (sh_calls s)).
Definition set_positions p c : Sh unit := modify (λ s, Shell (stat s) (current_history s) (history_count s) (cmd_history s) (line s) p c (sh_calls s)).
Definition add_call (r : option call_of) : Sh unit := modify (λ s, Shell (stat s) (current_history s) (history_count s) (cmd_history s) (line s) (line_position s) (line_curpos s) (sh_calls s ++ option_list r)).

(** l[i] = v, and memmove inside of an array. *)
Definition store (i v : Z) (l : list Z) : option (list Z) :=
  if bool_decide (i < Z.of_nat (length l)) then Some (<[Z.to_nat i := v]> l) else None.
Definition memmove (dst src n : Z) (l : list Z) : option (list Z) :=
  if bool_decide (dst + n ≤ Z.of_nat (length l)) && bool_decide (src + n ≤ Z.of_nat (length l))
  then Some (lwrite (Z.to_nat dst) (lread (Z.to_nat src) (Z.to_nat n) l) l) else None.

(** * History *)

(** The row that memset and memcpy make of the line. *)
Definition history_row (position : Z) (l : list Z) : option (list Z) :=
  if bool_decide (position ≤ FINSH_CMD_SIZE)
  then Some (take (Z.to_nat position) l ++ replicate (Z.to_nat (FINSH_CMD_SIZE - position)) 0) else None.
(** memcmp with the row of index [i] *)
Definition same_row (i : Z) (s : finsh_shell) : option bool :=
  row ← cmd_history s !! Z.to_nat i; Some (bool_decide (row = take (Z.to_nat FINSH_CMD_SIZE) (line s))).
Definition shell_push_history : Sh unit :=
  s ← get;
  when (negb (line_position s =? 0))
    (if FINSH_HISTORY_LINES <=? history_count s then
       same ← lift (same_row (FINSH_HISTORY_LINES - 1) s);
       when (negb same)
         (row ← lift (history_row (line_position s) (line s));
          set_history FINSH_HISTORY_LINES (tail (cmd_history s) ++ [row]))
     else
       same ← lift (if history_count s =? 0 then Some false else same_row (history_count s - 1) s);
       when (negb same)
         (set_current (history_count s);;
          row ← lift (history_row (line_position s) (line s));
          set_history (u16 (history_count s + 1)) (<[Z.to_nat (history_count s) := row]> (cmd_history s))));;
  n ← gets history_count;
  set_current n.
(** The line from the history, with the cursor at its end. *)
Definition line_end : Sh unit :=
  l ← gets line;
  n ← lift (rt_strlen l);
  set_positions (u16 n) (u16 n).
Definition load_history (i : Z) : Sh unit :=
  s ← get;
  row ← lift (cmd_history s !! Z.to_nat i);
  set_line (lwrite 0 row (line s));;
  line_end.
Definition key_up : Sh unit :=
  i ← gets current_history;
  if 0 <? i then set_current (u16 (i - 1));; load_history (u16 (i - 1)) else set_current 0.
Definition key_down : Sh unit :=
  i ← gets current_history;
  n ← gets history_count;
  if i <? n - 1 then set_current (u16 (i + 1));; load_history (u16 (i + 1))
  else if negb (n =? 0) then set_current (u16 (n - 1));; load_history (u16 (n - 1))
  else mret tt.

(** * Keys *)

Definition key_left : Sh unit :=
  s ← get;
  when (negb (line_curpos s =? 0)) (set_positions (line_position s) (u16 (line_curpos s - 1))).
Definition key_right : Sh unit :=
  s ← get;
  when (line_curpos s <? line_position s)
    (lift (line s !! Z.to_nat (line_curpos s));;
     set_positions (line_position s) (u16 (line_curpos s + 1))).
Definition key_tab (table : list finsh_syscall) : Sh unit :=
  l ← gets line;
  l ← lift (msh_auto_complete table l);
  set_line l;;
  line_end.
Definition key_backspace : Sh unit :=
  s ← get;
  if line_curpos s =? 0 then mret tt else
  let position := u16 (line_position s - 1) in
  let curpos := u16 (line_curpos s - 1) in
  set_positions position curpos;;
  l ← lift (if curpos <? position then memmove curpos (curpos + 1) (position - curpos) (line s) else Some (line s));
  l ← lift (store position 0 l);
  set_line l.
Definition key_enter (table : list finsh_syscall) : Sh unit :=
  shell_push_history;;
  s ← get;
  '(l, r) ← lift (msh_exec table (line s) (line_position s));
  add_call r;;
  set_line (replicate (Z.to_nat (FINSH_CMD_SIZE + 1)) 0);;
  set_positions 0 0.
Definition key_char (ch : Z) : Sh unit :=
  s ← get;
  let position := if FINSH_CMD_SIZE <=? line_position s then 0 else line_position s in
  l ← lift (if line_curpos s <? position
            then memmove (line_curpos s + 1) (line_curpos s) (position - line_curpos s) (line s) ≫= store (line_curpos s) ch
            else store position ch (line s));
  set_line l;;
  if FINSH_CMD_SIZE <=? u16 (position + 1) then set_positions 0 0
  else set_positions (u16 (position + 1)) (u16 (line_curpos s + 1)).
(** A key that is not part of an escape sequence. *)
Definition plain_key (table : list finsh_syscall) (ch : Z) : Sh unit :=
  if (ch =? 0) || (ch =? 0xFF) then mret tt
  else if ch =? 9 then key_tab table
  else if (ch =? 0x7f) || (ch =? 0x08) then key_backspace
  else if (ch =? 13) || (ch =? 10) then key_enter table
  else key_char ch.
(** The body of the loop for the character [ch]. *)
Definition finsh_key (table : list finsh_syscall) (ch : Z) : Sh unit :=
  st ← gets stat;
  if ch =? 0x1b then set_stat WAIT_SPEC_KEY else
  match st with
  | WAIT_NORMAL => plain_key table ch
  | WAIT_SPEC_KEY =>
      if ch =? 0x5b then set_stat WAIT_FUNC_KEY else set_stat WAIT_NORMAL;; plain_key table ch
  | WAIT_FUNC_KEY =>
      set_stat WAIT_NORMAL;;
      if ch =? 0x41 then key_up
      else if ch =? 0x42 then key_down
      else if ch =? 0x44 then key_left
      else if ch =? 0x43 then key_right
      else plain_key table ch
  end.
Definition finsh_keys (table : list finsh_syscall) (chs : list Z) : Sh unit := for_each (finsh_key table) chs.
(** What rt_calloc leaves. *)
Definition shell_init : finsh_shell :=
  Shell WAIT_NORMAL 0 0 (replicate (Z.to_nat FINSH_HISTORY_LINES) (replicate (Z.to_nat FINSH_CMD_SIZE) 0))
    (replicate (Z.to_nat (FINSH_CMD_SIZE + 1)) 0) 0 0 [].

(** * The editor *)

(** A line of characters with a cursor, at most five earlier lines, and which of them
    was shown last. *)
Record editor := Editor {
  e_stat : input_stat;
  e_text : list Z;
  e_cursor : nat;
  e_history : list (list Z);
  e_selected : nat
}.
Definition MAX_TEXT : nat := 79.
Definition remember (text : list Z) (h : list (list Z)) : list (list Z) :=
  if bool_decide (text = []) || bool_decide (last h = Some text) then h
  else (if (length h <? 5)%nat then h else tail h) ++ [text].
Definition show (i : nat) (e : editor) : option editor :=
  text ← e_history e !! i; Some (Editor WAIT_NORMAL text (length text) (e_history e) i).
(** [None]: the line gets too long. *)
Definition ed_plain (table : list finsh_syscall) (ch : Z) (e : editor) : option (editor * option call_of) :=
  let keep text cursor := Some (Editor WAIT_NORMAL text cursor (e_history e) (e_selected e), None) in
  let text := e_text e in
  let cursor := e_cursor e in
  if (ch =? 0) || (ch =? 0xFF) then keep text cursor
  else if ch =? 9 then
    let text := match text with [] => [] | _ => complete table text end in
    if (length text <=? MAX_TEXT)%nat then keep text (length text) else None
  else if (ch =? 0x7f) || (ch =? 0x08) then
    match cursor with O => keep text O | S c => keep (take c text ++ drop (S c) text) c end
  else if (ch =? 13) || (ch =? 10) then
    let h := remember text (e_history e) in
    Some (Editor WAIT_NORMAL [] 0 h (length h), run_line table text)
  else if (length text <? MAX_TEXT)%nat then keep (take cursor text ++ ch :: drop cursor text) (S cursor) else None.
Definition ed_key (table : list finsh_syscall) (ch : Z) (e : editor) : option (editor * option call_of) :=
  let to st := Some (Editor st (e_text e) (e_cursor e) (e_history e) (e_selected e), None) in
  let normal c i := Some (Editor WAIT_NORMAL (e_text e) c (e_history e) i, None) in
  if ch =? 0x1b then to WAIT_SPEC_KEY else
  match e_stat e with
  | WAIT_NORMAL => ed_plain table ch e
  | WAIT_SPEC_KEY => if ch =? 0x5b then to WAIT_FUNC_KEY else ed_plain table ch e
  | WAIT_FUNC_KEY =>
      if ch =? 0x41 then
        match e_selected e with O => normal (e_cursor e) O | S i => e' ← show i e; Some (e', None) end
      else if ch =? 0x42 then
        match length (e_history e) with
        | O => normal (e_cursor e) (e_selected e)
        | S n => e' ← show (if (e_selected e <? n)%nat then S (e_selected e) else n) e; Some (e', None)
        end
      else if ch =? 0x44 then normal (pred (e_cursor e)) (e_selected e)
      else if ch =? 0x43 then normal (min (length (e_text e)) (S (e_cursor e))) (e_selected e)
      else ed_plain table ch e
  end.
Fixpoint ed_keys (table : list finsh_syscall) (chs : list Z) (e : editor) : option (editor * list call_of) :=
  match chs with
  | [] => Some (e, [])
  | ch :: chs => '(e, r) ← ed_key table ch e; '(e, rs) ← ed_keys table chs e; Some (e, option_list r ++ rs)
  end.

(** * The shell is this editor *)

(** A row of [n] characters. *)
Definition padded (n : nat) (text : list Z) : list Z := text ++ replicate (n - length text) 0.
Definition fits (text : list Z) : Prop := nonzero text ∧ (length text ≤ MAX_TEXT)%nat.
Record represents (e : editor) (s : finsh_shell) : Prop := {
  re_stat : stat s = e_stat e;
  re_text : fits (e_text e);
  re_line : line s = padded 81 (e_text e);
  re_position : line_position s = Z.of_nat (length (e_text e));
  re_cursor : (e_cursor e ≤ length (e_text e))%nat;
  re_curpos : line_curpos s = Z.of_nat (e_cursor e);
  re_lines : Forall (λ h, fits h ∧ h ≠ []) (e_history e) ∧ (length (e_history e) ≤ 5)%nat;
  re_count : history_count s = Z.of_nat (length (e_history e));
  re_history : ∃ unused, cmd_history s = (padded 80 <$> e_history e) ++ unused ∧ length (cmd_history s) = 5%nat;
  re_selected : (e_selected e ≤ length (e_history e))%nat;
  re_current : current_history s = Z.of_nat (e_selected e)
}.

Lemma length_padded n text : (length text ≤ n)%nat → length (padded n text) = n.
Proof. intros. unfold padded. rewrite length_app, length_replicate. lia. Qed.
Lemma padded_end n text : (length text < n)%nat → padded n text = text ++ 0 :: replicate (n - S (length text)) 0.
Proof. intros. unfold padded. by replace (n - length text)%nat with (S (n - S (length text))) by lia. Qed.
Lemma padded_inj n t1 t2 : nonzero t1 → nonzero t2 → padded n t1 = padded n t2 → (length t1 < n)%nat → (length t2 < n)%nat → t1 = t2.
Proof.
  intros H1 H2 E L1 L2. rewrite !padded_end in E by done. rewrite <-(cstr_app t1 (replicate (n - S (length t1)) 0) H1), E. by apply cstr_app.
Qed.
Lemma lwrite_padded t t' : (length t ≤ length t')%nat → (length t' ≤ 81)%nat → lwrite 0 t' (padded 81 t) = padded 81 t'.
Proof.
  intros H1 H2. unfold lwrite, padded. simpl. f_equal. rewrite drop_app_ge by lia. rewrite drop_replicate. f_equal. lia.
Qed.
Lemma take_padded m n t : (length t ≤ m)%nat → (m ≤ n)%nat → take m (padded n t) = padded m t.
Proof.
  intros H1 H2. unfold padded. rewrite take_app_ge by lia. rewrite take_replicate. do 2 f_equal. lia.
Qed.
Lemma lwrite_row h t : (length h ≤ 80)%nat → (length t ≤ 80)%nat → lwrite 0 (padded 80 h) (padded 81 t) = padded 81 h.
Proof.
  intros H1 H2. unfold lwrite. rewrite length_padded by done. simpl. unfold padded.
  rewrite drop_app_ge, drop_replicate, <-app_assoc, <-replicate_add by lia. do 2 f_equal. lia.
Qed.

(** The memory of a deletion and of an insertion at the end of [a]. *)
Lemma store_app a x b v : store (Z.of_nat (length a)) v (a ++ x :: b) = Some (a ++ v :: b).
Proof.
  unfold store. rewrite bool_decide_eq_true_2 by (rewrite length_app; simpl; lia). rewrite Nat2Z.id.
  rewrite <-(Nat.add_0_r (length a)), insert_app_r. done.
Qed.
Lemma delete_run a x b z :
  (l ← (if Z.of_nat (length a) <? Z.of_nat (length (a ++ b))
        then memmove (Z.of_nat (length a)) (Z.of_nat (length a) + 1) (Z.of_nat (length (a ++ b)) - Z.of_nat (length a)) (a ++ x :: b ++ z)
        else Some (a ++ x :: b ++ z));
   store (Z.of_nat (length (a ++ b))) 0 l) = Some (a ++ b ++ 0 :: z).
Proof.
  destruct (decide (b = [])) as [->|Hb].
  { rewrite app_nil_r, Z.ltb_irrefl. apply store_app. }
  rewrite length_app. assert (0 < length b)%nat by (destruct b; [done|simpl; lia]).
  rewrite (proj2 (Z.ltb_lt _ _)) by lia. unfold memmove, lread.
  rewrite !bool_decide_eq_true_2 by (rewrite !length_app; simpl; rewrite length_app; lia). cbn [andb mbind option_bind].
  replace (Z.to_nat (Z.of_nat (length a + length b) - Z.of_nat (length a))) with (length b) by lia.
  replace (Z.to_nat (Z.of_nat (length a) + 1)) with (S (length a)) by lia. rewrite Nat2Z.id.
  assert (drop (S (length a)) (a ++ x :: b ++ z) = b ++ z) as ->.
  { rewrite drop_app_ge by lia. by replace (S (length a) - length a)%nat with 1%nat by lia. }
  rewrite take_app_length. unfold lwrite. rewrite take_app_length, drop_app_ge by lia.
  replace (length a + length b - length a)%nat with (length b) by lia.
  destruct (exists_last Hb) as (b' & y & ->).
  change (x :: (b' ++ [y]) ++ z) with ((x :: b' ++ [y]) ++ z).
  assert (drop (length (b' ++ [y])) ((x :: b' ++ [y]) ++ z) = y :: z) as ->.
  { rewrite app_comm_cons, <-app_assoc. rewrite drop_app_ge by (rewrite length_app; simpl; lia).
    rewrite length_app. simpl. by replace (length b' + 1 - S (length b'))%nat with 0%nat by lia. }
  rewrite <-length_app, (app_assoc a _ (y :: z)), (app_assoc a _ (0 :: z)). apply store_app.
Qed.
Lemma insert_run a b ch x z :
  (if Z.of_nat (length a) <? Z.of_nat (length (a ++ b))
   then memmove (Z.of_nat (length a) + 1) (Z.of_nat (length a)) (Z.of_nat (length (a ++ b)) - Z.of_nat (length a)) (a ++ b ++ x :: z)
     ≫= store (Z.of_nat (length a)) ch
   else store (Z.of_nat (length (a ++ b))) ch (a ++ b ++ x :: z)) = Some (a ++ ch :: b ++ z).
Proof.
  destruct b as [|y b].
  { rewrite app_nil_r, Z.ltb_irrefl. apply store_app. }
  rewrite length_app. rewrite (proj2 (Z.ltb_lt _ _)) by (simpl; lia). unfold memmove, lread.
  rewrite !bool_decide_eq_true_2 by (rewrite !length_app; simpl; lia). cbn [andb mbind option_bind].
  replace (Z.to_nat (Z.of_nat (length a + length (y :: b)) - Z.of_nat (length a))) with (length (y :: b)) by lia.
  replace (Z.to_nat (Z.of_nat (length a) + 1)) with (length a + 1)%nat by lia. rewrite Nat2Z.id.
  rewrite drop_app_length, take_app_length. unfold lwrite.
  assert (take (length a + 1) (a ++ (y :: b) ++ x :: z) = a ++ [y]) as ->.
  { rewrite take_app_ge by lia. by replace (length a + 1 - length a)%nat with 1%nat by lia. }
  assert (drop (length a + 1 + length (y :: b)) (a ++ (y :: b) ++ x :: z) = z) as ->.
  { rewrite drop_app_ge by lia. replace (length a + 1 + length (y :: b) - length a)%nat with (length (y :: b) + 1)%nat by lia.
    rewrite drop_app_ge by lia. by replace (length (y :: b) + 1 - length (y :: b))%nat with 1%nat by lia. }
  rewrite <-app_assoc. apply store_app.
Qed.

Section refinement.
Context (table : list finsh_syscall) (Htable : table_ok table).
Implicit Types (e : editor) (s : finsh_shell).

(** [s] with another line and the positions at its end, and what that represents. *)
Lemma line_end_run text (Q : unit → finsh_shell → Prop) s :
  fits text → line s = padded 81 text →
  Q tt (Shell (stat s) (current_history s) (history_count s) (cmd_history s) (line s)
          (Z.of_nat (length text)) (Z.of_nat (length text)) (sh_calls s)) →
  wp line_end Q s.
Proof.
  intros [Hz Hl] El HQ. unfold line_end, MAX_TEXT in *. wp_simpl. rewrite El.
  rewrite padded_end, rt_strlen_run by (done || lia). unfold set_positions. wp_simpl. by rewrite u16_small by lia.
Qed.
(** Changes of the line keep the rest. *)
Lemma represents_text e s st text c line' pos cur i calls :
  represents e s → fits text → (c ≤ length text)%nat → line' = padded 81 text → pos = Z.of_nat (length text) → cur = Z.of_nat c →
  (i ≤ length (e_history e))%nat →
  represents (Editor st text c (e_history e) i)
    (Shell st (Z.of_nat i) (history_count s) (cmd_history s) line' pos cur calls).
Proof. intros [] Ht Hc -> -> -> Hi. by constructor. Qed.

Lemma load_history_run e s i e' :
  represents e s → stat s = WAIT_NORMAL → show i e = Some e' →
  wp (set_current (Z.of_nat i);; load_history (Z.of_nat i)) (λ _ s', represents e' s' ∧ sh_calls s' = sh_calls s) s.
Proof.
  intros He Hst Hi. unfold show in Hi. destruct (e_history e !! i) as [text|] eqn:Et; [|done]. injection Hi as <-.
  pose proof (lookup_lt_Some _ _ _ Et) as Hlt. pose proof He as [_ [_ Hl] El _ _ _ [Hh _] _ (unused & Eh & _) _ _].
  destruct (proj1 (Forall_lookup _ _) Hh _ _ Et) as [[Hz Hl'] _]. unfold MAX_TEXT in *.
  assert (cmd_history s !! i = Some (padded 80 text)) as Er.
  { rewrite Eh, lookup_app_l by by rewrite length_fmap. by rewrite list_lookup_fmap, Et. }
  unfold set_current, load_history, set_line. wp_simpl. simpl. rewrite Nat2Z.id, Er. wp_simpl.
  apply (line_end_run text); [done|simpl; by rewrite El, lwrite_row by lia|].
  simpl. split; [|done]. rewrite Hst. apply (represents_text e s); try done; [by rewrite El, lwrite_row by lia|lia].
Qed.

(** After a key: the state represents [e'], and [r] was called. *)
Definition done_key (s : finsh_shell) (e' : editor) (r : option call_of) (_ : unit) (s' : finsh_shell) : Prop :=
  represents e' s' ∧ sh_calls s' = sh_calls s ++ option_list r.
Lemma done_none s e' u s' : represents e' s' → sh_calls s' = sh_calls s → done_key s e' None u s'.
Proof. intros H E. split; [done|]. by rewrite app_nil_r. Qed.

Lemma key_tab_run e s :
  represents e s → stat s = WAIT_NORMAL →
  let text := match e_text e with [] => [] | _ => complete table (e_text e) end in
  (length text ≤ MAX_TEXT)%nat →
  wp (key_tab table) (done_key s (Editor WAIT_NORMAL text (length text) (e_history e) (e_selected e)) None) s.
Proof using Htable.
  intros He Hst text Hlen. pose proof He as [_ [Hz Hl] El _ _ _ _ _ _ Hsel Hcur]. unfold key_tab, set_line. wp_simpl. rewrite El.
  unfold MAX_TEXT in *. rewrite padded_end by lia. set (z := replicate _ 0).
  assert (msh_auto_complete table (e_text e ++ 0 :: z) = Some (padded 81 text) ∧ nonzero text) as [-> Hzt].
  { destruct (decide (e_text e = [])) as [Et|Et].
    { unfold text, z. rewrite Et. split; [done|by constructor]. }
    assert (text = complete table (e_text e)) as Etext by (unfold text; by destruct (e_text e)). rewrite Etext in *.
    destruct (msh_auto_complete_run (e_text e) z Hz Et table Htable) as (-> & Hp & Hc).
    { rewrite length_app. simpl. unfold z. rewrite length_replicate. lia. }
    split; [|done]. f_equal. unfold z. rewrite <-padded_end by lia. apply lwrite_padded; [|lia]. by apply prefix_length. }
  wp_simpl. apply (line_end_run text); [done|done|]. simpl. apply done_none; [|done].
  rewrite Hst, Hcur. by apply (represents_text e s).
Qed.
Lemma key_backspace_run e s c :
  represents e s → stat s = WAIT_NORMAL → e_cursor e = S c →
  wp key_backspace (done_key s (Editor WAIT_NORMAL (take c (e_text e) ++ drop (S c) (e_text e)) c (e_history e) (e_selected e)) None) s.
Proof using Type.
  intros He Hst Ec. pose proof He as [_ [Hz Hl] El Ep Hc Ecp _ _ _ Hsel Hcur]. rewrite Ec in Hc, Ecp. unfold MAX_TEXT in *.
  destruct (lookup_lt_is_Some_2 (e_text e) c) as [x Hx]; [lia|].
  set (a := take c (e_text e)). set (b := drop (S c) (e_text e)).
  assert (e_text e = a ++ x :: b) as Et by (symmetry; by apply take_drop_middle).
  assert (length a = c) as Ea by (unfold a; rewrite length_take; lia).
  assert (length (a ++ b) = pred (length (e_text e))) as Eab by (rewrite Et, !length_app; simpl; lia).
  assert (line s = a ++ x :: b ++ replicate (80 - length (a ++ b)) 0) as El'.
  { rewrite El. unfold padded. rewrite Et at 1. rewrite <-app_assoc. simpl. do 4 f_equal. lia. }
  unfold key_backspace, set_positions, set_line. wp_simpl. rewrite (proj2 (Z.eqb_neq _ _)) by lia. wp_simpl.
  rewrite Ep, Ecp. replace (u16 (Z.of_nat (length (e_text e)) - 1)) with (Z.of_nat (length (a ++ b))) by (rewrite u16_small; lia).
  replace (u16 (Z.of_nat (S c) - 1)) with (Z.of_nat (length a)) by (rewrite u16_small; lia).
  pose proof (delete_run a x b (replicate (80 - length (a ++ b)) 0)) as Hd. rewrite <-El' in Hd.
  destruct (if _ <? _ then _ else _) as [l|]; [|discriminate Hd]. simpl in Hd. wp_simpl. rewrite Hd. wp_simpl. simpl.
  apply done_none; [|done]. rewrite Hst, Hcur. apply (represents_text e s); [done| |lia| |done|by rewrite Ea|done].
  - split; [|unfold MAX_TEXT; lia]. rewrite Et in Hz. apply Forall_app in Hz as [? Hz]. apply Forall_cons in Hz as [_ ?].
    by apply Forall_app.
  - rewrite app_assoc. rewrite padded_end by lia. do 3 f_equal; lia.
Qed.
Lemma key_char_run e s ch :
  represents e s → stat s = WAIT_NORMAL → ch ≠ 0 → (length (e_text e) < MAX_TEXT)%nat →
  wp (key_char ch) (done_key s (Editor WAIT_NORMAL (take (e_cursor e) (e_text e) ++ ch :: drop (e_cursor e) (e_text e))
    (S (e_cursor e)) (e_history e) (e_selected e)) None) s.
Proof using Type.
  intros He Hst Hch Hlt. pose proof He as [_ [Hz Hl] El Ep Hc Ecp _ _ _ Hsel Hcur]. unfold MAX_TEXT in *.
  set (a := take (e_cursor e) (e_text e)). set (b := drop (e_cursor e) (e_text e)).
  assert (e_text e = a ++ b) as Et by (symmetry; apply take_drop).
  assert (length a = e_cursor e) as Ea by (unfold a; rewrite length_take; lia).
  assert (length (a ++ ch :: b) = S (length (e_text e))) as Eab by (rewrite Et, !length_app; simpl; lia).
  assert (line s = a ++ b ++ 0 :: replicate (81 - length (a ++ ch :: b)) 0) as El'.
  { rewrite El, padded_end by lia. rewrite Et at 1. rewrite <-app_assoc. do 4 f_equal. lia. }
  unfold key_char, set_positions, set_line, FINSH_CMD_SIZE. wp_simpl. rewrite Ep, Ecp, (proj2 (Z.leb_gt _ _)) by lia.
  pose proof (insert_run a b ch 0 (replicate (81 - length (a ++ ch :: b)) 0)) as Hi.
  rewrite <-El', <-Et, Ea in Hi. rewrite Hi. wp_simpl.
  rewrite (u16_small (Z.of_nat (length (e_text e)) + 1)) by lia. rewrite (proj2 (Z.leb_gt _ _)) by lia. wp_simpl. simpl.
  rewrite u16_small by lia. apply done_none; [|done]. rewrite Hst, Hcur. apply (represents_text e s); [done| |lia| |lia|lia|done].
  - split; [|unfold MAX_TEXT; lia]. rewrite Et in Hz. apply Forall_app in Hz as [? ?]. apply Forall_app. split; [done|by constructor].
  - unfold padded. by rewrite <-app_assoc.
Qed.

Lemma same_row_run e s i h :
  represents e s → e_history e !! i = Some h →
  same_row (Z.of_nat i) s = Some (bool_decide (h = e_text e)).
Proof using Type.
  intros He Hi. pose proof He as [_ [Hz Hl] El _ _ _ [Hh _] _ (unused & Eh & _) _ _]. unfold MAX_TEXT in *.
  destruct (proj1 (Forall_lookup _ _) Hh _ _ Hi) as [[Hzh Hlh] _]. unfold MAX_TEXT in *.
  unfold same_row. rewrite Nat2Z.id, Eh, lookup_app_l by (rewrite length_fmap; by eapply lookup_lt_Some).
  rewrite list_lookup_fmap, Hi. cbn [fmap option_fmap option_map mbind option_bind]. f_equal. rewrite El.
  change (Z.to_nat FINSH_CMD_SIZE) with 80%nat. rewrite take_padded by lia.
  apply bool_decide_ext. split; [|by intros ->]. intros E. by apply (padded_inj 80); [..|lia|lia].
Qed.
Lemma history_row_run e s : represents e s → history_row (line_position s) (line s) = Some (padded 80 (e_text e)).
Proof using Type.
  intros [_ [Hz Hl] El Ep _ _ _ _ _ _ _]. unfold MAX_TEXT in *. unfold history_row. rewrite Ep, El.
  change FINSH_CMD_SIZE with 80. rewrite bool_decide_eq_true_2 by lia. rewrite Nat2Z.id. unfold padded at 1.
  rewrite take_app_length. unfold padded. do 3 f_equal. lia.
Qed.
(** Whether the line is the newest of the history. *)
Definition repeated (e : editor) : bool := bool_decide (last (e_history e) = Some (e_text e)).
Lemma repeated_run e s i :
  represents e s → length (e_history e) = S i → same_row (Z.of_nat i) s = Some (repeated e).
Proof using Type.
  intros He Hi. destruct (lookup_lt_is_Some_2 (e_history e) i) as [h Hh]; [lia|].
  rewrite (same_row_run e s i h) by done. f_equal. unfold repeated.
  rewrite last_lookup, Hi. simpl. rewrite Hh. apply bool_decide_ext. naive_solver.
Qed.
Lemma remember_lines e : fits (e_text e) → Forall (λ h, fits h ∧ h ≠ []) (e_history e) ∧ (length (e_history e) ≤ 5)%nat →
  let h := remember (e_text e) (e_history e) in Forall (λ h, fits h ∧ h ≠ []) h ∧ (length h ≤ 5)%nat.
Proof using Type.
  intros Ht [Hh Hl] h. unfold h, remember. case_bool_decide as Hn; [done|]. cbn [orb].
  case_bool_decide; [done|]. destruct (Nat.ltb_spec (length (e_history e)) 5).
  - rewrite length_app. simpl. split; [|lia]. apply Forall_app. split; [done|by constructor].
  - split; [|destruct (e_history e); simpl in *; rewrite ?length_app; simpl; lia].
    apply Forall_app. split; [|by constructor]. destruct Hh; [constructor|done].
Qed.
Lemma remember_old e : e_text e = [] ∨ repeated e = true → remember (e_text e) (e_history e) = e_history e.
Proof using Type.
  unfold remember, repeated. intros [E|E]; [by rewrite bool_decide_eq_true_2|]. by rewrite E, orb_true_r.
Qed.
Lemma remember_new e : e_text e ≠ [] → repeated e = false → remember (e_text e) (e_history e) =
  (if (length (e_history e) <? 5)%nat then e_history e else tail (e_history e)) ++ [e_text e].
Proof using Type. intros Hne E. unfold remember. rewrite bool_decide_eq_false_2 by done. unfold repeated in E. by rewrite E. Qed.

(** What pushing changes: the rows and their number. *)
Record pushed (h : list (list Z)) (s s' : finsh_shell) : Prop := {
  pu_rest : stat s' = stat s ∧ line s' = line s ∧ line_position s' = line_position s ∧
    line_curpos s' = line_curpos s ∧ sh_calls s' = sh_calls s;
  pu_count : history_count s' = Z.of_nat (length h);
  pu_history : ∃ unused, cmd_history s' = (padded 80 <$> h) ++ unused ∧ length (cmd_history s') = 5%nat
}.
Lemma represents_pushed e s : represents e s → pushed (e_history e) s s.
Proof using Type. by intros []. Qed.
Lemma push_full_run e s unused :
  represents e s → cmd_history s = (padded 80 <$> e_history e) ++ unused → length (e_history e) = 5%nat → e_text e ≠ [] →
  wp (same ← lift (same_row (FINSH_HISTORY_LINES - 1) s);
      when (negb same)
        (row ← lift (history_row (line_position s) (line s));
         set_history FINSH_HISTORY_LINES (tail (cmd_history s) ++ [row])))
    (λ _ s', pushed (remember (e_text e) (e_history e)) s s') s.
Proof using Type.
  intros He Eh Hl Hne. pose proof (re_history _ _ He) as (_ & _ & E5).
  change (FINSH_HISTORY_LINES - 1) with (Z.of_nat 4). rewrite (repeated_run e s 4), (history_row_run e s) by done.
  wp_simpl. destruct (repeated e) eqn:Er; cbn [negb]; wp_simpl.
  { rewrite remember_old by auto. by apply represents_pushed. }
  rewrite remember_new, Hl by done. cbn [Nat.ltb Nat.leb].
  assert (unused = []) as ->.
  { rewrite Eh, length_app, length_fmap, Hl in E5. destruct unused; [done|simpl in E5; lia]. }
  assert (tail (cmd_history s) = padded 80 <$> tail (e_history e)) as Et
    by (rewrite Eh, app_nil_r; by destruct (e_history e)).
  assert (length (tail (e_history e)) = 4%nat) as Hlt by (destruct (e_history e); [done|simpl in *; lia]).
  unfold set_history. wp_simpl. constructor; simpl; [done| |].
  - by rewrite length_app, Hlt.
  - exists []. rewrite Et, app_nil_r, fmap_app. split; [done|]. by rewrite length_app, length_fmap, Hlt.
Qed.
Lemma push_more_run e s unused :
  represents e s → cmd_history s = (padded 80 <$> e_history e) ++ unused → (length (e_history e) < 5)%nat → e_text e ≠ [] →
  wp (same ← lift (if history_count s =? 0 then Some false else same_row (history_count s - 1) s);
      when (negb same)
        (set_current (history_count s);;
         row ← lift (history_row (line_position s) (line s));
         set_history (u16 (history_count s + 1)) (<[Z.to_nat (history_count s) := row]> (cmd_history s))))
    (λ _ s', pushed (remember (e_text e) (e_history e)) s s') s.
Proof using Type.
  intros He Eh Hl Hne. pose proof (re_history _ _ He) as (_ & _ & E5). pose proof (re_count _ _ He) as En. rewrite En.
  assert ((if Z.of_nat (length (e_history e)) =? 0 then Some false else same_row (Z.of_nat (length (e_history e)) - 1) s) =
    Some (repeated e)) as ->.
  { destruct (e_history e) as [|h0 h] eqn:Ehist; [unfold repeated; by rewrite Ehist|].
    rewrite (proj2 (Z.eqb_neq _ _)) by (simpl; lia).
    replace (Z.of_nat (length (h0 :: h)) - 1) with (Z.of_nat (length h)) by (simpl; lia).
    apply repeated_run; [done|by rewrite Ehist]. }
  rewrite (history_row_run e s) by done. wp_simpl. destruct (repeated e) eqn:Er; cbn [negb]; wp_simpl.
  { rewrite remember_old by auto. by apply represents_pushed. }
  rewrite remember_new by done. rewrite (proj2 (Nat.ltb_lt _ _)) by done.
  rewrite Eh, length_app, length_fmap in E5. destruct unused as [|u unused]; [simpl in E5; lia|].
  unfold set_current, set_history. wp_simpl. constructor; simpl; [done| |].
  - rewrite length_app. simpl. rewrite u16_small; lia.
  - exists unused. rewrite Nat2Z.id, Eh.
    assert (<[length (e_history e) := padded 80 (e_text e)]> ((padded 80 <$> e_history e) ++ u :: unused) =
      (padded 80 <$> e_history e ++ [e_text e]) ++ unused) as ->.
    { rewrite <-(length_fmap (padded 80) (e_history e)) at 1. rewrite <-(Nat.add_0_r (length _)), insert_app_r.
      rewrite fmap_app, <-app_assoc. done. }
    split; [done|]. rewrite !length_app, length_fmap, length_app. simpl in *. lia.
Qed.
Lemma shell_push_history_run e s :
  represents e s → stat s = WAIT_NORMAL →
  wp shell_push_history (λ _ s', represents (Editor WAIT_NORMAL (e_text e) (e_cursor e) (remember (e_text e) (e_history e))
    (length (remember (e_text e) (e_history e)))) s' ∧ stat s' = WAIT_NORMAL ∧ sh_calls s' = sh_calls s) s.
Proof using Type.
  intros He Hst. pose proof He as [_ Ht El Ep Hc Ecp Hh En (unused & Eh & _) _ _].
  unfold shell_push_history. rewrite wp_bind, wp_get, wp_bind.
  apply (wp_mono _ (λ _ s', pushed (remember (e_text e) (e_history e)) s s')).
  - rewrite wp_when, Ep. destruct (decide (e_text e = [])) as [Etx|Hne].
    { rewrite (remember_old e) by auto. rewrite Etx. simpl. by apply represents_pushed. }
    rewrite (proj2 (Z.eqb_neq _ _)) by (destruct (e_text e); [done|simpl; lia]). cbn [negb].
    rewrite En. change FINSH_HISTORY_LINES with 5 at 1. destruct (Z.leb_spec 5 (Z.of_nat (length (e_history e)))).
    + rewrite <-Ep. apply (push_full_run e s unused); try done. lia.
    + rewrite <-Ep, <-En. apply (push_more_run e s unused); try done. lia.
  - intros [] s' [(E1 & E2 & E3 & E4 & E5) Ec Ehist]. unfold set_current. wp_simpl. simpl.
    split; [|by rewrite E1]. pose proof (remember_lines e Ht Hh) as Hr.
    constructor; simpl; rewrite ?E1, ?E2, ?E3, ?E4; done.
Qed.

Lemma key_enter_run e s :
  represents e s → stat s = WAIT_NORMAL →
  wp (key_enter table) (let h := remember (e_text e) (e_history e) in
    done_key s (Editor WAIT_NORMAL [] 0 h (length h)) (run_line table (e_text e))) s.
Proof using Htable.
  intros He Hst. unfold key_enter, add_call, set_line, set_positions. wp_simpl.
  eapply wp_mono; [by apply shell_push_history_run|]. intros [] s1 (He1 & Hst1 & Ec1). wp_simpl.
  pose proof He1 as [_ [Hz Hl] El Ep _ _ Hh En Hx Hsel Hcur]. simpl in *. unfold MAX_TEXT in *.
  rewrite El, Ep, padded_end by lia.
  destruct (msh_exec_run table (e_text e) (replicate (81 - S (length (e_text e))) 0)) as (l & -> & _); [done|done|lia|].
  wp_simpl. simpl. split; [|simpl; by rewrite Ec1].
  constructor; simpl; try done. split; [by constructor|unfold MAX_TEXT; simpl; lia].
Qed.
Lemma plain_key_run e s ch e' r :
  represents e s → stat s = WAIT_NORMAL → ed_plain table ch e = Some (e', r) →
  wp (plain_key table ch) (done_key s e' r) s.
Proof using Htable.
  intros He Hst. unfold ed_plain, plain_key.
  assert (represents (Editor WAIT_NORMAL (e_text e) (e_cursor e) (e_history e) (e_selected e)) s) as He0
    by (destruct He; by constructor).
  destruct ((ch =? 0) || (ch =? 0xFF)) eqn:E0; [intros [= <- <-]; apply wp_ret; by apply done_none|].
  apply orb_false_iff in E0 as [E0 _].
  destruct (ch =? 9).
  { destruct (Nat.leb_spec (length match e_text e with [] => [] | _ => complete table (e_text e) end) MAX_TEXT); [|done].
    intros [= <- <-]. by apply key_tab_run. }
  destruct ((ch =? 127) || (ch =? 8)).
  { destruct (e_cursor e) as [|c] eqn:Ec; intros [= <- <-]; [|by apply key_backspace_run].
    unfold key_backspace. wp_simpl. rewrite (re_curpos _ _ He), Ec. simpl. apply wp_ret. by apply done_none. }
  destruct ((ch =? 13) || (ch =? 10)); [intros [= <- <-]; by apply key_enter_run|].
  destruct (Nat.ltb_spec (length (e_text e)) MAX_TEXT); [|done]. intros [= <- <-].
  apply key_char_run; [done|done|lia|done].
Qed.
Lemma represents_stat st e s : represents e s →
  represents (Editor st (e_text e) (e_cursor e) (e_history e) (e_selected e))
    (Shell st (current_history s) (history_count s) (cmd_history s) (line s) (line_position s) (line_curpos s) (sh_calls s)).
Proof using Type. intros []. by constructor. Qed.

(** The keys behind ESC [ *)
Lemma arrows_run e s ch e' r :
  represents e s → stat s = WAIT_NORMAL → e_stat e = WAIT_NORMAL → ch ≠ 0x1b →
  ed_key table ch (Editor WAIT_FUNC_KEY (e_text e) (e_cursor e) (e_history e) (e_selected e)) = Some (e', r) →
  wp (if ch =? 0x41 then key_up else if ch =? 0x42 then key_down else if ch =? 0x44 then key_left
      else if ch =? 0x43 then key_right else plain_key table ch) (done_key s e' r) s.
Proof using Htable.
  intros He Hst Hste Hch. pose proof He as [_ Ht El Ep Hc Ecp [Hh Hl5] En Hhist Hsel Hcur].
  assert (e = Editor WAIT_NORMAL (e_text e) (e_cursor e) (e_history e) (e_selected e)) as Ee by (destruct e; simpl in *; by subst).
  assert (∀ i e1, (i ≤ 5)%nat → show i e = Some e1 →
    wp (set_current (u16 (Z.of_nat i));; load_history (u16 (Z.of_nat i))) (done_key s e1 None) s) as Hload.
  { intros i e1 Hi Hsh. rewrite u16_small by lia. eapply wp_mono; [by apply (load_history_run e s i e1)|].
    intros u s' [??]. by apply done_none. }
  unfold ed_key. rewrite (proj2 (Z.eqb_neq _ _) Hch). cbn [e_stat e_text e_cursor e_history e_selected].
  destruct (ch =? 0x41); [|destruct (ch =? 0x42); [|destruct (ch =? 0x44); [|destruct (ch =? 0x43); [|]]]].
  - unfold key_up. wp_simpl. rewrite Hcur. destruct (e_selected e) as [|i] eqn:Es; simpl.
    + intros [= <- <-]. unfold set_current. wp_simpl. apply done_none; [|done].
      rewrite <-Ee. destruct s. simpl in Hcur. by subst.
    + intros Hi. replace (Z.of_nat (S i) - 1) with (Z.of_nat i) by lia. unfold show in Hi. simpl in Hi.
      destruct (e_history e !! i) as [text|] eqn:Et; [|done]. simpl in Hi. injection Hi as <- <-.
      apply Hload; [lia|]. unfold show. by rewrite Et.
  - unfold key_down. wp_simpl. rewrite Hcur, En. destruct (length (e_history e)) as [|n] eqn:Elen.
    + intros [= <- <-]. rewrite (proj2 (Z.ltb_ge _ _)) by lia. simpl. apply wp_ret. apply done_none; [by rewrite <-Ee|done].
    + rewrite (proj2 (Z.eqb_neq (Z.of_nat (S n)) 0)) by lia. cbn [negb].
      set (i := if (e_selected e <? n)%nat then S (e_selected e) else n). unfold show. cbn [e_history].
      destruct (e_history e !! i) as [text|] eqn:Et; [|done]. cbn [mbind option_bind]. intros [= <- <-].
      assert (show i e = Some (Editor WAIT_NORMAL text (length text) (e_history e) i)) as Hsh by (unfold show; by rewrite Et).
      unfold i in *. destruct (Nat.ltb_spec (e_selected e) n).
      * rewrite (proj2 (Z.ltb_lt _ _)) by lia. replace (Z.of_nat (e_selected e) + 1) with (Z.of_nat (S (e_selected e))) by lia.
        apply Hload; [lia|done].
      * rewrite (proj2 (Z.ltb_ge _ _)) by lia. replace (Z.of_nat (S n) - 1) with (Z.of_nat n) by lia. apply Hload; [lia|done].
  - intros [= <- <-]. unfold key_left, set_positions. wp_simpl. rewrite Ecp.
    destruct (e_cursor e) as [|c] eqn:Ec; [simpl; apply done_none; [by rewrite <-Ee|done]|].
    rewrite (proj2 (Z.eqb_neq _ _)) by lia. cbn [negb]. apply done_none; [|done]. destruct Ht as [Hz Hl]. unfold MAX_TEXT in Hl.
    rewrite Hst, Hcur. replace (u16 (Z.of_nat (S c) - 1)) with (Z.of_nat c) by (rewrite u16_small; lia).
    apply (represents_text e s); [done|by split|simpl; lia|done|done|done|done].
  - intros [= <- <-]. unfold key_right, set_positions. wp_simpl. rewrite Ecp, Ep.
    destruct (Z.ltb_spec (Z.of_nat (e_cursor e)) (Z.of_nat (length (e_text e)))) as [Hlt|Hge].
    + rewrite El, Nat2Z.id. destruct (lookup_lt_is_Some_2 (e_text e) (e_cursor e)) as [x Hx]; [lia|].
      unfold padded. rewrite (lookup_app_l_Some _ _ _ _ Hx). wp_simpl. apply done_none; [|done].
      destruct Ht as [Hz Hl]. unfold MAX_TEXT in Hl. rewrite Hst, Hcur, u16_small by lia.
      rewrite Nat.min_r by lia. apply (represents_text e s); [done|by split|lia|done|done|lia|done].
    + rewrite Nat.min_l by lia. apply done_none; [|done].
      assert (Editor WAIT_NORMAL (e_text e) (length (e_text e)) (e_history e) (e_selected e) = e) as ->; [|done].
      clear -Hste Hc Hge. destruct e. simpl in *. subst. f_equal. lia.
  - intros Hp. apply (plain_key_run e s ch); [done|done|]. rewrite <-Hp. reflexivity.
Qed.
Lemma finsh_key_run e s ch e' r :
  represents e s → ed_key table ch e = Some (e', r) → wp (finsh_key table ch) (done_key s e' r) s.
Proof using Htable.
  intros He Hk. unfold finsh_key, set_stat. wp_simpl. rewrite (re_stat _ _ He).
  destruct (Z.eqb_spec ch 0x1b) as [->|Hch].
  { unfold ed_key in Hk. simpl in Hk. injection Hk as <- <-. wp_simpl. apply done_none; [by apply represents_stat|done]. }
  destruct (e_stat e) eqn:Est.
  - unfold ed_key in Hk. rewrite (proj2 (Z.eqb_neq _ _) Hch), Est in Hk. apply (plain_key_run e s ch); [done| |done].
    by rewrite (re_stat _ _ He).
  - unfold ed_key in Hk. rewrite (proj2 (Z.eqb_neq _ _) Hch), Est in Hk. destruct (ch =? 0x5b).
    { injection Hk as <- <-. wp_simpl. apply done_none; [by apply represents_stat|done]. }
    wp_simpl. eapply wp_mono; [by apply (plain_key_run _ _ ch e' r (represents_stat WAIT_NORMAL e s He))|]. done.
  - wp_simpl. eapply wp_mono; [apply (arrows_run _ _ ch e' r (represents_stat WAIT_NORMAL e s He))|]; try done.
    rewrite <-Hk, <-Est. by destruct e.
Qed.
Lemma finsh_keys_run chs : ∀ e s e' calls,
  represents e s → ed_keys table chs e = Some (e', calls) →
  wp (finsh_keys table chs) (λ _ s', represents e' s' ∧ sh_calls s' = sh_calls s ++ calls) s.
Proof using Htable.
  induction chs as [|ch chs IH]; intros e s e' calls He Hk; unfold finsh_keys in *; cbn [ed_keys for_each] in *.
  { injection Hk as <- <-. apply wp_ret. by rewrite app_nil_r. }
  destruct (ed_key table ch e) as [[e1 r]|] eqn:E1; [|done]. cbn [mbind option_bind] in Hk.
  destruct (ed_keys table chs e1) as [[e2 rs]|] eqn:E2; [|done]. cbn [mbind option_bind] in Hk. injection Hk as <- <-.
  wp_simpl. eapply wp_mono; [by eapply finsh_key_run|]. intros u s1 [He1 Ec1].
  eapply wp_mono; [by eapply IH|]. intros u2 s2 [He2 Ec2]. split; [done|]. by rewrite Ec2, Ec1, app_assoc.
Qed.
End refinement.

Definition editor_init : editor := Editor WAIT_NORMAL [] 0 [] 0.
Lemma editor_init_run : represents editor_init shell_init.
Proof.
  constructor; simpl; try done; [by split; [constructor|unfold MAX_TEXT; simpl; lia]|by split; [constructor|simpl; lia]|].
  by eexists.
Qed.
(** C28. Whatever is typed, as long as no line gets longer than 79 characters: the shell stays in its
    arrays and behaves like the editor, with a cursor, deletion, completion and a history of
    the last five lines; it calls the commands of the lines that were ended, in their
    order and with their arguments, and nothing else. *)
Theorem finsh_shell_edits table chs e calls :
  table_ok table → ed_keys table chs editor_init = Some (e, calls) →
  wp (finsh_keys table chs) (λ _ s, represents e s ∧ sh_calls s = calls) shell_init.
Proof.
  intros Ht Hk. eapply wp_mono; [apply (finsh_keys_run table Ht chs _ _ e calls editor_init_run Hk)|].
  by intros u s [? ->].
Qed.

(** * Lines that are too long *)

Definition CR : Z := 13.
Definition TAB : Z := 9.
Definition BS : Z := 8.
(** A character that is put into the line as it is. *)
Definition typeable (ch : Z) : bool := negb (existsb (Z.eqb ch) [0; 0xFF; TAB; 0x7f; BS; CR; 10; 0x1b]).
(** A word of a command line, and words with blanks between them. *)
Definition word (w : list Z) : Prop :=
  w ≠ [] ∧ head w ≠ Some QUOTE ∧ Forall (λ c, typeable c = true ∧ is_blank c = false) w.
Definition with_blanks (ws : list (list Z)) : list Z := concat ((λ w, 32 :: w) <$> ws).
Definition join (ws : list (list Z)) : list Z := match ws with [] => [] | w :: ws => w ++ with_blanks ws end.

Section overlong.
Context (table : list finsh_syscall).
Implicit Types (s : finsh_shell) (t u : list Z).

Definition at_line s (l : list Z) (p : Z) : finsh_shell :=
  Shell (stat s) (current_history s) (history_count s) (cmd_history s) l p p (sh_calls s).
Lemma typeable_key ch s : typeable ch = true → stat s = WAIT_NORMAL → finsh_key table ch s = key_char ch s.
Proof.
  unfold typeable. intros Ht%negb_true_iff Hs. simpl in Ht. rewrite !orb_false_iff in Ht.
  destruct Ht as (E0 & E1 & E2 & E3 & E4 & E5 & E6 & E7 & _). unfold finsh_key, mbind, M_bind, gets. simpl.
  unfold TAB, BS, CR in *. rewrite E7, Hs. unfold plain_key. by rewrite E0, E1, E2, E3, E4, E5, E6.
Qed.
Lemma finsh_keys_app k1 k2 s s1 : finsh_keys table k1 s = Some (tt, s1) →
  finsh_keys table (k1 ++ k2) s = finsh_keys table k2 s1.
Proof.
  unfold finsh_keys. revert s. induction k1 as [|ch k1 IH]; intros s; simpl; [by intros [= ->]|].
  unfold mbind, M_bind. destruct (finsh_key table ch s) as [[[] s2]|]; [|done]. apply IH.
Qed.
(** Typing at the end of the positions goes over what is in the line. *)
Definition wrap (n : nat) : Z := if (n <? 80)%nat then Z.of_nat n else 0.
Lemma key_char_over ch s a x b :
  line s = a ++ x :: b → line_position s = Z.of_nat (length a) → line_curpos s = Z.of_nat (length a) → (length a < 80)%nat →
  key_char ch s = Some (tt, at_line s (a ++ ch :: b) (wrap (S (length a)))).
Proof.
  intros El Ep Ec Hl. unfold key_char, mbind, M_bind, get, lift. rewrite Ep, Ec, El. unfold FINSH_CMD_SIZE.
  rewrite (proj2 (Z.leb_gt _ _)) by lia. rewrite Z.ltb_irrefl, store_app. unfold set_line, set_positions, modify, wrap. simpl.
  rewrite u16_small by lia. destruct (Nat.ltb_spec (S (length a)) 80).
  - rewrite (proj2 (Z.leb_gt _ _)) by lia. unfold at_line. do 2 f_equal. f_equal; lia.
  - by rewrite (proj2 (Z.leb_le _ _)) by lia.
Qed.
Lemma type_over u : ∀ a b s,
  Forall (λ c, typeable c = true) u → stat s = WAIT_NORMAL → line s = a ++ b → (length a < 80)%nat →
  (length a + length u ≤ 80)%nat → (length u < length b)%nat →
  line_position s = Z.of_nat (length a) → line_curpos s = Z.of_nat (length a) →
  finsh_keys table u s = Some (tt, at_line s (a ++ u ++ drop (length u) b) (wrap (length a + length u))).
Proof.
  unfold finsh_keys. induction u as [|ch u IH]; intros a b s Hu Hs El Ha Hl Hb Ep Ec; simpl in *.
  - unfold mret, M_ret, wrap. rewrite (proj2 (Nat.ltb_lt _ _)), Nat.add_0_r, drop_0, <-El by lia.
    unfold at_line. rewrite <-Ep. do 2 f_equal. destruct s; simpl in *; congruence.
  - apply Forall_cons in Hu as [Hch Hu]. destruct b as [|x b]; [simpl in Hb; lia|].
    unfold mbind, M_bind. rewrite typeable_key, (key_char_over ch s a x b) by done.
    destruct u as [|ch2 u].
    { simpl. unfold mret, M_ret. by rewrite drop_0, Nat.add_1_r. }
    unfold wrap at 1. rewrite (proj2 (Nat.ltb_lt _ _)) by (simpl in *; lia).
    rewrite (IH (a ++ [ch]) b); [|done|done|simpl; by rewrite <-app_assoc|rewrite ?length_app; simpl in *; lia..].
    rewrite length_app, <-app_assoc. simpl. do 3 f_equal. f_equal; simpl; lia.
Qed.

(** The line is full: it begins again and keeps its text. *)
Lemma full_line_run e s chs t :
  represents e s → e_stat e = WAIT_NORMAL → e_cursor e = length (e_text e) → Forall (λ c, typeable c = true) chs →
  t = e_text e ++ chs → length t = 80%nat →
  finsh_keys table chs s = Some (tt, at_line s (t ++ [0]) 0) ∧ nonzero t.
Proof.
  intros He Est Ec Hchs -> Hl. rewrite length_app in Hl. pose proof He as [Hst [Hz Hf] El Ep _ Ecp _ _ _ _ _].
  unfold MAX_TEXT in Hf. rewrite Ec in Ecp. split.
  - rewrite (type_over chs (e_text e) (replicate (81 - length (e_text e)) 0)); try done.
    + rewrite Hl. unfold wrap. simpl. rewrite drop_replicate.
      replace (81 - length (e_text e) - length chs)%nat with 1%nat by lia. by rewrite <-app_assoc.
    + congruence.
    + lia.
    + lia.
    + rewrite length_replicate. lia.
  - apply Forall_app. split; [done|]. eapply Forall_impl; [exact Hchs|]. intros c Hc ->. by vm_compute in Hc.
Qed.

(** ** Reading off the line *)

Lemma skip_word_off r len : Forall (λ c, is_blank c = false) r → Z.of_nat (length r) ≤ len → ∀ fuel i,
  (i ≤ length r)%nat → skip_word fuel r i len = None.
Proof.
  intros Hr Hlen. induction fuel as [|fuel IH]; intros i Hi; [done|]. cbn [skip_word].
  destruct (r !! i) as [c|] eqn:E; [|done]. cbn [mbind option_bind]. pose proof (lookup_lt_Some _ _ _ E).
  rewrite (proj1 (Forall_lookup _ _) Hr _ _ E), (proj2 (Z.ltb_lt _ _)) by lia. apply IH. lia.
Qed.
(** Blanks in front make the length of the line wrap. *)
Lemma msh_exec_off k r : ∀ len, 0 < u32 (len - Z.of_nat k) → Z.of_nat (length r) ≤ u32 (len - Z.of_nat k) → r ≠ [] →
  Forall (λ c, is_blank c = false) r → 0 ≤ len < 4294967296 → msh_exec table (replicate k 32 ++ r) len = None.
Proof.
  induction k as [|k IH]; intros len Hp Hlen Hne Hr Hr32.
  - simpl in *. rewrite Z.sub_0_r, u32_small in Hp, Hlen by done. destruct r as [|c r]; [done|].
    cbn [msh_exec]. pose proof (skip_word_off (c :: r) len Hr Hlen (S (length (c :: r))) 0 ltac:(lia)) as E.
    apply Forall_cons in Hr as [-> _]. rewrite (proj2 (Z.eqb_neq _ _)) by lia. unfold _msh_exec_cmd. by rewrite E.
  - cbn [replicate app msh_exec]. change (is_blank 32) with true. cbv iota.
    assert (u32 (u32 (len - 1) - Z.of_nat k) = u32 (len - Z.of_nat (S k))) as Eu by (rewrite u32_sub_mod; f_equal; lia).
    rewrite IH; rewrite ?Eu; try done. apply u32_range.
Qed.
Lemma enter_empty_run s l r :
  stat s = WAIT_NORMAL → line s = l → line_position s = 0 → msh_exec table l 0 = r →
  r = None → finsh_key table CR s = None.
Proof.
  intros Hs El Ep Er Hr. unfold finsh_key, mbind, M_bind, gets. simpl. rewrite Hs. unfold plain_key. simpl.
  unfold key_enter, shell_push_history, set_current, mbind, M_bind, gets, get, modify. simpl.
  rewrite Ep. simpl. unfold lift. by rewrite El, Ep, Er, Hr.
Qed.

(** ** A cursor behind the line *)

Lemma full_tab_run s t ch :
  table_ok table → nonzero t → length t = 80%nat → complete table t = t → typeable ch = true → stat s = WAIT_NORMAL →
  finsh_keys table [TAB; ch; BS; BS] (at_line s (t ++ [0]) 0) = None.
Proof.
  intros Ht Hz Hl Hc Hch Hs. assert (t ≠ []) as Hne by by intros ->.
  destruct (msh_auto_complete_run t [] Hz Hne table Ht) as (Ea & _); [rewrite Hc, length_app; lia|].
  assert (lwrite 0 t (t ++ [0]) = t ++ [0]) as Ew by (unfold lwrite; simpl; by rewrite drop_app_length).
  rewrite Hc, Ew in Ea.
  assert (finsh_key table TAB (at_line s (t ++ [0]) 0) = Some (tt, at_line s (t ++ [0]) 80)) as E1.
  { unfold finsh_key, plain_key, key_tab, line_end, set_positions, set_line, lift, gets, modify, mbind, M_bind. simpl. rewrite Hs. simpl.
    rewrite Ea. simpl. by rewrite rt_strlen_run, Hl by done. }
  destruct t as [|c0 t]; [done|]. simpl in Hl. injection Hl as Hl. destruct s as [st ch0 n h l0 p0 q0 cs]. simpl in Hs. subst st.
  set (s0 := Shell WAIT_NORMAL ch0 n h l0 p0 q0 cs) in *.
  assert (finsh_key table ch (at_line s0 ((c0 :: t) ++ [0]) 80) =
    Some (tt, Shell WAIT_NORMAL ch0 n h (ch :: t ++ [0]) 1 81 cs)) as E2 by by rewrite typeable_key.
  assert (finsh_key table BS (Shell WAIT_NORMAL ch0 n h (ch :: t ++ [0]) 1 81 cs) =
    Some (tt, Shell WAIT_NORMAL ch0 n h (0 :: t ++ [0]) 0 80 cs)) as E3 by done.
  assert (finsh_key table BS (Shell WAIT_NORMAL ch0 n h (0 :: t ++ [0]) 0 80 cs) = None) as E4.
  { unfold finsh_key, mbind, M_bind, gets. simpl. unfold plain_key. simpl.
    unfold key_backspace, mbind, M_bind, get, set_positions, modify. simpl. unfold memmove.
    rewrite (bool_decide_eq_false_2 (u16 (80 - 1) + _ ≤ _)); [done|]. simpl. rewrite length_app, Hl. by vm_compute. }
  unfold finsh_keys. cbn [for_each]. unfold mbind, M_bind. by rewrite E1, E2, E3, E4.
Qed.

(** ** Old text behind a new line *)

Lemma skip_word_stop a c r len : Forall (λ c, is_blank c = false) a → ∀ v fuel,
  Z.of_nat (length v + length a) ≤ len → is_blank c = true ∨ len = Z.of_nat (length v + length a) → (length a < fuel)%nat →
  skip_word fuel (v ++ a ++ c :: r) (length v) len = Some (length v + length a)%nat.
Proof.
  induction 1 as [|x a Hx Ha IH]; intros v fuel Hle Hc Hf; (destruct fuel as [|fuel]; [lia|]); cbn [skip_word].
  - simpl. rewrite list_lookup_middle by done. cbn [mbind option_bind]. simpl in Hc, Hle.
    assert (negb (is_blank c) && (Z.of_nat (length v) <? len) = false) as ->; [|f_equal; lia].
    destruct Hc as [-> | ->]; [done|]. rewrite (proj2 (Z.ltb_ge _ _)) by lia. apply andb_false_r.
  - simpl. rewrite list_lookup_middle by done. cbn [mbind option_bind]. rewrite Hx. simpl in *.
    rewrite (proj2 (Z.ltb_lt _ _)) by lia. cbn [negb andb].
    replace (v ++ x :: a ++ c :: r) with ((v ++ [x]) ++ a ++ c :: r) by by rewrite <-app_assoc.
    assert (S (length v) = length (v ++ [x])) as -> by (rewrite length_app; simpl; lia).
    rewrite IH; rewrite ?length_app; simpl; try lia; [f_equal; lia|]. destruct Hc; [by left|right; lia].
Qed.
Lemma word_chars w : word w → Forall (λ c, is_blank c = false) w ∧ nonzero w ∧ Forall (λ c, typeable c = true) w.
Proof.
  intros (_ & _ & H). split_and!; eapply Forall_impl; try exact H; intros c [Ht Hb]; try done.
  intros ->. by vm_compute in Ht.
Qed.
(** One word at the end of [v]. *)
Lemma split_word_run v w c r len : word w → Z.of_nat (length v + length w) ≤ len →
  is_blank c = true ∨ len = Z.of_nat (length v + length w) →
  split_argument (v ++ w ++ c :: r) (length v) len =
    Some (v ++ w ++ c :: r, length v, (length v + length w)%nat, len <=? Z.of_nat (length v + length w)).
Proof.
  intros Hw Hle Hc. destruct (word_chars w Hw) as (Hb & _ & _). destruct Hw as (Hne & Hq & _). unfold split_argument.
  assert ((v ++ w ++ c :: r) !! length v = head w) as ->.
  { destruct w as [|x w]; [done|]. simpl. by apply list_lookup_middle. }
  destruct w as [|x w]; [done|]. cbn [head mbind option_bind] in *. rewrite (proj2 (Z.eqb_neq x QUOTE)) by congruence.
  rewrite (skip_word_stop (x :: w) c r len Hb v); [done|done|done|]. rewrite !length_app. simpl. lia.
Qed.
(** The words behind one: their blanks become terminators. *)
Definition with_zeros (ws : list (list Z)) : list Z := concat ((λ w, 0 :: w) <$> ws).
Fixpoint starts_of (i : nat) (ws : list (list Z)) : list nat :=
  match ws with [] => [] | w :: ws => S i :: starts_of (S i + length w) ws end.
Lemma with_zeros_length ws : length (with_zeros ws) = length (with_blanks ws).
Proof. induction ws as [|w ws IH]; [done|]. unfold with_zeros, with_blanks in *. rewrite !fmap_cons. cbn [concat]. by rewrite !length_app, IH. Qed.
Lemma split_words_run x r : ∀ ws v fuel argv len,
  Forall word ws → len = Z.of_nat (length v + length (with_blanks ws)) → (length argv + length ws ≤ 10)%nat →
  (length ws < fuel)%nat →
  split_loop fuel (v ++ with_blanks ws ++ x :: r) (length v) len argv =
    Some (v ++ with_zeros ws ++ x :: r, argv ++ starts_of (length v) ws).
Proof.
  induction ws as [|w ws IH]; intros v fuel argv len Hws El Ha Hf; (destruct fuel as [|fuel]; [lia|]); cbn [split_loop].
  { rewrite (proj2 (Z.ltb_ge _ _)) by (simpl in El; lia). simpl. by rewrite app_nil_r. }
  apply Forall_cons in Hws as [Hw Hws]. unfold with_blanks in *. rewrite fmap_cons in *. cbn [concat] in *. fold (with_blanks ws) in *.
  pose proof Hw as (Hne & _ & Hch). destruct w as [|c0 w]; [done|]. apply Forall_cons in Hch as [[_ Hc0] _].
  assert (len = Z.of_nat (length v + 1 + length (c0 :: w) + length (with_blanks ws))) as El'
    by (rewrite El, length_app; simpl; lia). clear El.
  rewrite (proj2 (Z.ltb_lt _ _)) by lia. cbn [negb]. simpl in Ha.
  set (cmd := v ++ _). assert (cmd = v ++ 32 :: (c0 :: w) ++ with_blanks ws ++ x :: r) as Ecmd
    by (unfold cmd; simpl; by rewrite <-app_assoc). clearbody cmd. subst cmd.
  (* the blank *)
  set (cmd1 := (v ++ [0]) ++ (c0 :: w) ++ with_blanks ws ++ x :: r).
  assert (length (v ++ [0]) = S (length v)) as Ev by (rewrite length_app; simpl; lia).
  assert (strip_blanks (S (length (v ++ 32 :: (c0 :: w) ++ with_blanks ws ++ x :: r)))
    (v ++ 32 :: (c0 :: w) ++ with_blanks ws ++ x :: r) (length v) len = Some (cmd1, S (length v))) as ->.
  { cbn [strip_blanks]. rewrite list_lookup_middle by done. cbn [mbind option_bind]. change (is_blank 32) with true.
    rewrite (proj2 (Z.ltb_lt _ _)) by lia. cbn [andb].
    assert (<[length v := 0]> (v ++ 32 :: (c0 :: w) ++ with_blanks ws ++ x :: r) = cmd1) as ->.
    { rewrite <-(Nat.add_0_r (length v)), insert_app_r. unfold cmd1. by rewrite <-app_assoc. }
    rewrite length_app. simpl. rewrite Nat.add_succ_r. cbn [strip_blanks]. unfold cmd1. rewrite <-Ev.
    simpl. rewrite list_lookup_middle by done. cbn [mbind option_bind]. by rewrite Hc0. }
  simpl in El'.
  cbn [mbind option_bind]. unfold FINSH_ARG_MAX. rewrite (proj2 (Z.leb_gt _ _)) by lia. rewrite (proj2 (Z.leb_gt _ _)) by lia.
  rewrite <-Ev. unfold cmd1.
  assert (∃ c r', with_blanks ws ++ x :: r = c :: r' ∧ (is_blank c = true ∨ len = Z.of_nat (length (v ++ [0]) + length (c0 :: w))))
    as (c & r' & Er & Hc).
  { destruct ws as [|w2 ws]; [|by eexists _, _; split; [done|left]].
    exists x, r. split; [done|]. right. rewrite Ev. simpl in *. lia. }
  rewrite Er, split_word_run; [|done|rewrite Ev; simpl; lia|done]. cbn [mbind option_bind]. rewrite <-Er.
  set (v' := (v ++ [0]) ++ c0 :: w). assert (length v' = Nat.add (length (v ++ [0])) (length (c0 :: w))) as Ev' by apply length_app.
  assert (v ++ with_zeros ((c0 :: w) :: ws) ++ x :: r = v' ++ with_zeros ws ++ x :: r) as ->.
  { unfold v', with_zeros. rewrite fmap_cons. cbn [concat]. by rewrite <-!app_assoc. }
  assert (argv ++ starts_of (length v) ((c0 :: w) :: ws) = (argv ++ [S (length v)]) ++ starts_of (length v') ws) as ->.
  { rewrite <-app_assoc. cbn [starts_of app]. rewrite Ev', Ev. done. }
  rewrite (app_assoc (v ++ [0])). fold v'. rewrite <-Ev', Ev. simpl in Hf.
  assert (len = Z.of_nat (length v' + length (with_blanks ws))) as El by (rewrite Ev', Ev; simpl; lia).
  destruct (Z.leb_spec len (Z.of_nat (length v'))).
  - assert (ws = []) as -> by (destruct ws; [done|]; unfold with_blanks in *; simpl in *; lia).
    by rewrite app_nil_r.
  - apply IH; [done|done|rewrite length_app; simpl; lia|lia].
Qed.
(** The last of several words goes on with [old]. *)
Fixpoint append_last (old : list Z) (ws : list (list Z)) : list (list Z) :=
  match ws with [] => [] | w :: ws => match ws with [] => [w ++ old] | _ => w :: append_last old ws end end.
Lemma append_last_snoc old ws w : append_last old (ws ++ [w]) = ws ++ [w ++ old].
Proof. induction ws as [|w1 ws IH]; [done|]. simpl. rewrite IH. by destruct ws. Qed.
Lemma cstr_prefix a r : nonzero a → cstr (a ++ r) = a ++ cstr r.
Proof. induction 1 as [|c a Hc _ IH]; [done|]. simpl. by rewrite (proj2 (Z.eqb_neq _ _) Hc), IH. Qed.
Lemma with_zeros_cons w ws : with_zeros (w :: ws) = 0 :: w ++ with_zeros ws.
Proof. done. Qed.
Lemma cstr_words r ws : ∀ a v, nonzero a → Forall nonzero ws →
  (λ j, cstr (drop j (v ++ a ++ with_zeros ws ++ r))) <$> (length v :: starts_of (length v + length a) ws) =
    append_last (cstr r) (a :: ws).
Proof.
  induction ws as [|w ws IH]; intros a v Ha Hws.
  - cbn [starts_of fmap list_fmap]. rewrite drop_app_length. simpl. by rewrite cstr_prefix.
  - apply Forall_cons in Hws as [Hw Hws]. rewrite with_zeros_cons. rewrite fmap_cons, drop_app_length. cbn [starts_of].
    simpl. rewrite cstr_app by done. f_equal.
    specialize (IH w (v ++ a ++ [0]) Hw Hws). rewrite !length_app in IH. simpl in IH.
    replace (length v + (length a + 1))%nat with (S (length v + length a)) in IH by lia.
    etrans; [|exact IH]. rewrite <-!app_assoc. done.
Qed.
Lemma msh_split_words w ws x r len :
  Forall word (w :: ws) → (length (w :: ws) ≤ 10)%nat → len = Z.of_nat (length (w ++ with_blanks ws)) →
  msh_split (w ++ with_blanks ws ++ x :: r) len = Some (w ++ with_zeros ws ++ x :: r, 0%nat :: starts_of (length w) ws).
Proof.
  intros [Hw Hws]%Forall_cons Hl Elen. pose proof Hw as (Hne & _ & Hch). rewrite length_app in Elen.
  unfold msh_split. cbn [split_loop]. assert (0 < length w)%nat by (destruct w; [done|simpl; lia]).
  rewrite (proj2 (Z.ltb_lt _ _)) by lia. cbn [negb].
  set (cmd := w ++ with_blanks ws ++ x :: r).
  assert (strip_blanks (S (length cmd)) cmd 0 len = Some (cmd, 0%nat)) as ->.
  { destruct w as [|c0 w]; [done|]. apply Forall_cons in Hch as [[_ Hc0] _]. cbn [strip_blanks]. simpl. by rewrite Hc0. }
  cbn [mbind option_bind length]. unfold FINSH_ARG_MAX. rewrite (proj2 (Z.leb_gt _ _)) by lia. rewrite (proj2 (Z.leb_gt _ _)) by lia.
  assert (∃ c r', with_blanks ws ++ x :: r = c :: r' ∧ (is_blank c = true ∨ len = Z.of_nat (length w))) as (c & r' & Er & Hc).
  { destruct ws as [|w2 ws]; [|by eexists _, _; split; [done|left]]. exists x, r. split; [done|]. right. simpl in *. lia. }
  pose proof (split_word_run [] w c r' len Hw ltac:(simpl; lia) Hc) as E. rewrite <-Er in E. simpl in E. fold cmd in E.
  rewrite E. cbn [mbind option_bind]. destruct (Z.leb_spec len (Z.of_nat (length w))).
  - assert (ws = []) as -> by (destruct ws; [done|]; unfold with_blanks in *; simpl in *; lia). done.
  - unfold cmd. rewrite (split_words_run x r ws w _ [0%nat] len); [done|done|lia|simpl in *; lia|].
    rewrite !length_app. assert (length ws ≤ length (with_blanks ws))%nat; [|simpl; lia].
    clear. induction ws as [|w ws IH]; [done|]. unfold with_blanks in *. rewrite fmap_cons. cbn [concat].
    rewrite length_app. simpl. lia.
Qed.
Lemma msh_exec_words w ws x r len :
  table_ok table → Forall word (w :: ws) → (length (w :: ws) ≤ 10)%nat → len = Z.of_nat (length (w ++ with_blanks ws)) →
  find_cmd table w ≠ 0 →
  ∃ l', msh_exec table (w ++ with_blanks ws ++ x :: r) len =
    Some (l', Some (CallOf (find_cmd table w) (append_last (cstr (x :: r)) (w :: ws)))).
Proof.
  intros Ht Hws Hl Elen Hf. pose proof (msh_split_words w ws x r len Hws Hl Elen) as Es.
  apply Forall_cons in Hws as [Hw Hws]. destruct (word_chars w Hw) as (Hb & Hz & _). rewrite length_app in Elen.
  assert (skip_word (S (length (w ++ with_blanks ws ++ x :: r))) (w ++ with_blanks ws ++ x :: r) 0 len = Some (length w)) as Ek.
  { assert (∃ c r', with_blanks ws ++ x :: r = c :: r' ∧ (is_blank c = true ∨ len = Z.of_nat (length w))) as (c & r' & Er & Hc).
    { destruct ws as [|w2 ws]; [|by eexists _, _; split; [done|left]]. exists x, r. split; [done|]. right. simpl in *. lia. }
    rewrite Er. apply (skip_word_stop w c r' len Hb []); [simpl; lia|done|rewrite length_app; simpl; lia]. }
  assert (_msh_exec_cmd table (w ++ with_blanks ws ++ x :: r) len = Some (w ++ with_zeros ws ++ x :: r,
    Some (CallOf (find_cmd table w) (append_last (cstr (x :: r)) (w :: ws))))) as E.
  { unfold _msh_exec_cmd. rewrite Ek. cbn [mbind option_bind].
    assert ((length w =? 0)%nat = false) as -> by (destruct Hw as [? _]; by destruct w).
    rewrite msh_get_cmd_run by done. cbn [mbind option_bind]. rewrite (proj2 (Z.eqb_neq _ _) Hf), Es. cbn [mbind option_bind].
    simpl length at 1. cbn [Nat.eqb]. do 4 f_equal. apply (cstr_words (x :: r) ws w []); [done|].
    eapply Forall_impl; [exact Hws|]. intros w' Hw'. apply (word_chars w' Hw'). }
  exists (w ++ with_zeros ws ++ x :: r).
  destruct w as [|c0 w]; [by destruct Hw|]. apply Forall_cons in Hb as [Hb0 _]. cbn [app] in *. cbn [msh_exec].
  rewrite Hb0. simpl in Elen. rewrite (proj2 (Z.eqb_neq _ _)) by lia. by rewrite E.
Qed.

(** Pushing a line of any text *)
Lemma push_any s :
  length (cmd_history s) = 5%nat → 0 ≤ history_count s → line_position s ≤ 80 →
  wp shell_push_history (λ _ s', stat s' = stat s ∧ line s' = line s ∧ line_position s' = line_position s ∧ sh_calls s' = sh_calls s) s.
Proof.
  intros H5 Hn Hp. unfold shell_push_history, set_current, set_history. wp_simpl.
  destruct (negb (line_position s =? 0)); [|by wp_simpl].
  assert (history_row (line_position s) (line s) = Some (take (Z.to_nat (line_position s)) (line s) ++
    replicate (Z.to_nat (FINSH_CMD_SIZE - line_position s)) 0)) as Er
    by (unfold history_row; by rewrite bool_decide_eq_true_2).
  assert (∀ i, 0 ≤ i < 5 → ∃ b, same_row i s = Some b) as Hsame.
  { intros i Hi. unfold same_row. destruct (lookup_lt_is_Some_2 (cmd_history s) (Z.to_nat i)) as [row ->]; [lia|]. by eexists. }
  destruct (Z.leb_spec FINSH_HISTORY_LINES (history_count s)); unfold FINSH_HISTORY_LINES in *.
  - destruct (Hsame 4) as [b Eb]; [lia|]. change (5 - 1) with 4. rewrite Eb, Er. by destruct b; wp_simpl.
  - assert (∃ b, (if history_count s =? 0 then Some false else same_row (history_count s - 1) s) = Some b) as [b ->].
    { destruct (Z.eqb_spec (history_count s) 0); [by eexists|apply Hsame; lia]. }
    rewrite Er. by destruct b; wp_simpl.
Qed.
Lemma enter_words_run s w ws x r :
  table_ok table → stat s = WAIT_NORMAL → length (cmd_history s) = 5%nat → 0 ≤ history_count s →
  line s = w ++ with_blanks ws ++ x :: r → line_position s = Z.of_nat (length (w ++ with_blanks ws)) → line_position s ≤ 80 →
  Forall word (w :: ws) → (length (w :: ws) ≤ 10)%nat → find_cmd table w ≠ 0 →
  wp (finsh_key table CR) (λ _ s', sh_calls s' = sh_calls s ++
    [CallOf (find_cmd table w) (append_last (cstr (x :: r)) (w :: ws))]) s.
Proof.
  intros Ht Hs H5 Hn El Ep Hp Hws Hl Hf. unfold finsh_key. wp_simpl. rewrite Hs. unfold plain_key. simpl.
  unfold key_enter, add_call, set_line, set_positions. wp_simpl. eapply wp_mono; [by apply push_any|].
  intros [] s1 (_ & El1 & Ep1 & Ec1). wp_simpl. rewrite El1, El, Ep1.
  destruct (msh_exec_words w ws x r _ Ht Hws Hl Ep Hf) as [l' ->]. wp_simpl. simpl. by rewrite Ec1.
Qed.

Lemma with_blanks_typeable ws : Forall word ws → Forall (λ c, typeable c = true) (with_blanks ws).
Proof.
  induction 1 as [|w ws Hw _ IH]; [by constructor|]. unfold with_blanks in *. rewrite fmap_cons. cbn [concat].
  constructor; [done|]. apply Forall_app. split; [apply (word_chars w Hw)|done].
Qed.
Lemma full_words_run e s t w ws :
  table_ok table → represents e s → e_stat e = WAIT_NORMAL → nonzero t → length t = 80%nat →
  Forall word (w :: ws) → (length (w :: ws) ≤ 10)%nat → (length (join (w :: ws)) < 80)%nat → find_cmd table w ≠ 0 →
  wp (finsh_keys table (join (w :: ws) ++ [CR])) (λ _ s', sh_calls s' = sh_calls s ++
    [CallOf (find_cmd table w) (append_last (drop (length (join (w :: ws))) t) (w :: ws))]) (at_line s (t ++ [0]) 0).
Proof.
  intros Ht He Est Hz Hl Hws Hn H80 Hf. set (u := join (w :: ws)) in *.
  assert (stat s = WAIT_NORMAL) as Hs by (rewrite (re_stat _ _ He); done).
  assert (Forall (λ c, typeable c = true) u) as Hu.
  { apply Forall_cons in Hws as [Hw Hws]. apply Forall_app. split; [apply (word_chars w Hw)|by apply with_blanks_typeable]. }
  pose proof (type_over u [] (t ++ [0]) (at_line s (t ++ [0]) 0) Hu Hs eq_refl ltac:(simpl; lia) ltac:(simpl; lia)
    ltac:(rewrite length_app; simpl; lia) eq_refl eq_refl) as Etype.
  set (old := drop (length u) t).
  assert (drop (length u) (t ++ [0]) = old ++ [0]) as Eold by (unfold old; by rewrite drop_app_le by lia).
  assert (∃ x r, old ++ [0] = x :: r ∧ cstr (x :: r) = old) as (x & r & Ex & Ec).
  { assert (nonzero old) as Hzo by by apply Forall_drop.
    exists (default 0 (head (old ++ [0]))), (tail (old ++ [0])). assert (old ++ [0] = default 0 (head (old ++ [0])) :: tail (old ++ [0])) as E
      by by destruct old. rewrite <-E. split; [done|]. by apply cstr_app. }
  unfold wp. rewrite (finsh_keys_app _ [CR] _ _ Etype). fold (wp (finsh_keys table [CR])).
  unfold finsh_keys. cbn [for_each]. apply wp_bind.
  unfold wrap. rewrite (proj2 (Nat.ltb_lt _ _)) by (simpl; lia). rewrite Eold, Ex, <-Ec.
  eapply wp_mono.
  - apply (enter_words_run _ w ws x r Ht); try done; simpl.
    + destruct (re_history _ _ He) as (? & _ & ?). done.
    + rewrite (re_count _ _ He). lia.
    + unfold u. simpl. by rewrite <-app_assoc.
    + lia.
  - intros [] s' E. apply wp_ret. exact E.
Qed.

(** C30. When a line reaches 80 characters, the text [t], it begins again and keeps its text. Whatever was typed up to there, in
    whatever state of the editor, there are three ways from there off the line. Its end, when it began with blanks
    and has none behind them: msh_exec has counted the blanks off a length of 0 and the parser reads behind the line. A
    completion that leaves the text as it is sets the cursor to its end; one character and two deletions
    later memory from behind the line is moved. And a new line of words with the name of a command in front:
    the command is called, and its last argument goes on with the old text. *)
Theorem finsh_long_line_overruns e s chs t :
  table_ok table → represents e s → e_stat e = WAIT_NORMAL → e_cursor e = length (e_text e) →
  Forall (λ c, typeable c = true) chs → t = e_text e ++ chs → length t = 80%nat →
  (∀ k w, t = replicate k 32 ++ w → (0 < k)%nat → Forall (λ c, is_blank c = false) w →
     finsh_keys table (chs ++ [CR]) s = None) ∧
  (∀ ch, complete table t = t → typeable ch = true → finsh_keys table (chs ++ [TAB; ch; BS; BS]) s = None) ∧
  (∀ words w, let line := join (words ++ [w]) in
     Forall word (words ++ [w]) → (length words < 10)%nat → (length line < 80)%nat →
     let f := find_cmd table (default w (head words)) in f ≠ 0 →
     wp (finsh_keys table (chs ++ line ++ [CR])) (λ _ s',
       sh_calls s' = sh_calls s ++ [CallOf f (words ++ [w ++ drop (length line) t])]) s).
Proof.
  intros Ht He Est Ec Hchs Et Hl. destruct (full_line_run e s chs t He Est Ec Hchs Et Hl) as [Efull Hz].
  assert (stat s = WAIT_NORMAL) as Hs by (rewrite (re_stat _ _ He); done). split_and!.
  - intros k w Ew Hk Hw. rewrite (finsh_keys_app _ _ _ _ Efull). unfold finsh_keys. cbn [for_each]. unfold mbind, M_bind.
    rewrite (enter_empty_run (at_line s (t ++ [0]) 0) _ _ Hs eq_refl eq_refl eq_refl); [done|].
    assert (length t = k + length w)%nat as El by (by rewrite Ew, length_app, length_replicate).
    assert (u32 (0 - Z.of_nat k) = 4294967296 - Z.of_nat k) as Eu.
    { unfold u32. symmetry. apply (Z.mod_unique _ _ (-1)); lia. }
    simpl. rewrite Ew, <-app_assoc. apply msh_exec_off; rewrite ?Eu, ?length_app; simpl; try lia.
    + by destruct w.
    + apply Forall_app. split; [done|by constructor].
  - intros ch Hc Hch. rewrite (finsh_keys_app _ _ _ _ Efull). by apply full_tab_run.
  - intros words w u Hws Hn Hu f Hf. unfold wp. rewrite (finsh_keys_app _ _ _ _ Efull). fold (wp (finsh_keys table (u ++ [CR]))).
    assert (∃ w0 ws, words ++ [w] = w0 :: ws ∧ default w (head words) = w0) as (w0 & ws & Ews & E0).
    { destruct words as [|w0 words]; [by exists w, []|by exists w0, (words ++ [w])]. }
    unfold u, f in *. rewrite <-append_last_snoc, E0, Ews in *. eapply full_words_run; try done.
    apply (f_equal length) in Ews. rewrite length_app in Ews. simpl in *. lia.
Qed.
End overlong.
