(* ===== verification/ShellInput.v ===== *)
(** The shell behind a serial device: the thread of the shell waits on a semaphore that the
    receive interrupt releases, reads characters one by one and edits its line. Interrupt, serial
    framework, semaphore, scheduler and line editor together. *)
From S2P Require Import Prelude Kservice Mem KState Sched Object Timer Thread Ipc Sem MemPool DriverIpc DataQueue Completion Device Serial SerialRx Msh Shell.

Definition finsh_rx_ind `{CB : Callbacks} (rx_sem : Z) : K Z := rt_sem_release rx_sem;; mret RT_EOK.
(** finsh_rx_ind as the function that a device calls. *)
Class ShellIndicate `{CB : Callbacks} `{SC : SerialCallbacks} (rx_sem : Z) := {
  addr_finsh_rx_ind : Z;
  calls_finsh_rx_ind dev size : rx_indicate_fn addr_finsh_rx_ind dev size = finsh_rx_ind rx_sem
}.

Section shell_input.
Context `{CB : Callbacks} `{DC : DqCallbacks} `{SC : SerialCallbacks} {HW : Type} `{UO : !UartOps HW}.
(** The table of commands; the device of the shell and its semaphore, [&shell->rx_sem]. *)
Context (table : list finsh_syscall) (dev rx_sem : Z).
Context `{SI : !ShellIndicate rx_sem}.
Abbreviation SM := (M (sstate HW)).
Abbreviation istate := (sstate HW * finsh_shell)%type.
Abbreviation IM := (M istate).
Implicit Types (s : sstate HW) (sh : finsh_shell) (k : kernel).

(** rt_device_read on a serial device *)
Definition device_read (size : Z) : SM (Z * list Z) :=
  kcall (assert_device dev);;
  d ← kcall (device_at dev);
  if dev_ref_count d =? 0 then kcall (rt_set_errno (- RT_ERROR));; mret (0, []) else
  if is_fn (dev_read d) then
    RT_ASSERT (dev_read d =? addr_serial_read);;
    rt_serial_read dev size
  else kcall (rt_set_errno (- RT_ENOSYS));; mret (0, []).

(** The two halves of a round of finsh_getchar: a character or none; the thread when it has to wait. *)
Definition read_char : SM (option Z) :=
  r ← device_read 1;
  if r.1 =? 1 then ch ← lift (head r.2); mret (Some ch) else mret None.
Definition await_char : SM (option Z) :=
  w ← kcall (rt_sem_take rx_sem RT_WAITING_FOREVER);
  mret (match w with Wait t => Some t | Ret _ => None end).
(** A character, or the thread that waits for one. Each round that does not wait takes one off the value
    of the semaphore. *)
Fixpoint finsh_getchar (fuel : nat) : SM (call Z Z) :=
  match fuel with
  | O => fail
  | S fuel =>
      c ← read_char;
      match c with
      | Some ch => mret (Ret ch)
      | None => w ← await_char; match w with Some t => mret (Wait t) | None => finsh_getchar fuel end
      end
  end.

Definition in_device {A} (m : SM A) : IM A := λ x, match m x.1 with Some (r, s) => Some (r, (s, x.2)) | None => None end.
Definition in_shell {A} (m : Sh A) : IM A := λ x, match m x.2 with Some (r, sh) => Some (r, (x.1, sh)) | None => None end.
(** The rest of the body of the loop of finsh_thread_entry *)
Definition handle_char (ch : Z) : IM unit := when (negb (ch <? 0)) (in_shell (finsh_key table ch)).
(** The loop of finsh_thread_entry up to the point where it waits; [chars] bounds the characters and
    [fuel] the value of the semaphore. *)
Fixpoint finsh_loop (fuel chars : nat) : IM Z :=
  match chars with
  | O => fail
  | S chars =>
      c ← in_device (finsh_getchar fuel);
      match c with Wait t => mret t | Ret ch => handle_char ch;; finsh_loop fuel chars end
  end.

(** ** The shell among interrupts and other threads *)

(** Between its calls, where interrupts come, the thread is about to read, about to take the semaphore
    because there was nothing to read, or in rt_sem_take. *)
Inductive phase := Reading | Taking | Asleep.
Definition shell_step (t : Z) (p : phase) : IM phase :=
  match p with
  | Reading =>
      c ← in_device read_char;
      match c with Some ch => handle_char ch;; mret Reading | None => mret Taking end
  | Taking => w ← in_device await_char; mret (match w with Some _ => Asleep | None => Reading end)
  | Asleep => in_device (kcall (rt_sem_take_resume t));; mret Reading
  end.

(** * Properties *)

#[local] Hint Rewrite @wp_kcall @wp_ops : wp.
Lemma wp_in_device {A} (m : SM A) (Q : A → istate → Prop) x :
  wp (in_device m) Q x ↔ wp m (λ r s, Q r (s, x.2)) x.1.
Proof. unfold wp, in_device. by destruct (m x.1) as [[??]|]. Qed.
Lemma wp_in_shell {A} (m : Sh A) (Q : A → istate → Prop) x :
  wp (in_shell m) Q x ↔ wp m (λ r sh, Q r (x.1, sh)) x.2.
Proof. unfold wp, in_shell. by destruct (m x.2) as [[??]|]. Qed.
#[local] Hint Rewrite @wp_in_device @wp_in_shell : wp.

(** The device of the shell: open, a serial device, with finsh_rx_ind to be called. *)
Record shell_device (d : rt_device) k : Prop := {
  sd_ok : dev_ok dev d k;
  sd_refs : dev_ref_count d ≠ 0;
  sd_read : dev_read d = addr_serial_read ∧ addr_serial_read ≠ 0;
  sd_indicate : dev_rx_indicate d = addr_finsh_rx_ind ∧ addr_finsh_rx_ind ≠ 0
}.
(** What the shell and its interrupt need of the kernel: [v] is the value of the semaphore. *)
Record shell_kernel (d : rt_device) (v : Z) k : Prop := {
  sk_inv : kinv 0 k;
  sk_device : shell_device d k;
  sk_sem : sem_ok rx_sem v k;
  sk_nest : interrupt_nest k = 0
}.

(** ** Moves of the kernel *)

(** What other threads may do while the thread [t] of the shell is not the one that runs. *)
Record others_ran (t : Z) k k' : Prop := {
  or_inv : kinv 0 k';
  or_thread th : threads k !! t = Some th →
    ∃ th', threads k' !! t = Some th' ∧ stat_of th' = stat_of th ∧ th_error th' = th_error th;
  or_device : devices k' !! dev = devices k !! dev;
  or_objects : objects k' !! Obj dev = objects k !! Obj dev ∧ objects k' !! Obj rx_sem = objects k !! Obj rx_sem;
  or_sem : sems k' !! rx_sem = sems k !! rx_sem;
  or_list : tl (LSuspend rx_sem) k' = tl (LSuspend rx_sem) k;
  or_nest : interrupt_nest k' = 0
}.
Lemma rx_open_move n q k' s :
  rx_open dev n q s → devices k' !! dev = devices (s_kernel s) !! dev → rx_open dev n q (put_kernel k' s).
Proof.
  intros [(x & a & f & d & Hr & ? & ? & ? & Hd) Hint] E. rewrite Hd in E. split.
  - exists x, a, f, d. split_and!; try done. by destruct Hr.
  - eapply wp_dev_has; [exact E|]. split; [|done]. revert Hint. unfold dev_has. wp_simpl.
    unfold wp, device_at, deref. simpl. rewrite Hd. simpl. by intros [-> _].
Qed.
Lemma shell_device_move d k k' :
  shell_device d k → devices k' !! dev = devices k !! dev → objects k' !! Obj dev = objects k !! Obj dev →
  shell_device d k'.
Proof. intros [[? ? Ho ?] ? ? ?] Ed Eo. constructor; try done. constructor; rewrite ?Ed, ?Eo; done. Qed.
Lemma shell_kernel_others t d v k k' : shell_kernel d v k → others_ran t k k' → shell_kernel d v k'.
Proof.
  intros [Hk Hd [Hv Hr Hi Ho] Hn] [? ? ? [? Eo] Es El ?]. constructor; [done|by eapply shell_device_move| |done].
  constructor; rewrite ?Es, ?El, ?Eo; done.
Qed.
(** A move of threads by the kernel. *)
Lemma shell_kernel_moved d v k k' :
  shell_kernel d v k → kinv 0 k' → iframe k k' → same_objects k k' → (0 < v → tl (LSuspend rx_sem) k' = []) →
  shell_kernel d v k'.
Proof.
  intros [Hk Hd Hs Hn] Hk' Hf (_ & _ & Eo) Hi.
  constructor; [done|apply (shell_device_move d k); [done|by rewrite (if_devices _ _ Hf)|done]| |by rewrite (if_nest _ _ Hf)].
  apply (sem_ok_move rx_sem v k); [done|apply Hf|done|done].
Qed.

(** ** finsh_getchar is made of these steps *)

Inductive shell_run (t : Z) : phase → istate → phase → istate → Prop :=
  | run_none p x : shell_run t p x p x
  | run_step p x p1 x1 p2 x2 :
      shell_step t p x = Some (p1, x1) → shell_run t p1 x1 p2 x2 → shell_run t p x p2 x2.
Lemma finsh_getchar_steps t fuel s r s' sh :
  finsh_getchar fuel s = Some (r, s') →
  match r with
  | Wait _ => shell_run t Reading (s, sh) Asleep (s', sh)
  | Ret ch => ∀ sh' p x, handle_char ch (s', sh) = Some (tt, (s', sh')) →
      shell_run t Reading (s', sh') p x → shell_run t Reading (s, sh) p x
  end.
Proof.
  revert s. induction fuel as [|fuel IH]; intros s; [done|]. simpl. unfold mbind, M_bind, mret, M_ret.
  destruct (read_char s) as [[[ch|] s1]|] eqn:E1; [| |done].
  - intros [= <- <-] sh' p x Hh Hrun. eapply run_step; [|exact Hrun]. simpl. unfold mbind, M_bind, in_device at 1.
    simpl. rewrite E1. by rewrite Hh.
  - assert (shell_step t Reading (s, sh) = Some (Taking, (s1, sh))) as H1.
    { simpl. unfold mbind, M_bind, in_device. simpl. by rewrite E1. }
    destruct (await_char s1) as [[[u|] s2]|] eqn:E2; [| |done].
    + intros [= <- <-]. eapply run_step; [exact H1|]. eapply run_step; [|apply run_none].
      simpl. unfold mbind, M_bind, in_device. simpl. by rewrite E2.
    + intros Hr. specialize (IH _ Hr).
      assert (shell_step t Taking (s1, sh) = Some (Reading, (s2, sh))) as H2.
      { simpl. unfold mbind, M_bind, in_device. simpl. by rewrite E2. }
      destruct r; intros; (eapply run_step; [exact H1|]; eapply run_step; [exact H2|]); eauto.
Qed.
Lemma finsh_loop_steps t fuel chars x u x' :
  finsh_loop fuel chars x = Some (u, x') → shell_run t Reading x Asleep x'.
Proof.
  revert x. induction chars as [|chars IH]; intros [s sh]; [done|]. simpl. unfold mbind, M_bind, mret, M_ret.
  unfold in_device at 1. simpl. destruct (finsh_getchar fuel s) as [[r s1]|] eqn:E1; [|done].
  pose proof (finsh_getchar_steps t fuel s r s1 sh E1) as Hg. destruct r as [ch|w]; [|by intros [= <- <-]].
  destruct (handle_char ch (s1, sh)) as [[[] [s2 sh2]]|] eqn:E2; [|done].
  assert (s2 = s1) as ->.
  { revert E2. unfold handle_char, when, in_shell. destruct (negb _); [|by intros [= <- <-]]. simpl.
    destruct (finsh_key _ _ _) as [[[] ?]|]; [|done]. by intros [= <- <-]. }
  intros Hl. eapply Hg; [done|]. by eapply IH.
Qed.

(** ** The system *)

(** The thread, the kernel and the devices, and what arrived and was asked for so far. *)
Record sys := Sys { y_phase : phase; y_dev : sstate HW; y_shell : finsh_shell; y_trace : list (rx_event (HW:=HW)) }.
Definition read_of (p : phase) : list (rx_event (HW:=HW)) := match p with Reading => [Take 1] | _ => [] end.
(** A receive interrupt; anything that the rest of the system does; a step of the shell when it is its turn. *)
Inductive sys_step (t : Z) (mem : Z → Z → list Z) : sys → sys → Prop :=
  | sys_irq p s sh tr hw cs hw' s' :
      drains dev hw cs hw' →
      rt_hw_serial_isr (S (length cs)) mem dev RT_SERIAL_EVENT_RX_IND (put_hw hw s) = Some (tt, s') →
      sys_step t mem (Sys p s sh tr) (Sys p s' sh (tr ++ [Arrive hw cs]))
  | sys_others p s sh tr k' :
      others_ran t (s_kernel s) k' →
      sys_step t mem (Sys p s sh tr) (Sys p (put_kernel k' s) sh tr)
  | sys_shell p s sh tr p' s' sh' :
      (∃ th, running t th (s_kernel s)) → other_ready t (s_kernel s) →
      shell_step t p (s, sh) = Some (p', (s', sh')) →
      sys_step t mem (Sys p s sh tr) (Sys p' s' sh' (tr ++ read_of p)).

(** The characters the shell has got, and those that are to come, by the queue of the device. *)
Definition heard (n : Z) (y : sys) : list Z := concat (queue_run n (y_trace y) []).1.
Definition unread (n : Z) (y : sys) : list Z := (queue_run n (y_trace y) []).2.
(** The characters that arrived, and whether some of them found the buffer full. *)
Definition arrivals (es : list (rx_event (HW:=HW))) : list Z :=
  concat ((λ e, match e with Arrive _ cs => u8 <$> cs | Take _ => [] end) <$> es).
Fixpoint overrun (n : Z) (es : list (rx_event (HW:=HW))) (q : list Z) : bool :=
  match es with
  | [] => false
  | e :: es =>
      (match e with Arrive _ cs => n - 1 <? Z.of_nat (length q + length cs) | Take _ => false end) ||
      overrun n es (queue_do n e q).2
  end.
(** In [Taking] and in its sleep the thread does not miss characters: the semaphore
    counts them or the interrupt has woken it. *)
Definition attentive (t v : Z) (q : list Z) (p : phase) (th : rt_thread) (l : list Z) : Prop :=
  match p with
  | Reading => l = [] ∧ stat_of th = RT_THREAD_READY
  | Taking => l = [] ∧ stat_of th = RT_THREAD_READY ∧ (q ≠ [] → 0 < v)
  | Asleep => th_error th = RT_EOK ∧
      ((l = [t] ∧ stat_of th = RT_THREAD_SUSPEND ∧ q = []) ∨ (l = [] ∧ stat_of th = RT_THREAD_READY))
  end.
Record sys_inv (t n : Z) (d : rt_device) (sh0 : finsh_shell) (y : sys) : Prop := {
  yi_open : rx_open dev n (unread n y) (y_dev y);
  yi_shell : finsh_keys table (heard n y) sh0 = Some (tt, y_shell y);
  yi_kernel : ∃ v th, shell_kernel d v (s_kernel (y_dev y)) ∧ threads (s_kernel (y_dev y)) !! t = Some th ∧
    attentive t v (unread n y) (y_phase y) th (tl (LSuspend rx_sem) (s_kernel (y_dev y)))
}.

Lemma queue_run_snoc (n : Z) es (e : rx_event (HW:=HW)) q :
  queue_run n (es ++ [e]) q =
    ((queue_run n es q).1 ++ [(queue_do n e (queue_run n es q).2).1], (queue_do n e (queue_run n es q).2).2).
Proof. revert q. induction es as [|e' es IH]; intros q; simpl; [done|]. by rewrite IH. Qed.
(** What is taken and what is left is what was there and arrived, less what was lost. *)
Lemma queue_run_sublist (n : Z) (es : list (rx_event (HW:=HW))) q :
  concat (queue_run n es q).1 ++ (queue_run n es q).2 `sublist_of` q ++ arrivals es.
Proof.
  revert q. induction es as [|e es IH]; intros q; simpl; [by rewrite app_nil_r|].
  unfold arrivals. rewrite fmap_cons. cbn [concat]. fold (arrivals es). destruct e as [hw cs|size]; simpl.
  - etrans; [apply IH|]. rewrite app_assoc. apply sublist_app; [|done]. apply sublist_drop.
  - rewrite <-(take_drop (Z.to_nat size) q) at 4. rewrite <-!app_assoc. by apply sublist_app.
Qed.
Lemma queue_run_all (n : Z) (es : list (rx_event (HW:=HW))) q :
  overrun n es q = false → concat (queue_run n es q).1 ++ (queue_run n es q).2 = q ++ arrivals es.
Proof.
  revert q. induction es as [|e es IH]; intros q; simpl; [by rewrite app_nil_r|].
  intros [He Ho]%orb_false_iff. unfold arrivals. rewrite fmap_cons. cbn [concat]. fold (arrivals es).
  destruct e as [hw cs|size]; simpl in *.
  - rewrite IH by done. apply Z.ltb_ge in He.
    rewrite lastn_all by (rewrite length_app, length_fmap; lia). by rewrite app_assoc.
  - rewrite <-app_assoc, IH by done. by rewrite app_assoc, take_drop.
Qed.
Lemma finsh_keys_snoc l ch sh0 sh sh' :
  finsh_keys table l sh0 = Some (tt, sh) → finsh_key table ch sh = Some (tt, sh') →
  finsh_keys table (l ++ [ch]) sh0 = Some (tt, sh').
Proof.
  unfold finsh_keys. revert sh0. induction l as [|c l IH]; intros sh0; simpl; unfold mbind, M_bind, mret, M_ret.
  - intros [= ->] ->. done.
  - destruct (finsh_key table c sh0) as [[[] sh1]|]; [|done]. eauto.
Qed.
Lemma rx_open_nonneg n q s : rx_open dev n q s → Forall (λ c, 0 ≤ c) q.
Proof.
  intros [(x & a & f & d & [_ _ Hf _] & <- & _ & <- & _) _]. unfold contents. apply Forall_forall.
  intros c (i & -> & _)%list_elem_of_fmap. destruct (rx_buffer f !! _) as [b|] eqn:E; [|done]. simpl.
  apply (Forall_lookup_1 _ _ _ _ (fo_bytes _ _ Hf) E).
Qed.

Lemma running_of t th k : running t th k → threads k !! t = Some th ∧ stat_of th = RT_THREAD_READY.
Proof. by intros []. Qed.
Lemma rx_ind_run t d v th k :
  shell_kernel d v k → threads k !! t = Some th →
  (tl (LSuspend rx_sem) k = [] ∨ tl (LSuspend rx_sem) k = [t]) →
  wp (finsh_rx_ind rx_sem) (λ _ k', ∃ v' th', shell_kernel d v' k' ∧ threads k' !! t = Some th' ∧
    devices k' = devices k ∧ tl (LSuspend rx_sem) k' = [] ∧ th_error th' = th_error th ∧
    (if bool_decide (tl (LSuspend rx_sem) k = []) then 0 < v' ∧ th' = th else stat_of th' = RT_THREAD_READY)) k.
Proof using Type.
  intros Hsk Hth Hl. pose proof Hsk as [Hk Hd Hs Hn]. unfold finsh_rx_ind. wp_simpl.
  destruct Hl as [El|El].
  - rewrite El. simpl. pose proof (so_range _ _ _ Hs). unfold rt_sem_release, sem_value, set_sem_value.
    destruct (so_object _ _ _ Hs) as (o & Ho & Hc & _). wp_simpl. eapply assert_class_run; [done..|]. wp_simpl.
    rewrite El. simpl. wp_simpl. eapply wp_deref; [apply Hs|]. wp_simpl.
    destruct (Z.ltb_spec v RT_SEM_VALUE_MAX); wp_simpl.
    + exists (v + 1), th. split_and!; try done; [|lia]. constructor; [by apply kinv_sems| |by apply (sem_ok_value _ v); [done|lia|]|done].
      by apply (shell_device_move d k).
    + exists v, th. split_and!; try done. unfold RT_SEM_VALUE_MAX, RT_UINT16_MAX in *. lia.
  - rewrite El. simpl. assert (v = 0) as ->.
    { destruct (Z_lt_le_dec 0 v) as [Hv%(so_idle _ _ _ Hs)|]; [congruence|]. pose proof (so_range _ _ _ Hs). lia. }
    destruct (rt_sem_release_wake_run 0 k rx_sem t [] Hk Hs El) as (th0 & Hth0 & _ & Hw). simplify_eq.
    eapply wp_mono; [exact Hw|]. intros r k' (_ & Hs' & Hk' & El' & Eth & _ & Hf & Ho & _). wp_simpl.
    exists 0, (with_stat RT_THREAD_READY th). split_and!; try done.
    + by apply (shell_kernel_moved d 0 k).
    + by rewrite Eth, lookup_insert_eq.
    + apply Hf.
    + by apply stat_of_with_stat.
Qed.

(** ** Every step keeps the shell attentive *)

Lemma rx_open_flag n q d s :
  devices (s_kernel s) !! dev = Some d →
  rx_open dev n q s ↔ buffered dev n q s ∧ has_flag (dev_open_flag d) RT_DEVICE_FLAG_INT_RX = true.
Proof.
  intros Hd. unfold rx_open, dev_has. wp_simpl. unfold wp, device_at, deref. simpl. rewrite Hd. simpl.
  split; intros [? H]; (split; [done|]); [by destruct H|]. split; [done|]. by destruct s.
Qed.
Lemma sys_irq_run t n d sh0 mem p s sh tr hw cs hw' :
  sys_inv t n d sh0 (Sys p s sh tr) → drains dev hw cs hw' →
  wp (rt_hw_serial_isr (S (length cs)) mem dev RT_SERIAL_EVENT_RX_IND)
     (λ _ s', sys_inv t n d sh0 (Sys p s' sh (tr ++ [Arrive hw cs]))) (put_hw hw s).
Proof using SI.
  intros [Hq Hsh (v & th & Hk & Hth & Ha)] Hdr. unfold heard, unread in *. simpl in *.
  set (q := (queue_run n tr []).2) in *. set (q' := lastn (Z.to_nat (n - 1)) (q ++ (u8 <$> cs))).
  pose proof Hk as [Hki [Hdok Href Hread Hind] Hs Hn]. pose proof (do_device _ _ _ Hdok) as Hd.
  pose proof Hq as [Hb Hflag]%(rx_open_flag n q d); [|done].
  set (P := λ k', ∃ v' th', shell_kernel d v' k' ∧ threads k' !! t = Some th' ∧
    attentive t v' q' p th' (tl (LSuspend rx_sem) k')).
  assert (tl (LSuspend rx_sem) (s_kernel s) = [] ∨ tl (LSuspend rx_sem) (s_kernel s) = [t]) as Hl
    by (destruct p; simpl in Ha; naive_solver).
  pose proof (arrive_wp dev n q d P mem hw cs hw' (S (length cs)) s Hb Hd Hdr ltac:(lia)) as Hw.
  cbv zeta in Hw. rewrite wp_bind, wp_modify in Hw. eapply wp_mono; [apply Hw|].
  - clear Hw. fold q'. destruct Hind as [Ei Hnz]. rewrite Ei. unfold is_fn. rewrite (proj2 (Z.eqb_neq _ _) Hnz). simpl.
    case_bool_decide as Eq; simpl.
    + unfold P. exists v, th. split_and!; [done..|]. rewrite Eq. destruct p; simpl in *; naive_solver.
    + intros len. rewrite calls_finsh_rx_ind. eapply wp_mono; [by apply (rx_ind_run t d v th)|].
      intros r k' (v' & th' & Hk' & Hth' & Ed & El & Ee & Hv). split; [|by rewrite Ed].
      unfold P. exists v', th'. split_and!; [done..|]. rewrite El. case_bool_decide as El0.
      * destruct Hv as [Hv ->]. rewrite El0 in Ha. destruct p; simpl in *.
        -- by destruct Ha.
        -- by destruct Ha as (_ & ? & _).
        -- destruct Ha as [? [(? & _)|[_ ?]]]; [done|]. split; [done|by right].
      * destruct p; simpl in *; [by destruct Ha as [? _]..|].
        destruct Ha as [? _]. rewrite Ee. split; [done|by right].
  - intros [] s' (Hb' & (v' & th' & Hk' & Hth' & Ha') & _ & Hd').
    assert (queue_run n (tr ++ [Arrive hw cs]) [] = ((queue_run n tr []).1 ++ [[]], q')) as Eq
      by by rewrite queue_run_snoc.
    constructor; unfold heard, unread; simpl; rewrite ?Eq; simpl.
    + by apply (rx_open_flag n q' d).
    + by rewrite concat_app, app_nil_r.
    + by exists v', th'.
Qed.

Lemma device_read_run n q d v size s :
  shell_kernel d v (s_kernel s) → rx_open dev n q s → 0 ≤ size →
  wp (device_read size) (λ r s', r = (Z.of_nat (length (take (Z.to_nat size) q)), take (Z.to_nat size) q) ∧
    rx_open dev n (drop (Z.to_nat size) q) s' ∧ s_kernel s' = s_kernel s) s.
Proof using Type.
  intros [_ [Hdok Href [Hread Hnz] _] _ _] Hq Hsize. unfold device_read. wp_simpl.
  assert (put_kernel (s_kernel s) s = s) as Es by by destruct s.
  eapply assert_device_run; [done|]. wp_simpl. eapply wp_device_at; [apply Hdok|]. rewrite ?Es.
  rewrite (proj2 (Z.eqb_neq _ _) Href), Hread. unfold is_fn. rewrite (proj2 (Z.eqb_neq _ _) Hnz). simpl. wp_simpl.
  split; [apply Z.eqb_refl|]. rewrite ?Es. apply read_int_run; [apply Hdok|done|done].
Qed.
Lemma read_char_run n q d v s :
  shell_kernel d v (s_kernel s) → rx_open dev n q s →
  wp read_char (λ c s', c = head q ∧ rx_open dev n (drop 1 q) s' ∧ s_kernel s' = s_kernel s) s.
Proof using Type.
  intros Hk Hq. unfold read_char. wp_simpl. eapply wp_mono; [by apply (device_read_run n q d v 1)|].
  intros r s' (-> & Hq' & Ek). destruct q as [|c q]; simpl in *; by wp_simpl.
Qed.
Lemma await_char_run t th d v s :
  shell_kernel d v (s_kernel s) → tl (LSuspend rx_sem) (s_kernel s) = [] →
  running t th (s_kernel s) → other_ready t (s_kernel s) →
  wp await_char (λ w s', ∃ v' th' k', s' = put_kernel k' s ∧ shell_kernel d v' k' ∧ devices k' = devices (s_kernel s) ∧
    threads k' !! t = Some th' ∧
    if 0 <? v then w = None ∧ th' = th ∧ tl (LSuspend rx_sem) k' = []
    else w = Some t ∧ th_error th' = RT_EOK ∧ stat_of th' = RT_THREAD_SUSPEND ∧ tl (LSuspend rx_sem) k' = [t]) s.
Proof using Type.
  intros Hk El Hrun Hother. pose proof Hk as [Hki Hd Hs Hn]. pose proof (so_range _ _ _ Hs) as Hv.
  unfold await_char. wp_simpl. destruct (Z.ltb_spec 0 v) as [Hv0|Hv0].
  - unfold rt_sem_take, sem_value, set_sem_value. destruct (so_object _ _ _ Hs) as (o & Ho & Hc & _). wp_simpl.
    eapply assert_class_run; [done..|]. wp_simpl. eapply wp_deref; [apply Hs|].
    rewrite (proj2 (Z.ltb_lt _ _) Hv0). wp_simpl. eexists (v - 1), th, _. split; [done|]. split_and!; try done; [|by destruct Hrun].
    constructor; [by apply kinv_sems|by apply (shell_device_move d (s_kernel s))|apply (sem_ok_value _ v); [done|lia|done]|done].
  - assert (v = 0) as -> by lia. destruct Hrun as [_ Hcur Hth Hst].
    eapply wp_mono; [apply (rt_sem_take_block_run 0 (s_kernel s) rx_sem t th); try done; lia|].
    intros r k' (-> & Hs' & Hk' & Eth & (l1 & l2 & E1 & E2 & _) & _ & Hf & Hso & _). wp_simpl.
    rewrite El in E1. destruct l1, l2; try done. simpl in E2. eexists 0, _, k'. split; [done|]. split_and!.
    + apply (shell_kernel_moved d 0 (s_kernel s)); [done..|lia].
    + apply Hf.
    + rewrite Eth. apply lookup_insert_eq.
    + done.
    + done.
    + by apply stat_of_with_stat.
    + done.
Qed.

Lemma shell_step_run t n d sh0 p s sh tr :
  sys_inv t n d sh0 (Sys p s sh tr) → (∃ th, running t th (s_kernel s)) → other_ready t (s_kernel s) →
  let q := (queue_run n tr []).2 in
  wp (shell_step t p) (λ p' x', sys_inv t n d sh0 (Sys p' x'.1 x'.2 (tr ++ read_of p))) (s, sh) ∨
  (p = Reading ∧ shell_step t p (s, sh) = None ∧ ∃ ch, head q = Some ch ∧ finsh_key table ch sh = None).
Proof using SI.
  intros [Hq Hsh (v & th & Hk & Hth & Ha)] [th0 Hrun] Hother q. unfold heard, unread in *. simpl in *.
  pose proof (running_of _ _ _ Hrun) as [Hth0 Hst]. simplify_eq. fold q in Hq, Ha. destruct p; simpl in Ha.
  - destruct Ha as [El _]. pose proof (read_char_run n q d v s Hk Hq) as (c & s1 & Er & -> & Hq1 & Ek)%wp_inv.
    assert (queue_run n (tr ++ [Take 1]) [] = ((queue_run n tr []).1 ++ [take 1 q], drop 1 q)) as Eqr
      by by rewrite queue_run_snoc.
    pose proof (rx_open_nonneg n q s Hq) as Hpos. destruct q as [|ch q'] eqn:Eq.
    + left. simpl. wp_simpl. simpl. rewrite (wp_run _ _ _ _ _ Er). simpl. wp_simpl. simpl in *.
      constructor; unfold heard, unread; simpl; rewrite ?Eqr; simpl; [done| |].
      * by rewrite concat_app, app_nil_r.
      * rewrite Ek. exists v, th. by split_and!.
    + destruct (finsh_key table ch sh) as [[[] sh1]|] eqn:Ekey.
      * left. simpl. wp_simpl. simpl. rewrite (wp_run _ _ _ _ _ Er). simpl. wp_simpl. unfold handle_char.
        apply Forall_cons in Hpos as [Hpos _]. rewrite (proj2 (Z.ltb_ge ch 0)) by done. simpl. wp_simpl. simpl.
        rewrite (wp_run _ _ _ _ _ Ekey). wp_simpl. simpl.
        constructor; unfold heard, unread; simpl; rewrite ?Eqr; simpl; [done| |].
        -- rewrite concat_app. simpl. rewrite ?app_nil_r. by eapply finsh_keys_snoc.
        -- rewrite Ek. exists v, th. by split_and!.
      * right. split; [done|]. split; [|by exists ch]. simpl. unfold mbind, M_bind, in_device at 1. simpl. rewrite Er. simpl.
        unfold handle_char. apply Forall_cons in Hpos as [Hpos _]. rewrite (proj2 (Z.ltb_ge ch 0)) by done. simpl.
        unfold in_shell. simpl. by rewrite Ekey.
  - left. destruct Ha as (El & _ & Hv). simpl. wp_simpl. simpl.
    eapply wp_mono; [by apply (await_char_run t th d v)|].
    intros w s' (v' & th' & k' & -> & Hk' & Ed & Hth' & Hw). wp_simpl. simpl. rewrite app_nil_r.
    assert (rx_open dev n q (put_kernel k' s)) as Hq' by (apply rx_open_move; [done|by rewrite Ed]).
    destruct (Z.ltb_spec 0 v) as [Hv0|Hv0].
    + destruct Hw as (-> & -> & El'). constructor; unfold heard, unread; simpl; [done..|]. by exists v', th.
    + destruct Hw as (-> & Ee & Hs & El'). constructor; unfold heard, unread; simpl; [done..|]. exists v', th'.
      split_and!; [done..|]. left. split_and!; [done..|]. fold q. destruct q; [done|]. exfalso. by lapply Hv; [lia|].
  - left. simpl. wp_simpl. simpl. unfold rt_sem_take_resume. wp_simpl.
    eapply wp_thread_at; [done|]. simpl. destruct Ha as [-> Ha]. simpl. wp_simpl. simpl. rewrite app_nil_r.
    assert (put_kernel (s_kernel s) s = s) as -> by by destruct s.
    constructor; unfold heard, unread; simpl; [done..|]. exists v, th. split_and!; [done..| |done].
    destruct Ha as [(_ & Hs & _)|[? _]]; [by rewrite Hst in Hs|done].
Qed.
Lemma sys_step_inv t n d sh0 mem y y' : sys_inv t n d sh0 y → sys_step t mem y y' → sys_inv t n d sh0 y'.
Proof using SI.
  intros Hy Hstep. destruct Hstep as [p s sh tr hw cs hw' s' Hdr E|p s sh tr k' Ho|p s sh tr p' s' sh' Hrun Hother E].
  - pose proof (sys_irq_run t n d sh0 mem p s sh tr hw cs hw' Hy Hdr) as Hw. by rewrite (wp_run _ _ _ _ _ E) in Hw.
  - destruct Hy as [Hq Hsh (v & th & Hk & Hth & Ha)]. unfold heard, unread in *. simpl in *.
    destruct (or_thread _ _ _ Ho _ Hth) as (th' & Hth' & Es & Ee).
    constructor; unfold heard, unread; simpl; [|done|].
    + apply rx_open_move; [done|apply Ho].
    + exists v, th'. split; [by eapply shell_kernel_others|]. split; [done|].
      rewrite (or_list _ _ _ Ho). destruct p; simpl in *; by rewrite ?Es, ?Ee.
  - destruct (shell_step_run t n d sh0 p s sh tr Hy Hrun Hother) as [Hw|(_ & E' & _)]; [|congruence].
    by rewrite (wp_run _ _ _ _ _ E) in Hw.
Qed.
Lemma sys_steps_inv t n d sh0 mem y y' :
  sys_inv t n d sh0 y → rtc (sys_step t mem) y y' → sys_inv t n d sh0 y'.
Proof using SI. intros Hy Hr. induction Hr as [|y y1 y' Hs Hr IH]; [done|]. by eapply IH, sys_step_inv. Qed.

(** C32. In whatever order interrupts, other threads and the steps of the shell come: the line editor has
    been given the characters [heard]; these and the unread ones are characters that arrived, none twice and
    in their order, and all that arrived if none found the buffer of [n] bytes full with [n - 1] (of those that
    do, the newest are kept); the thread is suspended only while nothing is unread; and whenever the
    thread has the CPU and the line editor is defined for the next unread character (see
    [finsh_shell_edits] for lines of at most 79 characters), its next step is defined. *)
Theorem finsh_never_deaf t n d sh0 mem s y :
  rx_open dev n [] s → (∃ v, shell_kernel d v (s_kernel s)) → tl (LSuspend rx_sem) (s_kernel s) = [] →
  (∃ th, threads (s_kernel s) !! t = Some th ∧ stat_of th = RT_THREAD_READY) →
  rtc (sys_step t mem) (Sys Reading s sh0 []) y →
  finsh_keys table (heard n y) sh0 = Some (tt, y_shell y) ∧
  heard n y ++ unread n y `sublist_of` arrivals (y_trace y) ∧
  (overrun n (y_trace y) [] = false → heard n y ++ unread n y = arrivals (y_trace y)) ∧
  rx_open dev n (unread n y) (y_dev y) ∧
  (∃ th, threads (s_kernel (y_dev y)) !! t = Some th ∧
     (stat_of th = RT_THREAD_READY ∨ stat_of th = RT_THREAD_SUSPEND ∧ unread n y = [])) ∧
  ((∃ th, running t th (s_kernel (y_dev y))) → other_ready t (s_kernel (y_dev y)) →
   (∀ ch, head (unread n y) = Some ch → is_Some (finsh_key table ch (y_shell y))) →
   is_Some (shell_step t (y_phase y) (y_dev y, y_shell y))).
Proof using SI.
  intros Hq [v Hk] El (th & Hth & Hst) Hr.
  assert (sys_inv t n d sh0 (Sys Reading s sh0 [])) as H0 by (constructor; [done|done|by exists v, th]).
  pose proof (sys_steps_inv _ _ _ _ _ _ _ H0 Hr) as Hy. pose proof Hy as [Hq1 Hsh1 (v1 & th1 & Hk1 & Hth1 & Ha)].
  split_and!; [done|apply (queue_run_sublist n (y_trace y) [])|apply (queue_run_all n (y_trace y) [])|done| |].
  - exists th1. split; [done|]. destruct (y_phase y); simpl in Ha; naive_solver.
  - intros Hrun Hother Hkey. destruct y as [p s1 sh1 tr].
    destruct (shell_step_run t n d sh0 p s1 sh1 tr Hy Hrun Hother) as [(p' & x' & E & _)%wp_inv|(-> & _ & ch & Ech & E)]; [by eexists|].
    destruct (Hkey ch Ech) as [x' E']. simpl in E'. congruence.
Qed.
End shell_input.
