(* ===== verification/Checks.v ===== *)
(** Decision procedures for the invariants: a finite kernel is checked by
    computation, so that concrete systems can be shown to satisfy them. *)
From Stdlib Require Import Sorting.Sorted.
From S2P Require Import Prelude Kservice Mem KState Sched Object Timer Thread.

#[global] Instance readable_dec n s : Decision (readable n s).
Proof.
  revert s. induction n as [|n IH]; intros s; simpl; [apply _|].
  destruct s as [|c s]; [apply _|]. specialize (IH s). apply _.
Defined.
#[global] Instance name_ok_dec n : Decision (name_ok n).
Proof. unfold name_ok, is_bytes. apply _. Defined.
#[global] Instance list_fits_dec h th : Decision (list_fits h th).
Proof. destruct h; simpl; apply _. Defined.
#[global] Instance stack_ok_dec th : Decision (stack_ok th).
Proof. unfold stack_ok. apply _. Defined.

(** * The scheduler *)

Definition thread_fin (th : rt_thread) : Prop :=
  0 ≤ th_current_priority th < RT_THREAD_PRIORITY_MAX ∧
  0 ≤ th_init_priority th < RT_THREAD_PRIORITY_MAX ∧
  (stat_of th = RT_THREAD_INIT ∨ th_number_mask th = 2 ^ th_current_priority th) ∧
  0 ≤ th_stat th < 256 ∧ stack_ok th.
#[global] Instance thread_fin_dec th : Decision (thread_fin th).
Proof. unfold thread_fin. apply _. Defined.
Lemma thread_fin_ok th : thread_fin th → thread_ok th.
Proof. intros (?&?&?&?&?). constructor; naive_solver. Qed.

(** What is asked of the list [l] at the head [h]. *)
Definition tlist_fin (k : kernel) (h : lhead) (l : list Z) : Prop :=
  NoDup l ∧ Forall (λ t, match threads k !! t with Some th => list_fits h th | None => False end) l ∧
  map_Forall (λ h' l', h' = h ∨ Forall (λ t, t ∉ l) l') (tlists k) ∧
  match h with LReady p => 0 ≤ p < 32 ∨ l = [] | _ => True end.
#[global] Instance tlist_fin_dec k h l : Decision (tlist_fin k h l).
Proof.
  unfold tlist_fin. repeat apply and_dec; try apply _.
  - apply Forall_dec. intros t. destruct (threads k !! t); apply _.
  - destruct h; apply _.
Defined.
Definition sched_fin (k : kernel) : Prop :=
  map_Forall (tlist_fin k) (tlists k) ∧
  map_Forall (λ t th, thread_fin th ∧
    (stat_of th ≠ RT_THREAD_READY ∨ t ∈ tl (LReady (th_current_priority th)) k)) (threads k) ∧
  Forall (λ p, Z.testbit (ready_group k) p = negb (bool_decide (tl (LReady p) k = []))) (seqZ 0 32) ∧
  0 ≤ ready_group k < 4294967296.
#[global] Instance sched_fin_dec k : Decision (sched_fin k).
Proof. unfold sched_fin. apply _. Defined.
Lemma tl_fin k h : sched_fin k → tl h k ≠ [] → tlist_fin k h (tl h k).
Proof.
  intros (H & _) Hne. unfold tl in *. destruct (tlists k !! h) as [l|] eqn:E; [|done].
  simpl. by apply (H h l).
Qed.
Lemma sched_fin_inv k : sched_fin k → sched_inv k.
Proof.
  intros Hf. pose proof Hf as (Hl & Ht & Hg & Hr).
  assert (∀ h t, t ∈ tl h k → tlist_fin k h (tl h k)) as Hin.
  { intros h t Hin. apply tl_fin; [done|]. intros E. rewrite E in Hin. by apply not_elem_of_nil in Hin. }
  constructor.
  - intros h. destruct (decide (tl h k = [])) as [->|Hne]; [apply NoDup_nil_2|]. by apply tl_fin.
  - intros h t Ht'. destruct (Hin h t Ht') as (_ & Hall & _). rewrite Forall_forall in Hall.
    specialize (Hall t Ht'). destruct (threads k !! t) as [th|]; [by exists th|done].
  - intros h h' t Ht1 Ht2. destruct (Hin h t Ht1) as (_ & _ & Hdis & _).
    unfold tl in Ht2. destruct (tlists k !! h') as [l'|] eqn:E; [|by apply not_elem_of_nil in Ht2].
    destruct (Hdis h' l' E) as [->|Hd]; [done|]. rewrite Forall_forall in Hd. by destruct (Hd t Ht2).
  - intros t th Hth _ Hst. destruct (Ht t th Hth) as [_ [?|?]]; done.
  - intros t th Hth. apply thread_fin_ok. by destruct (Ht t th Hth).
  - intros p Hp. destruct (decide (p < 32)) as [Hlt|Hge].
    + rewrite Forall_forall in Hg. rewrite (Hg p) by (apply elem_of_seqZ; lia).
      rewrite negb_true_iff, bool_decide_eq_false. done.
    + assert (tl (LReady p) k = []) as ->.
      { destruct (decide (tl (LReady p) k = [])) as [|Hne]; [done|].
        destruct (tl_fin k _ Hf Hne) as (_ & _ & _ & [?|?]); [lia|done]. }
      rewrite <-(Z.mod_small (ready_group k) (2 ^ 32)) by (change (2 ^ 32) with 4294967296; lia).
      rewrite Z.mod_pow2_bits_high by lia. done.
  - done.
Qed.

(** * Timers and objects *)

Definition timer_obj_fin (lo : Z) (k : kernel) (p : optr) : Prop :=
  match objects k !! p, timer_dist k p with
  | Some o, Some d => class_of o = RT_Object_Class_Timer ∧ Z.land (o_flag o) RT_TIMER_FLAG_ACTIVATED ≠ 0 ∧
      lo ≤ d < TICK_HALF
  | _, _ => False
  end.
#[global] Instance timer_obj_fin_dec lo k p : Decision (timer_obj_fin lo k p).
Proof. unfold timer_obj_fin. destruct (objects k !! p), (timer_dist k p); apply _. Defined.
#[global] Instance timer_le_dec k p q : Decision (timer_le k p q).
Proof.
  refine (match timer_dist k p as x, timer_dist k q as y
    return timer_dist k p = x → timer_dist k q = y → Decision (timer_le k p q) with
  | Some d, Some e => λ Ep Eq, match decide (d ≤ e) with left H => left _ | right H => right _ end
  | _, _ => λ Ep Eq, left _
  end eq_refl eq_refl); unfold timer_le; naive_solver.
Defined.
Fixpoint sorted_fin (k : kernel) (l : list optr) : Prop :=
  match l with [] => True | p :: l => Forall (timer_le k p) l ∧ sorted_fin k l end.
#[global] Instance sorted_fin_dec k l : Decision (sorted_fin k l).
Proof. induction l as [|p l IH]; simpl; apply _. Defined.
Lemma sorted_fin_sorted k l : sorted_fin k l → StronglySorted (timer_le k) l.
Proof. induction l as [|p l IH]; [constructor|]. intros [??]. constructor; auto. Qed.
Definition timer_fin (lo : Z) (k : kernel) : Prop :=
  NoDup (timer_list k) ∧ Forall (timer_obj_fin lo k) (timer_list k) ∧ sorted_fin k (timer_list k) ∧
  0 ≤ rt_tick k < 4294967296 ∧
  map_Forall (λ _ tm, 0 ≤ tm_timeout_tick tm < 4294967296) (timers k).
#[global] Instance timer_fin_dec lo k : Decision (timer_fin lo k).
Proof. unfold timer_fin. apply _. Defined.
Lemma timer_fin_inv lo k : timer_fin lo k → timer_inv lo k.
Proof.
  intros (Hn & Ho & Hs & Ht & Hr). rewrite Forall_forall in Ho.
  assert (∀ p, p ∈ timer_list k → ∃ o d, objects k !! p = Some o ∧ timer_dist k p = Some d ∧
    class_of o = RT_Object_Class_Timer ∧ Z.land (o_flag o) RT_TIMER_FLAG_ACTIVATED ≠ 0 ∧
    lo ≤ d < TICK_HALF) as H.
  { intros p Hp. specialize (Ho p Hp). unfold timer_obj_fin in Ho.
    destruct (objects k !! p) as [o|], (timer_dist k p) as [d|]; try done. by exists o, d. }
  constructor; [done| | |by apply sorted_fin_sorted|done|done].
  - intros p Hp. destruct (H p Hp) as (o & d & ? & _ & ? & ? & _). by exists o.
  - intros p Hp. destruct (H p Hp) as (o & d & _ & ? & _ & _ & ?). by exists d.
Qed.

Definition container_fin (k : kernel) (c : Z) (l : list optr) : Prop :=
  NoDup l ∧ Forall (λ p, match objects k !! p with
    | Some o => class_of o = c ∧ name_ok (o_name o) | None => False end) l.
#[global] Instance container_fin_dec k c l : Decision (container_fin k c l).
Proof.
  unfold container_fin. apply and_dec; [apply _|]. apply Forall_dec. intros p.
  destruct (objects k !! p); apply _.
Defined.
Definition obj_fin (k : kernel) : Prop := map_Forall (container_fin k) (containers k).
Lemma obj_fin_inv k : obj_fin k → obj_inv k.
Proof.
  intros H. assert (∀ c l p, containers k !! c = Some l → p ∈ l → ∃ o, objects k !! p = Some o ∧
    class_of o = c ∧ name_ok (o_name o)) as Hp.
  { intros c l p Hc Hin. destruct (H c l Hc) as [_ Hf]. rewrite Forall_forall in Hf.
    specialize (Hf p Hin). destruct (objects k !! p) as [o|]; [|done]. by exists o. }
  constructor.
  - intros c l Hc. by destruct (H c l Hc).
  - intros c l p Hc Hin. destruct (Hp c l p Hc Hin) as (o & ? & ? & _). by exists o.
  - intros c l p o Hc Hin Ho. destruct (Hp c l p Hc Hin) as (o' & ? & _ & ?). by simplify_eq.
Qed.

(** * Threads *)

Definition thread_objs_fin (k : kernel) (t : Z) : Prop :=
  match objects k !! Obj t, objects k !! ThTimer t, timers k !! ThTimer t with
  | Some o, Some ot, Some tm => class_of o = RT_Object_Class_Thread ∧ class_of ot = RT_Object_Class_Timer ∧
      Z.land (o_flag ot) RT_TIMER_FLAG_PERIODIC = 0 ∧ tm_timeout_func tm = FnThreadTimeout ∧
      tm_parameter tm = t ∧ t ≠ 0
  | _, _, _ => False
  end.
#[global] Instance timeout_fn_eq_dec : EqDecision timeout_fn.
Proof. solve_decision. Defined.
#[global] Instance thread_objs_fin_dec k t : Decision (thread_objs_fin k t).
Proof.
  unfold thread_objs_fin. destruct (objects k !! Obj t), (objects k !! ThTimer t), (timers k !! ThTimer t); apply _.
Defined.
Lemma thread_objs_fin_ok k t : thread_objs_fin k t → thread_objs t k.
Proof.
  unfold thread_objs_fin. destruct (objects k !! Obj t) as [o|] eqn:E1, (objects k !! ThTimer t) as [ot|] eqn:E2,
    (timers k !! ThTimer t) as [tm|] eqn:E3; try done. intros (?&?&?&?&?&?).
  constructor; [by exists o|by exists ot|by exists tm|done].
Qed.
Definition active_fin (k : kernel) (p : optr) : Prop :=
  match p with
  | ThTimer t => match threads k !! t with Some th => stat_of th = RT_THREAD_SUSPEND | None => False end
  | Obj _ => True
  end.
#[global] Instance active_fin_dec k p : Decision (active_fin k p).
Proof. destruct p as [a|t]; simpl; [apply _|]. destruct (threads k !! t); apply _. Defined.
Definition kinv_fin (lo : Z) (k : kernel) : Prop :=
  sched_fin k ∧ timer_fin lo k ∧ obj_fin k ∧
  map_Forall (λ t th, stat_of th = RT_THREAD_CLOSE ∨ thread_objs_fin k t) (threads k) ∧
  Forall (active_fin k) (timer_list k).
#[global] Instance kinv_fin_dec lo k : Decision (kinv_fin lo k).
Proof. unfold kinv_fin, obj_fin. apply _. Defined.
(** A kernel that passes the check satisfies the invariant. *)
Lemma kinv_check lo k : bool_decide (kinv_fin lo k) = true → kinv lo k.
Proof.
  intros (Hs & Ht & Ho & Hth & Ha)%bool_decide_eq_true. constructor.
  - by apply sched_fin_inv.
  - by apply timer_fin_inv.
  - by apply obj_fin_inv.
  - intros t th E Hst. apply thread_objs_fin_ok. by destruct (Hth t th E).
  - intros t Hin. rewrite Forall_forall in Ha. specialize (Ha _ Hin). simpl in Ha.
    destruct (threads k !! t) as [th|]; [by exists th|done].
Qed.
