(* ===== verification/Startup.v ===== *)
(** The idle thread of os/idle.c and the start-up of os/components.c. *)
From S2P Require Import Prelude Kservice Mem KState Sched Object Timer Thread.

(** What the board and the link decide: code and stack addresses, the heap
    region, the hardware initialisation in front of the heap's and behind it,
    and the initialisation functions the linker collects. *)
Class Board := {
  addr_main_thread_entry : Z;
  addr_idle_entry : Z;
  addr_idle : Z;
  addr_idle_stack : Z;
  HEAP_BEGIN : Z;
  HEAP_END : Z;
  hal_init : M kernel unit;
  drivers_init : M kernel unit;
  board_fns : list (M kernel Z);
  component_fns : list (M kernel Z)
}.
Definition RT_IDLE_HOOK_LIST_SIZE : Z := 4.
Definition IDLE_THREAD_STACK_SIZE : Z := 1024.
Definition RT_MAIN_THREAD_STACK_SIZE : Z := 2048.
Definition RT_MAIN_THREAD_PRIORITY : Z := 10.
(** "main" and "tidle" *)
Definition name_main : list Z := [109; 97; 105; 110; 0].
Definition name_tidle : list Z := [116; 105; 100; 108; 101; 0].

Section startup.
Context `{CB : Callbacks} `{BD : Board}.

(** * Idle hooks *)

Definition rt_thread_idle_sethook (hook : Z) : K Z :=
  l ← gets idle_hook_list;
  match list_find (λ h, h = 0) l with
  | Some (i, _) => modify (set_idle_hook_list (<[i := hook]> l));; mret RT_EOK
  | None => mret (- RT_EFULL)
  end.
Definition rt_thread_idle_delhook (hook : Z) : K Z :=
  l ← gets idle_hook_list;
  match list_find (λ h, h = hook) l with
  | Some (i, _) => modify (set_idle_hook_list (<[i := 0]> l));; mret RT_EOK
  | None => mret (- RT_ENOSYS)
  end.

(** * The idle thread *)

Definition _has_defunct_thread : K bool := gets (λ k, negb (bool_decide (tl LDefunct k = []))).
(** One round of the loop: the thread's stack and object are given back. *)
Definition reclaim_thread : K unit :=
  thread ← tlist_first LDefunct;
  tlist_remove thread;;
  th ← thread_at thread;
  RT_KERNEL_FREE (th_stack_addr th);;
  rt_object_delete thread;;
  modify (λ k, set_threads (delete thread (threads k)) k).
Fixpoint reclaim_loop (fuel : nat) : K unit :=
  defunct ← _has_defunct_thread;
  if defunct : bool then
    match fuel with O => fail | S fuel => reclaim_thread;; reclaim_loop fuel end
  else mret tt.
Definition rt_thread_idle_excute : K unit :=
  RT_DEBUG_NOT_IN_INTERRUPT;;
  n ← gets (λ k, length (tl LDefunct k));
  reclaim_loop n.

(** One round of the idle thread. *)
Definition rt_thread_idle_entry_round : K unit :=
  for_each (λ i, l ← gets idle_hook_list; hook ← lift (l !! i);
               when (negb (hook =? 0)) (user_idle hook)) (seq 0 (Z.to_nat RT_IDLE_HOOK_LIST_SIZE));;
  rt_thread_idle_excute.

Definition rt_thread_idle_init : K unit :=
  rt_thread_init addr_idle name_tidle addr_idle_entry 0 addr_idle_stack IDLE_THREAD_STACK_SIZE
    (RT_THREAD_PRIORITY_MAX - 1) 32;;
  rt_thread_startup addr_idle;;
  mret tt.
Definition rt_thread_idle_gethandler : Z := addr_idle.

(** * Start-up *)

Definition run_fns (l : list (K Z)) : K unit := for_each (λ fn, fn;; mret tt) l.
Definition rt_components_board_init : K unit := run_fns board_fns.
Definition rt_components_init : K unit := run_fns component_fns.
Definition rt_hw_board_init : K unit :=
  hal_init;;
  lift_heap (rt_system_heap_init HEAP_BEGIN HEAP_END);;
  drivers_init;;
  rt_components_board_init.

Definition rt_application_init : K unit :=
  tid ← rt_thread_create name_main addr_main_thread_entry 0 RT_MAIN_THREAD_STACK_SIZE
          RT_MAIN_THREAD_PRIORITY 20;
  RT_ASSERT (negb (tid =? 0));;
  rt_thread_startup tid;;
  mret tt.

(** Up to the switch to the first thread. *)
Definition rtthread_startup : K unit :=
  rt_hw_board_init;;
  rt_system_timer_init;;
  rt_system_scheduler_init;;
  rt_application_init;;
  rt_thread_idle_init;;
  rt_system_scheduler_start.
End startup.

(** The memory before anything ran: zero, with the object containers of the
    program's data. *)
Definition kernel_reset : kernel := {|
  rt_tick := 0; objects := ∅; containers := rt_object_container; threads := ∅; timers := ∅;
  tlists := ∅; timer_list := []; timer_pending := []; random_nr := 0; ready_group := 0;
  lock_nest := 0; current_thread := None; current_priority := 0; KState.interrupt_nest := 0;
  kerrno := 0; kheap := Heap ∅ ∅ 0 0 0 0 0 0 0 0; sems := ∅; mutexes := ∅; events := ∅;
  mailboxes := ∅; mqueues := ∅; mempools := ∅; devices := ∅; pool_words := ∅;
  idle_hook_list := replicate 4 0 |}.
