(* ===== verification/Boot.v ===== *)
(** Start-up as a whole: threads made on the heap, and os/components.c's
    rtthread_startup from reset to the first switch, which leaves a system in
    the invariant of [System]. *)
From S2P Require Import Prelude Kservice Mem KState Sched Object Timer Thread ThreadInit Clock Ipc Sem Startup System.

(** * The heap inside the kernel *)

Lemma wp_lift_heap {A} (m : M heap A) k (Q : A → kernel → Prop) :
  wp m (λ a h, Q a (set_kheap h k)) (kheap_in k) → wp (lift_heap m) Q k.
Proof. unfold wp, lift_heap. by destruct (m (kheap_in k)) as [[??]|]. Qed.
Lemma kheap_in_set h k : Mem.interrupt_nest h = interrupt_nest k → kheap_in (set_kheap h k) = h.
Proof. intros E. unfold kheap_in. simpl. rewrite <-E. by destruct h. Qed.
Lemma same_core_heap h k : same_core k (set_kheap h k).
Proof. by repeat constructor. Qed.

(** Addresses the heap has not handed out. *)
Definition heap_free (h : heap) (bs : list block) (a : Z) : Prop :=
  heap_ptr h < a < heap_ptr h + heap_end h ∧
  ∀ o s, (o, s) ∈ allocs 0 bs → ¬ (heap_ptr h + o ≤ a < heap_ptr h + o + s).

Section create.
Context `{CB : Callbacks}.
Context (name : list Z) (entry parameter stack_size priority tick : Z).
Context (Hname : readable 8 name ∧ is_bytes name) (Hprio : 0 ≤ priority < RT_THREAD_PRIORITY_MAX).
Context (Hsize : 76 ≤ stack_size < 4294967293).

(** The object of a thread, in memory from the heap. *)
Lemma thread_allocate_run lo k bs room :
  kinv lo k → may_schedule k → interrupt_nest k = 0 → heap_inv (kheap_in k) bs →
  (∀ a, heap_free (kheap_in k) bs a → fresh_thread a k) →
  is_Some (containers k !! RT_Object_Class_Thread) → has_room room bs → 152 ≤ room →
  wp (rt_object_allocate RT_Object_Class_Thread name) (λ t k', heap_free (kheap_in k) bs t ∧
    ∃ h bs' o cs, same_heap (kheap_in k) h ∧ heap_inv h bs' ∧ has_room (room - 140) bs' ∧
      (∃ sz, 128 ≤ sz ∧ allocs 0 bs' ≡ₚ (t - heap_ptr h, sz) :: allocs 0 bs) ∧
      k' = set_containers cs (set_objects (<[Obj t := o]> (objects k)) (set_kheap h k)) ∧
      kinv_but lo t k' ∧ class_of o = RT_Object_Class_Thread ∧
      (∀ q i l, q ≠ Obj t → cs !! i = Some l → q ∈ l → ∃ l0, containers k !! i = Some l0 ∧ q ∈ l0) ∧
      (∀ i, is_Some (containers k !! i) → is_Some (cs !! i))) k.
Proof using Hname.
  intros Hk Hm Hn Hh Hfr [l Hl] Hroom Hr. destruct Hname as [Hrd Hb].
  destruct (rt_strncpy_run 8 (replicate 8 0) name Hrd) as (d & Ed & Hdl & _ & Hdr & Hdb); [done|].
  simpl in Ed. unfold rt_object_allocate, Object.RT_DEBUG_NOT_IN_INTERRUPT, rt_object_get_information, RT_KERNEL_MALLOC.
  wp_simpl. rewrite Hn. split; [done|]. rewrite Hl. split; [done|].
  apply wp_lift_heap. change (object_size RT_Object_Class_Thread) with 128.
  eapply wp_mono; [apply (rt_malloc_room_run _ bs 128 room); try done; lia|].
  intros t h (Hsame & bs' & sz & Hh' & Hsz & Hroom' & Hlo & Hhi & Hal & Hdis).
  change (request 128) with 128 in Hroom'. replace (room - 128 - 12) with (room - 140) in Hroom' by lia.
  destruct (inv_addr _ _ Hh) as (Ha & _).
  assert (heap_free (kheap_in k) bs t) as Hft.
  { split; [lia|]. intros o s Hin [? ?]. destruct (Hdis o s Hin); lia. }
  destruct (Hfr t Hft) as [H0 Hd Hlo' Hlt Ht Hnt].
  rewrite (proj2 (Z.eqb_neq t 0)) by done. wp_simpl. cbn [replicate]. rewrite Ed. wp_simpl.
  set (o := Object d RT_Object_Class_Thread 0).
  unfold object_attach, wp at 1. change (olinked (Obj t) _) with (olinked (Obj t) k). rewrite Hlo'.
  simpl. rewrite Hl. simpl. split; [done|].
  exists h, bs', o, (<[RT_Object_Class_Thread := Obj t :: l]> (containers k)).
  split; [done|]. split; [done|]. split; [done|]. split.
  { exists sz. destruct Hsame as [-> _]. done. }
  split; [done|]. split; [|split; [done|split]].
  - pose proof (kinv_but_ext _ _ _ _ (same_core_heap h k) (kinv_but_weaken _ t _ Hk)) as Hk1.
    apply (kinv_but_object lo t (set_kheap h k) (Obj t) RT_Object_Class_Thread l o); [done|by left|done|].
    apply obj_inv_attach; try done; [apply Hk1|]. split; [done|]. split; [done|]. by apply Hdb.
  - intros q i li Hq. destruct (decide (i = RT_Object_Class_Thread)) as [->|Hne].
    + rewrite lookup_insert_eq. intros [= <-] [?|?]%elem_of_cons; [done|]. by exists l.
    + rewrite lookup_insert_ne by done. eauto.
  - intros i Hi. destruct (decide (i = RT_Object_Class_Thread)) as [->|Hne].
    + by rewrite lookup_insert_eq.
    + by rewrite lookup_insert_ne.
Qed.

(** With enough room rt_thread_create makes a thread on the heap. *)
Lemma rt_thread_create_run lo k bs room :
  kinv lo k → may_schedule k → 0 ≤ lock_nest k < 32766 → interrupt_nest k = 0 →
  heap_inv (kheap_in k) bs → (∀ a, heap_free (kheap_in k) bs a → fresh_thread a k) →
  is_Some (containers k !! RT_Object_Class_Thread) → is_Some (containers k !! RT_Object_Class_Timer) →
  has_room room bs → request stack_size + 164 ≤ room →
  wp (rt_thread_create name entry parameter stack_size priority tick) (λ t k',
    heap_free (kheap_in k) bs t ∧ kinv lo k' ∧ ∃ h bs' start th,
      newborn entry parameter start stack_size priority tick th ∧
      same_heap (kheap_in k) h ∧ heap_inv h bs' ∧ made t th (set_kheap h k) k') k.
Proof using Hname Hprio Hsize.
  intros Hk Hm Hln Hn Hh Hfr Hct Hcm Hroom Hr. pose proof (request_bounds stack_size ltac:(lia)) as Hreq.
  unfold rt_thread_create, RT_KERNEL_MALLOC. wp_simpl.
  eapply wp_mono; [by apply (thread_allocate_run lo k bs room); try done; lia|].
  intros t k1 (Hft & h1 & bs1 & o & cs & Hsame & Hh1 & Hroom1 & _ & Ek1 & Hk1 & Hcl & Hcs & Hcs').
  destruct (Hfr t Hft) as [H0 Hd Hlo' Hlt Ht Hnt].
  rewrite (proj2 (Z.eqb_neq t 0)) by done. wp_simpl. apply wp_lift_heap.
  assert (kheap_in k1 = h1) as Eh.
  { subst k1. apply (kheap_in_set h1 k). by rewrite (inv_nest _ _ Hh1), Hn. }
  rewrite Eh. eapply wp_mono; [apply (rt_malloc_room_run _ bs1 stack_size (room - 140)); try done; lia|].
  intros start h2 (Hsame2 & bs2 & sz & Hh2 & Hsz & _ & Hlo & Hhi & _).
  destruct (inv_addr _ _ Hh1) as (Ha & _ & Ha3).
  rewrite (proj2 (Z.eqb_neq start 0)) by lia. wp_simpl. set (k2 := set_kheap h2 k1).
  eapply wp_mono; [apply (_rt_thread_init_run name entry parameter start stack_size priority tick
    Hname Hprio ltac:(lia) ltac:(lia) ltac:(lia) lo k2 t)|]; try (subst k1; done).
  - apply (kinv_but_ext _ _ k1); [apply same_core_heap|done].
  - apply olinked_false. subst k1. simpl. intros i li Hi Hin.
    destruct (Hcs (ThTimer t) i li ltac:(done) Hi Hin) as (l0 & Hl0 & Hin0).
    by apply (proj1 (olinked_false _ _) Hlt _ _ Hl0).
  - subst k1. by apply Hcs'.
  - exists o. subst k1. split; [apply lookup_insert_eq|done].
  - intros r k3 (_ & Hk3 & th & Hnb & c & p & os & cs3 & ts & -> & Hc0 & Hrun & Hos & Hcs3 & Hcs3').
    apply wp_ret. split; [done|]. split; [done|]. exists h2, bs2, start, th. split; [done|].
    split; [destruct Hsame as (?&?&?), Hsame2 as (?&?&?); split_and!; congruence|]. split; [done|].
    exists c, p, os, cs3, ts. subst k1. split; [done|]. split; [done|]. split; [done|].
    split; [|split].
    + intros a Hne. rewrite Hos by done. simpl. rewrite lookup_insert_ne; [done|congruence].
    + intros q i li Hq1 Hq2 Hi Hin. destruct (Hcs3 _ _ _ Hq1 Hq2 Hi Hin) as (l0 & Hl0 & Hin0).
      by apply (Hcs q i l0).
    + intros i Hi. by apply Hcs3', Hcs'.
Qed.
End create.

(** * Up to the first switch *)

Section boot.
Context `{CB : Callbacks} `{BD : Board}.

(** An address at which nothing of the kernel is. *)
Definition unlinked (a : Z) (k : kernel) : Prop :=
  olinked (Obj a) k = false ∧ olinked (ThTimer a) k = false ∧ sems k !! a = None.
(** The kernel before its first thread: no thread is made or listed, and the
    heap has [room]. Drivers may have made objects of their own. *)
Record early (room : Z) (k : kernel) : Prop := {
  ea_inv : kinv 1 k;
  ea_current : current_thread k = None;
  ea_threads : threads k = ∅;
  ea_timers : timer_list k = [] ∧ timer_pending k = [];
  ea_lists : ∀ h, tl h k = [];
  ea_nest : lock_nest k = 0 ∧ interrupt_nest k = 0;
  ea_heap : ∃ bs, heap_inv (kheap_in k) bs ∧ has_room room bs ∧
    ∀ a, heap_free (kheap_in k) bs a → unlinked a k;
  ea_idle : unlinked addr_idle k ∧
    ∀ bs, heap_inv (kheap_in k) bs → ¬ heap_free (kheap_in k) bs addr_idle;
  ea_sems : ∀ s v, sems k !! s = Some v → sem_ok s v k;
  ea_classes : is_Some (containers k !! RT_Object_Class_Thread) ∧
    is_Some (containers k !! RT_Object_Class_Timer) ∧
    is_Some (containers k !! RT_Object_Class_Semaphore)
}.

(** What start-up relies on of the hardware, the drivers and the link. *)
Class BoardLaws := {
  drivers_room : Z;
  law_hal : hal_init kernel_reset = Some (tt, kernel_reset);
  law_drivers room k : early room k → drivers_room ≤ room →
    wp (drivers_init;; rt_components_board_init) (λ _ k', early (room - drivers_room) k') k;
  law_region : 0 ≤ drivers_room ∧ 0 ≤ HEAP_BEGIN < 4294967000 ∧ 0 ≤ HEAP_END < 4294967296 ∧
    RT_ALIGN HEAP_BEGIN 4 + drivers_room + 2324 ≤ RT_ALIGN_DOWN HEAP_END 4;
  law_idle : addr_idle ≠ 0 ∧ (addr_idle ≤ RT_ALIGN HEAP_BEGIN 4 ∨ HEAP_END ≤ addr_idle) ∧
    0 < addr_idle_stack ∧ addr_idle_stack + IDLE_THREAD_STACK_SIZE < 4294967296
}.

(** ** The tables *)

Lemma tl_scheduler_init l (m : gmap lhead (list Z)) h :
  (∀ h, default [] (m !! h) = []) →
  default [] (foldr (λ p : Z, <[LReady p := []]>) m l !! h) = [].
Proof.
  intros Hm. induction l as [|p l IH]; simpl; [done|].
  destruct (decide (h = LReady p)) as [->|Hne]; [by rewrite lookup_insert_eq|by rewrite lookup_insert_ne].
Qed.
Lemma sched_inv_none k : threads k = ∅ → (∀ h, tl h k = []) → ready_group k = 0 → sched_inv k.
Proof.
  intros Et El Eg. constructor; rewrite ?Eg; try done; try (intros ? ?; rewrite Et; by rewrite lookup_empty).
  - intros h. rewrite El. constructor.
  - intros h t. rewrite El. by intros ?%not_elem_of_nil.
  - intros h h' t. rewrite El. by intros ?%not_elem_of_nil.
  - intros p Hp. rewrite Z.bits_0, El. done.
Qed.
Lemma timer_init_run k room : early room k → wp rt_system_timer_init (λ _ k', early room k') k.
Proof.
  intros Hk. unfold rt_system_timer_init. wp_simpl. destruct (ea_timers _ _ Hk) as [E _].
  replace (set_timer_list [] k) with k; [done|]. destruct k. simpl in *. by subst.
Qed.
Lemma scheduler_init_run k room : early room k → wp rt_system_scheduler_init (λ _ k', early room k') k.
Proof.
  intros []. unfold rt_system_scheduler_init. wp_simpl.
  match goal with |- early room ?s => set (k' := s) end.
  assert (∀ h, tl h k' = []) as Hl.
  { intros h. unfold k'. rewrite tl_put. case_decide; [done|]. by apply tl_scheduler_init. }
  destruct ea_timers0 as [E1 E2]. constructor; try done; [|by destruct ea_nest0|].
  - apply (kinv_lists 1 k); [done|by constructor|]. by apply sched_inv_none.
  - intros s v Hv. destruct (ea_sems0 s v Hv). by constructor.
Qed.
Lemma rt_object_container_nil c l : rt_object_container !! c = Some l → l = [].
Proof.
  intros Hl%elem_of_list_to_map_2. apply list_elem_of_fmap in Hl as (c' & [= _ ->] & _). done.
Qed.
Lemma early_reset h n :
  heap_inv h [Block n false] → heap_ptr h + heap_end h ≤ addr_idle ∨ addr_idle ≤ heap_ptr h →
  early n (set_kheap h kernel_reset).
Proof.
  intros Hh Hi. assert (kheap_in (set_kheap h kernel_reset) = h) as Eh
    by (apply kheap_in_set, (inv_nest _ _ Hh)).
  assert (∀ a, unlinked a (set_kheap h kernel_reset)) as Hu.
  { intros a. split; [|split; [|done]]; by vm_compute. }
  constructor; try done.
  - constructor; try done.
    + by apply sched_inv_none.
    + constructor; simpl; [constructor|by intros ? ?%not_elem_of_nil..|constructor|lia|].
      intros p tm. by rewrite lookup_empty.
    + constructor; intros c l *; intros ->%rt_object_container_nil;
        [constructor|by intros ?%not_elem_of_nil..].
    + by intros t ?%not_elem_of_nil.
  - exists [Block n false]. rewrite Eh. split; [done|]. split; [|by intros a _].
    exists (Block n false). split; [by left|]. done.
  - split; [done|]. intros bs Hbs [? _]. rewrite Eh in *. lia.
Qed.
Lemma early_mono r r' k : r' ≤ r → early r k → early r' k.
Proof.
  intros Hr []. constructor; try done. destruct ea_heap0 as (bs & Hh & (b & Hb & Hu & Hs) & Hf).
  exists bs. split; [done|]. split; [|done]. exists b. split; [done|]. split; [done|lia].
Qed.
End boot.

(** ** From reset to the first switch *)

Section start.
Context `{CB : Callbacks} `{BL : BoardLaws}.

Lemma board_init_run : wp rt_hw_board_init (λ _ k, early 2300 k) kernel_reset.
Proof using BL.
  destruct law_region as (Hd & Hb & He & Hgap). destruct law_idle as (_ & Hi & _).
  unfold rt_hw_board_init. apply wp_bind. rewrite (wp_run _ _ _ _ _ law_hal). apply wp_bind, wp_lift_heap.
  eapply wp_mono; [apply (rt_system_heap_init_inv _ HEAP_BEGIN HEAP_END); try done; lia|].
  intros [] h [Hh Ep]. set (n := RT_ALIGN_DOWN HEAP_END 4 - RT_ALIGN HEAP_BEGIN 4 - 24) in *.
  pose proof (chain_end _ _ _ _ _ (inv_chain _ _ Hh)) as E. simpl in E.
  eapply wp_mono; [apply (law_drivers n); [apply early_reset; [done|]|unfold n; lia]|].
  - pose proof (RT_ALIGN_DOWN_4 HEAP_END He). pose proof (Z.mod_pos_bound HEAP_END 4).
    rewrite Ep. unfold n in E. lia.
  - intros [] k. apply early_mono. unfold n. lia.
Qed.

(** The main thread is READY, and no other thread is made. *)
Record with_main (t : Z) (k : kernel) : Prop := {
  wm_inv : kinv 1 k;
  wm_current : current_thread k = None;
  wm_thread : ∃ th, threads k = {[t := th]} ∧ stat_of th = RT_THREAD_READY ∧
    th_current_priority th = RT_MAIN_THREAD_PRIORITY ∧ th_entry th = addr_main_thread_entry;
  wm_lists : ∀ h, tl h k = if decide (h = LReady RT_MAIN_THREAD_PRIORITY) then [t] else [];
  wm_timers : timer_list k = [] ∧ timer_pending k = [];
  wm_nest : lock_nest k = 0 ∧ interrupt_nest k = 0;
  wm_idle : t ≠ addr_idle ∧ unlinked addr_idle k;
  wm_sems : ∀ s v, sems k !! s = Some v → sem_ok s v k;
  wm_classes : is_Some (containers k !! RT_Object_Class_Thread) ∧
    is_Some (containers k !! RT_Object_Class_Timer) ∧
    is_Some (containers k !! RT_Object_Class_Semaphore)
}.

Lemma application_init_run k : early 2300 k → wp rt_application_init (λ _ k', ∃ t, with_main t k') k.
Proof using Type.
  intros [Hk Hcur Hth [Htl Htp] Hl [Hln Hin] (bs & Hh & Hroom & Hfree) [Hi Hni] Hs (C1 & C2 & C3)].
  unfold rt_application_init. wp_simpl.
  assert (∀ a, heap_free (kheap_in k) bs a → fresh_thread a k) as Hfr.
  { intros a Ha. destruct (Hfree a Ha) as (? & ? & _). destruct Ha as [Ha _].
    destruct (inv_addr _ _ Hh) as (? & _).
    constructor; try done; [lia|intros h; rewrite Hl; by apply not_elem_of_nil| |];
      rewrite Htl, ?Htp; by apply not_elem_of_nil. }
  eapply wp_mono; [apply (rt_thread_create_run name_main _ _ RT_MAIN_THREAD_STACK_SIZE
    RT_MAIN_THREAD_PRIORITY 20) with (lo := 1) (bs := bs) (room := 2300); try done; [|by left|lia]|].
  { split; apply (bool_decide_unpack _); by vm_compute. }
  intros t k1 (Hft & Hk1 & h & bs1 & start & th & Hnb & _ & _ & Hmade).
  destruct (Hfr t Hft) as [H0 Hd _ _ _ _]. destruct (Hfree t Hft) as (_ & _ & Hst).
  destruct (newborn_ok _ _ _ _ RT_MAIN_THREAD_PRIORITY _ ltac:(done) th Hnb) as [Hok Hini].
  destruct Hmade as (c & p & os & cs & ts & E & Hc & _ & Hos & Hcs & Hcs').
  wp_simpl. split; [by rewrite (proj2 (Z.eqb_neq t 0))|].
  assert (current_thread k1 = None) as Hcur1 by (subst k1; by apply Hc).
  eapply wp_mono; [apply (rt_thread_startup_run 1 k1 t th); [done| |done| |]|].
  { subst k1. simpl. apply lookup_insert_eq. }
  { subst k1. exact Hd. }
  { subst k1. simpl. rewrite Htl. apply not_elem_of_nil. }
  intros r k2 (_ & k2' & [Hk2 Hf2 Eth2 Htl2 Ho2] & El2 & Ep2 & _ & Ek2 & _).
  rewrite Ek2 by done. apply wp_ret. clear Ek2 k2. rename k2' into k2. exists t.
  destruct (nb_prio _ _ _ _ _ _ _ Hnb) as [_ Hpr]. destruct (nb_entry _ _ _ _ _ _ _ Hnb) as [Hen _].
  assert (∀ h, tl h k1 = []) as Hl1 by (subst k1; exact Hl).
  assert (∀ h, tl h k2 = if decide (h = LReady RT_MAIN_THREAD_PRIORITY) then [t] else []) as Hl2.
  { intros h'. rewrite Htl2. unfold tl_ready. simpl. rewrite Hpr, Hl1. by case_decide. }
  constructor; try done.
  - by rewrite (kf_current _ _ Hf2).
  - eexists. rewrite Eth2. subst k1. simpl. rewrite Hth, insert_insert_eq. split; [done|].
    split; [by apply stat_of_with_stat|]. by rewrite <-Hpr.
  - rewrite El2. subst k1. simpl. rewrite Htl. split; [done|].
    apply elem_of_nil_inv. intros q Hq. apply Ep2 in Hq. simpl in Hq. rewrite Htp in Hq.
    by apply not_elem_of_nil in Hq.
  - rewrite (kf_lock _ _ Hf2), (kf_nest _ _ Hf2). by subst k1.
  - split; [by intros ->; apply (Hni bs)|]. destruct Hi as (Hi1 & Hi2 & Hi3).
    assert (∀ q, q ≠ Obj t → q ≠ ThTimer t → olinked q k = false → olinked q k2 = false) as Hol.
    { intros q Hq1 Hq2. rewrite !olinked_false, (kf_containers _ _ Hf2). intros Hq i li Hi Hqi.
      subst k1. simpl in Hi. destruct (Hcs q i li) as (l0 & Hl0 & Hin0); try done. by apply (Hq i l0). }
    assert (t ≠ addr_idle) by (by intros ->; apply (Hni bs)).
    split; [apply Hol; [congruence|done|done]|]. split; [apply Hol; [done|congruence|done]|].
    rewrite (kf_sems _ _ Hf2). by subst k1.
  - intros s v Hv. rewrite (kf_sems _ _ Hf2) in Hv. subst k1. simpl in Hv.
    apply (sem_ok_move s v k); [by apply Hs|by rewrite (kf_sems _ _ Hf2)| |].
    + rewrite (proj2 (proj2 Ho2)). simpl. apply Hos. intros ->. by rewrite Hst in Hv.
    + intros _. rewrite Hl2. by case_decide.
  - rewrite (kf_containers _ _ Hf2). subst k1. split_and!; by apply Hcs'.
Qed.
(** Main and the idle thread are READY. *)
Record both_ready (t : Z) (k : kernel) : Prop := {
  br_inv : kinv 1 k;
  br_current : current_thread k = None;
  br_main : ∃ th, threads k !! t = Some th ∧ stat_of th = RT_THREAD_READY ∧
    th_current_priority th = RT_MAIN_THREAD_PRIORITY ∧ th_entry th = addr_main_thread_entry;
  br_idle : ∃ th, threads k !! addr_idle = Some th ∧ stat_of th = RT_THREAD_READY;
  br_lists : ∀ h, tl h k = if decide (h = LReady RT_MAIN_THREAD_PRIORITY) then [t]
                           else if decide (h = LReady (RT_THREAD_PRIORITY_MAX - 1)) then [addr_idle] else [];
  br_timers : timer_list k = [];
  br_nest : lock_nest k = 0 ∧ interrupt_nest k = 0;
  br_sems : ∀ s v, sems k !! s = Some v → sem_ok s v k;
  br_classes : is_Some (containers k !! RT_Object_Class_Thread) ∧
    is_Some (containers k !! RT_Object_Class_Timer) ∧
    is_Some (containers k !! RT_Object_Class_Semaphore)
}.

Lemma idle_init_run t k : with_main t k → wp rt_thread_idle_init (λ _ k', both_ready t k') k.
Proof using BL.
  intros [Hk Hcur (thm & Hth & Hsm & Hpm & Hem) Hl [Htl Htp] [Hln Hin] [Hne (Hi1 & Hi2 & Hi3)] Hs (C1 & C2 & C3)].
  destruct law_idle as (H0 & _ & Hst & Hend).
  assert (fresh_thread addr_idle k) as Hfr.
  { constructor; try done; rewrite ?Htl, ?Htp; try by apply not_elem_of_nil.
    intros h. rewrite Hl. case_decide; [|by apply not_elem_of_nil].
    intros E%list_elem_of_singleton. by destruct Hne. }
  unfold rt_thread_idle_init. wp_simpl.
  eapply wp_mono; [apply (rt_thread_init_run name_tidle addr_idle_entry 0 addr_idle_stack
    IDLE_THREAD_STACK_SIZE (RT_THREAD_PRIORITY_MAX - 1) 32) with (lo := 1); try done; [|by left|lia]|].
  { split; apply (bool_decide_unpack _); by vm_compute. }
  intros r k1 (_ & Hk1 & th & Hnb & c & p & os & cs & ts & E & Hc & _ & Hos & Hcs & Hcs').
  destruct (newborn_ok _ _ _ _ (RT_THREAD_PRIORITY_MAX - 1) _ ltac:(done) th Hnb) as [Hok Hini].
  assert (current_thread k1 = None) as Hcur1 by (subst k1; by apply Hc).
  wp_simpl. eapply wp_mono; [apply (rt_thread_startup_run 1 k1 addr_idle th); [done| |done| |]|].
  { subst k1. simpl. apply lookup_insert_eq. }
  { subst k1. apply Hfr. }
  { subst k1. simpl. rewrite Htl. apply not_elem_of_nil. }
  intros r' k2 (_ & k2' & [Hk2 Hf2 Eth2 Htl2 Ho2] & El2 & _ & _ & Ek2 & _).
  rewrite Ek2 by done. apply wp_ret. clear Ek2 k2. rename k2' into k2.
  destruct (nb_prio _ _ _ _ _ _ _ Hnb) as [_ Hpr].
  assert (∀ h, tl h k1 = tl h k) as Hl1 by (by subst k1).
  constructor; try done.
  - by rewrite (kf_current _ _ Hf2).
  - exists thm. rewrite Eth2, lookup_insert_ne by done. subst k1. simpl.
    by rewrite Hth, lookup_insert_ne, lookup_singleton_eq.
  - eexists. rewrite Eth2, lookup_insert_eq. split; [done|]. by apply stat_of_with_stat.
  - intros h. rewrite Htl2. unfold tl_ready. simpl. rewrite Hpr, !Hl1, Hl.
    destruct (decide (h = LReady RT_MAIN_THREAD_PRIORITY)) as [->|Hnm].
    + rewrite decide_False by done. rewrite lremove_notin; [done|]. intros Ei%list_elem_of_singleton. by destruct Hne.
    + by case_decide.
  - rewrite El2. subst k1. simpl. by rewrite Htl.
  - rewrite (kf_lock _ _ Hf2), (kf_nest _ _ Hf2). by subst k1.
  - intros s v Hv. rewrite (kf_sems _ _ Hf2) in Hv. subst k1. simpl in Hv.
    apply (sem_ok_move s v k); [by apply Hs|by rewrite (kf_sems _ _ Hf2)| |].
    + rewrite (proj2 (proj2 Ho2)). simpl. apply Hos. intros ->. by rewrite Hi3 in Hv.
    + intros _. rewrite Htl2. unfold tl_ready. rewrite decide_False by done. rewrite Hl1, Hl. by case_decide.
  - rewrite (kf_containers _ _ Hf2). subst k1. split_and!; by apply Hcs'.
Qed.

Lemma scheduler_start_run t k : both_ready t k →
  wp rt_system_scheduler_start (λ _ k', sys_inv addr_idle k' ∧ current_thread k' = Some t ∧
    ∃ th, threads k' !! t = Some th ∧ th_current_priority th = RT_MAIN_THREAD_PRIORITY ∧
      th_entry th = addr_main_thread_entry) k.
Proof using Type.
  intros [Hk Hcur (th & Hth & Hst & Hpr & Hen) Hidle Hl Htl [Hln Hin] Hs Hc].
  destruct (highest_spec k (ki_sched _ _ Hk)) as (Hp & Hne & Hlow); [by exists t, th|].
  assert (highest_ready_priority k = RT_MAIN_THREAD_PRIORITY) as E.
  { set (p := highest_ready_priority k) in *.
    destruct (Z.lt_trichotomy p RT_MAIN_THREAD_PRIORITY) as [Hlt|[?|Hgt]]; [|done|].
    - destruct Hne. rewrite Hl, !decide_False; [done|..]; intros [= E];
        change RT_MAIN_THREAD_PRIORITY with 10 in *; change (RT_THREAD_PRIORITY_MAX - 1) with 31 in *; lia.
    - specialize (Hlow RT_MAIN_THREAD_PRIORITY). rewrite Hl, decide_True in Hlow by done.
      discriminate Hlow. split; [done|lia]. }
  unfold rt_system_scheduler_start. wp_simpl. rewrite E.
  assert (tl (LReady RT_MAIN_THREAD_PRIORITY) k = [t]) as El by (by rewrite Hl, decide_True).
  eapply wp_tlist_first; [exact El|]. wp_simpl. split; [|split; [done|by exists th]].
  constructor; try done.
  - apply (kinv_switch 1 k); [|done]. exists (Some t), (current_priority k). by destruct k.
  - unfold thread_timers. simpl. rewrite Htl. constructor.
  - intros _. exists t. split; [done|]. exists RT_MAIN_THREAD_PRIORITY, []. split; [done|]. split; [exact El|].
    rewrite <-E. exact Hlow.
  - intros s v Hv. destruct (Hs s v Hv). by constructor.
Qed.

(** The whole of start-up. *)
Lemma rtthread_startup_run : wp rtthread_startup (λ _ k, sys_inv addr_idle k ∧
  ∃ t th, current_thread k = Some t ∧ threads k !! t = Some th ∧
    th_current_priority th = RT_MAIN_THREAD_PRIORITY ∧ th_entry th = addr_main_thread_entry) kernel_reset.
Proof using BL.
  unfold rtthread_startup. apply wp_bind. eapply wp_mono; [apply board_init_run|].
  intros [] k0 Hk0. apply wp_bind. eapply wp_mono; [by apply (timer_init_run k0 2300)|].
  intros [] k1 Hk1. apply wp_bind. eapply wp_mono; [by apply (scheduler_init_run k1 2300)|].
  intros [] k2 Hk2. apply wp_bind. eapply wp_mono; [by apply application_init_run|].
  intros [] k3 [t Hk3]. apply wp_bind. eapply wp_mono; [by apply idle_init_run|].
  intros [] k4 Hk4. eapply wp_mono; [by apply (scheduler_start_run t)|].
  intros [] k5 (? & ? & th & ?). split; [done|]. by exists t, th.
Qed.

(** C1. From reset, on every board whose drivers keep to [BoardLaws]: start-up
    returns with the main thread running, and in every state that any sequence of
    ticks and calls reaches from there the running thread is READY and no READY
    thread has a higher priority, and each call that may be made returns. *)
Theorem rtthread_startup_safe : ∃ k0, rtthread_startup kernel_reset = Some (tt, k0) ∧
  (∃ t th, current_thread k0 = Some t ∧ threads k0 !! t = Some th ∧
     th_current_priority th = RT_MAIN_THREAD_PRIORITY ∧ th_entry th = addr_main_thread_entry) ∧
  ∀ k, rtc (step addr_idle) k0 k →
    (∃ t th, current_thread k = Some t ∧ threads k !! t = Some th ∧ stat_of th = RT_THREAD_READY ∧
       ∀ u thu, threads k !! u = Some thu → stat_of thu = RT_THREAD_READY →
         th_current_priority th ≤ th_current_priority thu) ∧
    (∀ c, enabled addr_idle c k → ∃ k', exec c k = Some (tt, k') ∧ step addr_idle k k').
Proof using BL.
  pose proof rtthread_startup_run as Hw. unfold wp in Hw.
  destruct (rtthread_startup kernel_reset) as [[[] k0]|]; [|done]. destruct Hw as [Hk0 Hmain].
  exists k0. split; [done|]. split; [done|]. intros k Hr. pose proof (steps_inv _ _ _ Hk0 Hr) as Hk. split.
  - destruct (sys_runs_highest _ _ Hk) as (t & th & ? & ? & ? & _ & ?). by exists t, th.
  - intros c He. by apply sys_calls_return.
Qed.
End start.
