(* ===== verification/Scenario.v ===== *)
(** A concrete system, built by the start-up code and the kernel's own calls,
    on which the theorems are applied. *)
From S2P Require Import Prelude Kservice Mem KState Sched Object Timer Thread Clock Ipc Sem Mutex Event Mailbox MsgQueue MemPool DataQueue Device Checks Startup System ThreadInit Boot Interact Camera.

(** An application whose callbacks and drivers do nothing. *)
#[global] Instance callbacks_w : Callbacks := {|
  addr_rt_thread_exit := 134300000;
  user_timeout := λ _ _, mret tt; user_cleanup := λ _ _, mret tt; user_idle := λ _, mret tt;
  dev_init_fn := λ _ _, mret 0; dev_open_fn := λ _ _ _, mret 0; dev_close_fn := λ _ _, mret 0;
  dev_read_fn := λ _ _ _ n, mret n; dev_write_fn := λ _ _ _ l, mret (Z.of_nat (length l));
  dev_control_fn := λ _ _ _ _, mret 0 |}.
#[global] Instance board_w : Board := {|
  addr_main_thread_entry := 134200000; addr_idle_entry := 134210000;
  addr_idle := 536873000; addr_idle_stack := 536874000;
  HEAP_BEGIN := 536880000; HEAP_END := 537001984;
  hal_init := mret tt; drivers_init := mret tt; board_fns := []; component_fns := [] |}.

(** The state after a call that returns. *)
Definition after {A} (m : K A) (k : kernel) : kernel :=
  match m k with Some (_, k') => k' | None => k end.
Definition k_boot : kernel := Eval vm_compute in after rtthread_startup kernel_reset.

(** * The system *)

Definition main_w : Z := 536880012.
Definition idle_w : Z := 536873000.
(** Static objects: semaphores with value 2 and 0, a mutex, an event with two
    flags, a mailbox of 3 words and a message queue of 8-byte messages; memory pools of four blocks
    and of one, with one block in use; a thread of lower priority than main and
    one that is not started. *)
Definition setup : K unit :=
  rt_sem_init 5000 [115; 50; 0] 2 RT_IPC_FLAG_FIFO;;
  rt_sem_init 5100 [115; 48; 0] 0 RT_IPC_FLAG_PRIO;;
  rt_mutex_init 5200 [109; 0] RT_IPC_FLAG_PRIO;;
  rt_event_init 5300 [101; 0] RT_IPC_FLAG_FIFO;;
  rt_event_send 5300 3;;
  rt_mb_init 5400 [98; 0] 5500 [0; 0; 0] 3 RT_IPC_FLAG_FIFO;;
  rt_mb_send 5400 77;;
  rt_mq_init 5600 [113; 0] 5700 6 48 RT_IPC_FLAG_FIFO;;
  rt_mq_send 5600 [1; 2; 3] 3;;
  rt_thread_init 6000 [97; 0] 134220000 0 7000 512 12 10;;
  rt_thread_startup 6000;;
  rt_thread_init 6200 [99; 0] 134240000 0 8000 512 9 10;;
  rt_mp_init 5800 [112; 0] 20000 64 10;;
  rt_mp_alloc 5800 0;;
  rt_mp_init 5900 [114; 0] 21000 16 12;;
  rt_mp_alloc 5900 0;;
  mret tt.
Definition k_run : kernel := Eval vm_compute in after setup k_boot.

(** A thread of priority 8 runs at once and waits 50 ticks for the semaphore
    5100, one of priority 7 takes the mutex and sleeps 20 ticks; main is the
    current thread again. *)
Definition block : K unit :=
  rt_thread_init 6100 [98; 0] 134230000 0 7600 512 8 10;;
  rt_thread_startup 6100;;
  rt_sem_take 5100 50;;
  rt_thread_init 6300 [100; 0] 134250000 0 8600 512 7 10;;
  rt_thread_startup 6300;;
  rt_mutex_take 5200 RT_WAITING_FOREVER;;
  rt_thread_sleep 20;;
  mret tt.
Definition k_wait : kernel := Eval vm_compute in after block k_run.

Definition some_thread : rt_thread := Thread 0 0 0 0 0 0 0 0 0 0 0 0 0 0 0 0 0.
Definition th_of (k : kernel) (t : Z) : rt_thread := default some_thread (threads k !! t).
(** [k_wait] when the clock reaches the first timeout. *)
Definition k_due : kernel := Eval vm_compute in set_rt_tick 20 k_wait.

Ltac calc := first [done | by vm_compute | vm_compute; by repeat split | vm_compute; by intuition congruence].
Ltac by_object := eexists; split; [by vm_compute; reflexivity|split; [by vm_compute|by vm_compute; auto]].

Lemma k_boot_inv : kinv 0 k_boot.
Proof. apply kinv_check. by vm_compute. Qed.
Lemma k_run_inv : kinv 0 k_run.
Proof. apply kinv_check. by vm_compute. Qed.
Lemma k_wait_inv : kinv 0 k_wait.
Proof. apply kinv_check. by vm_compute. Qed.
Lemma k_wait_inv_1 : kinv 1 k_wait.
Proof. apply kinv_check. by vm_compute. Qed.
Lemma k_run_other : other_ready main_w k_run.
Proof. exists idle_w, (th_of k_run idle_w). by repeat split; vm_compute. Qed.
Lemma k_wait_other : other_ready main_w k_wait.
Proof. exists idle_w, (th_of k_wait idle_w). by repeat split; vm_compute. Qed.
Lemma k_run_main : running main_w (th_of k_run main_w) k_run.
Proof. by constructor; vm_compute. Qed.
Lemma k_wait_main : running main_w (th_of k_wait main_w) k_wait.
Proof. by constructor; vm_compute. Qed.
Lemma k_run_sem : sem_ok 5000 2 k_run.
Proof. constructor; [by vm_compute|calc|by intros _; vm_compute|by_object]. Qed.
Lemma k_run_sem0 : sem_ok 5100 0 k_run.
Proof. constructor; [by vm_compute|calc|done|by_object]. Qed.
Lemma k_wait_sem0 : sem_ok 5100 0 k_wait.
Proof. constructor; [by vm_compute|calc|done|by_object]. Qed.
Lemma k_run_mutex : mutex_ok 5200 new_mutex k_run.
Proof. constructor; [by vm_compute|by_object|by split; vm_compute]. Qed.
Lemma k_wait_mutex : mutex_ok 5200 (Mutex 0 7 1 (Some 6300)) k_wait.
Proof.
  constructor; [by vm_compute|by_object|]. simpl. split; [done|]. split; [calc|]. split; [calc|].
  split; [exists (th_of k_wait 6300); by split; vm_compute|]. vm_compute. intros H. inversion H.
Qed.
Lemma k_run_event : event_ok 5300 3 k_run.
Proof. constructor; [by vm_compute|by_object|]. intros t H. vm_compute in H. inversion H. Qed.
Lemma k_run_mb : mb_ok 5400 (Mailbox [77; 0; 0] 5500 3 1 1 0) k_run.
Proof. constructor; [by vm_compute| |by_object]. constructor; calc. Qed.
Definition q_w : rt_messagequeue := Eval vm_compute in
  default (MQueue 0 0 0 0 ∅ 0 0 0) (mqueues k_run !! 5600).
Lemma k_run_mq : mq_ok 5600 q_w [5736] [5724; 5712; 5700] k_run.
Proof.
  constructor; [by vm_compute| |by_object]. constructor.
  - apply (bool_decide_unpack _). by vm_compute.
  - split; [done|]. split; [done|]. eexists. by split; [vm_compute|vm_compute].
  - do 3 (split; [done|]; split; [done|]; eexists; split; [by vm_compute|]). by vm_compute.
  - done.
  - done.
  - calc.
  - intros a n H. assert (map_Forall (λ _ n, Z.of_nat (length (msg_data n)) = mq_msg_size q_w) (mq_nodes q_w)) as Hf
      by (apply (bool_decide_unpack _); by vm_compute). by apply (Hf a n).
Qed.
Lemma k_run_sys : sys_inv idle_w k_run.
Proof.
  constructor; try done.
  - apply kinv_check. by vm_compute.
  - by constructor.
  - exists (th_of k_run idle_w). by split; vm_compute.
  - intros _. exists main_w. split; [done|]. exists 10, []. split; [lia|]. split; [by vm_compute|].
    intros q Hq. assert (Forall (λ q, tl (LReady q) k_run = []) (seqZ 0 10)) as Hf
      by (apply (bool_decide_unpack _); by vm_compute).
    rewrite Forall_forall in Hf. apply Hf, elem_of_seqZ. lia.
  - assert (map_Forall (λ s v, s = 5000 ∧ v = 2 ∨ s = 5100 ∧ v = 0) (sems k_run)) as Hf
      by (apply (bool_decide_unpack _); by vm_compute).
    intros s v Hv. destruct (Hf s v Hv) as [[-> ->]|[-> ->]]; [apply k_run_sem|apply k_run_sem0].
Qed.
Definition m_w : rt_mempool := Eval vm_compute in default (MemPool 0 0 0 0 0 0) (mempools k_run !! 5800).
Definition m1_w : rt_mempool := Eval vm_compute in default (MemPool 0 0 0 0 0 0) (mempools k_run !! 5900).
Lemma k_run_mp : mp_ok 5800 m_w [20016; 20032; 20048] [20000] k_run.
Proof.
  constructor; [by vm_compute|]. constructor; try calc.
  - vm_compute. apply (Permutation_app_comm [_; _; _] [_]).
  - do 3 (split; [done|]; split; [done|]; eexists; split; [by vm_compute|]). by vm_compute.
  - intros b ->%list_elem_of_singleton. by vm_compute.
Qed.
Lemma k_run_mp1 : mp_ok 5900 m1_w [] [21000] k_run.
Proof.
  constructor; [by vm_compute|]. constructor; try calc.
  intros b ->%list_elem_of_singleton. by vm_compute.
Qed.

(** A standalone device, and a structure for a second one. *)
#[global] Instance driver_w dev : DriverLaws dev.
Proof.
  split; intros; apply wp_ret; split; [done| |done| |done|];
    intros d Hd; by exists d.
Qed.
Definition dev_setup : K unit :=
  dev ← rt_device_create 0 0;
  rt_device_register dev [117; 49; 0] (3 + RT_DEVICE_FLAG_STANDALONE);;
  rt_device_create 0 0;; mret tt.
Definition k_dev : kernel := Eval vm_compute in after dev_setup k_run.
Definition dev_w : Z := Eval vm_compute in default 0 (last ((map_to_list (devices k_dev)).*1)).
Definition dev2_w : Z := Eval vm_compute in default 0 (head ((map_to_list (devices k_dev)).*1)).
Definition k_dev_open : kernel := Eval vm_compute in after (rt_device_open dev_w 3) k_dev.
(** A driver that registered a write function, its device open. *)
Definition k_con : kernel := Eval vm_compute in after (upd_device dev_w (set_dev_write 1)) k_dev_open.
Definition dev_of (k : kernel) (d : Z) : rt_device :=
  default (Device 0 0 0 0 0 0 0 0 0 0 0 0 0 0) (devices k !! d).
Lemma k_dev_ok : dev_ok dev_w (dev_of k_dev dev_w) k_dev.
Proof. constructor; [done|by vm_compute| |calc]. eexists. by split; [vm_compute; reflexivity|vm_compute]. Qed.
Lemma k_dev_open_ok : dev_ok dev_w (dev_of k_dev_open dev_w) k_dev_open.
Proof. constructor; [done|by vm_compute| |calc]. eexists. by split; [vm_compute; reflexivity|vm_compute]. Qed.
Lemma k_con_ok : dev_ok dev_w (dev_of k_con dev_w) k_con.
Proof. constructor; [done|by vm_compute| |calc]. eexists. by split; [vm_compute; reflexivity|vm_compute]. Qed.
Lemma k_dev_inv : kinv 0 k_dev.
Proof. apply kinv_check. by vm_compute. Qed.

#[global] Program Instance board_laws_w : BoardLaws := {| drivers_room := 0 |}.
Next Obligation. done. Qed.
Next Obligation.
  intros room k Hk _. unfold rt_components_board_init, run_fns. simpl. apply wp_ret.
  by rewrite Z.sub_0_r.
Qed.
Next Obligation. by split_and!; vm_compute. Qed.
Next Obligation. split_and!; [done|left|..]; by vm_compute. Qed.

(** * A data queue and a completion *)

#[export] Instance dq_callbacks_w : DqCallbacks := {| evt_notify_fn := λ _ _ _, mret tt |}.
#[export] Instance dq_laws_w : NotifyLaws.
Proof. intros f queue event s Hk. by apply wp_ret. Qed.
(** The state after rt_data_queue_init with two items. *)
Definition dq_start : dstate := Eval vm_compute in
  match rt_data_queue_init 5950 2 1 0 (k_run, ∅) with Some (_, s) => s | None => (k_run, ∅) end.
Definition k_dq : kernel := Eval vm_compute in dq_start.1.
Definition dq_w : rt_data_queue := Eval vm_compute in
  default (DQueue 0 0 0 0 true 0 false 0 [] 0) (dq_start.2 !! 5950).
Lemma k_dq_inv : kinv 0 k_dq.
Proof. apply kinv_check. by vm_compute. Qed.
Lemma k_dq_main : running main_w (th_of k_dq main_w) k_dq.
Proof. by constructor; vm_compute. Qed.
Lemma k_dq_other : other_ready main_w k_dq.
Proof. exists idle_w, (th_of k_dq idle_w). by repeat split; vm_compute. Qed.
Lemma k_dq_ok : dq_ok 5950 dq_w 0 (k_dq, {[ 5950 := dq_w ]}).
Proof.
  constructor; [done|by vm_compute|]. constructor; try done; try (split; by vm_compute).
Qed.

(** * The camera server *)

(** main makes the display's thread and the server's, and sleeps; the display's
    thread sleeps too; the server runs. *)
Definition cam_w : Z := 6000.
Definition camera_setup : K unit :=
  lv_port_init 134260000;;
  eth_camera_capture 5000 cam_w 7000 134270000;;
  rt_thread_mdelay 3000;;
  rt_thread_mdelay 5;;
  mret tt.
Definition k_cam : kernel := Eval vm_compute in after camera_setup k_boot.
Definition lvgl_w : Z := Eval vm_compute in
  match rt_thread_find (Some LVGL_NAME) k_cam with Some (Some (Obj t), _) => t | _ => 0 end.
Lemma k_cam_sem : sem_ok 5000 0 k_cam.
Proof. constructor; [by vm_compute|calc|done|by_object]. Qed.
Lemma k_cam_sys : sys_inv idle_w k_cam.
Proof.
  constructor; try done.
  - apply kinv_check. by vm_compute.
  - vm_compute. repeat (constructor; [by eexists|]). by constructor.
  - exists (th_of k_cam idle_w). by split; vm_compute.
  - intros _. exists cam_w. split; [done|]. exists 15, []. split; [lia|]. split; [by vm_compute|].
    intros q Hq. assert (Forall (λ q, tl (LReady q) k_cam = []) (seqZ 0 15)) as Hf
      by (apply (bool_decide_unpack _); by vm_compute).
    rewrite Forall_forall in Hf. apply Hf, elem_of_seqZ. lia.
  - assert (map_Forall (λ s v, s = 5000 ∧ v = 0) (sems k_cam)) as Hf
      by (apply (bool_decide_unpack _); by vm_compute).
    intros s v Hv. destruct (Hf s v Hv) as [-> ->]. apply k_cam_sem.
Qed.
Lemma k_cam_ok : camera_ok idle_w cam_w lvgl_w k_cam.
Proof.
  constructor; [apply k_cam_sys|done| |].
  - exists (th_of k_cam cam_w), (th_of k_cam lvgl_w). by repeat split; vm_compute.
  - intros l p Hl Hp (o & Ho & Hn).
    assert (Forall (λ p, p = Obj lvgl_w ∨ (ctake 8 ∘ o_name <$> objects k_cam !! p) ≠ Some (ctake 8 LVGL_NAME))
      (default [] (containers k_cam !! RT_Object_Class_Thread))) as Hf
      by (apply (bool_decide_unpack _); by vm_compute).
    rewrite Hl in Hf. rewrite Forall_forall in Hf. destruct (Hf p Hp) as [|Hne]; [done|].
    rewrite Ho in Hne. destruct Hne. change (Some (ctake 8 (o_name o)) = Some (ctake 8 LVGL_NAME)). by rewrite Hn.
Qed.
(** lwIP answers [v], or with a client; the DMA writes [bytes]. *)
Definition ans (v client : Z) (bytes : list Z) : answer := Answer v client 320 240 bytes k_cam.
Definition frame_w : list Z := [255; 216] ++ replicate 200 7 ++ [255; 217].
Definition up_to_stream : list answer :=
  [ans 1 0 []; ans 7 0 []; ans 0 0 []; ans 0 0 []; ans 0 0 []; ans 0 0 []; ans 0 9 []; ans 0 0 []; ans 0 0 []].
Definition one_frame (err : Z) : list answer := [ans 0 0 frame_w; ans err 0 []; ans 0 0 []].
Fixpoint run_rounds (n : nat) (p : pc) (s : server) : option (pc * server) :=
  match n with
  | O => Some (p, s)
  | S n => match round p s with Done p' s' => run_rounds n p' s' | _ => None end
  end.
Lemma run_rounds_steps n p s x : run_rounds n p s = Some x → rtc server_step (p, s) x.
Proof.
  revert p s. induction n as [|n IH]; intros p s E; simpl in E; [by injection E as <-|].
  destruct (round p s) as [p' s'| |] eqn:Er; try done. eapply rtc_l; [by constructor|]. by apply IH.
Qed.
