(* ===== verification/Witnesses.v ===== *)
(** Each theorem of the kernel that has hypotheses, applied to the system of
    [Scenario]. *)
From Stdlib Require Import Sorting.Sorted.
From S2P Require Import Prelude Kservice Mem KState Sched Object Timer Thread Clock Ipc Sem Mutex Event Mailbox MsgQueue MemPool DriverIpc DataQueue Completion Device Printf Console Checks Startup System ThreadInit Boot Interact Camera NetPerf Msh Shell Scenario.

Lemma rt_schedule_picks_highest_witness :
  wp rt_schedule (λ _ k', sched_inv k') (set_current_thread (Some idle_w) k_run).
Proof.
  eapply wp_mono; [apply rt_schedule_picks_highest|by intros [] k' [? _]].
  - apply sched_fin_inv. apply (bool_decide_unpack _). by vm_compute.
  - done.
  - exists idle_w, (th_of k_run idle_w). by split; vm_compute.
Defined.
Lemma rt_object_init_find_witness :
  wp (rt_object_init (Obj 9000) RT_Object_Class_Semaphore [110; 101; 119; 0];;
      rt_object_find (Some [110; 101; 119; 0]) RT_Object_Class_Semaphore)
     (λ r _, r = Some (Obj 9000)) k_run.
Proof.
  eapply wp_mono; [apply rt_object_init_find|by intros r k' [? _]].
  - apply k_run_inv.
  - apply k_run_inv.
  - exists idle_w, (th_of k_run idle_w). by split; vm_compute.
  - done.
  - done.
  - done.
  - eexists. by vm_compute.
  - by vm_compute.
  - apply (bool_decide_unpack _). by vm_compute.
  - apply (bool_decide_unpack _). by vm_compute.
Defined.
Lemma rt_timer_start_orders_witness :
  wp (rt_timer_start (ThTimer 6300)) (λ r _, r = RT_EOK) k_wait.
Proof.
  eapply wp_mono; [eapply rt_timer_start_orders|by intros r k' [? _]].
  - apply k_wait_inv.
  - by vm_compute.
  - by vm_compute.
  - by vm_compute.
  - calc.
Defined.
Lemma rt_timer_next_timeout_tick_minimum_witness :
  wp rt_timer_next_timeout_tick (λ _ k', k' = k_wait) k_wait.
Proof.
  eapply wp_mono; [apply rt_timer_next_timeout_tick_minimum, k_wait_inv|by intros r k' [? _]].
Defined.

(** * Threads and the clock *)

Lemma rt_thread_suspend_resume_witness :
  wp (rt_thread_suspend 6000 ≫= (λ r1, rt_thread_resume 6000 ≫= (λ r2, mret (r1, r2))))
     (λ r _, r = (RT_EOK, RT_EOK)) k_run.
Proof.
  eapply wp_mono; [apply (rt_thread_suspend_resume k_run 6000 (th_of k_run 6000))|by intros r k' [? _]].
  - apply k_run_inv.
  - by vm_compute.
  - by vm_compute.
Defined.
Lemma rt_thread_wrong_state_witness :
  rt_thread_suspend 6100 k_wait = Some (- RT_ERROR, k_wait).
Proof.
  apply (rt_thread_wrong_state k_wait 6100 (th_of k_wait 6100)); [apply k_wait_inv|calc..].
Defined.
Lemma rt_thread_yield_rotates_witness :
  wp rt_thread_yield (λ r k', r = RT_EOK) k_run.
Proof.
  eapply wp_mono; [apply (rt_thread_yield_rotates k_run main_w (th_of k_run main_w) [])|by intros r k' [? _]];
    [apply k_run_inv|by vm_compute..].
Defined.
Lemma rt_thread_sleep_suspends_witness :
  wp (rt_thread_sleep 20) (λ r _, r = Wait main_w) k_run.
Proof.
  eapply wp_mono; [apply (rt_thread_sleep_suspends k_run main_w (th_of k_run main_w))|by intros r k' [? _]];
    [apply k_run_inv|by vm_compute..|apply k_run_other|calc].
Defined.
Lemma rt_thread_startup_runs_witness :
  wp (rt_thread_startup 6200) (λ r k', r = RT_EOK ∧ current_thread k' = Some 6200) k_run.
Proof.
  eapply wp_mono; [apply (rt_thread_startup_runs k_run 6200 (th_of k_run 6200) main_w)|];
    [apply k_run_inv|by vm_compute..| |].
  - vm_compute. intros H. by repeat (apply elem_of_cons in H as [H|H]; [done|]); inversion H.
  - intros r k' (-> & _ & _ & _ & Hrun). split; [done|]. apply Hrun.
    assert (map_Forall (λ _ th, stat_of th = RT_THREAD_READY →
      th_init_priority (th_of k_run 6200) < th_current_priority th) (threads k_run)) as H
      by (apply (bool_decide_unpack _); by vm_compute). apply H.
Defined.
Lemma rt_thread_control_change_priority_witness :
  wp (rt_thread_control 6000 RT_THREAD_CTRL_CHANGE_PRIORITY 9) (λ r _, r = RT_EOK) k_run.
Proof.
  eapply wp_mono; [apply (rt_thread_control_change_priority k_run 6000 (th_of k_run 6000) 9)|by intros r k' [? _]];
    [apply k_run_inv|by vm_compute..|calc].
Defined.
Lemma k_wait_timers : thread_timers k_wait.
Proof. repeat constructor; by eexists. Qed.
Lemma rt_tick_increase_wakes_witness :
  wp (rt_tick_increase 3) (λ _ k', rt_tick k' = 1) k_wait.
Proof.
  eapply wp_mono; [apply (rt_tick_increase_wakes k_wait main_w (th_of k_wait main_w))|by intros r k' (_ & -> & _)].
  - apply k_wait_inv_1.
  - apply k_wait_timers.
  - by vm_compute.
  - by vm_compute.
  - by vm_compute.
  - vm_compute. lia.
Defined.
Lemma rt_thread_sleep_lasts_witness :
  wp (rt_thread_sleep 5;; rt_ticks 4 8) (λ _ k', ∃ th', threads k' !! main_w = Some th' ∧
    stat_of th' = RT_THREAD_SUSPEND) k_wait.
Proof.
  eapply wp_mono; [apply (rt_thread_sleep_lasts k_wait main_w (th_of k_wait main_w))|];
    [apply k_wait_inv_1|done|apply k_wait_timers|by vm_compute..|apply k_wait_other|calc|vm_compute; lia|].
  intros [] k' (_ & th' & ? & H). exists th'. split; [done|]. rewrite decide_False in H by (simpl; lia). done.
Defined.

(** * IPC *)

Lemma k_wait_sorted : prio_sorted k_wait [6100].
Proof. intros [|i] [|j] u v p q Hij; [lia|done..]. Qed.
Lemma rt_ipc_list_suspend_order_witness :
  wp (rt_ipc_list_suspend (LSuspend 5100) 6000 RT_IPC_FLAG_PRIO) (λ r _, r = RT_EOK) k_wait.
Proof.
  eapply wp_mono; [apply (rt_ipc_list_suspend_order k_wait 6000 (th_of k_wait 6000))|by intros r k' [? _]];
    [apply k_wait_inv|by vm_compute..|done|by right|apply k_wait_sorted].
Defined.
Lemma rt_sem_take_nowait_witness :
  wp (rt_sem_take 5000 0) (λ r k', r = Ret RT_EOK) k_run.
Proof.
  eapply wp_mono; [apply (rt_sem_take_nowait k_run 5000 2); [apply k_run_inv|apply k_run_sem|by left]|].
  by intros r k' [? _].
Defined.
Lemma rt_sem_take_waits_witness :
  wp (rt_sem_take 5100 9) (λ r k', r = Wait main_w) k_wait.
Proof.
  eapply wp_mono; [apply (rt_sem_take_waits k_wait 5100 main_w (th_of k_wait main_w))|by intros r k' [? _]];
    [apply k_wait_inv|apply k_wait_sem0|by vm_compute..|apply k_wait_other|done|calc].
Defined.
Lemma rt_sem_release_wakes_witness :
  wp (rt_sem_release 5100) (λ r k', tl (LSuspend 5100) k' = []) k_wait.
Proof.
  eapply wp_mono; [apply (rt_sem_release_wakes k_wait 5100 0); [apply k_wait_inv|apply k_wait_sem0]|].
  by intros r k' (_ & _ & _ & _ & ? & _).
Defined.
Lemma rt_sem_handover_witness :
  wp (rt_sem_take 5100 9;; rt_sem_release 5100;; rt_sem_take_resume main_w) (λ r _, r = RT_EOK) k_run.
Proof.
  destruct (rt_sem_handover k_run 5100 main_w (th_of k_run main_w) 9) as [H _];
    [apply k_run_inv|apply k_run_sem0|by vm_compute..|apply k_run_other|done|calc|].
  eapply wp_mono; [exact H|by intros r k' [? _]].
Defined.
Lemma rt_mutex_take_owns_witness :
  wp (rt_mutex_take 5200 0) (λ r _, r = Ret RT_EOK) k_run.
Proof.
  eapply wp_mono; [apply (rt_mutex_take_owns k_run 5200 new_mutex main_w (th_of k_run main_w));
    [apply k_run_inv|apply k_run_mutex|apply k_run_main|by left]|].
  by intros r k' (_ & mx & _ & _ & _ & ? & _).
Defined.
Lemma rt_mutex_take_busy_witness :
  wp (rt_mutex_take 5200 0) (λ r _, r = Ret (- RT_ETIMEOUT)) k_wait.
Proof.
  eapply wp_mono; [eapply (rt_mutex_take_busy k_wait 5200 _ main_w);
    [apply k_wait_inv|apply k_wait_mutex|apply k_wait_main|done|done]|]. by intros r k' [? _].
Defined.
Lemma rt_mutex_take_inherits_witness :
  wp (rt_mutex_take 5200 30) (λ r _, r = Wait main_w) k_wait.
Proof.
  eapply wp_mono; [eapply (rt_mutex_take_inherits k_wait 5200 _ main_w _ 6300 (th_of k_wait 6300));
    [apply k_wait_inv|apply k_wait_mutex|apply k_wait_main|done|done|by vm_compute..|apply k_wait_other|done|calc]|].
  by intros r k' [? _].
Defined.
Lemma rt_mutex_release_passes_witness :
  wp (rt_mutex_release 5200) (λ r _, r = - RT_ERROR) k_wait.
Proof.
  eapply wp_mono; [eapply (rt_mutex_release_passes k_wait 5200 _ main_w);
    [apply k_wait_inv|apply k_wait_mutex|apply k_wait_main]|].
  intros r k' [_ H]. rewrite bool_decide_false in H by done. by destruct H.
Defined.
Lemma rt_event_send_wakes_witness :
  wp (rt_event_send 5300 4) (λ r _, r = RT_EOK) k_run.
Proof.
  eapply wp_mono; [apply (rt_event_send_wakes k_run 5300 3); [apply k_run_inv|apply k_run_event|done]|].
  by intros r k' [? _].
Defined.
Lemma rt_event_recv_nowait_witness :
  wp (rt_event_recv 5300 6 RT_EVENT_FLAG_OR 0) (λ r _, r = Ret (RT_EOK, Some 2)) k_run.
Proof.
  eapply wp_mono; [apply (rt_event_recv_nowait k_run 5300 3 main_w (th_of k_run main_w));
    [apply k_run_inv|apply k_run_event|by vm_compute..|by left]|].
  by intros r k' (_ & _ & _ & ? & _).
Defined.
Lemma rt_mb_send_appends_witness :
  wp (rt_mb_send_wait 5400 8 0) (λ r _, r = Ret RT_EOK) k_run.
Proof.
  eapply wp_mono; [eapply (rt_mb_send_appends k_run 5400 _ 8 0); [apply k_run_inv|apply k_run_mb|calc]|].
  by intros r k' [? _].
Defined.
Lemma rt_mb_recv_takes_witness :
  wp (rt_mb_recv 5400 0) (λ r _, r = Ret (RT_EOK, Some 77)) k_run.
Proof.
  eapply wp_mono; [eapply (rt_mb_recv_takes k_run 5400 _ 0); [apply k_run_inv|apply k_run_mb|calc]|].
  intros r k' (v & m' & -> & _ & _ & _ & _ & E & _). injection E as <- _. done.
Defined.
Lemma rt_mq_send_appends_witness :
  wp (rt_mq_send_wait 5600 [9; 9] 2 0) (λ r _, r = Ret RT_EOK) k_run.
Proof.
  eapply wp_mono; [eapply (rt_mq_send_appends k_run 5600); [apply k_run_inv|apply k_run_mq|calc|by vm_compute; lia]|].
  by intros r k' [? _].
Defined.
Lemma rt_mq_urgent_prepends_witness :
  wp (rt_mq_urgent 5600 [9; 9] 2) (λ r _, r = RT_EOK) k_run.
Proof.
  eapply wp_mono; [eapply (rt_mq_urgent_prepends k_run 5600); [apply k_run_inv|apply k_run_mq|calc|by vm_compute; lia]|].
  by intros r k' [? _].
Defined.
Lemma rt_mq_recv_takes_witness :
  wp (rt_mq_recv 5600 3 0) (λ r _, r = Ret (RT_EOK, Some [1; 2; 3])) k_run.
Proof.
  eapply wp_mono; [eapply (rt_mq_recv_takes k_run 5600); [apply k_run_inv|apply k_run_mq|done]|].
  intros r k' (d & l & E & -> & _). injection E as <- _. by vm_compute.
Defined.

(** * Memory pools *)

Lemma rt_mp_alloc_takes_witness :
  wp (rt_mp_alloc 5800 0) (λ r _, r = Ret 20020) k_run.
Proof.
  eapply wp_mono; [eapply (rt_mp_alloc_takes k_run 5800); apply k_run_mp|by intros r k' [? _]].
Defined.
Lemma rt_mp_free_returns_witness :
  wp (rt_mp_free 20004) (λ _ k', kinv 0 k') k_run.
Proof.
  eapply wp_mono; [eapply (rt_mp_free_returns k_run 5800 _ 20000); [apply k_run_inv|apply k_run_mp|by left]|].
  by intros r k' [? _].
Defined.
Lemma rt_mp_alloc_waits_witness :
  wp (rt_mp_alloc 5900 30) (λ r k', tl (LSuspend 5900) k' = [main_w]) k_run.
Proof.
  eapply wp_mono; [eapply (rt_mp_alloc_waits k_run 5900 _ _ main_w _ 30);
    [apply k_run_inv|apply k_run_mp1|apply k_run_main|done|apply k_run_other|calc]|].
  by intros r k' (_ & _ & _ & ? & _).
Defined.

(** * The system *)

(** main waits for a semaphore with a timeout, a tick passes, the thread of
    priority 12, which runs then, releases the semaphore. *)
Definition k_s1 : kernel := Eval vm_compute in after (exec (SemTake 5100 7)) k_run.
Definition k_s2 : kernel := Eval vm_compute in after (exec Tick) k_s1.
Definition k_s3 : kernel := Eval vm_compute in after (exec (SemRelease 5100)) k_s2.
Lemma k_run_step1 : exec (SemTake 5100 7) k_run = Some (tt, k_s1).
Proof. vm_cast_no_check (eq_refl (Some (tt, k_s1))). Qed.
Lemma k_run_step2 : exec Tick k_s1 = Some (tt, k_s2).
Proof. vm_cast_no_check (eq_refl (Some (tt, k_s2))). Qed.
Lemma k_run_step3 : exec (SemRelease 5100) k_s2 = Some (tt, k_s3).
Proof. vm_cast_no_check (eq_refl (Some (tt, k_s3))). Qed.
Lemma k_run_steps : rtc (step idle_w) k_run k_s3.
Proof.
  eapply rtc_l; [apply (step_call _ _ _ (SemTake 5100 7)); [|apply k_run_step1]|].
  { split; [by eexists|]. split; [done|]. right. done. }
  eapply rtc_l; [apply (step_call _ _ _ Tick); [done|apply k_run_step2]|].
  eapply rtc_l; [apply (step_call _ _ _ (SemRelease 5100)); [by eexists|apply k_run_step3]|].
  apply rtc_refl.
Qed.
Lemma reachable_runs_highest_witness :
  ∃ t, current_thread (after (exec (SemRelease 5100)) (after (exec Tick) (after (exec (SemTake 5100 7)) k_run)))
    = Some t.
Proof.
  destruct (reachable_runs_highest idle_w k_run _ k_run_sys k_run_steps) as [(t & _ & Ht & _) _]. by exists t.
Defined.
Lemma reachable_calls_return_witness :
  ∃ k', exec (Sleep 3) k_run = Some (tt, k').
Proof.
  destruct (reachable_calls_return idle_w k_run k_run (Sleep 3) k_run_sys (rtc_refl _ _)) as (k' & E & _);
    [by split; [|done]|by exists k'].
Defined.

(** * Devices *)

Lemma rt_device_close_failure_sticks_witness :
  wp (r ← rt_device_close dev_w; if accepted r then mret [] else dev_calls dev_w [OpOpen 3])
     (λ rs _, Forall (λ r, r ≠ RT_EOK) rs) k_dev_open.
Proof.
  apply (rt_device_close_failure_sticks k_dev_open (dev_of k_dev_open dev_w)); [apply k_dev_open_ok|by vm_compute..].
Defined.
Lemma rt_device_register_static_witness :
  wp (rt_device_register dev2_w [117; 50; 0] 3) (λ r _, r = RT_EOK ∨ r = - RT_ERROR) k_dev.
Proof.
  eapply wp_mono; [apply (rt_device_register_static k_dev dev2_w (dev_of k_dev dev2_w) [117; 50; 0] 3 [Obj dev_w])|].
  - apply k_dev_inv.
  - apply k_dev_inv.
  - exists idle_w, (th_of k_dev idle_w). by split; vm_compute.
  - calc.
  - done.
  - by vm_compute.
  - by vm_compute.
  - apply (bool_decide_unpack _). by vm_compute.
  - apply (bool_decide_unpack _). by vm_compute.
  - done.
  - by vm_compute.
  - intros r k' [[? _]|[? _]]; auto.
Defined.

(** * Start-up *)

Lemma rtthread_startup_safe_witness : ∃ k0, rtthread_startup kernel_reset = Some (tt, k0) ∧
  ∀ k, rtc (step idle_w) k0 k → is_Some (current_thread k).
Proof.
  destruct rtthread_startup_safe as (k0 & Hk0 & _ & Hr). exists k0. split; [done|].
  intros k Hk. destruct (Hr k Hk) as [(t & th & Ht & _) _]. by exists t.
Defined.
Lemma rt_thread_init_makes_witness :
  wp (rt_thread_init 9200 [122; 0] 134260000 0 9600 128 5 10) (λ r k', r = RT_EOK ∧ kinv 0 k') k_run.
Proof.
  eapply wp_mono; [apply (rt_thread_init_makes k_run 9200 [122; 0] 134260000 0 9600 128 5 10)|
    by intros r k' (? & ? & _)].
  - apply k_run_inv.
  - right. exists idle_w, (th_of k_run idle_w). by split; vm_compute.
  - calc.
  - constructor; [done| |by vm_compute|by vm_compute| |].
    + exact (proj1 (tlinked_false 9200 k_run) ltac:(by vm_compute)).
    + apply (bool_decide_unpack _). by vm_compute.
    + apply (bool_decide_unpack _). by vm_compute.
  - eexists. by vm_compute.
  - eexists. by vm_compute.
  - apply (bool_decide_unpack _). by vm_compute.
  - apply (bool_decide_unpack _). by vm_compute.
  - calc.
  - done.
  - done.
  - done.
Defined.

(** * Console *)

(** 12 in three places with a plus sign. *)
(** "%-4d|%s" with 42 and "hi" into 7 bytes *)
Lemma rt_vsnprintf_contract_witness :
  ∃ mem', rt_vsnprintf 1000 7 [37; 45; 52; 100; 124; 37; 115; 0] [AInt 42; AStr (Some [104; 105; 0])] ∅ = Some (7, mem') ∧
    printed 1000 7 [52; 50; 32; 32; 124; 104; 105] ∅ mem'.
Proof.
  apply (rt_vsnprintf_contract 1000 7 [37; 45; 52; 100; 124; 37; 115; 0] [AInt 42; AStr (Some [104; 105; 0])] ∅); lia.
Defined.
Lemma print_number_correct_witness :
  ∃ ds, value 10 ds = 12 ∧
    writes (print_number 12 10 4 (-1) (Z.lor SIGN PLUS))
      (number_text (rev (digit_char false <$> ds)) 12 4 (-1) (Z.lor SIGN PLUS)) tt.
Proof.
  destruct (print_number_correct 12 10 4 (-1) (Z.lor SIGN PLUS)) as (ds & _ & Hv & _ & Hw); [by left|lia|].
  by exists ds.
Defined.
Lemma rt_kprintf_sends_witness :
  wp (rt_kprintf dev_w [104; 105; 0] [] 536870912 ∅) (λ _ k', is_Some (devices k' !! dev_w)) k_con.
Proof.
  apply (rt_kprintf_sends k_con dev_w (dev_of k_con dev_w) [104; 105; 0] [] [104; 105] 536870912 ∅
           (λ k', is_Some (devices k' !! dev_w))).
  - apply k_con_ok.
  - by vm_compute.
  - by vm_compute.
  - apply (format_loop_plain [104; 105]). by repeat constructor.
  - lia.
  - lia.
  - simpl. lia.
  - simpl. lia.
  - apply wp_ret. eexists. split; [apply lookup_insert_eq|]. split; [done|].
    cbn [set_devices devices]. rewrite lookup_insert_eq. by eexists.
Defined.

(** * Data queues and completions *)

Definition dq_ops_w : list dq_op := [DPush (1, 4); DPush (2, 8); DPush (3, 8); DPop; DPop; DPop].
Lemma rt_data_queue_refines_witness :
  wp (dq_calls 5950 dq_ops_w) (λ rs _, rs =
    [(RT_EOK, None); (RT_EOK, None); (- RT_ETIMEOUT, None); (RT_EOK, Some (1, 4)); (RT_EOK, Some (2, 8));
     (- RT_ETIMEOUT, None)]) (k_dq, {[ 5950 := dq_w ]}).
Proof.
  eapply wp_mono; [apply (rt_data_queue_refines dq_ops_w _ 5950 dq_w 0); [apply k_dq_inv|apply k_dq_ok]|].
  intros rs s' (q' & n' & _ & _ & E). injection E as <- _. done.
Defined.
Lemma rt_data_queue_handover_witness :
  wp (r ← rt_data_queue_pop 5950 7;
      match r with
      | Wait f => rt_data_queue_push 5950 11 12 0;; rt_data_queue_pop_resume f
      | Ret x => mret (Ret x)
      end) (λ r _, r = Ret (RT_EOK, Some (11, 12))) (k_dq, {[ 5950 := dq_w ]}).
Proof.
  eapply wp_mono; [apply (rt_data_queue_handover k_dq _ 5950 dq_w main_w (th_of k_dq main_w) 11 12 7 0);
    [apply k_dq_inv|apply k_dq_ok|apply k_dq_main|apply k_dq_other|by vm_compute|done|calc]|].
  by intros r s' (? & _).
Defined.
Lemma rt_completion_handover_witness :
  wp (r ← rt_completion_wait 5960 9;
      match r with
      | Wait t => rt_completion_done 5960;; rt_completion_wait_resume 5960 t
      | Ret r => mret r
      end) (λ r _, r = RT_EOK) (k_dq, {[ 5960 := RT_UNCOMPLETED ]}).
Proof.
  eapply wp_mono; [apply (rt_completion_handover k_dq {[ 5960 := RT_UNCOMPLETED ]} 5960 main_w (th_of k_dq main_w) 9);
    [apply k_dq_inv|done|by vm_compute|apply k_dq_main|apply k_dq_other|by vm_compute|done|calc]|].
  by intros r s' (? & _).
Defined.
Lemma rt_completion_lost_witness :
  wp (r ← rt_completion_wait 5960 9;
      match r with
      | Wait t =>
          in_k (rt_timer_stop (ThTimer t);; rt_thread_timeout t);;
          rt_completion_done 5960;;
          r1 ← rt_completion_wait_resume 5960 t;
          r2 ← rt_completion_wait 5960 0;
          mret (r1, r2)
      | Ret _ => fail
      end) (λ r _, r = (- RT_ETIMEOUT, Ret (- RT_ETIMEOUT))) (k_dq, {[ 5960 := RT_UNCOMPLETED ]}).
Proof.
  eapply wp_mono; [apply (rt_completion_lost k_dq {[ 5960 := RT_UNCOMPLETED ]} 5960 main_w (th_of k_dq main_w) 9);
    [apply k_dq_inv|done|by vm_compute|apply k_dq_main|apply k_dq_other|by vm_compute|done|calc]|].
  by intros r s' (? & _).
Defined.

(** * The camera server *)

Lemma eth_camera_pause_lvgl_noop_witness :
  wp (pause_lvgl 0) (λ _ k', threads k' = threads k_cam) k_cam ∧
  wp (resume_lvgl lvgl_w) (λ _ k', ∃ th', threads k' !! lvgl_w = Some th' ∧ stat_of th' = RT_THREAD_READY) k_cam.
Proof.
  destruct (eth_camera_pause_lvgl_noop idle_w cam_w lvgl_w k_cam 0 k_cam_ok) as [Hp Hr]; [by left|]. split.
  - eapply wp_mono; [exact Hp|]. by intros t k' (_ & ? & _).
  - eapply wp_mono; [apply (Hr (th_of k_cam lvgl_w)); by vm_compute|]. by intros x k' (? & _).
Defined.
(** Boot, listen, set up the camera, accept client 9, send one frame. *)
Lemma server_sends_frames_witness :
  ∃ s, run_rounds 4 PBoot (server_start k_cam (up_to_stream ++ one_frame 0)) = Some (PStream 7 9, s) ∧
    only_frames (sv_log s) ∧ g_newconn s = 9.
Proof.
  assert (fst <$> run_rounds 4 PBoot (server_start k_cam (up_to_stream ++ one_frame 0)) = Some (PStream 7 9)) as E
    by (vm_compute; reflexivity).
  destruct (run_rounds 4 PBoot _) as [[p s]|] eqn:Er; [|discriminate E]. injection E as ->. exists s.
  split; [done|]. apply run_rounds_steps in Er.
  destruct (server_sends_frames idle_w cam_w lvgl_w k_cam (up_to_stream ++ one_frame 0) (PStream 7 9) s)
    as (Hf & Hc & _); [apply k_cam_ok| |done|done].
  repeat (apply Forall_cons; split; [apply k_cam_ok|]). by apply Forall_nil.
Defined.
(** lwIP answers ERR_ABRT twice: the server stays with client 9. *)
Lemma server_keeps_dead_client_witness :
  ∃ s, run_rounds 2 (PStream 7 9) (Server k_cam 9 true 0 zero_buf (320, 240) (one_frame (-13) ++ one_frame (-13)) [])
    = Some (PStream 7 9, s) ∧ g_newconn s = 9.
Proof.
  set (s0 := Server _ _ _ _ _ _ _ _).
  assert (fst <$> run_rounds 2 (PStream 7 9) s0 = Some (PStream 7 9)) as E by (vm_compute; reflexivity).
  destruct (run_rounds 2 _ _) as [[p s]|] eqn:Er; [|discriminate E]. injection E as ->. exists s.
  split; [done|]. apply run_rounds_steps in Er.
  destruct (server_keeps_dead_client idle_w cam_w lvgl_w 7 9 s0 (PStream 7 9) s) as (_ & Hc & _); [| |done|done].
  - constructor; [constructor|apply k_cam_ok|done].
    + apply zero_buf_length.
    + by left.
    + repeat (apply Forall_cons; split; [apply k_cam_ok|]). by apply Forall_nil.
    + intros c d H. by apply not_elem_of_nil in H.
  - repeat (apply Forall_cons; split; [by split|]). by apply Forall_nil.
Defined.

(** * The throughput test *)

(** "netperf s 5003 1": one second, one block of 4096 bytes. *)
Definition np_argv_w : list (list Z) :=
  [[110; 101; 116; 112; 101; 114; 102; 0]; [115; 0]; [53; 48; 48; 51; 0]; [49; 0]].
Definition np_answers_w : list np_answer :=
  (λ v, NpAnswer v []) <$> [100; 1; 3; 0; 0; 100; 1; 4; 200; 200; 4096; 1300; 1300; 1300; 1300; 1300].
Definition np_end_w : np :=
  match netperf np_argv_w (Np [] np_answers_w []) with Done _ s => s | _ => Np [] [] [] end.
Lemma np_run_w : netperf np_argv_w (Np [] np_answers_w []) = Done 0 np_end_w.
Proof. by vm_compute. Qed.
Lemma np_end_log : length (np_log np_end_w) = 21%nat.
Proof. by vm_compute. Qed.
Lemma np_arguments_w : arguments_ok np_argv_w.
Proof.
  split; [by apply (bool_decide_unpack _); vm_compute|].
  intros i s Hi. do 4 (destruct i as [|i]; [try lia; intros [= <-]; by eexists|]). done.
Qed.
#[local] Opaque np_end_w netperf.
Lemma netperf_contract_witness :
  open_fds (np_log np_end_w) = Some [] ∧ (measured RX_final np_end_w ∨ measured TX_final np_end_w).
Proof.
  pose proof (netperf_contract np_argv_w [] np_answers_w np_arguments_w) as H.
  unfold iwp in H. rewrite np_run_w in H. destruct H as (_ & Hf & _ & Hm). split; [exact Hf|].
  destruct (Hm eq_refl) as [Hm0|Hm1]; [|exact Hm1]. pose proof np_end_log as El. rewrite Hm0 in El. discriminate El.
Defined.
Definition np_answers_pos_w : list np_answer := (λ v, NpAnswer v []) <$> [100; 1; 3; 1; 1; 100; 1; 4; 200; 200; 4096; 4294967000].
Lemma netperf_long_never_returns_witness :
  iwp (netperf_tcp_server 5003 4295) (λ _ _, False) (λ _, True) (Np [] np_answers_pos_w []).
Proof. apply (netperf_long_never_returns 5003 4295); [lia|]. by apply (bool_decide_unpack _); vm_compute. Defined.

(** * The shell *)

(** The line: echo  a quoted b, with a tab in between. *)
Definition line_w : list Z := [101; 99; 104; 111; 32; 32; 34; 97; 32; 98; 34; 9; 99].
Lemma msh_split_tokens_witness :
  ∃ cmd' argv, msh_split (line_w ++ [0; 7]) 13 = Some (cmd', argv) ∧
    (λ j, cstr (drop j cmd')) <$> argv = [[101; 99; 104; 111]; [97; 32; 98]; [99]].
Proof.
  destruct (msh_split_tokens (line_w ++ [0; 7]) line_w [7]) as (cmd' & argv & E & _ & Ha);
    [done|by repeat constructor|]. exists cmd', argv. split; [exact E|]. rewrite Ha. reflexivity.
Defined.
Definition table_w : list finsh_syscall :=
  [Syscall [108; 105; 115; 116; 0] 134300000; Syscall (CMD_PREFIX ++ [112; 115; 0]) 134300001;
   Syscall (CMD_PREFIX ++ [110; 101; 116; 0]) 134300002].
(** "pX", left, backspace, a wrong key, "p", tab: "ps"; its end; up, " -m" behind it; its end. *)
Definition chs_w : list Z :=
  [112; 88; 27; 91; 68; 8; 112; 27; 91; 67; 8; 9; 13; 27; 91; 65; 32; 45; 109; 13].
Lemma finsh_shell_edits_witness :
  wp (finsh_keys table_w chs_w) (λ _ s, sh_calls s =
    [CallOf 134300001 [[112; 115]]; CallOf 134300001 [[112; 115]; [45; 109]]]) shell_init.
Proof.
  eapply wp_mono; [apply (finsh_shell_edits table_w chs_w
    (Editor WAIT_NORMAL [] 0 [[112; 115]; [112; 115; 32; 45; 109]] 2)
    [CallOf 134300001 [[112; 115]]; CallOf 134300001 [[112; 115]; [45; 109]]])|].
  - apply Forall_cons; split; [exists [108; 105; 115; 116]; split; [reflexivity|by repeat constructor]|].
    apply Forall_cons; split; [exists (CMD_PREFIX ++ [112; 115]); split; [reflexivity|by repeat constructor]|].
    apply Forall_cons; split; [exists (CMD_PREFIX ++ [110; 101; 116]); split; [reflexivity|by repeat constructor]|].
    by constructor.
  - reflexivity.
  - by intros u s [_ ?].
Defined.

(** Lines that reach 80 characters: of blanks, of one letter before a completion, and of one letter before "x 1". *)
Definition x_table_w : list finsh_syscall := [Syscall (CMD_PREFIX ++ [120; 0]) 134300001].
Lemma finsh_long_line_overruns_witness :
  finsh_keys [] (replicate 80 32 ++ [CR]) shell_init = None ∧
  finsh_keys [] (replicate 80 97 ++ [TAB; 97; BS; BS]) shell_init = None ∧
  wp (finsh_keys x_table_w (replicate 80 98 ++ [120; 32; 49] ++ [CR])) (λ _ s,
    sh_calls s = [CallOf 134300001 [[120]; 49 :: replicate 77 98]]) shell_init.
Proof.
  assert (∀ c, typeable c = true → Forall (λ c, typeable c = true) (replicate 80 c)) as Hr by (intros c ?; by apply Forall_replicate).
  assert (table_ok x_table_w) as Hx by (apply Forall_singleton; exists (CMD_PREFIX ++ [120]); by repeat constructor).
  split; [|split].
  - destruct (finsh_long_line_overruns [] editor_init shell_init (replicate 80 32) _ (Forall_nil_2 _) editor_init_run
      eq_refl eq_refl (Hr 32 eq_refl) eq_refl eq_refl) as [H _]. by apply (H 80%nat []); [|lia|constructor].
  - destruct (finsh_long_line_overruns [] editor_init shell_init (replicate 80 97) _ (Forall_nil_2 _) editor_init_run
      eq_refl eq_refl (Hr 97 eq_refl) eq_refl eq_refl) as (_ & H & _). by apply (H 97).
  - destruct (finsh_long_line_overruns x_table_w editor_init shell_init (replicate 80 98) _ Hx editor_init_run
      eq_refl eq_refl (Hr 98 eq_refl) eq_refl eq_refl) as (_ & _ & H).
    apply (H [[120]] [49]); [by repeat constructor|simpl; lia|simpl; lia|done].
Defined.
