(* ===== verification/DriverWitnesses.v ===== *)
(** The theorems on drivers and their buffers applied to concrete data. *)
From S2P Require Import Prelude Mem RingBuffer RingBlk BufHeap.

(** * Block ring buffers *)

(** A buffer of 100 bytes at 1000 with three descriptors. *)
Definition rbb_set_w : list rt_rbb_blk := replicate 3 (Blk RT_RBB_BLK_UNUSED 0 0).
Definition rbb_w : rt_rbb := Rbb 1000 100 rbb_set_w 3 [].
Lemma rbb_w_inv : rbb_inv rbb_w [].
Proof.
  constructor; [simpl; lia|done|by constructor|by constructor|].
  exists [], [], 1100. simpl. split_and!; [done|lia..].
Qed.
(** A block of 40 bytes, filled, and one of 30 bytes. *)
Definition rbb_bs2_w : list rt_rbb_blk := [Blk RT_RBB_BLK_PUT 40 1000; Blk RT_RBB_BLK_INITED 30 1040].
Definition rbb2_w : rt_rbb := Rbb 1000 100 (rbb_bs2_w ++ [Blk RT_RBB_BLK_UNUSED 0 0]) 3 [0%nat; 1%nat].
Lemma rbb2_w_inv : rbb_inv rbb2_w rbb_bs2_w.
Proof.
  constructor; [simpl; lia|done|by apply (bool_decide_unpack _)| |].
  - repeat constructor; done.
  - exists rbb_bs2_w, [], 1000. simpl. split_and!; [done|lia..].
Qed.
(** The reader gets the filled one. *)
Lemma rbb_refines_witness :
  ∃ r', rbb_call OpGet rbb2_w = Some (Some 0%nat, r') ∧
    rbb_spec [(0%nat, RT_RBB_BLK_PUT); (1%nat, RT_RBB_BLK_INITED)] OpGet (Some 0%nat)
             [(0%nat, RT_RBB_BLK_GET); (1%nat, RT_RBB_BLK_INITED)].
Proof.
  eexists. split; [reflexivity|].
  destruct (rbb_refines rbb2_w rbb_bs2_w OpGet rbb2_w_inv I) as (bs' & Hr & Hs).
  assert (slots_of (Rbb 1000 100 (Blk RT_RBB_BLK_GET 40 1000 :: Blk RT_RBB_BLK_INITED 30 1040 ::
    [Blk RT_RBB_BLK_UNUSED 0 0]) 3 [0%nat; 1%nat]) bs' = [(0%nat, RT_RBB_BLK_GET); (1%nat, RT_RBB_BLK_INITED)]) as <-;
    [|exact Hs].
  pose proof (rb_list _ _ Hr) as Hl. simpl in Hl.
  apply Forall2_cons_inv_l in Hl as (b & bs1 & [[= <-] _] & Hl & ->).
  by apply Forall2_cons_inv_l in Hl as (c & bs2 & [[= <-] _] & ->%Forall2_nil_inv_l & ->).
Defined.
(** The states after one and after two allocations. *)
Definition rbb_a_w : rt_rbb :=
  Rbb 1000 100 [Blk RT_RBB_BLK_INITED 40 1000; Blk RT_RBB_BLK_UNUSED 0 0; Blk RT_RBB_BLK_UNUSED 0 0] 3 [0%nat].
Definition rbb_b_w : rt_rbb :=
  Rbb 1000 100 [Blk RT_RBB_BLK_INITED 40 1000; Blk RT_RBB_BLK_INITED 30 1040; Blk RT_RBB_BLK_UNUSED 0 0] 3 [0%nat; 1%nat].
Lemma rbb_reachable_apart_witness :
  rtc rbb_step rbb_w rbb_b_w ∧
  ∃ b c, blk_set rbb_b_w !! 0%nat = Some b ∧ blk_set rbb_b_w !! 1%nat = Some c ∧ apart b c.
Proof.
  assert (rtc rbb_step rbb_w rbb_b_w) as Hsteps.
  { apply (rtc_l _ _ rbb_a_w); [apply (step_call _ (OpAlloc 40) (Some 0%nat)); [simpl; lia|by vm_compute]|].
    apply (rtc_l _ _ rbb_b_w); [apply (step_call _ (OpAlloc 30) (Some 1%nat)); [simpl; lia|by vm_compute]|].
    apply rtc_refl. }
  split; [exact Hsteps|].
  destruct (rbb_reachable_apart rbb_w 1000 100 rbb_set_w ltac:(lia) ltac:(lia) ltac:(lia) rbb_b_w Hsteps)
    as (bs & Hl & Hap & _).
  apply Forall2_cons_inv_l in Hl as (b & bs1 & [Hb _] & Hl & ->).
  apply Forall2_cons_inv_l in Hl as (c & bs2 & [Hc _] & _ & ->).
  exists b, c. split_and!; [exact Hb|exact Hc|by apply (Hap 0%nat 1%nat)].
Defined.
Lemma rt_rbb_queue_overwritten_witness :
  wp (o1 ← rt_rbb_blk_alloc 40; i1 ← lift o1; rt_rbb_blk_put i1;;
      '(total, q) ← rt_rbb_blk_queue_get 64 (BlkQueue 0 0);
      o2 ← rt_rbb_blk_alloc 100; i2 ← lift o2;
      b1 ← block i1; b2 ← block i2; mret (total, b1, b2))
     (λ '(total, b1, b2) _, total = 40 ∧ blk_status b1 = RT_RBB_BLK_GET ∧
        blk_status b2 = RT_RBB_BLK_INITED ∧ ¬ apart b1 b2) rbb_w.
Proof.
  by apply (rt_rbb_queue_overwritten rbb_w _ _ _ 40 100 64 (BlkQueue 0 0) rbb_w_inv eq_refl).
Defined.
Lemma rt_rbb_queue_wrong_blocks_witness :
  wp (rt_rbb_blk_alloc 40;; rt_rbb_blk_alloc 30;;
      rt_rbb_blk_put 0;; rt_rbb_blk_get;; rt_rbb_blk_free 0;;
      rt_rbb_blk_alloc 20;;
      rt_rbb_blk_put 1;; rt_rbb_blk_put 0;;
      rt_rbb_blk_queue_get 64 (BlkQueue 0 0))
     (λ '(total, q) r', total = 50 ∧ wp (rt_rbb_blk_queue_len q) (λ l _, l = 30) r' ∧
        rt_rbb_blk_queue_free q r' = None) rbb_w.
Proof.
  apply (rt_rbb_queue_wrong_blocks rbb_w _ _ _ [] 40 30 20 64 (BlkQueue 0 0) rbb_w_inv eq_refl);
    [by repeat constructor|simpl; lia..].
Defined.

(** A heap of 280 bytes with no area in use. *)
Lemma buffers_do_not_leak_witness :
  owns heap1 [] ∧
  wp (o ← rt_ringbuffer_create 64 [];
      match o with Some (rb, buffer_ptr, _) => rt_ringbuffer_destroy rb buffer_ptr | None => mret tt end)
     (λ _ h', owns h' []) heap1.
Proof.
  assert (owns heap1 []) as HA by (exists blocks1; split; [exact heap1_inv|reflexivity]).
  split; [exact HA|].
  exact (proj1 (buffers_do_not_leak heap1 [] 64 [] 64 3 rbb_set_w HA ltac:(lia) ltac:(lia) ltac:(lia) eq_refl)).
Defined.
