(* ===== verification/SerialWitnesses.v ===== *)
(** The theorems on serial devices and on the shell behind one, applied to a concrete UART. *)
From S2P Require Import Prelude Kservice Mem KState Sched Object Timer Thread Ipc Sem DriverIpc DataQueue Completion Device Serial SerialRx SerialDma Msh Shell ShellInput Checks Scenario.

(** * A serial device *)

(** A UART whose state are the characters that it has received. *)
#[export] Instance uart_w : UartOps (list Z) := {|
  uart_configure _ _ h := (0, h); uart_control _ _ _ h := (0, h); uart_putc _ _ h := (1, h);
  uart_getc _ h := match h with [] => (-1, []) | c :: h => (c, h) end;
  uart_dma_transmit _ _ _ _ h := (0, h) |}.
(** The functions of owners: 777 is finsh_rx_ind with the semaphore 5100. *)
#[export] Instance serial_callbacks_w : SerialCallbacks := {|
  rx_indicate_fn f dev size := if f =? 777 then rt_sem_release 5100;; mret RT_EOK else mret 0;
  tx_complete_fn _ _ _ := mret 0;
  addr_serial_init := 701; addr_serial_open := 702; addr_serial_close := 703;
  addr_serial_read := 704; addr_serial_write := 705; addr_serial_control := 706 |}.
#[export] Instance shell_indicate_w : ShellIndicate 5100 := Build_ShellIndicate _ _ 5100 777 (λ _ _, eq_refl).
Lemma uart_drains_w dev cs : Forall (λ c, c ≠ -1) cs → drains (UO:=uart_w) dev cs cs [].
Proof. induction 1; [by apply drains_end|]. by eapply drains_more. Qed.

(** The device 9000 with a buffer of [n] bytes; registration, initialisation and opening with [oflag]
    through the framework. *)
Definition uart_config (n : Z) : serial_configure := SerialConfig 115200 8 0 0 0 0 n 0.
Definition uart_setup (flag oflag rx_ind : Z) : M (sstate (list Z)) unit :=
  rt_hw_serial_register 9000 [117; 0] flag 0;;
  rt_serial_init 9000;;
  rt_serial_open 9000 oflag;;
  kcall (upd_device 9000 (set_dev_ref_count 1));;
  kcall (rt_device_set_rx_indicate 9000 rx_ind);;
  mret tt.
Definition uart_reset (n : Z) : sstate (list Z) :=
  SState (set_devices (<[9000 := Device 0 0 0 0 0 0 0 0 0 0 0 0 0 0]> (devices k_run)) k_run) ∅ ∅
    {[ 9000 := Serial (uart_config n) RxNull TxNull ]} false [].
Definition uart_after (m : M (sstate (list Z)) unit) (s : sstate (list Z)) : sstate (list Z) :=
  match m s with Some (_, s') => s' | None => s end.
Definition s_int : sstate (list Z) := Eval vm_compute in uart_after (uart_setup 0x303 0x103 0) (uart_reset 4).
Definition s_dma : sstate (list Z) := Eval vm_compute in uart_after (uart_setup 0x303 0x203 0) (uart_reset 4).
Definition s_shell : sstate (list Z) := Eval vm_compute in uart_after (uart_setup 0x303 0x143 777) (uart_reset 4).

Definition uart_fifo : rt_serial_rx_fifo := RxFifo [0; 0; 0; 0] 0 0 false.
Definition uart_dev (open_flag rx_ind : Z) : rt_device :=
  Device 0 0x303 open_flag 1 0 rx_ind 0 701 702 703 704 705 706 0.
Lemma uart_fifo_ok : fifo_ok 4 uart_fifo.
Proof. constructor; simpl; try lia. by repeat constructor. Qed.
Lemma s_int_open : rx_open 9000 4 [] s_int.
Proof.
  apply (rx_open_flag 9000 4 [] (uart_dev 0x103 0)); [by vm_compute|]. split; [|done].
  exists (Serial (uart_config 4) (RxInt 536882212 uart_fifo) TxNull), 536882212, uart_fifo, (uart_dev 0x103 0).
  split_and!; [|done..|by vm_compute].
  constructor; [by vm_compute|done|apply uart_fifo_ok|done].
Qed.
Lemma s_shell_open : rx_open 9000 4 [] s_shell.
Proof.
  apply (rx_open_flag 9000 4 [] (uart_dev 0x143 777)); [by vm_compute|]. split; [|done].
  exists (Serial (uart_config 4) (RxInt 536882212 uart_fifo) TxNull), 536882212, uart_fifo, (uart_dev 0x143 777).
  split_and!; [|done..|by vm_compute].
  constructor; [by vm_compute|done|apply uart_fifo_ok|done].
Qed.
Lemma s_dma_open : dma_open 9000 4 [] s_dma.
Proof.
  exists (Serial (uart_config 4) (RxInt 536882212 uart_fifo) TxNull), 536882212, uart_fifo, (uart_dev 0x203 0).
  split_and!; [|done|done|by vm_compute|done..].
  constructor; [by vm_compute|done|done|apply uart_fifo_ok|done].
Qed.

(** An owner of devices that does nothing. *)
Definition quiet_callbacks : SerialCallbacks := {|
  rx_indicate_fn _ _ _ := mret 0; tx_complete_fn _ _ _ := mret 0;
  addr_serial_init := 701; addr_serial_open := 702; addr_serial_close := 703;
  addr_serial_read := 704; addr_serial_write := 705; addr_serial_control := 706 |}.
Lemma quiet_laws : IndicateLaws (SC:=quiet_callbacks) 9000 (λ _, True).
Proof. split; [|done]. intros fn n k _. by apply wp_ret. Qed.
(** Five characters come while there is room for three, then two reads. *)
Definition rx_script : list (rx_event (HW:=list Z)) :=
  [Arrive [97; 98] [97; 98]; Arrive [99; 100; 101] [99; 100; 101]; Take 2; Take 2].
Lemma rx_script_ok : Forall (event_ok 9000) rx_script.
Proof.
  repeat apply List.Forall_cons; [exists []; apply uart_drains_w; by repeat constructor..|done|done|by constructor].
Qed.
Lemma serial_rx_refines_witness :
  wp (rx_run (SC:=quiet_callbacks) (λ _ _, []) 9000 rx_script) (λ outs _, outs = [[]; []; [99; 100]; [101]]) s_int.
Proof.
  pose proof (serial_rx_refines (SC:=quiet_callbacks) 9000 4 (λ _, True) (IndicateLaws0:=quiet_laws)
    (λ _ _, []) rx_script [] s_int ltac:(lia) s_int_open Logic.I rx_script_ok) as H.
  eapply wp_mono; [exact H|]. intros outs s' [-> _]. reflexivity.
Defined.
Lemma ab_ok : Forall (λ c, c ≠ -1) [97; 98].
Proof. by repeat constructor. Qed.
Lemma serial_second_open_deafens_witness :
  wp (r ← rt_serial_open 9000 3;
      modify (put_hw [97; 98]);; rt_hw_serial_isr (SC:=quiet_callbacks) 3 (λ _ _, []) 9000 RT_SERIAL_EVENT_RX_IND;;
      d ← rt_serial_read 9000 2; mret (r, d))
     (λ o _, o = (RT_EOK, (0, []))) s_int.
Proof.
  pose proof (serial_second_open_deafens (SC:=quiet_callbacks) 9000 4 [] (λ _, True) (IndicateLaws0:=quiet_laws)
    (λ _ _, []) 3 [97; 98] [97; 98] [] [] 2 s_int ltac:(lia) s_int_open Logic.I eq_refl (uart_drains_w 9000 [97; 98] ab_ok) eq_refl) as H.
  eapply wp_mono; [exact H|]. by intros o s' [-> _].
Defined.
(** The channel goes round the buffer of four. *)
Definition dma_script : list dma_event := [Stored [97; 98; 99]; TakeDma 1; Stored [100; 101; 102]; TakeDma 9].
Lemma dma_script_ok : Forall (dma_event_ok 4) dma_script.
Proof.
  repeat apply List.Forall_cons; [|done| |done|by constructor]; (split; [by vm_compute|]); by repeat constructor.
Qed.
Lemma serial_dma_refines_witness :
  wp (dma_run (SC:=quiet_callbacks) (λ _ _, []) 9000 dma_script)
     (λ outs _, outs = [[]; [97]; []; [99; 100; 101; 102]]) s_dma.
Proof.
  pose proof (serial_dma_refines (SC:=quiet_callbacks) 9000 4 (λ _, True) (IndicateLaws0:=quiet_laws)
    (λ _ _, []) dma_script [] s_dma ltac:(lia) s_dma_open Logic.I dma_script_ok) as H.
  eapply wp_mono; [exact H|]. intros outs s' [-> _]. reflexivity.
Defined.

(** The shell's thread is main, and it is its turn. *)
Lemma s_shell_kernel : shell_kernel (SC:=serial_callbacks_w) 9000 5100 (uart_dev 0x143 777) 0 (s_kernel s_shell).
Proof.
  constructor.
  - apply kinv_check. by vm_compute.
  - constructor; [|done|done|done]. constructor; [done|by vm_compute| |simpl; lia].
    eexists. split; [vm_compute; reflexivity|by vm_compute].
  - constructor; [by vm_compute|calc|done|by_object].
  - done.
Qed.
Definition s_typed : sstate (list Z) := Eval vm_compute in
  uart_after (rt_hw_serial_isr 3 (λ _ _, []) 9000 RT_SERIAL_EVENT_RX_IND) (put_hw [97; 98] s_shell).
Definition s_read : sstate (list Z) := Eval vm_compute in
  match read_char 9000 s_typed with Some (_, s) => s | None => s_typed end.
Definition sh_a : finsh_shell := Eval vm_compute in
  match finsh_key [] 97 shell_init with Some (_, sh) => sh | None => shell_init end.
Definition typed_w : sys (HW:=list Z) := Sys Reading s_read sh_a [Arrive [97; 98] [97; 98]; Take 1].
Lemma typed_steps : rtc (sys_step [] 9000 5100 main_w (λ _ _, [])) (Sys Reading s_shell shell_init []) typed_w.
Proof.
  eapply rtc_l; [apply (sys_irq [] 9000 5100 main_w (λ _ _, []) Reading s_shell shell_init [] [97; 98] [97; 98] [] s_typed)|].
  - apply (uart_drains_w 9000 [97; 98] ab_ok).
  - by vm_compute.
  - eapply rtc_l; [|apply rtc_refl].
    apply (sys_shell [] 9000 5100 main_w (λ _ _, []) Reading s_typed shell_init [Arrive [97; 98] [97; 98]] Reading s_read sh_a).
    + exists (th_of (s_kernel s_typed) main_w). by constructor; vm_compute.
    + exists idle_w, (th_of (s_kernel s_typed) idle_w). by repeat split; vm_compute.
    + by vm_compute.
Qed.
Lemma finsh_never_deaf_witness :
  finsh_keys [] [97] shell_init = Some (tt, sh_a) ∧ rx_open 9000 4 [98] s_read ∧ arrivals (y_trace typed_w) = [97; 98].
Proof.
  assert (∃ th, threads (s_kernel s_shell) !! main_w = Some th ∧ stat_of th = RT_THREAD_READY) as Hth
    by (exists (th_of (s_kernel s_shell) main_w); by split; vm_compute).
  pose proof (finsh_never_deaf [] 9000 5100 main_w 4 (uart_dev 0x143 777) shell_init (λ _ _, []) s_shell typed_w
    s_shell_open (ex_intro _ 0 s_shell_kernel) eq_refl Hth typed_steps) as (H1 & _ & Hall & H2 & _).
  split; [exact H1|]. split; [exact H2|]. symmetry. by apply Hall.
Defined.
