(* ===== verification/QueueWitnesses.v ===== *)
(** The theorems on work queues and wait queues applied to concrete queues. *)
From S2P Require Import Prelude Kservice Mem KState Sched Object Timer Thread ThreadInit Ipc Sem DriverIpc WorkQueue WaitQueue Checks Scenario.

(** * A work queue *)

#[export] Instance work_fns_w : WorkFns := {|
  work_fn _ _ _ := mret tt;
  addr_workqueue_thread_entry := 134280000; addr_delayed_work_timeout_handler := 134281000; libc_EINVAL := 22 |}.
(** The thread of the queue has priority 5 and runs at once; two works. *)
Definition wq_setup : W Z :=
  queue ← rt_workqueue_create [119; 0] 512 5;
  rt_work_init 9300 134282000 0;; rt_work_init 9400 134282000 0;;
  mret queue.
Definition wq_result : Z * wstate := Eval vm_compute in
  match wq_setup (WState k_run ∅ ∅) with Some r => r | None => (0, WState k_run ∅ ∅) end.
Definition wq_w : Z := Eval vm_compute in wq_result.1.
Definition s_wq : wstate := Eval vm_compute in wq_result.2.
Definition worker_w : Z := Eval vm_compute in default 0 (work_thread <$> w_queues s_wq !! wq_w).
Definition works_w : gset Z := {[ 9300; 9400 ]}.
Lemma s_wq_kernel : wq_kernel wq_w worker_w (w_kernel s_wq).
Proof.
  constructor.
  - apply kinv_check. by vm_compute.
  - exists idle_w, (th_of (w_kernel s_wq) idle_w). by split; vm_compute.
  - constructor; [by vm_compute|calc|by vm_compute|by_object].
  - exists (th_of (w_kernel s_wq) worker_w). by split; vm_compute.
Qed.
Lemma s_wq_ok : wq_ok wq_w worker_w works_w (WqAbs [] 0) s_wq.
Proof.
  assert (map_Forall (λ _ x, has_bits RT_WORK_STATE_PENDING (wk_flags x) = false ∧
    has_bits RT_WORK_TYPE_DELAYED (wk_type x) = false) (w_works s_wq)) as Hf by (apply (bool_decide_unpack _); by vm_compute).
  constructor; [by vm_compute|apply s_wq_kernel|by vm_compute|by vm_compute|constructor|by vm_compute| |].
  - intros w Hw. by apply elem_of_nil in Hw.
  - intros w x Hx. destruct (Hf w x Hx) as [-> ->]. done.
Qed.
Lemma s_wq_running : running worker_w (th_of (w_kernel s_wq) worker_w) (w_kernel s_wq).
Proof. by constructor; vm_compute. Qed.
Lemma s_wq_other : other_ready worker_w (w_kernel s_wq).
Proof. exists idle_w, (th_of (w_kernel s_wq) idle_w). by repeat split; vm_compute. Qed.
Lemma s_wq_next : next_to_run worker_w (w_kernel s_wq).
Proof.
  exists 5, []. split; [lia|]. split; [by vm_compute|].
  assert (Forall (λ q, tl (LReady q) (w_kernel s_wq) = []) (seqZ 0 5)) as Hf by (apply (bool_decide_unpack _); by vm_compute).
  intros q Hq. rewrite Forall_forall in Hf. apply Hf, elem_of_seqZ. lia.
Qed.
(** Two works are submitted, one of them twice, one is cancelled, the other is done. *)
Definition wq_script : list wq_event := [Submit 9300; Submit 9400; Submit 9300; Cancel 9300; Take; Submit 9400; Done].
Lemma wq_script_ok : Forall (λ e, ∀ w, event_work e = Some w → w ≠ 0 ∧ w ∈ works_w) wq_script.
Proof. repeat apply List.Forall_cons; try (intros w [= <-]; split; [done|by apply (bool_decide_unpack _)]); try done. Qed.
Lemma workqueue_refines_witness :
  wp (wq_run wq_w wq_script) (λ rs _, rs = [0; 0; - RT_EBUSY; 0; 9400; - RT_EBUSY; 0]) s_wq.
Proof.
  pose proof (workqueue_refines wq_w worker_w works_w wq_script (WqAbs [] 0) [0; 0; - RT_EBUSY; 0; 9400; - RT_EBUSY; 0]
    (WqAbs [] 0) s_wq s_wq_ok wq_script_ok eq_refl) as H.
  eapply wp_mono; [exact H|]. by intros rs s' [-> _].
Defined.
Lemma workqueue_misses_witness :
  wp (p1 ← worker_step wq_w WCheck; r ← rt_workqueue_submit_work wq_w 9300 0; p2 ← worker_step wq_w p1; mret (r, p2))
     (λ '(r, p2) s', r = RT_EOK ∧ p2 = WTake) s_wq.
Proof.
  assert (9300 ∈ works_w) as Hw by by apply (bool_decide_unpack _).
  pose proof (proj1 (workqueue_misses wq_w worker_w works_w (th_of (w_kernel s_wq) worker_w) 9300 s_wq
    s_wq_ok s_wq_running s_wq_other s_wq_next ltac:(lia) Hw)) as H.
  eapply wp_mono; [exact H|]. by intros [r p2] s' (? & ? & _).
Defined.

(** * A wait queue *)

#[export] Instance wake_fns_w : WakeFns := {| wake_fn f node key := if f =? 801 then mret 0 else mret 1; addr_default_wake := 801 |}.
#[export] Instance wake_laws_w : WakeLaws.
Proof. by split. Defined.
Definition s_wait0 : qstate := QState k_run {[ 9500 := Wqueue 0 [] ]} ∅.
(** main waits for five seconds, and thread 6000 without a timeout. *)
Definition wait_both : WQ unit :=
  rt_wqueue_wait 9500 7701 false 5000;; rt_wqueue_wait 9500 7702 false (-1);; mret tt.
Definition s_wait2 : qstate := Eval vm_compute in match wait_both s_wait0 with Some (_, s) => s | None => s_wait0 end.
Lemma rt_wqueue_handover_witness :
  wp (rt_wqueue_wakeup 9500 0;; r1 ← rt_wqueue_wait 9500 7701 false 5000; mret r1) (λ r _, r = Ret 0) s_wait0.
Proof.
  pose proof (proj2 (rt_wqueue_handover 9500 7701 5000 0 main_w (th_of k_run main_w) s_wait0 eq_refl k_run_inv k_run_main
    k_run_other (or_intror (conj eq_refl eq_refl)))) as H.
  eapply wp_mono; [exact H|]. by intros r s' [-> _].
Defined.
Lemma s_wait2_inv : kinv 0 (q_kernel s_wait2).
Proof. apply kinv_check. by vm_compute. Qed.
Lemma s_wait2_queues : q_wqueues s_wait2 = {[ 9500 := Wqueue 0 [7701; 7702] ]}.
Proof. by vm_compute. Qed.
Lemma s_wait2_nodes :
  q_nodes s_wait2 !! 7701 = Some (WqNode main_w addr_default_wake 0) ∧
  q_nodes s_wait2 !! 7702 = Some (WqNode 6000 addr_default_wake 0).
Proof. by split; vm_compute. Qed.
Lemma s_wait2_threads :
  (threads (q_kernel s_wait2) !! main_w = Some (th_of (q_kernel s_wait2) main_w) ∧
   stat_of (th_of (q_kernel s_wait2) main_w) = RT_THREAD_SUSPEND) ∧
  (threads (q_kernel s_wait2) !! 6000 = Some (th_of (q_kernel s_wait2) 6000) ∧
   stat_of (th_of (q_kernel s_wait2) 6000) = RT_THREAD_SUSPEND).
Proof. by repeat split; vm_compute. Qed.
Lemma rt_wqueue_wakeup_wasted_witness :
  wp (in_q (rt_timer_stop (ThTimer main_w);; rt_thread_timeout main_w);; rt_wqueue_wakeup 9500 0;;
      r ← rt_wqueue_wait_resume 9500 7701; mret r)
     (λ r s', q_wqueues s' = {[ 9500 := Wqueue 0 [7702] ]} ∧
        threads (q_kernel s') !! 6000 = Some (th_of (q_kernel s_wait2) 6000)) s_wait2.
Proof.
  assert (main_w ≠ 6000) as Hne by done.
  pose proof (rt_wqueue_wakeup_wasted 9500 7701 7702 main_w 6000 (th_of (q_kernel s_wait2) main_w) (th_of (q_kernel s_wait2) 6000)
    0 s_wait2 s_wait2_queues ltac:(lia) Hne (proj1 s_wait2_nodes) (proj2 s_wait2_nodes) s_wait2_inv
    (proj1 (proj1 s_wait2_threads)) (proj2 (proj1 s_wait2_threads)) (proj1 (proj2 s_wait2_threads)) (proj2 (proj2 s_wait2_threads))) as H.
  eapply wp_mono; [exact H|]. intros r s' (_ & H1 & H2 & _). split; [exact H1|exact H2].
Defined.
