(* ===== verification/PipeWitnesses.v ===== *)
(** The theorems on pipes applied to a concrete pipe. *)
From S2P Require Import Prelude RingBuffer Kservice Mem KState Sched Object Timer Thread ThreadInit Ipc Mutex Device Pipe Checks Scenario.

#[export] Instance pipe_consts_w : PipeConsts := {|
  pipe_EINVAL := 22; pipe_ENODEV := 19; addr_rt_pipe_open := 134283000; addr_rt_pipe_close := 134283100;
  addr_rt_pipe_read := 134283200; addr_rt_pipe_write := 134283300; addr_rt_pipe_control := 134283400 |}.
(** A pipe of 8 bytes is created and opened. *)
Definition pipe_setup : P Z :=
  pipe ← rt_pipe_create [112; 0] 8;
  in_p (upd_device pipe (λ d, set_dev_ref_count 1 d));;
  _ ← rt_pipe_open pipe (replicate 8 0);
  mret pipe.
Definition pipe_result : Z * pstate := Eval vm_compute in
  match pipe_setup (PState k_run ∅) with Some r => r | None => (0, PState k_run ∅) end.
Definition pipe_w : Z := Eval vm_compute in pipe_result.1.
Definition s_pipe : pstate := Eval vm_compute in pipe_result.2.
Definition s_pipe_kernel : kernel := Eval vm_compute in p_kernel s_pipe.
Lemma s_pipe_ok : pipe_ok pipe_w main_w 8 [] s_pipe.
Proof.
  split; [change (p_kernel s_pipe) with s_pipe_kernel; constructor|].
  - apply kinv_check. by vm_compute.
  - constructor; [by vm_compute| |by split; vm_compute]. eexists. split; [by vm_compute|]. split; [done|by left].
  - exists (th_of s_pipe_kernel main_w). by constructor; vm_compute.
  - eexists _, _, (RB (replicate 8 0) false 0 false 0 8), 8. split; [by vm_compute|].
    split; [by constructor; vm_compute|by split].
Qed.
(** Six bytes are written, three read, six more written, of which five fit, and all of them read. *)
Definition pipe_script : list pipe_event := [PWrite [1; 2; 3; 4; 5; 6]; PRead 3; PWrite [7; 8; 9; 10; 11; 12]; PRead 100].
Lemma pipe_script_ok : Forall pipe_event_ok pipe_script.
Proof. repeat apply List.Forall_cons; by vm_compute. Qed.
Lemma pipe_refines_witness :
  wp (pipe_run pipe_w pipe_script) (λ rs _, rs = [Ret (inl 6); Ret (inr [1; 2; 3]); Ret (inl 5); Ret (inr [4; 5; 6; 7; 8; 9; 10; 11])]) s_pipe.
Proof.
  assert (pipe_w ≠ 0) as Hne by done.
  pose proof (pipe_refines pipe_w main_w 8 [] pipe_script s_pipe s_pipe_ok pipe_script_ok Hne) as H.
  eapply wp_mono; [exact H|]. by intros rs s' [-> _].
Defined.
Definition d_pipe : rt_device := Eval vm_compute in default inhabitant (devices s_pipe_kernel !! pipe_w).
Lemma s_pipe_device : dev_ok pipe_w d_pipe (p_kernel s_pipe).
Proof. constructor; [done|by vm_compute|eexists; split; [by vm_compute|done]|by split; vm_compute]. Qed.
Lemma pipe_close_keeps_fifo_witness :
  wp (pipe_device_close pipe_w) (λ r s', r = Ret RT_EOK ∧ p_pipes s' = p_pipes s_pipe) s_pipe.
Proof.
  pose proof (pipe_close_keeps_fifo pipe_w main_w 8 [] d_pipe s_pipe s_pipe_ok s_pipe_device eq_refl eq_refl) as H.
  eapply wp_mono; [exact H|]. by intros r s' (-> & -> & _).
Defined.
