(* ===== verification/SensorWitnesses.v ===== *)
(** The theorems on the camera's sensor and on captures applied to a concrete device behind the bus: registers in two
    banks, with the identifiers of an OV2640 or without. *)
From S2P Require Import Prelude Sccb Sensor Kservice Mem KState Sched Object Timer Thread ThreadInit Ipc Sem Dcmi Checks Scenario.

(** * The device *)

(** The bank, and the registers by 256 times their bank plus their number. *)
Definition ov_w : Type := Z * gmap Z Z.
Definition ov_key (b r : Z) : Z := 256 * b + r.
#[export] Instance ov_registers_w : Registers ov_w := {
  reg_write r v d := if r =? 0xFF then (v, d.2) else (d.1, <[ov_key d.1 r := v]> d.2);
  reg_read r d := default 0 (d.2 !! ov_key d.1 r) `mod` 256 }.
#[export] Instance ov_laws_w : RegistersLaws ov_w.
Proof. constructor. intros r d. by apply Z.mod_pos_bound. Qed.
#[export] Instance ov_banked_w : Banked ov_w := { bank d := d.1; reg_at b r d := default 0 (d.2 !! ov_key b r) `mod` 256 }.
Lemma plain_not_select b r : plain b r = true → (r =? 0xFF) = false.
Proof.
  intros H. apply Z.eqb_neq. intros ->. unfold plain in H. destruct b as [|[]|]; vm_compute in H; discriminate.
Qed.
#[export] Instance ov_ov2640_w : Ov2640 ov_w.
Proof.
  constructor.
  - done.
  - done.
  - done.
  - intros r v d H. cbn. by rewrite (plain_not_select _ _ H).
  - intros r v d H Hv. cbn. rewrite (plain_not_select _ _ H). cbn. rewrite lookup_insert_eq. cbn. by apply Z.mod_small.
  - intros r v d r' H H' Hne. cbn. rewrite (plain_not_select _ _ H). cbn. rewrite lookup_insert_ne; [done|].
    unfold ov_key. lia.
Qed.
(** One with the identifiers of an OV2640, and a bus on which nothing answers. *)
Definition ov_good : ov_w := (0, {[ ov_key 1 0x1C := 0x7F; ov_key 1 0x1D := 0xA2; ov_key 1 0x0A := 0x26; ov_key 1 0x0B := 0x42 ]}).
Definition ov_bad : ov_w := (0, ∅).
Definition peer_w (d : ov_w) : Peer := {| peer_sda h := slave_sda ATK_MC2640_SCCB_ADDR (slave_of ATK_MC2640_SCCB_ADDR d (wires h)) |}.
Lemma peer_w_device d : @peer_is_device ov_w _ ATK_MC2640_SCCB_ADDR d (peer_w d).
Proof. by intros h. Qed.

(** * The sensor *)

Definition camera_reset : camera := Camera (Pins false false false []) false false 0 0 false.
Lemma camera_reset_bus : bus_fresh (cam_bus camera_reset).
Proof. done. Qed.
(** The bus rests after one stop condition. *)
Definition camera_rest : camera := Camera (Pins true true false [(true, true); (true, false); (false, false)]) true false 0 0 false.
Lemma camera_rest_at d : sensor_at d d camera_rest.
Proof. exists 0, [Stop]. split; [by repeat split; exists false|]. by exists [], 0%nat, 0. Qed.

Lemma registers_refine_witness :
  wp (@access_all (peer_w ov_good) [RegWrite 0xFF 1; RegRead 0x1C; RegWrite 0x03 0x5A; RegRead 0x03])
    (λ vs _, vs = [0x7F; 0x5A]) camera_rest.
Proof.
  pose proof (@registers_refine (peer_w ov_good) ov_w _ _ ov_good (peer_w_device ov_good)
    [RegWrite 0xFF 1; RegRead 0x1C; RegWrite 0x03 0x5A; RegRead 0x03] ov_good camera_rest (camera_rest_at ov_good)
    ltac:(repeat apply List.Forall_cons; by repeat split)) as H.
  eapply wp_mono; [exact H|]. by intros vs s' [-> _].
Defined.
Lemma atk_mc2640_init_checks_witness :
  wp (@atk_mc2640_init (peer_w ov_bad)) (λ r s', r = ATK_MC2640_ERROR ∧ cam_dcmi s' = false) camera_reset.
Proof.
  pose proof (@atk_mc2640_init_checks (peer_w ov_bad) ov_w _ _ ov_bad (peer_w_device ov_bad) camera_reset camera_reset_bus) as H.
  assert (mid_ok ov_bad && pid_ok ov_bad = false) as E by by vm_compute.
  eapply wp_mono; [exact H|]. intros r s' (_ & _ & H'). rewrite E in H'. destruct H' as (-> & -> & _). split; reflexivity.
Defined.
Lemma output_size_roundtrip_witness :
  wp (r ← @atk_mc2640_set_output_size (peer_w ov_good) 320 240; wh ← @read_size (peer_w ov_good); mret (r, wh))
    (λ '(r, wh) s', r = ATK_MC2640_EOK ∧ wh = (320, 240)) camera_rest.
Proof.
  pose proof (@output_size_roundtrip (peer_w ov_good) ov_w _ _ _ _ ov_good (peer_w_device ov_good) 320 240 ov_good camera_rest
    (camera_rest_at ov_good) ltac:(lia) ltac:(lia) eq_refl eq_refl) as H.
  eapply wp_mono; [exact H|]. intros [r wh] s' (-> & _ & ->). split; reflexivity.
Defined.
Lemma sensor_window_set_witness :
  wp (@atk_mc2640_set_sensor_window (peer_w ov_good) 8 4 800 600) (λ _ s', ∃ d', sensor_at ov_good d' s' ∧ bank d' = 1) camera_rest.
Proof.
  pose proof (@sensor_window_set (peer_w ov_good) ov_w _ _ _ _ ov_good (peer_w_device ov_good) 8 4 800 600 ov_good camera_rest
    (camera_rest_at ov_good) ltac:(lia) ltac:(lia) ltac:(lia) ltac:(lia)) as H.
  eapply wp_mono; [exact H|]. intros r s' (d' & H1 & H2 & _). exists d'. split; [exact H1|exact H2].
Defined.
Lemma image_window_set_witness :
  wp (@atk_mc2640_set_image_window (peer_w ov_good) 0 0 800 600) (λ r _, r = ATK_MC2640_EOK) camera_rest.
Proof.
  pose proof (@image_window_set (peer_w ov_good) ov_w _ _ _ _ ov_good (peer_w_device ov_good) 0 0 800 600 ov_good camera_rest
    (camera_rest_at ov_good)) as H. cbn [negb orb Z.eqb] in H.
  eapply wp_mono; [exact H|]. intros r s' [-> _]. reflexivity.
Defined.

(** * Captures *)

#[export] Instance hal_w : Hal := {| start_dma _ _ := 0; dcmi_sem := 5100 |}.
(** main captures; the semaphore at 5100 is 0. *)
Definition s_cap : dcmi := Dcmi (Camera (Pins true true false []) true false 320 240 true) k_run (DmaInit 0 0 0 0 0) None 0.
Lemma s_cap_ok : capture_ok main_w s_cap.
Proof.
  constructor; [done|apply k_run_inv|apply k_run_sem0|by vm_compute|eexists; apply k_run_main|apply k_run_other].
Qed.
Lemma start_dma_w len : start_dma 0x20000000 len = 0.
Proof. done. Qed.
Lemma capture_handover_witness :
  wp (r1 ← atk_mc2640_get_frame_sized 0x20000000 5 None 32768; transfer ← gets dc_running;
      HAL_DCMI_FrameEventCallback;; r2 ← atk_mc2640_get_frame_sized_resume main_w; mret (r1, transfer, r2))
    (λ '(r1, transfer, r2) s', r2 = ATK_MC2640_EOK ∧ dc_running s' = None) s_cap.
Proof.
  pose proof (capture_handover main_w 0x20000000 32768 s_cap s_cap_ok start_dma_w ltac:(lia)) as H.
  eapply wp_mono; [exact H|]. intros [[r1 tr] r2] s' (_ & _ & -> & -> & _). split; reflexivity.
Defined.
Lemma capture_stale_event_witness :
  wp (r1 ← atk_mc2640_dcmi_start 0x20000000 0 0 100; in_k (rt_timer_stop (ThTimer main_w);; rt_thread_timeout main_w);;
      HAL_DCMI_FrameEventCallback;; r2 ← atk_mc2640_dcmi_start_resume main_w;
      r3 ← atk_mc2640_dcmi_start 0x20000000 0 0 100; mret (r1, r2, r3))
    (λ '(r1, r2, r3) s', r2 = ATK_MC2640_DCMI_ERROR ∧ r3 = Ret ATK_MC2640_DCMI_EOK) s_cap.
Proof.
  pose proof (capture_stale_event main_w 0x20000000 0 0 100 100 s_cap s_cap_ok eq_refl eq_refl) as H.
  eapply wp_mono; [exact H|]. intros [[r1 r2] r3] s' (_ & -> & -> & _). split; reflexivity.
Defined.
Definition s_off : dcmi := Dcmi camera_reset k_run (DmaInit 0 0 0 0 0) None 0.
Lemma capture_after_rejection_witness :
  wp (in_camera (@eth_camera_init (peer_w ov_bad)))
    (λ _ s', atk_mc2640_get_frame_sized 0x20000000 5 None 32768 s' = None) s_off.
Proof.
  pose proof (@capture_after_rejection (peer_w ov_bad) _ ov_w _ _ ov_bad (peer_w_device ov_bad) s_off camera_reset_bus eq_refl
    ltac:(by vm_compute)) as H.
  eapply wp_mono; [exact H|]. intros [] s' [_ H']. apply H'. lia.
Defined.
